(* ===== verification/_CoqProject ===== *)
-Q . S2P
Prelude.v
GoStrings.v
GoText.v
Lines.v
GoCrypto.v
GoJson.v
GoFloat.v
GoNet.v
GoTime.v
Store.v
GoPath.v
GoFiles.v
Stops.v
GoRoot.v
RootTrees.v
AuditTrail.v
Access.v
Authorization.v
Approval.v
Credential.v
FileManager.v
FileSafety.v
FileTrash.v
TrashSafety.v
BackupCrypt.v
PanelBackup.v
PanelRestore.v
RestoreSafety.v
RestoreRun.v
Preview.v
RateLimit.v
Session.v
Totp.v
TaskReporter.v
SoftTask.v
KeyTrust.v
Alarm.v
Monitoring.v
ServiceHealth.v
FirewallRule.v
Firewall.v
FirewallHosts.v
FirewallSafety.v
FirewallEffect.v
PanelNetwork.v
NetworkTransaction.v
NetworkSafety.v
NetworkRecovery.v
Ticket.v
Authentication.v
Login.v
PasswordGuard.v
