(* ===== verification/Prelude.v ===== *)
(** * Verification of the Oneinstack server panel

    The panel is a Go program that runs as root on a server and is driven over
    HTTP.  This library models the part of it that decides who may do what and
    keeps the records of it, and proves what makes that part correct.

    ** The program and the files

    A request passes a rate limit, the authentication, the loading of the
    permissions, the guards of its route, and ends in a handler; an audit
    middleware records it.  Files are named after the component they model:

    - [GoStrings], [GoText], [GoCrypto], [GoJson], [GoFloat], [GoNet]: the
      language and its standard library as far as the sources use it: strings as
      bytes with Go's decoding of UTF-8, [strings], [strconv], [sort] and
      [unicode], base32, base64, SHA-1, SHA-256 and HMAC, the JSON encoding of
      strings, numbers and flat objects, [float64], and the addresses and
      networks of [net].
    - [GoTime], [GoPath], [GoFiles]: the layouts of [time], the paths of
      [path/filepath], and [os] over a tree of files.
    - [GoRoot]: [os.Root], the calls below a directory that paths cannot leave;
      [RootTrees]: what these calls do to a tree, as a relation between the
      labels of its places before and after, and the rules ([leads]) by which
      that is derived for an operation, call by call.
    - [Store]: the database as the services see it through gorm.
    - [AuditTrail] ([internal/services/audit/manager.go], [integrity.go]): the
      hash chain of audit events.
    - [Access] ([internal/services/access]): roles, permissions, and who has
      which; [Authorization] ([router/middleware/permission.go]): the guards,
      the authorization matrix, the audit middleware.
    - [Approval] ([internal/services/approval], part of [internal/i18n]): the
      review of dangerous operations by a second account.
    - [FileManager] ([internal/services/filemanager/manager.go],
      [operations.go], [rename_linux.go], and the manager of a request in
      [router/handler/ftp/ftp.go]): virtual paths, scopes and protected paths,
      and the operations on files and directories; [FileSafety]: which paths are
      accepted, and what a request can reach; [FileTrash] ([trash.go]):
      the trash and its records; [TrashSafety]: what the trash
      keeps.
    - [Credential] ([utils/credential.go]): sealed credentials; [Preview]
      ([internal/services/operationpreview]): operations that are previewed and
      then executed once.
    - [RateLimit] ([router/middleware/ratelimit.go]): the sliding window.
    - [Session], [Totp] ([internal/services/security]): sessions and two-factor
      authentication; [Ticket] ([internal/services/ssh/ticket.go],
      [internal/services/container/terminal.go]): one-time terminal tickets.
    - [Authentication] ([router/middleware/auth.go], [utils/jwt.go]): who a
      request comes from; [Login] ([router/handler/user/user.go], the password
      part of [internal/services/system/sys_service.go]): how an account gets a
      session and changes its password; [PasswordGuard]
      ([internal/services/security/password_verification.go]): the throttle of
      password checks.
    - [TaskReporter], [SoftTask] ([internal/services/softwaretask]): the queue
      that installs and changes software, one task per component at a time.
    - [KeyTrust] ([internal/services/panelupdate/keytrust.go], [manifest.go]):
      which keys may sign a release of the panel, and which release is offered.
    - [Alarm], [Monitoring], [ServiceHealth] ([internal/services/monitoring]):
      an alarm as an observer would describe it, and the two state machines of
      the panel that implement it, over samples of the host and over the health
      of components.
    - [BackupCrypt] ([internal/services/panelbackup/encryption.go]): the format
      of encrypted backups; [PanelBackup] ([manager.go]): their creation, import,
      storage and examination; [PanelRestore] ([restore.go]): the offline
      restore, its journal, commit, rollback and recovery; [RestoreSafety],
      [RestoreRun]: what a restore keeps wherever it stops.
    - [FirewallRule] ([internal/services/safe/validation.go] and the commands of
      [backend.go]): what a firewall rule may say and how it is put to the three
      backends; [Firewall] ([service.go], [backend.go], [forward.go],
      [auto_block.go]): the service that keeps the table and the host together;
      [FirewallSafety], [FirewallEffect]: what it keeps whatever happens, and
      when the host and the table agree; [FirewallHosts]: two small hosts.
    - [PanelNetwork] ([internal/services/system/network.go], [server/http.go]):
      the access configuration, its validation and its place in [config.yaml],
      and the proxies that are trusted; [NetworkTransaction]
      ([network_transaction.go]): the transactions that apply a change of it;
      [NetworkSafety], [NetworkRecovery]: what they keep wherever they stop.
    - [Stops]: machines that stop, for the theorems on interrupted runs; [Lines]:
      a codec for the witnesses.

    ** State, operations, effects

    Definitions keep the names of the sources.  A table is a list of records in
    the order of its primary key or of insertion; a map is a [gmap]; an integer
    is a [Z] with its wrap-around written where the source can overflow.  An
    operation on the database is a term of [Store.M]: it takes the tables and a
    schedule of faults and gives a result and the tables that it leaves.  Every
    statement, [BEGIN] and [COMMIT] consults the schedule, so that the theorems
    range over all partial failures; a transaction that fails restores the
    tables, a sequence of statements outside of one does not.  An operation of
    one component inside another acts through [Store.zoom].  A handler that is
    long is split where the source has a natural joint, and the whole handler is
    composed of the parts; the parts carry the line ranges in their comments.

    The file system is a tree of files and directories ([GoFiles.node]) in the
    place of the tables; each system call is one statement of [Store.M] and may
    fail.  The file manager works on the tree below its root ([GoRoot]), where a
    call resolves its path through symbolic links and a rename between mounts is
    refused.  A process that is stopped is a schedule in which every call from some
    point on fails: what it leaves on the disk is what the calls before did.

    Clocks, random numbers and the answers of HTTP servers are arguments: one for
    each reading.  Concurrency is modelled where the source relies on it: task
    runs and cancellations interleave as steps ([SoftTask]), limiter entries are
    shared pointers ([RateLimit]), reviews have a read and a write phase
    ([Approval]), previews a check and a claim ([Preview]).

    ** Interfaces

    What the panel takes from elsewhere is a class or a section variable with
    the laws that the code relies on, and each has an instance on which the
    witnesses run: the case tables of [unicode] ([GoText.UnicodeCase],
    [Login.UnicodeKind]), AES-GCM ([Credential.AEAD]), bcrypt, the JWT library
    ([Authentication.JWT]), Ed25519, semantic versions, URLs and the JSON of
    nested documents ([KeyTrust]), the codecs of stored lists
    ([Totp.HashListCodec], [Preview.DocumentCodec]), identifiers and records of
    the trash ([FileTrash.UUID], [FileTrash.TrashJSON]), and the mask and the
    mounts of the host ([GoRoot.Machine]).  Between components,
    [Ticket.ticket_store] says what both ticket stores promise, and the theorem
    on tickets and the middleware are proved against it.  The host of the
    firewall is [Firewall.Host], any function from commands to answers, and
    [FirewallEffect.FirewallEffect] adds what the commands are relied on for.

    ** What is shown

    - Identity.  A request that the middleware lets through is backed by a live
      session at the security version that its account has now, and showed a
      token or ticket for it; a login takes every factor and its cookie then
      authenticates; a change of the password locks out every session from
      before, through any further history; revocation is permanent; a ticket
      opens one terminal; a code of the second factor or a recovery code is
      accepted once; password checks are throttled.
    - Permission.  The effective permissions are exactly those of the roles; the
      seeding grants exactly the catalogue; no built-in role both requests and
      reviews; a guard lets exactly the entitled accounts through; a review
      needs another account; a preview is executed at most once; the limiter
      bounds every window.
    - Records.  The audit trail is a chain that only grows; its verification
      accepts exactly the intact trails and so detects edits and truncation;
      retention keeps the chain verifiable; every audited request is recorded.
    - Work.  A component has at most one active task; a run that starts reaches
      an outcome; a restart interrupts everything that was active; reports keep
      the history of tasks.
    - Monitoring.  Over any sequence of samples the records of an alert, and
      those of a component's health, are the ones that [Alarm] prescribes: one
      report when the condition has held long enough, reminders after each
      cooldown, one resolution; an accepted rule cannot be breached and
      recovered by the same value.
    - Firewall.  An accepted rule covers the addresses and ports that were
      written, in a text that validation leaves alone; a denial never covers the
      port of the panel; the stored protection of that port survives every
      operation on rules; an addition happens on the host and in the table, or
      on neither.
    - Updates.  The stored key set never moves back and its keys never vanish; a
      manifest is accepted exactly when it is well formed, current and signed by
      a trusted key; an update is offered only if it is newer.
    - Backups.  What is encrypted is decrypted to the same bytes; an archive is
      accepted only up to some chunk of one that the panel sealed; its
      examination touches nothing outside its workspace and accepts only files
      that match the manifest; a restore that stops anywhere is undone by the
      recovery, and a committed one is in place as a whole.
    - Files.  A path is accepted exactly when it reads as one below the root
      that is in the scope of the account and neither protected nor internal;
      new files, new directories, overwrites and removals stay at the accepted
      place, whatever calls fail (trees with links are excluded, and findings
      show why).  A deletion and a restore lose nothing, whatever calls fail and
      also when they copy across mounts, and what was deleted comes back with
      its contents and permissions.
    - Network access.  However often the processes that apply, recover and
      complete a change are stopped, the stored transaction agrees with the
      configuration in place, and a recovery puts the former one back; an
      application that reports success tells the truth; the wait for the panel
      ends.
    - Round trips: sealed credentials, previews, signed manifests, logins.

    Theorems that record a divergence (a race, a code accepted twice, a review
    overwritten) are proved like the others, about the code as it is.

    ** Bounds and fuel

    Recursion on fuel occurs in decimal printing (the binary logarithm bounds
    the digits), in the retry loop of the audit trail (four attempts, as in the
    source), in the padding of the hash functions (the length of the input),
    in the depth of a tree that is copied, removed or walked
    ([GoRoot.tree_depth], the depth of the whole tree: that it is enough is part
    of [FileSafety.leads_remove_all] and [TrashSafety.leads_copy_trash]), in the
    symbolic links that a path leads through (eight, as POSIX guarantees), in
    the search of failed logins in a log (the length of the log), in the
    reading of the chunks of an archive (its bytes: [BackupCrypt.decryption_ends]
    shows that they are enough), in the walk of a directory (4096 levels, the
    limit of Linux on the length of a path) and in the wait for the panel
    ([NetworkTransaction.rounds], half a second each:
    [NetworkRecovery.waitForPanelReady_ends] shows that they are enough).

    ** Not modelled

    Processes, files and sockets: package scripts, web server and database
    control, archives, searches, downloads and capacity in the file manager,
    containers, SSH connections, the reading
    of host metrics and the sending of alerts, what a firewall command does
    beyond [FirewallEffect]; the unpacking and switching of the panel binary; the
    HTTP routing table.  Log output and translated response texts
    are left out except where a component stores or compares them.  The task
    managers of websites and databases have the shape of [SoftTask]. *)

From stdpp Require Export base gmap strings list fin_maps.
From Stdlib Require Export ZArith Lia Ascii String Sorted.
From stdpp Require Import options.

(** Go identifiers are kept; the proof language is plain Ltac over stdpp. *)
#[global] Open Scope string_scope.
#[global] Open Scope list_scope.
#[global] Open Scope bool_scope.
#[global] Open Scope Z_scope.

#[global] Arguments String.append !_ _ / : simpl nomatch.

Declare Scope go_scope.
Delimit Scope go_scope with go.

(** ** Machine integers *)

(** [uint64], [uint32], [uint8] and [int64] arithmetic wraps around. *)
Definition u64 (z : Z) : Z := z mod 2 ^ 64.
Definition u32 (z : Z) : Z := z mod 2 ^ 32.
Definition u8 (z : Z) : Z := z mod 2 ^ 8.
Definition i64 (z : Z) : Z := (z + 2 ^ 63) mod 2 ^ 64 - 2 ^ 63.

Lemma u64_small z : 0 <= z < 2 ^ 64 -> u64 z = z.
Proof. intros H. unfold u64. apply Z.mod_small. lia. Qed.

Lemma u64_range z : 0 <= u64 z < 2 ^ 64.
Proof. unfold u64. apply Z.mod_pos_bound. lia. Qed.

Lemma u32_range z : 0 <= u32 z < 2 ^ 32.
Proof. unfold u32. apply Z.mod_pos_bound. lia. Qed.

Lemma i64_small z : - 2 ^ 63 <= z < 2 ^ 63 -> i64 z = z.
Proof. intros H. unfold i64. rewrite Z.mod_small; lia. Qed.

Lemma i64_range z : - 2 ^ 63 <= i64 z < 2 ^ 63.
Proof.
  unfold i64. pose proof (Z.mod_pos_bound (z + 2 ^ 63) (2 ^ 64)). lia.
Qed.

(** ** Time

    A [time.Time] is its distance in nanoseconds from Go's zero time (January
    1 of year 1, UTC), so that [IsZero] is a test against 0; a
    [time.Duration] is a number of nanoseconds.  [UTC] does not move the
    instant.  The wall clock is an argument of every operation that reads it. *)
Definition time := Z.
Definition duration := Z.

Definition Nanosecond : duration := 1.
Definition Second : duration := 1000000000.
Definition Minute : duration := 60 * Second.
Definition Hour : duration := 60 * Minute.

(** Seconds between the zero time and the Unix epoch. *)
Definition unixEpochSeconds : Z := 62135596800.

Definition IsZero (t : time) : bool := t =? 0.
Definition After (t u : time) : bool := u <? t.
Definition Before (t u : time) : bool := t <? u.
Definition UnixNano (t : time) : Z := i64 (t - unixEpochSeconds * Second).
Definition Unix (t : time) : Z := t / Second - unixEpochSeconds.
Definition AddDays (t : time) (days : Z) : time := t + days * (24 * Hour).

(** Days from the zero time to the year 10000; JSON prints the times between. *)
Definition last_time : time := 3652059 * (24 * Hour).
Definition printable (t : time) : Prop := 0 <= t < last_time.

(** ** Errors

    A Go error is a package-level sentinel (compared by identity), a fresh
    error carrying only text, or an error built by [fmt.Errorf] around
    another one with [%w], whose text is kept on both sides of the cause. *)
Inductive error :=
  | Sentinel (name : string)
  | ErrorString (text : string)
  | Wrap (before : string) (cause : error) (after : string).

(** [errors.Is(e, target)] for a sentinel target follows the chain of causes. *)
Fixpoint errors_Is (e : error) (target : string) : bool :=
  match e with
  | Sentinel name => String.eqb name target
  | ErrorString _ => false
  | Wrap _ cause _ => errors_Is cause target
  end.

(** [e.Error()]. *)
Fixpoint Error (e : error) : string :=
  match e with
  | Sentinel name => name
  | ErrorString text => text
  | Wrap before cause after => before +:+ Error cause +:+ after
  end.

Definition ErrRecordNotFound : string := "record not found".

Definition is_not_found (e : error) : bool := errors_Is e ErrRecordNotFound.

Inductive result (A : Type) :=
  | Ok (a : A)
  | Fail (e : error).
Arguments Ok {A} a.
Arguments Fail {A} e.

Definition is_ok {A} (r : result A) : bool :=
  match r with Ok _ => true | Fail _ => false end.

(** A guard with an early error return. *)
Lemma guard_Ok {A} (c : bool) e (x : result A) y :
  (if c then Fail e else x) = Ok y <-> c = false /\ x = Ok y.
Proof. destruct c; intuition discriminate. Qed.

(** ** Lists *)

Lemma Forall_app_inv {A} (P : A -> Prop) l1 l2 :
  Forall P (l1 ++ l2) -> Forall P l1 /\ Forall P l2.
Proof. rewrite Forall_app. tauto. Qed.

Lemma filter_true_id {A} (P : A -> Prop) `{!forall x, Decision (P x)} (l : list A) :
  Forall P l -> filter P l = l.
Proof.
  induction 1 as [|x l Hx Hl IH]; [done|].
  rewrite filter_cons_True by done. by rewrite IH.
Qed.

Lemma existsb_false_Forall {A} (f : A -> bool) (l : list A) :
  existsb f l = false -> Forall (fun x => f x = false) l.
Proof.
  induction l as [|x l IH]; simpl; [constructor|].
  intros H. apply orb_false_iff in H as [H1 H2]. constructor; auto.
Qed.

Lemma existsb_true_in {A} (f : A -> bool) (l : list A) :
  existsb f l = true <-> exists x, In x l /\ f x = true.
Proof. apply existsb_exists. Qed.

Lemma forallb_Forall {A} (f : A -> bool) (l : list A) :
  forallb f l = true <-> Forall (fun x => f x = true) l.
Proof.
  rewrite Forall_forall, forallb_forall.
  split; intros H x Hx; apply H; by apply list_elem_of_In.
Qed.

Lemma Forall_map_iff {A B} (f : A -> B) (P : B -> Prop) (l : list A) :
  Forall P (map f l) <-> Forall (fun x => P (f x)) l.
Proof. induction l as [|x l IH]; simpl; by rewrite ?Forall_nil, ?Forall_cons, ?IH. Qed.

Lemma NoDup_map_inj {A B} (f : A -> B) (l : list A) x y :
  NoDup (map f l) -> x ∈ l -> y ∈ l -> f x = f y -> x = y.
Proof.
  induction l as [|z l IH]; cbn; [by rewrite elem_of_nil|].
  rewrite NoDup_cons, !elem_of_cons, list_elem_of_fmap. intros [Hz Hl] [->|Hx] [->|Hy] E; auto.
  - destruct Hz. by exists y.
  - destruct Hz. by exists x.
Qed.

Lemma StronglySorted_app_inv {A} (R : A -> A -> Prop) l1 l2 :
  StronglySorted R (l1 ++ l2) ->
  StronglySorted R l1 /\ StronglySorted R l2 /\ Forall (fun x => Forall (R x) l2) l1.
Proof.
  induction l1 as [|x l1 IH]; cbn; intros H; [by repeat constructor|].
  apply StronglySorted_inv in H as [H1 H2]. apply Forall_app_inv in H2 as [H2 H3].
  destruct (IH H1) as (? & ? & ?). by repeat constructor.
Qed.

Lemma StronglySorted_snoc {A} (R : A -> A -> Prop) l x :
  StronglySorted R l -> Forall (fun y => R y x) l -> StronglySorted R (l ++ [x]).
Proof.
  induction 1 as [|y l Hl IH Hy]; intros H; cbn; [by repeat constructor|].
  apply Forall_cons in H as [? ?]. constructor; [auto|].
  apply Forall_app. by repeat constructor.
Qed.

Lemma last_snoc_inv {A} (l : list A) x : last l = Some x -> exists k, l = k ++ [x].
Proof.
  destruct l as [|y l] using rev_ind; [done|]. rewrite last_snoc. intros [= ->]. eauto.
Qed.

(** ** Tactics *)

(** Split boolean conjunctions and turn the comparisons on [Z] and on
    strings that occur in hypotheses into propositions. *)
Ltac bool_props :=
  repeat match goal with
  | H : _ && _ = true |- _ => apply andb_true_iff in H as [? ?]
  | H : _ || _ = false |- _ => apply orb_false_iff in H as [? ?]
  | H : negb _ = true |- _ => apply negb_true_iff in H
  | H : negb _ = false |- _ => apply negb_false_iff in H
  | H : Z.eqb _ _ = true |- _ => apply Z.eqb_eq in H
  | H : Z.eqb _ _ = false |- _ => apply Z.eqb_neq in H
  | H : Z.leb _ _ = true |- _ => apply Z.leb_le in H
  | H : Z.leb _ _ = false |- _ => apply Z.leb_gt in H
  | H : Z.ltb _ _ = true |- _ => apply Z.ltb_lt in H
  | H : Z.ltb _ _ = false |- _ => apply Z.ltb_ge in H
  | H : String.eqb _ _ = true |- _ => apply String.eqb_eq in H
  | H : String.eqb _ _ = false |- _ => apply String.eqb_neq in H
  end.

(** Case analysis on the scrutinee of the first match or conditional of the
    goal, or of a hypothesis. *)
Ltac case_goal :=
  match goal with
  | |- context [match ?x with _ => _ end] => destruct x eqn:?
  end.

Ltac case_hyp H :=
  match type of H with
  | context [match ?x with _ => _ end] => destruct x eqn:?
  end.

Create HintDb go.
#[export] Hint Resolve u64_range u32_range i64_range : go.
