(* ===== verification/GoStrings.v ===== *)
(** Go strings: byte sequences, their UTF-8 decoding, and the functions of the
    standard packages [strings], [unicode/utf8] and [strconv] that the panel
    calls.  A Go string is a Rocq [string], one [ascii] per byte. *)

From S2P Require Import Prelude.
From stdpp Require Import options.

(** ** Bytes *)

Definition byte_of (c : ascii) : Z := Z.of_N (N_of_ascii c).
Definition of_byte (b : Z) : ascii := ascii_of_N (Z.to_N b).

Lemma byte_of_range c : 0 <= byte_of c < 256.
Proof. unfold byte_of. pose proof (N_ascii_bounded c). lia. Qed.

Lemma of_byte_of c : of_byte (byte_of c) = c.
Proof. unfold of_byte, byte_of. by rewrite N2Z.id, ascii_N_embedding. Qed.

Lemma byte_of_byte b : 0 <= b < 256 -> byte_of (of_byte b) = b.
Proof. intros H. unfold byte_of, of_byte. rewrite N_ascii_embedding; lia. Qed.

Lemma byte_of_inj c d : byte_of c = byte_of d -> c = d.
Proof. intros H. by rewrite <- (of_byte_of c), <- (of_byte_of d), H. Qed.

Definition str1 (c : ascii) : string := String c EmptyString.

(** [len(s)] counts bytes. *)
Definition len (s : string) : Z := Z.of_nat (String.length s).

(** ** Concatenation *)

Lemma sapp_assoc (a b c : string) : (a +:+ b) +:+ c = a +:+ (b +:+ c).
Proof. induction a as [|x a IH]; simpl; [done|]. by rewrite IH. Qed.

Lemma sapp_nil_r (a : string) : a +:+ "" = a.
Proof. induction a as [|x a IH]; simpl; [done|]. by rewrite IH. Qed.

Lemma sapp_inv_head (a b c : string) : a +:+ b = a +:+ c -> b = c.
Proof. induction a as [|x a IH]; simpl; [done|]. intros H. inversion H. auto. Qed.

Lemma slength_app (a b : string) :
  String.length (a +:+ b) = (String.length a + String.length b)%nat.
Proof. induction a as [|x a IH]; simpl; [done|]. by rewrite IH. Qed.

Lemma len_app (a b : string) : len (a +:+ b) = len a + len b.
Proof. unfold len. rewrite slength_app. lia. Qed.

Lemma len_nonneg s : 0 <= len s.
Proof. unfold len. lia. Qed.

Fixpoint sconcat (l : list string) : string :=
  match l with
  | [] => ""
  | s :: l => s +:+ sconcat l
  end.

Lemma sconcat_app l1 l2 : sconcat (l1 ++ l2) = sconcat l1 +:+ sconcat l2.
Proof. induction l1 as [|s l1 IH]; simpl; [done|]. by rewrite IH, sapp_assoc. Qed.

(** ** UTF-8

    [tokens s] is what [for _, r := range s] iterates over: one token per
    decoded rune, with the bytes it was read from.  A byte that starts no
    well-formed sequence yields [RuneError] and is consumed alone. *)

Definition RuneError : Z := 65533.

Record token := Token { tok_rune : Z; tok_raw : string; tok_ok : bool }.

Definition cont (b : Z) : bool := (128 <=? b) && (b <=? 191).

Definition utf8_2 (a b : Z) : bool := (194 <=? a) && (a <=? 223) && cont b.

Definition utf8_3 (a b c : Z) : bool :=
  (224 <=? a) && (a <=? 239) &&
  (if a =? 224 then (160 <=? b) && (b <=? 191)
   else if a =? 237 then (128 <=? b) && (b <=? 159) else cont b) && cont c.

Definition utf8_4 (a b c d : Z) : bool :=
  (240 <=? a) && (a <=? 244) &&
  (if a =? 240 then (144 <=? b) && (b <=? 191)
   else if a =? 244 then (128 <=? b) && (b <=? 143) else cont b) &&
  cont c && cont d.

Definition bad_token (c : ascii) : token := Token RuneError (str1 c) false.

Fixpoint tokens (s : string) : list token :=
  match s with
  | EmptyString => []
  | String a s1 =>
      let x := byte_of a in
      if x <? 128 then Token x (str1 a) true :: tokens s1 else
      match s1 with
      | EmptyString => [bad_token a]
      | String b s2 =>
          let y := byte_of b in
          if utf8_2 x y then
            Token ((x - 192) * 64 + (y - 128)) (String a (str1 b)) true
              :: tokens s2
          else
            match s2 with
            | EmptyString => bad_token a :: tokens s1
            | String c s3 =>
                let z := byte_of c in
                if utf8_3 x y z then
                  Token ((x - 224) * 4096 + (y - 128) * 64 + (z - 128))
                    (String a (String b (str1 c))) true :: tokens s3
                else
                  match s3 with
                  | EmptyString => bad_token a :: tokens s1
                  | String d s4 =>
                      let w := byte_of d in
                      if utf8_4 x y z w then
                        Token ((x - 240) * 262144 + (y - 128) * 4096
                               + (z - 128) * 64 + (w - 128))
                          (String a (String b (String c (str1 d)))) true
                          :: tokens s4
                      else bad_token a :: tokens s1
                  end
            end
      end
  end.

Definition runes (s : string) : list Z := map tok_rune (tokens s).

(** [utf8.ValidString]. *)
Definition valid_utf8 (s : string) : bool := forallb tok_ok (tokens s).

(** [utf8.RuneCountInString]. *)
Definition RuneCount (s : string) : Z := Z.of_nat (List.length (tokens s)).

(** [utf8.AppendRune], which [WriteRune] and [string(rune)] use. *)
Definition encode_rune (r : Z) : string :=
  let b := fun z => of_byte z in
  if (0 <=? r) && (r <? 128) then str1 (b r)
  else if (128 <=? r) && (r <? 2048) then
    String (b (192 + r / 64)) (str1 (b (128 + r mod 64)))
  else if (65536 <=? r) && (r <=? 1114111) then
    String (b (240 + r / 262144)) (String (b (128 + (r / 4096) mod 64))
      (String (b (128 + (r / 64) mod 64)) (str1 (b (128 + r mod 64)))))
  else
    let r' := if (2048 <=? r) && (r <? 65536) && negb ((55296 <=? r) && (r <=? 57343))
              then r else RuneError in
    String (b (224 + r' / 4096)) (String (b (128 + (r' / 64) mod 64))
      (str1 (b (128 + r' mod 64)))).

Definition encode_runes (l : list Z) : string := sconcat (map encode_rune l).

Definition raw_of (l : list token) : string := sconcat (map tok_raw l).

(** A tactic-friendly induction principle on the length of a string. *)
Lemma string_len_ind (P : string -> Prop) :
  (forall s, (forall t, (String.length t < String.length s)%nat -> P t) -> P s) ->
  forall s, P s.
Proof.
  intros H s. remember (String.length s) as n eqn:Hn. revert s Hn.
  induction n as [n IH] using lt_wf_ind. intros s ->. apply H.
  intros t Ht. by apply (IH (String.length t)).
Qed.

(** One unfolding of [tokens], the only place where its body is repeated. *)
Lemma tokens_cons a s1 :
  tokens (String a s1) =
  let x := byte_of a in
  if x <? 128 then Token x (str1 a) true :: tokens s1 else
  match s1 with
  | EmptyString => [bad_token a]
  | String b s2 =>
      let y := byte_of b in
      if utf8_2 x y then
        Token ((x - 192) * 64 + (y - 128)) (String a (str1 b)) true :: tokens s2
      else match s2 with
      | EmptyString => bad_token a :: tokens s1
      | String c s3 =>
          let z := byte_of c in
          if utf8_3 x y z then
            Token ((x - 224) * 4096 + (y - 128) * 64 + (z - 128))
              (String a (String b (str1 c))) true :: tokens s3
          else match s3 with
          | EmptyString => bad_token a :: tokens s1
          | String d s4 =>
              let w := byte_of d in
              if utf8_4 x y z w then
                Token ((x - 240) * 262144 + (y - 128) * 4096
                       + (z - 128) * 64 + (w - 128))
                  (String a (String b (String c (str1 d)))) true :: tokens s4
              else bad_token a :: tokens s1
          end
      end
  end.
Proof. reflexivity. Qed.

#[global] Opaque tokens.

Ltac tokens_cases :=
  cbv zeta;
  repeat match goal with
  | |- context [if ?b then _ else _] => destruct b eqn:?
  | |- context [match ?s with EmptyString => _ | String _ _ => _ end] =>
      is_var s; destruct s
  end.

Lemma raw_tokens s : raw_of (tokens s) = s.
Proof.
  induction s as [s IH] using string_len_ind. unfold raw_of in *.
  destruct s as [|a s1]; [done|]. rewrite tokens_cons.
  tokens_cases; cbn [map sconcat tok_raw bad_token];
    rewrite ?IH by (cbn [String.length]; lia); done.
Qed.

(** Lead bytes of longer sequences are not accepted by the shorter forms. *)
Lemma ltb_128_lead x : 194 <= x -> (x <? 128) = false.
Proof. intros. apply Z.ltb_ge. lia. Qed.

Lemma utf8_2_lead x y : 224 <= x -> utf8_2 x y = false.
Proof.
  intros. unfold utf8_2. destruct (Z.leb_spec x 223); [lia|].
  by rewrite andb_false_r.
Qed.

Lemma utf8_3_lead x y z : 240 <= x -> utf8_3 x y z = false.
Proof.
  intros. unfold utf8_3. destruct (Z.leb_spec x 239); [lia|].
  by rewrite andb_false_r.
Qed.

Lemma utf8_2_ge x y : utf8_2 x y = true -> 194 <= x.
Proof. unfold utf8_2. intros. bool_props. lia. Qed.

Lemma utf8_3_ge x y z : utf8_3 x y z = true -> 224 <= x.
Proof. unfold utf8_3. intros. bool_props. lia. Qed.

Lemma utf8_4_ge x y z w : utf8_4 x y z w = true -> 240 <= x.
Proof. unfold utf8_4. intros. bool_props. lia. Qed.

(** Decoding step on a well-formed sequence followed by anything. *)
Lemma tokens_ascii a s :
  byte_of a < 128 ->
  tokens (String a s) = Token (byte_of a) (str1 a) true :: tokens s.
Proof.
  intros H. rewrite tokens_cons. cbv zeta. by rewrite (proj2 (Z.ltb_lt _ _) H).
Qed.

Lemma tokens_2 a b s :
  utf8_2 (byte_of a) (byte_of b) = true ->
  tokens (String a (String b s)) =
  Token ((byte_of a - 192) * 64 + (byte_of b - 128)) (String a (str1 b)) true
    :: tokens s.
Proof.
  intros H. rewrite tokens_cons. cbv zeta.
  by rewrite ltb_128_lead, H by eauto using utf8_2_ge.
Qed.

Lemma tokens_3 a b c s :
  utf8_3 (byte_of a) (byte_of b) (byte_of c) = true ->
  tokens (String a (String b (String c s))) =
  Token ((byte_of a - 224) * 4096 + (byte_of b - 128) * 64 + (byte_of c - 128))
    (String a (String b (str1 c))) true :: tokens s.
Proof.
  intros H. pose proof (utf8_3_ge _ _ _ H). rewrite tokens_cons. cbv zeta.
  by rewrite ltb_128_lead, utf8_2_lead, H by lia.
Qed.

Lemma tokens_4 a b c d s :
  utf8_4 (byte_of a) (byte_of b) (byte_of c) (byte_of d) = true ->
  tokens (String a (String b (String c (String d s)))) =
  Token ((byte_of a - 240) * 262144 + (byte_of b - 128) * 4096
         + (byte_of c - 128) * 64 + (byte_of d - 128))
    (String a (String b (String c (str1 d)))) true :: tokens s.
Proof.
  intros H. pose proof (utf8_4_ge _ _ _ _ H). rewrite tokens_cons. cbv zeta.
  by rewrite ltb_128_lead, utf8_2_lead, utf8_3_lead, H by lia.
Qed.

(** *** Encoding and decoding a rune *)

Definition valid_rune (r : Z) : bool :=
  ((0 <=? r) && (r <? 55296)) || ((57343 <? r) && (r <=? 1114111)).

Ltac bytes_arith :=
  repeat match goal with
  | |- context [byte_of (of_byte ?b)] =>
      rewrite (byte_of_byte b) by (Z.div_mod_to_equations; lia)
  end.

(** Reading back what [AppendRune] wrote, whatever follows. *)
Lemma tokens_encode r s :
  valid_rune r = true ->
  tokens (encode_rune r +:+ s) = Token r (encode_rune r) true :: tokens s.
Proof.
  intros Hr. unfold valid_rune in Hr.
  assert (Hrange : 0 <= r <= 1114111) by
    (apply orb_true_iff in Hr as [Hr|Hr]; bool_props; lia).
  unfold encode_rune.
  destruct ((0 <=? r) && (r <? 128)) eqn:E1.
  { bool_props. cbn. rewrite tokens_ascii; bytes_arith; [done|lia]. }
  destruct ((128 <=? r) && (r <? 2048)) eqn:E2.
  { bool_props. cbn. rewrite tokens_2; bytes_arith.
    - f_equal. f_equal. Z.div_mod_to_equations; lia.
    - unfold utf8_2, cont. rewrite !andb_true_iff, !Z.leb_le.
      Z.div_mod_to_equations; lia. }
  destruct ((65536 <=? r) && (r <=? 1114111)) eqn:E3.
  { bool_props. cbn. rewrite tokens_4; bytes_arith.
    - f_equal. f_equal. Z.div_mod_to_equations; lia.
    - unfold utf8_4, cont.
      destruct (Z.eqb_spec (240 + r / 262144) 240);
      [|destruct (Z.eqb_spec (240 + r / 262144) 244)];
        rewrite !andb_true_iff, !Z.leb_le; Z.div_mod_to_equations; lia. }
  assert (H3 : 2048 <= r < 65536 /\ ~ (55296 <= r <= 57343)).
  { rewrite !andb_false_iff, !Z.leb_gt, !Z.ltb_ge in *.
    apply orb_true_iff in Hr as [Hr|Hr]; bool_props; lia. }
  replace ((2048 <=? r) && (r <? 65536) && negb ((55296 <=? r) && (r <=? 57343)))
    with true.
  2:{ symmetry. rewrite !andb_true_iff, negb_true_iff, andb_false_iff,
        Z.leb_le, Z.ltb_lt, !Z.leb_gt. lia. }
  cbn. rewrite tokens_3; bytes_arith.
  - f_equal. f_equal. Z.div_mod_to_equations; lia.
  - unfold utf8_3, cont.
    destruct (Z.eqb_spec (224 + r / 4096) 224);
    [|destruct (Z.eqb_spec (224 + r / 4096) 237)];
      rewrite !andb_true_iff, !Z.leb_le; Z.div_mod_to_equations; lia.
Qed.

(** A token read from well-formed bytes carries a scalar value and is the
    encoding of that value. *)
Definition canonical (t : token) : Prop :=
  tok_ok t = true /\ valid_rune (tok_rune t) = true
  /\ tok_raw t = encode_rune (tok_rune t).

Ltac rune_range :=
  unfold valid_rune; apply orb_true_iff; rewrite !andb_true_iff, !Z.leb_le, !Z.ltb_lt.

Ltac decide_ranges :=
  repeat match goal with
  | |- context [?a <=? ?b] =>
      first [ rewrite (proj2 (Z.leb_le a b)) by lia
            | rewrite (proj2 (Z.leb_gt a b)) by lia ]
  | |- context [?a <? ?b] =>
      first [ rewrite (proj2 (Z.ltb_lt a b)) by lia
            | rewrite (proj2 (Z.ltb_ge a b)) by lia ]
  end; cbn [andb negb].

Ltac same_byte a :=
  match goal with
  | |- of_byte ?e = a =>
      replace e with (byte_of a); [apply of_byte_of|];
      pose proof (byte_of_range a); Z.div_mod_to_equations; lia
  end.

Lemma canonical_1 a :
  byte_of a < 128 -> canonical (Token (byte_of a) (str1 a) true).
Proof.
  intros H. pose proof (byte_of_range a). split_and!; cbn; [done| |].
  - rune_range. lia.
  - unfold encode_rune. decide_ranges. by rewrite of_byte_of.
Qed.

Lemma canonical_2 a b :
  utf8_2 (byte_of a) (byte_of b) = true ->
  canonical (Token ((byte_of a - 192) * 64 + (byte_of b - 128)) (String a (str1 b)) true).
Proof.
  unfold utf8_2, cont. intros. bool_props. split_and!; cbn; [done| |].
  - rune_range. lia.
  - unfold encode_rune. decide_ranges. unfold str1. f_equal; [symmetry; same_byte a|].
    f_equal. symmetry; same_byte b.
Qed.

Lemma canonical_3 a b c :
  utf8_3 (byte_of a) (byte_of b) (byte_of c) = true ->
  canonical (Token ((byte_of a - 224) * 4096 + (byte_of b - 128) * 64
                    + (byte_of c - 128)) (String a (String b (str1 c))) true).
Proof.
  unfold utf8_3, cont. intros H.
  assert (Hb : 224 <= byte_of a <= 239 /\ 128 <= byte_of b <= 191 /\
    128 <= byte_of c <= 191 /\ (byte_of a = 224 -> 160 <= byte_of b) /\
    (byte_of a = 237 -> byte_of b <= 159)).
  { apply andb_true_iff in H as [H ?]. apply andb_true_iff in H as [H H'].
    bool_props. destruct (Z.eqb_spec (byte_of a) 224); [bool_props; lia|].
    destruct (Z.eqb_spec (byte_of a) 237); bool_props; lia. }
  split_and!; cbn; [done| |].
  - rune_range. lia.
  - unfold encode_rune.
    set (r := (byte_of a - 224) * 4096 + (byte_of b - 128) * 64 + (byte_of c - 128)).
    assert (Hr : 2048 <= r < 65536 /\ ~ (55296 <= r <= 57343)) by (subst r; lia).
    replace ((0 <=? r) && (r <? 128)) with false by (decide_ranges; done).
    replace ((128 <=? r) && (r <? 2048)) with false by (decide_ranges; done).
    replace ((65536 <=? r) && (r <=? 1114111)) with false by (decide_ranges; done).
    replace ((2048 <=? r) && (r <? 65536) && negb ((55296 <=? r) && (r <=? 57343)))
      with true.
    2:{ symmetry. rewrite !andb_true_iff, negb_true_iff, andb_false_iff,
        Z.leb_le, Z.ltb_lt, !Z.leb_gt. lia. }
    subst r. unfold str1. f_equal; [symmetry; same_byte a|].
    f_equal; [symmetry; same_byte b|]. f_equal. symmetry; same_byte c.
Qed.

Lemma canonical_4 a b c d :
  utf8_4 (byte_of a) (byte_of b) (byte_of c) (byte_of d) = true ->
  canonical (Token ((byte_of a - 240) * 262144 + (byte_of b - 128) * 4096
      + (byte_of c - 128) * 64 + (byte_of d - 128))
      (String a (String b (String c (str1 d)))) true).
Proof.
  unfold utf8_4, cont. intros H.
  assert (Hb : 240 <= byte_of a <= 244 /\ 128 <= byte_of b <= 191 /\
    128 <= byte_of c <= 191 /\ 128 <= byte_of d <= 191 /\
    (byte_of a = 240 -> 144 <= byte_of b) /\ (byte_of a = 244 -> byte_of b <= 143)).
  { apply andb_true_iff in H as [H ?]. apply andb_true_iff in H as [H ?].
    apply andb_true_iff in H as [H H'].
    bool_props. destruct (Z.eqb_spec (byte_of a) 240); [bool_props; lia|].
    destruct (Z.eqb_spec (byte_of a) 244); bool_props; lia. }
  split_and!; cbn; [done| |].
  - rune_range. lia.
  - unfold encode_rune. decide_ranges. unfold str1. f_equal; [symmetry; same_byte a|].
    f_equal; [symmetry; same_byte b|]. f_equal; [symmetry; same_byte c|].
    f_equal. symmetry; same_byte d.
Qed.

(** Every token is either canonical or one byte decoded as [RuneError]. *)
Definition bad (t : token) : Prop :=
  tok_ok t = false /\ tok_rune t = RuneError /\ exists c, tok_raw t = str1 c.

Lemma bad_token_bad c : bad (bad_token c).
Proof. split_and!; [done..|]. by exists c. Qed.

Lemma tokens_shape s : Forall (fun t => canonical t \/ bad t) (tokens s).
Proof.
  induction s as [s IH] using string_len_ind.
  destruct s as [|a s1]; [constructor|]. rewrite tokens_cons.
  tokens_cases; (constructor; [|first [apply IH; cbn [String.length]; lia | constructor]]);
    bool_props; eauto using canonical_1, canonical_2, canonical_3, canonical_4, bad_token_bad.
Qed.

Lemma tokens_raw_canonical ts s :
  Forall canonical ts -> tokens (raw_of ts +:+ s) = ts ++ tokens s.
Proof.
  induction 1 as [|t ts [Hok [Hv Hr]] Hts IH]; [done|].
  unfold raw_of in *. cbn. rewrite sapp_assoc, Hr, tokens_encode, IH by done.
  destruct t; cbn in *; by subst.
Qed.

Lemma tokens_of_canonical ts : Forall canonical ts -> tokens (raw_of ts) = ts.
Proof.
  intros H. pose proof (tokens_raw_canonical ts "" H) as E.
  by rewrite sapp_nil_r, app_nil_r in E.
Qed.

Lemma valid_utf8_canonical s :
  valid_utf8 s = true <-> Forall canonical (tokens s).
Proof.
  unfold valid_utf8. pose proof (tokens_shape s) as Hs.
  rewrite forallb_Forall, !Forall_forall in *. split.
  - intros H t Ht. destruct (Hs t Ht) as [?|[Hb _]]; [done|].
    specialize (H t Ht). congruence.
  - intros H t Ht. apply (H t Ht).
Qed.

Lemma encode_runes_canonical l :
  forallb valid_rune l = true ->
  tokens (encode_runes l) = map (fun r => Token r (encode_rune r) true) l.
Proof.
  intros H. replace (encode_runes l)
    with (raw_of (map (fun r => Token r (encode_rune r) true) l))
    by (unfold raw_of, encode_runes; by rewrite map_map).
  apply tokens_of_canonical. apply Forall_forall. intros t Ht.
  apply list_elem_of_In, in_map_iff in Ht as (r & <- & Hr).
  rewrite forallb_forall in H. by split_and!; [|apply H|].
Qed.

(** Decoding what was encoded gives back the runes, and re-encoding the
    decoding of well-formed text gives back the text. *)
Lemma runes_encode l :
  forallb valid_rune l = true -> runes (encode_runes l) = l.
Proof.
  intros H. unfold runes. rewrite encode_runes_canonical by done.
  rewrite map_map. cbn. apply map_id.
Qed.

Lemma valid_encode_runes l :
  forallb valid_rune l = true -> valid_utf8 (encode_runes l) = true.
Proof.
  intros H. unfold valid_utf8. rewrite encode_runes_canonical by done.
  apply forallb_Forall, Forall_map_iff. by apply Forall_forall.
Qed.

Lemma encode_runes_runes s :
  valid_utf8 s = true -> encode_runes (runes s) = s.
Proof.
  intros H%valid_utf8_canonical. rewrite <- (raw_tokens s) at 2.
  unfold encode_runes, runes, raw_of. rewrite map_map. f_equal.
  apply map_ext_in. intros t Ht. rewrite Forall_forall in H.
  symmetry. apply H. by apply list_elem_of_In.
Qed.

(** ** Cutting a string between tokens *)

Lemma tokens_head s : s <> "" ->
  exists t s', s = tok_raw t +:+ s' /\ tokens s = t :: tokens s' /\
    (canonical t \/ exists c, t = bad_token c).
Proof.
  destruct s as [|a s1]; [done|]. intros _. rewrite tokens_cons.
  change [] with (tokens ""). tokens_cases;
    (eexists _, _; split; [|split; [reflexivity|]]; [done|]);
    bool_props; eauto using canonical_1, canonical_2, canonical_3, canonical_4.
Qed.

(** A byte that does not start a sequence does not start one when the string
    ends earlier. *)
Lemma tokens_bad_prefix a p q :
  tokens (String a (p +:+ q)) = bad_token a :: tokens (p +:+ q) ->
  tokens (String a p) = bad_token a :: tokens p.
Proof.
  intros H. rewrite tokens_cons. tokens_cases; try done; exfalso; revert H; cbn [String.append];
    first [rewrite tokens_ascii by (bool_props; lia) | rewrite tokens_2 by done
          | rewrite tokens_3 by done | rewrite tokens_4 by done]; done.
Qed.

Lemma raw_of_split n l : raw_of (take n l) +:+ raw_of (drop n l) = raw_of l.
Proof. unfold raw_of. by rewrite <- sconcat_app, <- map_app, take_drop. Qed.

Lemma tok_raw_nonempty t :
  canonical t \/ (exists c, t = bad_token c) -> (0 < String.length (tok_raw t))%nat.
Proof.
  intros [(_ & _ & ->)|(c & ->)]; [|cbn; lia]. unfold encode_rune.
  repeat case_match; cbn; lia.
Qed.

Lemma tokens_take n s : tokens (raw_of (take n (tokens s))) = take n (tokens s).
Proof.
  revert n. induction s as [s IH] using string_len_ind. intros n.
  destruct (decide (s = "")) as [->|Hs]; [by destruct n|].
  destruct (tokens_head s Hs) as (t & s' & Es & Et & Ht). rewrite Et. destruct n as [|n]; [done|].
  pose proof (tok_raw_nonempty t Ht) as Hlen.
  assert (IH' : forall n, tokens (raw_of (take n (tokens s'))) = take n (tokens s')).
  { apply IH. rewrite Es, slength_app. lia. }
  cbn [take]. change (raw_of (t :: ?l)) with (tok_raw t +:+ raw_of l).
  rewrite <- (IH' n) at 2. destruct Ht as [Hc|(c & ->)].
  - pose proof (tokens_raw_canonical [t] (raw_of (take n (tokens s'))) (Forall_cons_2 _ _ _ Hc (Forall_nil_2 _))) as E.
    unfold raw_of at 1 in E. cbn in E. by rewrite sapp_nil_r in E.
  - cbn [tok_raw bad_token str1 String.append] in *.
    apply (tokens_bad_prefix _ _ (raw_of (drop n (tokens s')))). rewrite raw_of_split, raw_tokens.
    by rewrite <- Es.
Qed.

Lemma tokens_drop n s : tokens (raw_of (drop n (tokens s))) = drop n (tokens s).
Proof.
  revert n. induction s as [s IH] using string_len_ind. intros n.
  destruct (decide (s = "")) as [->|Hs]; [by destruct n|].
  destruct n as [|n]; [by rewrite drop_0, raw_tokens|].
  destruct (tokens_head s Hs) as (t & s' & Es & Et & Ht). rewrite Et. cbn [drop]. apply IH.
  pose proof (tok_raw_nonempty t Ht). rewrite Es, slength_app. lia.
Qed.

(** A text as JSON writes it: a replacement character for what is no UTF-8. *)
Definition clean_text (s : string) : string := encode_runes (runes s).

Lemma clean_valid s : valid_utf8 s = true -> clean_text s = s.
Proof. apply encode_runes_runes. Qed.
