(* ===== verification/GoText.v ===== *)
(** The functions of Go's [strings], [unicode] and [strconv] packages that the
    panel calls, over the decoding of [GoStrings].

    The case tables of [unicode] for runes outside ASCII are data of the Go
    distribution: they are the class [UnicodeCase], so that every theorem
    holds whatever they contain. *)

From S2P Require Import Prelude GoStrings.
From stdpp Require Import sorting options.
#[local] Open Scope Z_scope.

Class UnicodeCase := {
  uc_lower : Z -> Z;           (* unicode.ToLower beyond ASCII *)
  uc_upper : Z -> Z;           (* unicode.ToUpper beyond ASCII *)
  uc_fold : Z -> Z -> bool     (* same SimpleFold orbit, one rune beyond ASCII *)
}.

(** The table a witness runs with: Latin-1 letters, the Kelvin sign and the
    long s, whose folds meet ASCII. *)
Definition latin1_case : UnicodeCase := {|
  uc_lower r := if (192 <=? r) && (r <=? 222) && negb (r =? 215) then r + 32
                else if r =? 8490 then 107 else r;
  uc_upper r := if (224 <=? r) && (r <=? 254) && negb (r =? 247) then r - 32 else r;
  uc_fold r q := (r =? q) || ((r =? 8490) && ((q =? 107) || (q =? 75)))
                 || ((q =? 8490) && ((r =? 107) || (r =? 75)))
                 || ((r =? 383) && ((q =? 115) || (q =? 83)))
                 || ((q =? 383) && ((r =? 115) || (r =? 83)))
|}.

(** ** unicode *)

(** [unicode.IsSpace]. *)
Definition isSpace (r : Z) : bool :=
  ((9 <=? r) && (r <=? 13)) || (r =? 32) || (r =? 133) || (r =? 160) ||
  (r =? 5760) || ((8192 <=? r) && (r <=? 8202)) || (r =? 8232) || (r =? 8233) ||
  (r =? 8239) || (r =? 8287) || (r =? 12288).

(** [unicode.IsControl]: category Cc. *)
Definition isControl (r : Z) : bool :=
  ((0 <=? r) && (r <=? 31)) || ((127 <=? r) && (r <=? 159)).

(** ** strings *)

Fixpoint dropWhile {A} (f : A -> bool) (l : list A) : list A :=
  match l with
  | [] => []
  | x :: l' => if f x then dropWhile f l' else l
  end.

Definition space_token (t : token) : bool := isSpace (tok_rune t).

Definition trim_tokens (l : list token) : list token :=
  rev (dropWhile space_token (rev (dropWhile space_token l))).

(** [strings.TrimSpace]: a space rune starts at a lead byte, so cutting from
    the right meets the same tokens as cutting from the left. *)
Definition TrimSpace (s : string) : string := raw_of (trim_tokens (tokens s)).

(** [strings.Map]: a negative result drops the rune; an invalid byte reaches
    the mapping as [RuneError] and is written back as U+FFFD. *)
Definition Map (f : Z -> option Z) (s : string) : string :=
  encode_runes (omap f (runes s)).

Section case_mapping.
Context `{!UnicodeCase}.

Definition lower_rune (r : Z) : Z :=
  if (65 <=? r) && (r <=? 90) then r + 32 else if r <? 128 then r else uc_lower r.
Definition upper_rune (r : Z) : Z :=
  if (97 <=? r) && (r <=? 122) then r - 32 else if r <? 128 then r else uc_upper r.

Definition ToLower (s : string) : string := Map (fun r => Some (lower_rune r)) s.
Definition ToUpper (s : string) : string := Map (fun r => Some (upper_rune r)) s.

Definition fold_rune (r q : Z) : bool :=
  if (r <? 128) && (q <? 128) then lower_rune r =? lower_rune q else uc_fold r q.

Fixpoint fold_list (l k : list Z) : bool :=
  match l, k with
  | [], [] => true
  | r :: l, q :: k => ((r =? q) || fold_rune r q) && fold_list l k
  | _, _ => false
  end.

Definition EqualFold (s t : string) : bool := fold_list (runes s) (runes t).
End case_mapping.

Definition HasPrefix (s p : string) : bool := String.prefix p s.

Fixpoint HasSuffix (s p : string) : bool :=
  String.eqb s p || match s with EmptyString => false | String _ s' => HasSuffix s' p end.

Fixpoint Contains (s sub : string) : bool :=
  String.prefix sub s || match s with EmptyString => false | String _ s' => Contains s' sub end.

(** [strings.ContainsAny] for an ASCII character set. *)
Fixpoint ContainsAny (s chars : string) : bool :=
  match s with
  | EmptyString => false
  | String c s' =>
      existsb (fun d => Ascii.eqb c d) (String.list_ascii_of_string chars)
      || ContainsAny s' chars
  end.

(** [strings.Split(s, sep)] for a one-byte separator. *)
Fixpoint Split (s : string) (sep : ascii) : list string :=
  match s with
  | EmptyString => [""]
  | String c s' =>
      if Ascii.eqb c sep then "" :: Split s' sep
      else match Split s' sep with
           | [] => [str1 c]
           | h :: t => String c h :: t
           end
  end.

Fixpoint Join (l : list string) (sep : string) : string :=
  match l with
  | [] => ""
  | [s] => s
  | s :: l => s +:+ sep +:+ Join l sep
  end.

(** [errors.Join(err, errs...)]: the first error stays visible to [errors.Is]. *)
Definition errors_Join (err : error) (errs : list error) : error :=
  match errs with
  | [] => err
  | _ => Wrap "" err (str1 "010" +:+ Join (map Error errs) (str1 "010"))
  end.

(** [strings.ReplaceAll(s, old, new)] for a one-byte [old]. *)
Fixpoint ReplaceAll1 (s : string) (old : ascii) (new : string) : string :=
  match s with
  | EmptyString => ""
  | String c s' => (if Ascii.eqb c old then new else str1 c) +:+ ReplaceAll1 s' old new
  end.

(** [s[:n]]; out of range panics in Go, so callers guard it. *)
Definition take_bytes (n : Z) (s : string) : string := String.substring 0 (Z.to_nat n) s.

(** ** strconv *)

(** Decimal digits of a natural number, least significant first into [acc];
    the binary logarithm bounds the number of digits. *)
Fixpoint digits_go (fuel : nat) (n : Z) (acc : string) : string :=
  match fuel with
  | O => acc
  | S fuel =>
      let acc' := String (of_byte (48 + n mod 10)) acc in
      if n <? 10 then acc' else digits_go fuel (n / 10) acc'
  end.

Definition digits (n : Z) : string := digits_go (S (Z.to_nat (Z.log2 n))) n "".

(** [strconv.Itoa], [strconv.FormatInt(_, 10)] and [%d]. *)
Definition Itoa (z : Z) : string :=
  if z <? 0 then "-" +:+ digits (- z) else digits z.

Definition digit (c : ascii) : option Z :=
  let b := byte_of c in if (48 <=? b) && (b <=? 57) then Some (b - 48) else None.

Fixpoint parse_digits (acc : Z) (s : string) : option Z :=
  match s with
  | EmptyString => Some acc
  | String c s' => d ← digit c; parse_digits (acc * 10 + d) s'
  end.

Definition parse_unsigned (s : string) : option Z :=
  match s with EmptyString => None | _ => parse_digits 0 s end.

(** [strconv.Atoi]: an optional sign, decimal digits, and the range of a
    64-bit [int]. *)
Definition Atoi (s : string) : option Z :=
  z ← match s with
      | String c s' =>
          if Ascii.eqb c "-" then Z.opp <$> parse_unsigned s'
          else if Ascii.eqb c "+" then parse_unsigned s'
          else parse_unsigned s
      | EmptyString => None
      end;
  if (- 2 ^ 63 <=? z) && (z <? 2 ^ 63) then Some z else None.

Example Atoi_plus : Atoi "+007" = Some 7. Proof. reflexivity. Qed.
Example Atoi_overflow : Atoi "9223372036854775808" = None. Proof. reflexivity. Qed.
Example TrimSpace_ex : TrimSpace (" " +:+ encode_rune 12288 +:+ "x y ") = "x y". Proof. vm_compute. reflexivity. Qed.
Example Split_ex : Split "a,,b" "," = ["a"; ""; "b"]. Proof. reflexivity. Qed.

(** ** Trimming *)

Lemma dropWhile_Forall {A} (f : A -> bool) (P : A -> Prop) l :
  Forall P l -> Forall P (dropWhile f l).
Proof.
  induction 1 as [|x l Hx Hl IH]; simpl; [constructor|].
  destruct (f x); [done|by constructor].
Qed.

Lemma dropWhile_head {A} (f : A -> bool) l x l' :
  dropWhile f l = x :: l' -> f x = false.
Proof.
  induction l as [|y l IH]; simpl; [done|].
  destruct (f y) eqn:E; [done|]. intros [= <- <-]. done.
Qed.

Lemma dropWhile_id {A} (f : A -> bool) l :
  match l with [] => True | x :: _ => f x = false end -> dropWhile f l = l.
Proof. destruct l as [|x l]; simpl; [done|]. by intros ->. Qed.

Lemma dropWhile_length {A} (f : A -> bool) l :
  (List.length (dropWhile f l) <= List.length l)%nat.
Proof. induction l as [|x l IH]; simpl; [lia|]. destruct (f x); simpl; lia. Qed.

Lemma dropWhile_snoc {A} (f : A -> bool) l x :
  f x = false -> dropWhile f (l ++ [x]) = dropWhile f l ++ [x].
Proof.
  intros Hx. induction l as [|y l IH]; simpl; [by rewrite Hx|].
  by destruct (f y).
Qed.

Lemma trim_tokens_Forall (P : token -> Prop) l :
  Forall P l -> Forall P (trim_tokens l).
Proof. intros. unfold trim_tokens. by apply Forall_rev, dropWhile_Forall, Forall_rev, dropWhile_Forall. Qed.

(** Neither end of a trimmed list is a space. *)
Lemma trim_tokens_last l x l' : trim_tokens l = l' ++ [x] -> space_token x = false.
Proof.
  unfold trim_tokens. intros H. apply (f_equal (@rev token)) in H.
  rewrite rev_involutive, rev_app_distr in H. cbn in H. by apply dropWhile_head in H.
Qed.

Lemma trim_tokens_head l x l' : trim_tokens l = x :: l' -> space_token x = false.
Proof.
  unfold trim_tokens.
  destruct (dropWhile space_token l) as [|y m] eqn:E; [done|].
  apply dropWhile_head in E as Hy. cbn [rev].
  rewrite dropWhile_snoc by done. rewrite rev_app_distr. cbn. by intros [= <- _].
Qed.

Lemma trim_tokens_idemp l : trim_tokens (trim_tokens l) = trim_tokens l.
Proof.
  unfold trim_tokens at 1. rewrite (dropWhile_id _ (trim_tokens l)).
  2:{ destruct (trim_tokens l) eqn:E; [done|]. by apply trim_tokens_head in E. }
  rewrite dropWhile_id; [apply rev_involutive|].
  destruct (rev (trim_tokens l)) as [|x m] eqn:E; [done|].
  apply (f_equal (@rev token)) in E. rewrite rev_involutive in E. cbn in E.
  by apply trim_tokens_last in E.
Qed.

Lemma TrimSpace_valid s : valid_utf8 s = true -> valid_utf8 (TrimSpace s) = true.
Proof.
  rewrite !valid_utf8_canonical. intros H. unfold TrimSpace.
  rewrite tokens_of_canonical; by apply trim_tokens_Forall.
Qed.

Lemma tokens_TrimSpace s :
  valid_utf8 s = true -> tokens (TrimSpace s) = trim_tokens (tokens s).
Proof.
  intros H%valid_utf8_canonical. unfold TrimSpace.
  by apply tokens_of_canonical, trim_tokens_Forall.
Qed.

Lemma dropWhile_drop {A} (f : A -> bool) l : exists n, dropWhile f l = drop n l.
Proof.
  induction l as [|x l [n IH]]; cbn; [by exists 0%nat|].
  destruct (f x); [exists (S n)|exists 0%nat]; done.
Qed.

(** Trimming cuts between tokens, so the trimmed text has the trimmed tokens. *)
Lemma tokens_TrimSpace_any s : tokens (TrimSpace s) = trim_tokens (tokens s).
Proof.
  unfold TrimSpace, trim_tokens. destruct (dropWhile_drop space_token (tokens s)) as [n ->].
  rewrite <- (tokens_drop n s).
  destruct (dropWhile_drop space_token (rev (tokens (raw_of (drop n (tokens s)))))) as [m ->].
  rewrite List.skipn_rev, rev_involutive. apply tokens_take.
Qed.

Lemma TrimSpace_idemp s : TrimSpace (TrimSpace s) = TrimSpace s.
Proof. unfold TrimSpace at 1. by rewrite tokens_TrimSpace_any, trim_tokens_idemp. Qed.

Lemma raw_of_app l k : raw_of (l ++ k) = raw_of l +:+ raw_of k.
Proof. unfold raw_of. by rewrite map_app, sconcat_app. Qed.

Lemma dropWhile_raw_le f l : len (raw_of (dropWhile f l)) <= len (raw_of l).
Proof.
  induction l as [|t l IH]; simpl; [lia|]. destruct (f t); [|lia].
  unfold raw_of in *. cbn. rewrite len_app. pose proof (len_nonneg (tok_raw t)). lia.
Qed.

Lemma raw_of_rev_len l : len (raw_of (rev l)) = len (raw_of l).
Proof.
  induction l as [|t l IH]; [done|]. cbn [rev]. rewrite raw_of_app, len_app, IH.
  unfold raw_of. cbn. rewrite sapp_nil_r, len_app. lia.
Qed.

Lemma TrimSpace_len s : len (TrimSpace s) <= len s.
Proof.
  unfold TrimSpace, trim_tokens. rewrite raw_of_rev_len.
  etrans; [apply dropWhile_raw_le|]. rewrite raw_of_rev_len.
  etrans; [apply dropWhile_raw_le|]. by rewrite raw_tokens.
Qed.

(** ** Printing and reading integers *)

Lemma digit_of_byte d : 0 <= d < 10 -> digit (of_byte (48 + d)) = Some d.
Proof.
  intros H. unfold digit. rewrite byte_of_byte by lia.
  destruct (Z.leb_spec 48 (48 + d)), (Z.leb_spec (48 + d) 57); try lia.
  cbn. f_equal. lia.
Qed.

(** Reading the digits of [n] in front of [s] continues with [n] appended to
    the value read so far. *)
Lemma parse_digits_go fuel n acc s :
  0 <= n < 10 ^ Z.of_nat fuel ->
  exists k, 0 <= k /\
  parse_digits acc (digits_go fuel n s) = parse_digits (acc * 10 ^ k + n) s.
Proof.
  revert n s. induction fuel as [|fuel IH]; intros n s H.
  { exists 0. cbn in *. split; [lia|]. f_equal. lia. }
  cbn [digits_go]. destruct (Z.ltb_spec n 10).
  - exists 1. split; [lia|]. cbn.
    rewrite digit_of_byte by (apply Z.mod_pos_bound; lia). cbn.
    rewrite Z.mod_small by lia. f_equal; lia.
  - destruct (IH (n / 10) (String (of_byte (48 + n mod 10)) s)) as (k & Hk & E).
    { rewrite Nat2Z.inj_succ, Z.pow_succ_r in H by lia.
      split; [apply Z.div_pos; lia|]. apply Z.div_lt_upper_bound; lia. }
    exists (Z.succ k). split; [lia|]. rewrite E. cbn.
    rewrite digit_of_byte by (apply Z.mod_pos_bound; lia). cbn. f_equal.
    rewrite Z.pow_succ_r by lia. pose proof (Z.div_mod n 10). lia.
Qed.

Lemma digits_fuel n : 0 <= n -> n < 10 ^ Z.of_nat (S (Z.to_nat (Z.log2 n))).
Proof.
  intros H. rewrite Nat2Z.inj_succ, Z2Nat.id by apply Z.log2_nonneg.
  destruct (Z.eq_dec n 0) as [->|]; [done|].
  destruct (Z.log2_spec n) as [_ Hlt]; [lia|].
  eapply Z.lt_le_trans; [exact Hlt|].
  apply Z.pow_le_mono_l. lia.
Qed.

Lemma parse_digits_digits n : 0 <= n -> parse_digits 0 (digits n) = Some n.
Proof.
  intros H. unfold digits.
  destruct (parse_digits_go (S (Z.to_nat (Z.log2 n))) n 0 "") as (k & _ & ->).
  { split; [done|]. by apply digits_fuel. }
  done.
Qed.

Lemma digits_go_acc fuel n c t :
  exists c' t', digits_go fuel n (String c t) = String c' t'.
Proof.
  revert n c t. induction fuel as [|fuel IH]; intros n c t; cbn; [by eauto|].
  destruct (n <? 10); [by eauto|]. apply IH.
Qed.

Lemma digits_nonempty n : exists c t, digits n = String c t.
Proof.
  unfold digits. cbn [digits_go]. destruct (n <? 10); [by eauto|].
  apply digits_go_acc.
Qed.

(** All characters printed are digits, after an optional sign. *)
Definition is_digit (c : ascii) : bool := (48 <=? byte_of c) && (byte_of c <=? 57).

Fixpoint sforall (f : ascii -> bool) (s : string) : bool :=
  match s with EmptyString => true | String c s => f c && sforall f s end.

Lemma digits_go_digits fuel n s :
  0 <= n -> sforall is_digit s = true -> sforall is_digit (digits_go fuel n s) = true.
Proof.
  revert n s. induction fuel as [|fuel IH]; intros n s Hn Hs; cbn [digits_go]; [done|].
  assert (Hd : is_digit (of_byte (48 + n mod 10)) = true).
  { pose proof (Z.mod_pos_bound n 10). unfold is_digit.
    rewrite byte_of_byte by lia. apply andb_true_iff. rewrite !Z.leb_le. lia. }
  destruct (n <? 10); [by cbn; rewrite Hd|].
  apply IH; [apply Z.div_pos; lia|]. cbn. by rewrite Hd.
Qed.

Lemma digits_digits n : 0 <= n -> sforall is_digit (digits n) = true.
Proof. intros. by apply digits_go_digits. Qed.

Lemma digit_is_digit c d : digit c = Some d -> is_digit c = true.
Proof. unfold digit, is_digit. by destruct (_ && _). Qed.

Lemma Atoi_Itoa z : - 2 ^ 63 <= z < 2 ^ 63 -> Atoi (Itoa z) = Some z.
Proof.
  intros Hz. unfold Atoi, Itoa.
  assert (Hr : (- 2 ^ 63 <=? z) && (z <? 2 ^ 63) = true)
    by (apply andb_true_iff; rewrite Z.leb_le, Z.ltb_lt; lia).
  destruct (Z.ltb_spec z 0).
  - destruct (digits_nonempty (- z)) as (c & t & E).
    pose proof (parse_digits_digits (- z)) as P. rewrite E in *.
    cbn [String.append Ascii.eqb]. cbn -[parse_digits Z.leb Z.ltb Z.pow].
    rewrite P by lia. cbn -[Z.leb Z.ltb Z.pow].
    replace (- - z) with z by lia. by rewrite Hr.
  - destruct (digits_nonempty z) as (c & t & E).
    pose proof (parse_digits_digits z) as P. pose proof (digits_digits z) as D.
    rewrite E in *. cbn -[parse_digits] in D. specialize (D ltac:(lia)).
    apply andb_true_iff in D as [D _].
    destruct (Ascii.eqb_spec c "-") as [->|]; [done|].
    destruct (Ascii.eqb_spec c "+") as [->|]; [done|].
    cbn -[parse_digits Z.leb Z.ltb Z.pow]. rewrite P by lia.
    cbn -[Z.leb Z.ltb Z.pow]. by rewrite Hr.
Qed.

Lemma ascii_valid s :
  sforall (fun c => byte_of c <? 128) s = true -> valid_utf8 s = true.
Proof.
  unfold valid_utf8. induction s as [|c s IH]; [done|]. cbn [sforall].
  intros [Hc Hs]%andb_true_iff. bool_props. rewrite tokens_ascii by done. cbn. auto.
Qed.

(** Printable ASCII without blanks is not trimmed. *)
Definition visible (c : ascii) : bool := (33 <=? byte_of c) && (byte_of c <=? 126).

Lemma visible_not_space c :
  33 <= byte_of c <= 126 -> space_token (Token (byte_of c) (str1 c) true) = false.
Proof.
  intros Hc. unfold space_token, isSpace. cbn [tok_rune].
  repeat match goal with |- context [?a =? ?b] => destruct (Z.eqb_spec a b); [lia|] end.
  repeat match goal with |- context [?a <=? ?b] => destruct (Z.leb_spec a b) end; try lia; done.
Qed.

Lemma tokens_visible s :
  sforall visible s = true -> Forall (fun t => space_token t = false) (tokens s).
Proof.
  induction s as [|c s IH]; cbn [sforall]; [constructor|].
  intros [Hc Hs]%andb_true_iff. unfold visible in Hc. bool_props.
  rewrite tokens_ascii by lia. constructor; [|auto]. apply visible_not_space. lia.
Qed.

Lemma TrimSpace_visible s : sforall visible s = true -> TrimSpace s = s.
Proof.
  intros Hs%tokens_visible. unfold TrimSpace, trim_tokens.
  rewrite (dropWhile_id _ (tokens s)) by (destruct Hs; done).
  apply Forall_rev in Hs. rewrite dropWhile_id by (destruct Hs; done).
  by rewrite rev_involutive, raw_tokens.
Qed.

(** A string that starts with a visible character is not blank. *)
Lemma TrimSpace_not_blank c s : visible c = true -> TrimSpace (String c s) <> "".
Proof.
  intros Hc E. unfold visible in Hc. bool_props. unfold TrimSpace, trim_tokens in E.
  rewrite tokens_ascii in E by lia. cbn [dropWhile] in E.
  rewrite visible_not_space in E by lia. cbn [rev] in E. rewrite dropWhile_snoc in E by (apply visible_not_space; lia).
  rewrite rev_app_distr in E. discriminate E.
Qed.

(** Positive numbers as text, for the codec instances of the witnesses. *)
Fixpoint bits_of (p : positive) : string :=
  match p with
  | xH => ""
  | xO p => String "0" (bits_of p)
  | xI p => String "1" (bits_of p)
  end.

Fixpoint of_bits (s : string) : positive :=
  match s with
  | EmptyString => xH
  | String c s =>
      if Ascii.eqb c "010" then xH else if Ascii.eqb c "1" then xI (of_bits s) else xO (of_bits s)
  end.

Lemma of_bits_of p : of_bits (bits_of p) = p.
Proof. induction p as [p IH|p IH|]; cbn; by rewrite ?IH. Qed.

Lemma of_bits_line p : of_bits (bits_of p +:+ str1 "010") = p.
Proof. induction p as [p IH|p IH|]; cbn; by rewrite ?IH. Qed.

(** ** Splitting and joining *)

Definition has_byte (c : ascii) (s : string) : bool := negb (sforall (fun d => negb (Ascii.eqb d c)) s).

Definition free_of (c : ascii) (s : string) : Prop := sforall (fun d => negb (Ascii.eqb d c)) s = true.

Lemma sforall_app f a b : sforall f (a +:+ b) = sforall f a && sforall f b.
Proof. induction a as [|c a IH]; [done|]. cbn. by rewrite IH, andb_assoc. Qed.

Lemma sforall_impl f g s : (forall c, f c = true -> g c = true) -> sforall f s = true -> sforall g s = true.
Proof.
  intros Hi. induction s as [|c s IH]; [done|]. cbn. intros [Hc Hs]%andb_true_iff.
  by rewrite Hi, IH.
Qed.

Lemma free_of_app c a b : free_of c a -> free_of c b -> free_of c (a +:+ b).
Proof. unfold free_of. rewrite sforall_app. by intros -> ->. Qed.

Lemma Split_app a b sep : free_of sep a -> Split (a +:+ String sep b) sep = a :: Split b sep.
Proof.
  unfold free_of. induction a as [|c a IH]; cbn; [by rewrite Ascii.eqb_refl|].
  intros [Hc Ha]%andb_true_iff. apply negb_true_iff in Hc. rewrite Hc. by rewrite (IH Ha).
Qed.

Lemma Split_free a sep : free_of sep a -> Split a sep = [a].
Proof.
  unfold free_of. induction a as [|c a IH]; [done|]. cbn. intros [Hc Ha]%andb_true_iff.
  apply negb_true_iff in Hc. by rewrite Hc, (IH Ha).
Qed.

Lemma Split_Join l sep : l <> [] -> Forall (free_of sep) l -> Split (Join l (str1 sep)) sep = l.
Proof.
  intros Hne Hl. induction Hl as [|a l Ha Hl IH]; [done|]. destruct l as [|b l].
  - by apply Split_free.
  - change (Split (a +:+ String sep (Join (b :: l) (str1 sep))) sep = a :: b :: l).
    by rewrite (Split_app a _ sep Ha), IH.
Qed.

Lemma Split_cons s sep : exists h t, Split s sep = h :: t.
Proof.
  destruct s as [|c s]; cbn [Split]; [by eauto|].
  destruct (Ascii.eqb c sep); [by eauto|]. destruct (Split s sep); eauto.
Qed.

Lemma Join_Split s sep : Join (Split s sep) (str1 sep) = s.
Proof.
  induction s as [|c s IH]; [done|]. cbn [Split].
  destruct (Split_cons s sep) as (h & t & E). rewrite E in *.
  destruct (Ascii.eqb_spec c sep) as [->|Hne].
  - change (String sep (Join (h :: t) (str1 sep)) = String sep s). by rewrite IH.
  - destruct t as [|h' t]; [by cbn in *; rewrite IH|].
    change (String c (Join (h :: h' :: t) (str1 sep)) = String c s). by rewrite IH.
Qed.

Lemma Split_pieces s sep : Forall (free_of sep) (Split s sep).
Proof.
  induction s as [|c s IH]; cbn [Split]; [by constructor|].
  destruct (Ascii.eqb c sep) eqn:Ec; [by constructor|].
  destruct IH as [|h t Hh Ht]; constructor; try done; unfold free_of in *; cbn; by rewrite Ec.
Qed.

(** ** Sorting *)

Definition string_le (a b : string) : Prop := String.leb a b = true.
#[global] Instance string_le_dec : RelDecision string_le.
Proof. unfold RelDecision, Decision, string_le. intros a b. apply bool_dec. Defined.
#[global] Instance string_le_total : Total string_le.
Proof. intros a b. unfold string_le. apply String.leb_total. Qed.
#[global] Instance string_le_antisym : AntiSymm (=) string_le.
Proof. intros a b. unfold string_le. apply String.leb_antisym. Qed.

(** [sort.Strings]: byte order. *)
Definition sort_strings (l : list string) : list string := merge_sort string_le l.

(** [sort.Slice], for slices of at most twelve elements: insertion from the
    left, which keeps the order of equals; beyond that Go does not say in which
    order equals come. *)
Section sort_slice.
Context {A : Type} (less : A -> A -> bool).

Fixpoint insert_sorted (x : A) (l : list A) : list A :=
  match l with
  | [] => [x]
  | y :: l => if less x y then x :: y :: l else y :: insert_sorted x l
  end.

Definition sort_slice (l : list A) : list A := fold_left (fun sorted x => insert_sorted x sorted) l [].

Lemma insert_sorted_Permutation x l : Permutation (insert_sorted x l) (x :: l).
Proof.
  induction l as [|y l IH]; [done|]. cbn. destruct (less x y); [done|].
  rewrite IH. apply Permutation_swap.
Qed.

Lemma sort_slice_Permutation l : Permutation (sort_slice l) l.
Proof.
  unfold sort_slice. rewrite <- (app_nil_r l) at 2. generalize (@nil A) as k.
  induction l as [|x l IH]; intros k; [done|]. cbn. rewrite IH, insert_sorted_Permutation.
  by rewrite <- Permutation_middle.
Qed.

(** Sorted: no later element is less than an earlier one. *)
Definition in_order : list A -> Prop := StronglySorted (fun x y => less y x = false).

Hypothesis less_asym : forall x y, less x y = true -> less y x = false.
Hypothesis less_cotrans : forall x y z, less x z = true -> less x y = false -> less y z = true.

Lemma insert_sorted_order x l : in_order l -> in_order (insert_sorted x l).
Proof using less_asym less_cotrans.
  induction 1 as [|y l Hl IH Hy]; cbn; [by repeat constructor|].
  destruct (less x y) eqn:E; [|constructor; [done|]].
  - constructor; [by constructor|]. constructor; [by apply less_asym|].
    eapply Forall_impl; [exact Hy|]. intros z Hz. cbn in Hz.
    destruct (less z x) eqn:Ez; [|done]. pose proof (less_cotrans z y x Ez Hz) as Hyx.
    by rewrite (less_asym x y E) in Hyx.
  - rewrite insert_sorted_Permutation. by constructor.
Qed.

Lemma sort_slice_order l : in_order (sort_slice l).
Proof using less_asym less_cotrans.
  unfold sort_slice. assert (H : in_order []) by constructor. revert H. generalize (@nil A) as k.
  induction l as [|x l IH]; intros k Hk; [done|]. by apply IH, insert_sorted_order.
Qed.

Lemma insert_last k x : Forall (fun y => less x y = false) k -> insert_sorted x k = k ++ [x].
Proof using Type.
  induction k as [|y k IH]; [done|]. cbn. intros [-> Hx]%Forall_cons. by rewrite IH.
Qed.

Lemma sort_slice_id l : in_order l -> sort_slice l = l.
Proof using Type.
  assert (Hg : forall k, in_order (k ++ l) -> fold_left (fun sorted x => insert_sorted x sorted) l k = k ++ l).
  { induction l as [|x l IH]; intros k Hk; [by rewrite app_nil_r|]. cbn. rewrite insert_last.
    - assert (E : k ++ x :: l = (k ++ [x]) ++ l) by (by rewrite <- app_assoc).
      rewrite E in *. by apply IH.
    - apply StronglySorted_app_inv in Hk as (_ & _ & Hk). eapply Forall_impl; [exact Hk|].
      intros y Hy. by apply Forall_cons in Hy as [Hy _]. }
  apply (Hg []).
Qed.
End sort_slice.

Lemma sort_strings_Permutation l : Permutation (sort_strings l) l.
Proof. apply merge_sort_Permutation. Qed.

#[global] Instance string_le_trans : Transitive string_le.
Proof.
  intros a b c Hab Hbc. apply Is_true_true. pose proof String.le_po as [[_ Ht] _].
  apply (Ht a b c); by apply Is_true_true.
Qed.

Lemma sort_strings_Sorted l : StronglySorted string_le (sort_strings l).
Proof. apply Sorted_StronglySorted; [apply _|]. apply Sorted_merge_sort, _. Qed.

Lemma sort_strings_id l : StronglySorted string_le l -> sort_strings l = l.
Proof.
  intros Hl. apply (StronglySorted_unique string_le); [|done|apply sort_strings_Permutation].
  apply sort_strings_Sorted.
Qed.

(** ** Bytes of a trimmed text *)

Lemma sforall_raw f l : sforall f (raw_of l) = true <-> Forall (fun t => sforall f (tok_raw t) = true) l.
Proof.
  induction l as [|t l IH]; [by split|]. unfold raw_of in *. cbn [map sconcat].
  rewrite sforall_app, andb_true_iff, IH, Forall_cons. done.
Qed.

Lemma sforall_TrimSpace f s : sforall f s = true -> sforall f (TrimSpace s) = true.
Proof.
  intros Hs. rewrite <- (raw_tokens s) in Hs. unfold TrimSpace.
  apply sforall_raw, trim_tokens_Forall. by apply sforall_raw.
Qed.

(** ** Single bytes *)

Lemma Contains_free c s : free_of c s -> Contains s (str1 c) = false.
Proof.
  unfold free_of. induction s as [|d s IH]; [done|]. cbn [sforall].
  intros [Hd Hs]%andb_true_iff. cbn [Contains]. rewrite (IH Hs), orb_false_r. cbn.
  destruct (ascii_dec c d) as [->|]; [by rewrite Ascii.eqb_refl in Hd|done].
Qed.
