(* ===== verification/Lines.v ===== *)
(** Records as lines of fields: a codec with which the witnesses of the
    development instantiate the encodings it takes as parameters. *)

From S2P Require Import Prelude GoStrings GoText.
From stdpp Require Import options.
#[local] Open Scope Z_scope.

Definition field_string (f : Z + string) : string :=
  match f with inl z => String "z" (bits_of (encode z)) | inr s => String "s" s end.

Definition string_field (s : string) : option (Z + string) :=
  match s with
  | String "z" s => match decode (of_bits s) with Some z => Some (inl z) | None => None end
  | String "s" s => Some (inr s)
  | _ => None
  end.

(** Each field after as many ones as it has bytes, and a zero. *)
Fixpoint ones (n : nat) (s : string) : string := match n with O => s | S n => String "1" (ones n s) end.

Fixpoint fields_line (l : list (Z + string)) : string :=
  match l with
  | [] => ""
  | f :: l => ones (String.length (field_string f)) ("0" +:+ field_string f +:+ fields_line l)
  end.

Fixpoint count_ones (s : string) (n : nat) : option (nat * string) :=
  match s with
  | String "1" s => count_ones s (S n)
  | String "0" s => Some (n, s)
  | _ => None
  end.

Fixpoint cut_at (n : nat) (s : string) : string * string :=
  match n, s with
  | S n, String c s => let (a, b) := cut_at n s in (String c a, b)
  | _, _ => ("", s)
  end.

Fixpoint read_fields (fuel : nat) (s : string) : option (list (Z + string)) :=
  match fuel with
  | O => Some []
  | S fuel =>
      match count_ones s 0 with
      | Some (n, s) =>
          let (field, s) := cut_at n s in
          match string_field field, read_fields fuel s with
          | Some f, Some l => Some (f :: l)
          | _, _ => None
          end
      | None => Some []
      end
  end.

Definition line_fields (s : string) : option (list (Z + string)) := read_fields (String.length s) s.

Lemma count_ones_ones n m s : count_ones (ones n ("0" +:+ s)) m = Some ((m + n)%nat, s).
Proof. revert m. induction n as [|n IH]; intros m; cbn; [by rewrite Nat.add_0_r|]. by rewrite IH, <- plus_n_Sm. Qed.

Lemma cut_at_app a b : cut_at (String.length a) (a +:+ b) = (a, b).
Proof. induction a as [|c a IH]; [done|]. cbn. by rewrite IH. Qed.

Lemma string_field_string f : string_field (field_string f) = Some f.
Proof. destruct f as [z|s]; [|done]. cbn -[decode]. by rewrite of_bits_of, decode_encode. Qed.

Lemma length_ones n s : String.length (ones n s) = (n + String.length s)%nat.
Proof. induction n as [|n IH]; [done|]. cbn. by rewrite IH. Qed.

Lemma read_fields_line fuel l t : (List.length l <= fuel)%nat -> count_ones t 0 = None ->
  read_fields fuel (fields_line l +:+ t) = Some l.
Proof.
  intros Hf Ht. revert fuel Hf. induction l as [|f l IH]; intros [|fuel] Hf; cbn in *; try done; [by rewrite Ht|lia|].
  assert (Ha : forall n s, ones n s +:+ t = ones n (s +:+ t)) by (induction n as [|n IHn]; intros s; [done|cbn; by rewrite IHn]).
  rewrite Ha. change (String "0" (field_string f +:+ fields_line l) +:+ t)
    with ("0" +:+ ((field_string f +:+ fields_line l) +:+ t)).
  rewrite count_ones_ones, sapp_assoc. cbn [Nat.add]. rewrite cut_at_app, string_field_string, IH by lia. done.
Qed.

Lemma fields_line_length l : (List.length l <= String.length (fields_line l))%nat.
Proof. induction l as [|f l IH]; [done|]. cbn. rewrite length_ones. cbn. rewrite slength_app. lia. Qed.

Lemma line_fields_of l : line_fields (fields_line l) = Some l.
Proof.
  unfold line_fields. replace (fields_line l) with (fields_line l +:+ "") at 2 by apply sapp_nil_r.
  apply read_fields_line; [apply fields_line_length|done].
Qed.

Lemma line_fields_line l : line_fields (fields_line l +:+ str1 "010") = Some l.
Proof.
  apply read_fields_line; [|done]. rewrite slength_app. assert (H := fields_line_length l). lia.
Qed.

Definition flag (b : bool) : Z + string := inl (Z.b2z b).

(** ** The length of a line *)

Lemma length_bits p n : Z.pos p < 2 ^ Z.of_nat n -> (String.length (bits_of p) <= n)%nat.
Proof.
  revert n. induction p as [p IH|p IH|]; intros [|n] Hp; cbn [bits_of String.length]; try (cbn in Hp; lia);
    rewrite Nat2Z.inj_succ, Z.pow_succ_r in Hp by lia; specialize (IH n); lia.
Qed.

Lemma length_fields_line l : len (fields_line l) = fold_right (fun f k => 2 * len (field_string f) + 1 + k) 0 l.
Proof.
  unfold len. induction l as [|f l IH]; [done|]. cbn [fields_line fold_right]. rewrite <- IH, length_ones.
  cbn [append String.length]. rewrite slength_app. lia.
Qed.
