(* ===== verification/GoCrypto.v ===== *)
(** The parts of Go's [crypto/sha1], [crypto/sha256], [crypto/hmac],
    [encoding/hex], [encoding/base32] and [encoding/base64] that the panel calls, executable on
    byte lists.  Bytes and 32-bit words are [Z]. *)

From S2P Require Import Prelude GoStrings GoText.
From stdpp Require Import options.

Definition bytes_of (s : string) : list Z := map byte_of (String.list_ascii_of_string s).
Definition string_of_bytes (l : list Z) : string :=
  String.string_of_list_ascii (map of_byte l).

(** ** 32-bit words *)

Definition rotr (n w : Z) : Z :=
  Z.lor (Z.shiftr w n) (u32 (Z.shiftl w (32 - n))).
Definition rotl (n w : Z) : Z := rotr (32 - n) w.
Definition not32 (w : Z) : Z := Z.lxor w 4294967295.

Definition word_of (a b c d : Z) : Z := a * 16777216 + b * 65536 + c * 256 + d.
Definition bytes_of_word (w : Z) : list Z :=
  [w / 16777216 mod 256; w / 65536 mod 256; w / 256 mod 256; w mod 256].

Fixpoint words_of (l : list Z) : list Z :=
  match l with
  | a :: b :: c :: d :: l => word_of a b c d :: words_of l
  | _ => []
  end.

Definition be64 (n : Z) : list Z :=
  bytes_of_word (n / 4294967296 mod 4294967296) ++ bytes_of_word (n mod 4294967296).

(** Merkle-Damgard padding to blocks of 64 bytes. *)
Definition pad (msg : list Z) : list Z :=
  let n := Z.of_nat (List.length msg) in
  msg ++ 128 :: repeat 0 (Z.to_nat ((55 - n) mod 64)) ++ be64 (u64 (8 * n)).

Fixpoint blocks (fuel : nat) (l : list Z) : list (list Z) :=
  match fuel, l with
  | O, _ | _, [] => []
  | S fuel, _ => firstn 64 l :: blocks fuel (skipn 64 l)
  end.

Definition message_blocks (msg : list Z) : list (list Z) :=
  blocks (S (Nat.div (List.length msg) 64) + 1) (pad msg).

(** ** SHA-256 *)

Definition sha256_k : list Z := [
  1116352408; 1899447441; 3049323471; 3921009573; 961987163; 1508970993; 2453635748; 2870763221;
  3624381080; 310598401; 607225278; 1426881987; 1925078388; 2162078206; 2614888103; 3248222580;
  3835390401; 4022224774; 264347078; 604807628; 770255983; 1249150122; 1555081692; 1996064986;
  2554220882; 2821834349; 2952996808; 3210313671; 3336571891; 3584528711; 113926993; 338241895;
  666307205; 773529912; 1294757372; 1396182291; 1695183700; 1986661051; 2177026350; 2456956037;
  2730485921; 2820302411; 3259730800; 3345764771; 3516065817; 3600352804; 4094571909; 275423344;
  430227734; 506948616; 659060556; 883997877; 958139571; 1322822218; 1537002063; 1747873779;
  1955562222; 2024104815; 2227730452; 2361852424; 2428436474; 2756734187; 3204031479; 3329325298].

Definition sha256_init : list Z :=
  [1779033703; 3144134277; 1013904242; 2773480762; 1359893119; 2600822924; 528734635; 1541459225].

(** The message schedule, most recent word first. *)
Fixpoint sha256_schedule (n : nat) (ws : list Z) : list Z :=
  match n with
  | O => ws
  | S n =>
      let w := fun i => nth i ws 0 in
      let s0 := Z.lxor (Z.lxor (rotr 7 (w 14%nat)) (rotr 18 (w 14%nat))) (Z.shiftr (w 14%nat) 3) in
      let s1 := Z.lxor (Z.lxor (rotr 17 (w 1%nat)) (rotr 19 (w 1%nat))) (Z.shiftr (w 1%nat) 10) in
      sha256_schedule n (u32 (w 15%nat + s0 + w 6%nat + s1) :: ws)
  end.

Definition sha256_round (st : list Z) (kw : Z * Z) : list Z :=
  match st with
  | [a; b; c; d; e; f; g; h] =>
      let s1 := Z.lxor (Z.lxor (rotr 6 e) (rotr 11 e)) (rotr 25 e) in
      let ch := Z.lxor (Z.land e f) (Z.land (not32 e) g) in
      let t1 := h + s1 + ch + fst kw + snd kw in
      let s0 := Z.lxor (Z.lxor (rotr 2 a) (rotr 13 a)) (rotr 22 a) in
      let maj := Z.lxor (Z.lxor (Z.land a b) (Z.land a c)) (Z.land b c) in
      [u32 (t1 + s0 + maj); a; b; c; u32 (d + t1); e; f; g]
  | _ => st
  end.

Definition sha256_block (st block : list Z) : list Z :=
  let ws := rev (sha256_schedule 48 (rev (words_of block))) in
  zip_with (fun x y => u32 (x + y)) st
    (fold_left sha256_round (combine sha256_k ws) st).

Definition sha256 (msg : list Z) : list Z :=
  List.concat (map bytes_of_word (fold_left sha256_block (message_blocks msg) sha256_init)).

(** ** SHA-1 *)

Definition sha1_init : list Z := [1732584193; 4023233417; 2562383102; 271733878; 3285377520].

Fixpoint sha1_schedule (n : nat) (ws : list Z) : list Z :=
  match n with
  | O => ws
  | S n =>
      let w := fun i => nth i ws 0 in
      sha1_schedule n
        (rotl 1 (Z.lxor (Z.lxor (w 2%nat) (w 7%nat)) (Z.lxor (w 13%nat) (w 15%nat))) :: ws)
  end.

Definition sha1_f (t : nat) (b c d : Z) : Z * Z :=
  if (t <? 20)%nat then (Z.lor (Z.land b c) (Z.land (not32 b) d), 1518500249)
  else if (t <? 40)%nat then (Z.lxor (Z.lxor b c) d, 1859775393)
  else if (t <? 60)%nat then
    (Z.lor (Z.lor (Z.land b c) (Z.land b d)) (Z.land c d), 2400959708)
  else (Z.lxor (Z.lxor b c) d, 3395469782).

Definition sha1_round (st : list Z) (tw : nat * Z) : list Z :=
  match st with
  | [a; b; c; d; e] =>
      let '(f, k) := sha1_f (fst tw) b c d in
      [u32 (rotl 5 a + f + e + k + snd tw); a; rotl 30 b; c; d]
  | _ => st
  end.

Definition sha1_block (st block : list Z) : list Z :=
  let ws := rev (sha1_schedule 64 (rev (words_of block))) in
  zip_with (fun x y => u32 (x + y)) st
    (fold_left sha1_round (combine (List.seq 0 80) ws) st).

Definition sha1 (msg : list Z) : list Z :=
  List.concat (map bytes_of_word (fold_left sha1_block (message_blocks msg) sha1_init)).

(** ** HMAC, for a hash with 64-byte blocks *)

Definition hmac (hash : list Z -> list Z) (key msg : list Z) : list Z :=
  let key := if (64 <? List.length key)%nat then hash key else key in
  let key := key ++ repeat 0 (64 - List.length key) in
  let opad := map (fun b => Z.lxor b 92) key in
  let ipad := map (fun b => Z.lxor b 54) key in
  hash (opad ++ hash (ipad ++ msg)).

Definition hmac_sha256 : list Z -> list Z -> list Z := hmac sha256.
Definition hmac_sha1 : list Z -> list Z -> list Z := hmac sha1.

(** ** hex *)

Definition hex_digit (n : Z) : ascii :=
  of_byte (if n <? 10 then 48 + n else 87 + n).

Fixpoint hex_encode (l : list Z) : string :=
  match l with
  | [] => ""
  | b :: l => String (hex_digit (b / 16)) (String (hex_digit (b mod 16)) (hex_encode l))
  end.

Definition hex_value (c : ascii) : option Z :=
  let b := byte_of c in
  if (48 <=? b) && (b <=? 57) then Some (b - 48)
  else if (97 <=? b) && (b <=? 102) then Some (b - 87)
  else if (65 <=? b) && (b <=? 70) then Some (b - 55)
  else None.

(** [hex.DecodeString]. *)
Fixpoint hex_decode (s : string) : option (list Z) :=
  match s with
  | EmptyString => Some []
  | String a (String b s) =>
      x ← hex_value a; y ← hex_value b; l ← hex_decode s; Some (x * 16 + y :: l)
  | String _ EmptyString => None
  end.

(** ** base32, standard alphabet without padding *)

Definition b32_char (v : Z) : ascii := of_byte (if v <? 26 then 65 + v else 24 + v).

Definition b32_value (c : ascii) : option Z :=
  let b := byte_of c in
  if (65 <=? b) && (b <=? 90) then Some (b - 65)
  else if (50 <=? b) && (b <=? 55) then Some (b - 24)
  else None.

(** The bytes of one quantum of 5-bit values; a quantum of 1, 3 or 6 values
    yields none, as in Go's decoder. *)
Definition b32_quantum (q : list Z) : list Z :=
  match q with
  | [a; b] => [u8 (a * 8) + b / 4]
  | [a; b; c; d] => [u8 (a * 8) + b / 4; u8 (b * 64) + c * 2 + d / 16]
  | [a; b; c; d; e] =>
      [u8 (a * 8) + b / 4; u8 (b * 64) + c * 2 + d / 16; u8 (d * 16) + e / 2]
  | [a; b; c; d; e; f; g] =>
      [u8 (a * 8) + b / 4; u8 (b * 64) + c * 2 + d / 16; u8 (d * 16) + e / 2;
       u8 (e * 128) + f * 4 + g / 8]
  | [a; b; c; d; e; f; g; h] =>
      [u8 (a * 8) + b / 4; u8 (b * 64) + c * 2 + d / 16; u8 (d * 16) + e / 2;
       u8 (e * 128) + f * 4 + g / 8; u8 (g * 32) + h]
  | _ => []
  end.

Fixpoint b32_groups (vs q : list Z) : list Z :=
  match vs with
  | [] => b32_quantum q
  | v :: vs =>
      let q := q ++ [v] in
      if (List.length q =? 8)%nat then b32_quantum q ++ b32_groups vs [] else b32_groups vs q
  end.

Definition not_newline (c : ascii) : bool :=
  negb (Ascii.eqb c "010" || Ascii.eqb c "013").

(** [base32.StdEncoding.WithPadding(NoPadding).DecodeString]: line breaks are
    skipped, any other byte outside the alphabet is an error. *)
Definition base32_decode (s : string) : option (list Z) :=
  vs ← mapM b32_value (List.filter not_newline (String.list_ascii_of_string s));
  Some (b32_groups vs []).

(** The values of the groups of five bytes, and the encoding. *)
Fixpoint b32_encode (l : list Z) : list Z :=
  match l with
  | [] => []
  | [a] => [a / 8; a mod 8 * 4]
  | [a; b] => [a / 8; a mod 8 * 4 + b / 64; b / 2 mod 32; b mod 2 * 16]
  | [a; b; c] =>
      [a / 8; a mod 8 * 4 + b / 64; b / 2 mod 32; b mod 2 * 16 + c / 16; c mod 16 * 2]
  | [a; b; c; d] =>
      [a / 8; a mod 8 * 4 + b / 64; b / 2 mod 32; b mod 2 * 16 + c / 16;
       c mod 16 * 2 + d / 128; d / 4 mod 32; d mod 4 * 8]
  | a :: b :: c :: d :: e :: l =>
      [a / 8; a mod 8 * 4 + b / 64; b / 2 mod 32; b mod 2 * 16 + c / 16;
       c mod 16 * 2 + d / 128; d / 4 mod 32; d mod 4 * 8 + e / 32; e mod 32] ++ b32_encode l
  end.

Definition base32_encode (l : list Z) : string :=
  String.string_of_list_ascii (map b32_char (b32_encode l)).

(** ** base64, standard alphabet with padding *)

Definition b64std_char (v : Z) : ascii :=
  of_byte (if v <? 26 then 65 + v else if v <? 52 then 71 + v else if v <? 62 then v - 4
           else if v =? 62 then 43 else 47).

Definition b64std_value (c : ascii) : option Z :=
  let b := byte_of c in
  if (65 <=? b) && (b <=? 90) then Some (b - 65)
  else if (97 <=? b) && (b <=? 122) then Some (b - 71)
  else if (48 <=? b) && (b <=? 57) then Some (b + 4)
  else if b =? 43 then Some 62 else if b =? 47 then Some 63 else None.

Definition pad_char : ascii := "061".

Fixpoint b64std_chars (l : list Z) : list ascii :=
  match l with
  | [] => []
  | [a] => [b64std_char (a / 4); b64std_char (a mod 4 * 16); pad_char; pad_char]
  | [a; b] => [b64std_char (a / 4); b64std_char (a mod 4 * 16 + b / 16);
               b64std_char (b mod 16 * 4); pad_char]
  | a :: b :: c :: l =>
      b64std_char (a / 4) :: b64std_char (a mod 4 * 16 + b / 16)
        :: b64std_char (b mod 16 * 4 + c / 64) :: b64std_char (c mod 64) :: b64std_chars l
  end.

(** A quantum of four characters, the last one possibly padded; the bits that
    padding leaves over are dropped. *)
Fixpoint b64std_quanta (cs : list ascii) : option (list Z) :=
  match cs with
  | [] => Some []
  | a :: b :: c :: d :: cs =>
      x ← b64std_value a; y ← b64std_value b;
      if Ascii.eqb c pad_char then
        if Ascii.eqb d pad_char && (List.length cs =? 0)%nat then Some [x * 4 + y / 16] else None
      else
        z ← b64std_value c;
        if Ascii.eqb d pad_char then
          if (List.length cs =? 0)%nat then Some [x * 4 + y / 16; u8 (y * 16) + z / 4] else None
        else
          t ← b64std_value d; l ← b64std_quanta cs;
          Some (x * 4 + y / 16 :: u8 (y * 16) + z / 4 :: u8 (z * 64) + t :: l)
  | _ => None
  end.

(** [base64.StdEncoding]: the decoder skips line breaks. *)
Definition base64_encode (l : list Z) : string := String.string_of_list_ascii (b64std_chars l).
Definition base64_decode (s : string) : option (list Z) :=
  b64std_quanta (List.filter not_newline (String.list_ascii_of_string s)).

(** Published test vectors. *)
Example sha256_abc : hex_encode (sha256 (bytes_of "abc")) =
  "ba7816bf8f01cfea414140de5dae2223b00361a396177a9cb410ff61f20015ad".
Proof. vm_compute. reflexivity. Qed.

Example sha1_abc : hex_encode (sha1 (bytes_of "abc")) =
  "a9993e364706816aba3e25717850c26c9cd0d89d".
Proof. vm_compute. reflexivity. Qed.

Example hmac_sha256_rfc4231_2 :
  hex_encode (hmac_sha256 (bytes_of "Jefe") (bytes_of "what do ya want for nothing?")) =
  "5bdcc146bf60754e6a042426089575c75a003f089d2739839dec58b964ec3843".
Proof. vm_compute. reflexivity. Qed.

Example base32_roundtrip_ex :
  base32_decode (base32_encode (bytes_of "12345678901234567890")) =
  Some (bytes_of "12345678901234567890").
Proof. vm_compute. reflexivity. Qed.

Example base64_vectors :
  map (fun s => base64_encode (bytes_of s)) ["f"; "fo"; "foo"; "foob"] = ["Zg=="; "Zm8="; "Zm9v"; "Zm9vYg=="]
  /\ base64_decode "Zm9v
Yg==" = Some (bytes_of "foob") /\ base64_decode "Zg=" = None.
Proof. vm_compute. auto. Qed.

(** ** Sizes *)

Lemma length_bytes_of_word w : List.length (bytes_of_word w) = 4%nat.
Proof. done. Qed.

Lemma length_concat_const {A B} (f : A -> list B) n l :
  (forall x, List.length (f x) = n) ->
  List.length (List.concat (map f l)) = (n * List.length l)%nat.
Proof.
  intros H. induction l as [|x l IH]; cbn; [lia|].
  rewrite length_app, H, IH. lia.
Qed.

Lemma length_fold_left {A B} (f : list A -> B -> list A) n l st :
  (forall st x, List.length st = n -> List.length (f st x) = n) ->
  List.length st = n -> List.length (fold_left f l st) = n.
Proof. intros Hf. revert st. induction l as [|x l IH]; intros st H; cbn; auto. Qed.

Lemma length_sha256_round st kw :
  List.length st = 8%nat -> List.length (sha256_round st kw) = 8%nat.
Proof. intros H. do 8 (destruct st as [|? st]; [done|]). by destruct st. Qed.

Lemma length_sha256_block st block :
  List.length st = 8%nat -> List.length (sha256_block st block) = 8%nat.
Proof.
  intros H. unfold sha256_block. rewrite length_zip_with, H.
  rewrite (length_fold_left _ 8); auto using length_sha256_round.
Qed.

Lemma length_sha256 msg : List.length (sha256 msg) = 32%nat.
Proof.
  unfold sha256. rewrite (length_concat_const _ 4) by done.
  rewrite (length_fold_left _ 8); auto using length_sha256_block.
Qed.

Lemma length_hmac_sha256 key msg : List.length (hmac_sha256 key msg) = 32%nat.
Proof. apply length_sha256. Qed.

Lemma length_sha1_round st tw :
  List.length st = 5%nat -> List.length (sha1_round st tw) = 5%nat.
Proof.
  intros H. do 5 (destruct st as [|? st]; [done|]). destruct st; [|done].
  cbn. by destruct (sha1_f _ _ _ _).
Qed.

Lemma length_sha1_block st block :
  List.length st = 5%nat -> List.length (sha1_block st block) = 5%nat.
Proof.
  intros H. unfold sha1_block. rewrite length_zip_with, H.
  rewrite (length_fold_left _ 5); auto using length_sha1_round.
Qed.

Lemma length_sha1 msg : List.length (sha1 msg) = 20%nat.
Proof.
  unfold sha1. rewrite (length_concat_const _ 4) by done.
  rewrite (length_fold_left _ 5); auto using length_sha1_block.
Qed.

Lemma length_hex_encode l :
  String.length (hex_encode l) = (2 * List.length l)%nat.
Proof. induction l as [|b l IH]; cbn; [done|]. rewrite IH. lia. Qed.

(** Hexadecimal text is ASCII, and reads back to the bytes. *)
Definition is_byte (b : Z) : Prop := 0 <= b < 256.

Lemma string_of_bytes_of s : string_of_bytes (bytes_of s) = s.
Proof.
  unfold string_of_bytes, bytes_of. rewrite map_map. induction s as [|c s IH]; [done|].
  cbn. by rewrite of_byte_of, IH.
Qed.

Lemma bytes_of_is_byte s : Forall is_byte (bytes_of s).
Proof.
  unfold bytes_of. apply Forall_map_iff, Forall_forall. intros c _. apply byte_of_range.
Qed.

Lemma length_bytes_of s : List.length (bytes_of s) = String.length s.
Proof. unfold bytes_of. rewrite length_map. induction s; cbn; congruence. Qed.

Lemma byte_of_hex_digit n : 0 <= n < 16 ->
  byte_of (hex_digit n) = if n <? 10 then 48 + n else 87 + n.
Proof. intros H. unfold hex_digit. destruct (Z.ltb_spec n 10); apply byte_of_byte; lia. Qed.

Lemma hex_nibbles b : is_byte b -> 0 <= b / 16 < 16 /\ 0 <= b mod 16 < 16.
Proof. unfold is_byte. intros. Z.div_mod_to_equations. lia. Qed.

Lemma hex_encode_ascii l :
  Forall is_byte l -> sforall (fun c => byte_of c <? 128) (hex_encode l) = true.
Proof.
  induction 1 as [|b l Hb Hl IH]; [done|].
  apply hex_nibbles in Hb as [H1 H2].
  cbn [hex_encode sforall]. rewrite !byte_of_hex_digit by done.
  rewrite !andb_true_iff, !Z.ltb_lt. split_and!; [..|done];
    [destruct (Z.ltb_spec (b / 16) 10) | destruct (Z.ltb_spec (b mod 16) 10)]; lia.
Qed.

Lemma hex_encode_digits l : Forall is_byte l ->
  sforall (fun c => ((48 <=? byte_of c) && (byte_of c <=? 57)) || ((97 <=? byte_of c) && (byte_of c <=? 102)))
    (hex_encode l) = true.
Proof.
  induction 1 as [|b l Hb _ IH]; [done|]. unfold is_byte in Hb.
  assert (0 <= b / 16 < 16) by (split; [apply Z.div_pos|apply Z.div_lt_upper_bound]; lia).
  assert (0 <= b mod 16 < 16) by (apply Z.mod_pos_bound; lia).
  cbn [hex_encode sforall]. rewrite !byte_of_hex_digit, IH by done.
  destruct (Z.ltb_spec (b / 16) 10), (Z.ltb_spec (b mod 16) 10); rewrite ?andb_true_r, ?andb_true_iff, ?orb_true_iff, ?andb_true_iff; lia.
Qed.

Lemma hex_value_digit n : 0 <= n < 16 -> hex_value (hex_digit n) = Some n.
Proof.
  intros H. unfold hex_value. rewrite byte_of_hex_digit by done.
  destruct (Z.ltb_spec n 10).
  - rewrite (proj2 (Z.leb_le 48 (48 + n))), (proj2 (Z.leb_le (48 + n) 57)) by lia.
    cbn. f_equal. lia.
  - rewrite (proj2 (Z.leb_gt (87 + n) 57)) by lia. rewrite andb_false_r.
    rewrite (proj2 (Z.leb_le 97 (87 + n))), (proj2 (Z.leb_le (87 + n) 102)) by lia.
    cbn. f_equal. lia.
Qed.

Lemma hex_roundtrip l : Forall is_byte l -> hex_decode (hex_encode l) = Some l.
Proof.
  induction 1 as [|b l Hb Hl IH]; [done|].
  apply hex_nibbles in Hb as [H1 H2].
  cbn [hex_encode hex_decode]. rewrite !hex_value_digit, IH by done. cbn.
  f_equal. f_equal. pose proof (Z.div_mod b 16). lia.
Qed.

Lemma bytes_of_words_range l : Forall is_byte (List.concat (map bytes_of_word l)).
Proof.
  induction l as [|w l IH]; cbn; [constructor|]. unfold is_byte.
  repeat (constructor; [apply Z.mod_pos_bound; lia|]). done.
Qed.

Lemma sha256_bytes msg : Forall is_byte (sha256 msg).
Proof. apply bytes_of_words_range. Qed.

Lemma hmac_sha256_bytes key msg : Forall is_byte (hmac_sha256 key msg).
Proof. apply sha256_bytes. Qed.

Lemma sha1_bytes msg : Forall is_byte (sha1 msg).
Proof. apply bytes_of_words_range. Qed.

(** ** The base64 codec *)

Lemma list_ind3 {A} (P : list A -> Prop) :
  P [] -> (forall a, P [a]) -> (forall a b, P [a; b]) ->
  (forall a b c l, P l -> P (a :: b :: c :: l)) -> forall l, P l.
Proof.
  intros H0 H1 H2 H3. fix IH 1. intros [|a [|b [|c l]]];
    [exact H0|exact (H1 a)|exact (H2 a b)|exact (H3 a b c l (IH l))].
Qed.

Lemma b64std_char_value v :
  0 <= v < 64 -> b64std_value (b64std_char v) = Some v /\
    Ascii.eqb (b64std_char v) pad_char = false /\ not_newline (b64std_char v) = true.
Proof.
  intros Hv. assert (Hall : forallb (fun n => let v := Z.of_nat n in
    bool_decide (b64std_value (b64std_char v) = Some v) && negb (Ascii.eqb (b64std_char v) pad_char)
      && not_newline (b64std_char v)) (seq 0 64) = true) by (vm_compute; reflexivity).
  rewrite forallb_forall in Hall. specialize (Hall (Z.to_nat v)).
  rewrite Z2Nat.id in Hall by lia. cbn zeta in Hall.
  rewrite !andb_true_iff, bool_decide_eq_true, negb_true_iff in Hall.
  destruct Hall as [[??]?]; [apply in_seq; lia|]. done.
Qed.

#[local] Ltac Zify.zify_post_hook ::= Z.to_euclidean_division_equations.

#[local] Ltac b64_step :=
  match goal with
  | |- context [b64std_value (b64std_char ?v)] =>
      rewrite (proj1 (b64std_char_value v ltac:(lia)))
  | |- context [Ascii.eqb (b64std_char ?v) pad_char] =>
      rewrite (proj1 (proj2 (b64std_char_value v ltac:(lia))))
  end.

Lemma base64_roundtrip l : Forall is_byte l -> base64_decode (base64_encode l) = Some l.
Proof.
  intros Hl. unfold base64_decode, base64_encode. rewrite list_ascii_of_string_of_list_ascii.
  replace (List.filter not_newline (b64std_chars l)) with (b64std_chars l).
  - induction l as [|a|a b|a b c l IH] using list_ind3; [done| | |];
      repeat match goal with Hf : Forall _ (_ :: _) |- _ => apply Forall_cons in Hf as [? Hf] end;
      unfold is_byte in *; cbn [b64std_chars b64std_quanta].
    + repeat (b64_step; cbn). do 2 f_equal. lia.
    + repeat (b64_step; cbn). do 2 f_equal; [lia|]. f_equal. unfold u8. change (2 ^ 8) with 256. lia.
    + repeat (b64_step; cbn). rewrite IH by done. cbn. unfold u8. change (2 ^ 8) with 256.
      do 2 f_equal; [lia|]. f_equal; [lia|]. f_equal. lia.
  - symmetry. induction l as [|a|a b|a b c l IH] using list_ind3; [done| | |];
      repeat match goal with Hf : Forall _ (_ :: _) |- _ => apply Forall_cons in Hf as [? Hf] end;
      unfold is_byte in *; cbn [b64std_chars List.filter];
      repeat match goal with |- context [not_newline (b64std_char ?v)] =>
        rewrite (proj2 (proj2 (b64std_char_value v ltac:(lia)))) end; [done..|].
    by rewrite IH.
Qed.

Lemma b64std_char_visible v : visible (b64std_char v) = true \/ ~ 0 <= v < 64.
Proof.
  destruct (decide (0 <= v < 64)) as [Hv|]; [left|by right].
  assert (Hall : forallb (fun n => visible (b64std_char (Z.of_nat n))) (seq 0 64) = true)
    by (vm_compute; reflexivity).
  rewrite forallb_forall in Hall. specialize (Hall (Z.to_nat v)).
  rewrite Z2Nat.id in Hall by lia. apply Hall, in_seq. lia.
Qed.

Lemma base64_visible l : Forall is_byte l -> sforall visible (base64_encode l) = true.
Proof.
  unfold base64_encode. induction l as [|a|a b|a b c l IH] using list_ind3; intros Hl; [done| | |];
    repeat match goal with Hf : Forall _ (_ :: _) |- _ => apply Forall_cons in Hf as [? Hf] end;
    unfold is_byte in *; cbn [b64std_chars String.string_of_list_ascii sforall];
    repeat match goal with |- context [visible (b64std_char ?v)] =>
      destruct (b64std_char_visible v) as [->|?]; [|lia] end; [done..|]. by rewrite IH.
Qed.

Lemma TrimSpace_base64 l : Forall is_byte l -> TrimSpace (base64_encode l) = base64_encode l.
Proof. intros Hl. by apply TrimSpace_visible, base64_visible. Qed.

#[local] Ltac Zify.zify_post_hook ::= idtac.

(** Proofs use the hashes as functions; only witnesses run them. *)
#[global] Opaque sha1 sha256 hmac hmac_sha1 hmac_sha256 hex_encode.
