(* ===== verification/GoJson.v ===== *)
(** [encoding/json]: marshalling of flat structs with integer, string and
    boolean fields, and its injectivity.

    A string is escaped rune by rune; bytes that are not well-formed UTF-8 are
    all written as the escape of U+FFFD, so [Marshal] is injective on
    well-formed text, and a well-formed value is never confused with an
    ill-formed one. *)

From S2P Require Import Prelude GoStrings GoText GoCrypto.
From stdpp Require Import options.

Definition dquote : ascii := "034".
Definition backslash : ascii := "092".

(** ** Strings *)

Definition hex_esc (b : Z) : string :=
  String backslash ("u00" +:+ String (hex_digit (b / 16)) (str1 (hex_digit (b mod 16)))).

(** Runes below 128 that [Marshal] escapes: controls, the quote, the
    backslash, and the characters that are special in HTML. *)
Definition escaped_ascii : list Z :=
  [0; 1; 2; 3; 4; 5; 6; 7; 8; 9; 10; 11; 12; 13; 14; 15; 16; 17; 18; 19; 20; 21; 22; 23;
   24; 25; 26; 27; 28; 29; 30; 31; 34; 38; 60; 62; 92].

Definition needs_escape (t : token) : bool :=
  negb (tok_ok t) || existsb (Z.eqb (tok_rune t)) (8232 :: 8233 :: escaped_ascii).

Definition escape (t : token) : string :=
  let r := tok_rune t in
  if negb (tok_ok t) then String backslash "ufffd"
  else if r =? 8232 then String backslash "u2028"
  else if r =? 8233 then String backslash "u2029"
  else if r =? 34 then String backslash (str1 dquote)
  else if r =? 92 then String backslash (str1 backslash)
  else if r =? 8 then String backslash "b"
  else if r =? 12 then String backslash "f"
  else if r =? 10 then String backslash "n"
  else if r =? 13 then String backslash "r"
  else if r =? 9 then String backslash "t"
  else hex_esc r.

Definition json_token (t : token) : string :=
  if needs_escape t then escape t else tok_raw t.

Definition json_body (ts : list token) : string := sconcat (map json_token ts).

Definition json_string (s : string) : string :=
  String dquote (json_body (tokens s) +:+ str1 dquote).

Example json_string_ex :
  json_string ("a<" +:+ str1 dquote +:+ str1 "010" +:+ "é") =
  String dquote ("a" +:+ String backslash "u003c" +:+ String backslash (str1 dquote)
    +:+ String backslash "n" +:+ "é" +:+ str1 dquote).
Proof. vm_compute. reflexivity. Qed.

(** Reading back an escape; -1 stands for an invalid byte. *)
Definition unescape (s : string) : option (Z * string) :=
  match s with
  | String _ (String c s) =>
      let b := byte_of c in
      if b =? 98 then Some (8, s) else if b =? 102 then Some (12, s)
      else if b =? 110 then Some (10, s) else if b =? 114 then Some (13, s)
      else if b =? 116 then Some (9, s) else if b =? 34 then Some (34, s)
      else if b =? 92 then Some (92, s)
      else match s with
      | String d (String e (String f (String g s))) =>
          w ← hex_value d; x ← hex_value e; y ← hex_value f; z ← hex_value g;
          let v := w * 4096 + x * 256 + y * 16 + z in
          Some (if v =? 65533 then -1 else v, s)
      | _ => None
      end
  | _ => None
  end.

Lemma escape_backslash t : exists s, escape t = String backslash s.
Proof.
  unfold escape, hex_esc.
  repeat match goal with |- context [if ?b then _ else _] => destruct b end; by eexists.
Qed.

Lemma escape_ascii_unescape r rest :
  In r (8232 :: 8233 :: escaped_ascii) ->
  unescape (escape (Token r (encode_rune r) true) +:+ rest) = Some (r, rest).
Proof.
  intros H. cbn [In escaped_ascii] in H.
  repeat (destruct H as [<-|H]; [vm_compute; reflexivity|]). done.
Qed.

Lemma unescape_escape t rest :
  needs_escape t = true ->
  unescape (escape t +:+ rest) = Some (if tok_ok t then tok_rune t else -1, rest).
Proof.
  destruct t as [r raw ok]. unfold needs_escape. cbn [tok_ok tok_rune].
  destruct ok; [|intros _; vm_compute; reflexivity].
  intros H. cbn [negb orb] in H. apply existsb_exists in H as (q & Hq & E%Z.eqb_eq).
  subst q. rewrite <- (escape_ascii_unescape r rest Hq). done.
Qed.

(** ** One token *)

(** Nothing that is copied verbatim looks like an escape or a quote. *)
Definition token_like (t : token) : Prop := canonical t \/ bad t.

Lemma verbatim_canonical t :
  token_like t -> needs_escape t = false -> canonical t.
Proof.
  intros [?|[Hb _]] Hn; [done|]. unfold needs_escape in Hn. by rewrite Hb in Hn.
Qed.

Lemma verbatim_head t c s :
  canonical t -> needs_escape t = false -> tok_raw t = String c s ->
  c <> backslash /\ c <> dquote.
Proof.
  intros (Hok & Hv & Hr) Hn E. unfold needs_escape in Hn. rewrite Hok in Hn.
  cbn [negb orb] in Hn.
  assert (Ht : tokens (String c s) = [t]).
  { rewrite <- E, Hr. pose proof (tokens_encode (tok_rune t) "" Hv) as Q.
    rewrite sapp_nil_r in Q. rewrite Q. destruct t; cbn in *; by subst. }
  assert (Hc : forall k, In k escaped_ascii -> byte_of c <> k).
  { intros k Hk <-.
    assert (byte_of c < 128) by
      (cbn [In escaped_ascii] in Hk; repeat destruct Hk as [Hk|Hk]; lia).
    rewrite tokens_ascii in Ht by done. injection Ht as Ht _.
    assert (existsb (Z.eqb (tok_rune t)) (8232 :: 8233 :: escaped_ascii) = true); [|congruence].
    apply existsb_exists. exists (byte_of c). split; [by right; right|].
    rewrite <- Ht. apply Z.eqb_refl. }
  split; intros ->; [apply (Hc 92)|apply (Hc 34)]; try done; vm_compute; tauto.
Qed.

Lemma canonical_nonempty t : canonical t -> exists c s, tok_raw t = String c s.
Proof.
  intros (_ & _ & ->). unfold encode_rune.
  repeat match goal with |- context [if ?b then _ else _] => destruct b end; by do 2 eexists.
Qed.

Lemma json_token_prefix t u x y :
  token_like t -> token_like u -> tok_ok t = true ->
  json_token t +:+ x = json_token u +:+ y -> t = u /\ x = y.
Proof.
  intros Ht Hu Hok E. unfold json_token in E.
  assert (Htc : canonical t) by (destruct Ht as [?|[Hb _]]; [done|congruence]).
  destruct (needs_escape t) eqn:Et, (needs_escape u) eqn:Eu.
  - pose proof (unescape_escape t x Et) as Px. pose proof (unescape_escape u y Eu) as Py.
    rewrite E, Py, Hok in Px. injection Px as Er Exy.
    destruct Hu as [(Hok' & Hv & Hr)|(Hb & _)].
    + rewrite Hok' in Er. destruct Htc as (_ & Hv' & Hr').
      destruct t, u; cbn in *; by subst.
    + rewrite Hb in Er. destruct Htc as (_ & Hv & _). rewrite <- Er in Hv. done.
  - exfalso. destruct (escape_backslash t) as (s & Es). rewrite Es in E.
    pose proof (verbatim_canonical u Hu Eu) as Huc.
    destruct (canonical_nonempty u Huc) as (c & s' & Er). rewrite Er in E.
    cbn in E. injection E as Ec _. by destruct (verbatim_head u c s' Huc Eu Er).
  - exfalso. destruct (escape_backslash u) as (s & Es). rewrite Es in E.
    destruct (canonical_nonempty t Htc) as (c & s' & Er). rewrite Er in E.
    cbn in E. injection E as Ec _. by destruct (verbatim_head t c s' Htc Et Er).
  - pose proof (verbatim_canonical u Hu Eu) as (Hok' & Hv' & Hr').
    destruct Htc as (_ & Hv & Hr).
    pose proof (tokens_encode (tok_rune t) x Hv) as Px.
    pose proof (tokens_encode (tok_rune u) y Hv') as Py.
    rewrite Hr, Hr' in E. rewrite E, Py in Px. injection Px as Er Ee _.
    rewrite Er in E. apply sapp_inv_head in E.
    destruct t, u; cbn in *; by subst.
Qed.

Lemma json_token_not_quote t x y :
  token_like t -> json_token t +:+ x <> String dquote y.
Proof.
  intros Ht E. unfold json_token in E. destruct (needs_escape t) eqn:Et.
  - destruct (escape_backslash t) as (s & Es). rewrite Es in E. by inversion E.
  - pose proof (verbatim_canonical t Ht Et) as Hc.
    destruct (canonical_nonempty t Hc) as (c & s' & Er). rewrite Er in E.
    cbn in E. injection E as Ec _. by destruct (verbatim_head t c s' Hc Et Er).
Qed.

Lemma json_body_prefix ts us x y :
  Forall canonical ts -> Forall token_like us ->
  json_body ts +:+ String dquote x = json_body us +:+ String dquote y ->
  ts = us /\ x = y.
Proof.
  intros Ht. revert us. induction Ht as [|t ts Hc Hts IH]; intros us Hu E.
  - destruct Hu as [|u us Hu Hus]; cbn in E.
    + by injection E.
    + unfold json_body in E. cbn in E. rewrite sapp_assoc in E.
      symmetry in E. by apply json_token_not_quote in E.
  - unfold json_body in E. cbn in E. rewrite sapp_assoc in E.
    destruct Hu as [|u us Hu Hus]; cbn in E.
    + by apply json_token_not_quote in E; [|left].
    + rewrite sapp_assoc in E.
      apply json_token_prefix in E as [-> E]; [|by left|done|by destruct Hc].
      apply IH in E as [-> ->]; done.
Qed.

(** Well-formed text is determined by its encoding, whatever follows. *)
Lemma json_string_prefix s t x y :
  valid_utf8 s = true ->
  json_string s +:+ x = json_string t +:+ y -> s = t /\ x = y.
Proof.
  intros Hs E. unfold json_string in E. cbn in E. injection E as E.
  rewrite !sapp_assoc in E. cbn in E.
  apply json_body_prefix in E as [E ->];
    [|by apply valid_utf8_canonical|by apply tokens_shape].
  split; [|done]. by rewrite <- (raw_tokens s), <- (raw_tokens t), E.
Qed.

(** ** Values and objects *)

Inductive jval :=
  | JInt (z : Z)
  | JStr (s : string)
  | JBool (b : bool).

Definition json_val (v : jval) : string :=
  match v with
  | JInt z => Itoa z
  | JStr s => json_string s
  | JBool true => "true"
  | JBool false => "false"
  end.

Definition well_formed (v : jval) : bool :=
  match v with JStr s => valid_utf8 s | _ => true end.

Fixpoint json_fields (keys : list string) (vs : list jval) : string :=
  match keys, vs with
  | [k], v :: _ => String dquote (k +:+ String dquote (":" +:+ json_val v +:+ "}"))
  | k :: keys, v :: vs =>
      String dquote (k +:+ String dquote (":" +:+ json_val v +:+ "," +:+ json_fields keys vs))
  | _, _ => "}"
  end.

(** [json.Marshal] of a struct: the keys in declaration order. *)
Definition Marshal (keys : list string) (vs : list jval) : string :=
  "{" +:+ json_fields keys vs.

Definition terminator (s : string) : bool :=
  match s with
  | String c _ => Ascii.eqb c "," || Ascii.eqb c "}"
  | EmptyString => false
  end.

Definition int_char (c : ascii) : bool := is_digit c || Ascii.eqb c "-".

Lemma Itoa_chars z : sforall int_char (Itoa z) = true.
Proof.
  assert (H : forall s, sforall is_digit s = true -> sforall int_char s = true).
  { induction s as [|c s IH]; cbn; [done|]. intros [Hc Hs]%andb_true_iff.
    apply andb_true_iff. split; [|auto]. unfold int_char. by rewrite Hc. }
  unfold Itoa. destruct (Z.ltb_spec z 0).
  - cbn. apply H, digits_digits. lia.
  - by apply H, digits_digits.
Qed.

Lemma digits_inj n m : 0 <= n -> 0 <= m -> digits n = digits m -> n = m.
Proof.
  intros Hn Hm E. pose proof (parse_digits_digits n Hn) as P.
  rewrite E, parse_digits_digits in P by done. by injection P.
Qed.

Lemma digits_not_minus n s : 0 <= n -> digits n <> String "-" s.
Proof.
  intros Hn E. pose proof (digits_digits n Hn) as P. rewrite E in P. done.
Qed.

Lemma Itoa_inj z w : Itoa z = Itoa w -> z = w.
Proof.
  unfold Itoa. destruct (Z.ltb_spec z 0), (Z.ltb_spec w 0); cbn; intros E.
  - injection E as E. apply digits_inj in E; lia.
  - symmetry in E. by apply digits_not_minus in E.
  - by apply digits_not_minus in E.
  - by apply digits_inj in E.
Qed.

Lemma terminator_not_int x c s :
  terminator x = true -> x = String c s -> int_char c = false.
Proof.
  intros H ->. cbn in H. apply orb_true_iff in H as [H|H];
    apply Ascii.eqb_eq in H as ->; reflexivity.
Qed.

Lemma span_prefix (f : ascii -> bool) s t x y :
  sforall f s = true -> sforall f t = true ->
  (forall c r, x = String c r -> f c = false) ->
  (forall c r, y = String c r -> f c = false) ->
  s +:+ x = t +:+ y -> s = t /\ x = y.
Proof.
  revert t. induction s as [|c s IH]; intros [|d t] Hs Ht Hx Hy E; cbn in *.
  - done.
  - apply andb_true_iff in Ht as [Hd _]. by rewrite (Hx _ _ E) in Hd.
  - apply andb_true_iff in Hs as [Hd _]. by rewrite (Hy _ _ (eq_sym E)) in Hd.
  - injection E as -> E. apply andb_true_iff in Hs as [_ Hs], Ht as [_ Ht].
    apply IH in E as [-> ->]; done.
Qed.

Lemma Itoa_prefix z w x y :
  terminator x = true -> terminator y = true ->
  Itoa z +:+ x = Itoa w +:+ y -> z = w /\ x = y.
Proof.
  intros Hx Hy E. apply span_prefix with (f := int_char) in E as [E ->];
    eauto using Itoa_chars, terminator_not_int.
  split; [by apply Itoa_inj|done].
Qed.

(** The first byte tells the kind of a value. *)
Definition kind_of_head (c : ascii) : Z :=
  if Ascii.eqb c dquote then 1 else if int_char c then 0 else 2.

Lemma json_val_head v x : exists c s, json_val v +:+ x = String c s /\
  kind_of_head c = match v with JInt _ => 0 | JStr _ => 1 | JBool _ => 2 end.
Proof.
  destruct v as [z|s|[]]; cbn; [|by do 2 eexists..].
  pose proof (Itoa_chars z) as H.
  assert (Hne : exists c s, Itoa z = String c s).
  { unfold Itoa. destruct (z <? 0); [by do 2 eexists|]. apply digits_nonempty. }
  destruct Hne as (c & s & E). rewrite E in *. cbn in *.
  apply andb_true_iff in H as [H _]. do 2 eexists. split; [done|].
  unfold kind_of_head. rewrite H.
  destruct (Ascii.eqb_spec c dquote) as [->|]; [done|done].
Qed.

Lemma json_val_prefix v w x y :
  well_formed v = true -> terminator x = true -> terminator y = true ->
  json_val v +:+ x = json_val w +:+ y -> v = w /\ x = y.
Proof.
  intros Hv Hx Hy E.
  destruct (json_val_head v x) as (c & s & Ev & Kv).
  destruct (json_val_head w y) as (d & t & Ew & Kw).
  assert (Hk : kind_of_head c = kind_of_head d) by congruence.
  rewrite Kv, Kw in Hk. clear c s d t Ev Ew Kv Kw.
  destruct v as [z|s|b], w as [z'|s'|b']; cbn in Hk; try discriminate; cbn in E.
  - by apply Itoa_prefix in E as [-> ->].
  - by apply json_string_prefix in E as [-> ->].
  - destruct b, b'; cbn in E; first [discriminate E | by injection E as ->].
Qed.

Lemma json_fields_inj keys vs ws :
  List.length vs = List.length keys -> List.length ws = List.length keys ->
  forallb well_formed vs = true ->
  json_fields keys vs = json_fields keys ws -> vs = ws.
Proof.
  revert vs ws. induction keys as [|k keys IH]; intros [|v vs] [|w ws] Hv Hw Hok E;
    try done; cbn in Hv, Hw.
  cbn in Hok. apply andb_true_iff in Hok as [Hok Hoks].
  destruct keys as [|k' keys].
  - destruct vs, ws; try done. cbn -[json_val] in E. injection E as E.
    apply sapp_inv_head in E. injection E as E.
    by apply json_val_prefix in E as [-> _].
  - change (json_fields (k :: k' :: keys) (v :: vs)) with
      (String dquote (k +:+ String dquote (":" +:+ json_val v +:+ "," +:+ json_fields (k' :: keys) vs))) in E.
    change (json_fields (k :: k' :: keys) (w :: ws)) with
      (String dquote (k +:+ String dquote (":" +:+ json_val w +:+ "," +:+ json_fields (k' :: keys) ws))) in E.
    cbn -[json_val json_fields] in E. injection E as E.
    apply sapp_inv_head in E. injection E as E.
    apply json_val_prefix in E as [-> E]; [|done..]. injection E as E.
    f_equal. apply IH; [lia|lia|done|done].
Qed.

(** A struct with well-formed strings is determined by its encoding. *)
Lemma Marshal_inj keys vs ws :
  List.length vs = List.length keys -> List.length ws = List.length keys ->
  forallb well_formed vs = true ->
  Marshal keys vs = Marshal keys ws -> vs = ws.
Proof.
  intros Hv Hw Hok E. unfold Marshal in E. cbn -[json_fields] in E. injection E as E.
  by apply (json_fields_inj keys).
Qed.

#[global] Opaque Marshal json_fields.
