(* ===== verification/GoFloat.v ===== *)
(** [float64] and [math]: the IEEE 754 values of the Standard Library's
    [SpecFloat], their order, the operations the panel uses and [%.2f]. *)

From S2P Require Import Prelude GoStrings GoText.
From Stdlib Require Import SpecFloat.
From stdpp Require Import options.
#[local] Open Scope Z_scope.

Definition float64 := spec_float.

Definition of_int (z : Z) : float64 := binary_normalize 53 1024 z 0 false.
Definition fadd (x y : float64) : float64 := SFadd 53 1024 x y.
Definition fdiv (x y : float64) : float64 := SFdiv 53 1024 x y.

(** [<], [<=], [>] and [>=] are all false on a NaN. *)
Definition flt (x y : float64) : bool := SFltb x y.
Definition fle (x y : float64) : bool := SFleb x y.
Definition fgt (x y : float64) : bool := SFltb y x.
Definition fge (x y : float64) : bool := SFleb y x.

Definition IsNaN (x : float64) : bool := match x with S754_nan => true | _ => false end.
Definition IsInf (x : float64) : bool := match x with S754_infinity _ => true | _ => false end.
Definition finite (x : float64) : bool := negb (IsNaN x) && negb (IsInf x).

(** [int64(math.Ceil(x))]; the conversion of a NaN or an infinity is the
    smallest integer on the platforms that the panel is built for. *)
Definition ceil_int (x : float64) : Z :=
  match x with
  | S754_zero _ => 0
  | S754_finite s m e =>
      let v := if s then Z.neg m else Z.pos m in
      if 0 <=? e then v * 2 ^ e else - (- v / 2 ^ (- e))
  | _ => - 2 ^ 63
  end.

(** [n / d] to the nearest, a half to the even. *)
Definition round_half_even (n d : Z) : Z :=
  let q := n / d in
  match Z.compare (2 * (n mod d)) d with
  | Lt => q
  | Gt => q + 1
  | Eq => if Z.even q then q else q + 1
  end.

(** [fmt.Sprintf("%.2f", x)]: the exact value, rounded to hundredths. *)
Definition hundredths (m : positive) (e : Z) : Z :=
  if 0 <=? e then Z.pos m * 2 ^ e * 100 else round_half_even (Z.pos m * 100) (2 ^ (- e)).

Definition fixed2 (h : Z) : string :=
  Itoa (h / 100) +:+ "." +:+ Itoa (h mod 100 / 10) +:+ Itoa (h mod 10).

Definition format2 (x : float64) : string :=
  match x with
  | S754_nan => "NaN"
  | S754_infinity s => if s then "-Inf" else "+Inf"
  | S754_zero s => if s then "-0.00" else "0.00"
  | S754_finite s m e => (if s then "-" else "") +:+ fixed2 (hundredths m e)
  end.

Example format2_examples :
  map format2 [of_int 90; fdiv (of_int 1) (of_int 3); fdiv (of_int (-25)) (of_int 2);
               fdiv (of_int 1) (of_int 8); fdiv (of_int 1) (of_int 0)] =
  ["90.00"; "0.33"; "-12.50"; "0.12"; "+Inf"].
Proof. vm_compute. reflexivity. Qed.

(** ** The order *)

(** What a comparison compares, in turn: the class of the value, the exponent
    and the mantissa. *)
Definition rank (x : float64) : option (Z * Z * Z) :=
  match x with
  | S754_nan => None
  | S754_infinity s => Some (if s then -2 else 2, 0, 0)
  | S754_zero _ => Some (0, 0, 0)
  | S754_finite s m e => Some (if s then (-1, - e, Z.neg m) else (1, e, Z.pos m))
  end.

Definition lex (a b : Z * Z * Z) : comparison :=
  let '(a1, a2, a3) := a in
  let '(b1, b2, b3) := b in
  match a1 ?= b1 with
  | Eq => match a2 ?= b2 with Eq => a3 ?= b3 | c => c end
  | c => c
  end.

Lemma SFcompare_rank x y :
  SFcompare x y =
    match rank x, rank y with Some a, Some b => Some (lex a b) | _, _ => None end.
Proof.
  destruct x as [[]|[]| |[] m e], y as [[]|[]| |[] m' e']; cbn; try reflexivity; f_equal.
  destruct (Z.compare_spec e e'), (Z.compare_spec (- e) (- e')); try lia; done.
Qed.

Lemma lex_spec a b :
  let '(a1, a2, a3) := a in let '(b1, b2, b3) := b in
  match lex a b with
  | Lt => a1 < b1 \/ a1 = b1 /\ (a2 < b2 \/ a2 = b2 /\ a3 < b3)
  | Eq => a1 = b1 /\ a2 = b2 /\ a3 = b3
  | Gt => b1 < a1 \/ a1 = b1 /\ (b2 < a2 \/ a2 = b2 /\ b3 < a3)
  end.
Proof.
  destruct a as [[a1 a2] a3], b as [[b1 b2] b3]. cbn.
  destruct (Z.compare_spec a1 b1), (Z.compare_spec a2 b2), (Z.compare_spec a3 b3); lia.
Qed.

(** Hysteresis: a value beyond a limit is not back over another one that lies
    strictly on its other side. *)
Lemma above_excludes_below r t v :
  flt r t = true -> fle t v = true -> fle v r = false.
Proof.
  unfold flt, fle, SFltb, SFleb. rewrite !SFcompare_rank.
  destruct (rank r) as [a|]; [|done]. destruct (rank t) as [b|]; [|done].
  destruct (rank v) as [c|]; [|done].
  pose proof (lex_spec a b) as H1. pose proof (lex_spec b c) as H2. pose proof (lex_spec c a) as H3.
  destruct a as [[a1 a2] a3], b as [[b1 b2] b3], c as [[c1 c2] c3].
  destruct (lex _ (b1, b2, b3)), (lex _ (c1, c2, c3)), (lex _ (a1, a2, a3)); intros; try done; lia.
Qed.

Lemma flt_fle x y : flt x y = true -> fle x y = true.
Proof. unfold flt, fle, SFltb, SFleb. by destruct (SFcompare x y) as [[]|]. Qed.

Lemma below_excludes_above r t v :
  fle v t = true -> flt t r = true -> fle r v = false.
Proof.
  unfold flt, fle, SFltb, SFleb. rewrite !SFcompare_rank.
  destruct (rank v) as [a|]; [|done]. destruct (rank t) as [b|]; [|done].
  destruct (rank r) as [c|]; [|done].
  pose proof (lex_spec a b) as H1. pose proof (lex_spec b c) as H2. pose proof (lex_spec c a) as H3.
  destruct a as [[a1 a2] a3], b as [[b1 b2] b3], c as [[c1 c2] c3].
  destruct (lex _ (b1, b2, b3)), (lex _ (c1, c2, c3)), (lex _ (a1, a2, a3)); intros; try done; lia.
Qed.

(** Finite values are ordered. *)
Lemma not_fle_flt x y : finite x = true -> finite y = true -> fle x y = false -> flt y x = true.
Proof.
  unfold finite, flt, fle, SFltb, SFleb. rewrite !SFcompare_rank. intros Hx Hy.
  destruct (rank x) as [a|] eqn:Ea; [|by destruct x].
  destruct (rank y) as [b|] eqn:Eb; [|by destruct y].
  pose proof (lex_spec a b) as H1. pose proof (lex_spec b a) as H2.
  destruct a as [[a1 a2] a3], b as [[b1 b2] b3].
  destruct (lex _ (b1, b2, b3)), (lex _ (a1, a2, a3)); intros; try done; lia.
Qed.
