(* ===== verification/GoNet.v ===== *)
(** IP addresses as the standard library reads and writes them: [netip.ParseAddr]
    and the printing of addresses, [net.ParseIP], [net.ParseCIDR], the string of
    a network, and the classes of addresses the code asks for.

    A [net.IP] is 16 bytes, here the 128-bit number they make; an IPv4 address
    is stored in its mapped form [::ffff:a.b.c.d]. *)

From S2P Require Import Prelude GoStrings GoText.
From stdpp Require Import options.
#[local] Open Scope Z_scope.

(** ** Parsing *)

Inductive Addr := V4 (n : Z) | V6 (n : Z) (zone : string).

(** A field of an IPv4 address: decimal, no leading zero, at most 255. *)
Definition octet (s : string) : option Z :=
  if HasPrefix s "0" && (1 <? len s) then None
  else v ← parse_unsigned s; if v <=? 255 then Some v else None.

Definition of_octets (a b c d : Z) : Z := ((a * 256 + b) * 256 + c) * 256 + d.

Definition parseIPv4 (s : string) : option Z :=
  match Split s "." with
  | [a; b; c; d] =>
      a ← octet a; b ← octet b; c ← octet c; d ← octet d; Some (of_octets a b c d)
  | _ => None
  end.

Definition hex_digit (c : ascii) : option Z :=
  let b := byte_of c in
  if (48 <=? b) && (b <=? 57) then Some (b - 48)
  else if (97 <=? b) && (b <=? 102) then Some (b - 87)
  else if (65 <=? b) && (b <=? 70) then Some (b - 55)
  else None.

(** The hexadecimal digits at the front: how many, their value and the rest. *)
Fixpoint hex_prefix (count acc : Z) (s : string) : Z * Z * string :=
  match s with
  | EmptyString => (count, acc, s)
  | String c s' =>
      match hex_digit c with
      | Some d => hex_prefix (count + 1) (acc * 16 + d) s'
      | None => (count, acc, s)
      end
  end.

(** What an address is made of: its 16-bit groups from the left, and the place
    of the ellipsis among them. *)
Definition groups : Type := list Z * option nat.

(** The loop of [parseIPv6]; [room] is the number of groups that are free. *)
Fixpoint parse_groups (room : nat) (found : groups) (s : string) : option groups :=
  match room with
  | O => match s with EmptyString => Some found | _ => None end
  | S room =>
      let '(gs, ellipsis) := found in
      let '(count, acc, rest) := hex_prefix 0 0 s in
      if (count =? 0) || (4 <? count) then None
      else
        match rest with
        | String "." _ =>
            match ellipsis with
            | None => if bool_decide (List.length gs = 6)%nat then
                        v ← parseIPv4 s; Some (gs ++ [v / 65536; v mod 65536], ellipsis)
                      else None
            | Some _ => if bool_decide (List.length gs <= 6)%nat then
                          v ← parseIPv4 s; Some (gs ++ [v / 65536; v mod 65536], ellipsis)
                        else None
            end
        | EmptyString => Some (gs ++ [acc], ellipsis)
        | String ":" EmptyString => None
        | String ":" (String ":" rest) =>
            match ellipsis with
            | Some _ => None
            | None =>
                let found := (gs ++ [acc], Some (S (List.length gs))) in
                match rest with
                | EmptyString => Some found
                | _ => parse_groups room found rest
                end
            end
        | String ":" rest => parse_groups room (gs ++ [acc], ellipsis) rest
        | _ => None
        end
  end.

(** The ellipsis stands for at least one group of zeros. *)
Definition expand (found : groups) : option (list Z) :=
  let '(gs, ellipsis) := found in
  if bool_decide (List.length gs < 8)%nat then
    at' ← ellipsis; Some (take at' gs ++ replicate (8 - List.length gs) 0 ++ drop at' gs)
  else match ellipsis with None => Some gs | Some _ => None end.

Definition of_groups (gs : list Z) : Z := fold_left (fun n g => n * 65536 + g) gs 0.

Fixpoint cut (s : string) (sep : ascii) : string * option string :=
  match s with
  | EmptyString => ("", None)
  | String c s' =>
      if Ascii.eqb c sep then ("", Some s')
      else let '(a, b) := cut s' sep in (String c a, b)
  end.

Definition parseIPv6 (s : string) : option Addr :=
  let '(s, zone) := cut s "%" in
  match zone with
  | Some "" => None
  | _ =>
      let zone := default "" zone in
      match s with
      | String ":" (String ":" EmptyString) => Some (V6 0 zone)
      | String ":" (String ":" rest) =>
          found ← parse_groups 8 ([], Some O) rest; gs ← expand found; Some (V6 (of_groups gs) zone)
      | _ => found ← parse_groups 8 ([], None) s; gs ← expand found; Some (V6 (of_groups gs) zone)
      end
  end.

(** The first of [.], [:] and [%] decides what the text must be. *)
Fixpoint address_kind (s : string) : option ascii :=
  match s with
  | EmptyString => None
  | String c s' =>
      if Ascii.eqb c "." || Ascii.eqb c ":" || Ascii.eqb c "%" then Some c else address_kind s'
  end.

Definition ParseAddr (s : string) : option Addr :=
  match address_kind s with
  | Some "."%char => V4 <$> parseIPv4 s
  | Some ":"%char => parseIPv6 s
  | _ => None
  end.

(** ** [net.IP] *)

Definition v4_prefix : Z := 65535 * 2 ^ 32.

Definition As16 (a : Addr) : Z :=
  match a with V4 n => v4_prefix + n | V6 n _ => n end.

Definition zone_of (a : Addr) : string := match a with V4 _ => "" | V6 _ z => z end.

Definition ParseIP (s : string) : option Z :=
  a ← ParseAddr s; if String.eqb (zone_of a) "" then Some (As16 a) else None.

Definition To4 (ip : Z) : option Z :=
  if ip / 2 ^ 32 =? 65535 then Some (ip mod 2 ^ 32) else None.

Definition ipv4_string (n : Z) : string :=
  Itoa (n / 2 ^ 24) +:+ "." +:+ Itoa (n / 2 ^ 16 mod 256) +:+ "." +:+
  Itoa (n / 2 ^ 8 mod 256) +:+ "." +:+ Itoa (n mod 256).

Definition group (n : Z) (i : nat) : Z := n / 2 ^ (16 * (7 - Z.of_nat i)) mod 65536.

(** The length of the zeros at the front. *)
Fixpoint zeros (gs : list Z) : nat :=
  match gs with g :: gs => if g =? 0 then S (zeros gs) else O | [] => O end.

(** The longest run of at least two zero groups, the first of equals. *)
Definition zero_run (gs : list Z) : option (nat * nat) :=
  fold_left (fun best i =>
    let l := zeros (drop i gs) in
    let longest := match best with Some (_, n) => n | None => 1%nat end in
    if Nat.ltb longest l then Some (i, l) else best) (seq 0 8) None.

Definition hex_char (d : Z) : ascii := of_byte (if d <? 10 then 48 + d else 87 + d).

Definition hex_group (g : Z) : string :=
  let d i := str1 (hex_char (g / 16 ^ i mod 16)) in
  if 4096 <=? g then d 3 +:+ d 2 +:+ d 1 +:+ d 0
  else if 256 <=? g then d 2 +:+ d 1 +:+ d 0
  else if 16 <=? g then d 1 +:+ d 0
  else d 0.

Definition ipv6_string (n : Z) : string :=
  let gs := map (group n) (seq 0 8) in
  let hex l := Join (map hex_group l) ":" in
  match zero_run gs with
  | None => hex gs
  | Some (i, l) => hex (take i gs) +:+ "::" +:+ hex (drop (i + l) gs)
  end.

Definition ip_string (ip : Z) : string :=
  match To4 ip with Some n => ipv4_string n | None => ipv6_string ip end.

(** A mask of [ones] bits of [bits]. *)
Definition mask_bits (bits ones n : Z) : Z := n / 2 ^ (bits - ones) * 2 ^ (bits - ones).

(** An [IPNet]: its address, 4 or 16 bytes wide, and the ones of its mask. *)
Inductive IPNet := Net4 (n ones : Z) | Net16 (n ones : Z).

(** [dtoi]: a decimal without sign; values from 0xFFFFFF on fail. *)
Definition dtoi (s : string) : option Z :=
  v ← parse_unsigned s; if v <? 16777215 then Some v else None.

Definition ParseCIDR (s : string) : option (Z * IPNet) :=
  let '(addr, mask) := cut s "/" in
  mask ← mask;
  a ← ParseAddr addr;
  if negb (String.eqb (zone_of a) "") then None
  else
    n ← dtoi mask;
    let bits := match a with V4 _ => 32 | V6 _ _ => 128 end in
    if bits <? n then None
    else Some (As16 a,
      match a with
      | V4 v => Net4 (mask_bits 32 n v) n
      | V6 v _ => Net16 (mask_bits 128 n v) n
      end).

(** A 16-byte network of mapped addresses prints as IPv4, with the mask of the
    last four bytes. *)
Definition net_string (net : IPNet) : string :=
  match net with
  | Net4 n ones => ipv4_string n +:+ "/" +:+ Itoa ones
  | Net16 n ones =>
      match To4 n with
      | Some v => ipv4_string v +:+ "/" +:+ Itoa (Z.max 0 (ones - 96))
      | None => ipv6_string n +:+ "/" +:+ Itoa ones
      end
  end.

Definition in_prefix (bits ones net n : Z) : bool := mask_bits bits ones n =? net.

(** [IPNet.Contains]: a mapped network is a network of four bytes. *)
Definition net_contains (net : IPNet) (ip : Z) : bool :=
  let '(bits, ones, n) :=
    match net with
    | Net4 n ones => (32, ones, n)
    | Net16 n ones => match To4 n with Some v => (32, Z.max 0 (ones - 96), v) | None => (128, ones, n) end
    end in
  match To4 ip with
  | Some v => (bits =? 32) && in_prefix 32 ones (mask_bits 32 ones n) v
  | None => (bits =? 128) && in_prefix 128 ones (mask_bits 128 ones n) ip
  end.

(** ** Hosts and ports *)

Definition JoinHostPort (host port : string) : string :=
  if Contains host ":" then "[" +:+ host +:+ "]:" +:+ port else host +:+ ":" +:+ port.

(** The text before and after the last [sep]. *)
Fixpoint cut_last (s : string) (sep : ascii) : option (string * string) :=
  match s with
  | EmptyString => None
  | String c s =>
      match cut_last s sep with
      | Some (a, b) => Some (String c a, b)
      | None => if Ascii.eqb c sep then Some (EmptyString, s) else None
      end
  end.

(** [None] is any of the errors of [net.SplitHostPort]. *)
Definition SplitHostPort (hostport : string) : option (string * string) :=
  '(before, port) ← cut_last hostport ":";
  match hostport with
  | String "["%char rest =>
      match cut rest "]" with
      | (host, Some after) =>
          if negb (String.eqb after (":" +:+ port)) then None
          else if Contains host "[" || Contains after "[" || Contains after "]" then None
          else Some (host, port)
      | (_, None) => None
      end
  | _ =>
      if Contains before ":" || Contains hostport "[" || Contains hostport "]" then None else Some (before, port)
  end.

(** ** Classes of addresses *)

Definition octets (n : Z) : Z * Z := (n / 2 ^ 24, n / 2 ^ 16 mod 256).

Definition IsPrivate (ip : Z) : bool :=
  match To4 ip with
  | Some n =>
      let '(a, b) := octets n in
      (a =? 10) || (a =? 172) && (b / 16 =? 1) || (a =? 192) && (b =? 168)
  | None => ip / 2 ^ 121 =? 126
  end.

Definition IsLoopback (ip : Z) : bool :=
  match To4 ip with Some n => n / 2 ^ 24 =? 127 | None => ip =? 1 end.

Definition IsUnspecified (ip : Z) : bool := (ip =? v4_prefix) || (ip =? 0).

Example split_host_port :
  map SplitHostPort ["1.2.3.4:80"; "[::1]:80"; "::1"; "[::1]"; "h"; ":1"; "[a]b:1"; "[a]:1]:2"]
    = [Some ("1.2.3.4", "80"); Some ("::1", "80"); None; None; None; Some ("", "1"); None; None].
Proof. reflexivity. Qed.
Example parse_v4 : ParseIP "10.0.255.1" = Some (v4_prefix + of_octets 10 0 255 1). Proof. reflexivity. Qed.
Example parse_leading_zero : ParseIP "10.0.01.1" = None. Proof. reflexivity. Qed.
Example parse_mapped : (ParseIP "::ffff:1.2.3.4" ≫= To4) = Some (of_octets 1 2 3 4).
Proof. vm_compute. reflexivity. Qed.
Example parse_v6 : ip_string <$> ParseIP "2001:DB8:0:0:1:0:0:1" = Some "2001:db8::1:0:0:1".
Proof. vm_compute. reflexivity. Qed.
Example parse_v6_end : ip_string <$> ParseIP "fe80:0::" = Some "fe80::". Proof. vm_compute. reflexivity. Qed.
Example parse_v6_two : ParseIP "1::2::3" = None. Proof. vm_compute. reflexivity. Qed.
Example parse_v6_full : ParseIP "1:2:3:4:5:6:7::8" = None. Proof. vm_compute. reflexivity. Qed.
Example parse_v6_zone : ParseIP "fe80::1%eth0" = None. Proof. vm_compute. reflexivity. Qed.
Example cidr_masks : net_string ∘ snd <$> ParseCIDR "10.1.2.3/8" = Some "10.0.0.0/8".
Proof. vm_compute. reflexivity. Qed.
Example cidr_mapped : net_string ∘ snd <$> ParseCIDR "::ffff:10.1.2.3/104" = Some "10.0.0.0/8".
Proof. vm_compute. reflexivity. Qed.
Example cidr_mapped_wide : net_string ∘ snd <$> ParseCIDR "::ffff:10.1.2.3/50" = Some "::/50".
Proof. vm_compute. reflexivity. Qed.

(** ** Printing and reading IPv4 *)

Lemma digits_free c n : 0 <= n -> is_digit c = false -> free_of c (Itoa n).
Proof.
  intros Hn Hc. unfold Itoa. rewrite (proj2 (Z.ltb_ge n 0)) by done. unfold free_of.
  eapply sforall_impl; [|by apply digits_digits]. intros d Hd.
  destruct (Ascii.eqb_spec d c) as [->|]; [congruence|done].
Qed.

Lemma octet_Itoa v : 0 <= v <= 255 -> octet (Itoa v) = Some v.
Proof.
  intros Hv.
  assert (Hall : forallb (fun i => bool_decide (octet (Itoa (Z.of_nat i)) = Some (Z.of_nat i))) (seq 0 256) = true)
    by (vm_compute; reflexivity).
  rewrite forallb_forall in Hall. specialize (Hall (Z.to_nat v)).
  rewrite Z2Nat.id in Hall by lia. specialize (Hall ltac:(apply in_seq; lia)). by apply bool_decide_eq_true_1 in Hall.
Qed.

Lemma parse_unsigned_Itoa v : 0 <= v -> parse_unsigned (Itoa v) = Some v.
Proof.
  intros Hv. unfold Itoa. rewrite (proj2 (Z.ltb_ge v 0)) by done.
  destruct (digits_nonempty v) as (c & t & E). unfold parse_unsigned. rewrite E, <- E.
  by apply parse_digits_digits.
Qed.

Lemma dtoi_Itoa v : 0 <= v < 16777215 -> dtoi (Itoa v) = Some v.
Proof.
  intros Hv. unfold dtoi. rewrite parse_unsigned_Itoa by lia. cbn.
  by rewrite (proj2 (Z.ltb_lt _ _)) by lia.
Qed.

Definition is_ipv4 (n : Z) : Prop := 0 <= n < 2 ^ 32.

Lemma octets_of n : is_ipv4 n ->
  n = of_octets (n / 2 ^ 24) (n / 2 ^ 16 mod 256) (n / 2 ^ 8 mod 256) (n mod 256) /\
  0 <= n / 2 ^ 24 <= 255 /\ 0 <= n / 2 ^ 16 mod 256 <= 255 /\ 0 <= n / 2 ^ 8 mod 256 <= 255 /\
  0 <= n mod 256 <= 255.
Proof. unfold is_ipv4, of_octets. intros Hn. Z.to_euclidean_division_equations. lia. Qed.

Lemma Split_dots a b c d : free_of "." a -> free_of "." b -> free_of "." c -> free_of "." d ->
  Split (a +:+ "." +:+ b +:+ "." +:+ c +:+ "." +:+ d) "." = [a; b; c; d].
Proof.
  intros Ha Hb Hc Hd.
  change (Split (a +:+ String "." (b +:+ String "." (c +:+ String "." d))) "." = [a; b; c; d]).
  by rewrite (Split_app a), (Split_app b), (Split_app c), (Split_free d).
Qed.

Lemma parseIPv4_string n : is_ipv4 n -> parseIPv4 (ipv4_string n) = Some n.
Proof.
  intros Hn. destruct (octets_of n Hn) as (E & Ha & Hb & Hc & Hd). unfold parseIPv4, ipv4_string.
  assert (Hdot : forall v, 0 <= v <= 255 -> free_of "." (Itoa v)) by (intros; apply digits_free; [lia|done]).
  rewrite Split_dots by auto. rewrite !octet_Itoa by done. cbn [mbind option_bind]. by rewrite <- E.
Qed.

Lemma parse_unsigned_nonneg t w : parse_unsigned t = Some w -> 0 <= w.
Proof.
  assert (Hp : forall t acc w, 0 <= acc -> parse_digits acc t = Some w -> 0 <= w).
  { clear. induction t as [|c t IH]; cbn; intros acc w Ha; [by intros [= <-]|].
    destruct (digit c) as [d|] eqn:Ed; [|done]. cbn. apply IH. unfold digit in Ed.
    destruct (_ && _) eqn:Eb; [|done]. injection Ed as <-. bool_props. lia. }
  destruct t as [|c t]; [done|]. apply Hp. lia.
Qed.

Lemma octet_range s v : octet s = Some v -> 0 <= v <= 255.
Proof.
  unfold octet. destruct (_ && _); [done|]. destruct (parse_unsigned s) as [w|] eqn:E; [|done]. cbn.
  destruct (Z.leb_spec w 255); [|done]. intros [= <-]. split; [by eapply parse_unsigned_nonneg|done].
Qed.

Lemma parseIPv4_range s n : parseIPv4 s = Some n -> is_ipv4 n.
Proof.
  unfold parseIPv4. intros E. repeat case_match; try done.
  destruct (octet s0) as [a|] eqn:Ea; [|done]. destruct (octet s1) as [b|] eqn:Eb; [|done].
  destruct (octet s2) as [c|] eqn:Ec; [|done]. destruct (octet s3) as [d|] eqn:Ed; [|done].
  injection E as <-. apply octet_range in Ea, Eb, Ec, Ed. unfold is_ipv4, of_octets. lia.
Qed.

Lemma address_kind_v4 n rest : is_ipv4 n -> address_kind (ipv4_string n +:+ rest) = Some "."%char.
Proof.
  intros Hn. destruct (octets_of n Hn) as (_ & Ha & _). unfold ipv4_string.
  rewrite !sapp_assoc. generalize (Itoa (n / 2 ^ 16 mod 256) +:+ "." +:+ Itoa (n / 2 ^ 8 mod 256) +:+ "." +:+ Itoa (n mod 256) +:+ rest) as t.
  intros t.
  assert (Hd : sforall is_digit (Itoa (n / 2 ^ 24)) = true).
  { unfold Itoa. rewrite (proj2 (Z.ltb_ge _ 0)) by lia. apply digits_digits. lia. }
  revert Hd. generalize (Itoa (n / 2 ^ 24)) as s. induction s as [|c s IH]; [done|].
  cbn [sforall]. intros [Hc Hs]%andb_true_iff. cbn [append address_kind].
  assert (Hne : Ascii.eqb c "." || Ascii.eqb c ":" || Ascii.eqb c "%" = false).
  { destruct (Ascii.eqb_spec c "."), (Ascii.eqb_spec c ":"), (Ascii.eqb_spec c "%"); subst; done. }
  rewrite Hne. by apply IH.
Qed.

Lemma ParseAddr_string n : is_ipv4 n -> ParseAddr (ipv4_string n) = Some (V4 n).
Proof.
  intros Hn. unfold ParseAddr. pose proof (address_kind_v4 n "" Hn) as E. rewrite sapp_nil_r in E.
  by rewrite E, parseIPv4_string.
Qed.

Lemma To4_mapped n : is_ipv4 n -> To4 (v4_prefix + n) = Some n.
Proof.
  intros Hn. unfold To4, v4_prefix, is_ipv4 in *.
  rewrite Z.add_comm, Z.div_add, Z.mod_add, Z.div_small, Z.mod_small by lia. done.
Qed.

Lemma To4_range ip n : To4 ip = Some n -> is_ipv4 n /\ ip = v4_prefix + n.
Proof.
  unfold To4, is_ipv4, v4_prefix. destruct (Z.eqb_spec (ip / 2 ^ 32) 65535); [|done]. intros [= <-].
  pose proof (Z.div_mod ip (2 ^ 32)). pose proof (Z.mod_pos_bound ip (2 ^ 32)). lia.
Qed.

Lemma ip_string_v4 n : is_ipv4 n -> ip_string (v4_prefix + n) = ipv4_string n.
Proof. intros Hn. unfold ip_string. by rewrite To4_mapped. Qed.

Lemma cut_free a sep b : free_of sep a -> cut (a +:+ String sep b) sep = (a, Some b).
Proof.
  unfold free_of. induction a as [|c a IH]; cbn; [by rewrite Ascii.eqb_refl|].
  intros [Hc Ha]%andb_true_iff. apply negb_true_iff in Hc. by rewrite Hc, (IH Ha).
Qed.

Lemma ipv4_string_free c n : is_ipv4 n -> is_digit c = false -> c <> "."%char -> free_of c (ipv4_string n).
Proof.
  intros Hn Hc Hne. destruct (octets_of n Hn) as (_ & Ha & Hb & Hd & He). unfold ipv4_string.
  assert (Hdot : free_of c ".") by (unfold free_of; cbn [sforall]; by rewrite (proj2 (Ascii.eqb_neq "." c)) by congruence).
  repeat apply free_of_app; try done; apply digits_free; try done; lia.
Qed.

Lemma mask_bits_idemp bits ones n : 0 <= ones <= bits -> mask_bits bits ones (mask_bits bits ones n) = mask_bits bits ones n.
Proof.
  intros Ho. unfold mask_bits. assert (0 < 2 ^ (bits - ones)) by (apply Z.pow_pos_nonneg; lia).
  by rewrite Z.div_mul by lia.
Qed.

Lemma mask_bits_ipv4 ones n : 0 <= ones <= 32 -> is_ipv4 n -> is_ipv4 (mask_bits 32 ones n).
Proof.
  intros Ho Hn. unfold mask_bits, is_ipv4 in *. assert (0 < 2 ^ (32 - ones)) by (apply Z.pow_pos_nonneg; lia).
  pose proof (Z.mul_div_le n (2 ^ (32 - ones)) ltac:(lia)).
  pose proof (Z.div_pos n (2 ^ (32 - ones)) ltac:(lia) ltac:(lia)). nia.
Qed.

(** A network prints to a text that reads back as itself. *)
Lemma ParseCIDR_string n ones : is_ipv4 n -> 0 <= ones <= 32 -> mask_bits 32 ones n = n ->
  ParseCIDR (net_string (Net4 n ones)) = Some (v4_prefix + n, Net4 n ones).
Proof.
  intros Hn Ho Hm. unfold ParseCIDR, net_string. change ("/" +:+ Itoa ones) with (String "/" (Itoa ones)).
  rewrite cut_free by (by apply ipv4_string_free). cbn [mbind option_bind].
  rewrite ParseAddr_string by done. cbn [mbind option_bind zone_of String.eqb negb].
  rewrite dtoi_Itoa by lia. cbn [mbind option_bind].
  rewrite (proj2 (Z.ltb_ge 32 ones)) by lia. cbn [As16]. by rewrite Hm.
Qed.
