(* ===== verification/GoTime.v ===== *)
(** Calendar dates of [time], in UTC, as [Time.Format] prints them. *)

From S2P Require Import Prelude GoStrings GoText.
From stdpp Require Import options.
#[local] Open Scope Z_scope.

(** Days since January 1 of year 1, as year, month and day of the Gregorian
    calendar. Years are counted from March, in eras of 400 of them. *)
Definition date_of (day : Z) : Z * Z * Z :=
  let z := day + 306 in
  let era := z / 146097 in
  let doe := z mod 146097 in
  let yoe := (doe - doe / 1460 + doe / 36524 - doe / 146096) / 365 in
  let doy := doe - (365 * yoe + yoe / 4 - yoe / 100) in
  let mp := (5 * doy + 2) / 153 in
  let month := if mp <? 10 then mp + 3 else mp - 9 in
  (yoe + era * 400 + (if month <=? 2 then 1 else 0), month, doy - (153 * mp + 2) / 5 + 1).

Definition daySeconds : Z := 86400.

(** [%0wd] of a number that is not negative. *)
Definition padded (width : nat) (n : Z) : string :=
  let s := Itoa n in
  String.string_of_list_ascii (repeat "0"%char (width - String.length s)) +:+ s.

(** [t.UTC().Format("20060102T150405Z")]. *)
Definition format_compact (t : time) : string :=
  let seconds := t / Second in
  let '(year, month, day) := date_of (seconds / daySeconds) in
  let s := seconds mod daySeconds in
  padded 4 year +:+ padded 2 month +:+ padded 2 day +:+ "T" +:+ padded 2 (s / 3600)
  +:+ padded 2 (s / 60 mod 60) +:+ padded 2 (s mod 60) +:+ "Z".

Example format_compact_ex :
  map (fun unix => format_compact ((unix + unixEpochSeconds) * Second)) [0; 951827696; 1735689599; -1]
  = ["19700101T000000Z"; "20000229T123456Z"; "20241231T235959Z"; "19691231T235959Z"].
Proof. vm_compute. reflexivity. Qed.
