(* ===== verification/Store.v ===== *)
(** The database as the services see it through gorm: a record of tables, one
    fallible statement at a time, and transactions.

    Every statement consults a schedule of faults, so each theorem ranges over
    every way in which statements, [BEGIN] and [COMMIT] may fail.  A failed
    statement changes no table (one SQL statement is atomic) and its error is
    never [gorm.ErrRecordNotFound], which gorm reports for an empty result
    only; a transaction whose function or commit fails restores the tables. *)

From S2P Require Import Prelude.
From stdpp Require Import options.

Record world (T : Type) := World {
  tables : T;
  faults : list (option string)  (* next statements: the error each meets *)
}.
Arguments World {T} _ _.
Arguments tables {T} _.
Arguments faults {T} _.

Definition M (T A : Type) : Type := world T -> result A * world T.

Definition ret {T A} (a : A) : M T A := fun w => (Ok a, w).
Definition fail {T A} (e : error) : M T A := fun w => (Fail e, w).

Definition bind {T A B} (m : M T A) (k : A -> M T B) : M T B := fun w =>
  match m w with
  | (Ok a, w') => k a w'
  | (Fail e, w') => (Fail e, w')
  end.

(** The error of [m] as a value, as in [if err := m(); err != nil]. *)
Definition attempt {T A} (m : M T A) : M T (result A) := fun w =>
  let '(r, w') := m w in (Ok r, w').

(** [_ = f()]. *)
Definition ignoring {T A} (m : M T A) : M T unit := bind (attempt m) (fun _ => ret tt).

(** [fmt.Errorf("...: %w", err)] around the error of [m]. *)
Definition wrapping {T A} (text : string) (m : M T A) : M T A := fun w =>
  match m w with
  | (Ok a, w') => (Ok a, w')
  | (Fail e, w') => (Fail (Wrap (text +:+ ": ") e ""), w')
  end.

Declare Scope store_scope.
Delimit Scope store_scope with store.
Notation "'let*' x ':=' m 'in' k" := (bind m (fun x => k))
  (at level 10, x name, m at level 100, k at level 200,
   format "'[' 'let*'  x  ':='  m  'in' ']' '//' k") : store_scope.
Notation "'let*' ' p ':=' m 'in' k" := (bind m (fun x => match x with p => k end))
  (at level 10, p pattern, m at level 100, k at level 200) : store_scope.
Notation "m ;;; k" := (bind m (fun _ => k))
  (at level 199, k at level 200, right associativity) : store_scope.
#[global] Open Scope store_scope.

(** One statement. *)
Definition next_fault {T} (w : world T) : option string * world T :=
  match faults w with
  | [] => (None, w)
  | f :: fs => (f, World (tables w) fs)
  end.

Definition statement {T A} (f : T -> result (A * T)) : M T A := fun w =>
  match next_fault w with
  | (Some text, w') => (Fail (ErrorString text), w')
  | (None, w') =>
      match f (tables w') with
      | Ok (a, t) => (Ok a, World t (faults w'))
      | Fail e => (Fail e, w')
      end
  end.

Definition read {T A} (f : T -> A) : M T A := statement (fun t => Ok (f t, t)).

(** [First]: gorm reports [ErrRecordNotFound] when no row matches. *)
Definition first {T A} (f : T -> option A) : M T A :=
  statement (fun t => match f t with
                      | Some a => Ok (a, t)
                      | None => Fail (Sentinel ErrRecordNotFound)
                      end).

(** An insert, update or delete: the rows affected and the new tables, or a
    constraint violation. *)
Definition exec {T A} (f : T -> result (A * T)) : M T A := statement f.

(** [ctx.Err()]: the caller may have given up. *)
Definition ctx_Err {T} : M T unit := statement (fun t => Ok (tt, t)).

Definition transaction {T A} (m : M T A) : M T A := fun w =>
  match next_fault w with
  | (Some text, w1) => (Fail (ErrorString text), w1)
  | (None, w1) =>
      match m w1 with
      | (Fail e, w2) => (Fail e, World (tables w1) (faults w2))
      | (Ok a, w2) =>
          match next_fault w2 with
          | (Some text, w3) => (Fail (ErrorString text), World (tables w1) (faults w3))
          | (None, w3) => (Ok a, w3)
          end
      end
  end.

(** An operation on a part of the tables. *)
Definition zoom {S T A} (get : T -> S) (put : S -> T -> T) (m : M S A) : M T A := fun w =>
  let '(r, v) := m (World (get (tables w)) (faults w)) in
  (r, World (put (tables v) (tables w)) (faults v)).

(** ** Inverting a run that succeeded *)

Section inversion.
Context {T : Type}.
Implicit Types w : world T.

Lemma ret_Ok {A} (a b : A) w w' : ret a w = (Ok b, w') -> a = b /\ w' = w.
Proof. by intros [= -> ->]. Qed.

Lemma bind_Ok {A B} (m : M T A) (k : A -> M T B) w b w' :
  bind m k w = (Ok b, w') -> exists a w1, m w = (Ok a, w1) /\ k a w1 = (Ok b, w').
Proof. unfold bind. destruct (m w) as [[a|e] w1]; [eauto|done]. Qed.

Lemma attempt_Ok {A} (m : M T A) w r w' :
  attempt m w = (Ok r, w') -> m w = (r, w').
Proof. unfold attempt. destruct (m w) as [r' w1]. by intros [= -> ->]. Qed.

Lemma wrapping_Ok {A} text (m : M T A) w a w' :
  wrapping text m w = (Ok a, w') -> m w = (Ok a, w').
Proof. unfold wrapping. by destruct (m w) as [[b|e] w1]. Qed.

Lemma next_fault_tables w f w' : next_fault w = (f, w') -> tables w' = tables w.
Proof. unfold next_fault. destruct (faults w); by intros [= <- <-]. Qed.

Lemma statement_Ok {A} (f : T -> result (A * T)) w a w' :
  statement f w = (Ok a, w') -> f (tables w) = Ok (a, tables w').
Proof.
  unfold statement. destruct (next_fault w) as [[s|] w1] eqn:E; [done|].
  apply next_fault_tables in E. rewrite E.
  destruct (f (tables w)) as [[b t]|e]; [|done]. by intros [= -> <-].
Qed.

Lemma read_Ok {A} (f : T -> A) w a w' :
  read f w = (Ok a, w') -> a = f (tables w) /\ tables w' = tables w.
Proof. intros H%statement_Ok. by injection H as -> ->. Qed.

Lemma first_Ok {A} (f : T -> option A) w a w' :
  first f w = (Ok a, w') -> f (tables w) = Some a /\ tables w' = tables w.
Proof.
  intros H%statement_Ok. destruct (f (tables w)); [|done]. by injection H as -> ->.
Qed.

Lemma statement_Fail {A} (f : T -> result (A * T)) w e w' :
  statement f w = (Fail e, w') -> tables w' = tables w /\
  ((exists s, e = ErrorString s) \/ f (tables w) = Fail e).
Proof.
  unfold statement. destruct (next_fault w) as [[s|] w1] eqn:E;
    apply next_fault_tables in E.
  - intros [= <- <-]. eauto.
  - rewrite E. destruct (f (tables w)) as [[b t]|e']; [done|].
    intros [= <- <-]. eauto.
Qed.

(** A missing row is reported exactly when there is none. *)
Lemma first_not_found {A} (f : T -> option A) w e w' :
  first f w = (Fail e, w') -> is_not_found e = true ->
  f (tables w) = None /\ tables w' = tables w.
Proof.
  intros H Hn. apply statement_Fail in H as [Ht [[s ->]|H]]; [done|].
  by destruct (f (tables w)).
Qed.

Lemma transaction_Ok {A} (m : M T A) w a w' :
  transaction m w = (Ok a, w') ->
  exists w1 w2, tables w1 = tables w /\ m w1 = (Ok a, w2) /\ tables w' = tables w2.
Proof.
  unfold transaction. destruct (next_fault w) as [[s|] w1] eqn:E1; [done|].
  destruct (m w1) as [[b|e] w2] eqn:E2; [|done].
  destruct (next_fault w2) as [[s|] w3] eqn:E3; [done|]. intros [= -> ->].
  apply next_fault_tables in E1, E3. eauto 10.
Qed.

(** A transaction fails and leaves the tables alone, or commits what its
    function wrote. *)
Lemma transaction_cases {A} (m : M T A) w r w' :
  transaction m w = (r, w') ->
  is_ok r = false /\ tables w' = tables w \/
  exists a w1 w2, r = Ok a /\ tables w1 = tables w /\ m w1 = (Ok a, w2) /\ tables w' = tables w2.
Proof.
  unfold transaction. destruct (next_fault w) as [[s|] w1] eqn:E1; apply next_fault_tables in E1.
  { intros [= <- <-]. by left. }
  destruct (m w1) as [[a|e] w2] eqn:E2; [|intros [= <- <-]; by left].
  destruct (next_fault w2) as [[s|] w3] eqn:E3; apply next_fault_tables in E3.
  - intros [= <- <-]. by left.
  - intros [= <- <-]. right. eauto 10.
Qed.

Lemma transaction_outcome {A} (m : M T A) w r w' :
  transaction m w = (r, w') ->
  tables w' = tables w \/
  exists a w1 w2, r = Ok a /\ tables w1 = tables w /\ m w1 = (Ok a, w2) /\ tables w' = tables w2.
Proof. intros [[_ ?]|?]%transaction_cases; auto. Qed.

Lemma transaction_Fail {A} (m : M T A) w e w' :
  transaction m w = (Fail e, w') -> tables w' = tables w.
Proof.
  unfold transaction. destruct (next_fault w) as [[s|] w1] eqn:E1;
    apply next_fault_tables in E1.
  { by intros [= <- <-]. }
  destruct (m w1) as [[b|e'] w2] eqn:E2; [|by intros [= <- <-]].
  destruct (next_fault w2) as [[s|] w3] eqn:E3; [by intros [= <- <-]|done].
Qed.
End inversion.

Lemma zoom_run {S T A} (get : T -> S) (put : S -> T -> T) (m : M S A) w r w' :
  zoom get put m w = (r, w') ->
  exists v, m (World (get (tables w)) (faults w)) = (r, v) /\
    w' = World (put (tables v) (tables w)) (faults v).
Proof. unfold zoom. destruct (m _) as [r' v]. intros [= -> <-]. by exists v. Qed.

(** Invert the successful run of a handler, statement by statement. *)
Ltac run_inv1 :=
  match goal with
  | H : ret _ _ = (Ok _, _) |- _ => apply ret_Ok in H as [? ?]; simplify_eq
  | H : fail _ _ = (Ok _, _) |- _ => discriminate H
  | H : bind _ _ _ = (Ok _, _) |- _ => apply bind_Ok in H as (? & ? & ? & H)
  | H : attempt _ _ = (Ok _, _) |- _ => apply attempt_Ok in H
  | H : wrapping _ _ _ = (Ok _, _) |- _ => apply wrapping_Ok in H
  | H : read _ _ = (Ok _, _) |- _ => apply read_Ok in H as [? ?]
  | H : first _ _ = (Ok _, _) |- _ => apply first_Ok in H as [? ?]
  | H : exec _ _ = (Ok _, _) |- _ => apply statement_Ok in H
  | H : statement _ _ = (Ok _, _) |- _ => apply statement_Ok in H
  | H : transaction _ _ = (Ok _, _) |- _ =>
      apply transaction_Ok in H as (? & ? & ? & H & ?)
  | H : (Ok _, _) = (Ok _, _) |- _ => injection H as ? ?
  | H : (Fail _, _) = (Ok _, _) |- _ => discriminate H
  end.
Ltac run_inv := repeat run_inv1.

(** ** Handlers that only read, and handlers that are atomic *)

Definition readonly {T A} (m : M T A) : Prop :=
  forall w, tables (m w).2 = tables w.

(** On an error nothing was written. *)
Definition atomic {T A} (m : M T A) : Prop :=
  forall w e w', m w = (Fail e, w') -> tables w' = tables w.

Section footprints.
Context {T : Type}.

Lemma readonly_ret {A} (a : A) : readonly (T := T) (ret a).
Proof. done. Qed.

Lemma readonly_fail {A} e : readonly (T := T) (A := A) (fail e).
Proof. done. Qed.

Lemma readonly_bind {A B} (m : M T A) (k : A -> M T B) :
  readonly m -> (forall a, readonly (k a)) -> readonly (bind m k).
Proof.
  intros Hm Hk w. specialize (Hm w). unfold bind.
  destruct (m w) as [[a|e] w1]; cbn in *; [|done]. by rewrite Hk.
Qed.

Lemma readonly_attempt {A} (m : M T A) : readonly m -> readonly (attempt m).
Proof. intros Hm w. specialize (Hm w). unfold attempt. by destruct (m w). Qed.

Lemma readonly_wrapping {A} text (m : M T A) : readonly m -> readonly (wrapping text m).
Proof. intros Hm w. specialize (Hm w). unfold wrapping. by destruct (m w) as [[]]. Qed.

Lemma readonly_read {A} (f : T -> A) : readonly (read f).
Proof.
  intros w. unfold read, statement. destruct (next_fault w) as [[] w1] eqn:E;
    by apply next_fault_tables in E.
Qed.

Lemma readonly_first {A} (f : T -> option A) : readonly (first f).
Proof.
  intros w. unfold first, statement. destruct (next_fault w) as [[] w1] eqn:E;
    apply next_fault_tables in E; [done|]. by destruct (f (tables w1)).
Qed.

Lemma readonly_atomic {A} (m : M T A) : readonly m -> atomic m.
Proof. intros H w e w' E. specialize (H w). by rewrite E in H. Qed.

Lemma atomic_statement {A} (f : T -> result (A * T)) : atomic (statement f).
Proof. intros w e w' E. by apply statement_Fail in E as [? _]. Qed.

Lemma atomic_transaction {A} (m : M T A) : atomic (transaction m).
Proof. intros w e w' E. by apply transaction_Fail in E. Qed.

Lemma atomic_bind {A B} (m : M T A) (k : A -> M T B) :
  readonly m -> (forall a, atomic (k a)) -> atomic (bind m k).
Proof.
  intros Hm Hk w e w' E. specialize (Hm w). unfold bind in E.
  destruct (m w) as [[a|e'] w1]; cbn in Hm.
  - rewrite <- Hm. by eapply Hk.
  - by injection E as <- <-.
Qed.

Lemma atomic_bind_last {A B} (m : M T A) (f : A -> B) :
  atomic m -> atomic (bind m (fun a => ret (f a))).
Proof.
  intros Hm w e w' E. unfold bind in E. destruct (m w) as [[a|e'] w1] eqn:Em; [done|].
  injection E as <- <-. by eapply Hm.
Qed.

Lemma atomic_wrapping {A} text (m : M T A) : atomic m -> atomic (wrapping text m).
Proof.
  intros Hm w e w' E. unfold wrapping in E. destruct (m w) as [[a|e'] w1] eqn:Em; [done|].
  injection E as <- <-. by eapply Hm.
Qed.

Lemma atomic_ret {A} (a : A) : atomic (T := T) (ret a).
Proof. by apply readonly_atomic. Qed.

Lemma atomic_fail {A} e : atomic (T := T) (A := A) (fail e).
Proof. by apply readonly_atomic. Qed.
End footprints.

Create HintDb store.
#[export] Hint Resolve readonly_ret readonly_fail readonly_read readonly_first
  readonly_attempt readonly_wrapping atomic_statement atomic_transaction
  atomic_wrapping atomic_ret atomic_fail : store.
#[export] Hint Resolve readonly_bind : store.
#[export] Hint Unfold exec : store.

(** Close [readonly] and [atomic] goals by the shape of the handler. *)
Ltac footprint :=
  intros;
  repeat (first
    [ progress (eauto 2 with store)
    | apply readonly_bind
    | apply atomic_bind
    | progress intros
    | match goal with
      | |- readonly (match ?x with _ => _ end) => destruct x
      | |- atomic (match ?x with _ => _ end) => destruct x
      end ]).

(** ** Runs without faults, as equations *)

Section runs.
Context {T : Type}.

Lemma bind_assoc {A B C} (m : M T A) (k : A -> M T B) (h : B -> M T C) w :
  bind (bind m k) h w = bind m (fun a => bind (k a) h) w.
Proof. unfold bind. by destruct (m w) as [[a|e] w1]. Qed.

Lemma bind_ret {A B} (a : A) (k : A -> M T B) w : bind (ret a) k w = k a w.
Proof. done. Qed.

Lemma bind_fail {A B} e (k : A -> M T B) w : bind (fail e) k w = (Fail e, w).
Proof. done. Qed.

Lemma bind_first {A B} (f : T -> option A) (k : A -> M T B) t :
  bind (first f) k (World t []) =
  match f t with
  | Some a => k a (World t [])
  | None => (Fail (Sentinel ErrRecordNotFound), World t [])
  end.
Proof. unfold bind, first, statement, next_fault. cbn. by destruct (f t). Qed.

Lemma bind_attempt_first {A B} (f : T -> option A) (k : result A -> M T B) t :
  bind (attempt (first f)) k (World t []) =
  match f t with
  | Some a => k (Ok a) (World t [])
  | None => k (Fail (Sentinel ErrRecordNotFound)) (World t [])
  end.
Proof. unfold bind, attempt, first, statement, next_fault. cbn. by destruct (f t). Qed.

Lemma bind_read {A B} (f : T -> A) (k : A -> M T B) t :
  bind (read f) k (World t []) = k (f t) (World t []).
Proof. done. Qed.

Lemma bind_exec {A B} (f : T -> result (A * T)) (k : A -> M T B) t :
  bind (exec f) k (World t []) =
  match f t with
  | Ok (a, t') => k a (World t' [])
  | Fail e => (Fail e, World t [])
  end.
Proof. unfold bind, exec, statement, next_fault. cbn. by destruct (f t) as [[a t']|e]. Qed.

Lemma run_first {A} (f : T -> option A) t :
  first f (World t []) =
  match f t with
  | Some a => (Ok a, World t [])
  | None => (Fail (Sentinel ErrRecordNotFound), World t [])
  end.
Proof. unfold first, statement, next_fault. cbn. by destruct (f t). Qed.

Lemma run_exec {A} (f : T -> result (A * T)) t :
  exec f (World t []) =
  match f t with
  | Ok (a, t') => (Ok a, World t' [])
  | Fail e => (Fail e, World t [])
  end.
Proof. unfold exec, statement, next_fault. cbn. by destruct (f t) as [[a t']|e]. Qed.

(** Without faults a transaction commits what its function wrote, if the
    function met no fault either. *)
Lemma run_transaction {A} (m : M T A) t r t' :
  m (World t []) = (r, World t' []) ->
  transaction m (World t []) =
  match r with Ok a => (Ok a, World t' []) | Fail e => (Fail e, World t []) end.
Proof. intros Hm. unfold transaction, next_fault. cbn. rewrite Hm. by destruct r. Qed.
End runs.

(** Run the next statement of a handler on a world without faults. *)
Ltac run_clean :=
  repeat first
    [ rewrite bind_assoc | rewrite bind_ret | rewrite bind_fail | rewrite bind_first
    | rewrite bind_attempt_first | rewrite bind_read | rewrite bind_exec
    | rewrite run_first | rewrite run_exec ].

(** The statement lemmas for arbitrary faults. *)
Lemma first_tables {T A} (f : T -> option A) w r w' :
  first f w = (r, w') -> tables w' = tables w.
Proof. intros E. pose proof (readonly_first f w) as Hr. by rewrite E in Hr. Qed.

Lemma read_tables {T A} (f : T -> A) w r w' :
  read f w = (r, w') -> tables w' = tables w.
Proof. intros E. pose proof (readonly_read f w) as Hr. by rewrite E in Hr. Qed.

(** ** Invariants of handlers, whatever they answer *)

Definition preserves {T A} (I : T -> Prop) (m : M T A) : Prop :=
  forall w, I (tables w) -> I (tables (m w).2).

Section preservation.
Context {T : Type} (I : T -> Prop).

Lemma preserves_readonly {A} (m : M T A) : readonly m -> preserves I m.
Proof. intros Hm w Hw. by rewrite Hm. Qed.

Lemma preserves_bind {A B} (m : M T A) (k : A -> M T B) :
  preserves I m -> (forall a, preserves I (k a)) -> preserves I (bind m k).
Proof.
  intros Hm Hk w Hw. specialize (Hm w Hw). unfold bind.
  destruct (m w) as [[a|e] w1]; [by apply Hk|done].
Qed.

Lemma preserves_attempt {A} (m : M T A) : preserves I m -> preserves I (attempt m).
Proof. intros Hm w Hw. specialize (Hm w Hw). unfold attempt. by destruct (m w). Qed.

Lemma preserves_wrapping {A} text (m : M T A) : preserves I m -> preserves I (wrapping text m).
Proof. intros Hm w Hw. specialize (Hm w Hw). unfold wrapping. by destruct (m w) as [[]]. Qed.

Lemma preserves_exec {A} (f : T -> result (A * T)) :
  (forall t a t', f t = Ok (a, t') -> I t -> I t') -> preserves I (exec f).
Proof.
  intros Hf w Hw. destruct (exec f w) as [[a|e] w'] eqn:E; cbn.
  - apply statement_Ok in E. by eapply Hf.
  - by apply statement_Fail in E as [-> _].
Qed.

Lemma preserves_transaction {A} (m : M T A) : preserves I m -> preserves I (transaction m).
Proof.
  intros Hm w Hw. destruct (transaction m w) as [r w'] eqn:E. cbn.
  apply transaction_outcome in E as [->|(a & w1 & w2 & _ & E1 & E2 & ->)]; [done|].
  specialize (Hm w1). rewrite E1, E2 in Hm. auto.
Qed.

Lemma preserves_zoom {S A} (J : S -> Prop) (get : T -> S) (put : S -> T -> T) (m : M S A) :
  (forall t, I t -> J (get t)) -> (forall x t, I t -> J x -> I (put x t)) ->
  preserves J m -> preserves I (zoom get put m).
Proof.
  intros Hget Hput Hm w Hw. unfold zoom.
  pose proof (Hm (World (get (tables w)) (faults w)) (Hget _ Hw)) as Hv.
  destruct (m _) as [r v]. by apply Hput.
Qed.

Lemma preserves_ret {A} (a : A) : preserves I (ret a).
Proof. by intros w. Qed.

Lemma preserves_fail {A} e : preserves I (fail (A := A) e).
Proof. by intros w. Qed.
End preservation.

#[export] Hint Resolve preserves_ret preserves_fail preserves_attempt preserves_wrapping
  preserves_transaction : store.

(** Close [preserves] goals by the shape of the handler; statements that write
    remain. *)
Ltac preserving :=
  intros;
  repeat (first
    [ progress (eauto 2 with store)
    | match goal with
      | |- preserves _ (read _) => apply preserves_readonly, readonly_read
      | |- preserves _ (first _) => apply preserves_readonly, readonly_first
      | |- preserves _ (attempt _) => apply preserves_attempt
      | |- preserves _ (wrapping _ _) => apply preserves_wrapping
      | |- preserves _ (transaction _) => apply preserves_transaction
      | |- preserves _ (bind _ _) => apply preserves_bind
      | |- preserves _ (match ?x with _ => _ end) => destruct x
      end
    | progress intros ]).

(** ** Save

    [tx.Save(&row)] on a table: the rows of the same key are replaced, or the
    row is inserted when there is none. *)
Section upsert.
Context {A K : Type} (eqb : K -> K -> bool) (key : A -> K).
Hypothesis eqb_spec : forall a b, reflect (a = b) (eqb a b).

Definition upsert (x : A) (l : list A) : list A :=
  if existsb (fun q => eqb (key q) (key x)) l
  then map (fun q => if eqb (key q) (key x) then x else q) l else l ++ [x].

(** A lookup finds what was saved under its key, and else what was there. *)
Lemma find_upsert x l k :
  List.find (fun q => eqb (key q) k) (upsert x l) =
    if eqb (key x) k then Some x else List.find (fun q => eqb (key q) k) l.
Proof using eqb_spec.
  unfold upsert. destruct (existsb _ l) eqn:Ex.
  - induction l as [|q l IH]; [done|]. cbn in Ex |- *.
    destruct (eqb_spec (key q) (key x)) as [E|E].
    + rewrite E. destruct (eqb (key x) k) eqn:Ei; [done|].
      destruct (existsb (fun q => eqb (key q) (key x)) l) eqn:El; [by apply IH|].
      clear -El Ei. induction l as [|q l IH]; [done|]. cbn in El |- *.
      apply orb_false_iff in El as [-> El]. by destruct (eqb (key q) k); [|apply IH].
    + cbn in Ex. destruct (eqb_spec (key q) k) as [Ei|]; [|by apply IH].
      destruct (eqb_spec (key x) k); [congruence|done].
  - apply existsb_false_Forall in Ex.
    induction Ex as [|q l Hq _ IH]; cbn; [by destruct (eqb _ _)|].
    destruct (eqb_spec (key q) k) as [<-|]; [|done].
    destruct (eqb_spec (key x) (key q)) as [E|]; [|done].
    rewrite E in Hq. by destruct (eqb_spec (key q) (key q)).
Qed.
End upsert.

(** ** Errors as values *)

Lemma attempt_run {T A} (m : M T A) w r w' : attempt m w = (r, w') ->
  exists done, m w = (done, w') /\ r = Ok done.
Proof. unfold attempt. destruct (m w) as [done w1]. intros [= <- <-]. by exists done. Qed.

Lemma ignoring_run {T A} (m : M T A) w r w' : ignoring m w = (r, w') -> r = Ok tt /\ exists done, m w = (done, w').
Proof.
  unfold ignoring, bind. destruct (attempt m w) as [r1 w1] eqn:E. apply attempt_run in E as (done & E & ->).
  intros [= <- <-]. split; [done|]. by exists done.
Qed.
