(* ===== verification/GoPath.v ===== *)
(** [path/filepath] on Unix: lexical paths as strings, through the list of
    their elements. [Clean] drops empty and [.] elements and takes back an
    element for each [..]; the other functions are built on it as in Go. *)

From S2P Require Import Prelude GoStrings GoText.
From stdpp Require Import options.
#[local] Open Scope Z_scope.

Definition slash : ascii := "/".

(** ** Clean *)

(** One more element; the stack holds the elements so far, last first. *)
Definition push_part (rooted : bool) (stack : list string) (part : string) : list string :=
  if String.eqb part "" || String.eqb part "." then stack
  else if String.eqb part ".." then
    match stack with
    | top :: rest => if String.eqb top ".." then part :: stack else rest
    | [] => if rooted then [] else [part]
    end
  else part :: stack.

Definition clean_stack (rooted : bool) (l stack : list string) : list string :=
  fold_left (push_part rooted) l stack.

Definition IsAbs (path : string) : bool := HasPrefix path "/".

(** The elements of the cleaned path. *)
Definition parts (path : string) : list string :=
  rev (clean_stack (IsAbs path) (Split path slash) []).

Definition path_of (rooted : bool) (l : list string) : string :=
  let joined := Join l "/" in
  if rooted then "/" +:+ joined else if String.eqb joined "" then "." else joined.

Definition Clean (path : string) : string := path_of (IsAbs path) (parts path).

(** ** Joining and taking apart *)

Fixpoint PathJoin (elems : list string) : string :=
  match elems with
  | [] => ""
  | e :: rest => if String.eqb e "" then PathJoin rest else Clean (Join (e :: rest) "/")
  end.

(** Up to the last separator, and after it. *)
Fixpoint split_last (s : string) : string * string :=
  match s with
  | EmptyString => ("", "")
  | String c s =>
      match split_last s with
      | ("", base) => if Ascii.eqb c slash then (str1 c, base) else ("", String c base)
      | (dir, base) => (String c dir, base)
      end
  end.

Definition Dir (path : string) : string := Clean (split_last path).1.

Fixpoint trim_slashes (s : string) : string :=
  match s with
  | EmptyString => ""
  | String c s =>
      match trim_slashes s with
      | "" => if Ascii.eqb c slash then "" else str1 c
      | rest => String c rest
      end
  end.

Definition Base (path : string) : string :=
  if String.eqb path "" then "."
  else match trim_slashes path with "" => "/" | path => (split_last path).2 end.

(** The elements of the two paths from the first that differs. *)
Fixpoint diverge (base targ : list string) : list string * list string :=
  match base, targ with
  | b :: base', t :: targ' => if String.eqb b t then diverge base' targ' else (base, targ)
  | _, _ => (base, targ)
  end.

(** [None]: the target cannot be made relative. *)
Definition Rel (basepath targpath : string) : option string :=
  let base := Clean basepath in
  let targ := Clean targpath in
  if String.eqb targ base then Some "."
  else if negb (Bool.eqb (IsAbs base) (IsAbs targ)) then None
  else
    let elements path := if IsAbs path || negb (String.eqb path ".") then parts path else ["."] in
    match diverge (parts base) (elements targ) with
    | (".." :: _, _) => None
    | (up, down) => Some (Join (map (fun _ => "..") up ++ down) "/")
    end.

(** [filepath.Ext]: from the last dot of the last element. *)
Fixpoint ext_of (s : string) : string :=
  match s with
  | EmptyString => ""
  | String c rest =>
      match ext_of rest with
      | "" => if Ascii.eqb c "." && negb (Contains rest ".") then String c rest else ""
      | e => e
      end
  end.
Definition Ext (path : string) : string := ext_of (split_last path).2.

Example Clean_ex : map Clean [""; "/"; "//a/./b//../c/"; "a/../.."; "../../a/b/../c"; "/../a"; "./"]
  = ["."; "/"; "/a/c"; ".."; "../../a/c"; "/a"; "."].
Proof. vm_compute. reflexivity. Qed.

Example Join_ex : map PathJoin [["a"; "../b"]; [""; "/x"; ""; "y"]; [""; ""]; ["/base"; "../etc"]]
  = ["b"; "/x/y"; ""; "/etc"].
Proof. vm_compute. reflexivity. Qed.

Example Dir_ex : map Dir ["/a/b"; "/a/b/"; "a"; "/a"; ""; "a/../b/c"] = ["/a"; "/a/b"; "."; "/"; "."; "b"].
Proof. vm_compute. reflexivity. Qed.

Example Base_ex : map Base ["/a/b"; "/a/b//"; "a"; "/"; ""] = ["b"; "b"; "a"; "/"; "."].
Proof. vm_compute. reflexivity. Qed.

Example Rel_ex : map (fun '(b, t) => Rel b t)
    [("/a/b", "/a/b/c"); ("/a/b", "/a/c"); ("/a", "/a"); ("/a", "b"); ("../x", "y"); ("/a/b/c", "/")]
  = [Some "c"; Some "../c"; Some "."; None; None; Some "../../.."].
Proof. vm_compute. reflexivity. Qed.

Example Ext_ex : map Ext ["/a.b/c"; "x.tar.gz"; "a."; ".profile"] = [""; ".gz"; "."; ".profile"].
Proof. vm_compute. reflexivity. Qed.

(** ** Elements *)

(** An element that [Clean] keeps. *)
Definition plain_part (p : string) : Prop := p <> "" /\ p <> "." /\ p <> ".." /\ free_of slash p.

Lemma push_plain r stack p : plain_part p -> push_part r stack p = p :: stack.
Proof.
  intros (H1 & H2 & H3 & _). unfold push_part.
  rewrite (proj2 (String.eqb_neq p "")), (proj2 (String.eqb_neq p ".")), (proj2 (String.eqb_neq p "..")) by done.
  done.
Qed.

Lemma clean_plain r l stack : Forall plain_part l -> clean_stack r l stack = rev l ++ stack.
Proof.
  intros Hl. revert stack. induction Hl as [|p l Hp Hl IH]; intros stack; [done|].
  change (clean_stack r (p :: l) stack) with (clean_stack r l (push_part r stack p)).
  rewrite push_plain, IH by done. cbn [rev]. by rewrite <- app_assoc.
Qed.

Lemma clean_stack_app r l k stack : clean_stack r (l ++ k) stack = clean_stack r k (clean_stack r l stack).
Proof. apply fold_left_app. Qed.

(** From the root, the stack holds plain elements. *)
Lemma clean_rooted_plain l stack :
  Forall (free_of slash) l -> Forall plain_part stack -> Forall plain_part (clean_stack true l stack).
Proof.
  intros Hl. revert stack. induction Hl as [|p l Hp Hl IH]; intros stack Hs; [done|].
  apply IH. unfold push_part. destruct (_ || _) eqn:E; [done|].
  apply orb_false_iff in E as [E1%String.eqb_neq E2%String.eqb_neq].
  destruct (String.eqb_spec p "..") as [->|Hne]; [|by constructor].
  destruct Hs as [|top rest (H1 & H2 & H3 & H4) Hrest]; [constructor|].
  by rewrite (proj2 (String.eqb_neq top "..")).
Qed.

Lemma parts_plain path : IsAbs path = true -> Forall plain_part (parts path).
Proof.
  intros Ha. unfold parts. rewrite Ha. apply Forall_rev, clean_rooted_plain; [apply Split_pieces|constructor].
Qed.

Lemma IsAbs_slash s : IsAbs ("/" +:+ s) = true.
Proof. by destruct s. Qed.

Lemma IsAbs_cons s : IsAbs s = true <-> exists t, s = "/" +:+ t.
Proof.
  split; [|by intros [t ->]; apply IsAbs_slash]. unfold IsAbs, HasPrefix. destruct s as [|c s]; [done|].
  cbn [String.prefix]. destruct (ascii_dec "/" c) as [E|]; [|done]. intros _. exists s. rewrite <- E. reflexivity.
Qed.

Lemma Split_rooted s : Split ("/" +:+ s) slash = "" :: Split s slash.
Proof. done. Qed.

Lemma parts_rooted s : parts ("/" +:+ s) = rev (clean_stack true (Split s slash) []).
Proof. unfold parts. by rewrite IsAbs_slash, Split_rooted. Qed.

Lemma plain_parts_free l : Forall plain_part l -> Forall (free_of slash) l.
Proof. intros Hl. eapply Forall_impl; [exact Hl|]. by intros p (_ & _ & _ & Hp). Qed.

Lemma parts_path_of l : Forall plain_part l -> parts (path_of true l) = l.
Proof.
  intros Hl. unfold path_of. rewrite parts_rooted. destruct l as [|p l]; [done|].
  change "/" with (str1 slash). rewrite Split_Join by (try apply plain_parts_free; done).
  by rewrite clean_plain, app_nil_r, rev_involutive by done.
Qed.

Lemma IsAbs_path_of l : IsAbs (path_of true l) = true.
Proof. apply IsAbs_slash. Qed.

Lemma Clean_abs path : IsAbs path = true -> Clean path = path_of true (parts path).
Proof. intros Ha. unfold Clean. by rewrite Ha. Qed.

Lemma IsAbs_Clean path : IsAbs path = true -> IsAbs (Clean path) = true.
Proof. intros Ha. rewrite Clean_abs by done. apply IsAbs_path_of. Qed.

Lemma parts_Clean path : IsAbs path = true -> parts (Clean path) = parts path.
Proof. intros Ha. rewrite Clean_abs by done. by apply parts_path_of, parts_plain. Qed.

Lemma Clean_path_of l : Forall plain_part l -> Clean (path_of true l) = path_of true l.
Proof. intros Hl. rewrite Clean_abs by apply IsAbs_path_of. by rewrite parts_path_of. Qed.

Lemma Clean_idemp path : IsAbs path = true -> Clean (Clean path) = Clean path.
Proof. intros Ha. rewrite (Clean_abs path Ha). by apply Clean_path_of, parts_plain. Qed.

Lemma Split_slash_app a b : Split (a +:+ "/" +:+ b) slash = Split a slash ++ Split b slash.
Proof.
  induction a as [|c a IH]; [done|]. change (String c a +:+ "/" +:+ b) with (String c (a +:+ "/" +:+ b)).
  cbn [Split]. rewrite IH. destruct (Ascii.eqb c slash); [done|].
  destruct (Split_cons a slash) as (h & t & ->). done.
Qed.

(** A relative path of plain elements lands below the directory. *)
Lemma parts_below dir rel : IsAbs dir = true -> Forall plain_part (Split rel slash) ->
  parts (dir +:+ "/" +:+ rel) = parts dir ++ Split rel slash.
Proof.
  intros [d ->]%IsAbs_cons Hrel. rewrite sapp_assoc, !parts_rooted, Split_slash_app, clean_stack_app.
  rewrite (clean_plain _ (Split rel slash)) by done. by rewrite rev_app_distr, rev_involutive.
Qed.

Lemma PathJoin2 dir rel : IsAbs dir = true -> PathJoin [dir; rel] = Clean (dir +:+ "/" +:+ rel).
Proof. intros [d ->]%IsAbs_cons. done. Qed.

Lemma parts_PathJoin dir rel : IsAbs dir = true -> Forall plain_part (Split rel slash) ->
  parts (PathJoin [dir; rel]) = parts dir ++ Split rel slash.
Proof.
  intros Ha Hrel. rewrite PathJoin2, parts_Clean, parts_below; try done.
  apply IsAbs_cons in Ha as [d ->]. rewrite sapp_assoc. apply IsAbs_slash.
Qed.

Lemma IsAbs_PathJoin dir rel : IsAbs dir = true -> IsAbs (PathJoin [dir; rel]) = true.
Proof.
  intros Ha. rewrite PathJoin2 by done. apply IsAbs_Clean. apply IsAbs_cons in Ha as [d ->].
  rewrite sapp_assoc. apply IsAbs_slash.
Qed.

Lemma Join_snoc l p : l <> [] -> Join (l ++ [p]) "/" = Join l "/" +:+ "/" +:+ p.
Proof.
  induction l as [|q l IH]; [done|]. intros _. destruct l as [|q' l]; [done|].
  change (q +:+ "/" +:+ Join ((q' :: l) ++ [p]) "/" = (q +:+ "/" +:+ Join (q' :: l) "/") +:+ "/" +:+ p).
  rewrite IH by done. by rewrite !sapp_assoc.
Qed.

(** A suffix goes to the last element. *)
Lemma path_of_suffix l p s : path_of true (l ++ [p]) +:+ s = path_of true (l ++ [p +:+ s]).
Proof.
  unfold path_of. destruct l as [|q l]; [by cbn; rewrite ?sapp_assoc|].
  rewrite !(Join_snoc (q :: l)) by done. by rewrite !sapp_assoc.
Qed.

Lemma plain_suffix p s : plain_part p -> free_of slash s -> 2 <= len s -> plain_part (p +:+ s).
Proof.
  intros (H1 & H2 & H3 & H4) Hs Hl.
  assert (Hlen : 2 < len (p +:+ s)).
  { rewrite len_app. assert (0 < len p); [|lia]. destruct p; [done|]. unfold len. cbn. lia. }
  split; [|split; [|split]]; [intros E|intros E|intros E|by apply free_of_app]; rewrite E in Hlen;
    vm_compute in Hlen; done.
Qed.

Lemma long_plain_name p : free_of slash p -> 3 <= len p -> plain_part p.
Proof. intros Hf Hl. split_and!; [..|done]; intros ->; by unfold len in Hl. Qed.

(** ** Paths that are apart *)

Fixpoint starts_with (l k : list string) : bool :=
  match k, l with
  | [], _ => true
  | p :: k, q :: l => String.eqb p q && starts_with l k
  | _, [] => false
  end.

(** Neither is the other or below it. *)
Definition apart (l k : list string) : bool := negb (starts_with l k) && negb (starts_with k l).

Lemma apart_sym l k : apart l k = apart k l.
Proof. unfold apart. apply andb_comm. Qed.

Lemma starts_with_app l k : starts_with (l ++ k) l = true.
Proof. induction l as [|p l IH]; [by destruct k|]. cbn. by rewrite String.eqb_refl. Qed.

Lemma starts_with_refl l : starts_with l l = true.
Proof. rewrite <- (app_nil_r l) at 1. apply starts_with_app. Qed.

(** ** The directory of a clean path *)

Lemma split_last_free s : free_of slash s -> split_last s = ("", s).
Proof.
  induction s as [|c s IH]; [done|]. unfold free_of in *. cbn [sforall]. intros [Hc%negb_true_iff Hs]%andb_true_iff.
  cbn [split_last].
  rewrite IH by done. by rewrite Hc.
Qed.

Lemma split_last_app a b : free_of slash b -> split_last (a +:+ "/" +:+ b) = (a +:+ "/", b).
Proof.
  intros Hb. induction a as [|c a IH].
  - change ("" +:+ "/" +:+ b) with (String slash b). cbn [split_last]. by rewrite split_last_free.
  - change (String c a +:+ "/" +:+ b) with (String c (a +:+ "/" +:+ b)). cbn [split_last]. rewrite IH.
    by destruct a.
Qed.

Lemma parts_Dir_join l q : Forall plain_part l -> plain_part q ->
  parts (Dir (path_of true (l ++ [q]))) = l /\ Dir (path_of true (l ++ [q])) = path_of true l.
Proof.
  intros Hl Hq. assert (E : path_of true (l ++ [q]) = (match l with [] => "" | _ => path_of true l end) +:+ "/" +:+ q).
  { unfold path_of. destruct l as [|p l]; [done|]. by rewrite (Join_snoc (p :: l)), !sapp_assoc by done. }
  unfold Dir. rewrite E, split_last_app by apply Hq. cbn [fst].
  assert (Hp : parts ((match l with [] => "" | _ => path_of true l end) +:+ "/") = l).
  { destruct l as [|p l]; [done|]. unfold path_of. rewrite sapp_assoc, parts_rooted.
    replace (Join (p :: l) "/" +:+ "/") with (Join (p :: l) "/" +:+ "/" +:+ "") by done.
    rewrite Split_slash_app, clean_stack_app. change "/" with (str1 slash).
    rewrite Split_Join by (try apply plain_parts_free; done). rewrite (clean_plain _ (p :: l)), app_nil_r by done.
    exact (rev_involutive (p :: l)). }
  assert (Ha : IsAbs ((match l with [] => "" | _ => path_of true l end) +:+ "/") = true).
  { destruct l as [|p l]; [done|]. unfold path_of. rewrite sapp_assoc. apply IsAbs_slash. }
  rewrite parts_Clean, Hp, Clean_abs, Hp by done. done.
Qed.

Lemma parts_Dir path : IsAbs path = true -> Clean path = path -> parts path <> [] ->
  parts (Dir path) = removelast (parts path).
Proof.
  intros Ha Hc Hn. assert (Hp := parts_plain path Ha).
  destruct (exists_last Hn) as (l & q & E). rewrite E in *. rewrite removelast_last.
  apply Forall_app in Hp as [Hl Hq]. rewrite Forall_singleton in Hq.
  assert (E' : path = path_of true (l ++ [q])) by (by rewrite <- E, <- Clean_abs, Hc).
  clear E Hc. rewrite E'. by apply parts_Dir_join.
Qed.

Lemma Clean_PathJoin dir rel : IsAbs dir = true -> Clean (PathJoin [dir; rel]) = PathJoin [dir; rel].
Proof.
  intros Ha. rewrite PathJoin2 by done. apply Clean_idemp. apply IsAbs_cons in Ha as [d ->].
  rewrite sapp_assoc. apply IsAbs_slash.
Qed.

(** ** The last element *)

Lemma trim_slashes_app a b : trim_slashes b <> "" -> trim_slashes (a +:+ b) = a +:+ trim_slashes b.
Proof.
  intros Hb. induction a as [|c a IH]; [done|]. change (String c a +:+ b) with (String c (a +:+ b)). cbn [trim_slashes].
  rewrite IH. destruct a as [|d a]; [by destruct (trim_slashes b)|done].
Qed.

Lemma trim_slashes_free s : free_of slash s -> trim_slashes s = s.
Proof.
  induction s as [|c s IH]; [done|]. unfold free_of in *. cbn [sforall]. intros [Hc%negb_true_iff Hs]%andb_true_iff.
  cbn [trim_slashes]. rewrite IH by done. rewrite Hc. by destruct s.
Qed.

Lemma path_of_snoc l q : path_of true (l ++ [q]) = (match l with [] => "" | _ => path_of true l end) +:+ "/" +:+ q.
Proof. unfold path_of. destruct l as [|p l]; [done|]. by rewrite (Join_snoc (p :: l)), !sapp_assoc by done. Qed.

Lemma Base_path_of l q : plain_part q -> Base (path_of true (l ++ [q])) = q.
Proof.
  intros (Hq & _ & _ & Hf). unfold Base. rewrite path_of_snoc.
  set (a := match l with [] => "" | _ => path_of true l end).
  rewrite (proj2 (String.eqb_neq _ _)) by (by destruct a).
  replace (a +:+ "/" +:+ q) with ((a +:+ "/") +:+ q) by apply sapp_assoc.
  rewrite trim_slashes_app, trim_slashes_free by (rewrite ?trim_slashes_free; done). rewrite sapp_assoc.
  assert (Hs := split_last_app a q Hf). destruct (a +:+ "/" +:+ q) as [|c s] eqn:E; [by destruct a|]. by rewrite Hs.
Qed.
