(* ===== verification/GoFiles.v ===== *)
(** The file system as the sources use it through [os]: a tree of directories,
    regular files and symbolic links, changed by one system call at a time.

    Every call consults the schedule of faults of [Store], so a theorem over all
    schedules covers every failure; and a machine that stops is a schedule in
    which every call from some point on fails without effect. A call that
    returned is taken to be durable. A path is walked through real directories
    only: a link in the middle of a path is not followed. *)

From stdpp Require Import gmap strings sorting options.
From S2P Require Import Prelude GoStrings GoText GoPath Store.
#[local] Open Scope Z_scope.

Inductive node :=
  | FileNode (mode : Z) (content : string)
  | DirNode (mode : Z) (entries : gmap string node)
  | LinkNode (target : string).

Definition ErrNotExist : string := "file does not exist".
Definition ErrExist : string := "file already exists".

Definition is_not_exist (e : error) : bool := errors_Is e ErrNotExist.

(** ** The tree *)

Fixpoint node_at (l : list string) (n : node) : option node :=
  match l with
  | [] => Some n
  | name :: l =>
      match n with
      | DirNode _ entries => match entries !! name with Some n => node_at l n | None => None end
      | _ => None
      end
  end.

(** Change the entry at a path, when its directory is there. *)
Fixpoint alter_at (l : list string) (f : option node -> option node) (n : node) : option node :=
  match l with
  | [] => None
  | [name] =>
      match n with
      | DirNode mode entries => Some (DirNode mode (partial_alter f name entries))
      | _ => None
      end
  | name :: l =>
      match n with
      | DirNode mode entries =>
          match entries !! name with
          | Some child =>
              match alter_at l f child with
              | Some child => Some (DirNode mode (<[name := child]> entries))
              | None => None
              end
          | None => None
          end
      | _ => None
      end
  end.

Definition put_at (path : string) (v : option node) (disk : node) : option node :=
  alter_at (parts path) (fun _ => v) disk.

Definition at_path (path : string) (disk : node) : option node := node_at (parts path) disk.

Definition IsRegular (n : node) : bool := match n with FileNode _ _ => true | _ => false end.
Definition IsDir (n : node) : bool := match n with DirNode _ _ => true | _ => false end.

Definition Perm (n : node) : Z :=
  match n with FileNode mode _ => mode | DirNode mode _ => mode | LinkNode _ => 511 end.

Definition Size (n : node) : Z := match n with FileNode _ content => len content | _ => 0 end.

Definition no_entry {A} : result A := Fail (Sentinel ErrNotExist).
Definition bad_call {A} (text : string) : result A := Fail (ErrorString text).

(** ** System calls *)

(** [os.Lstat], and [os.Stat] of a path that is no link. *)
Definition Lstat (path : string) : M node node :=
  statement (fun disk => match at_path path disk with Some n => Ok (n, disk) | None => no_entry end).

Definition ReadFile (path : string) : M node string :=
  statement (fun disk =>
    match at_path path disk with
    | Some (FileNode _ content) => Ok (content, disk)
    | Some _ => bad_call "not a regular file"
    | None => no_entry
    end).

(** A system gives no other names to the entries of a directory. *)
Definition proper_name (name : string) : bool :=
  negb (String.eqb name "") && negb (String.eqb name ".") && negb (String.eqb name "..") && negb (Contains name "/").

(** The names in a directory, in order. *)
Definition entry_names (entries : gmap string node) : list string :=
  List.filter proper_name (sort_strings (map fst (map_to_list entries))).

Definition ReadDir (path : string) : M node (list string) :=
  statement (fun disk =>
    match at_path path disk with
    | Some (DirNode _ entries) =>
        Ok (entry_names entries, disk)
    | Some _ => bad_call "not a directory"
    | None => no_entry
    end).

(** Write the entry at a path when [f] allows what is there. *)
Definition change (path : string) (f : option node -> result (option node)) : M node unit :=
  statement (fun disk =>
    match f (at_path path disk) with
    | Fail err => Fail err
    | Ok v =>
        match put_at path v disk with
        | Some disk => Ok (tt, disk)
        | None => no_entry
        end
    end).

(** [os.OpenFile(path, O_WRONLY|O_CREATE|O_EXCL, mode)]. *)
Definition CreateExcl (path : string) (mode : Z) : M node unit :=
  change path (fun old => match old with
    | Some _ => Fail (Sentinel ErrExist)
    | None => Ok (Some (FileNode mode ""))
    end).

(** A write at the end of an open file. *)
Definition Append (path : string) (content : string) : M node unit :=
  change path (fun old => match old with
    | Some (FileNode mode before) => Ok (Some (FileNode mode (before +:+ content)))
    | _ => bad_call "bad file descriptor"
    end).

Definition Chmod (path : string) (mode : Z) : M node unit :=
  change path (fun old => match old with
    | Some (FileNode _ content) => Ok (Some (FileNode mode content))
    | Some (DirNode _ entries) => Ok (Some (DirNode mode entries))
    | Some (LinkNode _) => bad_call "chmod of a link"
    | None => no_entry
    end).

Definition Mkdir (path : string) (mode : Z) : M node unit :=
  change path (fun old => match old with
    | Some _ => Fail (Sentinel ErrExist)
    | None => Ok (Some (DirNode mode ∅))
    end).

(** [os.Remove]: a directory must be empty. *)
Definition Remove (path : string) : M node unit :=
  change path (fun old => match old with
    | None => no_entry
    | Some (DirNode _ entries) => if bool_decide (entries = ∅) then Ok None else bad_call "directory not empty"
    | Some _ => Ok None
    end).

(** [os.RemoveAll]: nothing there is no error. *)
Definition RemoveAll (path : string) : M node unit :=
  statement (fun disk =>
    match at_path path disk with
    | None => Ok (tt, disk)
    | Some _ => match put_at path None disk with Some disk => Ok (tt, disk) | None => bad_call "busy" end
    end).

(** What a rename may replace. *)
Definition replaces (n : node) (old : option node) : bool :=
  match n, old with
  | _, None => true
  | DirNode _ _, Some (DirNode _ entries) => bool_decide (entries = ∅)
  | DirNode _ _, Some _ => false
  | _, Some (DirNode _ _) => false
  | _, Some _ => true
  end.

(** [os.Rename]: one step; a directory does not go below itself. *)
Definition Rename (old new : string) : M node unit :=
  statement (fun disk =>
    match at_path old disk with
    | None => no_entry
    | Some n =>
        if bool_decide (parts old = parts new) then Ok (tt, disk)
        else if starts_with (parts new) (parts old) || negb (replaces n (at_path new disk)) then bad_call "invalid rename"
        else
          match put_at new (Some n) disk with
          | None => no_entry
          | Some disk => match put_at old None disk with Some disk => Ok (tt, disk) | None => no_entry end
          end
    end).

(** [os.MkdirAll]. *)
Fixpoint mkdirs (done todo : list string) (mode : Z) (disk : node) : option node :=
  match todo with
  | [] => Some disk
  | name :: todo =>
      let here := done ++ [name] in
      match node_at here disk with
      | Some (DirNode _ _) => mkdirs here todo mode disk
      | Some _ => None
      | None =>
          match alter_at here (fun _ => Some (DirNode mode ∅)) disk with
          | Some disk => mkdirs here todo mode disk
          | None => None
          end
      end
  end.

Definition MkdirAll (path : string) (mode : Z) : M node unit :=
  statement (fun disk =>
    match mkdirs [] (parts path) mode disk with
    | Some disk => Ok (tt, disk)
    | None => bad_call "not a directory"
    end).

(** [fsync] of a file or a directory: no change, but it may fail. *)
Definition Sync (path : string) : M node unit := statement (fun disk => Ok (tt, disk)).


(** ** Lookups after a change *)

Lemma node_at_alter l f n n' : l <> [] -> alter_at l f n = Some n' -> node_at l n' = f (node_at l n).
Proof.
  revert n n'. induction l as [|name l IH]; intros n n' Hl E; [done|].
  cbn [alter_at] in E. destruct l as [|name' l].
  - destruct n as [|mode entries|]; try discriminate. injection E as <-. cbn.
    rewrite lookup_partial_alter_eq. by destruct (entries !! name), (f _).
  - destruct n as [|mode entries|]; try discriminate.
    destruct (entries !! name) as [child|] eqn:Ec; [|discriminate].
    destruct (alter_at (name' :: l) f child) as [child'|] eqn:Ea; [|discriminate]. injection E as <-.
    change (match <[name := child']> entries !! name with Some n => node_at (name' :: l) n | None => None end
            = f (match entries !! name with Some n => node_at (name' :: l) n | None => None end)).
    rewrite lookup_insert_eq, Ec. by apply (IH child).
Qed.

Lemma node_at_other l k f n n' : apart k l = true -> alter_at l f n = Some n' -> node_at k n' = node_at k n.
Proof.
  revert k n n'. induction l as [|name l IH]; intros k n n' Hk E; [done|].
  apply andb_true_iff in Hk as [Hkl Hlk]. apply negb_true_iff in Hkl, Hlk.
  destruct k as [|q k]; [done|]. cbn [starts_with] in Hkl, Hlk. cbn [alter_at] in E.
  destruct l as [|name' l].
  - destruct n as [|mode entries|]; try discriminate. injection E as <-. cbn [node_at].
    rewrite lookup_partial_alter_ne; [done|]. intros ->. rewrite String.eqb_refl in Hkl. by destruct k.
  - destruct n as [|mode entries|]; try discriminate.
    destruct (entries !! name) as [child|] eqn:Ec; [|discriminate].
    destruct (alter_at (name' :: l) f child) as [child'|] eqn:Ea; [|discriminate]. injection E as <-.
    cbn [node_at]. destruct (String.eqb_spec name q) as [->|Hne].
    + rewrite lookup_insert_eq, Ec. rewrite String.eqb_refl in Hlk. cbn [andb] in Hkl, Hlk.
      apply (IH k child); [|done]. unfold apart. by rewrite Hkl, Hlk.
    + by rewrite lookup_insert_ne.
Qed.

(** The directory of an entry stays when an entry is changed. *)
Lemma alter_at_put l f n n' g : l <> [] -> alter_at l f n = Some n' -> is_Some (alter_at l g n').
Proof.
  revert n n'. induction l as [|name l IH]; intros n n' Hl E; [done|]. cbn [alter_at] in *.
  destruct l as [|name' l].
  - destruct n as [|mode entries|]; try discriminate. injection E as <-. by eexists.
  - destruct n as [|mode entries|]; try discriminate.
    destruct (entries !! name) as [child|]; [|discriminate].
    destruct (alter_at (name' :: l) f child) as [child'|] eqn:Ea; [|discriminate]. injection E as <-.
    rewrite lookup_insert_eq. destruct (IH child child') as [c ->]; [done..|]. by eexists.
Qed.

(** An entry can be changed where one is. *)
Lemma alter_at_some l g n v : l <> [] -> node_at l n = Some v -> is_Some (alter_at l g n).
Proof.
  revert n. induction l as [|name l IH]; intros n Hl E; [done|]. cbn [alter_at]. cbn [node_at] in E.
  destruct n as [|mode entries|]; try (by destruct l).
  destruct l as [|name' l]; [by eexists|].
  destruct (entries !! name) as [child|] eqn:Ec; [|discriminate].
  destruct (IH child) as [c Hc]; [done..|]. rewrite Hc. by eexists.
Qed.

Section calls.
Variable disk : node.

Lemma at_put path v disk' : parts path <> [] -> put_at path v disk = Some disk' -> at_path path disk' = v.
Proof using Type. intros Hp E. unfold put_at, at_path in *. by erewrite node_at_alter by done. Qed.

Lemma at_put_other path path' v disk' : apart (parts path') (parts path) = true ->
  put_at path v disk = Some disk' -> at_path path' disk' = at_path path' disk.
Proof using Type. intros Hp E. unfold put_at, at_path in *. by eapply node_at_other. Qed.
End calls.

(** ** Calls that succeeded *)

Lemma put_at_parts path v disk disk' : put_at path v disk = Some disk' -> parts path <> [].
Proof. unfold put_at. by destruct (parts path). Qed.

Lemma change_Ok path f w u w' : change path f w = (Ok u, w') ->
  exists v, f (at_path path (tables w)) = Ok v /\ put_at path v (tables w) = Some (tables w') /\
    at_path path (tables w') = v.
Proof.
  intros E. apply statement_Ok in E. destruct (f _) as [v|] eqn:Ef; [|done].
  destruct (put_at _ _ _) as [d|] eqn:Ep; [|done]. injection E as _ <-.
  exists v. split_and!; try done. eapply at_put; [by eapply put_at_parts|done].
Qed.

(** Nothing but what is at or around [path] differs. *)
Definition only_at (path : string) (disk disk' : node) : Prop :=
  forall other, apart (parts other) (parts path) = true -> at_path other disk' = at_path other disk.

Lemma only_at_refl path disk : only_at path disk disk.
Proof. by intros other _. Qed.

Lemma only_at_trans path d1 d2 d3 : only_at path d1 d2 -> only_at path d2 d3 -> only_at path d1 d3.
Proof. intros H1 H2 other Ho. by rewrite H2, H1. Qed.

Lemma put_only path v disk disk' : put_at path v disk = Some disk' -> only_at path disk disk'.
Proof. intros E other Ho. by eapply at_put_other. Qed.

Lemma change_only path f w r w' : change path f w = (r, w') -> only_at path (tables w) (tables w').
Proof.
  intros E. destruct r as [u|e].
  - apply change_Ok in E as (v & _ & Hp & _). by eapply put_only.
  - apply statement_Fail in E as [-> _]. apply only_at_refl.
Qed.

Lemma CreateExcl_Ok path mode w u w' : CreateExcl path mode w = (Ok u, w') ->
  at_path path (tables w) = None /\ at_path path (tables w') = Some (FileNode mode "") /\
  only_at path (tables w) (tables w').
Proof.
  intros E. assert (Ho := E); unfold CreateExcl, Append in Ho; apply change_only in Ho.
  apply change_Ok in E as (v & Hf & _ & Hv). destruct (at_path path (tables w)); [done|].
  injection Hf as <-. done.
Qed.

Lemma Append_Ok path s w u w' : Append path s w = (Ok u, w') ->
  exists mode before, at_path path (tables w) = Some (FileNode mode before) /\
    at_path path (tables w') = Some (FileNode mode (before +:+ s)) /\ only_at path (tables w) (tables w').
Proof.
  intros E. assert (Ho := E); unfold CreateExcl, Append in Ho; apply change_only in Ho.
  apply change_Ok in E as (v & Hf & _ & Hv). destruct (at_path path (tables w)) as [[mode before| |]|]; try done.
  injection Hf as <-. by exists mode, before.
Qed.

Lemma ReadFile_Ok path w s w' : ReadFile path w = (Ok s, w') ->
  tables w' = tables w /\ exists mode, at_path path (tables w) = Some (FileNode mode s).
Proof.
  intros E. apply statement_Ok in E. destruct (at_path _ _) as [[mode c| |]|]; try done.
  injection E as -> E. split; [done|]. by exists mode.
Qed.

Lemma Sync_tables path w r w' : Sync path w = (r, w') -> tables w' = tables w.
Proof.
  intros E. destruct r as [u|e]; [by apply statement_Ok in E as [= _ ->]|by apply statement_Fail in E as [-> _]].
Qed.

(** ** Calls without faults *)

Lemma clean_change path f v disk : f (at_path path disk) = Ok v -> is_Some (put_at path v disk) ->
  exists disk', change path f (World disk []) = (Ok tt, World disk' []) /\
    at_path path disk' = v /\ only_at path disk disk'.
Proof.
  intros Hf [disk' Hp]. exists disk'. unfold change, statement, next_fault. cbn. rewrite Hf, Hp.
  split_and!; [done| |by eapply put_only]. eapply at_put; [by eapply put_at_parts|done].
Qed.

Lemma put_at_some path v old disk : parts path <> [] -> at_path path disk = Some old -> is_Some (put_at path v disk).
Proof. intros Hp Ho. by eapply alter_at_some. Qed.

Lemma clean_Append path s mode before disk : parts path <> [] -> at_path path disk = Some (FileNode mode before) ->
  exists disk', Append path s (World disk []) = (Ok tt, World disk' []) /\
    at_path path disk' = Some (FileNode mode (before +:+ s)) /\ only_at path disk disk'.
Proof. intros Hp Hd. apply clean_change; [by rewrite Hd|by eapply put_at_some]. Qed.

Lemma clean_CreateExcl path mode disk : at_path path disk = None ->
  is_Some (put_at path (Some (FileNode mode "")) disk) ->
  exists disk', CreateExcl path mode (World disk []) = (Ok tt, World disk' []) /\
    at_path path disk' = Some (FileNode mode "") /\ only_at path disk disk'.
Proof. intros Hd Hs. apply clean_change; [by rewrite Hd|done]. Qed.

Lemma clean_Sync path disk : Sync path (World disk []) = (Ok tt, World disk []).
Proof. done. Qed.

Lemma clean_ReadFile path mode s disk : at_path path disk = Some (FileNode mode s) ->
  ReadFile path (World disk []) = (Ok s, World disk []).
Proof. intros Hd. unfold ReadFile, statement, next_fault. cbn. by rewrite Hd. Qed.

(** ** Operations confined to a path *)

Definition confined {A} (path : string) (m : M node A) : Prop :=
  forall w r w', m w = (r, w') -> only_at path (tables w) (tables w').

Section confinement.
Variable path : string.

Lemma confined_ret {A} (a : A) : confined path (ret a).
Proof using Type. intros w r w' [= _ <-]. apply only_at_refl. Qed.

Lemma confined_fail {A} e : confined path (fail (A := A) e).
Proof using Type. intros w r w' [= _ <-]. apply only_at_refl. Qed.

Lemma confined_bind {A B} (m : M node A) (k : A -> M node B) :
  confined path m -> (forall a, confined path (k a)) -> confined path (bind m k).
Proof using Type.
  intros Hm Hk w r w'. unfold bind. destruct (m w) as [[a|e] w1] eqn:E.
  - intros Ek. eapply only_at_trans; [by eapply Hm|by eapply Hk].
  - intros [= _ <-]. by eapply Hm.
Qed.

Lemma confined_attempt {A} (m : M node A) : confined path m -> confined path (attempt m).
Proof using Type. intros Hm w r w'. unfold attempt. destruct (m w) as [r1 w1] eqn:E. intros [= _ <-]. by eapply Hm. Qed.

Lemma confined_ignoring {A} (m : M node A) : confined path m -> confined path (ignoring m).
Proof using Type. intros Hm. apply confined_bind; [by apply confined_attempt|]. intros. apply confined_ret. Qed.

Lemma confined_change f : confined path (change path f).
Proof using Type. intros w r w'. apply change_only. Qed.

(** A statement that reads. *)
Lemma confined_reading {A} (f : node -> result (A * node)) :
  (forall d a d', f d = Ok (a, d') -> d' = d) -> confined path (statement f).
Proof using Type.
  intros Hf w r w' E. destruct r as [a|e].
  - apply statement_Ok, Hf in E as ->. apply only_at_refl.
  - apply statement_Fail in E as [-> _]. apply only_at_refl.
Qed.

Lemma confined_Lstat p : confined path (Lstat p).
Proof using Type. apply confined_reading. intros d a d'. destruct (at_path p d); by intros [= _ <-]. Qed.

Lemma confined_ReadFile p : confined path (ReadFile p).
Proof using Type. apply confined_reading. intros d a d'. destruct (at_path p d) as [[]|]; by intros [= _ <-]. Qed.

Lemma confined_ReadDir p : confined path (ReadDir p).
Proof using Type. apply confined_reading. intros d a d'. destruct (at_path p d) as [[]|]; by intros [= _ <-]. Qed.

Lemma confined_Sync p : confined path (Sync p).
Proof using Type. apply confined_reading. by intros d a d' [= _ <-]. Qed.

Lemma confined_RemoveAll : confined path (RemoveAll path).
Proof using Type.
  intros w r w' E. destruct r as [u|e]; [|apply statement_Fail in E as [-> _]; apply only_at_refl].
  apply statement_Ok in E. destruct (at_path path (tables w)); [|injection E as _ <-; apply only_at_refl].
  destruct (put_at path None (tables w)) eqn:Ep; [|done]. injection E as _ <-. by eapply put_only.
Qed.
End confinement.

Create HintDb files.
#[export] Hint Resolve confined_ret confined_fail confined_bind confined_attempt confined_ignoring confined_change
  confined_Lstat confined_ReadFile confined_ReadDir confined_Sync confined_RemoveAll : files.

Lemma starts_with_iff l k : starts_with l k = true <-> exists j, l = k ++ j.
Proof.
  split; [|intros [j ->]; apply starts_with_app]. revert l. induction k as [|p k IH]; intros l; [by exists l|].
  destruct l as [|q l]; [done|]. cbn. intros [->%String.eqb_eq H]%andb_true_iff.
  destruct (IH l H) as [j ->]. by exists j.
Qed.

Lemma apart_below k l j : apart k l = true -> apart k (l ++ j) = true.
Proof.
  intros H. apply not_false_is_true. intros Hf. unfold apart in *. apply andb_true_iff in H as [H1 H2].
  apply negb_true_iff in H1, H2. apply andb_false_iff in Hf as [Hf|Hf]; apply negb_false_iff in Hf.
  - apply starts_with_iff in Hf as [i ->]. rewrite <- app_assoc, starts_with_app in H1. done.
  - apply starts_with_iff in Hf as [i Hi].
    assert (starts_with l k = true \/ starts_with k l = true) as [|]; [|congruence..].
    clear H1 H2. revert l Hi. induction k as [|p k IH]; intros l Hi; [by left; destruct l|].
    destruct l as [|q l]; [by right|]. injection Hi as -> Hi. cbn. rewrite String.eqb_refl. cbn. auto.
Qed.

Definition below (path dir : string) : Prop := exists l, parts path = parts dir ++ l.

Lemma below_refl path : below path path.
Proof. exists []. by rewrite app_nil_r. Qed.

Lemma only_at_below path dir d d' : below path dir -> only_at path d d' -> only_at dir d d'.
Proof. intros [l Hl] H other Ho. apply H. rewrite Hl. by apply apart_below. Qed.

Lemma confined_below {A} path dir (m : M node A) : below path dir -> confined path m -> confined dir m.
Proof. intros Hb Hm w r w' E. eapply only_at_below; [done|]. by eapply Hm. Qed.

(** ** Directories made on the way *)

Lemma node_at_app l k n : node_at (l ++ k) n = match node_at l n with Some n => node_at k n | None => None end.
Proof.
  revert n. induction l as [|p l IH]; intros n; [done|]. cbn [app node_at].
  destruct n; [done| |done]. destruct (entries !! p); [apply IH|done].
Qed.

Lemma alter_at_new l f n n' v k : l <> [] -> alter_at l f n = Some n' -> node_at l n = None ->
  (forall o, f o = Some v) -> (forall p q, node_at (p :: q) v = None) -> starts_with l k = false ->
  node_at k n' = node_at k n.
Proof.
  intros Hl E Hn Hf Hv Hk. destruct (starts_with k l) eqn:Ekl.
  - apply starts_with_iff in Ekl as [j ->]. destruct j as [|p j].
    + by rewrite app_nil_r, starts_with_refl in Hk.
    + rewrite !node_at_app, Hn. rewrite (node_at_alter l f n n') by done. by rewrite Hf, Hv.
  - apply (node_at_other l k f); [|done]. unfold apart. by rewrite Ekl, Hk.
Qed.

(** Only the directories of the path can be new. *)
Lemma mkdirs_other done todo mode disk disk' k : mkdirs done todo mode disk = Some disk' ->
  starts_with (done ++ todo) k = false -> node_at k disk' = node_at k disk.
Proof.
  revert done disk. induction todo as [|name todo IH]; intros done disk E Hk; cbn in E; [by injection E as ->|].
  assert (Hk' : starts_with ((done ++ [name]) ++ todo) k = false) by (by rewrite <- app_assoc).
  destruct (node_at (done ++ [name]) disk) as [[]|] eqn:Eh; try discriminate; [by eapply IH|].
  destruct (alter_at _ _ disk) as [disk1|] eqn:Ea; [|discriminate].
  rewrite (IH _ _ E Hk'). eapply alter_at_new; try done; [by destruct done|].
  apply not_true_is_false. intros H. apply starts_with_iff in H as [j Hj].
  rewrite Hj, <- app_assoc, starts_with_app in Hk'. done.
Qed.

(** What has an entry below it is a directory. *)
Lemma alter_at_dir k p j f n n' : alter_at (k ++ p :: j) f n = Some n' ->
  exists mode entries, node_at k n = Some (DirNode mode entries).
Proof.
  revert n n'. induction k as [|q k IH]; intros n n' E.
  - destruct n as [|mode entries|]; [by destruct j|by exists mode, entries|by destruct j].
  - cbn [app alter_at] in E. destruct (k ++ p :: j) as [|name l] eqn:El; [by destruct k|].
    destruct n as [|mode entries|]; try discriminate. cbn [node_at].
    destruct (entries !! q) as [child|]; [|discriminate].
    destruct (alter_at _ f child) as [c|] eqn:Ea; [|discriminate]. by eapply IH.
Qed.

(** Files that were there stay as they were. *)
Lemma mkdirs_file done todo mode disk disk' k m s : mkdirs done todo mode disk = Some disk' ->
  node_at k disk = Some (FileNode m s) -> node_at k disk' = Some (FileNode m s).
Proof.
  revert done disk. induction todo as [|name todo IH]; intros done disk E Hk; cbn in E; [by injection E as ->|].
  destruct (node_at (done ++ [name]) disk) as [[]|] eqn:Eh; try discriminate; [by eapply IH|].
  destruct (alter_at _ _ disk) as [disk1|] eqn:Ea; [|discriminate].
  apply (IH _ _ E). rewrite <- Hk. eapply alter_at_new; try done; [by destruct done|].
  apply not_true_is_false. intros H. apply starts_with_iff in H as [j Hj].
  destruct j as [|p j]; [rewrite app_nil_r in Hj; congruence|].
  rewrite Hj in Ea. apply alter_at_dir in Ea as (m' & e' & Hd). congruence.
Qed.

Lemma MkdirAll_other path mode w r w' k : MkdirAll path mode w = (r, w') ->
  starts_with (parts path) k = false -> node_at k (tables w') = node_at k (tables w).
Proof.
  intros E Hk. destruct r as [u|e]; [|by apply statement_Fail in E as [-> _]].
  apply statement_Ok in E. destruct (mkdirs _ _ _ _) eqn:Em; [|done]. injection E as _ <-.
  by eapply mkdirs_other.
Qed.

Lemma MkdirAll_file path mode w r w' k m s : MkdirAll path mode w = (r, w') ->
  node_at k (tables w) = Some (FileNode m s) -> node_at k (tables w') = Some (FileNode m s).
Proof.
  intros E Hk. destruct r as [u|e]; [|by apply statement_Fail in E as [-> _]].
  apply statement_Ok in E. destruct (mkdirs _ _ _ _) eqn:Em; [|done]. injection E as _ <-.
  by eapply mkdirs_file.
Qed.

Lemma apart_starts k l : apart k l = true -> starts_with l k = false.
Proof. intros [_ H]%andb_true_iff. by apply negb_true_iff in H. Qed.

Lemma confined_MkdirAll path dir mode : below path dir -> confined dir (MkdirAll path mode).
Proof.
  intros [l Hl] w r w' E other Ho. eapply MkdirAll_other; [done|]. rewrite Hl. by apply apart_starts, apart_below.
Qed.

(** A file at another path survives a change that succeeded. *)
Lemma alter_at_file l f n n' k m s : l <> [] -> alter_at l f n = Some n' -> node_at k n = Some (FileNode m s) ->
  k <> l -> (forall mode entries, node_at l n <> Some (DirNode mode entries)) ->
  node_at k n' = Some (FileNode m s).
Proof.
  intros Hl E Hk Hne Hd. rewrite <- Hk. eapply node_at_other; [|done].
  apply not_false_is_true. intros Hf. apply andb_false_iff in Hf as [Hf|Hf]; apply negb_false_iff, starts_with_iff in Hf
    as [j Hj]; destruct j as [|p j]; try (rewrite app_nil_r in Hj; congruence).
  - subst k. rewrite node_at_app in Hk. destruct (node_at l n) as [[| |]|]; try discriminate. by eapply Hd.
  - subst l. apply alter_at_dir in E as (m' & e' & E'). congruence.
Qed.

Lemma change_file path f w u w' k m s : change path f w = (Ok u, w') ->
  node_at k (tables w) = Some (FileNode m s) -> k <> parts path ->
  (forall mode entries, at_path path (tables w) <> Some (DirNode mode entries)) ->
  node_at k (tables w') = Some (FileNode m s).
Proof.
  intros E Hk Hne Hd. apply change_Ok in E as (v & _ & Hp & _).
  eapply alter_at_file; [by eapply put_at_parts|exact Hp|done..].
Qed.

(** ** Several paths *)

(** What is apart from all of [ps] is as before. *)
Definition untouched (ps : list string) (d d' : node) : Prop :=
  forall other, Forall (fun p => apart (parts other) (parts p) = true) ps -> at_path other d' = at_path other d.

Lemma untouched_refl ps d : untouched ps d d.
Proof. by intros other _. Qed.

Lemma untouched_same ps d d' : d' = d -> untouched ps d d'.
Proof. intros ->. apply untouched_refl. Qed.

Lemma untouched_trans ps d1 d2 d3 : untouched ps d1 d2 -> untouched ps d2 d3 -> untouched ps d1 d3.
Proof. intros H1 H2 other Ho. by rewrite H2, H1. Qed.

Lemma untouched_incl ps qs d d' : ps ⊆ qs -> untouched ps d d' -> untouched qs d d'.
Proof. intros Hi H other Ho. apply H. eapply Forall_forall. intros p Hp. eapply Forall_forall in Ho; [exact Ho|by apply Hi]. Qed.

Lemma only_untouched p ps d d' : p ∈ ps -> only_at p d d' -> untouched ps d d'.
Proof. intros Hp H other Ho. apply H. by eapply Forall_forall in Ho. Qed.

(** Names in the same directory. *)
Lemma apart_siblings dir a b : a <> b -> apart (dir ++ [a]) (dir ++ [b]) = true.
Proof.
  intros Hne. apply not_false_is_true. intros Hf. apply andb_false_iff in Hf as [Hf|Hf];
    apply negb_false_iff, starts_with_iff in Hf as [j Hj]; rewrite <- app_assoc in Hj;
    apply app_inv_head in Hj; by injection Hj.
Qed.

(** ** What a call did, with no fault ahead or with any *)

Definition calm (w : world node) : Prop := faults w = [].

Lemma statement_calm {A} (f : node -> result (A * node)) w r w' : statement f w = (r, w') -> calm w -> calm w'.
Proof.
  unfold statement, next_fault, calm. intros E Hw. rewrite Hw in E.
  destruct (f (tables w)) as [[a d]|e]; by injection E as _ <-.
Qed.

(** Without a fault the outcome is that of the call itself. *)
Lemma statement_calm_Fail {A} (f : node -> result (A * node)) w e w' :
  statement f w = (Fail e, w') -> calm w -> f (tables w) = Fail e.
Proof.
  unfold statement, next_fault, calm. intros E Hw. rewrite Hw in E.
  destruct (f (tables w)) as [[a d]|e']; [done|by injection E as ->].
Qed.

Lemma bind_calm {A B} (m : M node A) (k : A -> M node B) :
  (forall w r w', m w = (r, w') -> calm w -> calm w') ->
  (forall a w r w', k a w = (r, w') -> calm w -> calm w') ->
  forall w r w', bind m k w = (r, w') -> calm w -> calm w'.
Proof.
  intros Hm Hk w r w'. unfold bind. destruct (m w) as [[a|e] w1] eqn:E; intros E' Hw.
  - eapply Hk; [exact E'|]. by eapply Hm.
  - injection E' as _ <-. by eapply Hm.
Qed.

Lemma Lstat_run p w r w' : Lstat p w = (r, w') ->
  tables w' = tables w /\ (calm w -> calm w') /\
  match r with
  | Ok n => at_path p (tables w) = Some n
  | Fail e => (is_not_exist e = true -> at_path p (tables w) = None) /\
              (calm w -> is_not_exist e = true)
  end.
Proof.
  intros E. destruct r as [n|e].
  - split_and!; [|by eapply statement_calm|].
    + apply statement_Ok in E. destruct (at_path _ _); [|done]. by injection E.
    + apply statement_Ok in E. destruct (at_path _ _); [|done]. by injection E as ->.
  - assert (E' := E). apply statement_Fail in E' as [-> Hc]. split_and!; [done|by eapply statement_calm| |].
    + destruct Hc as [[s ->]|Hf]; [done|]. by destruct (at_path _ _).
    + intros Hw. apply (statement_calm_Fail _ _ _ _ E) in Hw. destruct (at_path _ _); [done|]. by injection Hw as <-.
Qed.

Lemma Sync_run p w r w' : Sync p w = (r, w') ->
  tables w' = tables w /\ (calm w -> calm w' /\ r = Ok tt).
Proof.
  intros E. split; [by eapply Sync_tables|]. intros Hw. split; [by eapply statement_calm|].
  destruct r as [[]|e]; [done|]. by apply (statement_calm_Fail _ _ _ _ E) in Hw.
Qed.

(** A removal: gone or as before. *)
Lemma Remove_run p w r w' : parts p <> [] -> Remove p w = (r, w') ->
  only_at p (tables w) (tables w') /\ (calm w -> calm w') /\
  match r with
  | Ok _ => at_path p (tables w') = None
  | Fail e => tables w' = tables w /\ (is_not_exist e = true -> at_path p (tables w) = None) /\
      (calm w -> is_not_exist e = true \/ exists mode entries, at_path p (tables w) = Some (DirNode mode entries))
  end.
Proof.
  intros Hp E. split; [by eapply change_only|]. split; [by eapply statement_calm|].
  destruct r as [u|e].
  - apply change_Ok in E as (v & Hf & _ & Hv). rewrite Hv.
    destruct (at_path p (tables w)) as [[]|]; try (by injection Hf as <-); try done.
    destruct (bool_decide _); [|done]. by injection Hf as <-.
  - assert (E' := E). apply statement_Fail in E' as [-> Hc]. split; [done|].
    assert (Hput : forall n, at_path p (tables w) = Some n -> is_Some (put_at p None (tables w)))
      by (intros n Hn; by eapply put_at_some).
    split.
    + destruct Hc as [[s ->]|Hf]; [done|]. intros Hx. destruct (at_path p (tables w)) as [n|] eqn:Hat; [|done].
      destruct (Hput n eq_refl) as [d Hd].
      destruct n; [|destruct (bool_decide _)|]; rewrite ?Hd in Hf; try done; by injection Hf as <-.
    + intros Hw. apply (statement_calm_Fail _ _ _ _ E) in Hw.
      destruct (at_path p (tables w)) as [n|] eqn:Hat; [|left; by injection Hw as <-].
      destruct (Hput n eq_refl) as [d Hd]. destruct n; [by rewrite Hd in Hw| |by rewrite Hd in Hw]. eauto.
Qed.

Lemma RemoveAll_run p w r w' : parts p <> [] -> RemoveAll p w = (r, w') ->
  only_at p (tables w) (tables w') /\ (calm w -> calm w' /\ r = Ok tt) /\
  match r with
  | Ok _ => at_path p (tables w') = None
  | Fail e => tables w' = tables w /\ is_not_exist e = false
  end.
Proof.
  intros Hp E. split; [by eapply confined_RemoveAll|].
  assert (Hput : forall n, at_path p (tables w) = Some n -> is_Some (put_at p None (tables w)))
    by (intros n Hn; by eapply put_at_some).
  split.
  - intros Hw. split; [by eapply statement_calm|]. destruct r as [[]|e]; [done|].
    apply (statement_calm_Fail _ _ _ _ E) in Hw. destruct (at_path p (tables w)) as [n|]; [|done].
    destruct (Hput n eq_refl) as [d Hd]. by rewrite Hd in Hw.
  - destruct r as [u|e].
    + apply statement_Ok in E. destruct (at_path p (tables w)) as [n|] eqn:Hat; [|by injection E as _ <-].
      destruct (put_at p None (tables w)) as [d|] eqn:Hd; [|done]. injection E as _ <-.
      eapply at_put; [exact Hp|exact Hd].
    + apply statement_Fail in E as [-> Hc]. split; [done|]. destruct Hc as [[s ->]|Hf]; [done|].
      destruct (at_path p (tables w)); [|done]. destruct (put_at _ _ _); [done|]. by injection Hf as <-.
Qed.

Lemma alter_at_sibling dir a b f n v : node_at (dir ++ [a]) n = Some v -> is_Some (alter_at (dir ++ [b]) f n).
Proof.
  revert n. induction dir as [|p dir IH]; intros n; cbn [app node_at alter_at].
  - destruct n; [done| |done]. by eexists.
  - destruct n as [|mode entries|]; [done| |done]. destruct (dir ++ [b]) as [|q l] eqn:El; [by destruct dir|].
    destruct (entries !! p) as [child|]; [|done]. intros Hn. destruct (IH child Hn) as [c ->]. by eexists.
Qed.

(** A rename within a directory: both paths change or none. *)
Lemma Rename_run dir a b old new w r w' : parts old = dir ++ [a] -> parts new = dir ++ [b] -> a <> b ->
  Rename old new w = (r, w') ->
  untouched [old; new] (tables w) (tables w') /\ (calm w -> calm w') /\
  match r with
  | Ok _ => is_Some (at_path old (tables w)) /\ at_path new (tables w') = at_path old (tables w) /\
      at_path old (tables w') = None
  | Fail _ => tables w' = tables w /\ (calm w -> at_path new (tables w) = None -> at_path old (tables w) = None)
  end.
Proof.
  intros Ho Hn Hne E. assert (Hap : apart (parts old) (parts new) = true) by (rewrite Ho, Hn; by apply apart_siblings).
  assert (Hst : starts_with (parts new) (parts old) = false).
  { apply andb_true_iff in Hap as [_ H]. by apply negb_true_iff in H. }
  assert (Hdec : bool_decide (parts old = parts new) = false).
  { apply bool_decide_eq_false_2. rewrite Ho, Hn. intros Hab%app_inj_tail. tauto. }
  assert (Hl : forall d, parts d = dir ++ [a] \/ parts d = dir ++ [b] -> parts d <> [])
    by (intros d [-> | ->]; by destruct dir).
  destruct r as [u|e].
  - assert (Hu : exists n d, at_path old (tables w) = Some n /\ put_at new (Some n) (tables w) = Some d /\
        put_at old None d = Some (tables w')).
    { apply statement_Ok in E. rewrite Hdec, Hst in E. destruct (at_path old (tables w)) as [n|]; [|done].
      cbn [orb] in E. destruct (negb _); [done|]. destruct (put_at new (Some n) (tables w)) as [d|] eqn:E1; [|done].
      destruct (put_at old None d) as [d'|] eqn:E2; [|done]. injection E as _ <-. by exists n, d. }
    destruct Hu as (n & d & Hat & H1 & H2). split.
    { eapply untouched_trans; (eapply only_untouched; [|by eapply put_only]); set_solver. }
    split; [by eapply statement_calm|]. rewrite Hat. split; [by eexists|]. split; [|by eapply at_put; [apply Hl; auto|]].
    rewrite (at_put_other d old new None (tables w')) by (by rewrite ?(apart_sym (parts new))).
    eapply at_put; [apply Hl; auto|done].
  - assert (E' := E). apply statement_Fail in E' as [Ht _].
    split; [by apply untouched_same|]. split; [by eapply statement_calm|]. split; [done|].
    intros Hw Hnew. apply (statement_calm_Fail _ _ _ _ E) in Hw. rewrite Hdec, Hst, Hnew in Hw.
    destruct (at_path old (tables w)) as [n|] eqn:Hat; [|done]. cbn [orb] in Hw.
    destruct (negb _) eqn:Hr; [by destruct n|].
    assert (H1 : is_Some (put_at new (Some n) (tables w))).
    { unfold put_at. rewrite Hn. eapply alter_at_sibling. unfold at_path in Hat. by rewrite Ho in Hat. }
    destruct H1 as [d H1]. rewrite H1 in Hw.
    assert (H2 : is_Some (put_at old None d)).
    { eapply put_at_some; [apply Hl; auto|]. rewrite <- Hat. by eapply at_put_other. }
    destruct H2 as [d' H2]. by rewrite H2 in Hw.
Qed.

(** ** Replacing a file

    The sources replace a file in one way: the content goes to a temporary file
    in the same directory, [name] of [os.CreateTemp], which then takes the
    place of the file. *)
Definition write_and_rename (path name content : string) (mode : Z) : M node unit :=
  let* _ := Chmod name mode in
  let* _ := Append name content in
  let* _ := Sync name in
  let* _ := Rename name path in
  Sync (Dir path).

(** Whatever happens, the temporary file is removed at the end. *)
Definition write_beside (path name content : string) (mode : Z) : M node unit :=
  let* _ := CreateExcl name 384 in
  let* done := attempt (write_and_rename path name content mode) in
  let* _ := ignoring (Remove name) in
  match done with Ok _ => ret tt | Fail err => fail err end.

Lemma untouched_below ps root d d' : Forall (fun p => below p root) ps -> untouched ps d d' -> only_at root d d'.
Proof.
  intros Hb Hu other Ho. apply Hu. eapply Forall_impl; [exact Hb|]. intros p [l ->]. by apply apart_below.
Qed.

(** ** A change of one entry, and what it leaves *)

Lemma Chmod_Ok path mode w u w' m s : Chmod path mode w = (Ok u, w') -> at_path path (tables w) = Some (FileNode m s) ->
  at_path path (tables w') = Some (FileNode mode s).
Proof.
  intros E Hat. apply change_Ok in E as (v & Hf & _ & ->). rewrite Hat in Hf. by injection Hf as <-.
Qed.

(** ** Operations confined to several paths *)

Definition confined_to {A} (ps : list string) (m : M node A) : Prop :=
  forall w r w', m w = (r, w') -> untouched ps (tables w) (tables w').

Section confinement_to.
Variable ps : list string.

Lemma cto_confined {A} p (m : M node A) : p ∈ ps -> confined p m -> confined_to ps m.
Proof using Type. intros Hp Hm w r w' E. eapply only_untouched; [exact Hp|by eapply Hm]. Qed.

Lemma cto_incl {A} qs (m : M node A) : qs ⊆ ps -> confined_to qs m -> confined_to ps m.
Proof using Type. intros Hi Hm w r w' E. eapply untouched_incl; [exact Hi|by eapply Hm]. Qed.

Lemma cto_ret {A} (a : A) : confined_to ps (ret a).
Proof using Type. intros w r w' [= _ <-]. apply untouched_refl. Qed.

Lemma cto_fail {A} e : confined_to ps (fail (A := A) e).
Proof using Type. intros w r w' [= _ <-]. apply untouched_refl. Qed.

Lemma cto_bind {A B} (m : M node A) (k : A -> M node B) :
  confined_to ps m -> (forall a, confined_to ps (k a)) -> confined_to ps (bind m k).
Proof using Type.
  intros Hm Hk w r w'. unfold bind. destruct (m w) as [[a|e] w1] eqn:E.
  - intros Ek. eapply untouched_trans; [by eapply Hm|by eapply Hk].
  - intros [= _ <-]. by eapply Hm.
Qed.

Lemma cto_attempt {A} (m : M node A) : confined_to ps m -> confined_to ps (attempt m).
Proof using Type. intros Hm w r w' E. apply attempt_run in E as (done & E & _). by eapply Hm. Qed.

Lemma cto_ignoring {A} (m : M node A) : confined_to ps m -> confined_to ps (ignoring m).
Proof using Type. intros Hm w r w' E. apply ignoring_run in E as (_ & done & E). by eapply Hm. Qed.

Lemma cto_same {A} (m : M node A) : (forall w r w', m w = (r, w') -> tables w' = tables w) -> confined_to ps m.
Proof using Type. intros Hm w r w' E. by apply untouched_same, (Hm w r w'). Qed.

Lemma cto_Lstat p : confined_to ps (Lstat p).
Proof using Type. apply cto_same. intros w r w' E. by apply Lstat_run in E as [? _]. Qed.

Lemma cto_Sync p : confined_to ps (Sync p).
Proof using Type. apply cto_same. intros w r w' E. by apply Sync_run in E as [? _]. Qed.

Lemma cto_change p f : p ∈ ps -> confined_to ps (change p f).
Proof using Type. intros Hp. eapply cto_confined; [exact Hp|apply confined_change]. Qed.

Lemma cto_RemoveAll p : p ∈ ps -> confined_to ps (RemoveAll p).
Proof using Type. intros Hp. eapply cto_confined; [exact Hp|apply confined_RemoveAll]. Qed.

Lemma cto_Rename old new : old ∈ ps -> new ∈ ps -> confined_to ps (Rename old new).
Proof using Type.
  intros Ho Hn w r w' E. destruct r as [u|e]; [|apply statement_Fail in E as [-> _]; apply untouched_refl].
  apply statement_Ok in E. destruct (at_path old (tables w)) as [n|]; [|done].
  destruct (bool_decide _); [injection E as _ <-; apply untouched_refl|]. destruct (_ || _); [done|].
  destruct (put_at new _ _) as [d|] eqn:E1; [|done]. destruct (put_at old _ d) as [d'|] eqn:E2; [|done].
  injection E as _ <-. eapply untouched_trans; (eapply only_untouched; [|by eapply put_only]); done.
Qed.
End confinement_to.

#[export] Hint Resolve cto_ret cto_fail cto_bind cto_attempt cto_ignoring cto_Lstat cto_Sync cto_change
  cto_RemoveAll cto_Rename : files.

(** ** Replacing a file: what happens *)

Lemma starts_with_longer l p : starts_with l (l ++ [p]) = false.
Proof.
  apply not_true_is_false. intros [j Hj]%starts_with_iff. rewrite <- app_assoc in Hj.
  apply (f_equal (@List.length _)) in Hj. rewrite !length_app in Hj. cbn in Hj. lia.
Qed.

Section replacing.
Variables (dir : list string) (t q path name : string).
Hypothesis name_at : parts name = dir ++ [t].
Hypothesis path_at : parts path = dir ++ [q].
Hypothesis distinct : t <> q.

Lemma path_apart : apart (parts path) (parts name) = true.
Proof using All. rewrite name_at, path_at. apply apart_siblings. by intros ->. Qed.

(** The file is as it was, or it is the new one as a whole. *)
Definition replaced (mode : Z) (content : string) (r : result unit) (d d' : node) : Prop :=
  (only_at name d d' /\ is_ok r = false) \/
  (untouched [name; path] d d' /\ at_path path d' = Some (FileNode mode content) /\ at_path name d' = None).

Lemma write_and_rename_run content mode w r w' : at_path name (tables w) = Some (FileNode 384 "") ->
  write_and_rename path name content mode w = (r, w') -> replaced mode content r (tables w) (tables w').
Proof using All.
  intros Hnew E. assert (Hap := path_apart). unfold write_and_rename, bind in E.
  destruct (Chmod _ _ w) as [r1 w1] eqn:E1. assert (Ho1 := E1). unfold Chmod in Ho1. apply change_only in Ho1.
  destruct r1 as [u1|err]; [|injection E as <- <-; by left].
  apply (Chmod_Ok _ _ _ _ _ 384 "") in E1; [|done].
  destruct (Append _ _ w1) as [r2 w2] eqn:E2. assert (Ho2 := E2). unfold Append in Ho2. apply change_only in Ho2.
  assert (Ho12 := only_at_trans _ _ _ _ Ho1 Ho2).
  destruct r2 as [u2|err]; [|injection E as <- <-; by left].
  apply Append_Ok in E2 as (m & b & Hb & Ha2 & _). rewrite E1 in Hb. injection Hb as <- <-.
  destruct (Sync _ w2) as [r3 w3] eqn:E3. apply Sync_run in E3 as [Ht3 _].
  rewrite <- Ht3 in Ho12, Ha2. clear Ht3 Ho2.
  destruct r3 as [u3|err]; [|injection E as <- <-; by left].
  destruct (Rename _ _ w3) as [r4 w4] eqn:E4. apply (Rename_run dir t q) in E4 as (Hu4 & _ & Hr4); [|done..].
  destruct r4 as [u4|err].
  - destruct Hr4 as (_ & Hat & Hgone). rewrite Ha2 in Hat. apply Sync_run in E as [Ht5 _]. right. rewrite Ht5.
    split_and!; [|done..]. eapply untouched_trans; [|exact Hu4]. eapply only_untouched; [|exact Ho12]; set_solver.
  - injection E as <- <-. destruct Hr4 as [-> _]. by left.
Qed.

Lemma write_beside_run content mode w r w' : write_beside path name content mode w = (r, w') ->
  replaced mode content r (tables w) (tables w').
Proof using All.
  intros E. assert (Hap := path_apart). unfold write_beside, bind in E.
  destruct (CreateExcl _ _ w) as [r2 w2] eqn:E2. assert (Ho2 := E2). unfold CreateExcl in Ho2. apply change_only in Ho2.
  destruct r2 as [u2|err]; [|injection E as <- <-; by left].
  apply CreateExcl_Ok in E2 as (_ & Hnew & _).
  destruct (attempt _ w2) as [r3 w3] eqn:E3. apply attempt_run in E3 as (done & E3 & ->).
  apply (write_and_rename_run _ _ _ _ _ Hnew) in E3.
  destruct (ignoring _ w3) as [r4 w4] eqn:E4. apply ignoring_run in E4 as (-> & done4 & E4).
  assert (Ho4 := E4). unfold Remove in Ho4. apply change_only in Ho4.
  assert (w' = w4) as -> by (destruct done; by injection E as _ <-).
  assert (is_ok r = is_ok done) as Hr by (destruct done as [[]|]; by injection E as <-).
  destruct E3 as [[Ho3 Hf]|(Hu3 & Hn & Hg)].
  - left. split; [|by rewrite Hr]. eapply only_at_trans; [exact Ho2|]. by eapply only_at_trans.
  - right. split; [|split; [by rewrite (Ho4 path Hap)|]].
    + eapply untouched_trans; [eapply only_untouched; [|exact Ho2]; set_solver|]. eapply untouched_trans; [exact Hu3|].
      eapply only_untouched; [|exact Ho4]; set_solver.
    + apply Remove_run in E4 as (_ & _ & Hr4); [|rewrite name_at; by destruct dir].
      destruct done4 as [u|e]; [tauto|]. destruct Hr4 as [-> _]. done.
Qed.

Lemma replaced_keeps mode content r d d' : replaced mode content r d d' ->
  untouched [name; path] d d' /\
  (at_path path d' = at_path path d \/ at_path path d' = Some (FileNode mode content)) /\
  (r = Ok tt -> at_path path d' = Some (FileNode mode content)).
Proof using All.
  assert (Hap := path_apart). intros [[Ho Hr]|(Hu & Hn & Hg)]; [|auto].
  split; [eapply only_untouched; [|exact Ho]; set_solver|]. split; [left; by apply Ho|]. by intros ->.
Qed.
End replacing.

(** ** Replacing a file: without faults it succeeds *)

Definition not_dir (o : option node) : Prop := match o with Some (DirNode _ _) => False | _ => True end.

Lemma alter_at_in_dir dir p f n m e : node_at dir n = Some (DirNode m e) -> is_Some (alter_at (dir ++ [p]) f n).
Proof.
  revert n. induction dir as [|q dir IH]; intros n; cbn [app node_at alter_at].
  - intros [= ->]. by eexists.
  - destruct n as [|mode entries|]; [done| |done]. destruct (dir ++ [p]) as [|r l] eqn:El; [by destruct dir|].
    destruct (entries !! q) as [child|]; [|done]. intros Hn. destruct (IH child Hn) as [c ->]. by eexists.
Qed.

Lemma clean_Chmod path mode m s d : parts path <> [] -> at_path path d = Some (FileNode m s) ->
  exists d', Chmod path mode (World d []) = (Ok tt, World d' []) /\ at_path path d' = Some (FileNode mode s) /\ only_at path d d'.
Proof.
  intros Hp Hat. apply (clean_change path _ (Some (FileNode mode s))); [by rewrite Hat|]. by eapply put_at_some.
Qed.

Lemma clean_Rename dir a b old new d m s : parts old = dir ++ [a] -> parts new = dir ++ [b] -> a <> b ->
  at_path old d = Some (FileNode m s) -> not_dir (at_path new d) ->
  exists d', Rename old new (World d []) = (Ok tt, World d' []).
Proof.
  intros Ho Hn Hne Hat Hnd. assert (Hap : apart (parts old) (parts new) = true) by (rewrite Ho, Hn; by apply apart_siblings).
  assert (Hst : starts_with (parts new) (parts old) = false).
  { apply andb_true_iff in Hap as [_ H]. by apply negb_true_iff in H. }
  unfold Rename, statement, next_fault. cbn [faults tables]. rewrite Hat, bool_decide_eq_false_2, Hst.
  2: { rewrite Ho, Hn. intros Hab%app_inj_tail. tauto. }
  assert (Hr : replaces (FileNode m s) (at_path new d) = true) by (by destruct (at_path new d) as [[]|]).
  rewrite Hr. cbn [orb negb].
  destruct (alter_at_sibling dir a b (fun _ => Some (FileNode m s)) d (FileNode m s)) as [d1 E1].
  { unfold at_path in Hat. by rewrite Ho in Hat. }
  assert (P1 : put_at new (Some (FileNode m s)) d = Some d1) by (unfold put_at; by rewrite Hn). rewrite P1.
  destruct (put_at_some old None (FileNode m s) d1) as [d2 E2]; [rewrite Ho; by destruct dir| |rewrite E2; by eexists].
  rewrite <- Hat. eapply at_put_other; [|exact P1]. done.
Qed.

Lemma clean_write_beside dir t q path name content mode d m e :
  parts name = dir ++ [t] -> parts path = dir ++ [q] -> t <> q ->
  node_at dir d = Some (DirNode m e) -> at_path name d = None -> not_dir (at_path path d) ->
  exists d', write_beside path name content mode (World d []) = (Ok tt, World d' []).
Proof.
  intros Hn Hp Hne Hd Hnone Hnd. assert (Hpn : parts name <> []) by (rewrite Hn; by destruct dir).
  assert (Hap : apart (parts path) (parts name) = true) by (rewrite Hn, Hp; apply apart_siblings; by intros ->).
  destruct (clean_CreateExcl name 384 d Hnone) as (d1 & E1 & H1 & O1).
  { unfold put_at. rewrite Hn. by eapply alter_at_in_dir. }
  destruct (clean_Chmod name mode 384 "" d1 Hpn H1) as (d2 & E2 & H2 & O2).
  destruct (clean_Append name content mode "" d2 Hpn H2) as (d3 & E3 & H3 & O3).
  destruct (clean_Rename dir t q name path d3 mode content Hn Hp Hne H3) as (d4 & E4).
  { rewrite (O3 path Hap), (O2 path Hap), (O1 path Hap). done. }
  assert (E4' := E4). apply (Rename_run dir t q) in E4' as (_ & _ & _ & _ & Hgone); [|done..].
  cbn [tables] in Hgone. exists d4. unfold write_beside, bind at 1. rewrite E1.
  unfold write_and_rename, attempt, bind at 1 2. rewrite E2. unfold bind at 1. rewrite E3. unfold bind at 1.
  rewrite clean_Sync. unfold bind at 1. rewrite E4, clean_Sync.
  unfold ignoring, bind, attempt, Remove, change, statement, next_fault. cbn [faults tables]. by rewrite Hgone.
Qed.

(** Directories that are there already. *)
Lemma node_at_prefix l k n m e : node_at (l ++ k) n = Some (DirNode m e) -> exists m' e', node_at l n = Some (DirNode m' e').
Proof.
  rewrite node_at_app. destruct (node_at l n) as [v|]; [|done]. destruct k as [|p k]; [by intros [= ->]; eauto|].
  destruct v; [done|eauto|done].
Qed.

Lemma clean_MkdirAll path mode d m e : node_at (parts path) d = Some (DirNode m e) ->
  MkdirAll path mode (World d []) = (Ok tt, World d []).
Proof.
  intros Hd. assert (Hm : forall todo here, node_at (here ++ todo) d = Some (DirNode m e) -> mkdirs here todo mode d = Some d).
  { induction todo as [|name todo IH]; intros here E; [done|]. cbn [mkdirs].
    replace (here ++ name :: todo) with ((here ++ [name]) ++ todo) in E by (by rewrite <- app_assoc).
    destruct (node_at_prefix _ _ _ _ _ E) as (m' & e' & ->). by apply IH. }
  unfold MkdirAll, statement, next_fault. cbn [faults tables]. by rewrite (Hm (parts path) []).
Qed.

(** Two branches below one directory. *)
Lemma apart_branch l p q j k : p <> q -> apart (l ++ p :: j) (l ++ q :: k) = true.
Proof.
  intros Hne. apply not_false_is_true. intros Hf. apply andb_false_iff in Hf as [Hf|Hf];
    apply negb_false_iff, starts_with_iff in Hf as [i Hi]; rewrite <- app_assoc in Hi;
    apply app_inv_head in Hi; by injection Hi.
Qed.

(** ** The names in a directory *)

Lemma proper_name_part name : proper_name name = true -> plain_part name.
Proof.
  unfold proper_name. rewrite !andb_true_iff, !negb_true_iff. intros [[[H1 H2] H3] H4].
  apply String.eqb_neq in H1, H2, H3. split_and!; try done.
  unfold free_of. clear H1 H2 H3. induction name as [|c s IH]; [done|]. cbn [Contains] in H4.
  apply orb_false_iff in H4 as [Hc Hs]. cbn [sforall]. rewrite IH by done. rewrite andb_true_r. apply negb_true_iff.
  apply Ascii.eqb_neq. intros ->. cbn in Hc. by destruct s.
Qed.

Lemma plain_proper_name name : plain_part name -> proper_name name = true.
Proof.
  intros (H1 & H2 & H3 & Hf). unfold proper_name. change "/" with (str1 slash). rewrite Contains_free by done.
  by rewrite !(proj2 (String.eqb_neq _ _)) by done.
Qed.

Lemma entry_names_In entries name : In name (entry_names entries) <-> is_Some (entries !! name) /\ proper_name name = true.
Proof.
  unfold entry_names. rewrite filter_In. apply and_iff_compat_r.
  rewrite <- list_elem_of_In, sort_strings_Permutation, list_elem_of_fmap. split.
  - intros ([x n] & -> & Hn%elem_of_map_to_list). by exists n.
  - intros [n Hn]. exists (name, n). split; [done|]. by apply elem_of_map_to_list.
Qed.

Lemma listed_entry entries name n : entries !! name = Some n -> plain_part name -> In name (entry_names entries).
Proof. intros Hn Hp. apply entry_names_In. split; [by exists n|by apply plain_proper_name]. Qed.

Lemma entry_names_NoDup entries : NoDup (entry_names entries).
Proof.
  apply NoDup_ListNoDup, List.NoDup_filter, NoDup_ListNoDup. rewrite sort_strings_Permutation. apply NoDup_fst_map_to_list.
Qed.
