(* ===== verification/Stops.v ===== *)
(** Machines that stop: a schedule in which, from some call on, every call
    fails. What such a run leaves is what the calls before the stop did, so a
    property of all stops is proved like an invariant of the run without
    faults: [throughout] says that it holds between any two calls. *)

From S2P Require Import Prelude GoStrings GoText GoPath Store GoFiles.
From stdpp Require Import options.
#[local] Open Scope Z_scope.

Definition all_fail (l : list (option string)) : Prop := Forall (fun f => f <> None) l.

Fixpoint stopping (l : list (option string)) : Prop :=
  match l with
  | [] => True
  | None :: l => stopping l
  | Some _ :: l => all_fail l
  end.

Lemma all_fail_stopping l : all_fail l -> stopping l.
Proof. destruct l as [|[s|] l]; [done|by intros [_ H]%Forall_cons|by intros [H _]%Forall_cons]. Qed.

Lemma stopping_cases f l : stopping (f :: l) -> match f with None => stopping l | Some _ => all_fail l end.
Proof. by destruct f. Qed.

(** The stops of a schedule that covers the whole run. *)
Lemma stop_after n k text : stopping (repeat None n ++ repeat (Some text) k).
Proof. induction n as [|n IH]; [|done]. apply all_fail_stopping, Forall_forall. by intros f ->%list_elem_of_In%repeat_spec. Qed.

Section runs.
Context {T : Type}.

(** A run takes its faults from the head of the schedule, and without a fault it
    is the run under the empty schedule. *)
Definition regular {A} (m : M T A) : Prop := forall w r w', m w = (r, w') ->
  exists l, faults w = l ++ faults w' /\ (Forall (fun f => f = None) l -> m (World (tables w) []) = (r, World (tables w') [])).

(** A machine that has stopped does nothing any more to [view]. *)
Definition frozen {V A} (view : T -> V) (m : M T A) : Prop :=
  forall w r w', m w = (r, w') -> all_fail (faults w) -> faults w' <> [] -> view (tables w') = view (tables w).

Lemma regular_ret {A} (a : A) : regular (ret a).
Proof. intros w r w' [= <- <-]. by exists []. Qed.

Lemma regular_fail {A} e : regular (fail (A := A) e).
Proof. intros w r w' [= <- <-]. by exists []. Qed.

Lemma regular_bind {A B} (m : M T A) (k : A -> M T B) : regular m -> (forall a, regular (k a)) -> regular (bind m k).
Proof.
  intros Hm Hk w r w'. unfold bind. destruct (m w) as [[a|e] w1] eqn:E; apply Hm in E as (l & El & Hl).
  - intros (l' & El' & Hl')%Hk. exists (l ++ l'). split; [by rewrite El, El', app_assoc|].
    intros [H1 H2]%Forall_app. rewrite (Hl H1). auto.
  - intros [= <- <-]. exists l. split; [done|]. intros H. by rewrite (Hl H).
Qed.

Lemma regular_attempt {A} (m : M T A) : regular m -> regular (attempt m).
Proof.
  intros Hm w r w' (done & E & ->)%attempt_run. apply Hm in E as (l & El & Hl). exists l. split; [done|].
  intros H. unfold attempt. by rewrite (Hl H).
Qed.

Lemma regular_ignoring {A} (m : M T A) : regular m -> regular (ignoring m).
Proof. intros Hm. apply regular_bind; [by apply regular_attempt|intros; apply regular_ret]. Qed.

Lemma regular_wrapping {A} text (m : M T A) : regular m -> regular (wrapping text m).
Proof.
  intros Hm w r w'. unfold wrapping. destruct (m w) as [[a|e] w1] eqn:E; apply Hm in E as (l & El & Hl);
    intros [= <- <-]; exists l; (split; [done|]); intros H; by rewrite (Hl H).
Qed.

Lemma regular_statement {A} (f : T -> result (A * T)) : regular (statement f).
Proof.
  intros w r w'. unfold statement, next_fault. destruct (faults w) as [|[s|] fs] eqn:Ef.
  - destruct (f (tables w)) as [[a t]|e] eqn:Et; intros [= <- <-]; exists []; rewrite ?Ef; (split; [done|]); intros _; cbn;
      rewrite ?Et; done.
  - intros [= <- <-]. exists [Some s]. split; [done|]. by intros [[=] _]%Forall_cons.
  - cbn. destruct (f (tables w)) as [[a t]|e] eqn:Et; intros [= <- <-]; exists [None]; (split; [done|]); intros _; rewrite ?Et; done.
Qed.

(** The run between [BEGIN] and [COMMIT], which both consult the schedule. *)
Lemma regular_transaction {A} (m : M T A) : regular m -> regular (transaction m).
Proof.
  intros Hm w r w'. unfold transaction. destruct (next_fault w) as [f w1] eqn:En.
  assert (Hf : exists k, faults w = k ++ faults w1 /\ tables w1 = tables w /\ (Forall (fun f => f = None) k -> f = None)).
  { unfold next_fault in En. destruct (faults w) as [|g fs] eqn:Ef; injection En as <- <-; [by exists []|].
    exists [g]. split_and!; [done..|]. by intros [-> _]%Forall_cons. }
  destruct Hf as (k & Ek & Ht & Hk). destruct f as [s|].
  { intros [= <- <-]. exists k. split; [done|]. intros H. by apply Hk in H. }
  destruct (m w1) as [[a|e] w2] eqn:E; apply Hm in E as (l & El & Hl); rewrite Ht in Hl.
  - destruct (next_fault w2) as [g w3] eqn:En2.
    assert (Hg : exists j, faults w2 = j ++ faults w3 /\ tables w3 = tables w2 /\ (Forall (fun f => f = None) j -> g = None)).
    { unfold next_fault in En2. destruct (faults w2) as [|h fs] eqn:Ef; injection En2 as <- <-; [by exists []|].
      exists [h]. split_and!; [done..|]. by intros [-> _]%Forall_cons. }
    destruct Hg as (j & Ej & Ht2 & Hj). intros Hr. exists (k ++ l ++ j).
    split; [destruct g; injection Hr as <- <-; cbn [faults]; by rewrite Ek, El, Ej, <- !app_assoc|].
    intros [H1 [H2 H3]%Forall_app]%Forall_app. rewrite (Hj H3) in Hr. injection Hr as <- <-.
    cbn [next_fault faults tables]. rewrite (Hl H2). cbn. by rewrite Ht2.
  - intros [= <- <-]. exists (k ++ l). split; [cbn [faults]; by rewrite Ek, El, <- app_assoc|].
    intros [H1 H2]%Forall_app. cbn [next_fault faults tables]. rewrite (Hl H2). cbn. by rewrite Ht.
Qed.

Lemma regular_if {A} (c : bool) (m n : M T A) : regular m -> regular n -> regular (if c then m else n).
Proof. by destruct c. Qed.

(** What consults no schedule. *)
Lemma regular_instant {A} (f : T -> result A * T) :
  regular (fun w => let '(r, t) := f (tables w) in (r, World t (faults w))).
Proof. intros w r w'. destruct (f (tables w)) as [r1 t] eqn:E. intros [= <- <-]. exists []. split; [done|]. intros _. cbn. by rewrite E. Qed.

Lemma regular_more {A} (m : M T A) w r w' : regular m -> m w = (r, w') -> faults w' <> [] -> faults w <> [].
Proof. intros Hm (l & -> & _)%Hm. by destruct l. Qed.

Lemma regular_all_fail {A} (m : M T A) w r w' : regular m -> m w = (r, w') -> all_fail (faults w) -> all_fail (faults w').
Proof. unfold all_fail. intros Hm (l & -> & _)%Hm [_ H]%Forall_app. done. Qed.

Section view.
Context {V : Type} (view : T -> V).

Lemma frozen_ret {A} (a : A) : frozen view (ret a).
Proof. by intros w r w' [= <- <-]. Qed.

Lemma frozen_fail {A} e : frozen view (fail (A := A) e).
Proof. by intros w r w' [= <- <-]. Qed.

Lemma frozen_bind {A B} (m : M T A) (k : A -> M T B) :
  regular m -> (forall a, regular (k a)) -> frozen view m -> (forall a, frozen view (k a)) -> frozen view (bind m k).
Proof.
  intros Cm Ck Hm Hk w r w' E Hf Hl. unfold bind in E. destruct (m w) as [[a|e] w1] eqn:E1.
  - rewrite (Hk a _ _ _ E); [|by eapply regular_all_fail|done].
    eapply Hm; [exact E1|done|]. eapply regular_more; [|exact E|done]. apply Ck.
  - injection E as <- <-. by eapply Hm.
Qed.

Lemma frozen_attempt {A} (m : M T A) : frozen view m -> frozen view (attempt m).
Proof. intros Hm w r w' (done & E & _)%attempt_run. by eapply Hm. Qed.

Lemma frozen_ignoring {A} (m : M T A) : frozen view m -> frozen view (ignoring m).
Proof. intros Hm w r w' (_ & done & E)%ignoring_run. by eapply Hm. Qed.

Lemma frozen_wrapping {A} text (m : M T A) : frozen view m -> frozen view (wrapping text m).
Proof.
  intros Hm w r w'. unfold wrapping. destruct (m w) as [[a|e] w1] eqn:E; intros [= <- <-]; by eapply Hm.
Qed.

Lemma frozen_statement {A} (f : T -> result (A * T)) : frozen view (statement f).
Proof.
  intros w r w' E Hf Hl. unfold statement, next_fault in E. destruct (faults w) as [|[s|] fs] eqn:Ef.
  - destruct (f (tables w)) as [[a t]|e]; injection E as <- <-; [done|]. by rewrite Ef in Hl.
  - by injection E as <- <-.
  - by apply Forall_cons in Hf as [Hf _].
Qed.

Lemma frozen_if {A} (c : bool) (m n : M T A) : frozen view m -> frozen view n -> frozen view (if c then m else n).
Proof. by destruct c. Qed.

(** What cannot touch [view] at all. *)
Lemma frozen_same {A} (m : M T A) : (forall w r w', m w = (r, w') -> view (tables w') = view (tables w)) -> frozen view m.
Proof. intros Hm w r w' E _ _. by eapply Hm. Qed.
End view.
End runs.

Create HintDb stops.
#[export] Hint Resolve regular_ret regular_fail regular_bind regular_attempt regular_ignoring regular_wrapping
  regular_statement regular_transaction regular_if frozen_ret frozen_fail frozen_bind frozen_attempt
  frozen_ignoring frozen_wrapping frozen_statement frozen_if : stops.

(** Both at once. *)
Definition steady {T V A} (view : T -> V) (m : M T A) : Prop := regular m /\ frozen view m.

Section steady.
Context {T V : Type} (view : T -> V).

Lemma steady_ret {A} (a : A) : steady view (ret a).
Proof. split; auto with stops. Qed.

Lemma steady_fail {A} e : steady view (fail (A := A) e).
Proof. split; auto with stops. Qed.

Lemma steady_bind {A B} (m : M T A) (k : A -> M T B) :
  steady view m -> (forall a, steady view (k a)) -> steady view (bind m k).
Proof.
  intros [Rm Fm] Hk. assert (Rk : forall a, regular (k a)) by (intros a; by apply Hk).
  split; [by apply regular_bind|]. apply frozen_bind; [done..|]. intros a. by apply Hk.
Qed.

Lemma steady_attempt {A} (m : M T A) : steady view m -> steady view (attempt m).
Proof. intros [R F]. split; auto with stops. Qed.

Lemma steady_ignoring {A} (m : M T A) : steady view m -> steady view (ignoring m).
Proof. intros [R F]. split; auto with stops. Qed.

Lemma steady_wrapping {A} text (m : M T A) : steady view m -> steady view (wrapping text m).
Proof. intros [R F]. split; auto with stops. Qed.

Lemma steady_statement {A} (f : T -> result (A * T)) : steady view (statement f).
Proof. split; auto with stops. Qed.

Lemma steady_elsewhere {A} (m : M T A) : regular m ->
  (forall w r w', m w = (r, w') -> view (tables w') = view (tables w)) -> steady view m.
Proof. intros R Hv. split; [done|by apply frozen_same]. Qed.
End steady.

(** Operations on a part of the state. *)
Lemma regular_zoom {S T A} (get : T -> S) put (m : M S A) : regular m -> regular (zoom get put m).
Proof.
  intros Hm w r w'. unfold zoom. destruct (m _) as [r1 v] eqn:E. apply Hm in E as (l & El & Hl). intros [= <- <-].
  exists l. split; [done|]. intros H. cbn in *. by rewrite (Hl H).
Qed.

Lemma frozen_zoom {S T V A} (get : T -> S) put (view : T -> V) (part : S -> V) (m : M S A) :
  (forall t, view t = part (get t)) -> (forall s t, view (put s t) = part s) -> frozen part m -> frozen view (zoom get put m).
Proof.
  intros H1 H2 Hm w r w'. unfold zoom. destruct (m _) as [r1 v] eqn:E. intros [= <- <-] Hf Hl. cbn in *.
  rewrite H2, H1. by apply (Hm _ _ _ E).
Qed.
Lemma steady_zoom {S T V A} (get : T -> S) put (view : T -> V) (part : S -> V) (m : M S A) :
  (forall t, view t = part (get t)) -> (forall s t, view (put s t) = part s) -> steady part m ->
  steady view (zoom get put m).
Proof. intros H1 H2 [R F]. split; [by apply regular_zoom|by eapply frozen_zoom]. Qed.

#[export] Hint Resolve regular_zoom steady_ret steady_fail steady_statement : stops.

(** Close [regular] and [steady] goals by the shape of the computation. *)
Ltac orderly :=
  intros;
  repeat (first
    [ progress (eauto 2 with stops)
    | match goal with
      | |- regular (read _) => apply regular_statement
      | |- regular (first _) => apply regular_statement
      | |- regular (attempt _) => apply regular_attempt
      | |- regular (wrapping _ _) => apply regular_wrapping
      | |- regular (ignoring _) => apply regular_ignoring
      | |- regular (bind _ _) => apply regular_bind
      | |- regular (zoom _ _ _) => apply regular_zoom
      | |- regular (match ?x with _ => _ end) => destruct x
      | |- steady _ ctx_Err => apply steady_statement
      | |- steady _ (attempt _) => apply steady_attempt
      | |- steady _ (wrapping _ _) => apply steady_wrapping
      | |- steady _ (ignoring _) => apply steady_ignoring
      | |- steady _ (bind _ _) => apply steady_bind
      | |- steady _ (match ?x with _ => _ end) => destruct x
      end
    | progress intros ]).

(** ** Between any two calls *)

Section throughout.
Context {T V : Type} (view : T -> V).

(** Under a schedule that stops, [m] either runs as without faults or leaves a
    state, as far as [view] goes, of which [I] holds. *)
Definition throughout {A} (I : V -> Prop) (m : M T A) (t : T) : Prop :=
  forall fs r w', stopping fs -> m (World t fs) = (r, w') -> faults w' <> [] ->
    (m (World t []) = (r, World (tables w') []) /\ stopping (faults w'))
    \/ (all_fail (faults w') /\ I (view (tables w'))).

(** Nothing is left over when nothing is consumed. *)
Lemma throughout_ret {A} I (a : A) t : throughout I (ret a) t.
Proof. intros fs r w' Hs [= <- <-] _. by left. Qed.

Lemma throughout_fail {A} I e t : throughout I (fail (A := A) e) t.
Proof. intros fs r w' Hs [= <- <-] _. by left. Qed.

Lemma throughout_statement {A} (I : V -> Prop) (f : T -> result (A * T)) t : I (view t) -> throughout I (statement f) t.
Proof.
  intros Hi fs r w' Hs E Hl. unfold statement, next_fault in *. cbn [tables faults] in *.
  destruct fs as [|[s|] fs]; cbn [tables faults] in *.
  - destruct (f t) as [[a t1]|e]; by injection E as <- <-.
  - right. by injection E as <- <-.
  - left. destruct (f t) as [[a t1]|e]; by injection E as <- <-.
Qed.

Lemma throughout_bind {A B} (I : V -> Prop) (m : M T A) (k : A -> M T B) t :
  (forall a, steady view (k a)) -> throughout I m t ->
  (forall a t1, m (World t []) = (Ok a, World t1 []) -> throughout I (k a) t1) ->
  throughout I (bind m k) t.
Proof.
  intros Sk Hm Hk fs r w' Hs E Hl. unfold bind in *.
  assert (Ck : forall a, regular (k a)) by (intros a; apply Sk).
  assert (Fk : forall a, frozen view (k a)) by (intros a; apply Sk).
  destruct (m (World t fs)) as [[a|e] w1] eqn:E1.
  - assert (Hl1 : faults w1 <> []) by (eapply regular_more; [|exact E|done]; apply Ck).
    destruct (Hm _ _ _ Hs E1 Hl1) as [[E0 Hs1]|[Hf Hi]].
    + rewrite E0. destruct w1 as [t1 fs1]. eapply (Hk _ _ E0); [exact Hs1|exact E|done].
    + right. split; [eapply regular_all_fail; [apply Ck|exact E|done]|]. by rewrite (Fk _ _ _ _ E).
  - injection E as <- <-. destruct (Hm _ _ _ Hs E1 Hl) as [[E0 Hs1]|H]; [left|by right]. by rewrite E0.
Qed.

Lemma throughout_attempt {A} (I : V -> Prop) (m : M T A) t : throughout I m t -> throughout I (attempt m) t.
Proof.
  intros Hm fs r w' Hs (done & E & ->)%attempt_run Hl.
  destruct (Hm _ _ _ Hs E Hl) as [[E0 H]|H]; [left|by right]. unfold attempt. by rewrite E0.
Qed.

Lemma throughout_wrapping {A} (I : V -> Prop) text (m : M T A) t : throughout I m t -> throughout I (wrapping text m) t.
Proof.
  intros Hm fs r w' Hs. unfold wrapping. destruct (m (World t fs)) as [[a|e] w1] eqn:E; intros [= <- <-] Hl;
    (destruct (Hm _ _ _ Hs E Hl) as [[-> H]|H]; [by left|by right]).
Qed.

Lemma throughout_ignoring {A} (I : V -> Prop) (m : M T A) t : throughout I m t -> throughout I (ignoring m) t.
Proof.
  intros Hm. unfold ignoring. apply throughout_bind; [intros; apply steady_ret|by apply throughout_attempt|].
  intros. apply throughout_ret.
Qed.

Lemma throughout_impl {A} (I J : V -> Prop) (m : M T A) t : (forall v, I v -> J v) -> throughout I m t -> throughout J m t.
Proof. intros Hi Hm fs r w' Hs E Hl. destruct (Hm _ _ _ Hs E Hl) as [H|[H1 H2]]; [by left|right; auto]. Qed.

(** What is done elsewhere. *)
Lemma throughout_elsewhere {A} (I : V -> Prop) (m : M T A) t :
  regular m -> (forall w r w', m w = (r, w') -> view (tables w') = view (tables w)) -> I (view t) -> throughout I m t.
Proof.
  intros Hm Hv Hi fs r w' Hs E Hl. assert (E1 := E). apply Hm in E1 as (l & El & Hc). cbn [tables faults] in *.
  assert (Hcases : (Forall (fun f => f = None) l /\ stopping (faults w')) \/ all_fail (faults w')).
  { clear - Hs El. revert fs Hs El. induction l as [|[s|] l IH]; intros fs Hs ->; cbn in Hs.
    - by left.
    - right. by apply Forall_app in Hs as [_ Hs].
    - destruct (IH _ Hs eq_refl) as [[H1 H2]|H]; [left; split; [by constructor|done]|by right]. }
  destruct Hcases as [[H1 H2]|H]; [left; auto|right]. split; [done|]. by rewrite (Hv _ _ _ E).
Qed.

Lemma throughout_instant {A} (I : V -> Prop) (f : T -> result A * T) t :
  throughout I (fun w => let '(r, t) := f (tables w) in (r, World t (faults w))) t.
Proof. intros fs r w' Hs E Hl. left. cbn in *. destruct (f t) as [r1 t1]. by injection E as <- <-. Qed.

Lemma throughout_if {A} (I : V -> Prop) (c : bool) (m n : M T A) t :
  throughout I m t -> throughout I n t -> throughout I (if c then m else n) t.
Proof. by destruct c. Qed.
End throughout.

(** ** Files *)

Abbreviation whole := (fun d : node => d).

Section calls.
Context {V : Type} (view : node -> V).

Lemma steady_Lstat p : steady view (Lstat p). Proof. apply steady_statement. Qed.
Lemma steady_ReadFile p : steady view (ReadFile p). Proof. apply steady_statement. Qed.
Lemma steady_ReadDir p : steady view (ReadDir p). Proof. apply steady_statement. Qed.
Lemma steady_change p f : steady view (change p f). Proof. apply steady_statement. Qed.
Lemma steady_Rename p q : steady view (Rename p q). Proof. apply steady_statement. Qed.
Lemma steady_MkdirAll p mode : steady view (MkdirAll p mode). Proof. apply steady_statement. Qed.
Lemma steady_Sync p : steady view (Sync p). Proof. apply steady_statement. Qed.
End calls.

#[export] Hint Resolve steady_Lstat steady_ReadFile steady_ReadDir steady_Rename steady_MkdirAll steady_Sync : stops.
#[export] Hint Extern 1 (steady _ (CreateExcl _ _)) => apply steady_change : stops.
#[export] Hint Extern 1 (steady _ (Append _ _)) => apply steady_change : stops.
#[export] Hint Extern 1 (steady _ (Chmod _ _)) => apply steady_change : stops.
#[export] Hint Extern 1 (steady _ (Remove _)) => apply steady_change : stops.

Lemma steady_write_and_rename {V} (view : node -> V) path name content mode : steady view (write_and_rename path name content mode).
Proof. unfold write_and_rename. orderly. Qed.
#[export] Hint Resolve steady_write_and_rename : stops.

Lemma steady_write_beside {V} (view : node -> V) path name content mode : steady view (write_beside path name content mode).
Proof. unfold write_beside. orderly. Qed.
#[export] Hint Resolve steady_write_beside : stops.

(** What no call changes holds throughout. *)
Lemma throughout_zoom {S T V A} (get : T -> S) put (view : T -> V) (part : S -> V) (I : V -> Prop) (m : M S A) t :
  (forall s t, view (put s t) = part s) -> throughout part I m (get t) -> throughout view I (zoom get put m) t.
Proof.
  intros Hp Hm fs r w' Hs E Hl. unfold zoom in *. cbn [tables faults] in *.
  destruct (m (World (get t) fs)) as [r1 v] eqn:E1. injection E as <- <-. cbn [tables faults] in *. rewrite Hp.
  destruct (Hm _ _ _ Hs E1 Hl) as [[E0 H]|H]; [left|by right]. by rewrite E0.
Qed.

Section replacing.
Variables (dir : list string) (t q path name : string) (I : node -> Prop).
Hypothesis name_at : parts name = dir ++ [t].
Hypothesis path_at : parts path = dir ++ [q].
Hypothesis distinct : t <> q.
Hypothesis insensitive : forall d d', only_at name d d' -> I d -> I d'.

Lemma throughout_change {A} f (g : unit -> M node A) d : I d -> (forall a, steady whole (g a)) ->
  (forall u d', change name f (World d []) = (Ok u, World d' []) -> I d' -> throughout whole I (g u) d') ->
  throughout whole I (bind (change name f) g) d.
Proof using insensitive.
  intros Hi Hs Hg. apply throughout_bind; [done|by apply throughout_statement|].
  intros u d' E. apply (Hg u d' E). assert (E' := E). apply change_only in E'. by eapply insensitive.
Qed.

(** The file is replaced by one call: before it, and after it. *)
Lemma throughout_write_beside content mode d : I d ->
  (forall d', untouched [name; path] d d' -> at_path path d' = Some (FileNode mode content) ->
     at_path name d' = None -> I d') ->
  throughout whole I (write_beside path name content mode) d.
Proof using All.
  intros Hi Hnew. unfold write_beside, CreateExcl. apply throughout_change; [done|orderly|].
  intros u d1 E1 Hi1. assert (Ho1 := E1). apply change_only in Ho1. apply CreateExcl_Ok in E1 as (_ & H1 & _). cbn [tables] in *.
  apply throughout_bind; [orderly| |].
  - apply throughout_attempt. unfold write_and_rename, Chmod. apply throughout_change; [done|orderly|].
    intros u2 d2 E2 Hi2. assert (Ho2 := E2). apply change_only in Ho2. apply (Chmod_Ok _ _ _ _ _ 384 "") in E2 as H2; [|done].
    unfold Append. apply throughout_change; [done|orderly|].
    intros u3 d3 E3 Hi3. assert (Ho3 := E3). apply change_only in Ho3.
    apply Append_Ok in E3 as (m & b & Hb & H3 & _). cbn [tables] in *. rewrite H2 in Hb. injection Hb as <- <-.
    apply throughout_bind; [orderly|by apply throughout_statement|]. intros u4 d4 E4. apply Sync_run in E4 as [Ht4 _].
    cbn [tables] in Ht4. subst d4. apply throughout_bind; [orderly|by apply throughout_statement|].
    intros u5 d5 E5. apply throughout_statement. apply (Rename_run dir t q) in E5 as (Hu & _ & _ & Hat & Hgone); [|done..].
    cbn [tables] in *. rewrite H3 in Hat. apply Hnew; [|done..]. eapply untouched_trans; [|exact Hu].
    apply (only_untouched name); [set_solver|]. eapply only_at_trans; [exact Ho1|]. by eapply only_at_trans.
  - intros done d2 E2%attempt_Ok.
    assert (Hi2 : I d2).
    { apply (write_and_rename_run dir t q) in E2 as [[Ho2 _]|(Hu & Hn & Hg)]; [by eapply insensitive| |done..].
      apply Hnew; [|done..]. eapply untouched_trans; [|exact Hu]. eapply only_untouched; [|exact Ho1]; set_solver. }
    apply throughout_bind; [orderly|apply throughout_ignoring; by apply throughout_statement|].
    intros u3 d3 E3. destruct done; [apply throughout_ret|apply throughout_fail].
Qed.
End replacing.

(** ** Between any two calls and at the end

    [secure I m t Q]: from [t], every stop of [m] leaves a state of which [I]
    holds, and the run without faults ends in a state of which [Q] holds. *)
Section secure.
Context {T V : Type} (view : T -> V).

Definition secure {A} (I : V -> Prop) (m : M T A) (t : T) (Q : result A -> T -> Prop) : Prop :=
  throughout view I m t /\ forall r w', m (World t []) = (r, w') -> faults w' = [] /\ Q r (tables w').

Lemma secure_ret {A} I (a : A) t (Q : result A -> T -> Prop) : Q (Ok a) t -> secure I (ret a) t Q.
Proof. intros Hq. split; [apply throughout_ret|]. by intros r w' [= <- <-]. Qed.

Lemma secure_fail {A} I e t (Q : result A -> T -> Prop) : Q (Fail e) t -> secure I (fail e) t Q.
Proof. intros Hq. split; [apply throughout_fail|]. by intros r w' [= <- <-]. Qed.

Lemma secure_impl {A} I (m : M T A) t (P Q : result A -> T -> Prop) :
  secure I m t P -> (forall r t', P r t' -> Q r t') -> secure I m t Q.
Proof. intros [Ht Hp] Hpq. split; [done|]. intros r w' E. destruct (Hp _ _ E) as [Hf Hr]. auto. Qed.

Lemma secure_bind {A B} I (m : M T A) (k : A -> M T B) t (Q : result B -> T -> Prop) :
  (forall a, steady view (k a)) ->
  secure I m t (fun r t' => match r with Ok a => secure I (k a) t' Q | Fail e => Q (Fail e) t' end) ->
  secure I (bind m k) t Q.
Proof.
  intros Sk [Ht Hp]. split.
  - apply throughout_bind; [done|done|]. intros a t1 E. apply Hp in E as [_ [H _]]. done.
  - intros r w'. unfold bind. destruct (m (World t [])) as [[a|e] w1] eqn:E1; destruct (Hp _ _ eq_refl) as [Hf Hr].
    + intros E2. destruct w1 as [t1 fs]. cbn [tables faults] in *. subst fs. by apply Hr.
    + by intros [= <- <-].
Qed.

Lemma secure_attempt {A} I (m : M T A) t (Q : result (result A) -> T -> Prop) :
  secure I m t (fun r t' => Q (Ok r) t') -> secure I (attempt m) t Q.
Proof. intros [Ht Hp]. split; [by apply throughout_attempt|]. intros r w' (d & E & ->)%attempt_run. by apply Hp. Qed.

Lemma secure_ignoring {A} I (m : M T A) t (Q : result unit -> T -> Prop) :
  secure I m t (fun _ t' => Q (Ok tt) t') -> secure I (ignoring m) t Q.
Proof. intros [Ht Hp]. split; [by apply throughout_ignoring|]. intros r w' (-> & d & E)%ignoring_run. by eapply Hp. Qed.

Lemma secure_wrapping {A} I text (m : M T A) t (Q : result A -> T -> Prop) :
  secure I m t (fun r t' => match r with Ok a => Q (Ok a) t' | Fail e => Q (Fail (Wrap (text +:+ ": ") e "")) t' end) ->
  secure I (wrapping text m) t Q.
Proof.
  intros [Ht Hp]. split; [by apply throughout_wrapping|]. intros r w'. unfold wrapping.
  destruct (m _) as [[a|e] w1] eqn:E; destruct (Hp _ _ eq_refl); by intros [= <- <-].
Qed.

Lemma secure_statement {A} (I : V -> Prop) (f : T -> result (A * T)) t (Q : result A -> T -> Prop) : I (view t) ->
  match f t with Ok (a, t') => Q (Ok a) t' | Fail e => Q (Fail e) t end -> secure I (statement f) t Q.
Proof.
  intros Hi Hq. split; [by apply throughout_statement|]. intros r w'. unfold statement, next_fault. cbn [faults tables].
  destruct (f t) as [[a t']|e]; by intros [= <- <-].
Qed.

Lemma secure_elsewhere {A} (I : V -> Prop) (m : M T A) t (Q : result A -> T -> Prop) : regular m ->
  (forall w r w', m w = (r, w') -> view (tables w') = view (tables w)) -> I (view t) ->
  (forall r t', view t' = view t -> Q r t') -> secure I m t Q.
Proof.
  intros Hm Hv Hi Hq. split; [by apply throughout_elsewhere|]. intros r w' E. split; [|apply Hq; by apply (Hv _ _ _ E)].
  apply Hm in E as (l & E & _). by destruct l.
Qed.

(** A call that reads, or that runs to its end without faults. *)
Lemma secure_run {A} (I : V -> Prop) (m : M T A) t r t' (Q : result A -> T -> Prop) :
  throughout view I m t -> m (World t []) = (r, World t' []) -> Q r t' -> secure I m t Q.
Proof. intros Ht E Hq. split; [done|]. intros r1 w1 E1. rewrite E in E1. by injection E1 as <- <-. Qed.

Lemma secure_throughout {A} (I : V -> Prop) (m : M T A) t Q : secure I m t Q -> throughout view I m t.
Proof. by intros [H _]. Qed.

(** Every outcome under a schedule that stops. *)
Lemma secure_outcome {A} (I : V -> Prop) (m : M T A) t (Q : result A -> T -> Prop) fs r w' :
  secure I m t Q -> stopping fs -> m (World t fs) = (r, w') -> faults w' <> [] ->
  Q r (tables w') \/ I (view (tables w')).
Proof.
  intros [Ht Hp] Hs E Hl. destruct (Ht _ _ _ Hs E Hl) as [[E0 _]|[_ Hi]]; [left|by right]. by apply Hp in E0 as [_ Hq].
Qed.
End secure.

Lemma secure_zoom {S T V A} (get : T -> S) put (view : T -> V) (part : S -> V) (I : V -> Prop) (m : M S A) t Q :
  (forall s t, view (put s t) = part s) ->
  secure part I m (get t) (fun r s => Q r (put s t)) -> secure view I (zoom get put m) t Q.
Proof.
  intros Hp [Ht Hq]. split; [by eapply throughout_zoom|]. intros r w'. unfold zoom. cbn [tables faults].
  destruct (m _) as [r1 v]. intros [= <- <-]. by destruct (Hq _ _ eq_refl).
Qed.

(** ** What is done without touching [view] *)

Definition elsewhere {T V A} (view : T -> V) (m : M T A) : Prop :=
  regular m /\ forall w r w', m w = (r, w') -> view (tables w') = view (tables w).

Section elsewhere.
Context {T V : Type} (view : T -> V).

Lemma elsewhere_steady {A} (m : M T A) : elsewhere view m -> steady view m.
Proof. intros [R Hv]. by apply steady_elsewhere. Qed.

Lemma elsewhere_secure {A} (I : V -> Prop) (m : M T A) t (Q : result A -> T -> Prop) : elsewhere view m -> I (view t) ->
  (forall r t', view t' = view t -> Q r t') -> secure view I m t Q.
Proof. intros [R Hv]. by apply secure_elsewhere. Qed.

Lemma elsewhere_ret {A} (a : A) : elsewhere view (ret a).
Proof. split; [apply regular_ret|]. by intros w r w' [= <- <-]. Qed.

Lemma elsewhere_fail {A} e : elsewhere view (fail (A := A) e).
Proof. split; [apply regular_fail|]. by intros w r w' [= <- <-]. Qed.

Lemma elsewhere_bind {A B} (m : M T A) (k : A -> M T B) :
  elsewhere view m -> (forall a, elsewhere view (k a)) -> elsewhere view (bind m k).
Proof.
  intros [R1 V1] Hk. split; [apply regular_bind; [done|intros a; apply Hk]|].
  intros w r w'. unfold bind. destruct (m w) as [[a|e] w1] eqn:E.
  - intros E2. apply (Hk a) in E2. rewrite E2. by eapply V1.
  - intros [= <- <-]. by eapply V1.
Qed.

Lemma elsewhere_attempt {A} (m : M T A) : elsewhere view m -> elsewhere view (attempt m).
Proof.
  intros [R1 V1]. split; [by apply regular_attempt|]. intros w r w' (d & E & _)%attempt_run. by eapply V1.
Qed.

Lemma elsewhere_ignoring {A} (m : M T A) : elsewhere view m -> elsewhere view (ignoring m).
Proof. intros Hm. apply elsewhere_bind; [by apply elsewhere_attempt|intros; apply elsewhere_ret]. Qed.

Lemma elsewhere_wrapping {A} text (m : M T A) : elsewhere view m -> elsewhere view (wrapping text m).
Proof.
  intros [R1 V1]. split; [by apply regular_wrapping|]. intros w r w'. unfold wrapping.
  destruct (m w) as [[a|e] w1] eqn:E; intros [= <- <-]; by eapply V1.
Qed.

Lemma elsewhere_check : elsewhere view (statement (fun t => Ok (tt, t))).
Proof.
  split; [apply regular_statement|]. intros w r w'. unfold statement, next_fault.
  destruct (faults w) as [|[s|] fs]; by intros [= <- <-].
Qed.

(** What consults no schedule. *)
Lemma elsewhere_instant {A} (f : T -> result A * T) : (forall t, view (f t).2 = view t) ->
  elsewhere view (fun w => let '(r, t) := f (tables w) in (r, World t (faults w))).
Proof.
  intros Hf. split; [apply regular_instant|]. intros w r w'. specialize (Hf (tables w)).
  destruct (f (tables w)) as [r1 t]. by intros [= <- <-].
Qed.

Lemma elsewhere_zoom {S A} (get : T -> S) put (m : M S A) : (forall s t, view (put s t) = view t) -> regular m ->
  elsewhere view (zoom get put m).
Proof.
  intros Hp R. split; [by apply regular_zoom|]. intros w r w'. unfold zoom. destruct (m _) as [r1 v].
  intros [= <- <-]. apply Hp.
Qed.
End elsewhere.

#[export] Hint Resolve elsewhere_ret elsewhere_fail elsewhere_check : stops.
#[export] Hint Resolve elsewhere_steady : stops.

(** Close [elsewhere] goals by the shape of the computation. *)
Ltac apart_from_view :=
  intros;
  repeat (first
    [ progress (eauto 2 with stops)
    | match goal with
      | |- elsewhere _ ctx_Err => apply elsewhere_check
      | |- elsewhere _ (attempt _) => apply elsewhere_attempt
      | |- elsewhere _ (wrapping _ _) => apply elsewhere_wrapping
      | |- elsewhere _ (ignoring _) => apply elsewhere_ignoring
      | |- elsewhere _ (bind _ _) => apply elsewhere_bind
      | |- elsewhere _ (match ?x with _ => _ end) => destruct x
      end
    | progress intros ]).
