(* ===== verification/GoRoot.v ===== *)
(** [os.Root]: system calls below a directory that paths cannot leave.

    The state is the tree of that directory. A name is resolved element by
    element from it; a symbolic link on the way, and for most calls a final one,
    is followed, but neither a link nor a [..] leads out of the tree. An open
    file is the place that its name was resolved to. The limit on the total
    number of elements of one walk is left out. *)

From stdpp Require Import gmap strings sorting options.
From S2P Require Import Prelude GoStrings GoText GoPath Store GoFiles.
#[local] Open Scope Z_scope.

(** What the process and the host add to a call: the file mode creation mask,
    the mount that a directory is on, and the size that a directory shows. *)
Class Machine := {
  umask : Z;
  mount_of : list string -> Z;
  directory_size : Z
}.

Definition EXDEV : string := "invalid cross-device link".
Definition already_there {A} : result A := Fail (Sentinel ErrExist).
Definition path_escapes {A} : result A := Fail (ErrorString "path escapes from parent").

Definition is_exist (e : error) : bool := errors_Is e ErrExist.

(** ** Names *)

(** POSIX's least limit on symbolic links. *)
Definition rootMaxSymlinks : nat := 8.

(** The elements that lead anywhere. *)
Definition elements (s : string) : list string :=
  List.filter (fun p => negb (String.eqb p "") && negb (String.eqb p ".")) (Split s slash).

Definition splitPathInRoot (s : string) : result (list string) :=
  if String.eqb s "" then Fail (ErrorString "empty path")
  else if HasPrefix s "/" then path_escapes
  else Ok (elements s).

(** The place that the elements [todo] lead to from the directory [at_]; a last
    element need not exist. *)
Fixpoint resolve (links : nat) (follow : bool) (tree : node) : list string -> list string -> result (list string) :=
  fix walk (at_ todo : list string) {struct todo} : result (list string) :=
    match todo with
    | [] => Ok at_
    | p :: rest =>
        if String.eqb p ".." then
          match at_ with
          | [] => path_escapes
          | _ => walk (removelast at_) rest
          end
        else
          let here := at_ ++ [p] in
          let last := bool_decide (rest = []) in
          match node_at here tree with
          | Some (LinkNode target) =>
              if last && negb follow then Ok here
              else
                match links with
                | O => Fail (ErrorString "too many levels of symbolic links")
                | S links =>
                    match splitPathInRoot target with
                    | Ok more => resolve links follow tree at_ (more ++ rest)
                    | Fail err => Fail err
                    end
                end
          | Some (DirNode _ _) => walk here rest
          | Some (FileNode _ _) => if last then Ok here else bad_call "not a directory"
          | None => if last then Ok here else no_entry
          end
    end.

Definition locate (follow : bool) (name : string) (tree : node) : result (list string) :=
  match splitPathInRoot name with
  | Ok todo => resolve rootMaxSymlinks follow tree [] todo
  | Fail err => Fail err
  end.

(** ** Calls by name *)

Abbreviation handle := (list string).

(** One system call on the place of a name. *)
Definition at_name {A} (follow : bool) (name : string) (f : handle -> node -> result (A * node)) : M node A :=
  statement (fun tree => match locate follow name tree with Ok l => f l tree | Fail err => Fail err end).

(** Change the entry at a place when [f] allows what is there. *)
Definition alter_place {A} (a : A) (f : option node -> result (option node)) (l : handle) (tree : node)
    : result (A * node) :=
  match f (node_at l tree) with
  | Fail err => Fail err
  | Ok v => match alter_at l (fun _ => v) tree with Some tree => Ok (a, tree) | None => no_entry end
  end.

Definition look {A} (f : node -> result A) (l : handle) (tree : node) : result (A * node) :=
  match node_at l tree with
  | Some n => match f n with Ok a => Ok (a, tree) | Fail err => Fail err end
  | None => no_entry
  end.

Section calls.
Context `{!Machine}.

(** A new file or directory without the bits of the mask. *)
Definition masked (mode : Z) : Z := Z.ldiff mode umask.

Definition info_size (n : node) : Z :=
  match n with FileNode _ content => len content | LinkNode target => len target | DirNode _ _ => directory_size end.

Definition IsLink (n : node) : bool := match n with LinkNode _ => true | _ => false end.

Definition Root_Lstat (name : string) : M node node := at_name false name (look (fun n => Ok n)).
Definition Root_Stat (name : string) : M node node := at_name true name (look (fun n => Ok n)).

(** [Open]: a file or a directory, for reading. *)
Definition Root_Open (name : string) : M node handle := at_name true name (fun l => look (fun _ => Ok l) l).

Record open_flags := mkFlags { O_CREATE : bool; O_EXCL : bool; O_WRITE : bool; O_TRUNC : bool }.
Definition O_RDONLY : open_flags := mkFlags false false false false.
Definition O_RDWR : open_flags := mkFlags false false true false.
Definition O_NEW : open_flags := mkFlags true true true false.

(** With [O_EXCL] nothing may be there, not even a link. *)
Definition Root_OpenFile (name : string) (flags : open_flags) (mode : Z) : M node handle :=
  let exclusive := O_CREATE flags && O_EXCL flags in
  at_name (negb exclusive) name (fun l tree =>
    match node_at l tree with
    | Some n =>
        if exclusive then already_there
        else
          match n with
          | DirNode _ _ => if O_WRITE flags then bad_call "is a directory" else Ok (l, tree)
          | FileNode mode _ =>
              if O_TRUNC flags && O_WRITE flags then alter_place l (fun _ => Ok (Some (FileNode mode ""))) l tree
              else Ok (l, tree)
          | LinkNode _ => bad_call "too many levels of symbolic links"
          end
    | None => if O_CREATE flags then alter_place l (fun _ => Ok (Some (FileNode (masked mode) ""))) l tree else no_entry
    end).

Definition Root_Mkdir (name : string) (mode : Z) : M node unit :=
  at_name false name (alter_place tt (fun old =>
    match old with Some _ => already_there | None => Ok (Some (DirNode (masked mode) ∅)) end)).

(** A file, a link or an empty directory. *)
Definition Root_Remove (name : string) : M node unit :=
  at_name false name (alter_place tt (fun old =>
    match old with
    | None => no_entry
    | Some (DirNode _ entries) => if bool_decide (entries = ∅) then Ok None else bad_call "directory not empty"
    | Some _ => Ok None
    end)).

(** ** Calls on open files *)

Definition File_Stat (h : handle) : M node node := statement (look (fun n => Ok n) h).

Definition File_ReadDir (h : handle) : M node (list (string * node)) :=
  statement (look (fun n => match n with
    | DirNode _ entries =>
        Ok (omap (fun name => match entries !! name with Some n => Some (name, n) | None => None end) (entry_names entries))
    | _ => bad_call "not a directory"
    end) h).

Definition File_Read (h : handle) : M node string :=
  statement (look (fun n => match n with FileNode _ content => Ok content | _ => bad_call "is a directory" end) h).

Definition on_file (h : handle) (f : Z -> string -> node) : M node unit :=
  statement (alter_place tt (fun old => match old with
    | Some (FileNode mode content) => Ok (Some (f mode content))
    | _ => bad_call "bad file descriptor"
    end) h).

Definition File_Truncate (h : handle) : M node unit := on_file h (fun mode _ => FileNode mode "").

(** A write at the end. *)
Definition File_Write (h : handle) (content : string) : M node unit :=
  on_file h (fun mode before => FileNode mode (before +:+ content)).

Definition File_Chmod (h : handle) (mode : Z) : M node unit :=
  statement (alter_place tt (fun old => match old with
    | Some (FileNode _ content) => Ok (Some (FileNode mode content))
    | Some (DirNode _ entries) => Ok (Some (DirNode mode entries))
    | _ => bad_call "bad file descriptor"
    end) h).

Definition File_Sync (h : handle) : M node unit := statement (fun tree => Ok (tt, tree)).

(** [renameat2] with [RENAME_NOREPLACE]. *)
Definition renameExclusive (sourceParent : handle) (sourceName : string) (targetParent : handle) (targetName : string)
    : M node unit :=
  statement (fun tree =>
    let source := sourceParent ++ [sourceName] in
    let target := targetParent ++ [targetName] in
    if negb (mount_of sourceParent =? mount_of targetParent) then Fail (Sentinel EXDEV)
    else
      match node_at source tree, node_at target tree with
      | None, _ => no_entry
      | _, Some _ => already_there
      | Some n, None =>
          if starts_with target source then bad_call "invalid argument"
          else
            match alter_at target (fun _ => Some n) tree with
            | None => no_entry
            | Some tree =>
                match alter_at source (fun _ => None) tree with Some tree => Ok (tt, tree) | None => no_entry end
            end
      end).

Definition readlinkAt (parent : handle) (name : string) : M node string :=
  statement (look (fun n => match n with LinkNode target => Ok target | _ => bad_call "invalid argument" end)
    (parent ++ [name])).

Definition symlinkAt (target : string) (parent : handle) (name : string) : M node unit :=
  statement (alter_place tt (fun old => match old with None => Ok (Some (LinkNode target)) | Some _ => already_there end)
    (parent ++ [name])).
End calls.

(** ** Trees *)

(** The levels below a node. *)
Fixpoint depth (n : node) : nat :=
  match n with
  | DirNode _ entries => S (map_fold (fun _ child k => Nat.max (depth child) k) O entries)
  | _ => O
  end.

(** A bound on what recursion over the tree needs. *)
Definition tree_depth : M node nat := fun w => (Ok (S (depth (tables w))), w).
