(* ===== verification/RootTrees.v ===== *)
(** Trees below an [os.Root] by their labels, and what the calls of [GoRoot] do
    to them.

    The label of a place is what is there without what is below it, so that a
    call changes the labels of few places and those of the directories above
    stay. [leads] states what a computation leads to, for every schedule of
    faults or for the run without faults: one proof serves both. *)

From stdpp Require Import gmap strings sorting options.
From S2P Require Import Prelude GoStrings GoText GoPath Store GoFiles GoRoot.
#[local] Open Scope Z_scope.

(** ** Relative paths *)

(** The relative path of plain elements. *)
Definition rel (l : list string) : string := path_of false l.

Lemma Join_plain p l : plain_part p -> Join (p :: l) "/" <> "".
Proof. intros (Hp & _). cbn. by destruct l, p. Qed.

Lemma rel_cons p l : plain_part p -> rel (p :: l) = Join (p :: l) "/".
Proof. intros Hp. unfold rel, path_of. by rewrite (proj2 (String.eqb_neq _ _)) by (by apply Join_plain). Qed.

Lemma Split_rel l : l <> [] -> Forall plain_part l -> Split (rel l) slash = l.
Proof.
  intros Hn Hl. destruct Hl as [|p l Hp Hl]; [done|]. rewrite rel_cons by done.
  apply Split_Join; [done|]. apply plain_parts_free. by constructor.
Qed.

Lemma plain_not_abs p s : plain_part p -> IsAbs (p +:+ s) = false.
Proof.
  intros (Hp & _ & _ & Hf). destruct p as [|c p]; [done|]. unfold free_of in Hf. cbn [sforall] in Hf.
  apply andb_true_iff in Hf as [Hc _]. apply negb_true_iff, Ascii.eqb_neq in Hc.
  change (String c p +:+ s) with (String c (p +:+ s)). unfold IsAbs, HasPrefix.
  cbn [String.prefix]. destruct (ascii_dec "/" c) as [<-|]; [done|]. done.
Qed.

Lemma rel_not_abs l : Forall plain_part l -> IsAbs (rel l) = false.
Proof.
  intros [|p k Hp Hk]; [done|]. rewrite rel_cons by done. cbn. destruct k as [|q k].
  - rewrite <- (sapp_nil_r p). by apply plain_not_abs.
  - by apply plain_not_abs.
Qed.

Lemma rel_not_empty l : Forall plain_part l -> rel l <> "".
Proof. intros [|p k Hp Hk]; [done|]. rewrite rel_cons by done. by apply Join_plain. Qed.

Lemma elements_plain l : Forall plain_part l ->
  List.filter (fun p => negb (String.eqb p "") && negb (String.eqb p ".")) l = l.
Proof.
  induction 1 as [|p l (H1 & H2 & _) Hl IH]; [done|]. cbn.
  by rewrite (proj2 (String.eqb_neq p "")), (proj2 (String.eqb_neq p ".")), IH by done.
Qed.

Lemma splitPathInRoot_rel l : Forall plain_part l -> splitPathInRoot (rel l) = Ok l.
Proof.
  intros Hl. unfold splitPathInRoot. rewrite (proj2 (String.eqb_neq _ _)) by (by apply rel_not_empty).
  change (HasPrefix (rel l) "/") with (IsAbs (rel l)). rewrite rel_not_abs by done. f_equal. unfold elements.
  destruct l as [|p l]; [done|]. rewrite Split_rel by done. by apply elements_plain.
Qed.

Lemma parts_rel l : Forall plain_part l -> l <> [] -> parts (rel l) = l.
Proof.
  intros Hl Hn. unfold parts. rewrite rel_not_abs, Split_rel, clean_plain by done.
  by rewrite app_nil_r, rev_involutive.
Qed.

Lemma Clean_rel l : Forall plain_part l -> Clean (rel l) = rel l.
Proof.
  intros Hl. destruct l as [|p l]; [done|]. unfold Clean. rewrite rel_not_abs, parts_rel by done. done.
Qed.

Lemma rel_snoc l p : l <> [] -> Forall plain_part (l ++ [p]) -> rel (l ++ [p]) = rel l +:+ "/" +:+ p.
Proof.
  intros Hn Hl. destruct l as [|q l]; [done|]. change ((q :: l) ++ [p]) with (q :: (l ++ [p])) in *.
  apply Forall_cons in Hl as [Hq Hl]. rewrite !rel_cons by done. by apply (Join_snoc (q :: l)).
Qed.

Lemma plain_snoc l p : Forall plain_part l -> plain_part p -> Forall plain_part (l ++ [p]).
Proof. intros Hl Hp. apply Forall_app. split; [done|]. by constructor. Qed.

Lemma PathJoin_rel l p : Forall plain_part l -> plain_part p -> PathJoin [rel l; p] = rel (l ++ [p]).
Proof.
  intros Hl Hp. cbn [PathJoin]. rewrite (proj2 (String.eqb_neq _ _)) by (by apply rel_not_empty).
  destruct l as [|q l].
  - change (Join [rel []; p] "/") with ("." +:+ "/" +:+ p). unfold Clean.
    change (IsAbs ("." +:+ "/" +:+ p)) with false. unfold parts. change (IsAbs ("." +:+ "/" +:+ p)) with false.
    rewrite Split_slash_app, clean_stack_app. change (clean_stack false (Split "." slash) []) with (@nil string).
    rewrite Split_free by apply Hp. by rewrite clean_plain by (by constructor).
  - change (Join [rel (q :: l); p] "/") with (rel (q :: l) +:+ "/" +:+ p). rewrite <- rel_snoc by (try apply plain_snoc; done).
    apply Clean_rel. by apply plain_snoc.
Qed.

Lemma Base_rel l p : Forall plain_part l -> plain_part p -> Base (rel (l ++ [p])) = p.
Proof.
  intros Hl (Hp & H2 & H3 & Hf). unfold Base. assert (Hlp : Forall plain_part (l ++ [p])) by (by apply plain_snoc).
  rewrite (proj2 (String.eqb_neq _ _)) by (by apply rel_not_empty). destruct l as [|q l].
  - cbn [app] in *. rewrite rel_cons by done. cbn [Join]. rewrite trim_slashes_free by done.
    destruct p as [|c p]; [done|]. by rewrite split_last_free.
  - rewrite rel_snoc by done. set (a := rel (q :: l)). replace (a +:+ "/" +:+ p) with ((a +:+ "/") +:+ p) by apply sapp_assoc.
    rewrite trim_slashes_app, trim_slashes_free by (rewrite ?trim_slashes_free; done). rewrite sapp_assoc.
    assert (Hs := split_last_app a p Hf). destruct (a +:+ "/" +:+ p) as [|c s] eqn:E; [by destruct a|]. by rewrite Hs.
Qed.

Lemma clean_slashed r l : Forall plain_part l -> clean_stack r (l ++ [""]) [] = rev l.
Proof. intros Hl. rewrite clean_stack_app, (clean_plain _ l), app_nil_r by done. done. Qed.

Lemma Dir_rel l p : Forall plain_part l -> plain_part p -> Dir (rel (l ++ [p])) = rel l.
Proof.
  intros Hl Hp. assert (Hf : free_of slash p) by apply Hp. unfold Dir. destruct l as [|q l].
  - cbn [app]. rewrite rel_cons by done. cbn [Join]. rewrite split_last_free by done. done.
  - rewrite rel_snoc, split_last_app by (try apply plain_snoc; done). cbn [fst]. unfold Clean.
    assert (Hq : plain_part q) by (by apply Forall_cons in Hl as [? _]).
    assert (Ha : IsAbs (rel (q :: l) +:+ "/") = false).
    { rewrite rel_cons by done. cbn [Join]. destruct l; rewrite ?sapp_assoc; by apply plain_not_abs. }
    unfold parts. rewrite Ha. replace (rel (q :: l) +:+ "/") with (rel (q :: l) +:+ "/" +:+ "") by done.
    rewrite Split_slash_app, Split_rel by done. change (Split "" slash) with [""]. rewrite clean_slashed by done.
    by rewrite rev_involutive.
Qed.

(** ** Texts around an ASCII byte *)

Definition high_byte (c : ascii) : bool := 128 <=? byte_of c.

Lemma canonical_bytes t : canonical t -> (exists c, tok_raw t = str1 c) \/ sforall high_byte (tok_raw t) = true.
Proof.
  intros (_ & Hv & ->). unfold valid_rune in Hv. rewrite orb_true_iff, !andb_true_iff, !Z.leb_le, ?Z.ltb_lt in Hv.
  unfold encode_rune. repeat case_match; [left; by eexists|right..]; bool_props; unfold high_byte, RuneError;
    cbn [sforall str1]; rewrite ?andb_true_iff, ?Z.leb_le; split_and?; try done;
    rewrite byte_of_byte; Z.div_mod_to_equations; lia.
Qed.

Lemma append_byte x y a c b f : x +:+ y = a +:+ String c b -> sforall f x = true -> f c = false ->
  exists a', a = x +:+ a' /\ y = a' +:+ String c b.
Proof.
  revert a. induction x as [|d x IH]; intros a E Hx Hc; [by exists a|]. cbn [sforall] in Hx.
  apply andb_true_iff in Hx as [Hd Hx]. destruct a as [|d' a]; [injection E as -> _; congruence|].
  injection E as <- E. destruct (IH a E Hx Hc) as (a' & -> & Ey). by exists a'.
Qed.

Lemma canonical_before ts a c b : Forall canonical ts -> raw_of ts = a +:+ String c b -> byte_of c < 128 ->
  exists n, raw_of (take n ts) = a.
Proof.
  intros Hts. revert a. induction Hts as [|t ts Ht Hts IH]; intros a E Hc; [by destruct a|].
  destruct a as [|d a]; [by exists O|]. change (raw_of (t :: ts)) with (tok_raw t +:+ raw_of ts) in E.
  assert (Hs : exists a', String d a = tok_raw t +:+ a' /\ raw_of ts = a' +:+ String c b).
  { destruct (canonical_bytes t Ht) as [[c' Et]|Hb].
    - rewrite Et in *. injection E as -> E. by exists a.
    - eapply append_byte; [exact E|exact Hb|]. apply Z.leb_gt. lia. }
  destruct Hs as (a' & Ea & Er). destruct (IH a' Er Hc) as [n Hn]. exists (S n). cbn [take].
  change (raw_of (t :: take n ts)) with (tok_raw t +:+ raw_of (take n ts)). by rewrite Hn, Ea.
Qed.

Lemma valid_before a c b : byte_of c < 128 -> valid_utf8 (a +:+ String c b) = true -> valid_utf8 a = true.
Proof.
  intros Hc Hv. apply valid_utf8_canonical in Hv.
  destruct (canonical_before _ a c b Hv) as [n Hn]; [apply raw_tokens|done|].
  apply valid_utf8_canonical. rewrite <- Hn, tokens_take. by apply Forall_take.
Qed.

Lemma valid_app a b : valid_utf8 a = true -> valid_utf8 b = true -> valid_utf8 (a +:+ b) = true.
Proof.
  intros Ha%valid_utf8_canonical Hb%valid_utf8_canonical. apply valid_utf8_canonical.
  rewrite <- (raw_tokens a), tokens_raw_canonical by done. by apply Forall_app.
Qed.

Lemma sapp_inj (a x y : string) : a +:+ x = a +:+ y -> x = y.
Proof. induction a as [|c a IH]; [done|]. intros E. injection E as E. by apply IH. Qed.

Lemma valid_after a c b : byte_of c < 128 -> valid_utf8 (a +:+ String c b) = true -> valid_utf8 b = true.
Proof.
  intros Hc Hv%valid_utf8_canonical. destruct (canonical_before _ a c b Hv) as [n Hn]; [apply raw_tokens|done|].
  assert (Ed : raw_of (drop n (tokens (a +:+ String c b))) = String c b).
  { assert (E := raw_of_split n (tokens (a +:+ String c b))). rewrite raw_tokens, Hn in E. by apply sapp_inj in E. }
  apply valid_utf8_canonical. assert (Et := tokens_drop n (a +:+ String c b)). rewrite Ed, tokens_ascii in Et by done.
  apply (Forall_drop _ n) in Hv. rewrite <- Et in Hv. by apply Forall_cons in Hv as [_ ?].
Qed.

(** The directory of a place, and another entry of it. *)
Lemma valid_rel_above l p : Forall plain_part (l ++ [p]) -> valid_utf8 (rel (l ++ [p])) = true -> valid_utf8 (rel l) = true.
Proof.
  intros Hl Hv. destruct l as [|q l]; [done|]. rewrite rel_snoc in Hv by done. eapply valid_before; [|exact Hv]. done.
Qed.

Lemma valid_rel_last l p : Forall plain_part (l ++ [p]) -> valid_utf8 (rel (l ++ [p])) = true -> valid_utf8 p = true.
Proof.
  intros Hl Hv. destruct l as [|q l].
  - change ([] ++ [p]) with [p] in *. apply Forall_cons in Hl as [Hp _]. by rewrite rel_cons in Hv.
  - rewrite rel_snoc in Hv by done. eapply valid_after; [|exact Hv]. done.
Qed.

Lemma valid_rel_beside l p : Forall plain_part (l ++ [p]) -> valid_utf8 (rel l) = true -> valid_utf8 p = true ->
  valid_utf8 (rel (l ++ [p])) = true.
Proof.
  intros Hl Hv Hp. destruct l as [|q l].
  - change ([] ++ [p]) with [p] in *. apply Forall_cons in Hl as [Hp' _]. by rewrite rel_cons.
  - rewrite rel_snoc by done. apply valid_app; [done|]. apply (valid_app "/"); done.
Qed.

(** ** Labels *)

Inductive label := LFile (mode : Z) (content : string) | LDir (mode : Z) | LLink (target : string).

Definition label_of (n : node) : label :=
  match n with
  | FileNode mode content => LFile mode content
  | DirNode mode _ => LDir mode
  | LinkNode target => LLink target
  end.

Definition label_at (k : list string) (t : node) : option label := label_of <$> node_at k t.

Definition dir_at (k : list string) (t : node) : Prop := exists mode, label_at k t = Some (LDir mode).

Definition is_dir (lab : label) : bool := match lab with LDir _ => true | _ => false end.

Lemma label_node k t lab : label_at k t = Some lab -> exists n, node_at k t = Some n /\ label_of n = lab.
Proof. unfold label_at. destruct (node_at k t) as [n|]; [|done]. intros [= <-]. by exists n. Qed.

Lemma label_none k t : label_at k t = None <-> node_at k t = None.
Proof. unfold label_at. by destruct (node_at k t). Qed.

Lemma dir_node k t : dir_at k t <-> exists mode entries, node_at k t = Some (DirNode mode entries).
Proof.
  split.
  - intros (m & (n & Hn & E)%label_node). destruct n; try done. eauto.
  - intros (m & e & E). exists m. unfold label_at. by rewrite E.
Qed.

Lemma label_app k j t : label_at (k ++ j) t = match node_at k t with Some n => label_at j n | None => None end.
Proof. unfold label_at. rewrite node_at_app. by destruct (node_at k t). Qed.

(** What is above an entry is a directory. *)
Lemma label_above k p j t lab : label_at (k ++ p :: j) t = Some lab -> dir_at k t.
Proof.
  rewrite label_app. destruct (node_at k t) as [n|] eqn:E; [|done]. intros H. apply dir_node.
  destruct n as [| mode entries |]; try done. eauto.
Qed.

Lemma no_label_below k j t : label_at k t = None -> label_at (k ++ j) t = None.
Proof. rewrite label_none, label_app. by intros ->. Qed.

Lemma leaf_below k p j t : ~ dir_at k t -> label_at (k ++ p :: j) t = None.
Proof. intros H. destruct (label_at _ t) eqn:E; [|done]. by apply label_above in E. Qed.

(** The rest of [k] after [l]. *)
Fixpoint strip (l k : list string) : option (list string) :=
  match l, k with
  | [], _ => Some k
  | p :: l, q :: k => if String.eqb p q then strip l k else None
  | _, [] => None
  end.

Lemma strip_app l j : strip l (l ++ j) = Some j.
Proof. induction l as [|p l IH]; [done|]. cbn. by rewrite String.eqb_refl. Qed.

Lemma strip_Some l k j : strip l k = Some j -> k = l ++ j.
Proof.
  revert k. induction l as [|p l IH]; intros k; [by intros [= ->]|]. destruct k as [|q k]; [done|]. cbn.
  destruct (String.eqb_spec p q) as [->|]; [|done]. by intros ->%IH.
Qed.

Lemma strip_None l k : strip l k = None <-> starts_with k l = false.
Proof.
  split.
  - intros H. apply not_true_is_false. intros [j ->]%starts_with_iff. by rewrite strip_app in H.
  - intros H. destruct (strip l k) as [j|] eqn:E; [|done]. apply strip_Some in E as ->. by rewrite starts_with_app in H.
Qed.

Lemma strip_cases l k : (exists j, k = l ++ j) \/ strip l k = None.
Proof. destruct (strip l k) as [j|] eqn:E; [left; exists j; by apply strip_Some|by right]. Qed.

(** Of two prefixes of one path, one starts with the other. *)
Lemma strip_both l k i j : l ++ i = k ++ j -> strip l k = None -> strip k l = None -> False.
Proof.
  revert k. induction l as [|p l IH]; intros k E H1 H2; [by destruct k|].
  destruct k as [|q k]; [done|]. injection E as <- E. cbn in H1, H2. rewrite String.eqb_refl in H1, H2. by apply (IH k).
Qed.

(** The tree with [v] at [l]. *)
Lemma alter_at_labels l v t t' k : l <> [] -> alter_at l (fun _ => v) t = Some t' ->
  label_at k t' = match strip l k with Some j => match v with Some n => label_at j n | None => None end | None => label_at k t end.
Proof.
  intros Hl E. destruct (strip_cases l k) as [[j ->]|Hs].
  - rewrite strip_app, label_app. by erewrite node_at_alter by done.
  - rewrite Hs. clear Hl. revert k t t' E Hs. induction l as [|p l IH]; intros k t t' E Hs; [done|]. cbn [alter_at] in E.
    destruct l as [|p' l].
    + destruct t as [|mode entries|]; try done. injection E as <-. destruct k as [|q k]; [done|]. cbn in Hs.
      destruct (String.eqb_spec p q) as [->|Hne]; [done|]. unfold label_at. cbn [node_at].
      by rewrite lookup_partial_alter_ne.
    + destruct t as [|mode entries|]; try done. destruct (entries !! p) as [child|] eqn:Ec; [|done].
      destruct (alter_at (p' :: l) _ child) as [child'|] eqn:Ea; [|done]. injection E as <-.
      destruct k as [|q k]; [done|]. change (strip (p :: p' :: l) (q :: k)) with (if String.eqb p q then strip (p' :: l) k else None) in Hs.
      unfold label_at. cbn [node_at]. destruct (String.eqb_spec p q) as [->|Hne].
      * rewrite lookup_insert_eq, Ec. by apply (IH k child).
      * by rewrite lookup_insert_ne.
Qed.

Lemma alter_at_dir_iff l p f t : is_Some (alter_at (l ++ [p]) f t) <-> dir_at l t.
Proof.
  rewrite dir_node. split.
  - intros [t' E]. by apply alter_at_dir in E.
  - revert t. induction l as [|q l IH]; intros t (mode & entries & E).
    + injection E as ->. by eexists.
    + cbn [node_at] in E. destruct t as [|m e|]; try done. destruct (e !! q) as [child|] eqn:Ec; [|done].
      destruct (IH child) as [c Hc]; [by eauto|]. cbn [app alter_at]. destruct (l ++ [p]) eqn:El; [by destruct l|].
      rewrite Ec, Hc. by eexists.
Qed.

(** ** Trees without links *)

(** Names as a system gives them, a directory at the root, and no links. *)
Record sound (t : node) : Prop := {
  sound_root : dir_at [] t;
  sound_names : forall k lab, label_at k t = Some lab -> Forall plain_part k;
  sound_links : forall k target, label_at k t <> Some (LLink target)
}.

Lemma sound_label t k lab : sound t -> label_at k t = Some lab ->
  (exists mode content, lab = LFile mode content) \/ exists mode, lab = LDir mode.
Proof. intros Hs E. destruct lab; eauto. by apply (sound_links t Hs) in E. Qed.

Lemma sound_change t t' : sound t ->
  (forall k, label_at k t' = label_at k t \/ label_at k t' = None /\ k <> [] \/
     Forall plain_part k /\ k <> [] /\ forall target, label_at k t' <> Some (LLink target)) -> sound t'.
Proof.
  intros Hs Hc. constructor.
  - destruct (sound_root t Hs) as [m Hm]. exists m. destruct (Hc []) as [->|[[_ H]|(_ & H & _)]]; done.
  - intros k lab E. destruct (Hc k) as [E'|[[E' _]|(H & _)]]; [|congruence|done].
    rewrite E' in E. by eapply sound_names.
  - intros k target E. destruct (Hc k) as [E'|[[E' _]|(_ & _ & H)]]; [|congruence|by eapply H].
    rewrite E' in E. by eapply sound_links.
Qed.

(** The place of a name: where its directory is one, itself. *)
Lemma resolve_sound links follow t at_ todo : sound t ->
  Forall plain_part (at_ ++ todo) -> dir_at at_ t ->
  (exists e, resolve links follow t at_ todo = Fail e /\ label_at (at_ ++ todo) t = None
     /\ ~ dir_at (removelast (at_ ++ todo)) t) \/
  (resolve links follow t at_ todo = Ok (at_ ++ todo) /\ (todo = [] \/ dir_at (removelast (at_ ++ todo)) t)).
Proof.
  intros Hs. revert at_. induction todo as [|p todo IH]; intros at_ Hp Hd.
  - right. rewrite app_nil_r. split; [by destruct links|by left].
  - assert (Hpp : plain_part p) by (apply Forall_app in Hp as [_ Hp]; by apply Forall_cons in Hp as [? _]).
    assert (Eq : at_ ++ p :: todo = (at_ ++ [p]) ++ todo) by (by rewrite <- app_assoc).
    assert (Hstep : resolve links follow t at_ (p :: todo) =
      match node_at (at_ ++ [p]) t with
      | Some (DirNode _ _) => resolve links follow t (at_ ++ [p]) todo
      | Some (FileNode _ _) => if bool_decide (todo = []) then Ok (at_ ++ [p]) else bad_call "not a directory"
      | _ => if bool_decide (todo = []) then Ok (at_ ++ [p]) else no_entry
      end).
    { destruct Hpp as (_ & _ & Hdots & _). destruct links; cbn [resolve]; rewrite (proj2 (String.eqb_neq _ _)) by done;
        destruct (node_at (at_ ++ [p]) t) as [[| |target]|] eqn:E; try done; exfalso;
        apply (sound_links t Hs (at_ ++ [p]) target); unfold label_at; by rewrite E. }
    rewrite Hstep. rewrite Eq in *.
    destruct (node_at (at_ ++ [p]) t) as [n|] eqn:En.
    + destruct n as [mode content|mode entries|target].
      * assert (Hnd : ~ dir_at (at_ ++ [p]) t).
        { intros (m & e & E)%dir_node. congruence. }
        destruct todo as [|q todo]; [right|left]; cbn.
        -- rewrite app_nil_r, removelast_last. split; [done|by right].
        -- eexists. split_and!; [done|by apply leaf_below|]. intros Hd'. destruct (exists_last (l := q :: todo)) as (l & x & El); [done|].
           rewrite El, app_assoc, removelast_last in Hd'. destruct l as [|y l]; [by rewrite app_nil_r in Hd'|].
           destruct Hd' as [m E]. rewrite leaf_below in E; done.
      * assert (Hdir : dir_at (at_ ++ [p]) t) by (apply dir_node; eauto).
        destruct (IH (at_ ++ [p])) as [H|(E & Hr)]; [done..|by left|right]. split; [done|].
        destruct Hr as [->|Hr]; [|by right]. right. by rewrite app_nil_r, removelast_last.
      * exfalso. apply (sound_links t Hs (at_ ++ [p]) target). unfold label_at. by rewrite En.
    + assert (Hno : label_at (at_ ++ [p]) t = None) by (by apply label_none).
      destruct todo as [|q todo]; [right|left]; cbn.
      * rewrite app_nil_r, removelast_last. split; [done|by right].
      * eexists. split_and!; [done|by apply no_label_below|]. intros Hd'. destruct (exists_last (l := q :: todo)) as (l & x & El); [done|].
        rewrite El, app_assoc, removelast_last in Hd'. destruct Hd' as [m E]. rewrite no_label_below in E; done.
Qed.

Lemma locate_sound follow t l : sound t -> Forall plain_part l ->
  (exists e, locate follow (rel l) t = Fail e /\ label_at l t = None /\ ~ dir_at (removelast l) t) \/
  (locate follow (rel l) t = Ok l /\ dir_at (removelast l) t).
Proof.
  intros Hs Hl. unfold locate. rewrite splitPathInRoot_rel by done.
  destruct (resolve_sound rootMaxSymlinks follow t [] l Hs Hl (sound_root t Hs)) as [H|[E Hd]]; [by left|right].
  split; [done|]. destruct Hd as [->|Hd]; [by apply sound_root|done].
Qed.

Lemma locate_in follow t l : sound t -> Forall plain_part l -> dir_at (removelast l) t -> locate follow (rel l) t = Ok l.
Proof. intros Hs Hl Hd. by destruct (locate_sound follow t l Hs Hl) as [(e & _ & _ & H)|[E _]]. Qed.

(** ** What a computation leads to *)

(** From [t], under every schedule of faults, or, when [q], without faults. *)
Definition leads {T A} (q : bool) (m : M T A) (t : T) (Q : result A -> T -> Prop) : Prop :=
  forall fs r w', (q = true -> fs = []) -> m (World t fs) = (r, w') ->
    (q = true -> faults w' = []) /\ Q r (tables w').

(** A call may fail by the schedule. *)
Definition fault_free {T A} (q : bool) (t : T) (Q : result A -> T -> Prop) : Prop :=
  q = false -> forall text, Q (Fail (ErrorString text)) t.

Section leads.
Context {T : Type} (q : bool).

Lemma leads_ret {A} (a : A) t (Q : result A -> T -> Prop) : Q (Ok a) t -> leads q (ret a) t Q.
Proof. intros H fs r w' Hf [= <- <-]. done. Qed.

Lemma leads_fail {A} e t (Q : result A -> T -> Prop) : Q (Fail e) t -> leads q (fail e) t Q.
Proof. intros H fs r w' Hf [= <- <-]. done. Qed.

Lemma leads_mono {A} (m : M T A) t (P Q : result A -> T -> Prop) :
  leads q m t P -> (forall r t', P r t' -> Q r t') -> leads q m t Q.
Proof. intros Hm Hpq fs r w' Hf E. destruct (Hm fs r w' Hf E) as [H1 H2]. auto. Qed.

Lemma leads_bind {A B} (m : M T A) (k : A -> M T B) t (Q : result B -> T -> Prop) :
  leads q m t (fun r t' => match r with Ok a => leads q (k a) t' Q | Fail e => Q (Fail e) t' end) ->
  leads q (bind m k) t Q.
Proof.
  intros Hm fs r w' Hf. unfold bind. destruct (m (World t fs)) as [[a|e] w1] eqn:E;
    destruct (Hm _ _ _ Hf E) as [H1 H2].
  - destruct w1 as [t1 fs1]. intros Ek. by apply (H2 fs1 r w').
  - by intros [= <- <-].
Qed.

Lemma leads_attempt {A} (m : M T A) t (Q : result (result A) -> T -> Prop) :
  leads q m t (fun r t' => Q (Ok r) t') -> leads q (attempt m) t Q.
Proof.
  intros Hm fs r w' Hf. unfold attempt. destruct (m (World t fs)) as [r1 w1] eqn:E. intros [= <- <-]. by eapply Hm.
Qed.

Lemma leads_ignoring {A} (m : M T A) t (Q : result unit -> T -> Prop) :
  leads q m t (fun _ t' => Q (Ok tt) t') -> leads q (ignoring m) t Q.
Proof. intros Hm. apply leads_bind, leads_attempt. eapply leads_mono; [exact Hm|]. intros r t' H. by apply leads_ret. Qed.

Lemma leads_wrapping {A} text (m : M T A) t (Q : result A -> T -> Prop) :
  leads q m t (fun r t' => match r with Ok a => Q (Ok a) t' | Fail e => Q (Fail (Wrap (text +:+ ": ") e "")) t' end) ->
  leads q (wrapping text m) t Q.
Proof.
  intros Hm fs r w' Hf. unfold wrapping. destruct (m (World t fs)) as [[a|e] w1] eqn:E;
    destruct (Hm _ _ _ Hf E) as [H1 H2]; by intros [= <- <-].
Qed.

Lemma leads_statement {A} (f : T -> result (A * T)) t (Q : result A -> T -> Prop) : fault_free q t Q ->
  match f t with Ok (a, t') => Q (Ok a) t' | Fail e => Q (Fail e) t end -> leads q (statement f) t Q.
Proof.
  intros Hq Hf fs r w' Hn. unfold statement, next_fault. cbn [faults tables]. destruct fs as [|[s|] fs].
  - cbn [tables faults]. destruct (f t) as [[a t']|e]; intros [= <- <-]; done.
  - intros [= <- <-]. destruct q; [by specialize (Hn eq_refl)|]. split; [done|]. by apply Hq.
  - cbn. destruct q; [by specialize (Hn eq_refl)|]. destruct (f t) as [[a t']|e]; intros [= <- <-]; done.
Qed.

Lemma leads_clean {A} (m : M T A) t (Q : result A -> T -> Prop) : leads true m t Q ->
  exists r t', m (World t []) = (r, World t' []) /\ Q r t'.
Proof.
  intros Hm. destruct (m (World t [])) as [r [t' fs]] eqn:E. destruct (Hm [] r _ (fun _ => eq_refl) E) as [Hf Hq].
  cbn in Hf. rewrite Hf in * by done. by exists r, t'.
Qed.

Lemma leads_any {A} (m : M T A) t (Q : result A -> T -> Prop) w r w' : leads false m t Q ->
  m w = (r, w') -> tables w = t -> Q r (tables w').
Proof. intros Hm E <-. destruct w as [t fs]. by apply (Hm fs r w'). Qed.
End leads.

Lemma leads_if {T A} q (c : bool) (m n : M T A) t Q :
  (c = true -> leads q m t Q) -> (c = false -> leads q n t Q) -> leads q (if c then m else n) t Q.
Proof. destruct c; auto. Qed.

(** ** The calls on trees without links *)

(** [t'] is [t] with the label [v] at [l]. *)
Definition relabelled (l : list string) (v : option label) (t t' : node) : Prop :=
  forall k, label_at k t' = if decide (k = l) then v else label_at k t.

Lemma relabelled_at l v t t' : relabelled l v t t' -> label_at l t' = v.
Proof. intros H. rewrite (H l). by rewrite decide_True. Qed.

Lemma relabelled_other l v t t' k : relabelled l v t t' -> k <> l -> label_at k t' = label_at k t.
Proof. intros H Hk. rewrite (H k). by rewrite decide_False. Qed.

Lemma relabelled_sound l v t t' : relabelled l v t t' -> sound t -> l <> [] -> Forall plain_part l ->
  (forall target, v <> Some (LLink target)) -> sound t'.
Proof.
  intros H Hs Hn Hl Hv. apply (sound_change t); [done|]. intros k. rewrite (H k).
  destruct (decide (k = l)) as [->|]; [right; right|left]; done.
Qed.

Lemma relabelled_dir l mode t t' k : relabelled l (Some (LDir mode)) t t' -> dir_at k t -> dir_at k t'.
Proof. intros H [m Hm]. unfold dir_at. rewrite (H k). destruct (decide _); eauto. Qed.

Lemma alter_relabels l v t t' : alter_at l (fun _ => v) t = Some t' ->
  (forall p j, match v with Some n => label_at (p :: j) n | None => None end = label_at (l ++ p :: j) t) ->
  relabelled l (label_of <$> v) t t' /\ l <> [].
Proof.
  intros E Hv. assert (Hl : l <> []) by (by intros ->). split; [|done]. intros k.
  rewrite (alter_at_labels l v t t' k Hl E). destruct (strip_cases l k) as [[j ->]|Hs].
  - rewrite strip_app. destruct j as [|p j].
    + rewrite app_nil_r, decide_True by done. by destruct v.
    + rewrite decide_False; [apply Hv|]. intros H. apply (f_equal List.length) in H. rewrite length_app in H. cbn in H. lia.
  - rewrite Hs, decide_False; [done|]. intros ->. rewrite <- (app_nil_r l) in Hs at 2. by rewrite strip_app in Hs.
Qed.

Lemma node_leaf n p j : is_dir (label_of n) = false -> label_at (p :: j) n = None.
Proof. by destruct n. Qed.

Lemma not_dir_at l t n : node_at l t = Some n -> is_dir (label_of n) = false -> ~ dir_at l t.
Proof. intros E Hn (m & e & E')%dir_node. rewrite E in E'. by injection E' as ->. Qed.

Lemma label_at_node l t n : node_at l t = Some n -> label_at l t = Some (label_of n).
Proof. intros E. unfold label_at. by rewrite E. Qed.

Section calls.
Context `{!Machine} (q : bool).
Implicit Types (l : list string) (t : node).

Lemma leads_at_name {A} follow l (f : handle -> node -> result (A * node)) t Q : sound t -> Forall plain_part l ->
  fault_free q t Q ->
  (dir_at (removelast l) t -> match f l t with Ok (a, t') => Q (Ok a) t' | Fail e => Q (Fail e) t end) ->
  (label_at l t = None -> ~ dir_at (removelast l) t -> forall e, Q (Fail e) t) ->
  leads q (at_name follow (rel l) f) t Q.
Proof using Type.
  intros Hs Hl Hq Hf Hn. apply leads_statement; [done|].
  destruct (locate_sound follow t l Hs Hl) as [(e & -> & A1 & A2)|[-> Hloc]]; [by apply Hn|by apply Hf].
Qed.

(** A name that is not there, where its directory is. *)
Definition absent l t (Q : error -> Prop) : Prop :=
  label_at l t = None -> forall e, (dir_at (removelast l) t -> is_not_exist e = true) -> Q e.

Lemma leads_Lstat l t Q : sound t -> Forall plain_part l -> fault_free q t Q ->
  (forall n, node_at l t = Some n -> Q (Ok n) t) -> absent l t (fun e => Q (Fail e) t) -> leads q (Root_Lstat (rel l)) t Q.
Proof using Type.
  intros Hs Hl Hq Hok Hno. unfold Root_Lstat. apply leads_at_name; [done..| |].
  - intros Hd. unfold look. destruct (node_at l t) as [n|] eqn:E; [by apply Hok|]. apply Hno; [by apply label_none|done].
  - intros A1 A2 e. apply Hno; [done|]. done.
Qed.

Lemma leads_Stat l t Q : sound t -> Forall plain_part l -> fault_free q t Q ->
  (forall n, node_at l t = Some n -> Q (Ok n) t) -> absent l t (fun e => Q (Fail e) t) -> leads q (Root_Stat (rel l)) t Q.
Proof using Type.
  intros Hs Hl Hq Hok Hno. unfold Root_Stat. apply leads_at_name; [done..| |].
  - intros Hd. unfold look. destruct (node_at l t) as [n|] eqn:E; [by apply Hok|]. apply Hno; [by apply label_none|done].
  - intros A1 A2 e. apply Hno; [done|]. done.
Qed.

Lemma leads_Open l t Q : sound t -> Forall plain_part l -> fault_free q t Q ->
  (forall n, node_at l t = Some n -> Q (Ok l) t) -> absent l t (fun e => Q (Fail e) t) -> leads q (Root_Open (rel l)) t Q.
Proof using Type.
  intros Hs Hl Hq Hok Hno. unfold Root_Open. apply leads_at_name; [done..| |].
  - intros Hd. unfold look. destruct (node_at l t) as [n|] eqn:E; [by eapply Hok|]. apply Hno; [by apply label_none|done].
  - intros A1 A2 e. apply Hno; [done|]. done.
Qed.

(** An entry that is made. *)
Lemma make_place {A} l (a : A) n t (Q : result A -> node -> Prop) :
  dir_at (removelast l) t -> label_at l t = None -> (forall p j, label_at (p :: j) n = None) ->
  (forall t', relabelled l (Some (label_of n)) t t' -> l <> [] -> Q (Ok a) t') ->
  forall f, f (node_at l t) = Ok (Some n) ->
  match alter_place a f l t with Ok (a, t') => Q (Ok a) t' | Fail e => Q (Fail e) t end.
Proof using Type.
  intros Hd Hn Hb Hok f Hf. unfold alter_place. rewrite Hf.
  assert (Hl : l <> []) by (intros ->; done). destruct (exists_last Hl) as (d & p & ->). rewrite removelast_last in Hd.
  apply (alter_at_dir_iff d p (fun _ => Some n)) in Hd as [t' E]. rewrite E.
  apply alter_relabels in E as [Hr _]; [by apply Hok|]. intros x j. rewrite Hb. symmetry. by apply no_label_below.
Qed.

Lemma leads_Mkdir l mode t Q : sound t -> Forall plain_part l -> fault_free q t Q ->
  (forall t', label_at l t = None -> relabelled l (Some (LDir (masked mode))) t t' -> l <> [] -> Q (Ok tt) t') ->
  (forall e, label_at l t <> None -> is_exist e = true -> Q (Fail e) t) ->
  (forall e, label_at l t = None -> ~ dir_at (removelast l) t -> Q (Fail e) t) ->
  leads q (Root_Mkdir (rel l) mode) t Q.
Proof using Type.
  intros Hs Hl Hq Hok Hthere Hno. unfold Root_Mkdir. apply leads_at_name; [done..| |by intros; apply Hno].
  intros Hd. destruct (node_at l t) as [n|] eqn:E.
  - unfold alter_place. rewrite E. apply Hthere; [by rewrite (label_at_node _ _ _ E)|done].
  - assert (Hn : label_at l t = None) by (by apply label_none).
    apply (make_place l tt (DirNode (masked mode) ∅)); [done..| | |by rewrite E].
    + intros p j. unfold label_at. cbn [node_at]. by rewrite lookup_empty.
    + intros t' A A'. by apply Hok.
Qed.

Lemma leads_OpenNew l mode t Q : sound t -> Forall plain_part l -> fault_free q t Q ->
  (forall t', label_at l t = None -> relabelled l (Some (LFile (masked mode) "")) t t' -> l <> [] -> Q (Ok l) t') ->
  (forall e, label_at l t <> None -> is_exist e = true -> Q (Fail e) t) ->
  (forall e, label_at l t = None -> ~ dir_at (removelast l) t -> Q (Fail e) t) ->
  leads q (Root_OpenFile (rel l) O_NEW mode) t Q.
Proof using Type.
  intros Hs Hl Hq Hok Hthere Hno. unfold Root_OpenFile. apply leads_at_name; [done..| |by intros; apply Hno].
  intros Hd. destruct (node_at l t) as [n|] eqn:E.
  - cbn [O_NEW O_CREATE O_EXCL andb]. apply Hthere; [by rewrite (label_at_node _ _ _ E)|done].
  - assert (Hn : label_at l t = None) by (by apply label_none).
    cbn [O_NEW O_CREATE O_EXCL andb]. apply (make_place l l (FileNode (masked mode) "")); [done..| |done].
    intros t' A A'. by apply Hok.
Qed.

(** An existing entry, opened to be written. *)
Lemma leads_OpenOld l mode t Q : sound t -> Forall plain_part l -> fault_free q t Q ->
  (forall m c, node_at l t = Some (FileNode m c) -> Q (Ok l) t) -> (forall e, ~ (exists m c, label_at l t = Some (LFile m c)) -> Q (Fail e) t) ->
  leads q (Root_OpenFile (rel l) O_RDWR mode) t Q.
Proof using Type.
  intros Hs Hl Hq Hok Hno. unfold Root_OpenFile. apply leads_at_name; [done..| |].
  - intros Hd. destruct (node_at l t) as [n|] eqn:E; cbn [O_RDWR O_CREATE O_EXCL O_WRITE O_TRUNC andb].
    + destruct n as [m c|m e|target]; [by eapply Hok|..]; apply Hno; intros (m' & c' & E'); rewrite (label_at_node _ _ _ E) in E'; done.
    + apply Hno. intros (m' & c' & E'). rewrite (proj2 (label_none l t)) in E'; done.
  - intros A1 A2 e. apply Hno. intros (m & c & E). congruence.
Qed.

Lemma leads_Remove l t Q : sound t -> Forall plain_part l -> l <> [] -> fault_free q t Q ->
  (forall t', label_at l t <> None -> (forall p j, label_at (l ++ p :: j) t = None) -> relabelled l None t t' -> Q (Ok tt) t') ->
  absent l t (fun e => Q (Fail e) t) ->
  (forall e, is_not_exist e = false -> (exists p, label_at (l ++ [p]) t <> None) -> Q (Fail e) t) ->
  leads q (Root_Remove (rel l)) t Q.
Proof using Type.
  intros Hs Hl Hn Hq Hok Hno Hfull. unfold Root_Remove. apply leads_at_name; [done..| |by intros; apply Hno].
  intros Hd. destruct (exists_last Hn) as (d & x & El).
  assert (Hput : exists t', alter_at l (fun _ => None) t = Some t').
  { rewrite El in *. rewrite removelast_last in Hd. by apply alter_at_dir_iff. }
  destruct Hput as [t' Et]. unfold alter_place. destruct (node_at l t) as [n|] eqn:E; [|apply Hno; [by apply label_none|done]].
  assert (Hlab := label_at_node _ _ _ E).
  assert (Hgone : (forall p j, label_at (l ++ p :: j) t = None) -> Q (Ok tt) t').
  { intros Hleaf. apply Hok; [by rewrite Hlab|done|]. apply alter_relabels in Et as [Hr _]; [done|]. intros p j. by rewrite Hleaf. }
  destruct n as [m c|m entries|target]; rewrite ?Et.
  - apply Hgone. intros p j. apply leaf_below. by eapply not_dir_at.
  - case_bool_decide as Eb; [rewrite Et; apply Hgone|].
    + intros p j. rewrite label_app, E, Eb. unfold label_at. cbn [node_at]. by rewrite lookup_empty.
    + apply Hfull; [done|]. apply map_choose in Eb as (p & n & Ep). exists p. rewrite label_app, E.
      unfold label_at. cbn [node_at]. by rewrite Ep.
  - apply Hgone. intros p j. apply leaf_below. by eapply not_dir_at.
Qed.
End calls.

(** ** The calls on open files *)

(** The entries of the directory at [l], each once. *)
Definition lists (l : list string) (t : node) (entries : list (string * node)) : Prop :=
  NoDup (map fst entries) /\ forall p, p ∈ map fst entries <-> label_at (l ++ [p]) t <> None.

Lemma entries_fst (entries : gmap string node) names : (forall x, In x names -> is_Some (entries !! x)) ->
  map fst (omap (fun name => match entries !! name with Some n => Some (name, n) | None => None end) names) = names.
Proof.
  induction names as [|x names IH]; intros Hin; [done|]. destruct (Hin x) as [n E]; [by left|].
  change (omap ?f (x :: names)) with (match f x with Some b => b :: omap f names | None => omap f names end). cbn beta.
  rewrite E. cbn. f_equal. apply IH. intros y Hy. apply Hin. by right.
Qed.

(** Where the source was, the target is: the names below come along. *)
Definition relocated (source target : list string) (t t' : node) : Prop :=
  forall k, label_at k t' =
    match strip target k with
    | Some j => label_at (source ++ j) t
    | None => match strip source k with Some _ => None | None => label_at k t end
    end.

Section handles.
Context `{!Machine} (q : bool).
Implicit Types (l : list string) (t : node).

Lemma leads_look {A} (f : node -> result A) l t Q : fault_free q t Q ->
  (forall n, node_at l t = Some n -> match f n with Ok a => Q (Ok a) t | Fail e => Q (Fail e) t end) ->
  (label_at l t = None -> forall e, is_not_exist e = true -> Q (Fail e) t) ->
  leads q (statement (look f l)) t Q.
Proof using Type.
  intros Hq Hf Hn. apply leads_statement; [done|]. unfold look. destruct (node_at l t) as [n|] eqn:E.
  - specialize (Hf n eq_refl). by destruct (f n).
  - apply Hn; [by apply label_none|done].
Qed.

Lemma leads_File_Stat l n t Q : node_at l t = Some n -> fault_free q t Q -> Q (Ok n) t -> leads q (File_Stat l) t Q.
Proof using Type.
  intros Hn Hq Hok. apply leads_look; [done| |]; [by intros n'; rewrite Hn; intros [= <-]|].
  intros E. apply label_none in E. congruence.
Qed.

Lemma leads_File_ReadDir l t Q : sound t -> dir_at l t -> fault_free q t Q ->
  (forall entries, lists l t entries -> Q (Ok entries) t) -> leads q (File_ReadDir l) t Q.
Proof using Type.
  intros Hs (m & es & Hn)%dir_node Hq Hok. apply leads_look; [done| |].
  2:{ intros E. apply label_none in E. congruence. }
  intros n. rewrite Hn. intros [= <-]. apply Hok.
  assert (Hlab : forall p, label_at (l ++ [p]) t = match es !! p with Some n => Some (label_of n) | None => None end).
  { intros p. rewrite label_app, Hn. unfold label_at. cbn. by destruct (es !! p). }
  split.
  - rewrite entries_fst; [apply entry_names_NoDup|]. by intros x [Hx _]%entry_names_In.
  - intros p. rewrite entries_fst by (by intros x [Hx _]%entry_names_In). rewrite list_elem_of_In, entry_names_In, Hlab. split.
    + by intros [[n ->] _].
    + intros Hp. destruct (es !! p) as [n|] eqn:E; [|done]. split; [by exists n|]. apply plain_proper_name.
      assert (Hl : Forall plain_part (l ++ [p])) by (eapply (sound_names t Hs); by rewrite Hlab, E).
      apply Forall_app in Hl as [_ Hl]. by apply Forall_cons in Hl as [? _].
Qed.

Lemma leads_File_Read l m c t Q : label_at l t = Some (LFile m c) -> fault_free q t Q -> Q (Ok c) t -> leads q (File_Read l) t Q.
Proof using Type.
  intros (n & Hn & E)%label_node Hq Hok. destruct n as [m' c'| |]; try done. injection E as -> ->.
  apply leads_look; [done| |]; [by intros n'; rewrite Hn; intros [= <-]|]. intros E%label_none. congruence.
Qed.

Lemma leads_on_file l f m c t Q : label_at l t = Some (LFile m c) -> l <> [] -> fault_free q t Q ->
  (forall m c, exists m' c', f m c = FileNode m' c') ->
  (forall t', relabelled l (Some (label_of (f m c))) t t' -> Q (Ok tt) t') -> leads q (on_file l f) t Q.
Proof using Type.
  intros Hlab Hl Hq Hf Hok. apply leads_statement; [done|]. unfold alter_place.
  destruct (label_node _ _ _ Hlab) as (n & Hn & E). rewrite Hn. destruct n as [m' c'| |]; try done. injection E as -> ->.
  destruct (alter_at_some l (fun _ => Some (f m c)) t _ Hl Hn) as [t' Et]. rewrite Et.
  apply alter_relabels in Et as [Hr _]; [by apply Hok|]. intros p j. destruct (Hf m c) as (m' & c' & ->).
  symmetry. apply leaf_below. by eapply not_dir_at.
Qed.

Lemma leads_File_Write l m c s t Q : label_at l t = Some (LFile m c) -> l <> [] -> fault_free q t Q ->
  (forall t', relabelled l (Some (LFile m (c +:+ s))) t t' -> Q (Ok tt) t') -> leads q (File_Write l s) t Q.
Proof using Type. intros Hlab Hl Hq Hok. eapply leads_on_file; eauto. Qed.

Lemma leads_File_Truncate l m c t Q : label_at l t = Some (LFile m c) -> l <> [] -> fault_free q t Q ->
  (forall t', relabelled l (Some (LFile m "")) t t' -> Q (Ok tt) t') -> leads q (File_Truncate l) t Q.
Proof using Type. intros Hlab Hl Hq Hok. eapply leads_on_file; eauto. Qed.

Lemma leads_File_Sync l t Q : fault_free q t Q -> Q (Ok tt) t -> leads q (File_Sync l) t Q.
Proof using Type. intros Hq Hok. by apply leads_statement. Qed.

Definition with_mode (mode : Z) (lab : label) : label :=
  match lab with LFile _ c => LFile mode c | LDir _ => LDir mode | LLink _ => lab end.

Lemma leads_File_Chmod l lab mode t Q : sound t -> label_at l t = Some lab -> l <> [] -> fault_free q t Q ->
  (forall t', relabelled l (Some (with_mode mode lab)) t t' -> Q (Ok tt) t') -> leads q (File_Chmod l mode) t Q.
Proof using Type.
  intros Hs Hlab Hl Hq Hok. apply leads_statement; [done|]. unfold alter_place.
  destruct (label_node _ _ _ Hlab) as (n & Hn & E). rewrite Hn. subst lab.
  destruct n as [m c|m es|target]; [| |by apply (sound_links t Hs) in Hlab].
  - destruct (alter_at_some l (fun _ => Some (FileNode mode c)) t _ Hl Hn) as [t' Et]. rewrite Et.
    apply alter_relabels in Et as [Hr _]; [by apply Hok|]. intros p j. symmetry. apply leaf_below. by eapply not_dir_at.
  - destruct (alter_at_some l (fun _ => Some (DirNode mode es)) t _ Hl Hn) as [t' Et]. rewrite Et.
    apply alter_relabels in Et as [Hr _]; [by apply Hok|]. intros p j. by rewrite label_app, Hn.
Qed.

(** A rename moves everything, or does nothing. *)
Lemma leads_rename s sn d dn t Q : fault_free q t Q -> dir_at d t ->
  (forall t', mount_of s = mount_of d -> label_at (s ++ [sn]) t <> None -> label_at (d ++ [dn]) t = None ->
     strip (s ++ [sn]) (d ++ [dn]) = None -> relocated (s ++ [sn]) (d ++ [dn]) t t' -> Q (Ok tt) t') ->
  (forall e, errors_Is e EXDEV = true -> mount_of s <> mount_of d -> Q (Fail e) t) ->
  (forall e, errors_Is e EXDEV = false -> mount_of s = mount_of d ->
     label_at (s ++ [sn]) t = None \/ label_at (d ++ [dn]) t <> None \/ strip (s ++ [sn]) (d ++ [dn]) <> None -> Q (Fail e) t) ->
  leads q (renameExclusive s sn d dn) t Q.
Proof using Type.
  intros Hq Hd Hok Hdev Hno. apply leads_statement; [done|]. cbv zeta.
  destruct (Z.eqb_spec (mount_of s) (mount_of d)) as [Em|Em]; [|by apply Hdev]. cbn [negb].
  set (src := s ++ [sn]) in *. set (dst := d ++ [dn]) in *.
  destruct (node_at src t) as [n|] eqn:Es; [|apply Hno; [done..|left; by apply label_none]].
  destruct (node_at dst t) as [n'|] eqn:Et.
  { apply Hno; [done..|]. right. left. by rewrite (label_at_node _ _ _ Et). }
  destruct (starts_with dst src) eqn:Ew.
  { apply Hno; [done..|]. right. right. intros H0%strip_None. congruence. }
  apply strip_None in Ew.
  apply (alter_at_dir_iff d dn (fun _ => Some n)) in Hd as [t1 E1]. fold dst in E1. rewrite E1.
  assert (Hnd : dst <> []) by (unfold dst; by destruct d). assert (Hns : src <> []) by (unfold src; by destruct s).
  assert (L1 := fun k => alter_at_labels dst (Some n) t t1 k Hnd E1).
  assert (Hsd : strip dst src = None).
  { apply strip_None. apply not_true_is_false. intros [j Ej]%starts_with_iff. assert (E : label_at src t = None).
    { rewrite Ej. apply no_label_below. by apply label_none. }
    rewrite label_none in E. congruence. }
  assert (Hd1 : exists v, node_at src t1 = Some v).
  { specialize (L1 src). rewrite Hsd in L1. apply label_at_node in Es. rewrite Es in L1. apply label_node in L1 as (v & Hv & _). by exists v. }
  destruct Hd1 as [v Hv]. destruct (alter_at_some src (fun _ => None) t1 v Hns Hv) as [t2 E2]. rewrite E2.
  apply Hok; [done|by rewrite (label_at_node _ _ _ Es)|by apply label_none|done|].
  intros k. rewrite (alter_at_labels src None t1 t2 k Hns E2). rewrite L1.
  destruct (strip_cases src k) as [[j ->]|Hk].
  - rewrite strip_app. destruct (strip dst (src ++ j)) as [i|] eqn:Ei; [|done]. apply strip_Some in Ei.
    by eapply strip_both in Ei.
  - rewrite Hk. destruct (strip dst k) as [j|] eqn:Ej; [|done]. rewrite label_app. by rewrite Es.
Qed.
End handles.
