(* ===== verification/AuditTrail.v ===== *)
(** The operation audit ([internal/services/audit/manager.go] and
    [integrity.go]): an HMAC chain of events in the table [audit_events], a
    signed retention checkpoint and a signed chain head.

    [audit_events] has a unique index on [sequence]; the table is the list of
    its rows in index order, so that [ORDER BY sequence] is the list itself. *)

From S2P Require Import Prelude GoStrings GoText GoCrypto GoJson Store.
From stdpp Require Import options.

Definition ChainVersion : Z := 1.
Definition genesisHash : string :=
  "0000000000000000000000000000000000000000000000000000000000000000".

(** [models.AuditEvent]. *)
Record AuditEvent := mkAuditEvent {
  ID : Z; Sequence : Z; RequestID : string; EventType : string; Action : string;
  Method : string; Route : string; Path : string; Status : Z; Outcome : string;
  Sensitive : bool; UserID : Z; Username : string; AuthMode : string;
  RemoteIP : string; UserAgent : string; ContentLength : Z; DurationMS : Z;
  Message : string; CreatedAt : time; PreviousHash : string; EntryHash : string;
  EventChainVersion : Z
}.

(** [models.AuditCheckpoint] and [models.AuditChainState]; the code reads and
    writes the row with primary key 1 only. *)
Record AuditCheckpoint := mkAuditCheckpoint {
  ThroughSequence : Z; ThroughEntryHash : string; CheckpointSignature : string;
  CheckpointUpdatedAt : time
}.

Record AuditChainState := mkAuditChainState {
  StateLastSequence : Z; StateLastEntryHash : string; StateSignature : string;
  StateUpdatedAt : time
}.

Record AuditTables := mkAuditTables {
  audit_events : list AuditEvent;
  audit_checkpoint : option AuditCheckpoint;
  audit_chain_state : option AuditChainState
}.

Record Manager := mkManager { manager_key : list Z }.

Record EventInput := mkEventInput {
  in_RequestID : string; in_EventType : string; in_Action : string; in_Method : string;
  in_Route : string; in_Path : string; in_Status : Z; in_Outcome : string;
  in_Sensitive : bool; in_UserID : Z; in_Username : string; in_AuthMode : string;
  in_RemoteIP : string; in_UserAgent : string; in_ContentLength : Z; in_DurationMS : Z;
  in_Message : string; in_CreatedAt : time
}.

Record VerificationResult := mkVerificationResult {
  Valid : bool; CheckedEntries : Z; CheckpointSequence : Z; FirstSequence : Z;
  LastSequence : Z; InvalidSequence : Z; VerificationMessage : string
}.

Record CleanupResult := mkCleanupResult {
  DeletedEntries : Z; CleanupCheckpointSequence : Z; CleanupCheckpointEntryHash : string;
  RetentionCutoff : time; IntegrityCheckPassed : bool
}.

(** [NewManager]; a nil database is [None]. *)
Definition NewManager (database : bool) (signingKey : list Z) : result Manager :=
  if negb database then Fail (ErrorString "audit database is not configured")
  else if (List.length signingKey <? 32)%nat then
    Fail (ErrorString "audit signing key must contain at least 32 bytes")
  else Ok (mkManager signingKey).

(** ** Sanitising *)

(** The loop of [sanitize]: control characters become spaces, and writing
    stops once the builder holds [limit] bytes or more. *)
Fixpoint sanitize_runes (limit : Z) (written : Z) (rs : list Z) : list Z :=
  match rs with
  | [] => []
  | r :: rs =>
      let c := if isControl r then 32 else r in
      let written := written + len (encode_rune c) in
      c :: (if limit <=? written then [] else sanitize_runes limit written rs)
  end.

Definition sanitize (value : string) (limit : Z) : string :=
  let value := TrimSpace value in
  if String.eqb value "" || (limit <=? 0) then ""
  else TrimSpace (encode_runes (sanitize_runes limit 0 (runes value))).

Definition sanitizeDefault (value fallback : string) (limit : Z) : string :=
  let cleaned := sanitize value limit in
  if String.eqb cleaned "" then fallback else cleaned.

Section normalize.
Context `{!UnicodeCase}.

Definition normalize_status (status : Z) : Z :=
  if (status <? 0) || (999 <? status) then 0 else status.

Definition normalize_outcome (raw : string) (status : Z) : string :=
  let outcome := ToLower (TrimSpace raw) in
  if negb (String.eqb outcome "success") && negb (String.eqb outcome "failure") then
    if (200 <=? status) && (status <? 400) then "success" else "failure"
  else outcome.

(** [normalize]: [now] is the manager's clock. *)
Definition normalize (now : time) (input : EventInput) : AuditEvent :=
  let createdAt := if IsZero (in_CreatedAt input) then now else in_CreatedAt input in
  let status := normalize_status (in_Status input) in
  {| ID := 0; Sequence := 0;
     RequestID := sanitize (in_RequestID input) 64;
     EventType := sanitizeDefault (in_EventType input) "http" 32;
     Action := sanitizeDefault (in_Action input) "unknown" 160;
     Method := sanitize (ToUpper (in_Method input)) 12;
     Route := sanitize (in_Route input) 255;
     Path := sanitize (in_Path input) 1024;
     Status := status;
     Outcome := normalize_outcome (in_Outcome input) status;
     Sensitive := in_Sensitive input;
     UserID := in_UserID input;
     Username := sanitize (in_Username input) 128;
     AuthMode := sanitize (in_AuthMode input) 32;
     RemoteIP := sanitize (in_RemoteIP input) 64;
     UserAgent := sanitize (in_UserAgent input) 512;
     ContentLength := if in_ContentLength input <? 0 then 0 else in_ContentLength input;
     DurationMS := if in_DurationMS input <? 0 then 0 else in_DurationMS input;
     Message := sanitize (in_Message input) 255;
     CreatedAt := createdAt;
     PreviousHash := ""; EntryHash := "";
     EventChainVersion := ChainVersion |}.
End normalize.

(** ** Signing *)

Definition sign (manager : Manager) (payload : string) : string :=
  hex_encode (hmac_sha256 (manager_key manager) (bytes_of payload)).

Definition event_keys : list string :=
  ["sequence"; "requestId"; "eventType"; "action"; "method"; "route"; "path"; "status";
   "outcome"; "sensitive"; "userId"; "username"; "authMode"; "remoteIp"; "userAgent";
   "contentLength"; "durationMs"; "message"; "createdAtUnixNano"; "previousHash";
   "chainVersion"].

(** [eventPayload]: what the signature of an event covers. *)
Definition eventPayload (event : AuditEvent) : list jval :=
  [JInt (Sequence event); JStr (RequestID event); JStr (EventType event);
   JStr (Action event); JStr (Method event); JStr (Route event); JStr (Path event);
   JInt (Status event); JStr (Outcome event); JBool (Sensitive event);
   JInt (UserID event); JStr (Username event); JStr (AuthMode event);
   JStr (RemoteIP event); JStr (UserAgent event); JInt (ContentLength event);
   JInt (DurationMS event); JStr (Message event); JInt (UnixNano (CreatedAt event));
   JStr (PreviousHash event); JInt (EventChainVersion event)].

(** Marshalling these structs cannot fail: no value of theirs is unsupported. *)
Definition event_bytes (event : AuditEvent) : string := Marshal event_keys (eventPayload event).
Definition signEvent (manager : Manager) (event : AuditEvent) : string :=
  sign manager (event_bytes event).

Definition checkpoint_bytes (checkpoint : AuditCheckpoint) : string :=
  Marshal ["throughSequence"; "throughEntryHash"]
    [JInt (ThroughSequence checkpoint); JStr (ThroughEntryHash checkpoint)].
Definition signCheckpoint (manager : Manager) (checkpoint : AuditCheckpoint) : string :=
  sign manager (checkpoint_bytes checkpoint).

Definition state_bytes (state : AuditChainState) : string :=
  Marshal ["lastSequence"; "lastEntryHash"]
    [JInt (StateLastSequence state); JStr (StateLastEntryHash state)].
Definition signState (manager : Manager) (state : AuditChainState) : string :=
  sign manager (state_bytes state).

(** [hmac.Equal] compares all bytes. *)
Definition hmac_Equal (a b : string) : bool := String.eqb a b.

Definition verifyCheckpoint (manager : Manager) (checkpoint : AuditCheckpoint) : bool :=
  if (ThroughSequence checkpoint =? 0) || String.eqb (ThroughEntryHash checkpoint) ""
     || String.eqb (CheckpointSignature checkpoint) "" then false
  else hmac_Equal (signCheckpoint manager checkpoint) (CheckpointSignature checkpoint).

Definition verifyState (manager : Manager) (state : AuditChainState) : bool :=
  if (StateLastSequence state =? 0) || String.eqb (StateLastEntryHash state) ""
     || String.eqb (StateSignature state) "" then false
  else hmac_Equal (signState manager state) (StateSignature state).

(** ** Verification *)

Definition invalid (r : VerificationResult) (sequence : Z) (message : string) : VerificationResult :=
  {| Valid := false; CheckedEntries := CheckedEntries r;
     CheckpointSequence := CheckpointSequence r; FirstSequence := FirstSequence r;
     LastSequence := LastSequence r; InvalidSequence := sequence;
     VerificationMessage := message |}.

(** The row is counted before it is examined. *)
Definition count_row (r : VerificationResult) (event : AuditEvent) : VerificationResult :=
  {| Valid := Valid r; CheckedEntries := CheckedEntries r + 1;
     CheckpointSequence := CheckpointSequence r;
     FirstSequence := if FirstSequence r =? 0 then Sequence event else FirstSequence r;
     LastSequence := Sequence event; InvalidSequence := InvalidSequence r;
     VerificationMessage := VerificationMessage r |}.

(** The [rows.Next] loop: [inl] is the early return of an invalid result,
    [inr] carries the result and the expected successor of the last row. *)
Fixpoint verify_rows (manager : Manager) (rows : list AuditEvent)
    (result : VerificationResult) (expectedSequence : Z) (expectedPrevious : string)
    : M AuditTables (VerificationResult + VerificationResult * Z * string) :=
  match rows with
  | [] => ret (inr (result, expectedSequence, expectedPrevious))
  | row :: rows =>
      let* event := wrapping "decode audit event" (read (fun _ => row)) in
      let result := count_row result event in
      if negb (Sequence event =? expectedSequence)
         || negb (String.eqb (PreviousHash event) expectedPrevious)
         || negb (EventChainVersion event =? ChainVersion) then
        ret (inl (invalid result (Sequence event) "审计链序号、前置摘要或版本不连续"))
      else if negb (hmac_Equal (signEvent manager event) (EntryHash event)) then
        ret (inl (invalid result (Sequence event) "审计记录签名无效"))
      else verify_rows manager rows result (u64 (expectedSequence + 1)) (EntryHash event)
  end.

(** The comparison with the stored chain head. *)
Definition verify_head (manager : Manager) (result : VerificationResult)
    (expectedSequence : Z) (expectedPrevious : string) : M AuditTables VerificationResult :=
  let logicalHeadSequence := u64 (expectedSequence - 1) in
  let logicalHeadHash := if logicalHeadSequence =? 0 then genesisHash else expectedPrevious in
  let* stored := attempt (first audit_chain_state) in
  match stored with
  | Fail err =>
      if is_not_found err then
        if 0 <? logicalHeadSequence then
          ret (invalid result logicalHeadSequence "审计链头状态缺失，可能存在尾部删除")
        else ret result
      else fail (Wrap "read audit chain state: " err "")
  | Ok state =>
      if negb (verifyState manager state)
         || negb (StateLastSequence state =? logicalHeadSequence)
         || negb (String.eqb (StateLastEntryHash state) logicalHeadHash) then
        ret (invalid result logicalHeadSequence "审计链头状态无效或与当前尾部不一致")
      else ret result
  end.

Definition verify_scan (manager : Manager) (result : VerificationResult)
    (expectedSequence : Z) (expectedPrevious : string) : M AuditTables VerificationResult :=
  let* rows := wrapping "scan audit chain" (read audit_events) in
  let* scanned := verify_rows manager rows result expectedSequence expectedPrevious in
  match scanned with
  | inl result => ret result
  | inr (result, expectedSequence, expectedPrevious) =>
      let* _ := wrapping "iterate audit chain" (read (fun _ => tt)) in
      verify_head manager result expectedSequence expectedPrevious
  end.

Definition verifyLocked (manager : Manager) : M AuditTables VerificationResult :=
  let result := {| Valid := true; CheckedEntries := 0; CheckpointSequence := 0;
    FirstSequence := 0; LastSequence := 0; InvalidSequence := 0;
    VerificationMessage := "审计链完整" |} in
  let* found := attempt (first audit_checkpoint) in
  match found with
  | Ok checkpoint =>
      if negb (verifyCheckpoint manager checkpoint) then
        ret (invalid result (ThroughSequence checkpoint) "审计保留检查点签名无效")
      else
        verify_scan manager
          {| Valid := true; CheckedEntries := 0;
             CheckpointSequence := ThroughSequence checkpoint; FirstSequence := 0;
             LastSequence := 0; InvalidSequence := 0; VerificationMessage := "审计链完整" |}
          (u64 (ThroughSequence checkpoint + 1)) (ThroughEntryHash checkpoint)
  | Fail err =>
      if is_not_found err then verify_scan manager result 1 genesisHash
      else fail (Wrap "read audit checkpoint: " err "")
  end.

(** [Verify]; the mutex makes the whole call one critical section. *)
Definition Verify (manager : option Manager) : M AuditTables VerificationResult :=
  match manager with
  | None => fail (ErrorString "audit manager is not configured")
  | Some manager => verifyLocked manager
  end.

(** ** Appending *)

Definition loadChainHead : M AuditTables (Z * string) :=
  let* found := attempt (first (fun t => last (audit_events t))) in
  match found with
  | Ok event => ret (Sequence event, EntryHash event)
  | Fail err =>
      if negb (is_not_found err) then fail (Wrap "read audit chain head: " err "") else
      let* found := attempt (first audit_checkpoint) in
      match found with
      | Ok checkpoint => ret (ThroughSequence checkpoint, ThroughEntryHash checkpoint)
      | Fail err =>
          if is_not_found err then ret (0, genesisHash)
          else fail (Wrap "read audit checkpoint: " err "")
      end
  end.

Definition verifyStoredHead (manager : Manager) (sequence : Z) (entryHash : string)
    : M AuditTables unit :=
  let* stored := attempt (first audit_chain_state) in
  match stored with
  | Fail err =>
      if is_not_found err then
        if sequence =? 0 then ret tt
        else fail (ErrorString "audit chain head state is missing")
      else fail (Wrap "read audit chain state: " err "")
  | Ok state =>
      if negb (verifyState manager state) || negb (StateLastSequence state =? sequence)
         || negb (String.eqb (StateLastEntryHash state) entryHash) then
        fail (ErrorString "audit chain head state is invalid")
      else ret tt
  end.

(** The insert: SQLite assigns the primary key, and the unique indexes on
    [sequence] and [entry_hash] are checked. *)
Fixpoint insert_event (event : AuditEvent) (rows : list AuditEvent) : list AuditEvent :=
  match rows with
  | [] => [event]
  | row :: rest =>
      if Sequence event <? Sequence row then event :: rows
      else row :: insert_event event rest
  end.

Definition next_id (rows : list AuditEvent) : Z :=
  1 + fold_right Z.max 0 (map ID rows).

Definition with_id (event : AuditEvent) (id : Z) : AuditEvent :=
  {| ID := id; Sequence := Sequence event; RequestID := RequestID event;
     EventType := EventType event; Action := Action event; Method := Method event;
     Route := Route event; Path := Path event; Status := Status event;
     Outcome := Outcome event; Sensitive := Sensitive event; UserID := UserID event;
     Username := Username event; AuthMode := AuthMode event; RemoteIP := RemoteIP event;
     UserAgent := UserAgent event; ContentLength := ContentLength event;
     DurationMS := DurationMS event; Message := Message event; CreatedAt := CreatedAt event;
     PreviousHash := PreviousHash event; EntryHash := EntryHash event;
     EventChainVersion := EventChainVersion event |}.

(** The fields that [Append] sets on the normalised event. *)
Definition with_link (event : AuditEvent) (sequence : Z) (previous entry : string) : AuditEvent :=
  {| ID := 0; Sequence := sequence; RequestID := RequestID event;
     EventType := EventType event; Action := Action event; Method := Method event;
     Route := Route event; Path := Path event; Status := Status event;
     Outcome := Outcome event; Sensitive := Sensitive event; UserID := UserID event;
     Username := Username event; AuthMode := AuthMode event; RemoteIP := RemoteIP event;
     UserAgent := UserAgent event; ContentLength := ContentLength event;
     DurationMS := DurationMS event; Message := Message event; CreatedAt := CreatedAt event;
     PreviousHash := previous; EntryHash := entry;
     EventChainVersion := EventChainVersion event |}.

Definition create_event (event : AuditEvent) (t : AuditTables) : result (AuditEvent * AuditTables) :=
  if existsb (fun row => Sequence row =? Sequence event) (audit_events t) then
    Fail (ErrorString "UNIQUE constraint failed: audit_events.sequence")
  else if existsb (fun row => String.eqb (EntryHash row) (EntryHash event)) (audit_events t) then
    Fail (ErrorString "UNIQUE constraint failed: audit_events.entry_hash")
  else
    let event := with_id event (next_id (audit_events t)) in
    Ok (event, {| audit_events := insert_event event (audit_events t);
                  audit_checkpoint := audit_checkpoint t;
                  audit_chain_state := audit_chain_state t |}).

Definition save_state (state : AuditChainState) (t : AuditTables) : result (unit * AuditTables) :=
  Ok (tt, {| audit_events := audit_events t; audit_checkpoint := audit_checkpoint t;
             audit_chain_state := Some state |}).

(** The function given to [db.Transaction] in [Append]. *)
Definition append_tx (manager : Manager) (now : time) (event : AuditEvent)
    : M AuditTables AuditEvent :=
  let* head := loadChainHead in
  let '(sequence, previousHash) := head in
  let* _ := verifyStoredHead manager sequence previousHash in
  let linked := with_link event (u64 (sequence + 1)) previousHash "" in
  let linked := with_link event (Sequence linked) previousHash (signEvent manager linked) in
  let* created := exec (create_event linked) in
  let state := {| StateLastSequence := Sequence created;
                  StateLastEntryHash := EntryHash created;
                  StateSignature := ""; StateUpdatedAt := now |} in
  let* _ := exec (save_state
    {| StateLastSequence := StateLastSequence state;
       StateLastEntryHash := StateLastEntryHash state;
       StateSignature := signState manager state; StateUpdatedAt := now |}) in
  ret created.

Section append.
Context `{!UnicodeCase}.

Definition isDatabaseBusy (err : error) : bool :=
  let message := ToLower (Error err) in
  Contains message "database is locked" || Contains message "sqlite_busy"
  || Contains message "database table is locked".

(** [for attempt := 0; attempt < 4; attempt++]: [attempts] are left. *)
Fixpoint append_loop (attempts : nat) (manager : Manager) (now : time) (event : AuditEvent)
    (err : error) : M AuditTables AuditEvent :=
  match attempts with
  | O => fail (Wrap "append audit event: " err "")
  | S attempts =>
      let* r := attempt (transaction (append_tx manager now event)) in
      match r with
      | Ok event => ret event
      | Fail err =>
          if isDatabaseBusy err then append_loop attempts manager now event err
          else fail (Wrap "append audit event: " err "")
      end
  end.

Definition Append (manager : option Manager) (now : time) (input : EventInput)
    : M AuditTables AuditEvent :=
  match manager with
  | None => fail (ErrorString "audit manager is not configured")
  | Some manager => append_loop 4 manager now (normalize now input) (ErrorString "")
  end.
End append.

(** ** Retention *)

Definition save_checkpoint (checkpoint : AuditCheckpoint) (t : AuditTables)
    : result (unit * AuditTables) :=
  Ok (tt, {| audit_events := audit_events t; audit_checkpoint := Some checkpoint;
             audit_chain_state := audit_chain_state t |}).

(** [DELETE FROM audit_events WHERE sequence <= ?], with [RowsAffected]. *)
Definition delete_through (sequence : Z) (t : AuditTables) : result (Z * AuditTables) :=
  let keep := List.filter (fun e => negb (Sequence e <=? sequence)) (audit_events t) in
  Ok (Z.of_nat (List.length (audit_events t)) - Z.of_nat (List.length keep),
      {| audit_events := keep; audit_checkpoint := audit_checkpoint t;
         audit_chain_state := audit_chain_state t |}).

(** [WHERE created_at < ? ORDER BY sequence DESC LIMIT 1]. *)
Definition last_expired (cutoff : time) (t : AuditTables) : option AuditEvent :=
  last (List.filter (fun e => CreatedAt e <? cutoff) (audit_events t)).

Definition CleanupBefore (manager : option Manager) (now cutoff : time)
    : M AuditTables CleanupResult :=
  match manager with
  | None => fail (ErrorString "audit manager is not configured")
  | Some manager =>
      let* verification := verifyLocked manager in
      if negb (Valid verification) then
        fail (ErrorString ("refuse audit cleanup: " +:+ VerificationMessage verification))
      else
      let* found := attempt (first (last_expired cutoff)) in
      match found with
      | Fail err =>
          if is_not_found err then
            ret {| DeletedEntries := 0;
                   CleanupCheckpointSequence := CheckpointSequence verification;
                   CleanupCheckpointEntryHash := ""; RetentionCutoff := cutoff;
                   IntegrityCheckPassed := true |}
          else fail (Wrap "find expired audit events: " err "")
      | Ok lastExpired =>
          let checkpoint := {| ThroughSequence := Sequence lastExpired;
            ThroughEntryHash := EntryHash lastExpired; CheckpointSignature := "";
            CheckpointUpdatedAt := now |} in
          let checkpoint := {| ThroughSequence := ThroughSequence checkpoint;
            ThroughEntryHash := ThroughEntryHash checkpoint;
            CheckpointSignature := signCheckpoint manager checkpoint;
            CheckpointUpdatedAt := now |} in
          let* deleted := transaction
            (let* _ := wrapping "save audit checkpoint" (exec (save_checkpoint checkpoint)) in
             wrapping "delete expired audit events"
               (exec (delete_through (Sequence lastExpired)))) in
          ret {| DeletedEntries := deleted;
                 CleanupCheckpointSequence := ThroughSequence checkpoint;
                 CleanupCheckpointEntryHash := ThroughEntryHash checkpoint;
                 RetentionCutoff := cutoff; IntegrityCheckPassed := true |}
      end
  end.

(** ** Specification: an intact audit trail *)

(** Every row carries the expected sequence, the hash of its predecessor, the
    current version and a signature of its own content. *)
Fixpoint links (manager : Manager) (rows : list AuditEvent) (seq : Z) (prev : string) : Prop :=
  match rows with
  | [] => True
  | e :: rows =>
      Sequence e = seq /\ PreviousHash e = prev /\ EventChainVersion e = ChainVersion /\
      EntryHash e = signEvent manager e /\ links manager rows (u64 (seq + 1)) (EntryHash e)
  end.

(** What the next row would have to carry. *)
Fixpoint chain_end (rows : list AuditEvent) (seq : Z) (prev : string) : Z * string :=
  match rows with
  | [] => (seq, prev)
  | e :: rows => chain_end rows (u64 (seq + 1)) (EntryHash e)
  end.

Definition chain_start (t : AuditTables) : Z * string :=
  match audit_checkpoint t with
  | None => (1, genesisHash)
  | Some c => (u64 (ThroughSequence c + 1), ThroughEntryHash c)
  end.

(** Sequence and hash of the newest entry, retained or not. *)
Definition logical_head (t : AuditTables) : Z * string :=
  let '(seq, prev) := chain_end (audit_events t) (chain_start t).1 (chain_start t).2 in
  (u64 (seq - 1), if u64 (seq - 1) =? 0 then genesisHash else prev).

Definition checkpoint_ok (manager : Manager) (t : AuditTables) : Prop :=
  match audit_checkpoint t with
  | None => True
  | Some c => verifyCheckpoint manager c = true
  end.

Definition head_ok (manager : Manager) (t : AuditTables) : Prop :=
  match audit_chain_state t with
  | None => (logical_head t).1 = 0
  | Some st => verifyState manager st = true /\
      (StateLastSequence st, StateLastEntryHash st) = logical_head t
  end.

Definition intact (manager : Manager) (t : AuditTables) : Prop :=
  checkpoint_ok manager t /\
  links manager (audit_events t) (chain_start t).1 (chain_start t).2 /\
  head_ok manager t.

(** ** Verification decides [intact] *)

Lemma Valid_invalid r seq msg : Valid (invalid r seq msg) = false.
Proof. done. Qed.

Lemma row_checks_true (e : AuditEvent) seq prev :
  negb (Sequence e =? seq) || negb (String.eqb (PreviousHash e) prev)
  || negb (EventChainVersion e =? ChainVersion) = false <->
  Sequence e = seq /\ PreviousHash e = prev /\ EventChainVersion e = ChainVersion.
Proof.
  rewrite !orb_false_iff, !negb_false_iff, !Z.eqb_eq, String.eqb_eq. tauto.
Qed.

Lemma verify_rows_Ok manager rows : forall result seq prev w r w',
  verify_rows manager rows result seq prev w = (Ok r, w') ->
  tables w' = tables w /\
  match r with
  | inl bad => Valid bad = false /\ ~ links manager rows seq prev
  | inr (res, seq', prev') =>
      Valid res = Valid result /\ links manager rows seq prev /\
      (seq', prev') = chain_end rows seq prev
  end.
Proof.
  induction rows as [|e rows IH]; intros result seq prev w r w' H; cbn in H.
  { by run_inv. }
  run_inv. subst. destruct (negb (Sequence e =? seq) || _ || _) eqn:Ec.
  { run_inv. split; [done|]. split; [done|]. cbn. intros (Hs & Hp & Hv & _).
    assert (Hc := proj2 (row_checks_true e seq prev) (conj Hs (conj Hp Hv))).
    congruence. }
  apply row_checks_true in Ec as (Hs & Hp & Hv).
  destruct (negb (hmac_Equal _ _)) eqn:Eh.
  { run_inv. split; [done|]. split; [done|]. cbn. intros (_ & _ & _ & He & _).
    unfold hmac_Equal in Eh. rewrite He in Eh. by rewrite String.eqb_refl in Eh. }
  unfold hmac_Equal in Eh. bool_props.
  apply IH in H as [-> H]. split; [done|].
  destruct r as [bad|[[res seq'] prev']]; cbn; [tauto|].
  destruct H as (? & ? & ?). by split_and!.
Qed.

Lemma verify_head_Ok manager result seq prev w r w' :
  verify_head manager result seq prev w = (Ok r, w') ->
  let hs := u64 (seq - 1) in
  let hh := if hs =? 0 then genesisHash else prev in
  tables w' = tables w /\
  (Valid r = true <-> Valid result = true /\
    match audit_chain_state (tables w) with
    | None => hs = 0
    | Some st => verifyState manager st = true /\
        (StateLastSequence st, StateLastEntryHash st) = (hs, hh)
    end).
Proof.
  intros H hs hh. pose proof (u64_range (seq - 1)) as Hr. fold hs in Hr.
  unfold verify_head in H. fold hs in H. fold hh in H. run_inv.
  destruct x as [st|err].
  - run_inv. match goal with Hf : audit_chain_state _ = Some _ |- _ => rewrite Hf end.
    destruct (_ || _ || _) eqn:E; run_inv.
    + split; [congruence|]. rewrite Valid_invalid. split; [done|].
      intros (_ & Hv & [= Hs Hh]). rewrite Hv, Hs, Hh, Z.eqb_refl, String.eqb_refl in E. done.
    + split; [congruence|]. rewrite !orb_false_iff, !negb_false_iff in E.
      destruct E as [[Hv Hs] Hh]. bool_props. rewrite Hv, Hs, Hh. tauto.
  - destruct (is_not_found err) eqn:En; [|done].
    match goal with Hf : first _ _ = (Fail _, _) |- _ =>
      destruct (first_not_found _ _ _ _ Hf En) as [Hn Ht] end. rewrite Hn.
    destruct (Z.ltb_spec 0 hs); run_inv.
    + split; [done|]. rewrite Valid_invalid. split; [done|]. lia.
    + split; [done|]. split; [intros; split; [done|lia]|tauto].
Qed.

Lemma verify_scan_Ok manager result seq prev w r w' :
  verify_scan manager result seq prev w = (Ok r, w') ->
  chain_start (tables w) = (seq, prev) ->
  tables w' = tables w /\
  (Valid r = true <-> Valid result = true /\
    links manager (audit_events (tables w)) seq prev /\ head_ok manager (tables w)).
Proof.
  intros H Hstart. unfold verify_scan in H. run_inv. subst.
  match goal with Hf : verify_rows _ _ _ _ _ _ = _ |- _ =>
    destruct (verify_rows_Ok _ _ _ _ _ _ _ _ Hf) as [Ht Hv] end.
  destruct x1 as [bad|[[res seq'] prev']].
  - destruct Hv as [Hb Hl]. run_inv. split; [congruence|].
    split; [congruence|tauto].
  - destruct Hv as (Hval & Hl & Hend). run_inv.
    apply verify_head_Ok in H as [Ht' Hiff]. split; [congruence|].
    match type of Hiff with context [audit_chain_state (tables ?y)] =>
      replace (tables y) with (tables w) in Hiff by congruence end.
    rewrite Hiff, Hval. unfold head_ok, logical_head. rewrite Hstart. cbn [fst snd].
    rewrite <- Hend.
    destruct (audit_chain_state (tables w)); tauto.
Qed.

Lemma verifyLocked_Ok manager w r w' :
  verifyLocked manager w = (Ok r, w') ->
  tables w' = tables w /\ (Valid r = true <-> intact manager (tables w)).
Proof.
  intros H. unfold verifyLocked in H. run_inv. unfold intact, checkpoint_ok.
  destruct x as [c|err].
  - run_inv. match goal with Hf : audit_checkpoint _ = Some _ |- _ => rename Hf into H0 end.
    match goal with Hf : tables x0 = _ |- _ => rename Hf into H1 end.
    rewrite H0. destruct (verifyCheckpoint manager c) eqn:Ec; cbn [negb] in H.
    + assert (Hs : chain_start (tables x0) = (u64 (ThroughSequence c + 1), ThroughEntryHash c))
        by (unfold chain_start; by rewrite H1, H0).
      apply verify_scan_Ok in H as [Ht Hiff]; [|done]. rewrite H1 in *.
      split; [done|]. rewrite Hiff, Hs. cbn. tauto.
    + run_inv. split; [congruence|]. rewrite Valid_invalid. split; [done|]. by intros [? _].
  - destruct (is_not_found err) eqn:En; [|done].
    match goal with Hf : first _ _ = (Fail _, _) |- _ =>
      destruct (first_not_found _ _ _ _ Hf En) as [Hn Ht] end. rewrite Hn.
    assert (Hs : chain_start (tables x0) = (1, genesisHash))
      by (unfold chain_start; by rewrite Ht, Hn).
    apply verify_scan_Ok in H as [Ht' Hiff]; [|done]. rewrite Ht in *.
    split; [done|]. rewrite Hiff, Hs. cbn. tauto.
Qed.

(** ** The chain as a list *)

Lemma u64_succ_pred z : u64 (u64 (z + 1) - 1) = u64 z.
Proof.
  unfold u64. rewrite Zminus_mod_idemp_l. f_equal. lia.
Qed.

Lemma chain_end_app rows1 rows2 seq prev :
  chain_end (rows1 ++ rows2) seq prev =
  chain_end rows2 (chain_end rows1 seq prev).1 (chain_end rows1 seq prev).2.
Proof. revert seq prev. induction rows1 as [|e rows1 IH]; intros; cbn; auto. Qed.

Lemma links_app manager rows1 rows2 seq prev :
  links manager (rows1 ++ rows2) seq prev <->
  links manager rows1 seq prev /\
  links manager rows2 (chain_end rows1 seq prev).1 (chain_end rows1 seq prev).2.
Proof.
  revert seq prev. induction rows1 as [|e rows1 IH]; intros; cbn; [tauto|].
  rewrite IH. tauto.
Qed.

Lemma chain_end_snoc manager rows e seq prev :
  links manager (rows ++ [e]) seq prev ->
  chain_end (rows ++ [e]) seq prev = (u64 (Sequence e + 1), EntryHash e).
Proof.
  rewrite links_app, chain_end_app. cbn. intros [_ (-> & _)]. done.
Qed.

(** Rows are kept in index order and the columns hold [uint64] values; the
    checkpoint is not the last of them. *)
Definition well_indexed (t : AuditTables) : Prop :=
  StronglySorted (fun a b => Sequence a < Sequence b) (audit_events t).

Definition typed (t : AuditTables) : Prop :=
  Forall (fun e => 0 <= Sequence e < 2 ^ 64) (audit_events t) /\
  match audit_checkpoint t with
  | None => True
  | Some c => 0 <= ThroughSequence c < 2 ^ 64 - 1
  end.

(** The text of every row is well-formed UTF-8. *)
Definition textual_event (e : AuditEvent) : bool :=
  forallb well_formed (eventPayload e) && valid_utf8 (EntryHash e).

Definition textual (t : AuditTables) : Prop :=
  Forall (fun e => textual_event e = true) (audit_events t) /\
  match audit_checkpoint t with
  | None => True
  | Some c => valid_utf8 (ThroughEntryHash c) = true
  end.

(** The invariant of the component. *)
Definition trail (manager : Manager) (t : AuditTables) : Prop :=
  intact manager t /\ well_indexed t /\ typed t /\ textual t.

Lemma runes_valid s : forallb valid_rune (runes s) = true.
Proof.
  unfold runes. apply forallb_Forall, Forall_map_iff.
  eapply Forall_impl; [apply tokens_shape|].
  intros t [(_ & ? & _)|(_ & -> & _)]; done.
Qed.

Lemma sanitize_runes_valid limit written rs :
  forallb valid_rune rs = true ->
  forallb valid_rune (sanitize_runes limit written rs) = true.
Proof.
  revert written. induction rs as [|r rs IH]; intros written H; cbn in *; [done|].
  apply andb_true_iff in H as [Hr Hrs].
  apply andb_true_iff. split; [by destruct (isControl r)|].
  destruct (limit <=? _); [done|auto].
Qed.

Lemma sanitize_valid value limit : valid_utf8 (sanitize value limit) = true.
Proof.
  unfold sanitize. destruct (_ || _); [done|].
  apply TrimSpace_valid, valid_encode_runes, sanitize_runes_valid, runes_valid.
Qed.

Lemma sanitizeDefault_valid value fallback limit :
  valid_utf8 fallback = true -> valid_utf8 (sanitizeDefault value fallback limit) = true.
Proof. intros. unfold sanitizeDefault. destruct (String.eqb _ _); auto using sanitize_valid. Qed.

Lemma normalize_outcome_binary `{!UnicodeCase} raw status :
  normalize_outcome raw status = "success" \/ normalize_outcome raw status = "failure".
Proof.
  unfold normalize_outcome.
  destruct (String.eqb (ToLower (TrimSpace raw)) "success") eqn:E1;
    [bool_props; rewrite E1; by left|].
  destruct (String.eqb (ToLower (TrimSpace raw)) "failure") eqn:E2;
    [bool_props; rewrite E2; by right|].
  cbn. destruct (_ && _); auto.
Qed.

(** Whatever the caller passed, the recorded text is well formed. *)
Lemma normalize_textual `{!UnicodeCase} now input seq prev h :
  valid_utf8 prev = true ->
  forallb well_formed (eventPayload (with_link (normalize now input) seq prev h)) = true.
Proof.
  intros Hp. cbn. rewrite !sanitize_valid, !sanitizeDefault_valid, Hp by done.
  destruct (normalize_outcome_binary (in_Outcome input) (normalize_status (in_Status input)))
    as [-> | ->]; done.
Qed.

Lemma insert_event_last e rows :
  Forall (fun r => Sequence r < Sequence e) rows -> insert_event e rows = rows ++ [e].
Proof.
  induction 1 as [|r rows Hr Hrows IH]; cbn; [done|].
  destruct (Z.ltb_spec (Sequence e) (Sequence r)); [lia|]. by rewrite IH.
Qed.

(** What [loadChainHead] returns is the predecessor of the next link. *)
Lemma loadChainHead_Ok w seq prev w' :
  loadChainHead w = (Ok (seq, prev), w') -> tables w' = tables w /\
  match last (audit_events (tables w)), audit_checkpoint (tables w) with
  | Some e, _ => (seq, prev) = (Sequence e, EntryHash e)
  | None, Some c => (seq, prev) = (ThroughSequence c, ThroughEntryHash c)
  | None, None => (seq, prev) = (0, genesisHash)
  end.
Proof.
  intros H. unfold loadChainHead in H. run_inv. destruct x as [e|err].
  { run_inv. simplify_eq. split; [congruence|].
    match goal with Hf : last _ = Some _ |- _ => by rewrite Hf end. }
  destruct (is_not_found err) eqn:En; [|done]. cbn in H.
  match goal with Hf : first _ _ = (Fail _, _) |- _ =>
    destruct (first_not_found _ _ _ _ Hf En) as [Hn Ht] end.
  rewrite Hn. run_inv. destruct x as [c|err'].
  - run_inv. simplify_eq. split; [congruence|].
    match goal with Hf : audit_checkpoint _ = Some _ |- _ => rewrite Ht in Hf; by rewrite Hf end.
  - destruct (is_not_found err') eqn:En'; [|done].
    match goal with Hf : first audit_checkpoint _ = (Fail _, _) |- _ =>
      destruct (first_not_found _ _ _ _ Hf En') as [Hn' Ht'] end.
    run_inv. simplify_eq. rewrite Ht in Hn'. rewrite Hn'. split; [congruence|done].
Qed.

Lemma chain_end_head manager t seq prev :
  links manager (audit_events t) (chain_start t).1 (chain_start t).2 ->
  match last (audit_events t), audit_checkpoint t with
  | Some e, _ => (seq, prev) = (Sequence e, EntryHash e)
  | None, Some c => (seq, prev) = (ThroughSequence c, ThroughEntryHash c)
  | None, None => (seq, prev) = (0, genesisHash)
  end ->
  chain_end (audit_events t) (chain_start t).1 (chain_start t).2 = (u64 (seq + 1), prev).
Proof.
  intros Hl Hh. destruct (last (audit_events t)) as [e|] eqn:El.
  - apply last_snoc_inv in El as (k & Ek). rewrite Ek in *. injection Hh as -> ->.
    by eapply chain_end_snoc.
  - apply last_None in El. rewrite El. cbn. unfold chain_start.
    destruct (audit_checkpoint t); by injection Hh as -> ->.
Qed.

Lemma verifyStoredHead_Ok manager seq prev w w' :
  verifyStoredHead manager seq prev w = (Ok tt, w') -> tables w' = tables w.
Proof.
  intros H. unfold verifyStoredHead in H. run_inv. destruct x as [st|err].
  - run_inv. destruct (_ || _ || _); run_inv; congruence.
  - destruct (is_not_found err) eqn:En; [|done].
    match goal with Hf : first _ _ = (Fail _, _) |- _ =>
      destruct (first_not_found _ _ _ _ Hf En) as [_ Ht] end.
    destruct (seq =? 0); run_inv; congruence.
Qed.

Lemma sign_nonempty manager payload : String.eqb (sign manager payload) "" = false.
Proof.
  apply String.eqb_neq. intros E. apply (f_equal String.length) in E.
  unfold sign in E. rewrite length_hex_encode, length_hmac_sha256 in E. done.
Qed.

Lemma sign_valid manager payload : valid_utf8 (sign manager payload) = true.
Proof. apply ascii_valid, hex_encode_ascii, hmac_sha256_bytes. Qed.

(** The signature covers neither the primary key nor the entry hash. *)
Lemma signEvent_with_id manager e id : signEvent manager (with_id e id) = signEvent manager e.
Proof. done. Qed.

Lemma signEvent_with_link manager e seq prev h h' :
  signEvent manager (with_link e seq prev h) = signEvent manager (with_link e seq prev h').
Proof. done. Qed.

(** The row that the transaction of [Append] adds to [t]. *)
Definition appended_event (manager : Manager) (event : AuditEvent) (seq : Z) (prev : string)
    (rows : list AuditEvent) : AuditEvent :=
  let linked := with_link event (u64 (seq + 1)) prev "" in
  with_id (with_link event (u64 (seq + 1)) prev (signEvent manager linked)) (next_id rows).

Lemma append_tx_Ok manager now event w e w' :
  append_tx manager now event w = (Ok e, w') ->
  exists seq prev,
    match last (audit_events (tables w)), audit_checkpoint (tables w) with
    | Some e, _ => (seq, prev) = (Sequence e, EntryHash e)
    | None, Some c => (seq, prev) = (ThroughSequence c, ThroughEntryHash c)
    | None, None => (seq, prev) = (0, genesisHash)
    end /\
    e = appended_event manager event seq prev (audit_events (tables w)) /\
    Forall (fun r => Sequence r <> Sequence e) (audit_events (tables w)) /\
    tables w' = {| audit_events := insert_event e (audit_events (tables w));
      audit_checkpoint := audit_checkpoint (tables w);
      audit_chain_state := Some {| StateLastSequence := Sequence e;
        StateLastEntryHash := EntryHash e;
        StateSignature := signState manager
          {| StateLastSequence := Sequence e; StateLastEntryHash := EntryHash e;
             StateSignature := ""; StateUpdatedAt := now |};
        StateUpdatedAt := now |} |}.
Proof.
  intros H. unfold append_tx in H. run_inv. destruct x as [seq prev].
  match goal with Hf : loadChainHead _ = _ |- _ =>
    destruct (loadChainHead_Ok _ _ _ _ Hf) as [Ht Hhead]; clear Hf end.
  run_inv. match goal with Hf : verifyStoredHead _ _ _ _ = (Ok ?u, _) |- _ =>
    destruct u; apply verifyStoredHead_Ok in Hf as Ht' end.
  exists seq, prev. split; [done|].
  match goal with Hf : create_event _ _ = _ |- _ => unfold create_event in Hf;
    rewrite Ht', Ht in Hf; rename Hf into Hc end.
  cbn [Sequence with_link EntryHash] in Hc.
  destruct (existsb _ _) eqn:E1 in Hc; [done|].
  destruct (existsb _ _) eqn:E2 in Hc; [done|]. injection Hc as Hc1 Hc2.
  match goal with Hf : save_state _ _ = _ |- _ => unfold save_state in Hf;
    injection Hf as Hs end. subst.
  split; [done|]. split.
  - apply existsb_false_Forall in E1. eapply Forall_impl; [exact E1|].
    intros r Hr. by apply Z.eqb_neq in Hr.
  - match goal with |- tables ?y = _ =>
      match goal with Hf : _ = tables y |- _ => rewrite <- Hf end end.
    match goal with Hf : _ = tables ?y |- context [audit_events (tables ?y)] =>
      rewrite <- Hf end. done.
Qed.

Lemma append_loop_Ok `{!UnicodeCase} n manager now event err w e w' :
  append_loop n manager now event err w = (Ok e, w') ->
  exists w1 w2, tables w1 = tables w /\ append_tx manager now event w1 = (Ok e, w2)
    /\ tables w' = tables w2.
Proof.
  revert err w. induction n as [|n IH]; intros err w Hrun; [done|].
  cbn [append_loop] in Hrun. run_inv. destruct x as [e'|err'].
  - run_inv. simplify_eq. eauto 10.
  - match goal with Hf : transaction _ _ = (Fail _, _) |- _ =>
      apply transaction_Fail in Hf end.
    destruct (isDatabaseBusy err'); [|done].
    destruct (IH _ _ Hrun) as (w1 & w2 & ? & ? & ?). exists w1, w2. split_and!; congruence.
Qed.

Lemma append_loop_atomic `{!UnicodeCase} n manager now event err :
  atomic (append_loop n manager now event err).
Proof.
  revert err. induction n as [|n IH]; intros err w e w' Hrun; cbn [append_loop] in Hrun.
  { by injection Hrun as <- <-. }
  unfold bind, attempt in Hrun.
  destruct (transaction _ w) as [[a|err'] w1] eqn:Et; [done|].
  apply transaction_Fail in Et. destruct (isDatabaseBusy err').
  - apply IH in Hrun. congruence.
  - injection Hrun as <- <-. done.
Qed.

(** Under the invariant the next link is determined, and every retained row
    precedes it. *)
Lemma trail_next manager t seq prev :
  trail manager t ->
  match last (audit_events t), audit_checkpoint t with
  | Some e, _ => (seq, prev) = (Sequence e, EntryHash e)
  | None, Some c => (seq, prev) = (ThroughSequence c, ThroughEntryHash c)
  | None, None => (seq, prev) = (0, genesisHash)
  end ->
  chain_end (audit_events t) (chain_start t).1 (chain_start t).2 = (u64 (seq + 1), prev) /\
  (logical_head t).1 = seq /\ 0 <= seq < 2 ^ 64 /\
  Forall (fun r => Sequence r <= seq) (audit_events t).
Proof.
  intros ((_ & Hl & _) & Hix & (Hty1 & Hty2) & _) Hh.
  pose proof (chain_end_head _ _ _ _ Hl Hh) as He.
  assert (Hr : 0 <= seq < 2 ^ 64 /\ Forall (fun r => Sequence r <= seq) (audit_events t)).
  { destruct (last (audit_events t)) as [e|] eqn:El.
    - injection Hh as -> ->. apply last_snoc_inv in El as (k & Ek).
      unfold well_indexed in Hix. rewrite Ek in *.
      apply Forall_app_inv in Hty1 as [_ Hty1]. apply Forall_cons in Hty1 as [? _].
      split; [done|]. apply StronglySorted_app_inv in Hix as (_ & _ & Hk).
      apply Forall_app. split; [|by repeat constructor].
      eapply Forall_impl; [exact Hk|]. intros r Hr%Forall_cons. lia.
    - apply last_None in El. rewrite El. split; [|constructor].
      destruct (audit_checkpoint t); injection Hh as -> ->; lia. }
  destruct Hr as [Hr Hall]. split_and!; try done; try lia.
  unfold logical_head. rewrite He. cbn. by rewrite u64_succ_pred, u64_small.
Qed.

Lemma verifyState_signed manager seq hash now :
  seq <> 0 -> String.eqb hash "" = false ->
  verifyState manager
    {| StateLastSequence := seq; StateLastEntryHash := hash;
       StateSignature := signState manager {| StateLastSequence := seq;
         StateLastEntryHash := hash; StateSignature := ""; StateUpdatedAt := now |};
       StateUpdatedAt := now |} = true.
Proof.
  intros Hs Hh. unfold verifyState. cbn [StateLastSequence StateLastEntryHash StateSignature].
  unfold signState at 1. rewrite sign_nonempty, Hh, (proj2 (Z.eqb_neq _ _) Hs). cbn [orb].
  unfold hmac_Equal. apply String.eqb_refl.
Qed.

Lemma append_tx_trail manager now event w e w' :
  append_tx manager now event w = (Ok e, w') -> EventChainVersion event = ChainVersion ->
  (forall seq prev h, valid_utf8 prev = true ->
    forallb well_formed (eventPayload (with_link event seq prev h)) = true) ->
  trail manager (tables w) -> (logical_head (tables w)).1 < 2 ^ 64 - 1 ->
  trail manager (tables w') /\
  audit_events (tables w') = audit_events (tables w) ++ [e] /\
  audit_checkpoint (tables w') = audit_checkpoint (tables w) /\
  Sequence e = (logical_head (tables w)).1 + 1.
Proof.
  intros Hrun Hver Htext Htr Hroom.
  destruct (append_tx_Ok _ _ _ _ _ _ Hrun) as (seq & prev & Hh & He & _ & Ht).
  destruct (trail_next _ _ _ _ Htr Hh) as (Hend & Hlh & Hseq & Hle).
  rewrite Hlh in *.
  assert (Hes : Sequence e = seq + 1)
    by (rewrite He; cbn; apply u64_small; lia).
  assert (Hsig : EntryHash e = signEvent manager e) by (by rewrite He).
  assert (Hne : String.eqb (EntryHash e) "" = false) by (rewrite Hsig; apply sign_nonempty).
  assert (Hins : insert_event e (audit_events (tables w)) = audit_events (tables w) ++ [e]).
  { apply insert_event_last. eapply Forall_impl; [exact Hle|]. intros; cbn in *; lia. }
  rewrite Hins in Ht. destruct Htr as ((Hcp & Hl & _) & Hix & (Hty1 & Hty2) & Htx1 & Htx2).
  assert (Hstart : chain_start (tables w') = chain_start (tables w)) by (by rewrite Ht).
  assert (Hends : chain_end (audit_events (tables w) ++ [e]) (chain_start (tables w)).1
      (chain_start (tables w)).2 = (u64 (seq + 1 + 1), EntryHash e)).
  { rewrite chain_end_app, Hend. cbn. by rewrite (u64_small (seq + 1)) by lia. }
  split; [|rewrite Ht; by split_and!].
  split; [split_and!|split; [|split]].
  - by rewrite Ht.
  - rewrite Hstart, Ht. cbn [audit_events]. rewrite links_app, Hend. cbn.
    split_and!; try done; rewrite He; done.
  - unfold head_ok, logical_head. rewrite Hstart, Ht. cbn [audit_events audit_chain_state].
    rewrite Hends. cbn [fst snd]. rewrite u64_succ_pred, u64_small by lia.
    replace (seq + 1 =? 0) with false by (symmetry; apply Z.eqb_neq; lia).
    split; [apply verifyState_signed; [lia|done]|cbn; by rewrite Hes].
  - unfold well_indexed. rewrite Ht. cbn [audit_events]. apply StronglySorted_snoc; [done|].
    eapply Forall_impl; [exact Hle|]. intros; cbn in *; lia.
  - split; rewrite Ht; cbn [audit_events audit_checkpoint]; [|exact Hty2].
    apply Forall_app. split; [done|]. constructor; [lia|constructor].
  - split; rewrite Ht; cbn [audit_events audit_checkpoint]; [|exact Htx2].
    apply Forall_app. split; [done|]. constructor; [|constructor].
    apply andb_true_iff. split; [|rewrite Hsig; apply sign_valid].
    rewrite He. apply Htext. destruct (last (audit_events (tables w))) as [z|] eqn:El.
    + injection Hh as -> ->. apply last_snoc_inv in El as (k & Ek). rewrite Ek in Htx1.
      apply Forall_app_inv in Htx1 as [_ Htx1]. apply Forall_cons in Htx1 as [Htx1 _].
      by apply andb_true_iff in Htx1 as [_ ?].
    + destruct (audit_checkpoint (tables w)); by injection Hh as -> ->.
Qed.

(** ** Rows beyond a retained prefix *)

Lemma filter_after k e rest :
  StronglySorted (fun a b => Sequence a < Sequence b) (k ++ e :: rest) ->
  List.filter (fun r => negb (Sequence r <=? Sequence e)) (k ++ e :: rest) = rest.
Proof.
  intros Hs. apply StronglySorted_app_inv in Hs as (_ & Hs & Hk).
  apply StronglySorted_inv in Hs as [_ Hrest]. rewrite List.filter_app. cbn.
  rewrite Z.leb_refl. cbn [negb].
  assert (E1 : forall l, Forall (fun r => Forall (fun y => Sequence r < Sequence y) (e :: rest)) l ->
    List.filter (fun r => negb (Sequence r <=? Sequence e)) l = []).
  { induction 1 as [|r l Hr Hl IH]; cbn; [done|]. apply Forall_cons in Hr as [Hr _].
    by rewrite (proj2 (Z.leb_le _ _)) by lia. }
  assert (E2 : forall l, Forall (fun y => Sequence e < Sequence y) l ->
    List.filter (fun r => negb (Sequence r <=? Sequence e)) l = l).
  { induction 1 as [|r l Hr Hl IH]; cbn; [done|].
    rewrite (proj2 (Z.leb_gt _ _)) by lia. cbn. by rewrite IH. }
  by rewrite E1, E2.
Qed.

Lemma last_expired_split cutoff t e :
  last_expired cutoff t = Some e ->
  exists k rest, audit_events t = k ++ e :: rest /\ CreatedAt e < cutoff /\
    Forall (fun r => cutoff <= CreatedAt r) rest.
Proof.
  unfold last_expired. generalize (audit_events t) as rows.
  induction rows as [|r rows IH] using rev_ind; [done|].
  rewrite List.filter_app. cbn. destruct (Z.ltb_spec (CreatedAt r) cutoff).
  - rewrite last_snoc. intros [= ->]. exists rows, []. by split_and!.
  - rewrite app_nil_r. intros E. destruct (IH E) as (k & rest & -> & ? & ?).
    exists k, (rest ++ [r]). rewrite <- app_assoc. cbn. split_and!; [done|done|].
    apply Forall_app. repeat constructor; [done|lia].
Qed.

(** The rows that survive [CleanupBefore]. *)
Definition cleaned (t t' : AuditTables) (cutoff : time) (deleted : Z) : Prop :=
  exists removed,
    audit_events t = removed ++ audit_events t' /\
    deleted = Z.of_nat (List.length removed) /\
    Forall (fun r => cutoff <= CreatedAt r) (audit_events t') /\
    audit_chain_state t' = audit_chain_state t /\
    logical_head t' = logical_head t.

Lemma links_split manager k e rest seq prev :
  links manager (k ++ e :: rest) seq prev ->
  links manager rest (u64 (Sequence e + 1)) (EntryHash e) /\
  EntryHash e = signEvent manager e /\
  chain_end (k ++ e :: rest) seq prev =
    chain_end rest (u64 (Sequence e + 1)) (EntryHash e).
Proof.
  rewrite links_app. intros [_ Hl]. cbn in Hl.
  destruct Hl as (Hs & _ & _ & Hsig & Hl). rewrite chain_end_app. cbn.
  rewrite Hs. by split_and!.
Qed.

(** Rows of a linked chain are numbered from 1 when the chain has not wrapped. *)
Lemma links_positive manager k e rest t :
  typed t -> well_indexed t -> audit_events t = k ++ e :: rest ->
  links manager (audit_events t) (chain_start t).1 (chain_start t).2 ->
  1 <= Sequence e.
Proof.
  intros [Hty Hcp] Hix Ek Hl. unfold well_indexed in Hix. rewrite Ek in *.
  assert (Hfirst : forall r rows, k ++ e :: rest = r :: rows -> 1 <= Sequence r).
  { intros r rows E. rewrite E in Hl. cbn in Hl. destruct Hl as (-> & _).
    unfold chain_start. destruct (audit_checkpoint t); cbn; [|lia].
    rewrite u64_small; lia. }
  destruct k as [|r k]; [by eapply Hfirst|].
  pose proof (Hfirst _ _ eq_refl). apply StronglySorted_inv in Hix as [_ Hr].
  rewrite Forall_forall in Hr.
  specialize (Hr e ltac:(apply elem_of_app; right; left)). lia.
Qed.

Lemma checkpoint_signed manager seq hash now :
  seq <> 0 -> String.eqb hash "" = false ->
  verifyCheckpoint manager
    {| ThroughSequence := seq; ThroughEntryHash := hash;
       CheckpointSignature := signCheckpoint manager {| ThroughSequence := seq;
         ThroughEntryHash := hash; CheckpointSignature := ""; CheckpointUpdatedAt := now |};
       CheckpointUpdatedAt := now |} = true.
Proof.
  intros Hs Hh. unfold verifyCheckpoint.
  cbn [ThroughSequence ThroughEntryHash CheckpointSignature].
  unfold signCheckpoint at 1. rewrite sign_nonempty, Hh, (proj2 (Z.eqb_neq _ _) Hs). cbn [orb].
  unfold hmac_Equal. apply String.eqb_refl.
Qed.

(** Moving the checkpoint to a retained row and dropping the rows up to it. *)
Lemma cleanup_trail manager now cutoff t e :
  trail manager t -> (logical_head t).1 < 2 ^ 64 - 1 ->
  last_expired cutoff t = Some e ->
  let t' := {| audit_events := List.filter (fun r => negb (Sequence r <=? Sequence e)) (audit_events t);
    audit_checkpoint := Some {| ThroughSequence := Sequence e; ThroughEntryHash := EntryHash e;
      CheckpointSignature := signCheckpoint manager {| ThroughSequence := Sequence e;
        ThroughEntryHash := EntryHash e; CheckpointSignature := ""; CheckpointUpdatedAt := now |};
      CheckpointUpdatedAt := now |};
    audit_chain_state := audit_chain_state t |} in
  trail manager t' /\
  cleaned t t' cutoff
    (Z.of_nat (List.length (audit_events t)) - Z.of_nat (List.length (audit_events t'))).
Proof.
  intros Htr Hroom He t'.
  destruct (last_expired_split _ _ _ He) as (k & rest & Ek & Hold & Hkept).
  assert (Htr' := Htr). destruct Htr as ((Hcp & Hl & Hhead) & Hix & Hty & Htx).
  assert (Hpos : 1 <= Sequence e) by (by eapply links_positive).
  assert (Hev : audit_events t' = rest).
  { subst t'. cbn. rewrite Ek. apply filter_after. unfold well_indexed in Hix. by rewrite <- Ek. }
  assert (Hl' := Hl). rewrite Ek in Hl'. apply links_split in Hl' as (Hlr & Hsig & Hend).
  assert (Hstart : chain_start t' = (u64 (Sequence e + 1), EntryHash e)) by done.
  assert (Hlogical : logical_head t' = logical_head t).
  { unfold logical_head. by rewrite Hstart, Hev, Ek, Hend. }
  assert (Hne : String.eqb (EntryHash e) "" = false) by (rewrite Hsig; apply sign_nonempty).
  assert (Hmax : Sequence e < 2 ^ 64 - 1).
  { destruct (last (audit_events t)) as [z|] eqn:El.
    - assert (Hn := trail_next manager t (Sequence z) (EntryHash z)).
      rewrite El in Hn. destruct Hn as (_ & Hz & _ & Hall); [done|done|].
      rewrite Ek in Hall. apply Forall_app_inv in Hall as [_ Hall].
      apply Forall_cons in Hall as [? _]. lia.
    - apply last_None in El. rewrite Ek in El. by destruct k. }
  split; [split; [split_and!|split]|].
  - subst t'. cbn. apply checkpoint_signed; [lia|done].
  - by rewrite Hstart, Hev.
  - unfold head_ok in *. rewrite Hlogical. done.
  - unfold well_indexed in *. rewrite Hev. rewrite Ek in Hix.
    apply StronglySorted_app_inv in Hix as (_ & Hix & _). by apply StronglySorted_inv in Hix as [? _].
  - destruct Hty as [Hty _]. destruct Htx as [Htx _]. rewrite Ek in Hty, Htx.
    apply Forall_app_inv in Hty as [_ Hty], Htx as [_ Htx].
    apply Forall_cons in Hty as [_ Hty], Htx as [Hte Htx].
    split; (split; [by rewrite Hev|subst t'; cbn]); [lia|].
    by apply andb_true_iff in Hte as [_ ?].
  - exists (k ++ [e]). rewrite Hev, Ek, <- app_assoc. split_and!; try done.
    rewrite !length_app. cbn. lia.
Qed.

(** ** Runs without faults *)

Lemma chain_start_range t : typed t -> 1 <= (chain_start t).1 < 2 ^ 64.
Proof.
  intros [_ Hcp]. unfold chain_start. destruct (audit_checkpoint t); cbn; [|lia].
  rewrite u64_small; lia.
Qed.

Lemma verifyStoredHead_trail manager t seq prev :
  trail manager t ->
  match last (audit_events t), audit_checkpoint t with
  | Some e, _ => (seq, prev) = (Sequence e, EntryHash e)
  | None, Some c => (seq, prev) = (ThroughSequence c, ThroughEntryHash c)
  | None, None => (seq, prev) = (0, genesisHash)
  end ->
  verifyStoredHead manager seq prev (World t []) = (Ok tt, World t []).
Proof.
  intros Htr Hh. destruct (trail_next _ _ _ _ Htr Hh) as (Hend & Hseq & Hr & _).
  destruct Htr as ((_ & _ & Hhead) & _). unfold head_ok, logical_head in *.
  rewrite Hend in Hhead, Hseq. rewrite u64_succ_pred, u64_small in Hhead by lia.
  unfold verifyStoredHead, bind, attempt, first, statement. cbn.
  destruct (audit_chain_state t) as [st|].
  - destruct Hhead as [Hv [= Hs Hp]]. rewrite Hv, Hs. cbn [negb orb]. rewrite Z.eqb_refl.
    unfold verifyState in Hv. destruct (StateLastSequence st =? 0) eqn:E0; [done|].
    rewrite Hs in E0. rewrite E0 in Hp. by rewrite Hp, String.eqb_refl.
  - cbn in Hhead. rewrite Hhead. done.
Qed.

Lemma loadChainHead_run t :
  exists seq prev,
    loadChainHead (World t []) = (Ok (seq, prev), World t []) /\
    match last (audit_events t), audit_checkpoint t with
    | Some e, _ => (seq, prev) = (Sequence e, EntryHash e)
    | None, Some c => (seq, prev) = (ThroughSequence c, ThroughEntryHash c)
    | None, None => (seq, prev) = (0, genesisHash)
    end.
Proof.
  unfold loadChainHead, bind, attempt, first, statement. cbn.
  destruct (last (audit_events t)); cbn; [by eauto|].
  destruct (audit_checkpoint t); cbn; by eauto.
Qed.

(** The only obstacle to an append is an entry hash that is already stored. *)
Lemma append_tx_total manager now event t :
  trail manager t -> (logical_head t).1 < 2 ^ 64 - 1 ->
  (exists e t', append_tx manager now event (World t []) = (Ok e, World t' [])) \/
  exists prev row, In row (audit_events t) /\
    EntryHash row = signEvent manager (with_link event ((logical_head t).1 + 1) prev "") /\
    append_tx manager now event (World t []) =
      (Fail (ErrorString "UNIQUE constraint failed: audit_events.entry_hash"), World t []).
Proof.
  intros Htr Hroom. destruct (loadChainHead_run t) as (seq & prev & Hload & Hh).
  destruct (trail_next _ _ _ _ Htr Hh) as (_ & Hlh & Hr & Hle). rewrite Hlh in Hroom.
  set (linked := with_link event (seq + 1) prev (signEvent manager (with_link event (seq + 1) prev ""))).
  assert (Hrun : append_tx manager now event (World t []) =
    (let* created := exec (create_event linked) in
     let* _ := exec (save_state {| StateLastSequence := Sequence created;
       StateLastEntryHash := EntryHash created;
       StateSignature := signState manager {| StateLastSequence := Sequence created;
         StateLastEntryHash := EntryHash created; StateSignature := ""; StateUpdatedAt := now |};
       StateUpdatedAt := now |}) in ret created) (World t [])).
  { unfold append_tx. unfold bind at 1. rewrite Hload. unfold bind at 1.
    rewrite (verifyStoredHead_trail _ _ _ _ Htr Hh). cbn [Sequence with_link].
    by rewrite (u64_small (seq + 1)) by lia. }
  rewrite Hrun. unfold bind at 1 3. unfold exec at 1 3, statement at 1 2, next_fault at 1 2.
  cbn [faults tables]. unfold create_event. subst linked. cbn [Sequence with_link EntryHash].
  destruct (existsb (fun row => Sequence row =? seq + 1) _) eqn:E1.
  { apply existsb_exists in E1 as (row & Hin & Hrow). apply Z.eqb_eq in Hrow.
    rewrite Forall_forall in Hle. apply list_elem_of_In, Hle in Hin. lia. }
  destruct (existsb (fun row => String.eqb _ _) _) eqn:E2.
  - apply existsb_exists in E2 as (row & Hin & Hrow). apply String.eqb_eq in Hrow.
    right. exists prev, row. rewrite Hlh. split; [done|]. split; [exact Hrow|reflexivity].
  - left. eexists _, _. reflexivity.
Qed.

Lemma logical_head_range t : 0 <= (logical_head t).1 < 2 ^ 64.
Proof. unfold logical_head. destruct (chain_end _ _ _). apply u64_range. Qed.

Lemma rows_from manager rows seq prev :
  StronglySorted (fun a b => Sequence a < Sequence b) rows ->
  links manager rows seq prev -> Forall (fun e => seq <= Sequence e) rows.
Proof.
  destruct rows as [|e rows]; [done|]. cbn. intros [_ Hs]%StronglySorted_inv (<- & _).
  constructor; [lia|]. eapply Forall_impl; [exact Hs|]. intros; cbn in *; lia.
Qed.

(** ** Chains with the same end *)

Lemma links_signed manager rows : forall seq prev,
  links manager rows seq prev -> Forall (fun e => EntryHash e = signEvent manager e) rows.
Proof.
  induction rows as [|e rows IH]; intros seq prev; [done|].
  cbn [links]. intros (_ & _ & _ & He & Hl). constructor; eauto.
Qed.

(** Two different payloads with the same keyed digest. *)
Definition collision (manager : Manager) : Prop :=
  exists p p', p <> p' /\ sign manager p = sign manager p'.

Definition same_content (rows rows' : list AuditEvent) : Prop :=
  map eventPayload rows = map eventPayload rows' /\ map EntryHash rows = map EntryHash rows'.

Lemma signEvent_inj manager e e' :
  forallb well_formed (eventPayload e) = true ->
  signEvent manager e = signEvent manager e' ->
  eventPayload e = eventPayload e' \/ collision manager.
Proof.
  intros Hwf Hs. destruct (String.eqb_spec (event_bytes e) (event_bytes e')) as [E|E].
  - left. by apply (Marshal_inj event_keys).
  - right. by exists (event_bytes e), (event_bytes e').
Qed.

Lemma chain_end_open manager rows seq prev :
  1 <= seq < 2 ^ 64 ->
  Forall (fun e => 0 <= Sequence e < 2 ^ 64) rows ->
  StronglySorted (fun a b => Sequence a < Sequence b) rows ->
  links manager rows seq prev -> (chain_end rows seq prev).1 = seq -> rows = [].
Proof.
  intros Hseq Hty Hix Hl. destruct rows as [|e k _] using rev_ind; [done|].
  rewrite (chain_end_snoc manager) by done. cbn. intros He.
  apply (rows_from manager _ seq prev) in Hix; [|done].
  apply Forall_app_inv in Hix as [_ [Hix _]%Forall_cons].
  apply Forall_app_inv in Hty as [_ [Hty _]%Forall_cons].
  destruct (Z.eq_dec (Sequence e) (2 ^ 64 - 1)) as [E|E].
  - rewrite E in He. vm_compute in He. lia.
  - rewrite u64_small in He; lia.
Qed.

Lemma chains_agree manager seq prev rows : forall rows',
  1 <= seq < 2 ^ 64 ->
  Forall (fun e => 0 <= Sequence e < 2 ^ 64) rows ->
  Forall (fun e => 0 <= Sequence e < 2 ^ 64) rows' ->
  StronglySorted (fun a b => Sequence a < Sequence b) rows ->
  StronglySorted (fun a b => Sequence a < Sequence b) rows' ->
  Forall (fun e => textual_event e = true) rows ->
  links manager rows seq prev -> links manager rows' seq prev ->
  chain_end rows seq prev = chain_end rows' seq prev ->
  same_content rows rows' \/ collision manager.
Proof.
  induction rows as [|e k IH] using rev_ind; intros rows' Hseq Ty Ty' Ix Ix' Tx L L' E.
  { rewrite (chain_end_open manager rows' seq prev) by (done || by rewrite <- E). by left. }
  destruct rows' as [|e' k' _] using rev_ind.
  { apply (chain_end_open manager (k ++ [e]) seq prev) in Hseq; [|by rewrite ?E..].
    by destruct k. }
  rewrite !(chain_end_snoc manager) in E by done. injection E as _ Eh.
  apply links_app in L as [L Le], L' as [L' Le']. cbn in Le, Le'.
  destruct Le as (Es & Ep & _ & Hsig & _), Le' as (Es' & Ep' & _ & Hsig' & _).
  apply Forall_app_inv in Tx as [Tx [Hte _]%Forall_cons].
  apply andb_true_iff in Hte as [Hte _].
  destruct (signEvent_inj manager e e' Hte) as [Hpay|]; [congruence| |by right].
  apply Forall_app_inv in Ty as [Ty _], Ty' as [Ty' _].
  apply StronglySorted_app_inv in Ix as [Ix _], Ix' as [Ix' _].
  destruct (IH k') as [[Hp Hh]|]; try done; [|left|by right].
  - assert (Sequence e = Sequence e' /\ PreviousHash e = PreviousHash e') as [? ?]
      by (unfold eventPayload in Hpay; by injection Hpay).
    rewrite (surjective_pairing (chain_end k seq prev)).
    rewrite (surjective_pairing (chain_end k' seq prev)). congruence.
  - split; rewrite !map_app; cbn; congruence.
Qed.

(** The invariant without the signatures: what the schema alone guarantees. *)
Definition schema (t : AuditTables) : Prop := well_indexed t /\ typed t.

Lemma heads_agree manager t t' :
  trail manager t -> schema t' -> intact manager t' ->
  audit_checkpoint t' = audit_checkpoint t ->
  audit_chain_state t' = audit_chain_state t ->
  chain_end (audit_events t) (chain_start t).1 (chain_start t).2 =
  chain_end (audit_events t') (chain_start t').1 (chain_start t').2.
Proof.
  intros ((_ & L & Hh) & Ix & Ty & _) [Ix' Ty'] (_ & L' & Hh') Hcp Hst.
  assert (Hs : chain_start t' = chain_start t) by (unfold chain_start; by rewrite Hcp).
  pose proof (chain_start_range t Ty) as Hr. rewrite Hs in *.
  assert (Hlh : logical_head t = logical_head t' \/
    (logical_head t).1 = 0 /\ (logical_head t').1 = 0).
  { unfold head_ok in *. rewrite Hst in Hh'. destruct (audit_chain_state t); [|auto].
    left. destruct Hh as [_ <-], Hh' as [_ <-]. done. }
  unfold logical_head in Hlh. rewrite Hs in Hlh.
  destruct Ty as [Ty _], Ty' as [Ty' _].
  assert (Hrange : forall rows, links manager rows (chain_start t).1 (chain_start t).2 ->
    0 <= (chain_end rows (chain_start t).1 (chain_start t).2).1 < 2 ^ 64).
  { intros rows Hrows. destruct rows as [|e k _] using rev_ind; [cbn; lia|].
    rewrite (chain_end_snoc manager) by done. apply u64_range. }
  assert (Hzero : forall rows, Forall (fun e => 0 <= Sequence e < 2 ^ 64) rows ->
    StronglySorted (fun a b => Sequence a < Sequence b) rows ->
    links manager rows (chain_start t).1 (chain_start t).2 ->
    u64 ((chain_end rows (chain_start t).1 (chain_start t).2).1 - 1) = 0 -> rows = []).
  { intros rows T I Lr. destruct rows as [|e k _] using rev_ind; [done|].
    rewrite (chain_end_snoc manager) by done. cbn. rewrite u64_succ_pred.
    apply (rows_from manager _ _ _) in Lr; [|done].
    apply Forall_app_inv in Lr as [_ [Hx _]%Forall_cons].
    apply Forall_app_inv in T as [_ [Hy _]%Forall_cons]. rewrite u64_small by lia. lia. }
  pose proof (Hrange _ L) as R1. pose proof (Hrange _ L') as R2.
  pose proof (Hzero _ Ty Ix L) as Z1. pose proof (Hzero _ Ty' Ix' L') as Z2.
  destruct (chain_end (audit_events t) _ _) as [s p] eqn:E1.
  destruct (chain_end (audit_events t') _ _) as [s' p'] eqn:E2. cbn [fst snd] in *.
  destruct (Z.eq_dec (u64 (s - 1)) 0) as [Ez|Ez], (Z.eq_dec (u64 (s' - 1)) 0) as [Ez'|Ez'];
    try (destruct Hlh as [[= ? ?]|[? ?]]; congruence).
  - rewrite Z1 in E1 by done. rewrite Z2 in E2 by done. congruence.
  - destruct Hlh as [[= Hs1 Hp1]|[? ?]]; [|done].
    rewrite <- Hs1, (proj2 (Z.eqb_neq _ _) Ez) in Hp1. rewrite Hp1. f_equal.
    unfold u64 in Hs1, Ez, Ez'.
    destruct (Z.eq_dec s 0), (Z.eq_dec s' 0); subst; try done;
      rewrite ?(Z.mod_small (s - 1)), ?(Z.mod_small (s' - 1)) in Hs1 by lia;
      change ((0 - 1) mod 2 ^ 64) with (2 ^ 64 - 1) in Hs1; lia.
Qed.

(** ** Sanitised text *)

Lemma encode_rune_len r : 1 <= len (encode_rune r) <= 4.
Proof. unfold encode_rune. repeat case_match; unfold len; cbn; lia. Qed.

Lemma sanitize_runes_len limit written rs :
  written < limit -> len (encode_runes (sanitize_runes limit written rs)) <= limit - written + 3.
Proof.
  revert written. induction rs as [|r rs IH]; intros written Hw; [change (len (encode_runes _)) with 0; lia|].
  cbn [sanitize_runes]. set (c := if isControl r then 32 else r).
  pose proof (encode_rune_len c).
  change (encode_runes (c :: ?l)) with (encode_rune c +:+ encode_runes l). rewrite len_app.
  destruct (Z.leb_spec limit (written + len (encode_rune c))).
  - change (len (encode_runes [])) with 0. lia.
  - specialize (IH (written + len (encode_rune c))). lia.
Qed.

Lemma sanitize_runes_no_control limit written rs :
  Forall (fun r => isControl r = false) (sanitize_runes limit written rs).
Proof.
  revert written. induction rs as [|r rs IH]; intros written; cbn; [constructor|].
  constructor; [by destruct (isControl r) eqn:E|]. by destruct (limit <=? _).
Qed.

Lemma sanitize_runes_id limit rs : forall written,
  Forall (fun r => isControl r = false) rs ->
  written + len (encode_runes rs) <= limit ->
  sanitize_runes limit written rs = rs.
Proof.
  induction rs as [|r rs IH]; intros written Hc Hl; [done|]. apply Forall_cons in Hc as [Hr Hc].
  cbn [sanitize_runes]. rewrite Hr.
  change (encode_runes (r :: rs)) with (encode_rune r +:+ encode_runes rs) in Hl.
  rewrite len_app in Hl. pose proof (len_nonneg (encode_runes rs)).
  destruct (Z.leb_spec limit (written + len (encode_rune r))).
  - assert (Hz : len (encode_runes rs) = 0) by lia. destruct rs as [|r' rs]; [done|].
    change (encode_runes (r' :: rs)) with (encode_rune r' +:+ encode_runes rs) in Hz.
    rewrite len_app in Hz. pose proof (encode_rune_len r'). pose proof (len_nonneg (encode_runes rs)). lia.
  - rewrite IH; [done|done|lia].
Qed.

Lemma sanitize_no_control value limit :
  Forall (fun r => isControl r = false) (runes (sanitize value limit)).
Proof.
  unfold sanitize. destruct (_ || _); [constructor|].
  set (rs := sanitize_runes limit 0 (runes (TrimSpace value))).
  assert (Hv : forallb valid_rune rs = true) by (apply sanitize_runes_valid, runes_valid).
  unfold runes. rewrite tokens_TrimSpace by (by apply valid_encode_runes).
  apply Forall_map_iff, trim_tokens_Forall.
  apply (Forall_map_iff tok_rune (fun r => isControl r = false)).
  change (map tok_rune (tokens (encode_runes rs))) with (runes (encode_runes rs)).
  rewrite runes_encode by done. apply sanitize_runes_no_control.
Qed.

Lemma sanitize_len value limit : 0 < limit -> len (sanitize value limit) <= limit + 3.
Proof.
  intros Hl. unfold sanitize. destruct (_ || _); [change (len "") with 0; lia|].
  pose proof (TrimSpace_len (encode_runes (sanitize_runes limit 0 (runes (TrimSpace value))))).
  pose proof (sanitize_runes_len limit 0 (runes (TrimSpace value)) Hl). lia.
Qed.

Lemma verify_rows_total manager rows : forall result seq prev t,
  exists r, verify_rows manager rows result seq prev (World t []) = (Ok r, World t []).
Proof.
  induction rows as [|e rows IH]; intros; [by eexists|].
  cbn [verify_rows]. unfold bind, wrapping, read, statement, next_fault.
  cbn [faults tables fst snd].
  destruct (negb (Sequence e =? seq) || _ || _); [by eexists|].
  destruct (negb (hmac_Equal _ _)); [by eexists|]. apply IH.
Qed.

Lemma verifyLocked_total manager t :
  exists r, verifyLocked manager (World t []) = (Ok r, World t []).
Proof.
  assert (Hscan : forall res s p,
    exists r, verify_scan manager res s p (World t []) = (Ok r, World t [])).
  { intros res s p. unfold verify_scan. unfold bind at 1, wrapping at 1, read at 1, statement at 1.
    cbn [next_fault faults tables]. unfold bind at 1.
    destruct (verify_rows_total manager (audit_events t) res s p t) as [[bad|[[res' s'] p']] ->];
      [by eexists|].
    unfold bind, wrapping, read, statement, next_fault, verify_head, attempt, first.
    cbn [faults tables]. unfold bind, attempt, statement, next_fault. cbn [faults tables].
    destruct (audit_chain_state t) as [st|].
    - destruct (_ || _ || _); by eexists.
    - cbn. destruct (0 <? _); by eexists. }
  unfold verifyLocked, bind, attempt, first, statement, next_fault. cbn [faults tables].
  destruct (audit_checkpoint t) as [c|].
  - destruct (negb _); [by eexists|apply Hscan].
  - cbn. apply Hscan.
Qed.

Lemma verify_rows_readonly manager rows : forall result seq prev,
  readonly (verify_rows manager rows result seq prev).
Proof. induction rows as [|e rows IH]; intros; cbn [verify_rows]; footprint. Qed.

Lemma verifyLocked_readonly manager : readonly (verifyLocked manager).
Proof.
  assert (Hscan : forall res s p, readonly (verify_scan manager res s p)).
  { intros. unfold verify_scan, verify_head. pose proof verify_rows_readonly. footprint. }
  unfold verifyLocked. footprint; apply Hscan.
Qed.

Lemma CleanupBefore_Ok manager now cutoff w r w' :
  CleanupBefore (Some manager) now cutoff w = (Ok r, w') ->
  trail manager (tables w) -> (logical_head (tables w)).1 < 2 ^ 64 - 1 ->
  trail manager (tables w') /\
  cleaned (tables w) (tables w') cutoff (DeletedEntries r).
Proof.
  intros Hrun Htr Hroom. unfold CleanupBefore in Hrun. run_inv.
  match goal with Hf : verifyLocked _ _ = _ |- _ => apply verifyLocked_Ok in Hf as [Ht _] end.
  destruct (negb (Valid _)); [done|]. run_inv.
  match goal with Hf : first _ _ = (?x, _) |- _ => destruct x as [e|err] end.
  - run_inv. unfold delete_through in *.
    match goal with Hf : save_checkpoint _ _ = _ |- _ => injection Hf as _ Hsave end.
    match goal with Hf : Ok _ = Ok _ |- _ => injection Hf as Hn Hdel end.
    match goal with Hf : last_expired _ _ = Some _ |- _ => rename Hf into Hlast end.
    cbn [DeletedEntries].
    assert (E4 : tables x4 = tables w) by congruence.
    rewrite Ht in Hlast. rewrite <- Hsave, E4 in Hdel, Hn. rewrite H3, <- Hdel, <- Hn.
    exact (cleanup_trail manager now cutoff (tables w) e Htr Hroom Hlast).
  - destruct (is_not_found err) eqn:En; [|done]. run_inv.
    match goal with Hf : first _ _ = (Fail _, _) |- _ =>
      destruct (first_not_found _ _ _ _ Hf En) as [Hn Ht'] end.
    simplify_eq. rewrite Ht', Ht in *. split; [done|]. exists []. split_and!; try done.
    unfold last_expired in Hn. apply last_None in Hn.
    apply Forall_forall. intros r Hr. apply list_elem_of_In in Hr.
    destruct (Z.ltb_spec (CreatedAt r) cutoff) as [Hlt|]; [|done].
    assert (Hx : In r []) by (rewrite <- Hn; apply filter_In; split; [done|by apply Z.ltb_lt]).
    done.
Qed.


(** Without faults a cleanup of an intact trail is never refused. *)
Lemma CleanupBefore_total manager now cutoff t :
  trail manager t ->
  exists r w', CleanupBefore (Some manager) now cutoff (World t []) = (Ok r, w').
Proof.
  intros (Hi & _). unfold CleanupBefore. unfold bind at 1.
  destruct (verifyLocked_total manager t) as [v Hv]. rewrite Hv.
  apply verifyLocked_Ok in Hv as [_ Hv]. rewrite (proj2 Hv Hi). cbn [negb].
  unfold bind at 1, attempt, first, statement, next_fault. cbn [faults tables].
  destruct (last_expired cutoff t); cbn; by eexists _, _.
Qed.

(** ** Properties of the audit trail *)

Section demo.
Definition demo_manager : Manager := mkManager (repeat 7 32).

Definition demo_input (n : Z) (action : string) : EventInput :=
  {| in_RequestID := "r" +:+ Itoa n; in_EventType := "http"; in_Action := action;
     in_Method := "post"; in_Route := "/v1/" +:+ action; in_Path := "/v1/" +:+ action;
     in_Status := 200; in_Outcome := ""; in_Sensitive := true; in_UserID := 3;
     in_Username := "root"; in_AuthMode := "session"; in_RemoteIP := "10.0.0.1";
     in_UserAgent := "curl"; in_ContentLength := 12; in_DurationMS := 5;
     in_Message := "ok"; in_CreatedAt := unixEpochSeconds * Second + n * Hour |}.

Definition empty_audit : AuditTables := mkAuditTables [] None None.

#[local] Existing Instance latin1_case.

(** The tables after [n] appends. *)
Fixpoint demo_audit (n : nat) : AuditTables :=
  match n with
  | O => empty_audit
  | S n =>
      let t := demo_audit n in
      tables (Append (Some demo_manager) 0 (demo_input (Z.of_nat n) "act") (World t [])).2
  end.
End demo.

Lemma trail_empty manager : trail manager empty_audit.
Proof. split_and!; repeat constructor. Qed.

Lemma Append_trail `{!UnicodeCase} manager now input w e w' :
  Append (Some manager) now input w = (Ok e, w') ->
  trail manager (tables w) -> (logical_head (tables w)).1 < 2 ^ 64 - 1 ->
  trail manager (tables w') /\
  audit_events (tables w') = audit_events (tables w) ++ [e] /\
  audit_checkpoint (tables w') = audit_checkpoint (tables w) /\
  Sequence e = (logical_head (tables w)).1 + 1.
Proof.
  intros Hrun Htr Hroom. apply append_loop_Ok in Hrun as (w1 & w2 & Ht & Hrun & Ht').
  rewrite Ht', <- Ht. rewrite <- Ht in Htr, Hroom.
  eapply append_tx_trail; [exact Hrun|done| |done|done].
  intros seq prev h. apply normalize_textual.
Qed.

Lemma Append_run `{!UnicodeCase} manager now input t e t' :
  append_tx manager now (normalize now input) (World t []) = (Ok e, World t' []) ->
  Append (Some manager) now input (World t []) = (Ok e, World t' []).
Proof.
  intros Hrun. unfold Append. cbn [append_loop]. unfold bind, attempt, transaction, next_fault.
  cbn [faults tables]. by rewrite Hrun.
Qed.

(** The first append to an empty table. *)
Lemma first_append `{!UnicodeCase} manager now input :
  exists e t', Append (Some manager) now input (World empty_audit []) = (Ok e, World t' []) /\
    trail manager t' /\ audit_events t' = [e] /\ Sequence e = 1.
Proof.
  destruct (append_tx_total manager now (normalize now input) empty_audit) as [(e & t' & Hrun)|Hrow].
  - apply trail_empty.
  - done.
  - apply Append_run in Hrun. destruct (Append_trail _ _ _ _ _ _ Hrun) as (? & ? & _ & ?);
      [apply trail_empty|done|]. by exists e, t'.
  - by destruct Hrow as (? & ? & [] & _).
Qed.

(** C31: an append to an intact trail keeps it intact and adds exactly one row
    at its end: the next sequence number, the hash of its predecessor, a
    signature of its own content, and the normalised input. *)
Theorem Append_extends_trail `{!UnicodeCase} manager now input w e w'
  (Hrun : Append (Some manager) now input w = (Ok e, w'))
  (Htrail : trail manager (tables w))
  (Hroom : (logical_head (tables w)).1 < 2 ^ 64 - 1) :
  trail manager (tables w') /\
  audit_events (tables w') = audit_events (tables w) ++ [e] /\
  audit_checkpoint (tables w') = audit_checkpoint (tables w) /\
  logical_head (tables w') = ((logical_head (tables w)).1 + 1, EntryHash e) /\
  Sequence e = (logical_head (tables w)).1 + 1 /\
  exists prev, PreviousHash e = prev /\ EntryHash e = signEvent manager e /\
    e = with_id (with_link (normalize now input) (Sequence e) prev (EntryHash e)) (ID e).
Proof.
  destruct (Append_trail _ _ _ _ _ _ Hrun Htrail Hroom) as (Htr' & Hev & Hcp & Hseq).
  split; [done|]. split; [done|]. split; [done|]. split.
  - destruct Htr' as ((_ & Hl & _) & _). pose proof (logical_head_range (tables w)).
    rewrite Hev in Hl. unfold logical_head at 1. rewrite Hev.
    rewrite (chain_end_snoc manager) by done. rewrite u64_succ_pred, u64_small by lia.
    rewrite (proj2 (Z.eqb_neq _ _)) by lia. by rewrite Hseq.
  - split; [done|]. apply append_loop_Ok in Hrun as (w1 & w2 & _ & Hrun & _).
    apply append_tx_Ok in Hrun as (seq & prev & _ & -> & _). by exists prev.
Qed.

Lemma Append_extends_trail_witness :
  exists e t', audit_events t' = [e] /\ Sequence e = 1 /\ trail demo_manager t'.
Proof.
  destruct (@first_append latin1_case demo_manager 5 (demo_input 1 "login"))
    as (e & t' & Hrun & _).
  destruct (@Append_extends_trail latin1_case demo_manager 5 (demo_input 1 "login")
    (World empty_audit []) e (World t' []) Hrun (trail_empty _) eq_refl)
    as (Htr & Hev & _ & _ & Hseq & _).
  exists e, t'. split; [exact Hev|]. split; [exact Hseq|exact Htr].
Defined.

Lemma Append_succeeds `{!UnicodeCase} manager now input t
  (Htrail : trail manager t) (Hroom : (logical_head t).1 < 2 ^ 64 - 1) :
  (exists e t', Append (Some manager) now input (World t []) = (Ok e, World t' [])) \/
  collision manager.
Proof.
  destruct (append_tx_total manager now (normalize now input) t) as [(e & t' & Hrun)|Hrow];
    [done|done| |].
  - left. exists e, t'. by apply Append_run.
  - right. destruct Hrow as (prev & row & Hin & Hrow & _). apply list_elem_of_In in Hin.
    destruct (loadChainHead_run t) as (seq & prev' & _ & Hh).
    destruct (trail_next _ _ _ _ Htrail Hh) as (_ & Hlh & _ & Hle).
    destruct Htrail as ((_ & L & _) & _ & _ & Tx & _). apply links_signed in L.
    rewrite Forall_forall in L, Tx, Hle. specialize (L _ Hin). specialize (Hle _ Hin).
    destruct (signEvent_inj manager row (with_link (normalize now input)
      ((logical_head t).1 + 1) prev "")) as [Hp|]; [|congruence| |done].
    + by apply Tx, andb_true_iff in Hin as [? _].
    + injection Hp as Hs. cbn in Hle, Hs. lia.
Qed.

(** Without faults an append to an intact trail with room always succeeds,
    unless two different payloads have the same keyed digest. *)
Theorem Append_total `{!UnicodeCase} manager now input t
  (Htrail : trail manager t) (Hroom : (logical_head t).1 < 2 ^ 64 - 1) :
  (exists e t', Append (Some manager) now input (World t []) = (Ok e, World t' [])) \/
  collision manager.
Proof. by apply Append_succeeds. Qed.

Lemma Append_total_witness :
  (exists e t', @Append latin1_case (Some demo_manager) 5 (demo_input 1 "login")
    (World empty_audit []) = (Ok e, World t' [])) \/ collision demo_manager.
Proof.
  exact (@Append_total latin1_case demo_manager 5 (demo_input 1 "login") empty_audit
    (trail_empty _) eq_refl).
Defined.


(** tamper evidence. Whatever is changed, inserted, removed or reordered in
    the event table of a trail, if verification still accepts it under the
    same checkpoint and chain head then every signed field and every hash is
    unchanged, or two different payloads with the same keyed digest exist. *)
Theorem tampering_is_detected manager t t' w r w'
  (Htrail : trail manager t) (Hschema : schema t')
  (Hcp : audit_checkpoint t' = audit_checkpoint t)
  (Hst : audit_chain_state t' = audit_chain_state t)
  (Hw : tables w = t')
  (Hrun : Verify (Some manager) w = (Ok r, w')) (Hvalid : Valid r = true) :
  same_content (audit_events t) (audit_events t') \/ collision manager.
Proof.
  apply verifyLocked_Ok in Hrun as [_ Hi]. apply Hi in Hvalid. rewrite Hw in Hvalid.
  pose proof (heads_agree _ _ _ Htrail Hschema Hvalid Hcp Hst) as Hends.
  destruct Htrail as ((_ & L & _) & Ix & Ty & Tx & _), Hschema as [Ix' Ty'].
  destruct Hvalid as (_ & L' & _).
  assert (Hs : chain_start t' = chain_start t) by (unfold chain_start; by rewrite Hcp).
  rewrite Hs in *. pose proof (chain_start_range t Ty).
  destruct Ty as [Ty _], Ty' as [Ty' _]. by eapply chains_agree.
Qed.

Lemma tampering_is_detected_witness :
  exists e t', audit_events t' = [e] /\
    (same_content (audit_events t') (audit_events t') \/ collision demo_manager).
Proof.
  destruct (@first_append latin1_case demo_manager 5 (demo_input 1 "login"))
    as (e & t' & _ & Htr & Hev & _).
  destruct (verifyLocked_total demo_manager t') as [r Hr].
  exists e, t'. split; [exact Hev|].
  apply (tampering_is_detected demo_manager t' t' (World t' []) r (World t' []) Htr);
    try reflexivity.
  - destruct Htr as (_ & ? & ? & _). split; assumption.
  - exact Hr.
  - apply (proj2 (proj2 (verifyLocked_Ok _ _ _ _ Hr))). apply Htr.
Defined.

(** removing the newest entries of a trail, even together with nothing
    else, is always reported: no assumption on the digest is needed. *)
Theorem truncation_is_detected manager t removed kept w r w'
  (Htrail : trail manager t) (Hsplit : audit_events t = kept ++ removed)
  (Hremoved : removed <> [])
  (Hw : tables w = {| audit_events := kept; audit_checkpoint := audit_checkpoint t;
                      audit_chain_state := audit_chain_state t |})
  (Hrun : Verify (Some manager) w = (Ok r, w')) :
  Valid r = false.
Proof.
  destruct (Valid r) eqn:Hvalid; [|done]. exfalso.
  apply verifyLocked_Ok in Hrun as [_ Hi]. apply Hi in Hvalid. rewrite Hw in Hvalid.
  assert (Hsc : schema (tables w)).
  { destruct Htrail as (_ & Ix & [Ty Tc] & _). rewrite Hw. unfold schema, well_indexed, typed in *.
    rewrite Hsplit in *. apply Forall_app_inv in Ty as [? _].
    by apply StronglySorted_app_inv in Ix as [? _]. }
  rewrite Hw in Hsc.
  pose proof (heads_agree _ _ _ Htrail Hsc Hvalid eq_refl eq_refl) as Hends.
  destruct Htrail as ((_ & L & _) & Ix & Ty & _), Hvalid as (_ & L' & _).
  pose proof (chain_start_range t Ty) as Hr. destruct Ty as [Ty _].
  unfold chain_start in Hends, L'. cbn [audit_checkpoint audit_events] in Hends, L'.
  fold (chain_start t) in Hends, L'. unfold well_indexed in Ix. rewrite Hsplit in Hends, L, Ix, Ty.
  rewrite chain_end_app in Hends. apply links_app in L as [_ L].
  destruct (chain_end kept (chain_start t).1 (chain_start t).2) as [s p] eqn:E. cbn [fst snd] in *.
  apply Hremoved. apply (chain_end_open manager removed s p); try done.
  - destruct kept as [|e k _] using rev_ind; [injection E as <- _; done|].
    rewrite (chain_end_snoc manager) in E by done. injection E as <- _.
    destruct removed as [|e' removed]; [done|]. cbn in L. destruct L as (Hs & _).
    rewrite <- Hs. apply StronglySorted_app_inv in Ix as (_ & _ & Hk).
    apply Forall_app_inv in Hk as [_ [Hk _]%Forall_cons]. apply Forall_cons in Hk as [Hk _].
    apply Forall_app_inv in Ty as [Ty Ty']. apply Forall_cons in Ty' as [? _].
    apply Forall_app_inv in Ty as [_ [? _]%Forall_cons]. lia.
  - by apply Forall_app_inv in Ty as [_ ?].
  - by apply StronglySorted_app_inv in Ix as (_ & ? & _).
  - by rewrite Hends.
Qed.

Lemma truncation_is_detected_witness :
  exists t r, audit_events t = [] /\ verifyLocked demo_manager (World t []) = (Ok r, World t []) /\
    Valid r = false.
Proof.
  destruct (@first_append latin1_case demo_manager 5 (demo_input 1 "login"))
    as (e & t' & _ & Htr & Hev & _).
  destruct (verifyLocked_total demo_manager {| audit_events := [];
    audit_checkpoint := audit_checkpoint t'; audit_chain_state := audit_chain_state t' |})
    as [r Hr].
  eexists _, r. split; [|split; [exact Hr|]]; [reflexivity|].
  exact (truncation_is_detected demo_manager t' [e] [] (World _ []) r _ Htr Hev
    ltac:(discriminate) eq_refl Hr).
Defined.

(** Retention. A cleanup of an intact trail leaves an intact trail with the
    same logical head: exactly a prefix of the rows is gone, as many as
    reported, and every row that remains is at least as new as the cutoff.
    Without faults a cleanup of an intact trail is never refused. *)
Theorem CleanupBefore_preserves_trail manager now cutoff w r w'
  (Hrun : CleanupBefore (Some manager) now cutoff w = (Ok r, w'))
  (Htrail : trail manager (tables w))
  (Hroom : (logical_head (tables w)).1 < 2 ^ 64 - 1) :
  trail manager (tables w') /\ cleaned (tables w) (tables w') cutoff (DeletedEntries r) /\
  exists r0 w0, CleanupBefore (Some manager) now cutoff (World (tables w) []) = (Ok r0, w0).
Proof.
  destruct (CleanupBefore_Ok _ _ _ _ _ _ Hrun Htrail Hroom). split_and!; [done|done|].
  by apply CleanupBefore_total.
Qed.

Lemma CleanupBefore_preserves_trail_witness :
  exists e t' r w', audit_events t' = [e] /\
    CleanupBefore (Some demo_manager) 9 (2 ^ 62) (World t' []) = (Ok r, w') /\
    trail demo_manager (tables w') /\ cleaned t' (tables w') (2 ^ 62) (DeletedEntries r).
Proof.
  destruct (@first_append latin1_case demo_manager 5 (demo_input 1 "login"))
    as (e & t' & Hrun & Htr & Hev & Hseq).
  assert (Hroom : (logical_head t').1 < 2 ^ 64 - 1).
  { destruct (@Append_trail latin1_case _ _ _ _ _ _ Hrun (trail_empty _) eq_refl)
      as (_ & _ & Hcp & _). cbn [tables] in Hcp.
    unfold logical_head, chain_start. rewrite Hcp, Hev. reflexivity. }
  destruct (CleanupBefore_total demo_manager 9 (2 ^ 62) t' Htr) as (r & w' & Hc).
  exists e, t', r, w'. split; [exact Hev|]. split; [exact Hc|].
  destruct (CleanupBefore_preserves_trail demo_manager 9 (2 ^ 62) (World t' []) r w' Hc Htr Hroom)
    as (H1 & H2 & _). split; [exact H1|exact H2].
Defined.

(** Failed appends and cleanups, whatever statement failed and on whichever
    attempt, leave every audit table as it was. *)
Theorem audit_writes_are_atomic `{!UnicodeCase} manager now cutoff input :
  atomic (Append manager now input) /\ atomic (CleanupBefore manager now cutoff).
Proof.
  split.
  - destruct manager as [m|]; [apply append_loop_atomic|apply atomic_fail].
  - destruct manager as [m|]; [|apply atomic_fail].
    apply atomic_bind.
    + apply verifyLocked_readonly.
    + intros v. destruct (negb (Valid v)); [apply atomic_fail|].
      apply atomic_bind; [apply readonly_attempt, readonly_first|].
      intros [e|err]; [apply atomic_bind_last, atomic_transaction|].
      destruct (is_not_found err); [apply atomic_ret|apply atomic_fail].
Qed.

(** Recorded text is always valid UTF-8 without control characters or
    surrounding space, exceeds its limit by at most three bytes (the last
    rune is written before the limit is tested), and clean text within the
    limit is recorded unchanged. *)
Theorem sanitize_spec value limit :
  valid_utf8 (sanitize value limit) = true /\
  TrimSpace (sanitize value limit) = sanitize value limit /\
  Forall (fun r => isControl r = false) (runes (sanitize value limit)) /\
  len (sanitize value limit) <= Z.max 0 limit + 3 /\
  (valid_utf8 value = true -> TrimSpace value = value ->
   Forall (fun r => isControl r = false) (runes value) -> len value <= limit ->
   sanitize value limit = value).
Proof.
  split; [apply sanitize_valid|]. split; [|split; [apply sanitize_no_control|split]].
  - unfold sanitize. destruct (_ || _); [done|].
    apply TrimSpace_idemp.
  - destruct (Z_lt_le_dec 0 limit) as [Hl|Hl].
    + pose proof (sanitize_len value limit Hl). lia.
    + unfold sanitize. rewrite (proj2 (Z.leb_le _ _) Hl), orb_true_r. change (len "") with 0. lia.
  - intros Hv Ht Hc Hl. unfold sanitize. rewrite Ht.
    destruct (String.eqb_spec value "") as [->|Hne]; [done|].
    assert (0 < len value) by (destruct value; [done|unfold len; cbn; lia]).
    rewrite (proj2 (Z.leb_gt limit 0)) by lia. cbn [orb].
    rewrite sanitize_runes_id; [|done|rewrite encode_runes_runes by done; lia].
    by rewrite encode_runes_runes.
Qed.

(** The bound of C8 is attained: a three-byte rune straddling the limit. *)
Example sanitize_exceeds_limit : len (sanitize "ab中c" 3) = 5.
Proof. vm_compute. reflexivity. Qed.
