(* ===== verification/Access.v ===== *)
(** Role-based access control ([internal/services/access/service.go] and
    [operations.go]): the built-in permissions and roles, their seeding, the
    effective permissions of a user, and role assignment.

    The tables carry no foreign keys; the unique indexes and primary keys are
    the [schema] below.  An [updated_at] or [created_at] column is written by
    the code and read by none of it, so only [CreateTime], which is returned,
    is kept. *)

From S2P Require Import Prelude GoStrings GoText Store.
From stdpp Require Import sorting options.
#[local] Open Scope Z_scope.

(** ** Constants *)

Definition PermissionDashboardRead : string := "dashboard.read".
Definition PermissionRuntimeLogRead : string := "runtime_log.read".
Definition PermissionFileRead : string := "file.read".
Definition PermissionFileWrite : string := "file.write".
Definition PermissionFileCreate : string := "file.create".
Definition PermissionFileEdit : string := "file.edit".
Definition PermissionFileMove : string := "file.move".
Definition PermissionFileDelete : string := "file.delete".
Definition PermissionFileModify : string := "file.modify".
Definition PermissionFileArchive : string := "file.archive".
Definition PermissionFileShare : string := "file.share".
Definition PermissionFileScopeRoot : string := "file.scope.root".
Definition PermissionFileScopeWebsites : string := "file.scope.websites".
Definition PermissionFileScopeBackups : string := "file.scope.backups".
Definition PermissionWebsiteRead : string := "website.read".
Definition PermissionWebsiteWrite : string := "website.write".
Definition PermissionWebsiteApproval : string := "website.approval.request".
Definition PermissionCertificateRead : string := "certificate.read".
Definition PermissionCertificateWrite : string := "certificate.write".
Definition PermissionDatabaseRead : string := "database.read".
Definition PermissionDatabaseWrite : string := "database.write".
Definition PermissionDatabaseApproval : string := "database.approval.request".
Definition PermissionSoftwareRead : string := "software.read".
Definition PermissionSoftwareWrite : string := "software.write".
Definition PermissionServiceRead : string := "software.service.read".
Definition PermissionServiceWrite : string := "software.service.write".
Definition PermissionSecurityRead : string := "security.read".
Definition PermissionSecurityWrite : string := "security.write".
Definition PermissionCronRead : string := "cron.read".
Definition PermissionCronWrite : string := "cron.write".
Definition PermissionMonitoringRead : string := "monitoring.read".
Definition PermissionMonitoringWrite : string := "monitoring.write".
Definition PermissionSystemRead : string := "system.settings.read".
Definition PermissionSystemWrite : string := "system.settings.write".
Definition PermissionConfigSnapshotRead : string := "config.snapshot.read".
Definition PermissionConfigSnapshotWrite : string := "config.snapshot.write".
Definition PermissionTerminalAccess : string := "terminal.access".
Definition PermissionAuditRead : string := "audit.read".
Definition PermissionAuditExport : string := "audit.export".
Definition PermissionAuditVerify : string := "audit.verify".
Definition PermissionApprovalRead : string := "approval.read".
Definition PermissionApprovalRequest : string := "approval.request".
Definition PermissionApprovalReview : string := "approval.review".
Definition PermissionApprovalExecute : string := "approval.execute".
Definition PermissionTaskReadSelf : string := "task.read.self".
Definition PermissionTaskReadAll : string := "task.read.all".
Definition PermissionTaskCancelSelf : string := "task.cancel.self".
Definition PermissionBastionRead : string := "bastion.read".
Definition PermissionBastionWrite : string := "bastion.write".
Definition PermissionBastionIdentityRead : string := "bastion.identity.read".
Definition PermissionContainerRead : string := "container.read".
Definition PermissionContainerWrite : string := "container.write".
Definition PermissionContainerDelete : string := "container.delete".
Definition PermissionContainerTerminal : string := "container.terminal".
Definition PermissionContainerLogsRead : string := "container.logs.read".
Definition PermissionContainerImageWrite : string := "container.image.write".
Definition PermissionContainerNetworkWrite : string := "container.network.write".
Definition PermissionContainerVolumeWrite : string := "container.volume.write".
Definition PermissionContainerComposeWrite : string := "container.compose.write".
Definition PermissionContainerRegistryWrite : string := "container.registry.write".
Definition PermissionContainerConfigWrite : string := "container.config.write".
Definition PermissionContainerRuntimeInstall : string := "container.runtime.install".
Definition PermissionContainerDangerousCleanup : string := "container.dangerous.cleanup".
Definition PermissionContainerForceAction : string := "container.force_action".
Definition RoleObserver : string := "observer".
Definition RoleWebsiteAdmin : string := "website_admin".
Definition RoleDatabaseAdmin : string := "database_admin".
Definition RoleSystemOperator : string := "system_operator".
Definition RoleSecurityAuditor : string := "security_auditor".
Definition RoleOperationApprover : string := "operation_approver".
Definition RoleContainerOperator : string := "container_operator".
Definition ServiceScopeWebServer : string := "web_service".
Definition ServiceScopeRuntime : string := "runtime".
Definition ServiceScopeDatabase : string := "database".
Definition ServiceScopeCache : string := "cache".

(** ** Data *)

Record Permission := mkPermission {
  Permission_ID : Z; Permission_Code : string; Permission_Name : string;
  Permission_Description : string; Permission_Module : string
}.

Record Role := mkRole {
  Role_ID : Z; Role_Code : string; Role_Name : string; Role_Description : string;
  Role_Builtin : bool
}.

Record RolePermission := mkRolePermission { RP_RoleID : Z; RP_PermissionID : Z }.
Record UserRole := mkUserRole { UR_UserID : Z; UR_RoleID : Z; UR_AssignedAt : time }.

Record User := mkUser {
  User_ID : Z; User_Username : string; User_Password : string; User_IsAdmin : bool;
  User_FirstJoin : bool; User_MustChangePassword : bool; User_SecurityVersion : Z;
  User_CreateTime : time
}.

Record AccessTables := mkAccessTables {
  users : list User; roles : list Role; permissions : list Permission;
  role_permissions : list RolePermission; user_roles : list UserRole
}.

Record RoleSummary := mkRoleSummary {
  Summary_Code : string; Summary_Name : string; Summary_Description : string;
  Summary_Permissions : list string
}.

Record UserAccess := mkUserAccess {
  Access_UserID : Z; Access_Username : string; IsSuperAdmin : bool;
  Roles : list RoleSummary; Permissions : list string; PermissionSet : gset string;
  CanApprove : bool
}.

Definition set_users (t : AccessTables) (l : list User) : AccessTables :=
  mkAccessTables l (roles t) (permissions t) (role_permissions t) (user_roles t).
Definition set_roles (t : AccessTables) (l : list Role) : AccessTables :=
  mkAccessTables (users t) l (permissions t) (role_permissions t) (user_roles t).
Definition set_permissions (t : AccessTables) (l : list Permission) : AccessTables :=
  mkAccessTables (users t) (roles t) l (role_permissions t) (user_roles t).
Definition set_role_permissions (t : AccessTables) (l : list RolePermission) : AccessTables :=
  mkAccessTables (users t) (roles t) (permissions t) l (user_roles t).
Definition set_user_roles (t : AccessTables) (l : list UserRole) : AccessTables :=
  mkAccessTables (users t) (roles t) (permissions t) (role_permissions t) l.

(** ** The built-in catalogue *)

Definition builtinPermissions : list Permission := [
  mkPermission 0 PermissionDashboardRead "面板概览查看" "" "dashboard";
  mkPermission 0 PermissionRuntimeLogRead "运行日志查看" "" "log";
  mkPermission 0 PermissionFileRead "文件读取" "" "file";
  mkPermission 0 PermissionFileWrite "文件修改（已弃用）" "" "file";
  mkPermission 0 PermissionFileCreate "文件创建/上传" "" "file";
  mkPermission 0 PermissionFileEdit "文件编辑" "" "file";
  mkPermission 0 PermissionFileMove "文件移动/重命名" "" "file";
  mkPermission 0 PermissionFileDelete "文件删除" "" "file";
  mkPermission 0 PermissionFileModify "文件属性修改" "" "file";
  mkPermission 0 PermissionFileArchive "文件归档" "" "file";
  mkPermission 0 PermissionFileShare "文件分享" "" "file";
  mkPermission 0 PermissionFileScopeRoot "文件完整根目录" "" "file";
  mkPermission 0 PermissionFileScopeWebsites "网站目录访问" "" "file";
  mkPermission 0 PermissionFileScopeBackups "备份目录访问" "" "file";
  mkPermission 0 PermissionWebsiteRead "网站读取" "" "website";
  mkPermission 0 PermissionWebsiteWrite "网站修改" "" "website";
  mkPermission 0 PermissionWebsiteApproval "网站审批申请" "" "website";
  mkPermission 0 PermissionCertificateRead "证书读取" "" "certificate";
  mkPermission 0 PermissionCertificateWrite "证书修改" "" "certificate";
  mkPermission 0 PermissionDatabaseRead "数据库读取" "" "database";
  mkPermission 0 PermissionDatabaseWrite "数据库修改" "" "database";
  mkPermission 0 PermissionDatabaseApproval "数据库审批申请" "" "database";
  mkPermission 0 PermissionSoftwareRead "软件读取" "" "software";
  mkPermission 0 PermissionSoftwareWrite "软件修改" "" "software";
  mkPermission 0 PermissionServiceRead "组件服务读取" "" "software";
  mkPermission 0 PermissionServiceWrite "组件服务修改" "" "software";
  mkPermission 0 PermissionSecurityRead "安全配置读取" "" "security";
  mkPermission 0 PermissionSecurityWrite "安全配置修改" "" "security";
  mkPermission 0 PermissionCronRead "计划任务读取" "" "cron";
  mkPermission 0 PermissionCronWrite "计划任务修改" "" "cron";
  mkPermission 0 PermissionMonitoringRead "监控读取" "" "monitoring";
  mkPermission 0 PermissionMonitoringWrite "监控修改" "" "monitoring";
  mkPermission 0 PermissionSystemRead "系统访问配置读取" "" "system";
  mkPermission 0 PermissionSystemWrite "系统访问配置修改" "" "system";
  mkPermission 0 PermissionConfigSnapshotRead "配置快照查看" "" "configuration";
  mkPermission 0 PermissionConfigSnapshotWrite "配置快照恢复与删除" "" "configuration";
  mkPermission 0 PermissionTerminalAccess "Web 终端访问" "" "terminal";
  mkPermission 0 PermissionAuditRead "审计查看" "" "audit";
  mkPermission 0 PermissionAuditExport "审计导出" "" "audit";
  mkPermission 0 PermissionAuditVerify "审计校验" "" "audit";
  mkPermission 0 PermissionApprovalRead "审批查看" "" "approval";
  mkPermission 0 PermissionApprovalRequest "审批申请" "" "approval";
  mkPermission 0 PermissionApprovalReview "审批审核" "" "approval";
  mkPermission 0 PermissionApprovalExecute "审批执行" "" "approval";
  mkPermission 0 PermissionTaskReadSelf "本人任务查看" "" "task";
  mkPermission 0 PermissionTaskReadAll "全部任务查看" "" "task";
  mkPermission 0 PermissionTaskCancelSelf "本人任务取消" "" "task";
  mkPermission 0 PermissionBastionRead "堡垒机读取" "" "bastion";
  mkPermission 0 PermissionBastionWrite "堡垒机管理" "" "bastion";
  mkPermission 0 PermissionBastionIdentityRead "堡垒机登录身份查看" "" "bastion";
  mkPermission 0 PermissionContainerRead "容器资源读取" "" "container";
  mkPermission 0 PermissionContainerWrite "容器生命周期操作" "" "container";
  mkPermission 0 PermissionContainerDelete "容器资源删除" "" "container";
  mkPermission 0 PermissionContainerTerminal "容器终端访问" "" "container";
  mkPermission 0 PermissionContainerLogsRead "容器日志查看" "" "container";
  mkPermission 0 PermissionContainerImageWrite "镜像管理" "" "container";
  mkPermission 0 PermissionContainerNetworkWrite "容器网络管理" "" "container";
  mkPermission 0 PermissionContainerVolumeWrite "存储卷管理" "" "container";
  mkPermission 0 PermissionContainerComposeWrite "编排项目管理" "" "container";
  mkPermission 0 PermissionContainerRegistryWrite "镜像仓库管理" "" "container";
  mkPermission 0 PermissionContainerConfigWrite "Docker配置管理" "" "container";
  mkPermission 0 PermissionContainerRuntimeInstall "Docker运行时安装" "" "container";
  mkPermission 0 PermissionContainerDangerousCleanup "容器资源清理" "" "container";
  mkPermission 0 PermissionContainerForceAction "容器强制操作" "" "container"].

Definition builtinRoles : list (Role * list string) := [
  (mkRole 0 RoleObserver "只读观察员" "可查看概览、运行日志和本人任务" true, [
    PermissionDashboardRead; PermissionRuntimeLogRead; PermissionTaskReadSelf;
    PermissionBastionRead]);
  (mkRole 0 RoleWebsiteAdmin "网站管理员" "负责网站资源与相关任务" true, [
    PermissionDashboardRead; PermissionRuntimeLogRead; PermissionFileRead;
    PermissionFileCreate; PermissionFileEdit; PermissionFileMove; PermissionFileDelete;
    PermissionFileArchive; PermissionFileShare; PermissionFileScopeWebsites;
    PermissionFileScopeBackups; PermissionSoftwareRead; PermissionServiceRead;
    PermissionServiceWrite; PermissionWebsiteRead; PermissionWebsiteWrite;
    PermissionWebsiteApproval; PermissionCertificateRead; PermissionCertificateWrite;
    PermissionConfigSnapshotRead; PermissionConfigSnapshotWrite; PermissionApprovalRequest;
    PermissionTaskReadSelf; PermissionTaskCancelSelf]);
  (mkRole 0 RoleDatabaseAdmin "数据库管理员" "负责数据库资源与相关任务" true, [
    PermissionDashboardRead; PermissionRuntimeLogRead; PermissionSoftwareRead;
    PermissionServiceRead; PermissionServiceWrite; PermissionDatabaseRead;
    PermissionDatabaseWrite; PermissionDatabaseApproval; PermissionApprovalRequest;
    PermissionTaskReadSelf; PermissionTaskCancelSelf]);
  (mkRole 0 RoleSystemOperator "系统运维" "负责文件、软件、监控、计划任务与系统访问配置" true, [
    PermissionDashboardRead; PermissionRuntimeLogRead; PermissionFileRead;
    PermissionFileCreate; PermissionFileEdit; PermissionFileMove; PermissionFileDelete;
    PermissionFileModify; PermissionFileArchive; PermissionFileShare; PermissionFileScopeRoot;
    PermissionSoftwareRead; PermissionSoftwareWrite; PermissionServiceRead;
    PermissionServiceWrite; PermissionSecurityRead; PermissionSecurityWrite;
    PermissionCronRead; PermissionCronWrite; PermissionMonitoringRead;
    PermissionMonitoringWrite; PermissionCertificateRead; PermissionCertificateWrite;
    PermissionSystemRead; PermissionSystemWrite; PermissionConfigSnapshotRead;
    PermissionConfigSnapshotWrite; PermissionTerminalAccess; PermissionTaskReadSelf;
    PermissionTaskReadAll; PermissionTaskCancelSelf; PermissionBastionRead;
    PermissionBastionWrite; PermissionBastionIdentityRead]);
  (mkRole 0 RoleSecurityAuditor "安全审计员" "可查看登录审计、运行日志和审批记录" true, [
    PermissionDashboardRead; PermissionRuntimeLogRead; PermissionSecurityRead;
    PermissionMonitoringRead; PermissionAuditRead; PermissionAuditExport;
    PermissionAuditVerify; PermissionApprovalRead; PermissionBastionRead]);
  (mkRole 0 RoleOperationApprover "操作审批员" "负责审核并执行高风险操作" true, [
    PermissionApprovalRead; PermissionApprovalReview; PermissionApprovalExecute;
    PermissionTaskReadAll]);
  (mkRole 0 RoleContainerOperator "容器运维" "负责 Docker、容器和 Compose 资源管理" true, [
    PermissionDashboardRead; PermissionContainerRead; PermissionContainerWrite;
    PermissionContainerDelete; PermissionContainerLogsRead; PermissionContainerImageWrite;
    PermissionContainerNetworkWrite; PermissionContainerVolumeWrite;
    PermissionContainerComposeWrite; PermissionContainerRegistryWrite;
    PermissionContainerConfigWrite; PermissionTaskReadSelf; PermissionTaskCancelSelf])].

Definition operationPermissions : list (string * string) := [
  ("website.create", PermissionWebsiteWrite);
  ("website.update", PermissionWebsiteWrite);
  ("website.settings.update", PermissionWebsiteWrite);
  ("website.config.update", PermissionWebsiteWrite);
  ("website.webserver.config.update", PermissionWebsiteWrite);
  ("website.toggle", PermissionWebsiteWrite);
  ("software.install", PermissionSoftwareWrite);
  ("software.uninstall", PermissionSoftwareWrite);
  ("software.service_action", PermissionServiceWrite);
  ("software.configure", PermissionSoftwareWrite);
  ("firewall.rule_change", PermissionSecurityWrite);
  ("firewall.port_forward", PermissionSecurityWrite);
  ("firewall.toggle", PermissionSecurityWrite);
  ("firewall.ping", PermissionSecurityWrite);
  ("fail2ban.policy_change", PermissionSecurityWrite);
  ("fail2ban.ban", PermissionSecurityWrite);
  ("fail2ban.unban", PermissionSecurityWrite);
  ("panel.network", PermissionSystemWrite);
  ("container.create", PermissionContainerWrite);
  ("container.start", PermissionContainerWrite);
  ("container.stop", PermissionContainerWrite);
  ("container.restart", PermissionContainerWrite);
  ("container.pause", PermissionContainerWrite);
  ("container.resume", PermissionContainerWrite);
  ("container.delete", PermissionContainerDelete);
  ("container.force_stop", PermissionContainerForceAction);
  ("container.force_delete", PermissionContainerForceAction);
  ("container.terminal", PermissionContainerTerminal);
  ("container.image.pull", PermissionContainerImageWrite);
  ("container.image.import", PermissionContainerImageWrite);
  ("container.image.build", PermissionContainerImageWrite);
  ("container.image.tag", PermissionContainerImageWrite);
  ("container.image.push", PermissionContainerImageWrite);
  ("container.image.delete", PermissionContainerDelete);
  ("container.image.cleanup", PermissionContainerDangerousCleanup);
  ("container.image.build-cache", PermissionContainerDangerousCleanup);
  ("container.network.change", PermissionContainerNetworkWrite);
  ("container.volume.change", PermissionContainerVolumeWrite);
  ("container.compose.change", PermissionContainerComposeWrite);
  ("container.registry.change", PermissionContainerRegistryWrite);
  ("container.config.change", PermissionContainerConfigWrite);
  ("container.runtime.install", PermissionContainerRuntimeInstall)].

(** ** Effective permissions *)

Definition mapKeys (values : gset string) : list string := sort_strings (elements values).

Definition legacyAliases : gmap string (list string) :=
  {[ PermissionFileWrite := [PermissionFileCreate; PermissionFileEdit; PermissionFileMove;
       PermissionFileDelete; PermissionFileModify; PermissionFileArchive;
       PermissionFileShare] ]}.

(** [HasPermission]; a nil receiver is [None]. *)
Definition HasPermission (access : option UserAccess) (code : string) : bool :=
  match access with
  | None => false
  | Some access =>
      if IsSuperAdmin access then true
      else if bool_decide (code ∈ PermissionSet access) then true
      else match legacyAliases !! code with
           | Some aliases => existsb (fun alias => bool_decide (alias ∈ PermissionSet access)) aliases
           | None => false
           end
  end.

(** The rows of the query in [LoadUserAccess]: inner join with [roles], left
    joins with the permissions; a NULL permission code is scanned as [""]. *)
Definition access_rows (userID : Z) (t : AccessTables) : list (Role * string) :=
  flat_map (fun ur =>
    if negb (UR_UserID ur =? userID) then [] else
    flat_map (fun r =>
      if negb (Role_ID r =? UR_RoleID ur) then [] else
      match List.filter (fun rp => RP_RoleID rp =? Role_ID r) (role_permissions t) with
      | [] => [(r, "")]
      | links => flat_map (fun rp =>
          match List.filter (fun p => Permission_ID p =? RP_PermissionID rp) (permissions t) with
          | [] => [(r, "")]
          | ps => map (fun p => (r, Permission_Code p)) ps
          end) links
      end) (roles t)) (user_roles t).

(** [ORDER BY r.code ASC, p.code ASC]. *)
Definition row_le (a b : Role * string) : Prop :=
  (String.ltb (Role_Code a.1) (Role_Code b.1)
   || (String.eqb (Role_Code a.1) (Role_Code b.1) && String.leb a.2 b.2)) = true.
#[global] Instance row_le_dec : RelDecision row_le.
Proof. unfold RelDecision, Decision, row_le. intros a b. apply bool_dec. Defined.

(** The loop over the rows: the role map and the permission set. *)
Definition collect_row (acc : gmap string RoleSummary * gset string) (row : Role * string)
    : gmap string RoleSummary * gset string :=
  let '(roleMap, set) := acc in
  let '(r, code) := row in
  if String.eqb (Role_Code r) "" then acc
  else
    let roleMap := match roleMap !! Role_Code r with
      | Some _ => roleMap
      | None => <[Role_Code r := mkRoleSummary (Role_Code r) (Role_Name r) (Role_Description r) []]> roleMap
      end in
    (roleMap, if String.eqb code "" then set else {[ code ]} ∪ set).

Definition finish_access (userID : Z) (username : string) (isSuperAdmin : bool)
    (summaries : list RoleSummary) (set : gset string) : UserAccess :=
  let access := mkUserAccess userID username isSuperAdmin summaries (mapKeys set) set false in
  mkUserAccess userID username isSuperAdmin summaries (mapKeys set) set
    (HasPermission (Some access) PermissionApprovalReview
     && HasPermission (Some access) PermissionApprovalExecute).

Definition LoadUserAccess (userID : Z) : M AccessTables UserAccess :=
  let* user := first (fun t => List.find (fun u => User_ID u =? userID) (users t)) in
  if User_IsAdmin user then
    let set := list_to_set (map Permission_Code builtinPermissions) in
    ret (finish_access (User_ID user) (User_Username user) true [] set)
  else
    let* rows := read (fun t => merge_sort row_le (access_rows userID t)) in
    let '(roleMap, set) := foldl collect_row (∅, ∅) rows in
    let roleCodes := sort_strings (map fst (map_to_list roleMap)) in
    let summaries := omap (fun code => roleMap !! code) roleCodes in
    ret (finish_access (User_ID user) (User_Username user) false summaries set).

(** ** Service control scopes *)

Section scopes.
Context `{!UnicodeCase}.

Definition normalize_scope (value : string) : string := ToLower (TrimSpace value).

(** The loop over the roles: [inl tt] is the early [return true], [inr]
    carries [scopedRole]. *)
Fixpoint scan_scoped_roles (rs : list RoleSummary) (scopeSet : gset string)
    (scopedRole : bool) : unit + bool :=
  match rs with
  | [] => inr scopedRole
  | role :: rs =>
      if String.eqb (Summary_Code role) RoleWebsiteAdmin then
        if bool_decide (ServiceScopeWebServer ∈ scopeSet) then inl tt
        else if bool_decide (ServiceScopeRuntime ∈ scopeSet) then inl tt
        else scan_scoped_roles rs scopeSet true
      else if String.eqb (Summary_Code role) RoleDatabaseAdmin then
        if bool_decide (ServiceScopeDatabase ∈ scopeSet) then inl tt
        else if bool_decide (ServiceScopeCache ∈ scopeSet) then inl tt
        else scan_scoped_roles rs scopeSet true
      else scan_scoped_roles rs scopeSet scopedRole
  end.

Definition scope_set (scopes : list string) : gset string :=
  list_to_set (List.filter (fun s => negb (String.eqb s "")) (map normalize_scope scopes)).

(** [component] is normalised by the code and then not used. *)
Definition CanControlServiceScopes (access : option UserAccess) (scopes : list string)
    (component : string) : bool :=
  match access with
  | None => false
  | Some a =>
      if IsSuperAdmin a || HasPermission access PermissionSoftwareWrite then true
      else
        match scan_scoped_roles (Roles a) (scope_set scopes) false with
        | inl _ => true
        | inr scopedRole => negb scopedRole && HasPermission access PermissionServiceWrite
        end
  end.

Definition CanControlServiceComponent (access : option UserAccess) (component : string) : bool :=
  CanControlServiceScopes access [] component.
End scopes.

(** ** Seeding *)

Definition next_row_id (ids : list Z) : Z := 1 + fold_right Z.max 0 ids.

(** [INSERT ... ON CONFLICT (code) DO UPDATE SET name, description, module]. *)
Definition upsert_permission (p : Permission) (t : AccessTables) : result (unit * AccessTables) :=
  if existsb (fun q => String.eqb (Permission_Code q) (Permission_Code p)) (permissions t) then
    Ok (tt, set_permissions t (map (fun q =>
      if String.eqb (Permission_Code q) (Permission_Code p)
      then mkPermission (Permission_ID q) (Permission_Code q) (Permission_Name p)
             (Permission_Description p) (Permission_Module p)
      else q) (permissions t)))
  else
    Ok (tt, set_permissions t (permissions t ++
      [mkPermission (next_row_id (map Permission_ID (permissions t))) (Permission_Code p)
         (Permission_Name p) (Permission_Description p) (Permission_Module p)])).

Definition upsert_role (r : Role) (t : AccessTables) : result (unit * AccessTables) :=
  if existsb (fun q => String.eqb (Role_Code q) (Role_Code r)) (roles t) then
    Ok (tt, set_roles t (map (fun q =>
      if String.eqb (Role_Code q) (Role_Code r)
      then mkRole (Role_ID q) (Role_Code q) (Role_Name r) (Role_Description r) (Role_Builtin r)
      else q) (roles t)))
  else
    Ok (tt, set_roles t (roles t ++
      [mkRole (next_row_id (map Role_ID (roles t))) (Role_Code r) (Role_Name r)
         (Role_Description r) (Role_Builtin r)])).

Definition delete_role_links (roleID : Z) (t : AccessTables) : result (unit * AccessTables) :=
  Ok (tt, set_role_permissions t
    (List.filter (fun rp => negb (RP_RoleID rp =? roleID)) (role_permissions t))).

(** [ON CONFLICT DO NOTHING] on the primary key, the pair. *)
Definition insert_role_link (link : RolePermission) (t : AccessTables)
    : result (unit * AccessTables) :=
  if existsb (fun rp => (RP_RoleID rp =? RP_RoleID link)
                        && (RP_PermissionID rp =? RP_PermissionID link)) (role_permissions t)
  then Ok (tt, t)
  else Ok (tt, set_role_permissions t (role_permissions t ++ [link])).

Fixpoint seed_permissions (ps : list Permission) (permissionIDByCode : gmap string Z)
    : M AccessTables (gmap string Z) :=
  match ps with
  | [] => ret permissionIDByCode
  | p :: ps =>
      let* _ := exec (upsert_permission p) in
      let* stored := first (fun t =>
        List.find (fun q => String.eqb (Permission_Code q) (Permission_Code p)) (permissions t)) in
      seed_permissions ps (<[Permission_Code p := Permission_ID stored]> permissionIDByCode)
  end.

Fixpoint seed_links (roleID : Z) (codes : list string) (permissionIDByCode : gmap string Z)
    : M AccessTables unit :=
  match codes with
  | [] => ret tt
  | code :: codes =>
      let* _ := exec (insert_role_link
        (mkRolePermission roleID (default 0 (permissionIDByCode !! code)))) in
      seed_links roleID codes permissionIDByCode
  end.

Fixpoint seed_roles (items : list (Role * list string)) (permissionIDByCode : gmap string Z)
    : M AccessTables unit :=
  match items with
  | [] => ret tt
  | (role, codes) :: items =>
      let* _ := exec (upsert_role role) in
      let* stored := first (fun t =>
        List.find (fun q => String.eqb (Role_Code q) (Role_Code role)) (roles t)) in
      let* _ := exec (delete_role_links (Role_ID stored)) in
      let* _ := seed_links (Role_ID stored) codes permissionIDByCode in
      seed_roles items permissionIDByCode
  end.

Definition seedBuiltin : M AccessTables unit :=
  transaction
    (let* permissionIDByCode := seed_permissions builtinPermissions ∅ in
     seed_roles builtinRoles permissionIDByCode).

(** ** Listing *)

(** The rows of the query in [ListRoles]; the database fixes no order. *)
Definition role_rows (t : AccessTables) : list (string * string) :=
  flat_map (fun r =>
    match List.filter (fun rp => RP_RoleID rp =? Role_ID r) (role_permissions t) with
    | [] => [(Role_Code r, "")]
    | links => flat_map (fun rp =>
        match List.filter (fun p => Permission_ID p =? RP_PermissionID rp) (permissions t) with
        | [] => [(Role_Code r, "")]
        | ps => map (fun p => (Role_Code r, Permission_Code p)) ps
        end) links
    end) (roles t).

Definition permissions_by_role (rows : list (string * string)) (code : string) : list string :=
  map snd (List.filter (fun row => negb (String.eqb row.1 "") && negb (String.eqb row.2 "")
                                   && String.eqb row.1 code) rows).

Definition ListRoles : M AccessTables (list RoleSummary) :=
  let* rs := read roles in
  let* rows := read role_rows in
  ret (map (fun r => mkRoleSummary (Role_Code r) (Role_Name r) (Role_Description r)
         (sort_strings (permissions_by_role rows (Role_Code r)))) rs).

Definition normalizePage (page pageSize : Z) : Z * Z :=
  let page := if page <=? 0 then 1 else page in
  let pageSize := if pageSize <=? 0 then 20 else pageSize in
  let pageSize := if 100 <? pageSize then 100 else pageSize in
  (page, pageSize).

(** ** Role assignment *)

(** The normalising loop of [assignRoles]. *)
Fixpoint dedupe_codes (codes : list string) (seen : gset string) : list string :=
  match codes with
  | [] => []
  | code :: codes =>
      let code := TrimSpace code in
      if String.eqb code "" then dedupe_codes codes seen
      else if bool_decide (code ∈ seen) then dedupe_codes codes seen
      else code :: dedupe_codes codes ({[ code ]} ∪ seen)
  end.

Definition delete_user_roles (userID : Z) (t : AccessTables) : result (unit * AccessTables) :=
  Ok (tt, set_user_roles t
    (List.filter (fun ur => negb (UR_UserID ur =? userID)) (user_roles t))).

Definition insert_user_role (link : UserRole) (t : AccessTables) : result (unit * AccessTables) :=
  if existsb (fun ur => (UR_UserID ur =? UR_UserID link) && (UR_RoleID ur =? UR_RoleID link))
       (user_roles t)
  then Fail (ErrorString "UNIQUE constraint failed: user_roles.user_id, user_roles.role_id")
  else Ok (tt, set_user_roles t (user_roles t ++ [link])).

Fixpoint insert_user_roles (userID : Z) (now : time) (rs : list Role) : M AccessTables unit :=
  match rs with
  | [] => ret tt
  | r :: rs =>
      let* _ := exec (insert_user_role (mkUserRole userID (Role_ID r) now)) in
      insert_user_roles userID now rs
  end.

Definition assignRoles (now : time) (userID : Z) (roleCodes : list string) : M AccessTables unit :=
  let normalized := dedupe_codes roleCodes ∅ in
  let* _ := exec (delete_user_roles userID) in
  match normalized with
  | [] => ret tt
  | _ =>
      let* found := read (fun t => List.filter (fun r =>
        existsb (String.eqb (Role_Code r)) normalized) (roles t)) in
      if negb (List.length found =? List.length normalized)%nat then
        fail (ErrorString "one or more roles do not exist")
      else insert_user_roles userID now found
  end.

Definition AssignRoles (now : time) (userID : Z) (roleCodes : list string) : M AccessTables unit :=
  transaction
    (let* user := first (fun t => List.find (fun u => User_ID u =? userID) (users t)) in
     if User_IsAdmin user then ret tt else assignRoles now userID roleCodes).

(** ** Accounts

    [HashPassword] is bcrypt with its default cost; it fails on a password
    longer than 72 bytes. *)
Section accounts.
Variable HashPassword : string -> result string.

(** [tx.Create(user)] runs the hook [BeforeCreate], which sets the creation
    time; the security version is already 1. *)
Definition insert_user (u : User) (t : AccessTables) : result (User * AccessTables) :=
  let u := mkUser (next_row_id (map User_ID (users t))) (User_Username u) (User_Password u)
             (User_IsAdmin u) (User_FirstJoin u) (User_MustChangePassword u)
             (if User_SecurityVersion u =? 0 then 1 else User_SecurityVersion u)
             (User_CreateTime u) in
  Ok (u, set_users t (users t ++ [u])).

Definition CreateUser (now : time) (username password : string) (isAdmin : bool)
    (roleCodes : list string) : M AccessTables User :=
  let username := TrimSpace username in
  if String.eqb username "" then fail (ErrorString "username is required")
  else
    match HashPassword password with
    | Fail err => fail err
    | Ok hashed =>
        transaction
          (let* user := exec (insert_user (mkUser 0 username hashed isAdmin false true 1 now)) in
           if isAdmin then ret user
           else let* _ := assignRoles now (User_ID user) roleCodes in ret user)
    end.

Definition update_password (userID : Z) (hashed : string) (t : AccessTables)
    : result (unit * AccessTables) :=
  Ok (tt, set_users t (map (fun u =>
    if User_ID u =? userID
    then mkUser (User_ID u) (User_Username u) hashed (User_IsAdmin u) (User_FirstJoin u) true
           (User_SecurityVersion u) (User_CreateTime u)
    else u) (users t))).

Definition ResetUserPassword (userID : Z) (password : string) : M AccessTables unit :=
  match HashPassword password with
  | Fail err => fail err
  | Ok hashed => exec (update_password userID hashed)
  end.
End accounts.

Definition OperationPermission (operation : string) : string * bool :=
  match (list_to_map operationPermissions : gmap string string) !! operation with
  | Some permission => (permission, true)
  | None => ("", false)
  end.

Definition OperationPermissions : gmap string string := list_to_map operationPermissions.

(** ** Specification *)

(** A table seen as its key columns: primary key and code. *)
Definition pkeys (t : AccessTables) : list (Z * string) :=
  map (fun p => (Permission_ID p, Permission_Code p)) (permissions t).
Definition rkeys (t : AccessTables) : list (Z * string) :=
  map (fun r => (Role_ID r, Role_Code r)) (roles t).

(** Both columns are unique. *)
Definition keyed (keys : list (Z * string)) : Prop :=
  NoDup (map fst keys) /\ NoDup (map snd keys).

Definition schema (t : AccessTables) : Prop :=
  keyed (pkeys t) /\ keyed (rkeys t) /\
  forall rid pid, In (mkRolePermission rid pid) (role_permissions t) -> In pid (map fst (pkeys t)).

(** The role [rc] carries the permission [pc]. *)
Definition granted (t : AccessTables) (rc pc : string) : Prop :=
  exists rid pid, In (rid, rc) (rkeys t) /\
    In (mkRolePermission rid pid) (role_permissions t) /\ In (pid, pc) (pkeys t).

(** The user [uid] has the role [rc]. *)
Definition assigned (t : AccessTables) (uid : Z) (rc : string) : Prop :=
  exists ur, In ur (user_roles t) /\ UR_UserID ur = uid /\ In (UR_RoleID ur, rc) (rkeys t).

(** ** Unique keys *)

Lemma keyed_fst keys i c d : keyed keys -> In (i, c) keys -> In (i, d) keys -> c = d.
Proof.
  intros [Hn _] Hc Hd. induction keys as [|[j e] keys IH]; [done|]. cbn in *.
  apply NoDup_cons in Hn as [Hnot Hn].
  destruct Hc as [Hc|Hc], Hd as [Hd|Hd]; simplify_eq; eauto; exfalso;
    apply Hnot, list_elem_of_In, in_map_iff; eexists (_, _); by split; [|eassumption].
Qed.

Lemma keyed_snd keys i j c : keyed keys -> In (i, c) keys -> In (j, c) keys -> i = j.
Proof.
  intros [_ Hn] Hc Hd. induction keys as [|[k e] keys IH]; [done|]. cbn in *.
  apply NoDup_cons in Hn as [Hnot Hn].
  destruct Hc as [Hc|Hc], Hd as [Hd|Hd]; simplify_eq; eauto; exfalso;
    apply Hnot, list_elem_of_In, in_map_iff; eexists (_, _); by split; [|eassumption].
Qed.

Lemma next_row_id_fresh ids : ~ In (next_row_id ids) ids.
Proof.
  intros Hin. enough (Hle : next_row_id ids <= fold_right Z.max 0 ids)
    by (unfold next_row_id in Hle; lia).
  revert Hin. generalize (next_row_id ids) as z. clear.
  induction ids as [|i ids IH]; cbn; [done|]. intros z [->|Hin]; [lia|].
  specialize (IH z Hin). lia.
Qed.

(** What an upsert does to the key columns. *)
Definition upserted (keys keys' : list (Z * string)) (code : string) : Prop :=
  keyed keys' /\ (forall k, In k keys -> In k keys') /\
  (forall i c, In (i, c) keys' -> In (i, c) keys \/ c = code) /\
  In code (map snd keys').

Lemma upserted_insert keys code :
  keyed keys -> ~ In code (map snd keys) ->
  upserted keys (keys ++ [(next_row_id (map fst keys), code)]) code.
Proof.
  intros [Hf Hs] Hnew. split_and!.
  - split; rewrite map_app; cbn; apply NoDup_app; split_and!; try done; try apply NoDup_singleton.
    + intros x Hx ->%list_elem_of_singleton. apply list_elem_of_In in Hx.
      by apply next_row_id_fresh in Hx.
    + intros x Hx ->%list_elem_of_singleton. by apply Hnew, list_elem_of_In.
  - intros k Hk. apply in_or_app. by left.
  - intros i c [?|[[= _ ->]|[]]]%in_app_or; auto.
  - rewrite map_app. apply in_or_app. right. by left.
Qed.

Lemma upserted_update keys code :
  keyed keys -> In code (map snd keys) -> upserted keys keys code.
Proof. intros. split_and!; auto. Qed.

(** Everything but the named table is left alone. *)
Lemma upsert_permission_spec p t t' :
  upsert_permission p t = Ok (tt, t') -> keyed (pkeys t) ->
  upserted (pkeys t) (pkeys t') (Permission_Code p) /\
  t' = set_permissions t (permissions t').
Proof.
  unfold upsert_permission. destruct (existsb _ _) eqn:E; intros [= <-] Hk; (split; [|done]).
  - apply existsb_exists in E as (q & Hq & E). apply String.eqb_eq in E.
    assert (Heq : pkeys (set_permissions t (map (fun q => if String.eqb (Permission_Code q)
        (Permission_Code p) then mkPermission (Permission_ID q) (Permission_Code q)
        (Permission_Name p) (Permission_Description p) (Permission_Module p) else q)
        (permissions t))) = pkeys t).
    { unfold pkeys. cbn. rewrite map_map. apply map_ext. intros q'. by destruct (String.eqb _ _). }
    rewrite Heq. apply upserted_update; [done|]. rewrite <- E. unfold pkeys. rewrite map_map.
    by apply (in_map (fun p => Permission_Code p)).
  - unfold pkeys at 2. cbn. rewrite map_app. cbn. fold (pkeys t).
    replace (map Permission_ID (permissions t)) with (map fst (pkeys t))
      by (unfold pkeys; by rewrite map_map).
    apply upserted_insert; [done|]. intros Hin. unfold pkeys in Hin. rewrite map_map in Hin.
    apply in_map_iff in Hin as (q & Hq & Hin). cbn in Hq.
    apply existsb_false_Forall in E. rewrite Forall_forall in E.
    apply list_elem_of_In, E, String.eqb_neq in Hin. done.
Qed.

Lemma upsert_role_spec r t t' :
  upsert_role r t = Ok (tt, t') -> keyed (rkeys t) ->
  upserted (rkeys t) (rkeys t') (Role_Code r) /\ t' = set_roles t (roles t').
Proof.
  unfold upsert_role. destruct (existsb _ _) eqn:E; intros [= <-] Hk; (split; [|done]).
  - apply existsb_exists in E as (q & Hq & E). apply String.eqb_eq in E.
    assert (Heq : rkeys (set_roles t (map (fun q => if String.eqb (Role_Code q)
        (Role_Code r) then mkRole (Role_ID q) (Role_Code q)
        (Role_Name r) (Role_Description r) (Role_Builtin r) else q) (roles t))) = rkeys t).
    { unfold rkeys. cbn. rewrite map_map. apply map_ext. intros q'. by destruct (String.eqb _ _). }
    rewrite Heq. apply upserted_update; [done|]. rewrite <- E. unfold rkeys. rewrite map_map.
    by apply (in_map (fun p => Role_Code p)).
  - unfold rkeys at 2. cbn. rewrite map_app. cbn. fold (rkeys t).
    replace (map Role_ID (roles t)) with (map fst (rkeys t))
      by (unfold rkeys; by rewrite map_map).
    apply upserted_insert; [done|]. intros Hin. unfold rkeys in Hin. rewrite map_map in Hin.
    apply in_map_iff in Hin as (q & Hq & Hin). cbn in Hq.
    apply existsb_false_Forall in E. rewrite Forall_forall in E.
    apply list_elem_of_In, E, String.eqb_neq in Hin. done.
Qed.

(** ** Seeding *)

(** The id map of [seedBuiltin] against the permission table. *)
Definition ids_ok (m : gmap string Z) (t : AccessTables) : Prop :=
  forall c i, m !! c = Some i -> In (i, c) (pkeys t).

(** A step of the seeding keeps the rows it does not name. *)
Definition seed_frame (t t' : AccessTables) : Prop :=
  users t' = users t /\ user_roles t' = user_roles t /\
  (forall k, In k (pkeys t) -> In k (pkeys t')) /\
  (forall k, In k (rkeys t) -> In k (rkeys t')).

Lemma seed_frame_refl t : seed_frame t t.
Proof. split_and!; auto. Qed.

Lemma seed_frame_trans t1 t2 t3 : seed_frame t1 t2 -> seed_frame t2 t3 -> seed_frame t1 t3.
Proof. intros (? & ? & ? & ?) (? & ? & ? & ?). split_and!; first [congruence | auto]. Qed.

Lemma find_code_permission code t p :
  List.find (fun q => String.eqb (Permission_Code q) code) (permissions t) = Some p ->
  In (Permission_ID p, code) (pkeys t).
Proof.
  intros [Hin E]%find_some. apply String.eqb_eq in E. rewrite <- E.
  unfold pkeys. by apply (in_map (fun p => (Permission_ID p, Permission_Code p))).
Qed.

Lemma find_code_role code t r :
  List.find (fun q => String.eqb (Role_Code q) code) (roles t) = Some r ->
  In (Role_ID r, code) (rkeys t).
Proof.
  intros [Hin E]%find_some. apply String.eqb_eq in E. rewrite <- E.
  unfold rkeys. by apply (in_map (fun r => (Role_ID r, Role_Code r))).
Qed.

Lemma granted_old_permissions t t' rc pc :
  schema t -> keyed (pkeys t') -> (forall k, In k (pkeys t) -> In k (pkeys t')) ->
  rkeys t' = rkeys t -> role_permissions t' = role_permissions t ->
  (granted t' rc pc <-> granted t rc pc).
Proof.
  intros (_ & _ & Href) Hk Hold Hr Hl. unfold granted. rewrite Hr, Hl.
  split; intros (rid & pid & ? & Hlink & Hp); exists rid, pid; split_and!; auto.
  apply Href in Hlink as Hpid. apply in_map_iff in Hpid as ([i c] & Hi & Hin). cbn in Hi. subst i.
  by rewrite (keyed_fst _ _ _ _ Hk Hp (Hold _ Hin)).
Qed.

Lemma seed_permissions_spec ps : forall m w m' w',
  seed_permissions ps m w = (Ok m', w') ->
  schema (tables w) -> ids_ok m (tables w) ->
  schema (tables w') /\ ids_ok m' (tables w') /\ seed_frame (tables w) (tables w') /\
  (forall c, In c (map Permission_Code ps) \/ is_Some (m !! c) -> is_Some (m' !! c)) /\
  rkeys (tables w') = rkeys (tables w) /\
  (forall rc pc, granted (tables w') rc pc <-> granted (tables w) rc pc).
Proof.
  induction ps as [|p ps IH]; intros m w m' w' Hrun Hs Hm; cbn in Hrun; run_inv.
  { split_and!; auto using seed_frame_refl. intros c [[]|?]. done. }
  match goal with Hf : upsert_permission p _ = Ok (?u, tables ?y) |- _ => destruct u;
    apply upsert_permission_spec in Hf as [(Hk & Hold & Hnew & _) Ht]; [|apply Hs];
    set (t1 := tables y) in * end.
  match goal with Hf : List.find _ _ = Some _ |- _ => apply find_code_permission in Hf as Hst end.
  assert (Hr1 : rkeys t1 = rkeys (tables w)) by (by rewrite Ht).
  assert (Hl1 : role_permissions t1 = role_permissions (tables w)) by (by rewrite Ht).
  assert (Hs1 : schema t1).
  { destruct Hs as (_ & Hrk & Href). split_and!; [done|by rewrite Hr1|].
    rewrite Hl1. intros rid pid Hin%Href. apply in_map_iff in Hin as (k & <- & Hin).
    by apply in_map, Hold. }
  specialize (IH _ _ _ _ Hrun). match goal with Hf : tables _ = t1 |- _ => rewrite Hf in IH end.
  destruct IH as (HA & HB & HC & HD & HE & HF); [done| |].
  { intros c i [[<- <-]|[_ Hc]]%lookup_insert_Some; [done|]. by apply Hold, Hm. }
  split_and!; try done.
  - eapply seed_frame_trans; [|exact HC]. split_and!; [by rewrite Ht..|done|by rewrite Hr1].
  - intros c Hc. apply HD. destruct (decide (c = Permission_Code p)) as [->|Hne].
    + right. by rewrite lookup_insert_eq.
    + destruct Hc as [[Hc|Hc]|Hc]; [congruence|by left|right]. by rewrite lookup_insert_ne.
  - congruence.
  - intros rc pc. rewrite HF. by apply granted_old_permissions.
Qed.

Lemma seed_links_spec rid codes m : forall w w',
  seed_links rid codes m w = (Ok tt, w') ->
  tables w' = set_role_permissions (tables w) (role_permissions (tables w')) /\
  forall rp, In rp (role_permissions (tables w')) <->
    In rp (role_permissions (tables w)) \/
    exists c, In c codes /\ rp = mkRolePermission rid (default 0 (m !! c)).
Proof.
  induction codes as [|c codes IH]; intros w w' Hrun; cbn in Hrun; run_inv.
  { subst. split; [by destruct (tables w)|]. intros rp. split; [auto|]. by intros [?|(? & [] & _)]. }
  destruct (IH _ _ Hrun) as [Ht Hlinks]. clear IH.
  match goal with Hf : insert_role_link ?l _ = _ |- _ => rename Hf into Hins;
    unfold insert_role_link in Hins end.
  assert (Hin : tables x0 = set_role_permissions (tables w) (role_permissions (tables x0)) /\
    forall rp, In rp (role_permissions (tables x0)) <-> In rp (role_permissions (tables w)) \/
      rp = mkRolePermission rid (default 0 (m !! c))).
  { destruct (existsb _ _) eqn:E; injection Hins as _ <-.
    - split; [by destruct (tables w)|]. intros rp. split; [auto|]. intros [?| ->]; [done|].
      apply existsb_exists in E as ([i j] & Hin & E). cbn in E. bool_props. by subst.
    - split; [done|]. intros rp. cbn. rewrite in_app_iff. cbn. intuition congruence. }
  destruct Hin as [Ht0 Hin]. split.
  - by rewrite Ht, Ht0 at 1.
  - intros rp. rewrite Hlinks, Hin. split.
    + intros [[?| ->]|(d & ? & ->)]; [by left| |]; right; eexists; (split; [|done]); [by left|by right].
    + intros [?|(d & [<-|?] & ->)]; eauto.
Qed.

(** One role of the seeding: its links are replaced by [codes]. *)
Lemma replace_links_granted t t' role codes m id :
  schema t -> ids_ok m t -> (forall c, In c codes -> is_Some (m !! c)) ->
  pkeys t' = pkeys t -> upserted (rkeys t) (rkeys t') role -> In (id, role) (rkeys t') ->
  (forall rp, In rp (role_permissions t') <->
     (In rp (role_permissions t) /\ RP_RoleID rp <> id) \/
     exists c, In c codes /\ rp = mkRolePermission id (default 0 (m !! c))) ->
  schema t' /\
  forall rc pc, granted t' rc pc <->
    if decide (rc = role) then In pc codes else granted t rc pc.
Proof.
  intros (Hp & Hr & Href) Hm Hcov Hpk (Hr' & Hold & Hnew & _) Hid Hlinks.
  assert (Hids : forall c, In c codes -> In (default 0 (m !! c), c) (pkeys t)).
  { intros c Hc. destruct (Hcov c Hc) as [i Hi]. rewrite Hi. by apply Hm. }
  split.
  { split_and!; [by rewrite Hpk|done|]. rewrite Hpk. intros rid pid [[Hin _]|(c & Hc & [= -> ->])]%Hlinks.
    - by eapply Href.
    - apply Hids in Hc. by apply (in_map fst) in Hc. }
  intros rc pc. unfold granted. rewrite Hpk. destruct (decide (rc = role)) as [->|Hne].
  - split.
    + intros (rid & pid & Hrid & Hlink & Hpid).
      assert (rid = id) as -> by (by eapply keyed_snd).
      apply Hlinks in Hlink as [[_ Hx]|(c & Hc & [= ->])]; [done|].
      by rewrite (keyed_fst _ _ _ _ Hp Hpid (Hids c Hc)).
    + intros Hc. exists id, (default 0 (m !! pc)). split_and!; [done| |by apply Hids].
      apply Hlinks. right. by exists pc.
  - split.
    + intros (rid & pid & Hrid & Hlink & Hpid).
      assert (rid <> id) as Hx by (intros ->; apply Hne; by eapply keyed_fst).
      apply Hlinks in Hlink as [[Hlink _]|(c & _ & [= -> _])]; [|done].
      destruct (Hnew _ _ Hrid) as [?| ->]; [|done]. by exists rid, pid.
    + intros (rid & pid & Hrid & Hlink & Hpid). exists rid, pid. split_and!; [auto| |done].
      apply Hlinks. left. split; [done|]. cbn. intros ->. apply Hne.
      apply Hold in Hrid. by eapply keyed_fst.
Qed.

(** What [items] grant to [rc], if they name it. *)
Fixpoint declared (items : list (Role * list string)) (rc : string) : option (list string) :=
  match items with
  | [] => None
  | (role, codes) :: items =>
      if String.eqb (Role_Code role) rc then Some codes else declared items rc
  end.

Lemma declared_In items rc codes :
  declared items rc = Some codes -> exists r, In (r, codes) items /\ Role_Code r = rc.
Proof.
  induction items as [|[r cs] items IH]; [done|]. cbn.
  destruct (String.eqb_spec (Role_Code r) rc); [intros [= ->]; eauto|].
  intros (q & ? & ?)%IH. eauto.
Qed.

Lemma declared_None items rc :
  ~ In rc (map (fun it => Role_Code it.1) items) -> declared items rc = None.
Proof.
  induction items as [|[r cs] items IH]; [done|]. cbn. intros Hn.
  destruct (String.eqb_spec (Role_Code r) rc); [exfalso; auto|auto].
Qed.

Lemma seed_roles_spec items m : forall w w',
  seed_roles items m w = (Ok tt, w') ->
  schema (tables w) -> ids_ok m (tables w) ->
  NoDup (map (fun it => Role_Code it.1) items) ->
  (forall r codes c, In (r, codes) items -> In c codes -> is_Some (m !! c)) ->
  schema (tables w') /\ seed_frame (tables w) (tables w') /\
  pkeys (tables w') = pkeys (tables w) /\
  (forall rc, In rc (map (fun it => Role_Code it.1) items) -> In rc (map snd (rkeys (tables w')))) /\
  forall rc pc, granted (tables w') rc pc <->
    match declared items rc with Some codes => In pc codes | None => granted (tables w) rc pc end.
Proof.
  induction items as [|[role codes] items IH]; intros w w' Hrun Hs Hm Hnd Hcov; cbn in Hrun; run_inv.
  { subst. split_and!; auto using seed_frame_refl. by intros ? []. }
  match goal with Hf : upsert_role role _ = Ok (?u, _) |- _ => destruct u;
    apply upsert_role_spec in Hf as [Hup Ht]; [|apply Hs] end.
  match goal with Hf : List.find _ _ = Some _ |- _ => apply find_code_role in Hf as Hst end.
  match goal with Hf : tables _ = tables _ |- _ => rename Hf into Hsame end.
  match goal with Hf : delete_role_links _ _ = _ |- _ => injection Hf as _ Hdel end.
  match goal with Hf : seed_links _ _ _ _ = (Ok ?u, ?y) |- _ => destruct u;
    apply seed_links_spec in Hf as [Hl Hlinks]; set (t1 := tables y) in *;
    assert (Hy : tables y = t1) by done end.
  rewrite Hsame in Hdel. rewrite <- Hdel in Hl, Hlinks.
  cbn [role_permissions set_role_permissions] in Hlinks.
  apply NoDup_cons in Hnd as [Hnot Hnd].
  assert (Hrk : rkeys t1 = rkeys (tables x0)) by (by rewrite Hl).
  assert (Hpk : pkeys t1 = pkeys (tables w)) by (rewrite Hl, Ht; done).
  destruct (replace_links_granted (tables w) t1 (Role_Code role) codes m (Role_ID x1))
    as [Hs1 Hg1]; try done.
  { intros c Hc. eapply Hcov; [by left|done]. }
  { by rewrite Hrk. }
  { by rewrite Hrk. }
  { intros rp. rewrite Hlinks, filter_In, Ht. cbn. rewrite negb_true_iff, Z.eqb_neq. done. }
  destruct (IH _ _ Hrun) as (HA & HB & HC & HD & HE); rewrite ?Hy in *; try done.
  { intros c i Hc. rewrite Hpk. by apply Hm. }
  { intros r cs c Hin. eapply Hcov. by right. }
  split_and!.
  - done.
  - eapply seed_frame_trans; [|exact HB]. split_and!.
    + rewrite Hl, Ht. done.
    + rewrite Hl, Ht. done.
    + intros k Hk. by rewrite Hpk.
    + intros k Hk. rewrite Hrk. by apply Hup.
  - congruence.
  - cbn. intros rc [<-|Hrc]; [|auto]. destruct HB as (_ & _ & _ & HB).
    assert (Hin : In (Role_ID x1, Role_Code role) (rkeys t1)) by (by rewrite Hrk).
    apply HB in Hin. by apply (in_map snd) in Hin.
  - intros rc pc. cbn. rewrite HE. destruct (String.eqb_spec (Role_Code role) rc) as [<-|Hne].
    + rewrite declared_None by (by intros ?%list_elem_of_In). rewrite Hg1.
      by rewrite decide_True by done.
    + destruct (declared items rc); [done|]. rewrite Hg1. by rewrite decide_False by congruence.
Qed.

(** ** Loading *)

Lemma In_access_rows uid t r pc :
  In (r, pc) (access_rows uid t) <->
  exists ur, In ur (user_roles t) /\ UR_UserID ur = uid /\ In r (roles t) /\
    Role_ID r = UR_RoleID ur /\
    ((exists rp p, In rp (role_permissions t) /\ RP_RoleID rp = Role_ID r /\
       In p (permissions t) /\ Permission_ID p = RP_PermissionID rp /\ Permission_Code p = pc) \/
     pc = "" /\
       (List.filter (fun rp => RP_RoleID rp =? Role_ID r) (role_permissions t) = [] \/
        exists rp, In rp (role_permissions t) /\ RP_RoleID rp = Role_ID r /\
          List.filter (fun p => Permission_ID p =? RP_PermissionID rp) (permissions t) = [])).
Proof.
  unfold access_rows. rewrite in_flat_map. apply exist_proper. intros ur.
  destruct (Z.eqb_spec (UR_UserID ur) uid) as [Hu|Hu]; cbn [negb]; [|split; [by intros [_ []]|tauto]].
  rewrite in_flat_map. split.
  - intros (Hur & r' & Hr' & Hin). destruct (Z.eqb_spec (Role_ID r') (UR_RoleID ur)) as [Hid|];
      cbn [negb] in Hin; [|done].
    destruct (List.filter _ (role_permissions t)) as [|rp0 rps] eqn:El.
    { destruct Hin as [[= <- <-]|[]]. split_and!; auto. }
    rewrite <- El in Hin. apply in_flat_map in Hin as (rp & Hrp & Hin).
    apply filter_In in Hrp as [Hrp Hrid]. apply Z.eqb_eq in Hrid.
    destruct (List.filter _ (permissions t)) as [|p0 ps] eqn:Ep.
    + destruct Hin as [[= <- <-]|[]]. split_and!; eauto 10.
    + rewrite <- Ep in Hin. apply in_map_iff in Hin as (p & [= <- <-] & Hp).
      apply filter_In in Hp as [Hp Hpid]. apply Z.eqb_eq in Hpid. split_and!; eauto 10.
  - intros (Hur & _ & Hr & Hid & Hcase). split; [done|]. exists r. split; [done|].
    rewrite (proj2 (Z.eqb_eq _ _) Hid). cbn [negb].
    destruct (List.filter _ (role_permissions t)) as [|rp0 rps] eqn:El.
    + destruct Hcase as [(rp & p & Hrp & Hrid & _)|[-> _]]; [|by left]. exfalso.
      assert (Hin : In rp []) by (rewrite <- El; apply filter_In; split; [done|by apply Z.eqb_eq]).
      done.
    + rewrite <- El. apply in_flat_map. destruct Hcase as [(rp & p & Hrp & Hrid & Hp & Hpid & Hpc)|
        [-> [Hnil|(rp & Hrp & Hrid & Hnil)]]]; [|congruence|].
      * exists rp. split; [apply filter_In; split; [done|by apply Z.eqb_eq]|].
        assert (Hin : In p (List.filter (fun p => Permission_ID p =? RP_PermissionID rp) (permissions t)))
          by (apply filter_In; split; [done|by apply Z.eqb_eq]).
        destruct (List.filter _ (permissions t)) as [|p0 ps] eqn:Ep; [done|].
        apply in_map_iff. exists p. by rewrite Hpc.
      * exists rp. split; [apply filter_In; split; [done|by apply Z.eqb_eq]|].
        rewrite Hnil. by left.
Qed.

(** The user holds the permission through a role with a code. *)
Definition effective (t : AccessTables) (uid : Z) (pc : string) : Prop :=
  exists ur r rp p, In ur (user_roles t) /\ UR_UserID ur = uid /\
    In r (roles t) /\ Role_ID r = UR_RoleID ur /\ Role_Code r <> "" /\
    In rp (role_permissions t) /\ RP_RoleID rp = Role_ID r /\
    In p (permissions t) /\ Permission_ID p = RP_PermissionID rp /\ Permission_Code p = pc.

Lemma collect_rows_spec rows : forall m s,
  let '(m', s') := foldl collect_row (m, s) rows in
  (forall pc, pc ∈ s' <-> pc ∈ s \/
     (pc <> "" /\ exists r, In (r, pc) rows /\ Role_Code r <> "")) /\
  (forall rc, is_Some (m' !! rc) <-> is_Some (m !! rc) \/
     (rc <> "" /\ exists r pc, In (r, pc) rows /\ Role_Code r = rc)) /\
  ((forall rc sm, m !! rc = Some sm -> Summary_Code sm = rc) ->
   forall rc sm, m' !! rc = Some sm -> Summary_Code sm = rc).
Proof.
  induction rows as [|[r pc] rows IH]; intros m s; cbn [foldl].
  { split_and!; [set_solver..|done]. }
  cbn [collect_row]. destruct (String.eqb_spec (Role_Code r) "") as [He|He].
  { specialize (IH m s). destruct (foldl _ _ rows) as [m' s'].
    destruct IH as (HA & HB & HC). split_and!; [| |done].
    - intros pc'. rewrite HA. cbn. apply or_iff_compat_l, and_iff_compat_l. split.
      + intros (r' & ? & ?). eauto.
      + intros (r' & [[= -> ->]|?] & ?); [done|eauto].
    - intros rc. rewrite HB. cbn. apply or_iff_compat_l. split.
      + intros (? & r' & pc' & ? & ?). eauto 10.
      + intros (? & r' & pc' & [[= -> ->]|?] & ?); [congruence|eauto 10]. }
  set (m1 := match m !! Role_Code r with Some _ => m | None => _ end).
  set (s1 := if String.eqb pc "" then s else _).
  assert (Hm1 : forall rc, is_Some (m1 !! rc) <-> is_Some (m !! rc) \/ rc = Role_Code r).
  { intros rc. subst m1. destruct (m !! Role_Code r) eqn:E.
    - split; [auto|]. intros [?| ->]; [done|]. by rewrite E.
    - rewrite lookup_insert_is_Some'. split; intros [?|?]; auto. }
  assert (Hs1 : forall x, x ∈ s1 <-> x ∈ s \/ (x <> "" /\ x = pc)).
  { intros x. subst s1. destruct (String.eqb_spec pc ""); set_solver. }
  specialize (IH m1 s1). destruct (foldl _ _ rows) as [m' s'].
  destruct IH as (HA & HB & HC). split_and!.
  - intros pc'. rewrite HA, Hs1. cbn. split.
    + intros [[?|[? ->]]|(? & r' & ? & ?)]; [by left|right; eauto 10|right; eauto 10].
    + intros [?|(? & r' & [[= -> ->]|?] & ?)]; [tauto|tauto|right; eauto].
  - intros rc. rewrite HB, Hm1. cbn. split.
    + intros [[?| ->]|(? & r' & pc' & ? & ?)]; [by left|right; eauto 10|right; eauto 10].
    + intros [?|(? & r' & pc' & [[= -> ->]|?] & ?)]; [tauto|subst; tauto|right; eauto 10].
  - intros Hm. apply HC. subst m1. destruct (m !! Role_Code r) eqn:E; [done|].
    intros rc sm [[<- <-]|[_ ?]]%lookup_insert_Some; [done|eauto].
Qed.

Lemma elem_of_mapKeys x s : x ∈ mapKeys s <-> x ∈ s.
Proof.
  unfold mapKeys, sort_strings. rewrite <- elem_of_elements.
  by rewrite (merge_sort_Permutation string_le (elements s)).
Qed.

Lemma merge_sort_rows_In uid t x :
  In x (merge_sort row_le (access_rows uid t)) <-> In x (access_rows uid t).
Proof. by rewrite <- !list_elem_of_In, merge_sort_Permutation. Qed.

(** ** Assigning *)

Lemma In_dedupe rc codes : forall seen,
  In rc (dedupe_codes codes seen) <->
  rc <> "" /\ rc ∉ seen /\ exists c, In c codes /\ TrimSpace c = rc.
Proof.
  induction codes as [|c codes IH]; intros seen; cbn.
  { split; [done|]. by intros (_ & _ & ? & [] & _). }
  destruct (String.eqb_spec (TrimSpace c) "") as [He|He].
  { rewrite IH. split; intros (? & ? & d & Hd & <-); split_and!; eauto.
    destruct Hd as [<-|?]; [done|eauto]. }
  case_bool_decide as Hs.
  { rewrite IH. split; intros (? & ? & d & Hd & <-); split_and!; eauto.
    destruct Hd as [<-|?]; [done|eauto]. }
  cbn. rewrite IH. split.
  - intros [<-|(? & ? & d & ? & <-)]; [eauto 10|]. split_and!; [done|set_solver|eauto].
  - intros (? & ? & d & [<-|Hd] & <-); [by left|].
    destruct (decide (TrimSpace c = TrimSpace d)) as [E|E]; [by left|right].
    split_and!; [done|set_solver|eauto].
Qed.

Lemma NoDup_dedupe codes : forall seen, NoDup (dedupe_codes codes seen).
Proof.
  induction codes as [|c codes IH]; intros seen; cbn; [constructor|].
  destruct (String.eqb _ _); [auto|]. case_bool_decide; [auto|].
  constructor; [|auto]. rewrite list_elem_of_In, In_dedupe. set_solver.
Qed.

Definition roles_named (names : list string) (t : AccessTables) : list Role :=
  List.filter (fun r => existsb (String.eqb (Role_Code r)) names) (roles t).

Lemma In_roles_named r names t :
  In r (roles_named names t) <-> In r (roles t) /\ In (Role_Code r) names.
Proof.
  unfold roles_named. rewrite filter_In, existsb_exists. split.
  - intros [? (x & ? & ->%String.eqb_eq)]. done.
  - intros [? ?]. split; [done|]. eexists. split; [done|apply String.eqb_refl].
Qed.

Lemma NoDup_map_filter {A B} (f : A -> B) (g : A -> bool) (l : list A) :
  NoDup (map f l) -> NoDup (map f (List.filter g l)).
Proof.
  induction l as [|x l IH]; cbn; [done|]. intros [Hx Hl]%NoDup_cons.
  destruct (g x); cbn; [|auto]. constructor; [|auto]. intros Hin. apply Hx.
  apply list_elem_of_In, in_map_iff in Hin as (y & Hy & Hin%filter_In).
  rewrite <- Hy. apply list_elem_of_In, in_map, Hin.
Qed.

(** The length comparison of [assignRoles] decides whether all roles exist. *)
Lemma roles_named_complete names t :
  keyed (rkeys t) -> NoDup names ->
  (List.length (roles_named names t) = List.length names <->
   forall n, In n names -> In n (map snd (rkeys t))).
Proof.
  intros [_ Hcodes] Hnames. unfold rkeys in *. rewrite map_map in *. cbn in *.
  assert (Hnd : NoDup (map Role_Code (roles_named names t))) by (by apply NoDup_map_filter).
  assert (Hincl : incl (map Role_Code (roles_named names t)) names).
  { intros n (r & <- & Hr%In_roles_named)%in_map_iff. apply Hr. }
  split.
  - intros Hlen n Hn. apply NoDup_ListNoDup in Hnd.
    assert (Hn' : In n (map Role_Code (roles_named names t))).
    { eapply (NoDup_length_incl Hnd); [|done|done]. rewrite length_map, Hlen. done. }
    apply in_map_iff in Hn' as (r & <- & [Hr _]%In_roles_named).
    by apply (in_map Role_Code).
  - intros Hall. apply Nat.le_antisymm.
    + rewrite <- (length_map Role_Code). apply NoDup_incl_length; [by apply NoDup_ListNoDup|done].
    + rewrite <- (length_map Role_Code (roles_named _ _)).
      apply NoDup_incl_length; [by apply NoDup_ListNoDup|]. intros n Hn.
      apply Hall in Hn as Hr. apply in_map_iff in Hr as (r & <- & Hr).
      by apply in_map, In_roles_named.
Qed.

Lemma insert_user_roles_spec uid now rs : forall w w',
  insert_user_roles uid now rs w = (Ok tt, w') ->
  tables w' = set_user_roles (tables w)
    (user_roles (tables w) ++ map (fun r => mkUserRole uid (Role_ID r) now) rs).
Proof.
  induction rs as [|r rs IH]; intros w w' Hrun; cbn in Hrun; run_inv.
  { subst. rewrite app_nil_r. by destruct (tables w). }
  unfold insert_user_role in *. destruct (existsb _ _); [done|].
  match goal with Hf : Ok _ = Ok _ |- _ => injection Hf as _ Ht end.
  rewrite (IH _ _ Hrun), <- Ht. cbn. by rewrite <- app_assoc.
Qed.

Lemma insert_user_roles_total uid now rs : forall t,
  NoDup (map Role_ID rs) ->
  (forall r ur, In r rs -> In ur (user_roles t) -> UR_UserID ur = uid -> UR_RoleID ur <> Role_ID r) ->
  exists t', insert_user_roles uid now rs (World t []) = (Ok tt, World t' []).
Proof.
  induction rs as [|r rs IH]; intros t Hnd Hfresh; [by eexists|].
  cbn [insert_user_roles]. unfold bind, exec, statement, next_fault. cbn [faults tables].
  unfold insert_user_role at 1. cbn [UR_UserID UR_RoleID].
  destruct (existsb _ _) eqn:E.
  { apply existsb_exists in E as (ur & Hur & E). bool_props.
    destruct (Hfresh r ur); [by left|done|done|done]. }
  apply NoDup_cons in Hnd as [Hnot Hnd]. apply IH; [done|]. cbn.
  intros q ur Hq [Hur|[<-|[]]]%in_app_or Hu; [by eapply Hfresh; [right| |]|].
  cbn. intros Heq. apply Hnot. rewrite Heq. by apply list_elem_of_In, in_map.
Qed.

Lemma In_delete_user_roles uid ur t :
  In ur (List.filter (fun ur => negb (UR_UserID ur =? uid)) (user_roles t)) <->
  In ur (user_roles t) /\ UR_UserID ur <> uid.
Proof. by rewrite filter_In, negb_true_iff, Z.eqb_neq. Qed.

(** A successful [assignRoles] keeps the other users' rows and gives this user
    exactly the named roles. *)
Definition reassigned (t t' : AccessTables) (uid : Z) (names : list string) : Prop :=
  t' = set_user_roles t (user_roles t') /\
  (forall rc, assigned t' uid rc <-> In rc names) /\
  (forall ur, UR_UserID ur <> uid -> (In ur (user_roles t') <-> In ur (user_roles t))).

Lemma assignRoles_spec now uid codes w w' :
  assignRoles now uid codes w = (Ok tt, w') -> keyed (rkeys (tables w)) ->
  reassigned (tables w) (tables w') uid (dedupe_codes codes ∅).
Proof.
  intros Hrun Hk. unfold assignRoles in Hrun. run_inv.
  match goal with Hf : delete_user_roles _ _ = _ |- _ => injection Hf as _ Hdel end.
  pose proof (NoDup_dedupe codes ∅) as Hnd.
  destruct (dedupe_codes codes ∅) as [|n ns] eqn:En.
  - run_inv. simplify_eq. rewrite <- Hdel. split_and!; [done| |].
    + intros rc. split; [|done]. intros (ur & Hur & Hu & _). cbn in Hur.
      by apply In_delete_user_roles in Hur as [_ ?].
    + intros ur Hu. cbn. rewrite In_delete_user_roles. tauto.
  - run_inv. match goal with Hf : ?found = List.filter _ (roles (tables ?a)), Hs : tables ?b = tables ?a |- _ =>
      change (found = roles_named (n :: ns) (tables a)) in Hf; rename Hf into Hfound, Hs into Hsame end.
    destruct (negb _) eqn:El; [done|]. apply negb_false_iff, Nat.eqb_eq in El.
    apply insert_user_roles_spec in Hrun. rewrite Hfound, Hsame, <- Hdel in *. clear Hfound Hsame Hdel.
    change (roles_named (n :: ns) (set_user_roles (tables w) _))
      with (roles_named (n :: ns) (tables w)) in *.
    rewrite Hrun. set (names := n :: ns) in *.
    assert (Hall := proj1 (roles_named_complete names (tables w) Hk Hnd) El).
    split_and!; [done| |].
    + intros rc. unfold assigned. cbn [user_roles set_user_roles].
      change (rkeys (set_user_roles _ _)) with (rkeys (tables w)). split.
      * intros (ur & [Hur|Hur]%in_app_or & Hu & Hrc).
        -- by apply In_delete_user_roles in Hur as [_ ?].
        -- apply in_map_iff in Hur as (r & <- & [Hr Hn]%In_roles_named). cbn in Hrc.
           apply (in_map (fun r => (Role_ID r, Role_Code r))) in Hr.
           by rewrite (keyed_fst _ _ _ _ Hk Hrc Hr).
      * intros Hrc. apply Hall in Hrc as Hr. unfold rkeys in Hr. rewrite map_map in Hr.
        apply in_map_iff in Hr as (r & <- & Hr). exists (mkUserRole uid (Role_ID r) now).
        split_and!; [|done|by apply (in_map (fun r => (Role_ID r, Role_Code r)))].
        apply in_or_app. right. apply (in_map (fun r => mkUserRole uid (Role_ID r) now)).
        by apply In_roles_named.
    + intros ur Hu. cbn. rewrite in_app_iff, In_delete_user_roles, in_map_iff. split.
      * intros [[? _]|(r & <- & _)]; done.
      * auto.
Qed.

(** ** The catalogue *)

Lemma builtin_codes_known :
  forall r codes c, In (r, codes) builtinRoles -> In c codes ->
    In c (map Permission_Code builtinPermissions).
Proof.
  assert (E : forallb (fun it => forallb (fun c =>
    existsb (String.eqb c) (map Permission_Code builtinPermissions)) it.2) builtinRoles = true)
    by (vm_compute; reflexivity).
  intros r codes c Hr Hc. rewrite forallb_forall in E. apply E in Hr. cbn [snd] in Hr.
  rewrite forallb_forall in Hr. apply Hr, existsb_exists in Hc as (x & Hx & ->%String.eqb_eq). done.
Qed.

Lemma NoDup_builtin_roles : NoDup (map (fun it : Role * list string => Role_Code it.1) builtinRoles).
Proof. apply (bool_decide_unpack _). vm_compute. exact I. Qed.

Lemma seedBuiltin_Ok w w' :
  seedBuiltin w = (Ok tt, w') -> schema (tables w) ->
  schema (tables w') /\ users (tables w') = users (tables w) /\
  user_roles (tables w') = user_roles (tables w) /\
  forall rc pc, granted (tables w') rc pc <->
    match declared builtinRoles rc with
    | Some codes => In pc codes
    | None => granted (tables w) rc pc
    end.
Proof.
  intros Hrun Hs. unfold seedBuiltin in Hrun. run_inv.
  match goal with Hf : seed_permissions _ _ ?w1 = (Ok ?m, ?w2), Hg : seed_roles _ _ _ = (Ok ?u, _),
      H1 : tables ?w1 = tables w |- _ =>
    destruct u; apply seed_permissions_spec in Hf as (Hs1 & Hids & Hfr & Hdom & _ & Hgr);
    [|by rewrite H1|by intros ? ? ?];
    apply seed_roles_spec in Hg as (Hs2 & Hfr2 & _ & _ & Hgr2); try done;
    [|apply NoDup_builtin_roles|intros r codes c Hr Hc; apply Hdom; left; by eapply builtin_codes_known];
    rewrite H1 in * end.
  match goal with Hf : tables w' = _ |- _ => rewrite Hf end.
  destruct Hfr as (Hu & Hur & _), Hfr2 as (Hu2 & Hur2 & _).
  split_and!; [done|congruence|congruence|].
  intros rc pc. rewrite Hgr2. by destruct (declared builtinRoles rc).
Qed.

Definition empty_access : AccessTables := mkAccessTables [] [] [] [] [].

Lemma schema_empty : schema empty_access.
Proof. split; [|split]; [split; constructor..|by intros]. Qed.

Definition seeded_access : AccessTables := tables (seedBuiltin (World empty_access [])).2.

Lemma seeded_access_run : seedBuiltin (World empty_access []) = (Ok tt, World seeded_access []).
Proof. vm_compute. reflexivity. Qed.

#[local] Opaque seeded_access.

(** ** Properties of access control *)

(** Seeding. Whatever the tables held, after a successful seeding every
    built-in role carries exactly its declared permissions (stray grants are
    revoked), the grants of every other role are unchanged, and no user gains
    or loses a role. *)
Theorem seedBuiltin_grants w w'
  (Hrun : seedBuiltin w = (Ok tt, w')) (Hschema : schema (tables w)) :
  schema (tables w') /\ users (tables w') = users (tables w) /\
  user_roles (tables w') = user_roles (tables w) /\
  forall rc pc, granted (tables w') rc pc <->
    match declared builtinRoles rc with
    | Some codes => In pc codes
    | None => granted (tables w) rc pc
    end.
Proof. by apply seedBuiltin_Ok. Qed.

Lemma seedBuiltin_grants_witness :
  granted seeded_access RoleObserver PermissionDashboardRead.
Proof.
  apply (proj2 (proj2 (proj2 (seedBuiltin_grants (World empty_access []) (World seeded_access [])
    seeded_access_run schema_empty)))).
  left. reflexivity.
Defined.

(** Separation of duties in the catalogue. After seeding, the only
    built-in role that may review or execute approvals is the operation
    approver, which may neither request approvals nor hold any permission to
    write, and no built-in role holds the deprecated [file.write]. *)
Theorem builtin_separation_of_duties w w' rc
  (Hrun : seedBuiltin w = (Ok tt, w')) (Hschema : schema (tables w))
  (Hbuiltin : In rc (map (fun it => Role_Code it.1) builtinRoles)) :
  ~ granted (tables w') rc PermissionFileWrite /\
  (granted (tables w') rc PermissionApprovalReview \/ granted (tables w') rc PermissionApprovalExecute ->
   rc = RoleOperationApprover /\ ~ granted (tables w') rc PermissionApprovalRequest /\
   forall pc, granted (tables w') rc pc -> HasSuffix pc ".write" = false).
Proof.
  destruct (seedBuiltin_Ok _ _ Hrun Hschema) as (_ & _ & _ & Hg). clear Hrun.
  unfold builtinRoles in Hbuiltin, Hg. cbn [map fst Role_Code] in Hbuiltin.
  assert (Hcheck : forall codes, declared builtinRoles rc = Some codes ->
    existsb (String.eqb PermissionFileWrite) codes = false /\
    (existsb (String.eqb PermissionApprovalReview) codes
     || existsb (String.eqb PermissionApprovalExecute) codes = true ->
     rc = RoleOperationApprover /\ existsb (String.eqb PermissionApprovalRequest) codes = false /\
     forallb (fun pc => negb (HasSuffix pc ".write")) codes = true)).
  { destruct Hbuiltin as [<-|[<-|[<-|[<-|[<-|[<-|[<-|[]]]]]]]];
      intros codes [= <-]; vm_compute; split; intuition discriminate. }
  destruct (declared builtinRoles rc) as [codes|] eqn:E.
  2: { exfalso. revert E.
       destruct Hbuiltin as [<-|[<-|[<-|[<-|[<-|[<-|[<-|[]]]]]]]]; vm_compute; discriminate. }
  destruct (Hcheck codes eq_refl) as [Hfw Hrest]. fold builtinRoles in Hg.
  assert (Hin : forall pc, granted (tables w') rc pc <-> existsb (String.eqb pc) codes = true).
  { intros pc. rewrite Hg, E, existsb_exists. split; [|by intros (x & ? & ->%String.eqb_eq)].
    intros Hpc. exists pc. by rewrite String.eqb_refl. }
  split; [by rewrite Hin, Hfw|]. rewrite !Hin, <- orb_true_iff. intros Hor.
  destruct (Hrest Hor) as (? & Hreq & Hall). split_and!; [done|by rewrite Hreq|].
  intros pc Hpc%Hg. rewrite E in Hpc. rewrite forallb_forall in Hall.
  by apply Hall, negb_true_iff in Hpc.
Qed.

Lemma builtin_separation_of_duties_witness :
  ~ granted seeded_access RoleSystemOperator PermissionFileWrite.
Proof.
  apply (builtin_separation_of_duties (World empty_access []) (World seeded_access [])
    RoleSystemOperator seeded_access_run schema_empty).
  right; right; right; left. reflexivity.
Defined.

Lemma find_user_Some uid t u :
  List.find (fun u => User_ID u =? uid) (users t) = Some u -> In u (users t) /\ User_ID u = uid.
Proof. by intros [? ?%Z.eqb_eq]%find_some. Qed.

Lemma and_iff_compat_l_strong (P Q R : Prop) : (P -> (Q <-> R)) -> (P /\ Q <-> P /\ R).
Proof. tauto. Qed.

Lemma access_row_effective uid t pc :
  (pc <> "" /\ exists r, In (r, pc) (merge_sort row_le (access_rows uid t)) /\ Role_Code r <> "") <->
  pc <> "" /\ effective t uid pc.
Proof.
  apply and_iff_compat_l_strong. intros Hpc. unfold effective. split.
  - intros (r & Hr & Hne). apply merge_sort_rows_In, In_access_rows in Hr
      as (ur & ? & ? & ? & ? & [(rp & p & ? & ? & ? & ? & ?)|[-> _]]); [|done].
    by exists ur, r, rp, p.
  - intros (ur & r & rp & p & ? & ? & ? & ? & ? & ? & ? & ? & ? & ?). exists r. split; [|done].
    apply merge_sort_rows_In, In_access_rows. exists ur. split_and!; try done. left. by exists rp, p.
Qed.

Lemma access_row_assigned uid t rc :
  (exists r pc, In (r, pc) (merge_sort row_le (access_rows uid t)) /\ Role_Code r = rc) <->
  assigned t uid rc.
Proof.
  unfold assigned, rkeys. split.
  - intros (r & pc & Hr & <-). apply merge_sort_rows_In, In_access_rows in Hr
      as (ur & ? & ? & ? & Hid & _). exists ur. split_and!; try done. rewrite <- Hid.
    by apply (in_map (fun r => (Role_ID r, Role_Code r))).
  - intros (ur & ? & ? & Hr). apply in_map_iff in Hr as (r & [= Hid <-] & Hr).
    assert (Hx : exists pc, In (r, pc) (access_rows uid t)).
    { destruct (List.filter (fun rp => RP_RoleID rp =? Role_ID r) (role_permissions t)) as [|rp l] eqn:El.
      - exists "". apply In_access_rows. exists ur. split_and!; try done. right. split; [done|by left].
      - assert (Hrp : In rp (rp :: l)) by (by left). rewrite <- El in Hrp.
        apply filter_In in Hrp as [Hrp Hrid%Z.eqb_eq].
        destruct (List.filter (fun p => Permission_ID p =? RP_PermissionID rp) (permissions t))
          as [|p l'] eqn:Ep.
        + exists "". apply In_access_rows. exists ur. split_and!; try done. right.
          split; [done|right]. by exists rp.
        + assert (Hp : In p (p :: l')) by (by left). rewrite <- Ep in Hp.
          apply filter_In in Hp as [Hp Hpid%Z.eqb_eq]. exists (Permission_Code p).
          apply In_access_rows. exists ur. split_and!; try done. left. by exists rp, p. }
    destruct Hx as [pc Hx]. exists r, pc. split; [by apply merge_sort_rows_In|done].
Qed.

Lemma finish_access_spec uid name super summaries s :
  let a := finish_access uid name super summaries s in
  (forall pc, pc ∈ Permissions a <-> pc ∈ PermissionSet a) /\
  CanApprove a = HasPermission (Some a) PermissionApprovalReview
    && HasPermission (Some a) PermissionApprovalExecute.
Proof. split; [intros pc; apply elem_of_mapKeys|done]. Qed.

Lemma LoadUserAccess_Ok uid w a w' :
  LoadUserAccess uid w = (Ok a, w') ->
  tables w' = tables w /\
  exists u, List.find (fun u => User_ID u =? uid) (users (tables w)) = Some u /\
    In u (users (tables w)) /\ User_ID u = uid /\ Access_UserID a = uid /\
    Access_Username a = User_Username u /\ IsSuperAdmin a = User_IsAdmin u /\
    (forall pc, pc ∈ Permissions a <-> pc ∈ PermissionSet a) /\
    CanApprove a = HasPermission (Some a) PermissionApprovalReview
      && HasPermission (Some a) PermissionApprovalExecute /\
    if User_IsAdmin u then Roles a = []
    else
      (forall pc, pc ∈ PermissionSet a <-> pc <> "" /\ effective (tables w) uid pc) /\
      (forall rc, In rc (map Summary_Code (Roles a)) <-> rc <> "" /\ assigned (tables w) uid rc).
Proof.
  intros Hrun. unfold LoadUserAccess in Hrun. run_inv.
  match goal with Hf : List.find _ _ = Some ?x |- _ =>
    assert (Hfind := Hf); apply find_user_Some in Hf as [Hin Hid]; rename x into u end.
  destruct (User_IsAdmin u) eqn:Ha.
  { unfold ret in Hrun. injection Hrun as <- <-. split; [done|]. exists u. rewrite Ha.
    pose proof (finish_access_spec (User_ID u) (User_Username u) true []
      (list_to_set (map Permission_Code builtinPermissions))) as [HA HB].
    do 3 (split; [done|]). split; [exact Hid|]. do 2 (split; [reflexivity|]).
    split; [exact HA|]. split; [exact HB|reflexivity]. }
  run_inv.
  match goal with Hf : ?rows = merge_sort _ (access_rows _ (tables ?x)), Hs : tables ?x = tables w |- _ =>
    rewrite Hs in *; clear Hs; rename rows into rws; rename Hf into Hrows end.
  pose proof (collect_rows_spec rws ∅ ∅) as Hc. destruct (foldl collect_row (∅, ∅) rws) as [m s].
  destruct Hc as (HA & HB & HC). run_inv. simplify_eq. split; [done|]. exists u.
  rewrite Ha. pose proof (finish_access_spec (User_ID u) (User_Username u) false
    (omap (fun code => m !! code) (sort_strings (map fst (map_to_list m)))) s) as [HP HQ].
  do 6 (split; [done|]).
  split; [exact HP|]. split; [exact HQ|]. split.
  - intros pc. cbn [PermissionSet finish_access]. rewrite HA, <- access_row_effective. set_solver.
  - intros rc. cbn [Roles finish_access]. rewrite <- access_row_assigned, in_map_iff.
    assert (HC' : forall rc sm, m !! rc = Some sm -> Summary_Code sm = rc) by (by apply HC).
    transitivity (is_Some (m !! rc)).
    + split.
      * intros (sm & <- & Hsm). apply list_elem_of_In, list_elem_of_omap in Hsm as (c & _ & Hc).
        rewrite (HC' _ _ Hc). by eexists.
      * intros [sm Hsm]. exists sm. split; [by apply HC'|].
        apply list_elem_of_In, list_elem_of_omap. exists rc. split; [|done].
        unfold sort_strings. rewrite merge_sort_Permutation. apply list_elem_of_In.
        apply (in_map fst _ (rc, sm)), list_elem_of_In. by apply elem_of_map_to_list.
    + rewrite HB. rewrite lookup_empty. split.
      * intros [[? E]|Hr]; [discriminate E|exact Hr].
      * intros Hr. right. exact Hr.
Qed.

(** The unfolding of a request to load an account that exists. *)
Lemma LoadUserAccess_total uid t u :
  List.find (fun u => User_ID u =? uid) (users t) = Some u ->
  exists a, LoadUserAccess uid (World t []) = (Ok a, World t []).
Proof.
  intros Hu. unfold LoadUserAccess, bind, first, read, statement, next_fault.
  cbn [faults tables]. rewrite Hu. destruct (User_IsAdmin u); [by eexists|].
  cbn [faults tables]. destruct (foldl _ _ _) as [m s]. by eexists.
Qed.

Definition all_exist (names : list string) (t : AccessTables) : Prop :=
  forall n, In n names -> In n (map snd (rkeys t)).

Lemma assignRoles_runs now uid codes t :
  keyed (rkeys t) ->
  exists r t', assignRoles now uid codes (World t []) = (r, World t' []) /\
    (is_ok r = true <-> all_exist (dedupe_codes codes ∅) t).
Proof.
  intros Hk. pose proof (NoDup_dedupe codes ∅) as Hnd. unfold assignRoles.
  unfold bind at 1, exec at 1, statement at 1, next_fault at 1. cbn [faults tables delete_user_roles].
  destruct (dedupe_codes codes ∅) as [|n ns] eqn:En.
  { do 2 eexists. split; [done|]. split; [by intros _ ? []|done]. }
  unfold bind, read, statement, next_fault. cbn [faults tables].
  set (t1 := set_user_roles t _).
  change (List.filter _ (roles t1)) with (roles_named (n :: ns) t).
  pose proof (roles_named_complete (n :: ns) t Hk Hnd) as Hiff.
  destruct (Nat.eqb_spec (List.length (roles_named (n :: ns) t)) (List.length (n :: ns))) as [El|El];
    cbn [negb].
  - destruct (insert_user_roles_total uid now (roles_named (n :: ns) t) t1) as [t' Ht'].
    + destruct Hk as [Hids _]. unfold rkeys in Hids. rewrite map_map in Hids.
      by apply NoDup_map_filter.
    + intros r ur _ Hur Hu. by apply In_delete_user_roles in Hur as [_ ?].
    + rewrite Ht'. do 2 eexists. split; [done|]. split; [intros _; exact (proj1 Hiff El)|done].
  - do 2 eexists. split; [done|]. split; [done|]. intros Hall. exfalso. exact (El (proj2 Hiff Hall)).
Qed.

(** the effective permissions of an account are exactly what the tables
    say: everything built in for a super administrator, and otherwise the
    permissions of the roles assigned to it, nothing more and nothing less;
    loading never writes and, without faults, fails only on an unknown id. *)
Theorem LoadUserAccess_exact uid t :
  (forall w a w', LoadUserAccess uid w = (Ok a, w') -> tables w = t ->
    tables w' = t /\
    exists u, In u (users t) /\ User_ID u = uid /\ IsSuperAdmin a = User_IsAdmin u /\
      (forall pc, pc ∈ Permissions a <-> pc ∈ PermissionSet a) /\
      if User_IsAdmin u then Roles a = []
      else
        (forall pc, pc ∈ PermissionSet a <-> pc <> "" /\ effective t uid pc) /\
        (forall rc, In rc (map Summary_Code (Roles a)) <-> rc <> "" /\ assigned t uid rc)) /\
  (In uid (map User_ID (users t)) ->
    exists a, LoadUserAccess uid (World t []) = (Ok a, World t [])).
Proof.
  split.
  - intros w a w' Hrun <-. apply LoadUserAccess_Ok in Hrun
      as (Ht & u & _ & Hin & Hid & _ & _ & Hsup & Hperm & _ & Hrest).
    split; [done|]. exists u. split_and!; done.
  - intros (u & Hid & Hin)%in_map_iff.
    destruct (List.find (fun u => User_ID u =? uid) (users t)) as [v|] eqn:E;
      [by eapply LoadUserAccess_total|].
    exfalso. pose proof (find_none _ _ E u Hin) as Hx. cbn in Hx. by rewrite Hid, Z.eqb_refl in Hx.
Qed.

(** Role assignment. On success the account has exactly the named roles
    (names are trimmed, blanks and repetitions dropped) and every other
    account keeps its own; a super administrator is left alone; on any failure
    nothing changed; and without faults it succeeds exactly when the account
    and all the named roles exist. *)
Theorem AssignRoles_spec now uid codes t (Hk : keyed (rkeys t)) :
  atomic (AssignRoles now uid codes) /\
  (forall w w', AssignRoles now uid codes w = (Ok tt, w') -> tables w = t ->
    exists u, List.find (fun u => User_ID u =? uid) (users t) = Some u /\
      if User_IsAdmin u then tables w' = t
      else reassigned t (tables w') uid (dedupe_codes codes ∅)) /\
  (forall u, List.find (fun u => User_ID u =? uid) (users t) = Some u -> User_IsAdmin u = false ->
    is_ok (AssignRoles now uid codes (World t [])).1 = true <->
    forall c, In c codes -> TrimSpace c <> "" -> In (TrimSpace c) (map snd (rkeys t))).
Proof.
  split; [apply atomic_transaction|]. split.
  - intros w w' Hrun <-. unfold AssignRoles in Hrun. run_inv.
    match goal with Hf : List.find _ _ = Some ?x |- _ => rename x into u; rename Hf into Hfind end.
    match goal with Hf : tables w' = _ |- _ => rewrite Hf end. exists u.
    split; [congruence|]. destruct (User_IsAdmin u).
    + apply ret_Ok in Hrun as [_ ->]. congruence.
    + apply assignRoles_spec in Hrun; [|congruence].
      match goal with Ha : tables ?b = tables ?a, Hb : tables ?a = tables w,
        Hr : reassigned (tables ?b) _ _ _ |- _ => by rewrite Ha, Hb in Hr end.
  - intros u Hu Ha. destruct (assignRoles_runs now uid codes t Hk) as (r & t' & Hrun & Hiff).
    unfold AssignRoles, transaction, bind, first, statement, next_fault. cbn [faults tables].
    rewrite Hu. rewrite Ha, Hrun. transitivity (is_ok r = true); [by destruct r|]. rewrite Hiff.
    unfold all_exist. split.
    + intros Hall c Hc Hne. apply Hall, In_dedupe. split_and!; [done|set_solver|eauto].
    + intros Hall n (Hne & _ & c & Hc & <-)%In_dedupe. auto.
Qed.

Definition demo_user : User := mkUser 5 "ops" "hash" false false true 1 0.
Definition demo_access : AccessTables := set_users seeded_access [demo_user].

Lemma rkeys_set_users t l : rkeys (set_users t l) = rkeys t.
Proof. reflexivity. Qed.

Lemma demo_keyed : keyed (rkeys demo_access).
Proof.
  pose proof (seedBuiltin_Ok (World empty_access []) (World seeded_access []) seeded_access_run
    schema_empty) as [Hs _].
  cbn [tables] in Hs. destruct Hs as (_ & Hk & _).
  unfold demo_access. rewrite rkeys_set_users. exact Hk.
Qed.

#[local] Opaque demo_access.

Lemma AssignRoles_spec_witness :
  keyed (rkeys demo_access) /\ atomic (AssignRoles 7 5 [" observer "; ""; "observer"]) /\
  (forall w w', AssignRoles 7 5 [" observer "; ""; "observer"] w = (Ok tt, w') ->
    tables w = demo_access -> exists u,
      List.find (fun u => User_ID u =? 5) (users demo_access) = Some u /\
      if User_IsAdmin u then tables w' = demo_access
      else reassigned demo_access (tables w') 5 (dedupe_codes [" observer "; ""; "observer"] ∅)).
Proof.
  destruct (AssignRoles_spec 7 5 [" observer "; ""; "observer"] demo_access demo_keyed)
    as (Ha & Hb & _).
  split; [exact demo_keyed|]. split; [exact Ha|exact Hb].
Defined.

(** ** Service scopes *)

Section scope_properties.
Context `{!UnicodeCase}.

(** A role whose own scope covers one of the application's scopes. *)
Definition role_covers (scopeSet : gset string) (role : RoleSummary) : Prop :=
  (Summary_Code role = RoleWebsiteAdmin /\
     (ServiceScopeWebServer ∈ scopeSet \/ ServiceScopeRuntime ∈ scopeSet)) \/
  (Summary_Code role = RoleDatabaseAdmin /\
     (ServiceScopeDatabase ∈ scopeSet \/ ServiceScopeCache ∈ scopeSet)).

Definition scoped (role : RoleSummary) : Prop :=
  Summary_Code role = RoleWebsiteAdmin \/ Summary_Code role = RoleDatabaseAdmin.

Lemma scan_scoped_roles_spec rs s : forall b,
  match scan_scoped_roles rs s b with
  | inl _ => Exists (role_covers s) rs
  | inr b' => ~ Exists (role_covers s) rs /\ (b' = true <-> b = true \/ Exists scoped rs)
  end.
Proof.
  induction rs as [|r rs IH]; intros b; cbn [scan_scoped_roles].
  { split; [by intros ?%Exists_nil|]. rewrite Exists_nil. tauto. }
  pose proof (Exists_cons (role_covers s) r rs) as EC. pose proof (Exists_cons scoped r rs) as ES.
  unfold role_covers at 2 in EC. unfold scoped at 2 in ES.
  destruct (String.eqb_spec (Summary_Code r) RoleWebsiteAdmin) as [Hw|Hw].
  { do 2 (case_bool_decide; [apply EC; tauto|]). specialize (IH true).
    destruct (scan_scoped_roles rs s true) as [|b']; [apply EC; tauto|].
    destruct IH as [HA HB]. split; [|rewrite HB; tauto]. rewrite EC.
    intros [[[_ ?]|[Hd _]]|?]; [tauto| |done]. rewrite Hw in Hd. discriminate Hd. }
  destruct (String.eqb_spec (Summary_Code r) RoleDatabaseAdmin) as [Hd|Hd].
  { do 2 (case_bool_decide; [apply EC; tauto|]). specialize (IH true).
    destruct (scan_scoped_roles rs s true) as [|b']; [apply EC; tauto|].
    destruct IH as [HA HB]. split; [|rewrite HB; tauto]. rewrite EC. tauto. }
  specialize (IH b). destruct (scan_scoped_roles rs s b) as [|b']; [apply EC; tauto|].
  destruct IH as [HA HB]. split; [rewrite EC|rewrite HB, ES]; tauto.
Qed.

(** Service control. An account that is neither a super administrator
    nor a software operator may control an application exactly when one of
    its scoped roles covers one of the application's declared scopes, or
    when it has no scoped role at all and holds the generic permission. The
    component name plays no part, and an application without scopes is
    denied to every scoped role. *)
Theorem CanControlServiceScopes_spec a scopes component
  (Hsuper : IsSuperAdmin a = false)
  (Hsoft : HasPermission (Some a) PermissionSoftwareWrite = false) :
  (CanControlServiceScopes (Some a) scopes component = true <->
    Exists (role_covers (scope_set scopes)) (Roles a) \/
    (~ Exists scoped (Roles a) /\ HasPermission (Some a) PermissionServiceWrite = true)) /\
  (Exists scoped (Roles a) -> CanControlServiceComponent (Some a) component = false).
Proof.
  unfold CanControlServiceComponent, CanControlServiceScopes. rewrite Hsuper, Hsoft. cbn [orb].
  assert (Hnone : ~ Exists (role_covers (scope_set [])) (Roles a)).
  { intros (r & _ & Hr)%Exists_exists. unfold role_covers, scope_set in Hr. set_solver. }
  split.
  - pose proof (scan_scoped_roles_spec (Roles a) (scope_set scopes) false) as Hs.
    destruct (scan_scoped_roles _ _ _) as [|b]; [tauto|].
    destruct Hs as [HA HB]. rewrite andb_true_iff, negb_true_iff, <- not_true_iff_false, HB.
    intuition discriminate.
  - intros Hscoped. pose proof (scan_scoped_roles_spec (Roles a) (scope_set []) false) as Hs.
    destruct (scan_scoped_roles _ _ _) as [|b]; [done|].
    destruct Hs as [_ HB]. by rewrite (proj2 HB (or_intror Hscoped)).
Qed.
End scope_properties.

Definition website_access : UserAccess :=
  finish_access 5 "web" false [mkRoleSummary RoleWebsiteAdmin "" "" []]
    {[ PermissionServiceWrite ]}.

Lemma CanControlServiceScopes_spec_witness :
  @CanControlServiceScopes latin1_case (Some website_access) [" Web_Service"] "redis" = true /\
  @CanControlServiceComponent latin1_case (Some website_access) "nginx" = false.
Proof.
  destruct (@CanControlServiceScopes_spec latin1_case website_access [" Web_Service"] "redis"
    eq_refl ltac:(vm_compute; reflexivity)) as [Hiff _].
  destruct (@CanControlServiceScopes_spec latin1_case website_access [] "nginx"
    eq_refl ltac:(vm_compute; reflexivity)) as [_ Hscoped].
  split.
  - apply Hiff. left. left. left. split; [reflexivity|].
    left. apply (bool_decide_unpack _). vm_compute. exact I.
  - apply Hscoped. left. left. reflexivity.
Defined.

(** ** Password reset *)

(** The administrative password reset replaces exactly the password and
    the change-at-next-login flag of the named account; in particular the
    security version, on which the validity of every issued session depends,
    is unchanged. *)
Theorem ResetUserPassword_keeps_sessions HashPassword uid password w w'
  (Hrun : ResetUserPassword HashPassword uid password w = (Ok tt, w')) :
  exists hashed, HashPassword password = Ok hashed /\
    map User_SecurityVersion (users (tables w')) = map User_SecurityVersion (users (tables w)) /\
    roles (tables w') = roles (tables w) /\ user_roles (tables w') = user_roles (tables w) /\
    Forall2 (fun u v => User_ID v = User_ID u /\ User_IsAdmin v = User_IsAdmin u /\
      if User_ID u =? uid
      then User_Password v = hashed /\ User_MustChangePassword v = true
      else v = u) (users (tables w)) (users (tables w')).
Proof.
  unfold ResetUserPassword in Hrun. destruct (HashPassword password) as [hashed|]; [|done].
  run_inv. injection Hrun as <-. exists hashed. cbn. rewrite map_map. split_and!; try done.
  - apply map_ext. intros u. by destruct (User_ID u =? uid).
  - induction (users (tables w)) as [|u us IH]; cbn; constructor; [|done].
    by destruct (User_ID u =? uid).
Qed.

Lemma ResetUserPassword_keeps_sessions_witness :
  exists w', ResetUserPassword Ok 5 "secret" (World (mkAccessTables [demo_user] [] [] [] []) [])
    = (Ok tt, w') /\ map User_SecurityVersion (users (tables w')) = [1].
Proof.
  eexists. split; [reflexivity|].
  destruct (ResetUserPassword_keeps_sessions Ok 5 "secret"
    (World (mkAccessTables [demo_user] [] [] [] []) []) _ eq_refl) as (_ & _ & Hs & _).
  exact Hs.
Defined.
