(* ===== verification/Authorization.v ===== *)
(** The authorization middleware ([router/middleware/permission.go]): loading
    the permissions of the authenticated account, the guards of the routes,
    the matrix shown to the frontend, and the audit of requests. *)

From S2P Require Import Prelude GoStrings GoText Store AuditTrail Access.
From stdpp Require Import options.
#[local] Open Scope Z_scope.

(** [app.ONE_CONFIG], as far as the menu rules read it. *)
Record Config := mkConfig { TerminalEnabled : bool; BastionEnabled : bool }.

(** The values that the middleware keeps in the gin context: the user id set
    by the authentication, its mode, and the permissions. *)
Record ReqContext := mkReqContext {
  ContextUserID : option Z; ContextUsername : string; ContextAuthMode : string;
  ContextUserAccess : option UserAccess; ContextAuditHandled : bool
}.

Record APIError := mkAPIError {
  err_Status : Z; err_Code : Z; err_Message : string; err_Detail : string
}.

(** [c.Next()], or the response of [writeAPIError], which aborts the chain. *)
Inductive verdict :=
  | Next (c : ReqContext)
  | Refuse (e : APIError).

Definition StatusForbidden : Z := 403.
Definition StatusServiceUnavailable : Z := 503.
Definition ErrAdminRequired : Z := 1202.
Definition ErrInsufficientPermissions : Z := 1203.
Definition ErrPermissionUnavailable : Z := 1204.
Definition AuthModeTicket : string := "ticket".

Definition writeAPIError (status code : Z) (message detail : string) : verdict :=
  Refuse (mkAPIError status code message detail).

(** ** Guards *)

Definition AuthenticatedUserID (c : ReqContext) : Z * bool :=
  match ContextUserID c with
  | Some id => (id, 0 <? id)
  | None => (0, false)
  end.

Definition is_some {A} (o : option A) : bool := match o with Some _ => true | None => false end.

Definition is_super (access : option UserAccess) : bool :=
  match access with Some a => IsSuperAdmin a | None => false end.

Definition writePermissionDenied (access : option UserAccess) (requiredPermission : string) : verdict :=
  if match access with
     | None => true
     | Some a => negb (IsSuperAdmin a) && (List.length (Roles a) =? 0)%nat
                 && (List.length (Permissions a) =? 0)%nat
     end
  then writeAPIError StatusForbidden ErrAdminRequired "当前操作需要管理员权限"
         "当前用户未加载有效的管理员权限，无法访问该接口。"
  else writeAPIError StatusForbidden ErrInsufficientPermissions "当前用户没有执行此操作的权限"
         ("当前接口要求权限：" +:+ requiredPermission +:+ "。").

Definition RequirePermission (requiredPermission : string) (c : ReqContext) : verdict :=
  let access := ContextUserAccess c in
  if negb (is_some access) || negb (HasPermission access requiredPermission)
  then writePermissionDenied access requiredPermission
  else Next c.

Definition RequireAnyPermission (requiredPermissions : list string) (c : ReqContext) : verdict :=
  let access := ContextUserAccess c in
  if is_some access && existsb (HasPermission access) requiredPermissions then Next c
  else writePermissionDenied access (Join requiredPermissions ",").

Definition RequireSuperAdmin (c : ReqContext) : verdict :=
  let access := ContextUserAccess c in
  if negb (is_some access) || negb (is_super access)
  then writeAPIError StatusForbidden ErrAdminRequired "当前操作需要超级管理员权限"
         "只有超级管理员可以访问该接口。"
  else Next c.

Definition RequireAdmin (c : ReqContext) : verdict := RequireSuperAdmin c.

Definition with_access (c : ReqContext) (access : UserAccess) : ReqContext :=
  mkReqContext (ContextUserID c) (ContextUsername c) (ContextAuthMode c) (Some access)
    (ContextAuditHandled c).

(** [database] is [app.DB() != nil]. *)
Definition LoadAuthorizationContext (database : bool) (c : ReqContext) : M AccessTables verdict :=
  match AuthenticatedUserID c with
  | (_, false) => ret (Next c)
  | (userID, true) =>
      if negb database then
        ret (writeAPIError StatusServiceUnavailable ErrPermissionUnavailable
          "权限服务不可用，请稍后重试" "服务端数据库未初始化，无法加载当前用户权限。")
      else
        let* loaded := attempt (LoadUserAccess userID) in
        match loaded with
        | Ok access => ret (Next (with_access c access))
        | Fail err =>
            if String.eqb (ContextAuthMode c) AuthModeTicket || is_not_found err
            then ret (Next c)
            else ret (writeAPIError StatusServiceUnavailable ErrPermissionUnavailable
              "权限服务不可用，请稍后重试" ("读取当前用户权限失败：" +:+ Error err))
        end
  end.

(** A guarded route: the handlers run only after [Next]. *)
Definition guarded (database : bool) (guard : ReqContext -> verdict) (c : ReqContext)
    : M AccessTables verdict :=
  let* v := LoadAuthorizationContext database c in
  match v with
  | Next c => ret (guard c)
  | Refuse e => ret (Refuse e)
  end.

(** ** The matrix of the frontend *)

Definition matrix_actions (has : string -> bool) : list (string * bool) := [
  ("website.delete", has PermissionWebsiteWrite);
  ("website.restore", has PermissionWebsiteWrite);
  ("database.restore", has PermissionDatabaseWrite);
  ("database.connection.delete", has PermissionDatabaseWrite);
  ("audit.export", has PermissionAuditExport);
  ("audit.verify", has PermissionAuditVerify);
  ("database.credential.reveal", has PermissionDatabaseWrite);
  ("certificate.issue", has PermissionWebsiteWrite);
  ("file.create", has PermissionFileCreate);
  ("file.edit", has PermissionFileEdit);
  ("file.move", has PermissionFileMove);
  ("file.delete", has PermissionFileDelete);
  ("file.modify", has PermissionFileModify);
  ("file.archive", has PermissionFileArchive);
  ("file.share.create", has PermissionFileShare);
  ("file.share.revoke", has PermissionFileShare);
  ("container.terminal", has PermissionContainerTerminal);
  ("container.force_action", has PermissionContainerForceAction);
  ("container.dangerous.cleanup", has PermissionContainerDangerousCleanup)].

Definition approval_policies : list (string * bool) := [
  ("website.delete", true);
  ("website.restore", true);
  ("database.restore", true);
  ("database.connection.delete", true);
  ("certificate.issue", true);
  ("certificate.renew", true);
  ("certificate.disable", true);
  ("database.credential.reveal", false);
  ("file.delete", true);
  ("file.trash.empty", true);
  ("file.trash.delete", true)].

Definition matrix_scopes (has : string -> bool) : list (string * list (string * bool)) := [
  ("dashboard", [
    ("read", has PermissionDashboardRead)]);
  ("runtimeLog", [
    ("read", has PermissionRuntimeLogRead)]);
  ("software", [
    ("read", has PermissionSoftwareRead);
    ("write", has PermissionSoftwareWrite);
    ("serviceRead", has PermissionServiceRead);
    ("serviceWrite", has PermissionServiceWrite)]);
  ("security", [
    ("read", has PermissionSecurityRead);
    ("write", has PermissionSecurityWrite)]);
  ("cron", [
    ("read", has PermissionCronRead);
    ("write", has PermissionCronWrite)]);
  ("monitoring", [
    ("read", has PermissionMonitoringRead);
    ("write", has PermissionMonitoringWrite)]);
  ("system", [
    ("read", has PermissionSystemRead);
    ("write", has PermissionSystemWrite)]);
  ("configuration", [
    ("read", has PermissionConfigSnapshotRead);
    ("write", has PermissionConfigSnapshotWrite)]);
  ("audit", [
    ("read", has PermissionAuditRead);
    ("export", has PermissionAuditExport);
    ("verify", has PermissionAuditVerify)]);
  ("website", [
    ("read", has PermissionWebsiteRead);
    ("write", has PermissionWebsiteWrite);
    ("approvalRequest", has PermissionWebsiteApproval || has PermissionApprovalRequest)]);
  ("database", [
    ("read", has PermissionDatabaseRead);
    ("write", has PermissionDatabaseWrite);
    ("approvalRequest", has PermissionDatabaseApproval || has PermissionApprovalRequest)]);
  ("approval", [
    ("read", has PermissionApprovalRead);
    ("request", has PermissionApprovalRequest);
    ("review", has PermissionApprovalReview);
    ("execute", has PermissionApprovalExecute)]);
  ("task", [
    ("readSelf", has PermissionTaskReadSelf);
    ("readAll", has PermissionTaskReadAll);
    ("cancelSelf", has PermissionTaskCancelSelf)]);
  ("file", [
    ("read", has PermissionFileRead);
    ("create", has PermissionFileCreate);
    ("edit", has PermissionFileEdit);
    ("move", has PermissionFileMove);
    ("delete", has PermissionFileDelete);
    ("modify", has PermissionFileModify);
    ("archive", has PermissionFileArchive);
    ("share", has PermissionFileShare);
    ("scopeRoot", has PermissionFileScopeRoot);
    ("scopeWebsites", has PermissionFileScopeWebsites);
    ("scopeBackups", has PermissionFileScopeBackups)]);
  ("container", [
    ("read", has PermissionContainerRead);
    ("write", has PermissionContainerWrite);
    ("delete", has PermissionContainerDelete);
    ("terminal", has PermissionContainerTerminal);
    ("logsRead", has PermissionContainerLogsRead);
    ("imageWrite", has PermissionContainerImageWrite);
    ("networkWrite", has PermissionContainerNetworkWrite);
    ("volumeWrite", has PermissionContainerVolumeWrite);
    ("composeWrite", has PermissionContainerComposeWrite);
    ("registryWrite", has PermissionContainerRegistryWrite);
    ("configWrite", has PermissionContainerConfigWrite);
    ("runtimeInstall", has PermissionContainerRuntimeInstall);
    ("dangerousCleanup", has PermissionContainerDangerousCleanup);
    ("forceAction", has PermissionContainerForceAction)]);
  ("bastion", [
    ("read", has PermissionBastionRead);
    ("write", has PermissionBastionWrite);
    ("identityRead", has PermissionBastionIdentityRead)])].

Definition authorizationMenuRules (config : Config) (has : string -> bool)
    (access : option UserAccess) : list (string * bool) := [
  ("dashboard", is_some access && (is_super access || has PermissionDashboardRead));
  ("website", has PermissionWebsiteRead || has PermissionWebsiteWrite);
  ("database", has PermissionDatabaseRead || has PermissionDatabaseWrite);
  ("monitoring", has PermissionMonitoringRead || has PermissionMonitoringWrite);
  ("security", has PermissionSecurityRead || has PermissionSecurityWrite);
  ("file", has PermissionFileRead || has PermissionFileWrite);
  ("audit", has PermissionAuditRead);
  ("runtimeLog", has PermissionRuntimeLogRead);
  ("cron", has PermissionCronRead || has PermissionCronWrite);
  ("software", has PermissionSoftwareRead || has PermissionSoftwareWrite || has PermissionServiceRead || has PermissionServiceWrite);
  ("container", has PermissionContainerRead || has PermissionContainerWrite);
  ("panelSettings", is_some access && is_super access);
  ("userManagement", is_some access && is_super access);
  ("approval", has PermissionApprovalRead);
  ("logout", is_some access);
  ("terminal", TerminalEnabled config && has PermissionTerminalAccess);
  ("bastion", BastionEnabled config && (has PermissionBastionRead || has PermissionBastionWrite))].

Record AuthorizationMatrix := mkAuthorizationMatrix {
  Menu : gmap string bool; FirstAccessibleMenu : string; Actions : gmap string bool;
  ApprovalPolicies : gmap string bool; Scopes : gmap string (gmap string bool)
}.

(** The loop that looks for the first visible entry but [logout]. *)
Fixpoint first_menu (keys : list string) (menu : gmap string bool) : string :=
  match keys with
  | [] => ""
  | key :: keys =>
      if negb (String.eqb key "logout") && default false (menu !! key) then key
      else first_menu keys menu
  end.

Definition BuildAuthorizationMatrix (config : Config) (access : option UserAccess)
    : AuthorizationMatrix :=
  let has := HasPermission access in
  let rules := authorizationMenuRules config has access in
  let menu := list_to_map (rev rules) in
  let actions : gmap string bool := (has <$> OperationPermissions)
    ∪ list_to_map (matrix_actions has) in
  {| Menu := menu; FirstAccessibleMenu := first_menu (map fst rules) menu; Actions := actions;
     ApprovalPolicies := list_to_map approval_policies;
     Scopes := (fun l => list_to_map l) <$>
       (list_to_map (matrix_scopes has) : gmap string (list (string * bool))) |}.

(** ** The audit of requests *)

Definition sensitiveOperations : list (string * list string) := [
  ("POST", [
    "/v1/login";
    "/v1/logout";
    "/v1/sessions/revoke-others";
    "/v1/security/totp/setup";
    "/v1/security/totp/confirm";
    "/v1/security/totp/disable";
    "/v1/security/totp/recovery-codes/regenerate";
    "/v1/sys/updateuser";
    "/v1/sys/resetpassword";
    "/v1/sys/updateport";
    "/v1/sys/update/check";
    "/v1/sys/update/apply";
    "/v1/sys/backups";
    "/v1/soft/install";
    "/v1/soft/remove";
    "/v1/storage/addconn";
    "/v1/storage/updateconn";
    "/v1/storage/delconn";
    "/v1/storage/addlib";
    "/v1/storage/dellib";
    "/v1/storage/backups";
    "/v1/storage/restores";
    "/v1/cron/add";
    "/v1/cron/update";
    "/v1/cron/del";
    "/v1/cron/disable";
    "/v1/cron/enable";
    "/v1/cron/run";
    "/v1/cron/log/cleanup";
    "/v1/safe/add";
    "/v1/safe/update";
    "/v1/safe/del";
    "/v1/safe/rules/state";
    "/v1/safe/rules/batch";
    "/v1/safe/rules/cleanup";
    "/v1/safe/rules/import";
    "/v1/safe/forwards/add";
    "/v1/safe/forwards/update";
    "/v1/safe/forwards/del";
    "/v1/safe/forwards/state";
    "/v1/safe/auto-block";
    "/v1/safe/stop";
    "/v1/safe/blockping";
    "/v1/safe/install";
    "/v1/website/add";
    "/v1/website/del";
    "/v1/website/backups";
    "/v1/website/restores";
    "/v1/website/certificates/acme";
    "/v1/ssh/ticket";
    "/v1/audit/verify"]);
  ("GET", [
    "/v1/ssh/open";
    "/v1/audit/export"]);
  ("DELETE", [
    "/v1/sys/remark/del";
    "/v1/website/del";
    "/v1/safe/del"])].

Definition read_only_posts : list string := [
  "/v1/sys/dic/list";
  "/v1/storage/liblist";
  "/v1/storage/rklist";
  "/v1/storage/info";
  "/v1/ftp/list";
  "/v1/ftp/search";
  "/v1/ftp/content";
  "/v1/ftp/tree";
  "/v1/soft/list";
  "/v1/soft/exploration";
  "/v1/website/list";
  "/v1/website/info";
  "/v1/safe/rules";
  "/v1/cron/list";
  "/v1/cron/log"].

Definition isReadOnlyPost (path : string) : bool := existsb (String.eqb path) read_only_posts.

Definition shouldPersistAudit (method path : string) (status : Z) (sensitive : bool) : bool :=
  if sensitive || (400 <=? status) then true
  else if String.eqb method "POST" && isReadOnlyPost path then false
  else negb (existsb (String.eqb method) ["GET"; "HEAD"; "OPTIONS"]).

(** The guards before the table, in order; [inside prefix suffix] abbreviates
    the two tests of the path. *)
Definition sensitive_route (method path : string) : bool :=
  let post := String.eqb method "POST" in
  let get := String.eqb method "GET" in
  let inside prefix suffix := HasPrefix path prefix && HasSuffix path suffix in
  (post && (String.eqb path "/v1/operations/preview" || inside "/v1/operations/" "/execute"))
  || (negb get && HasPrefix path "/v1/website/"
      && (HasSuffix path "/status" || HasSuffix path "/settings" || HasSuffix path "/config"
          || String.eqb path "/v1/website/update" || String.eqb path "/v1/website/add"))
  || (HasPrefix path "/v1/containers/"
      && ((post && HasSuffix path "/terminal/ticket") || (get && HasSuffix path "/terminal/open")))
  || (negb get && HasPrefix path "/v1/bastion/")
  || (negb get && HasPrefix path "/v1/monitor/")
  || (negb get && HasPrefix path "/v1/soft/services/")
  || (post && inside "/v1/storage/backups/" "/delete")
  || (post && inside "/v1/storage/tasks/" "/cancel")
  || (post && HasPrefix path "/v1/website/certificates/")
  || (post && inside "/v1/website/certificate-tasks/" "/cancel")
  || (post && inside "/v1/website/backups/" "/delete")
  || (post && inside "/v1/website/tasks/" "/cancel")
  || (post && inside "/v1/sessions/" "/revoke")
  || (post && inside "/v1/cron/executions/" "/cancel")
  || (get && inside "/v1/storage/backups/" "/download")
  || (get && inside "/v1/website/backups/" "/download")
  || (get && inside "/v1/sys/backups/" "/download")
  || (get && inside "/v1/soft/tasks/" "/log/download")
  || (get && inside "/v1/cron/" "/log/export").

Definition isSensitiveOperation (method path : string) : bool :=
  if sensitive_route method path then true
  else
    match (list_to_map sensitiveOperations : gmap string (list string)) !! method with
    | None => false
    | Some paths => existsb (HasPrefix path) paths
    end.

(** [http.StatusText] for the failures; other codes have no text there. *)
Definition StatusText (code : Z) : string :=
  match List.find (fun e : Z * string => e.1 =? code) [
    (400, "Bad Request"); (401, "Unauthorized");
    (402, "Payment Required"); (403, "Forbidden");
    (404, "Not Found"); (405, "Method Not Allowed");
    (406, "Not Acceptable"); (407, "Proxy Authentication Required");
    (408, "Request Timeout"); (409, "Conflict");
    (410, "Gone"); (411, "Length Required");
    (412, "Precondition Failed"); (413, "Request Entity Too Large");
    (414, "Request URI Too Long"); (415, "Unsupported Media Type");
    (416, "Requested Range Not Satisfiable"); (417, "Expectation Failed");
    (418, "I'm a teapot"); (421, "Misdirected Request");
    (422, "Unprocessable Entity"); (423, "Locked");
    (424, "Failed Dependency"); (425, "Too Early");
    (426, "Upgrade Required"); (428, "Precondition Required");
    (429, "Too Many Requests"); (431, "Request Header Fields Too Large");
    (451, "Unavailable For Legal Reasons"); (500, "Internal Server Error");
    (501, "Not Implemented"); (502, "Bad Gateway");
    (503, "Service Unavailable"); (504, "Gateway Timeout");
    (505, "HTTP Version Not Supported"); (506, "Variant Also Negotiates");
    (507, "Insufficient Storage"); (508, "Loop Detected");
    (510, "Not Extended"); (511, "Network Authentication Required")] with
  | Some (_, text) => text
  | None => ""
  end.

(** What the middleware reads of the request and of the finished response. *)
Record Exchange := mkExchange {
  ex_Method : string; ex_Path : string; ex_FullPath : string; ex_Status : Z;
  ex_RemoteIP : string; ex_UserAgent : string; ex_ContentLength : Z; ex_DurationMS : Z
}.

Section audit_log.
Context `{!UnicodeCase}.

Definition audit_input (requestID : string) (start : time) (c : ReqContext) (x : Exchange)
    : EventInput :=
  let route := if String.eqb (ex_FullPath x) "" then ex_Path x else ex_FullPath x in
  let failed := 400 <=? ex_Status x in
  {| in_RequestID := requestID; in_EventType := "http";
     in_Action := ToLower (ex_Method x) +:+ " " +:+ route;
     in_Method := ex_Method x; in_Route := route; in_Path := ex_Path x;
     in_Status := ex_Status x; in_Outcome := if failed then "failure" else "success";
     in_Sensitive := isSensitiveOperation (ex_Method x) (ex_Path x);
     in_UserID := (AuthenticatedUserID c).1; in_Username := ContextUsername c;
     in_AuthMode := ContextAuthMode c; in_RemoteIP := ex_RemoteIP x;
     in_UserAgent := ex_UserAgent x; in_ContentLength := ex_ContentLength x;
     in_DurationMS := ex_DurationMS x;
     in_Message := if failed then StatusText (ex_Status x) else "";
     in_CreatedAt := start |}.

(** After the handlers; a failed append is only logged. *)
Definition AuditLog (manager : option Manager) (now : time) (requestID : string) (start : time)
    (c : ReqContext) (x : Exchange) : M AuditTables unit :=
  if ContextAuditHandled c then ret tt
  else
    let sensitive := isSensitiveOperation (ex_Method x) (ex_Path x) in
    if negb (shouldPersistAudit (ex_Method x) (ex_Path x) (ex_Status x) sensitive) then ret tt
    else
      match manager with
      | None => ret tt
      | Some _ =>
          let* _ := attempt (Append manager now (audit_input requestID start c x)) in ret tt
      end.
End audit_log.

(** ** Guards against the tables *)

(** The account [uid] may use [p]: as a super administrator, through a role,
    or, for the deprecated [file.write], through a role with one of its
    replacements. *)
Definition entitled_user (t : AccessTables) (uid : Z) (p : string) : Prop :=
  match List.find (fun u => User_ID u =? uid) (users t) with
  | None => False
  | Some u =>
      User_IsAdmin u = true \/
      exists q, (q = p \/ exists aliases, legacyAliases !! p = Some aliases /\ In q aliases) /\
        effective t uid q
  end.

Lemma aliases_nonempty p l q : legacyAliases !! p = Some l -> In q l -> q <> "".
Proof.
  unfold legacyAliases. intros [_ <-]%lookup_singleton_Some Hq ->.
  repeat (destruct Hq as [Hq|Hq]; [discriminate Hq|]). done.
Qed.

Lemma HasPermission_spec a p :
  HasPermission (Some a) p = true <->
  IsSuperAdmin a = true \/ p ∈ PermissionSet a \/
  exists aliases q, legacyAliases !! p = Some aliases /\ In q aliases /\ q ∈ PermissionSet a.
Proof.
  unfold HasPermission. destruct (IsSuperAdmin a); [tauto|].
  case_bool_decide; [tauto|]. destruct (legacyAliases !! p) as [aliases|].
  - rewrite existsb_exists. split.
    + intros (q & ? & ?%bool_decide_eq_true). right. right. by exists aliases, q.
    + intros [?|[?|(l & q & [= <-] & ? & ?)]]; [done|done|]. exists q.
      split; [done|by apply bool_decide_eq_true].
  - split; [done|]. intros [?|[?|(? & ? & ? & _)]]; done.
Qed.

Lemma loaded_entitled uid w a w' p :
  LoadUserAccess uid w = (Ok a, w') -> p <> "" ->
  (HasPermission (Some a) p = true <-> entitled_user (tables w) uid p).
Proof.
  intros Hrun Hp. apply LoadUserAccess_Ok in Hrun
    as (_ & u & Hf & _ & _ & _ & _ & Hsup & _ & _ & Hrest).
  unfold entitled_user. rewrite Hf, HasPermission_spec, Hsup.
  destruct (User_IsAdmin u); [tauto|]. destruct Hrest as [Heff _]. split.
  - intros [?|[Hset|(l & q & Hl & Hq & Hset)]]; [done| |]; right.
    + apply Heff in Hset as [_ ?]. exists p. auto.
    + apply Heff in Hset as [_ ?]. exists q. split; [|done]. right. by exists l.
  - intros [?|(q & Hcase & Hq)]; [done|right]. destruct Hcase as [->|(l & Hl & Hin)].
    + left. by apply Heff.
    + right. exists l, q. split_and!; [done|done|]. apply Heff. split; [|done].
      eapply aliases_nonempty; eassumption.
Qed.

Lemma RequirePermission_Next p c c' :
  RequirePermission p c = Next c' ->
  c' = c /\ exists a, ContextUserAccess c = Some a /\ HasPermission (Some a) p = true.
Proof.
  unfold RequirePermission, writePermissionDenied, writeAPIError.
  destruct (ContextUserAccess c) as [a|]; cbn [is_some negb orb]; [|done].
  destruct (HasPermission (Some a) p) eqn:E; cbn [negb].
  - intros [= <-]. eauto.
  - by destruct (_ && _).
Qed.

Lemma LoadUserAccess_readonly uid : readonly (LoadUserAccess uid).
Proof.
  unfold LoadUserAccess. apply readonly_bind; [apply readonly_first|]. intros u.
  destruct (User_IsAdmin u); [apply readonly_ret|].
  apply readonly_bind; [apply readonly_read|]. intros rows. by destruct (foldl _ _ _).
Qed.

Lemma LoadAuthorizationContext_cases database c w r w' :
  LoadAuthorizationContext database c w = (r, w') ->
  tables w' = tables w /\ exists v, r = Ok v /\
    (v = Next c \/ (exists e, v = Refuse e) \/
     exists uid a, ContextUserID c = Some uid /\ 0 < uid /\
       LoadUserAccess uid w = (Ok a, w') /\ v = Next (with_access c a)).
Proof.
  unfold LoadAuthorizationContext, AuthenticatedUserID.
  destruct (ContextUserID c) as [uid|]; [|intros [= <- <-]; eauto].
  destruct (Z.ltb_spec 0 uid); [|intros [= <- <-]; eauto].
  destruct (negb database); [intros [= <- <-]; unfold writeAPIError; eauto 10|].
  pose proof (LoadUserAccess_readonly uid w) as Hro. unfold bind, attempt.
  destruct (LoadUserAccess uid w) as [[a|e] w1] eqn:E; cbn in Hro.
  - intros [= <- <-]. split; [done|]. eexists. split; [done|]. right. right. by exists uid, a.
  - destruct (_ || _); intros [= <- <-]; (split; [done|]); unfold writeAPIError; eauto 10.
Qed.

(** ** Properties of the middleware *)

(** C25: no route without its permission. Under any database faults, the
    handlers behind [RequirePermission p] run only for an authenticated
    account that the tables entitle to [p]; without faults they run for every
    such account; and the check itself never writes. *)
Theorem guarded_decides p c t (Hp : p <> "") (Hfresh : ContextUserAccess c = None) :
  (forall database w v w', tables w = t ->
    guarded database (RequirePermission p) c w = (Ok v, w') ->
    tables w' = t /\
    forall c', v = Next c' -> exists uid, ContextUserID c = Some uid /\ 0 < uid /\
      ContextUserID c' = Some uid /\ entitled_user t uid p) /\
  exists v, guarded true (RequirePermission p) c (World t []) = (Ok v, World t []) /\
    ((exists c', v = Next c') <->
     exists uid, ContextUserID c = Some uid /\ 0 < uid /\ entitled_user t uid p).
Proof.
  assert (Hnone : forall c', RequirePermission p c <> Next c').
  { intros c' (_ & a & Ha & _)%RequirePermission_Next. congruence. }
  split.
  - intros database w v w' <- Hrun. unfold guarded, bind in Hrun.
    destruct (LoadAuthorizationContext database c w) as [r w1] eqn:E.
    apply LoadAuthorizationContext_cases in E as (Ht & v1 & -> & Hcase).
    assert (w' = w1) as -> by (by destruct v1; injection Hrun). split; [done|].
    intros c' ->. destruct Hcase as [->|[[e ->]|(uid & a & Hid & Hpos & Hload & ->)]].
    + injection Hrun as Hc. by apply Hnone in Hc.
    + done.
    + injection Hrun as Hc. apply RequirePermission_Next in Hc as (-> & b & [= <-] & Hb).
      exists uid. split_and!; [done|done|done|]. by eapply loaded_entitled.
  - unfold guarded, LoadAuthorizationContext, AuthenticatedUserID.
    destruct (ContextUserID c) as [uid|] eqn:Ei.
    2: { eexists. split; [reflexivity|]. split; [intros [c' Hc]; by apply Hnone in Hc|].
         by intros (? & ? & _). }
    destruct (Z.ltb_spec 0 uid) as [Hpos|Hpos].
    2: { eexists. split; [reflexivity|]. split; [intros [c' Hc]; by apply Hnone in Hc|].
         intros (? & [= <-] & ? & _). lia. }
    cbn [negb] in *. unfold bind, attempt in *.
    destruct (List.find (fun u => User_ID u =? uid) (users t)) as [u|] eqn:Ef.
    + destruct (LoadUserAccess_total uid t u Ef) as [a Ha]. rewrite Ha.
      eexists. split; [reflexivity|]. split.
      * intros [c' (_ & b & [= <-] & Hb)%RequirePermission_Next].
        exists uid. split_and!; [done|done|]. by eapply (loaded_entitled _ _ _ _ p Ha Hp).
      * intros (i & [= <-] & _ & Hent). exists (with_access c a).
        apply (loaded_entitled _ _ _ _ p Ha Hp) in Hent.
        unfold RequirePermission. cbn [ContextUserAccess with_access is_some negb orb].
        by rewrite Hent.
    + assert (Hl : LoadUserAccess uid (World t []) = (Fail (Sentinel ErrRecordNotFound), World t [])).
      { unfold LoadUserAccess, bind, first, statement, next_fault. cbn [faults tables]. by rewrite Ef. }
      rewrite Hl. change (is_not_found _) with true. rewrite orb_true_r.
      eexists. split; [reflexivity|]. split; [intros [c' Hc]; by apply Hnone in Hc|].
      intros (i & [= <-] & _ & Hent). unfold entitled_user in Hent. by rewrite Ef in Hent.
Qed.

Definition demo_request : ReqContext := mkReqContext (Some 5) "ops" "bearer" None false.

Lemma guarded_decides_witness :
  exists v, guarded true (RequirePermission PermissionAuditRead) demo_request
    (World (mkAccessTables [demo_user] [] [] [] []) []) = (Ok v, World (mkAccessTables [demo_user] [] [] [] []) [])
    /\ ~ (exists c', v = Next c').
Proof.
  destruct (guarded_decides PermissionAuditRead demo_request
    (mkAccessTables [demo_user] [] [] [] []) ltac:(discriminate) eq_refl) as (_ & v & Hv & Hiff).
  exists v. split; [exact Hv|]. intros Hc. apply Hiff in Hc as (uid & [= <-] & _ & Hent).
  destruct Hent as [Hadmin|(q & _ & ur & r & rp & p & [] & _)]. discriminate Hadmin.
Defined.

(** ** The matrix *)

Lemma first_menu_spec (rules : list (string * bool)) menu :
  (forall k v, In (k, v) rules -> menu !! k = Some v) ->
  (forall k, In (k, true) rules -> k <> "") ->
  let key := first_menu (map fst rules) menu in
  (key = "" /\ forall k, In (k, true) rules -> k = "logout") \/
  (key <> "logout" /\ exists pre post, rules = pre ++ (key, true) :: post /\
     forall k, In (k, true) pre -> k = "logout").
Proof.
  induction rules as [|[k v] rules IH]; intros Hmenu Hne; cbn.
  { left. split; [done|]. by intros ? []. }
  rewrite (Hmenu k v) by (by left). cbn [default].
  destruct (String.eqb_spec k "logout") as [->|Hk]; cbn [negb andb].
  - destruct IH as [[E Hall]|(Hl & pre & post & E & Hall)].
    + intros. apply Hmenu. by right.
    + intros. apply Hne. by right.
    + left. split; [done|]. intros k [[= <- _]|?]; auto.
    + right. split; [done|]. exists (("logout", v) :: pre), post. split; [cbn; f_equal; exact E|].
      intros k [[= <- _]|?]; auto.
  - destruct v.
    + right. split; [done|]. exists [], rules. split; [done|]. by intros ? [].
    + destruct IH as [[E Hall]|(Hl & pre & post & E & Hall)].
      * intros. apply Hmenu. by right.
      * intros. apply Hne. by right.
      * left. split; [done|]. intros k' [[=]|?]; auto.
      * right. split; [done|]. exists ((k, false) :: pre), post. split; [cbn; f_equal; exact E|].
        intros k' [[=]|?]; auto.
Qed.

Lemma menu_keys config has access :
  map fst (authorizationMenuRules config has access) =
  map fst (authorizationMenuRules (mkConfig true true) (fun _ => true) None).
Proof. done. Qed.

Lemma NoDup_menu config has access : NoDup (map fst (rev (authorizationMenuRules config has access))).
Proof.
  rewrite map_rev, menu_keys. apply (bool_decide_unpack _). vm_compute. exact I.
Qed.

(** The matrix agrees with the guards. Every operation that takes part in
    the preview protocol is shown exactly when its permission is held, and the
    first accessible menu is the first visible entry other than [logout], or
    empty when there is none. *)
Theorem matrix_agrees_with_guards config access :
  let m := BuildAuthorizationMatrix config access in
  let rules := authorizationMenuRules config (HasPermission access) access in
  (forall op p, In (op, p) operationPermissions ->
     OperationPermission op = (p, true) /\ Actions m !! op = Some (HasPermission access p)) /\
  (forall k v, In (k, v) rules -> Menu m !! k = Some v) /\
  ((FirstAccessibleMenu m = "" /\ forall k, In (k, true) rules -> k = "logout") \/
   (FirstAccessibleMenu m <> "logout" /\ exists pre post,
      rules = pre ++ (FirstAccessibleMenu m, true) :: post /\
      forall k, In (k, true) pre -> k = "logout")).
Proof.
  intros m rules.
  assert (Hops : NoDup (map fst operationPermissions))
    by (apply (bool_decide_unpack _); vm_compute; exact I).
  assert (Hmenu : forall k v, In (k, v) rules -> Menu m !! k = Some v).
  { intros k v Hin. apply elem_of_list_to_map_1; [apply NoDup_menu|].
    apply list_elem_of_In. by apply in_rev in Hin. }
  split_and!.
  - intros op p Hin. assert (Hl : OperationPermissions !! op = Some p)
      by (apply elem_of_list_to_map_1; [done|by apply list_elem_of_In]).
    split.
    + unfold OperationPermission. unfold OperationPermissions in Hl. by rewrite Hl.
    + cbn [Actions m BuildAuthorizationMatrix]. apply lookup_union_Some_l.
      by rewrite lookup_fmap, Hl.
  - done.
  - apply first_menu_spec; [done|]. intros k Hin Hk. subst k.
    apply (in_map fst) in Hin. unfold rules in Hin. rewrite menu_keys in Hin. cbn [fst] in Hin.
    repeat (destruct Hin as [Hin|Hin]; [discriminate Hin|]). done.
Qed.

(** ** Requests leave a trace *)

Section audit_properties.
Context `{!UnicodeCase}.

(** Accountability. After a request that no handler audits itself and
    that is sensitive, failed, or neither a plain read nor a listed
    read-only POST, an intact trail with room gains exactly one row, for
    this method, path and account, whose outcome is a failure exactly when
    the status is 400 or more (or else the digest collides); every other
    request leaves the tables alone. *)
Theorem AuditLog_records m now requestID start c x t
  (Hhandled : ContextAuditHandled c = false)
  (Htrail : trail m t) (Hroom : (logical_head t).1 < 2 ^ 64 - 1) :
  let persist := isSensitiveOperation (ex_Method x) (ex_Path x) || (400 <=? ex_Status x)
    || negb (existsb (String.eqb (ex_Method x)) ["GET"; "HEAD"; "OPTIONS"]
             || String.eqb (ex_Method x) "POST" && isReadOnlyPost (ex_Path x)) in
  let t' := tables (AuditLog (Some m) now requestID start c x (World t [])).2 in
  if persist then
    collision m \/
    exists e, audit_events t' = audit_events t ++ [e] /\ trail m t' /\
      Path e = sanitize (ex_Path x) 1024 /\ UserID e = (AuthenticatedUserID c).1 /\
      Sensitive e = isSensitiveOperation (ex_Method x) (ex_Path x) /\
      Outcome e = (if 400 <=? ex_Status x then "failure" else "success")
  else t' = t.
Proof.
  intros persist t'. unfold t', AuditLog. rewrite Hhandled.
  assert (Hp : shouldPersistAudit (ex_Method x) (ex_Path x) (ex_Status x)
    (isSensitiveOperation (ex_Method x) (ex_Path x)) = persist).
  { unfold shouldPersistAudit, persist. destruct (isSensitiveOperation _ _); [done|].
    destruct (400 <=? ex_Status x); [done|]. cbn [orb].
    by destruct (String.eqb (ex_Method x) "POST" && _), (existsb _ ["GET"; "HEAD"; "OPTIONS"]). }
  rewrite Hp. destruct persist; cbn [negb]; [|done].
  set (input := audit_input requestID start c x).
  destruct (Append_succeeds m now input t Htrail Hroom) as [(e & t1 & Hrun)|]; [right|by left].
  destruct (Append_trail _ _ _ _ _ _ Hrun Htrail Hroom) as (Htr & Hev & _ & _).
  exists e. unfold bind, attempt. rewrite Hrun. cbn [snd tables].
  do 2 (split; [done|]). apply append_loop_Ok in Hrun as (w1 & w2 & _ & Hrun & _).
  apply append_tx_Ok in Hrun as (seq & prev & _ & -> & _). cbn -[sanitize normalize_outcome].
  do 3 (split; [done|]). by destruct (400 <=? ex_Status x).
Qed.
End audit_properties.

Definition demo_exchange : Exchange :=
  mkExchange "POST" "/v1/login" "/v1/login" 401 "10.0.0.1" "curl" 20 3.

Lemma AuditLog_records_witness :
  collision demo_manager \/
  exists e, audit_events (tables (@AuditLog latin1_case (Some demo_manager) 9 "r" 5 demo_request
    demo_exchange (World empty_audit [])).2) = [e] /\ Outcome e = "failure".
Proof.
  pose proof (@AuditLog_records latin1_case demo_manager 9 "r" 5 demo_request demo_exchange
    empty_audit eq_refl (trail_empty _) eq_refl) as Hrec.
  destruct Hrec as [Hc|(e & Hev & _ & _ & _ & _ & Hout)]; [left; exact Hc|right].
  exists e. split; [exact Hev|exact Hout].
Defined.
