(* ===== verification/Approval.v ===== *)
(** Approval of high-risk operations ([internal/services/approval/service.go]
    and [expiry.go]): requests, their review by a second account, their expiry
    and the recording of their execution.

    Every reading of the clock is an argument: [checked] for the expiry test,
    [reviewed] for the time recorded by the review, [stamp] for the
    [updated_at] that gorm writes.  Timestamps compare as instants. *)

From S2P Require Import Prelude GoStrings GoText Store Access.
From stdpp Require Import sorting options.
#[local] Open Scope Z_scope.

Definition ApprovalStatusPending : string := "pending".
Definition ApprovalStatusApproved : string := "approved".
Definition ApprovalStatusRejected : string := "rejected".
Definition ApprovalStatusExpired : string := "expired".
Definition ApprovalStatusExecuting : string := "executing".
Definition ApprovalStatusCompleted : string := "completed".
Definition ApprovalStatusFailed : string := "failed".
Definition ApprovalStatusCanceled : string := "canceled".

Definition ErrRequesterCannotReview : string := "requester cannot review own request".
Definition ErrApprovalNotPending : string := "approval request is not pending".
Definition ErrApprovalExpired : string := "approval request has expired".

(** [models.ApprovalRequest]. *)
Record ApprovalRequest := mkApprovalRequest {
  ID : string; Module : string; Action : string; ResourceID : string; ResourceName : string;
  RiskLevel : string; Status : string; Reason : string; PayloadSnapshot : string;
  ResultPayload : string; RequestedBy : Z; RequestedByName : string; ApprovedBy : Z;
  ApprovedByName : string; ApprovedAt : option time; RejectedBy : Z; RejectedByName : string;
  RejectedAt : option time; ReviewComment : string; ExpiresAt : time; BoundTaskType : string;
  BoundTaskID : string; CreatedAt : time; UpdatedAt : time
}.

Abbreviation ApprovalTables := (list ApprovalRequest).

(** [CreateInput]; [in_Payload] is what [json.Marshal] makes of the payload. *)
Record CreateInput := mkCreateInput {
  in_Module : string; in_Action : string; in_ResourceID : string; in_ResourceName : string;
  in_RiskLevel : string; in_Reason : string; in_Payload : result string; in_RequestedBy : Z;
  in_RequestedByName : string; in_ExpiresAt : time
}.

Definition defaultString (value fallback : string) : string :=
  if String.eqb value "" then fallback else value.

(** ** Row updates *)

Definition with_status (r : ApprovalRequest) (status : string) (stamp : time) : ApprovalRequest :=
  mkApprovalRequest (ID r) (Module r) (Action r) (ResourceID r) (ResourceName r) (RiskLevel r)
    status (Reason r) (PayloadSnapshot r) (ResultPayload r) (RequestedBy r) (RequestedByName r)
    (ApprovedBy r) (ApprovedByName r) (ApprovedAt r) (RejectedBy r) (RejectedByName r)
    (RejectedAt r) (ReviewComment r) (ExpiresAt r) (BoundTaskType r) (BoundTaskID r)
    (CreatedAt r) stamp.

Definition with_approval (r : ApprovalRequest) (by' : Z) (name comment : string)
    (at' stamp : time) : ApprovalRequest :=
  mkApprovalRequest (ID r) (Module r) (Action r) (ResourceID r) (ResourceName r) (RiskLevel r)
    ApprovalStatusApproved (Reason r) (PayloadSnapshot r) (ResultPayload r) (RequestedBy r)
    (RequestedByName r) by' name (Some at') (RejectedBy r) (RejectedByName r)
    (RejectedAt r) comment (ExpiresAt r) (BoundTaskType r) (BoundTaskID r) (CreatedAt r) stamp.

Definition with_rejection (r : ApprovalRequest) (by' : Z) (name comment : string)
    (at' stamp : time) : ApprovalRequest :=
  mkApprovalRequest (ID r) (Module r) (Action r) (ResourceID r) (ResourceName r) (RiskLevel r)
    ApprovalStatusRejected (Reason r) (PayloadSnapshot r) (ResultPayload r) (RequestedBy r)
    (RequestedByName r) (ApprovedBy r) (ApprovedByName r) (ApprovedAt r) by' name (Some at')
    comment (ExpiresAt r) (BoundTaskType r) (BoundTaskID r) (CreatedAt r) stamp.

Definition with_execution (r : ApprovalRequest) (status taskType taskID : string)
    (payload : option string) (stamp : time) : ApprovalRequest :=
  mkApprovalRequest (ID r) (Module r) (Action r) (ResourceID r) (ResourceName r) (RiskLevel r)
    status (Reason r) (PayloadSnapshot r) (default (ResultPayload r) payload) (RequestedBy r)
    (RequestedByName r) (ApprovedBy r) (ApprovedByName r) (ApprovedAt r) (RejectedBy r)
    (RejectedByName r) (RejectedAt r) (ReviewComment r) (ExpiresAt r) taskType taskID
    (CreatedAt r) stamp.

(** [UPDATE ... SET f WHERE c], with [RowsAffected]. *)
Definition update_where (c : ApprovalRequest -> bool) (f : ApprovalRequest -> ApprovalRequest)
    (t : ApprovalTables) : result (Z * ApprovalTables) :=
  Ok (Z.of_nat (List.length (List.filter c t)), map (fun r => if c r then f r else r) t).

Definition has_id (id : string) (r : ApprovalRequest) : bool := String.eqb (ID r) id.

(** ** Creation *)

Section create.
(** [uuid.NewString()] with the dashes removed. *)
Variable uuid : string.

Definition new_request (now stamp : time) (input : CreateInput) (payload : string)
    : ApprovalRequest :=
  let expiresAt := in_ExpiresAt input in
  let expiresAt := if IsZero expiresAt then now + 24 * Hour else expiresAt in
  {| ID := "apr_" +:+ uuid; Module := TrimSpace (in_Module input);
     Action := TrimSpace (in_Action input); ResourceID := TrimSpace (in_ResourceID input);
     ResourceName := TrimSpace (in_ResourceName input);
     RiskLevel := defaultString (TrimSpace (in_RiskLevel input)) "high";
     Status := ApprovalStatusPending; Reason := TrimSpace (in_Reason input);
     PayloadSnapshot := payload; ResultPayload := ""; RequestedBy := in_RequestedBy input;
     RequestedByName := TrimSpace (in_RequestedByName input);
     ApprovedBy := 0; ApprovedByName := ""; ApprovedAt := None;
     RejectedBy := 0; RejectedByName := ""; RejectedAt := None; ReviewComment := "";
     ExpiresAt := expiresAt; BoundTaskType := ""; BoundTaskID := "";
     CreatedAt := stamp; UpdatedAt := stamp |}.

Definition insert_request (r : ApprovalRequest) (t : ApprovalTables)
    : result (unit * ApprovalTables) :=
  if existsb (has_id (ID r)) t then
    Fail (ErrorString "UNIQUE constraint failed: approval_requests.id")
  else Ok (tt, t ++ [r]).

Definition create (now stamp : time) (input : CreateInput) (payload : string)
    : M ApprovalTables ApprovalRequest :=
  let request := new_request now stamp input payload in
  let* _ := exec (insert_request request) in ret request.

Definition Create (database : bool) (now stamp : time) (input : CreateInput)
    : M ApprovalTables ApprovalRequest :=
  if negb database then fail (ErrorString "database is not initialized")
  else
    match in_Payload input with
    | Fail err => fail err
    | Ok payload => create now stamp input payload
    end.

Definition same_intent (now : time) (input : CreateInput) (payload : string)
    (r : ApprovalRequest) : bool :=
  String.eqb (Module r) (TrimSpace (in_Module input))
  && String.eqb (Action r) (TrimSpace (in_Action input))
  && String.eqb (ResourceID r) (TrimSpace (in_ResourceID input))
  && (RequestedBy r =? in_RequestedBy input)
  && String.eqb (Status r) ApprovalStatusPending
  && String.eqb (PayloadSnapshot r) payload
  && (now <? ExpiresAt r).

(** [ORDER BY created_at DESC LIMIT 1]. *)
Definition newest (rows : list ApprovalRequest) : option ApprovalRequest :=
  fold_left (fun best r =>
    match best with
    | None => Some r
    | Some b => if CreatedAt b <? CreatedAt r then Some r else best
    end) rows None.

Definition CreateOrReusePending (database : bool) (searched now stamp : time)
    (input : CreateInput) : M ApprovalTables (ApprovalRequest * bool) :=
  if negb database then fail (ErrorString "database is not initialized")
  else
    match in_Payload input with
    | Fail err => fail err
    | Ok payload =>
        let* existing := attempt (first (fun t =>
          newest (List.filter (same_intent searched input payload) t))) in
        match existing with
        | Ok existing => ret (existing, true)
        | Fail err =>
            if negb (is_not_found err) then fail err
            else let* request := create now stamp input payload in ret (request, false)
        end
    end.
End create.

Definition Get (id : string) : M ApprovalTables ApprovalRequest :=
  first (List.find (has_id (TrimSpace id))).

(** ** Review *)

Definition EffectiveStatus (request : option ApprovalRequest) (now : time) : string :=
  match request with
  | None => ""
  | Some r =>
      if String.eqb (Status r) ApprovalStatusPending && negb (IsZero (ExpiresAt r))
         && negb (After (ExpiresAt r) now)
      then ApprovalStatusExpired else Status r
  end.

(** The common first part of [Approve] and [Reject]: the row is read, the
    guards are tested, and an overdue request is marked as expired. *)
Definition review_checks (checked stamp : time) (id : string) (reviewerID : Z)
    : M ApprovalTables ApprovalRequest :=
  let* request := Get id in
  if RequestedBy request =? reviewerID then fail (Sentinel ErrRequesterCannotReview)
  else if String.eqb (Status request) ApprovalStatusExpired then fail (Sentinel ErrApprovalExpired)
  else if negb (String.eqb (Status request) ApprovalStatusPending) then
    fail (Sentinel ErrApprovalNotPending)
  else if negb (IsZero (ExpiresAt request)) && After checked (ExpiresAt request) then
    let* _ := exec (update_where (has_id (ID request))
      (fun r => with_status r ApprovalStatusExpired stamp)) in
    fail (Sentinel ErrApprovalExpired)
  else ret request.

(** The second part: the update of the row with this id, and its reading. *)
Definition approve_write (reviewed stamp : time) (id : string) (approverID : Z)
    (approverName comment : string) : M ApprovalTables ApprovalRequest :=
  let* _ := exec (update_where (has_id id) (fun r =>
    with_approval r approverID (TrimSpace approverName) (TrimSpace comment) reviewed stamp)) in
  Get id.

Definition reject_write (reviewed stamp : time) (id : string) (approverID : Z)
    (approverName comment : string) : M ApprovalTables ApprovalRequest :=
  let* _ := exec (update_where (has_id id) (fun r =>
    with_rejection r approverID (TrimSpace approverName) (TrimSpace comment) reviewed stamp)) in
  Get id.

Definition Approve (checked reviewed stamp : time) (id : string) (approverID : Z)
    (approverName comment : string) : M ApprovalTables ApprovalRequest :=
  let* request := review_checks checked stamp id approverID in
  approve_write reviewed stamp (ID request) approverID approverName comment.

Definition Reject (checked reviewed stamp : time) (id : string) (approverID : Z)
    (approverName comment : string) : M ApprovalTables ApprovalRequest :=
  let* request := review_checks checked stamp id approverID in
  reject_write reviewed stamp (ID request) approverID approverName comment.

(** ** Execution and expiry

    [encoded] is [None] for a nil result, and otherwise what [json.Marshal]
    makes of it. *)
Definition UpdateExecutionResult (stamp : time) (id status boundTaskType boundTaskID : string)
    (encoded : option (result string)) : M ApprovalTables unit :=
  let write payload :=
    let* _ := exec (update_where (has_id (TrimSpace id)) (fun r =>
      with_execution r (TrimSpace status) (TrimSpace boundTaskType) (TrimSpace boundTaskID)
        payload stamp)) in ret tt in
  match encoded with
  | None => write None
  | Some (Ok text) => write (Some text)
  | Some (Fail err) => fail err
  end.

Definition bound_executing (boundTaskType boundTaskID : string) (r : ApprovalRequest) : bool :=
  String.eqb (BoundTaskType r) (TrimSpace boundTaskType)
  && String.eqb (BoundTaskID r) (TrimSpace boundTaskID)
  && String.eqb (Status r) ApprovalStatusExecuting.

Definition UpdateBoundTaskResult (stamp : time) (boundTaskType boundTaskID status : string)
    (encoded : option (result string)) : M ApprovalTables unit :=
  let write payload :=
    let* _ := exec (update_where (bound_executing boundTaskType boundTaskID) (fun r =>
      with_execution r (TrimSpace status) (BoundTaskType r) (BoundTaskID r) payload stamp)) in
    ret tt in
  match encoded with
  | None => write None
  | Some (Ok text) => write (Some text)
  | Some (Fail err) => fail err
  end.

Definition overdue (now : time) (r : ApprovalRequest) : bool :=
  String.eqb (Status r) ApprovalStatusPending && (ExpiresAt r <=? now).

Definition ExpirePending (database : bool) (now stamp : time) : M ApprovalTables Z :=
  if negb database then fail (ErrorString "approval database is not initialized")
  else exec (update_where (overdue now) (fun r => with_status r ApprovalStatusExpired stamp)).

(** ** Names shown to the user *)

Definition LocaleZhCN : string := "zh-CN".
Definition LocaleEnUS : string := "en-US".

Definition supportedLocales : gmap string string :=
  list_to_map [("zh", LocaleZhCN); ("zh-cn", LocaleZhCN); ("en", LocaleEnUS); ("en-us", LocaleEnUS)].

Definition approvalActionNames : list (string * string) := [
  ("website.delete", "删除网站"); ("website.restore", "恢复网站");
  ("certificate.issue", "签发证书"); ("certificate.renew", "续期证书");
  ("certificate.disable", "禁用证书"); ("database.restore", "恢复数据库");
  ("database.credential.reveal", "查看数据库凭据");
  ("database.connection.delete", "删除数据库连接")].

Definition approvalModuleNames : list (string * string) := [
  ("website", "网站"); ("database", "数据库"); ("certificate", "证书")].

Definition approvalRiskNames : list (string * string) := [
  ("low", "低风险"); ("medium", "中风险"); ("high", "高风险")].

Definition approvalStatusNames : list (string * string) := [
  (ApprovalStatusPending, "待审批"); (ApprovalStatusApproved, "已通过");
  (ApprovalStatusRejected, "已拒绝"); (ApprovalStatusExpired, "已过期");
  (ApprovalStatusExecuting, "执行中"); (ApprovalStatusCompleted, "已完成");
  (ApprovalStatusFailed, "执行失败"); (ApprovalStatusCanceled, "已取消")].

Definition englishNames : list (string * string) := [
  ("删除网站", "Delete website"); ("恢复网站", "Restore website"); ("签发证书", "Issue certificate");
  ("续期证书", "Renew certificate"); ("禁用证书", "Disable certificate");
  ("恢复数据库", "Restore database"); ("查看数据库凭据", "View database credentials");
  ("删除数据库连接", "Delete database connection");
  ("网站", "Website"); ("数据库", "Database"); ("证书", "Certificate");
  ("低风险", "Low"); ("中风险", "Medium"); ("高风险", "High");
  ("待审批", "Pending"); ("已通过", "Approved"); ("已拒绝", "Rejected"); ("已过期", "Expired");
  ("执行中", "Executing"); ("已完成", "Completed"); ("执行失败", "Failed"); ("已取消", "Canceled");
  ("其他", "Other")].

Definition table_lookup (names : list (string * string)) (key : string) : option string :=
  (list_to_map names : gmap string string) !! key.

(** A missing key of a Go map is the empty string. *)
Definition localizedEnglishName (name : string) : string := default "" (table_lookup englishNames name).

Section names.
Context `{!UnicodeCase}.

Definition Canonical (locale : string) : string :=
  let locale := TrimSpace locale in
  if String.eqb locale "" then LocaleZhCN
  else match supportedLocales !! ToLower locale with
       | Some canonical => canonical
       | None => LocaleZhCN
       end.

Definition localizedApprovalName (locale value : string) (names : list (string * string)) : string :=
  match table_lookup names (TrimSpace value) with
  | None => "其他"
  | Some name =>
      if String.eqb (Canonical locale) LocaleEnUS then
        let translated := localizedEnglishName name in
        if negb (String.eqb translated "") then translated else name
      else name
  end.

Definition localizedFallbackName (locale name : string) : string :=
  if String.eqb (Canonical locale) LocaleEnUS then localizedEnglishName name else name.

Definition LocalizedApprovalResourceName (locale : string) (request : ApprovalRequest) : string :=
  let value := TrimSpace (ResourceName request) in
  if negb (String.eqb value "") then value
  else if String.eqb (TrimSpace (ResourceID request)) "" then localizedFallbackName locale "资源"
  else
    let prefix :=
      if String.eqb (Module request) "database" then "数据库"
      else if HasPrefix (Action request) "certificate." then "网站" else "资源" in
    let prefix :=
      if String.eqb (Canonical locale) LocaleEnUS
      then default "" (table_lookup [("资源", "Resource"); ("数据库", "Database");
                                     ("网站", "Website")] prefix)
      else prefix in
    prefix +:+ " #" +:+ TrimSpace (ResourceID request).

Definition ApprovalResourceName (request : ApprovalRequest) : string :=
  LocalizedApprovalResourceName LocaleZhCN request.

Definition LocalizedActionName (locale action : string) : string :=
  localizedApprovalName locale action approvalActionNames.
Definition LocalizedModuleName (locale module : string) : string :=
  localizedApprovalName locale module approvalModuleNames.
Definition LocalizedApprovalModuleName (locale module action : string) : string :=
  if HasPrefix (TrimSpace action) "certificate."
  then localizedApprovalName locale "certificate" approvalModuleNames
  else LocalizedModuleName locale module.
Definition LocalizedRiskLevelName (locale riskLevel : string) : string :=
  localizedApprovalName locale riskLevel approvalRiskNames.
Definition LocalizedStatusName (locale status : string) : string :=
  localizedApprovalName locale status approvalStatusNames.

(** The iteration order of the map is unspecified; the result is only used
    in an [IN] condition. *)
Definition matchingApprovalNames (keyword : string) (names : list (string * string)) : list string :=
  let keyword := ToLower (TrimSpace keyword) in
  if String.eqb keyword "" then []
  else map fst (List.filter (fun e => Contains (ToLower e.2) keyword
                  || Contains (ToLower (localizedEnglishName e.2)) keyword) names).

Record ApprovalListItem := mkApprovalListItem {
  item_ID : string; item_ResourceName : string; item_ActionName : string;
  item_ModuleName : string; item_RiskLevelName : string; item_Status : string;
  item_StatusName : string; item_ApplicantName : string; item_AppliedAt : time;
  item_ReviewedAt : option time; item_UpdatedAt : time; item_ExpiresAt : time
}.

Definition buildApprovalListItem (request : ApprovalRequest) (locale : string) (now : time)
    : ApprovalListItem :=
  let reviewedAt := match ApprovedAt request with
                    | Some t => Some t
                    | None => RejectedAt request
                    end in
  {| item_ID := ID request;
     item_ResourceName := LocalizedApprovalResourceName locale request;
     item_ActionName := LocalizedActionName locale (Action request);
     item_ModuleName := LocalizedApprovalModuleName locale (Module request) (Action request);
     item_RiskLevelName := LocalizedRiskLevelName locale (RiskLevel request);
     item_Status := EffectiveStatus (Some request) now;
     item_StatusName := LocalizedStatusName locale (EffectiveStatus (Some request) now);
     item_ApplicantName := RequestedByName request;
     item_AppliedAt := CreatedAt request; item_ReviewedAt := reviewedAt;
     item_UpdatedAt := UpdatedAt request; item_ExpiresAt := ExpiresAt request |}.

Record ListOptions := mkListOptions {
  opt_Page : Z; opt_PageSize : Z; opt_Status : string; opt_Module : string; opt_Action : string;
  opt_Mine : bool; opt_Keyword : string; opt_CreatedFrom : option time;
  opt_CreatedTo : option time; opt_UserID : Z; opt_IncludeAll : bool; opt_Locale : string
}.

(** SQL's [LIKE]: value, then pattern. *)
Variable like : string -> string -> bool.

Definition status_filter (now : time) (options : ListOptions) (r : ApprovalRequest) : bool :=
  let value := TrimSpace (opt_Status options) in
  if String.eqb value "" then true
  else if String.eqb value ApprovalStatusPending then
    String.eqb (Status r) value && (now <? ExpiresAt r)
  else if String.eqb value ApprovalStatusExpired then
    String.eqb (Status r) value
    || (String.eqb (Status r) ApprovalStatusPending && (ExpiresAt r <=? now))
  else String.eqb (Status r) value.

Definition module_filter (options : ListOptions) (r : ApprovalRequest) : bool :=
  let value := TrimSpace (opt_Module options) in
  if String.eqb value "" then true
  else if String.eqb value "certificate" then
    String.eqb (Module r) value
    || (String.eqb (Module r) "website" && like (Action r) "certificate.%")
  else String.eqb (Module r) value.

Definition keyword_filter (options : ListOptions) (r : ApprovalRequest) : bool :=
  let value := TrimSpace (opt_Keyword options) in
  if String.eqb value "" then true
  else
    let pattern := "%" +:+ value +:+ "%" in
    existsb (fun column => like column pattern)
      [ResourceName r; Action r; Module r; RequestedByName r; ID r; ResourceID r; BoundTaskID r]
    || existsb (String.eqb (Action r)) (matchingApprovalNames value approvalActionNames)
    || existsb (String.eqb (Module r)) (matchingApprovalNames value approvalModuleNames).

Definition list_filter (now : time) (options : ListOptions) (r : ApprovalRequest) : bool :=
  status_filter now options r && module_filter options r
  && (String.eqb (TrimSpace (opt_Action options)) ""
      || String.eqb (Action r) (TrimSpace (opt_Action options)))
  && keyword_filter options r
  && match opt_CreatedFrom options with Some f => f <=? CreatedAt r | None => true end
  && match opt_CreatedTo options with Some u => CreatedAt r <=? u | None => true end
  && (if negb (opt_IncludeAll options) || opt_Mine options
      then RequestedBy r =? opt_UserID options else true).

Definition newer (a b : ApprovalRequest) : Prop := CreatedAt b <= CreatedAt a.
#[global] Instance newer_dec : RelDecision newer.
Proof. intros a b. unfold newer. apply _. Defined.

(** The total and one page; the two queries see the table as it is then. *)
Definition List (now : time) (options : ListOptions)
    : M ApprovalTables (list ApprovalListItem * Z * Z * Z) :=
  let '(page, pageSize) := normalizePage (opt_Page options) (opt_PageSize options) in
  let* total := read (fun t => Z.of_nat (length (List.filter (list_filter now options) t))) in
  let* requests := read (fun t =>
    take (Z.to_nat pageSize) (drop (Z.to_nat ((page - 1) * pageSize))
      (merge_sort newer (List.filter (list_filter now options) t)))) in
  ret (map (fun r => buildApprovalListItem r (opt_Locale options) now) requests,
       total, page, pageSize).
End names.

(** ** Specification *)

(** What no operation changes after creation. *)
Definition intent (r : ApprovalRequest) : string * string * string * string * Z * time :=
  (ID r, Module r, Action r, PayloadSnapshot r, RequestedBy r, ExpiresAt r).

(** A recorded review names someone other than the requester. *)
Definition four_eyes (r : ApprovalRequest) : Prop :=
  (is_Some (ApprovedAt r) -> ApprovedBy r <> RequestedBy r) /\
  (is_Some (RejectedAt r) -> RejectedBy r <> RequestedBy r) /\
  (Status r = ApprovalStatusApproved -> is_Some (ApprovedAt r)) /\
  (Status r = ApprovalStatusRejected -> is_Some (RejectedAt r)).

Definition unique_ids (t : ApprovalTables) : Prop := NoDup (map ID t).

(** *** The system: stored requests and reviews between check and write

    Two reviewers may be between the two parts of [Approve] or [Reject] at the
    same time; every statement may fail. *)
Record system := mkSystem { stored : ApprovalTables; in_flight : list (string * Z) }.

(** The statuses with which the handlers record an execution. *)
Definition execution_statuses : list string :=
  [ApprovalStatusExecuting; ApprovalStatusCompleted; ApprovalStatusFailed; ApprovalStatusCanceled].

Inductive system_step : system -> system -> Prop :=
  | step_create uuid database searched now stamp input t fs fl r w' :
      CreateOrReusePending uuid database searched now stamp input (World t fs) = (r, w') ->
      system_step (mkSystem t fl) (mkSystem (tables w') fl)
  | step_check checked stamp id reviewer t fs fl request w' :
      review_checks checked stamp id reviewer (World t fs) = (Ok request, w') ->
      system_step (mkSystem t fl) (mkSystem (tables w') ((ID request, reviewer) :: fl))
  | step_refuse checked stamp id reviewer t fs fl e w' :
      review_checks checked stamp id reviewer (World t fs) = (Fail e, w') ->
      system_step (mkSystem t fl) (mkSystem (tables w') fl)
  | step_approve reviewed stamp id reviewer name comment t fs fl fl' r w' :
      fl ≡ₚ (id, reviewer) :: fl' ->
      approve_write reviewed stamp id reviewer name comment (World t fs) = (r, w') ->
      system_step (mkSystem t fl) (mkSystem (tables w') fl')
  | step_reject reviewed stamp id reviewer name comment t fs fl fl' r w' :
      fl ≡ₚ (id, reviewer) :: fl' ->
      reject_write reviewed stamp id reviewer name comment (World t fs) = (r, w') ->
      system_step (mkSystem t fl) (mkSystem (tables w') fl')
  | step_execution stamp id status taskType taskID encoded t fs fl r w' :
      In (TrimSpace status) execution_statuses ->
      UpdateExecutionResult stamp id status taskType taskID encoded (World t fs) = (r, w') ->
      system_step (mkSystem t fl) (mkSystem (tables w') fl)
  | step_bound stamp taskType taskID status encoded t fs fl r w' :
      In (TrimSpace status) execution_statuses ->
      UpdateBoundTaskResult stamp taskType taskID status encoded (World t fs) = (r, w') ->
      system_step (mkSystem t fl) (mkSystem (tables w') fl)
  | step_expire database now stamp t fs fl r w' :
      ExpirePending database now stamp (World t fs) = (r, w') ->
      system_step (mkSystem t fl) (mkSystem (tables w') fl).

Inductive reachable : system -> Prop :=
  | reachable_start : reachable (mkSystem [] [])
  | reachable_step s s' : reachable s -> system_step s s' -> reachable s'.

(** ** Updates *)

Lemma exec_update c f w r w' :
  exec (update_where c f) w = (r, w') ->
  tables w' = tables w \/
  (r = Ok (Z.of_nat (length (List.filter c (tables w)))) /\
   tables w' = map (fun r => if c r then f r else r) (tables w)).
Proof.
  unfold exec, statement. destruct (next_fault w) as [[s|] w1] eqn:E;
    apply next_fault_tables in E; [intros [= <- <-]; auto|].
  unfold update_where. intros [= <- <-]. right. by rewrite E.
Qed.

(** A conditional update preserves what [f] preserves. *)
Lemma Forall_update (P : ApprovalRequest -> Prop) c f (t : ApprovalTables) :
  Forall P t -> (forall r, In r t -> c r = true -> P r -> P (f r)) ->
  Forall P (map (fun r => if c r then f r else r) t).
Proof.
  intros Hp Hf. rewrite Forall_map_iff. rewrite Forall_forall in *. intros r Hr.
  destruct (c r) eqn:E; [|auto]. apply Hf; [by apply list_elem_of_In|done|auto].
Qed.

Lemma map_update {B} (g : ApprovalRequest -> B) (c : ApprovalRequest -> bool)
    (f : ApprovalRequest -> ApprovalRequest)
    (t : ApprovalTables) :
  (forall r, g (f r) = g r) -> map g (map (fun r => if c r then f r else r) t) = map g t.
Proof. intros Hg. rewrite map_map. apply map_ext. intros r. destruct (c r); auto. Qed.

(** *** Every operation appends a fresh request or updates rows *)
Inductive effect (t : ApprovalTables) : ApprovalTables -> Prop :=
  | effect_none : effect t t
  | effect_insert r : existsb (has_id (ID r)) t = false -> Status r = ApprovalStatusPending ->
      ApprovedAt r = None -> RejectedAt r = None -> effect t (t ++ [r])
  | effect_status (c : ApprovalRequest -> bool) status stamp :
      ~ In status [ApprovalStatusApproved; ApprovalStatusRejected] ->
      effect t (map (fun r : ApprovalRequest => if c r then with_status r status stamp else r) t)
  | effect_execution (c : ApprovalRequest -> bool) status ft fi payload stamp :
      ~ In status [ApprovalStatusApproved; ApprovalStatusRejected] ->
      effect t (map (fun r : ApprovalRequest =>
        if c r then with_execution r status (ft r) (fi r) payload stamp else r) t)
  | effect_approve id by' name comment at' stamp :
      (forall r, In r t -> ID r = id -> RequestedBy r <> by') ->
      effect t (map (fun r => if has_id id r then with_approval r by' name comment at' stamp else r) t)
  | effect_reject id by' name comment at' stamp :
      (forall r, In r t -> ID r = id -> RequestedBy r <> by') ->
      effect t (map (fun r => if has_id id r then with_rejection r by' name comment at' stamp else r) t).

Lemma create_effect uuid now stamp input payload w r w' :
  create uuid now stamp input payload w = (r, w') -> effect (tables w) (tables w').
Proof.
  unfold create, bind, exec, statement. destruct (next_fault w) as [[s|] w1] eqn:E;
    apply next_fault_tables in E; [intros [= <- <-]; rewrite E; constructor|].
  unfold insert_request. rewrite E. destruct (existsb _ _) eqn:Ex; intros [= <- <-].
  - rewrite E. constructor.
  - by apply effect_insert.
Qed.

Lemma CreateOrReusePending_effect uuid database searched now stamp input w r w' :
  CreateOrReusePending uuid database searched now stamp input w = (r, w') ->
  effect (tables w) (tables w').
Proof.
  unfold CreateOrReusePending. destruct (negb database); [intros [= <- <-]; constructor|].
  destruct (in_Payload input) as [payload|]; [|intros [= <- <-]; constructor].
  unfold bind at 1, attempt. match goal with |- context [first ?f w] => destruct (first f w) as [r1 w1] eqn:E end. apply first_tables in E.
  rewrite <- E. destruct r1 as [existing|err]; [intros [= <- <-]; constructor|].
  destruct (negb _); [intros [= <- <-]; constructor|]. unfold bind.
  destruct (create _ _ _ _ _ w1) as [[q|e] w2] eqn:Ec; intros [= <- <-]; by eapply create_effect.
Qed.

Lemma review_checks_effect checked stamp id reviewer w r w' :
  review_checks checked stamp id reviewer w = (r, w') ->
  effect (tables w) (tables w') /\
  forall request, r = Ok request -> tables w' = tables w /\
    In request (tables w) /\ has_id (TrimSpace id) request = true /\
    RequestedBy request <> reviewer /\ Status request = ApprovalStatusPending /\
    (ExpiresAt request = 0 \/ checked <= ExpiresAt request).
Proof.
  unfold review_checks, bind at 1, Get.
  match goal with |- context [first ?f w] => destruct (first f w) as [[q|e] w1] eqn:E end.
  2: { intros [= <- <-]. apply first_tables in E. rewrite E. split; [constructor|done]. }
  apply first_Ok in E as [Hq Ht]. apply find_some in Hq as [Hin Hid].
  destruct (Z.eqb_spec (RequestedBy q) reviewer) as [Hr|Hr];
    [intros [= <- <-]; rewrite Ht; split; [constructor|done]|].
  destruct (String.eqb (Status q) ApprovalStatusExpired);
    [intros [= <- <-]; rewrite Ht; split; [constructor|done]|].
  destruct (String.eqb_spec (Status q) ApprovalStatusPending) as [Hs|Hs]; cbn [negb];
    [|intros [= <- <-]; rewrite Ht; split; [constructor|done]].
  destruct (negb (IsZero (ExpiresAt q)) && After checked (ExpiresAt q)) eqn:Ee.
  - unfold bind. match goal with |- context [exec ?f w1] => destruct (exec f w1) as [r2 w2] eqn:Eu end.
    intros Heq. assert (w2 = w' /\ exists e, r = Fail e) as [-> [e ->]]
      by (destruct r2; injection Heq as <- <-; eauto).
    split; [|done]. apply exec_update in Eu as [->|[_ ->]]; rewrite Ht; [constructor|].
    apply effect_status. intros [H|[H|[]]]; discriminate H.
  - intros [= <- <-]. rewrite Ht. split; [constructor|]. intros request [= <-].
    split_and!; try done. unfold IsZero, After in Ee.
    destruct (Z.eqb_spec (ExpiresAt q) 0); [by left|right]. cbn in Ee. by apply Z.ltb_ge in Ee.
Qed.

Lemma approve_write_effect reviewed stamp id reviewer name comment w r w' :
  approve_write reviewed stamp id reviewer name comment w = (r, w') ->
  tables w' = tables w \/ tables w' = map (fun r => if has_id id r
    then with_approval r reviewer (TrimSpace name) (TrimSpace comment) reviewed stamp else r) (tables w).
Proof.
  unfold approve_write, bind. match goal with |- context [exec ?f w] => destruct (exec f w) as [r1 w1] eqn:E end.
  intros Hrun.
  assert (tables w' = tables w1) as ->.
  { destruct r1; [unfold Get in Hrun; by apply first_tables in Hrun|by injection Hrun as <- <-]. }
  apply exec_update in E as [->|[_ ->]]; auto.
Qed.

Lemma reject_write_effect reviewed stamp id reviewer name comment w r w' :
  reject_write reviewed stamp id reviewer name comment w = (r, w') ->
  tables w' = tables w \/ tables w' = map (fun r => if has_id id r
    then with_rejection r reviewer (TrimSpace name) (TrimSpace comment) reviewed stamp else r) (tables w).
Proof.
  unfold reject_write, bind. match goal with |- context [exec ?f w] => destruct (exec f w) as [r1 w1] eqn:E end.
  intros Hrun.
  assert (tables w' = tables w1) as ->.
  { destruct r1; [unfold Get in Hrun; by apply first_tables in Hrun|by injection Hrun as <- <-]. }
  apply exec_update in E as [->|[_ ->]]; auto.
Qed.

Lemma execution_status_ok status :
  In status execution_statuses -> ~ In status [ApprovalStatusApproved; ApprovalStatusRejected].
Proof.
  intros [<-|[<-|[<-|[<-|[]]]]] [H|[H|[]]]; discriminate H.
Qed.

(** ** The invariant *)

Definition flights_ok (s : system) : Prop :=
  forall id reviewer, In (id, reviewer) (in_flight s) ->
    exists r, In r (stored s) /\ ID r = id /\ RequestedBy r <> reviewer.

Definition system_ok (s : system) : Prop :=
  unique_ids (stored s) /\ Forall four_eyes (stored s) /\ flights_ok s.

Lemma effect_intents t t' :
  effect t t' -> exists fresh, map intent t' = map intent t ++ fresh.
Proof.
  intros [|r _ _ _ _|c st sp _|c st ft fi p sp _|id b n cm a sp Hb|id b n cm a sp Hb].
  - exists []. by rewrite app_nil_r.
  - exists [intent r]. by rewrite map_app.
  - exists []. rewrite app_nil_r. by apply (map_update intent c (fun r => with_status r st sp)).
  - exists []. rewrite app_nil_r.
    by apply (map_update intent c (fun r => with_execution r st (ft r) (fi r) p sp)).
  - exists []. rewrite app_nil_r.
    by apply (map_update intent (has_id id) (fun r => with_approval r b n cm a sp)).
  - exists []. rewrite app_nil_r.
    by apply (map_update intent (has_id id) (fun r => with_rejection r b n cm a sp)).
Qed.

Lemma effect_unique t t' : effect t t' -> unique_ids t -> unique_ids t'.
Proof.
  unfold unique_ids. intros He Hu. destruct He as [|r Hnew _ _ _|c st sp _|c st ft fi p sp _|id b n cm a sp Hb|id b n cm a sp Hb].
  - done.
  - rewrite map_app. apply NoDup_app. split_and!; [done| |apply NoDup_singleton].
    intros x Hx ->%list_elem_of_singleton. apply list_elem_of_In, in_map_iff in Hx as (q & Hq & Hin).
    apply existsb_false_Forall in Hnew. rewrite Forall_forall in Hnew.
    apply list_elem_of_In, Hnew in Hin. unfold has_id in Hin. rewrite Hq, String.eqb_refl in Hin. done.
  - by rewrite (map_update ID c (fun r => with_status r st sp)).
  - by rewrite (map_update ID c (fun r => with_execution r st (ft r) (fi r) p sp)).
  - by rewrite (map_update ID (has_id id) (fun r => with_approval r b n cm a sp)).
  - by rewrite (map_update ID (has_id id) (fun r => with_rejection r b n cm a sp)).
Qed.

Lemma effect_flights t t' fl fl' :
  effect t t' -> incl fl' fl -> flights_ok (mkSystem t fl) -> flights_ok (mkSystem t' fl').
Proof.
  intros He Hincl Hok id reviewer Hin. apply Hincl in Hin. destruct (Hok _ _ Hin) as (r & Hr & Hid & Hne).
  apply effect_intents in He as [fresh He]. cbn [stored] in *.
  assert (Hi : In (intent r) (map intent t')) by (rewrite He; apply in_or_app; left; by apply in_map).
  apply in_map_iff in Hi as (q & Hq & Hin'). injection Hq as Hqid _ _ _ Hqby _.
  exists q. split_and!; [done|congruence|congruence].
Qed.

Lemma four_eyes_status r status stamp :
  ~ In status [ApprovalStatusApproved; ApprovalStatusRejected] ->
  four_eyes r -> four_eyes (with_status r status stamp).
Proof.
  intros Hs (? & ? & _ & _). split_and!; try done; cbn; intros ->; exfalso; apply Hs; cbn; auto.
Qed.

Lemma four_eyes_execution r status ty tid p stamp :
  ~ In status [ApprovalStatusApproved; ApprovalStatusRejected] ->
  four_eyes r -> four_eyes (with_execution r status ty tid p stamp).
Proof.
  intros Hs (? & ? & _ & _). split_and!; try done; cbn; intros ->; exfalso; apply Hs; cbn; auto.
Qed.

Lemma effect_four_eyes t t' : effect t t' -> Forall four_eyes t -> Forall four_eyes t'.
Proof.
  intros He Hok. destruct He as [|r _ Hs Ha Hr|c st sp Hn|c st ft fi p sp Hn|id b n cm a sp Hb|id b n cm a sp Hb].
  - done.
  - apply Forall_app. split; [done|]. constructor; [|constructor].
    unfold four_eyes. rewrite Hs, Ha, Hr. split_and!; first [by intros [? ?] | discriminate].
  - apply (Forall_update _ c (fun r => with_status r st sp)); [done|].
    intros r _ _. by apply four_eyes_status.
  - apply (Forall_update _ c (fun r => with_execution r st (ft r) (fi r) p sp)); [done|].
    intros r _ _. by apply four_eyes_execution.
  - apply (Forall_update _ (has_id id) (fun r => with_approval r b n cm a sp)); [done|].
    intros r Hin Hid%String.eqb_eq (_ & Hrej & _ & _).
    pose proof (Hb r Hin Hid).
    split_and!; cbn; [done|done|by eexists|discriminate].
  - apply (Forall_update _ (has_id id) (fun r => with_rejection r b n cm a sp)); [done|].
    intros r Hin Hid%String.eqb_eq (Happ & _ & _ & _).
    pose proof (Hb r Hin Hid).
    split_and!; cbn; [done|done|discriminate|by eexists].
Qed.

Lemma flight_reviewer t fl id reviewer :
  system_ok (mkSystem t fl) -> In (id, reviewer) fl ->
  forall r, In r t -> ID r = id -> RequestedBy r <> reviewer.
Proof.
  intros (Hu & _ & Hfl) Hin r Hr Hid. destruct (Hfl _ _ Hin) as (q & Hq & Hqid & Hne).
  cbn in *. replace r with q; [done|]. unfold unique_ids in Hu. clear -Hu Hr Hq Hid Hqid.
  induction t as [|x t IH]; [done|]. cbn in Hu. apply NoDup_cons in Hu as [Hx Hu].
  destruct Hr as [<-|Hr], Hq as [<-|Hq]; [done| | |auto]; exfalso; apply Hx, list_elem_of_In.
  - rewrite Hid, <- Hqid. by apply in_map.
  - rewrite Hqid, <- Hid. by apply in_map.
Qed.

Lemma execution_effect stamp id status ty tid encoded w r w' :
  In (TrimSpace status) execution_statuses ->
  UpdateExecutionResult stamp id status ty tid encoded w = (r, w') -> effect (tables w) (tables w').
Proof.
  intros Hs. unfold UpdateExecutionResult, bind.
  destruct encoded as [[text|err]|]; [|intros [= <- <-]; constructor|];
    match goal with |- context [exec ?f w] => destruct (exec f w) as [r1 w1] eqn:E end;
    intros Hrun; assert (w1 = w') as -> by (by destruct r1; injection Hrun);
    (apply exec_update in E as [->|[_ ->]]; [constructor|]);
    apply (effect_execution _ _ _ (fun _ => TrimSpace ty) (fun _ => TrimSpace tid));
    by apply execution_status_ok.
Qed.

Lemma bound_effect stamp ty tid status encoded w r w' :
  In (TrimSpace status) execution_statuses ->
  UpdateBoundTaskResult stamp ty tid status encoded w = (r, w') -> effect (tables w) (tables w').
Proof.
  intros Hs. unfold UpdateBoundTaskResult, bind.
  destruct encoded as [[text|err]|]; [|intros [= <- <-]; constructor|];
    match goal with |- context [exec ?f w] => destruct (exec f w) as [r1 w1] eqn:E end;
    intros Hrun; assert (w1 = w') as -> by (by destruct r1; injection Hrun);
    (apply exec_update in E as [->|[_ ->]]; [constructor|]);
    apply (effect_execution _ _ _ BoundTaskType BoundTaskID); by apply execution_status_ok.
Qed.

Lemma expire_effect database now stamp w r w' :
  ExpirePending database now stamp w = (r, w') -> effect (tables w) (tables w').
Proof.
  unfold ExpirePending. destruct (negb database); [intros [= <- <-]; constructor|].
  intros [->|[_ ->]]%exec_update; [constructor|]. apply effect_status. intros [H|[H|[]]]; discriminate H.
Qed.

(** Every step has an effect, and shrinks or justifies the reviews in flight. *)
Lemma step_effect s s' :
  system_step s s' -> system_ok s ->
  effect (stored s) (stored s') /\
  (incl (in_flight s') (in_flight s) \/
   exists request reviewer, in_flight s' = (ID request, reviewer) :: in_flight s /\
     In request (stored s') /\ RequestedBy request <> reviewer).
Proof.
  intros Hstep Hok. destruct Hstep as [uuid db sr nw st inp t fs fl r w' Hrun
    |ck st id rv t fs fl q w' Hrun|ck st id rv t fs fl e w' Hrun
    |rd st id rv nm cm t fs fl fl' r w' Hfl Hrun|rd st id rv nm cm t fs fl fl' r w' Hfl Hrun
    |st id stt ty tid en t fs fl r w' Hs Hrun|st ty tid stt en t fs fl r w' Hs Hrun
    |db nw st t fs fl r w' Hrun]; cbn [stored in_flight].
  - split; [|left; apply incl_refl]. by apply CreateOrReusePending_effect in Hrun.
  - apply review_checks_effect in Hrun as [He Hq]. split; [done|right].
    destruct (Hq q eq_refl) as (Ht & Hin & _ & Hne & _). exists q, rv. by rewrite Ht.
  - split; [|left; apply incl_refl]. by apply review_checks_effect in Hrun as [He _].
  - assert (Hin : In (id, rv) fl) by (rewrite Hfl; by left).
    split; [|left; intros x Hx; rewrite Hfl; by right].
    apply approve_write_effect in Hrun as [->| ->]; [constructor|]. apply effect_approve.
    by eapply flight_reviewer.
  - assert (Hin : In (id, rv) fl) by (rewrite Hfl; by left).
    split; [|left; intros x Hx; rewrite Hfl; by right].
    apply reject_write_effect in Hrun as [->| ->]; [constructor|]. apply effect_reject.
    by eapply flight_reviewer.
  - split; [|left; apply incl_refl]. by apply execution_effect in Hrun.
  - split; [|left; apply incl_refl]. by apply bound_effect in Hrun.
  - split; [|left; apply incl_refl]. by apply expire_effect in Hrun.
Qed.

Lemma reachable_ok s : reachable s -> system_ok s.
Proof.
  induction 1 as [|s s' _ IH Hstep].
  { split; [constructor|]. split; [constructor|]. by intros ? ? []. }
  destruct (step_effect _ _ Hstep IH) as [He Hfl]. destruct IH as (Hu & H4 & Hf).
  destruct s as [t fl], s' as [t' fl']. cbn [stored in_flight] in *. split_and!.
  - by eapply effect_unique.
  - by eapply effect_four_eyes.
  - destruct Hfl as [Hincl|(q & rv & -> & Hin & Hne)]; [by eapply effect_flights|].
    intros id reviewer [[= <- <-]|Hx]; [by exists q|].
    apply (effect_flights t t' fl fl He (incl_refl _) Hf id reviewer Hx).
Qed.

(** ** Properties of approvals *)

(** C32: four eyes. However reviews, executions and expiry interleave (two
    reviewers may both be past the checks) and whatever statements fail, every
    stored request keeps its creator, action, payload and expiry, ids stay
    unique, and an approved or rejected request names a reviewer who is not
    its requester. *)
Theorem reviews_need_another_account s s'
  (Hs : reachable s) (Hstep : system_step s s') :
  unique_ids (stored s') /\ Forall four_eyes (stored s') /\
  exists fresh, map intent (stored s') = map intent (stored s) ++ fresh.
Proof.
  pose proof (reachable_ok _ Hs) as Hok.
  assert (Hok' := reachable_ok _ (reachable_step _ _ Hs Hstep)).
  destruct Hok' as (? & ? & _). split_and!; [done|done|].
  by apply effect_intents, (step_effect _ _ Hstep Hok).
Qed.

Definition demo_create : CreateInput :=
  mkCreateInput "website" "website.delete" "7" "blog" "" "cleanup" (Ok "{}") 1 "alice" 0.

Definition demo_approval : ApprovalRequest := new_request "a1" 100 100 demo_create "{}".

Definition demo_stored : system := mkSystem [demo_approval] [].

Lemma demo_stored_reachable : reachable demo_stored.
Proof.
  eapply reachable_step; [apply reachable_start|].
  apply (step_create "a1" true 100 100 100 demo_create [] [] [] (Ok (demo_approval, false))
    (World [demo_approval] [])). vm_compute. reflexivity.
Qed.

Lemma reviews_need_another_account_witness :
  unique_ids [demo_approval] /\ Forall four_eyes [demo_approval].
Proof.
  destruct (reviews_need_another_account demo_stored (mkSystem [demo_approval] [("apr_a1", 2)])
    demo_stored_reachable) as (Hu & Hf & _).
  - apply (step_check 200 200 " apr_a1" 2 [demo_approval] [] [] demo_approval (World [demo_approval] [])).
    vm_compute. reflexivity.
  - split; [exact Hu|exact Hf].
Defined.

Lemma find_update id f (t : ApprovalTables) :
  (forall r, ID (f r) = ID r) ->
  List.find (has_id id) (map (fun r => if has_id id r then f r else r) t) =
  option_map f (List.find (has_id id) t).
Proof.
  intros Hf. induction t as [|r t IH]; [done|]. cbn. destruct (has_id id r) eqn:E.
  - assert (E' : has_id id (f r) = true) by (unfold has_id in *; by rewrite Hf).
    by rewrite E'.
  - by rewrite E.
Qed.

(** C40: what a review does. Without faults, approving answers exactly one of:
    unknown id, own request, expired, not pending, overdue (and the row is
    then marked expired), or it records the review on that row alone and
    returns it. *)
Theorem Approve_outcome checked reviewed stamp id approver name comment t
  (Hid : valid_utf8 id = true) :
  let key := TrimSpace id in
  let run := Approve checked reviewed stamp id approver name comment (World t []) in
  match List.find (has_id key) t with
  | None => run = (Fail (Sentinel ErrRecordNotFound), World t [])
  | Some r =>
      if RequestedBy r =? approver then run = (Fail (Sentinel ErrRequesterCannotReview), World t [])
      else if String.eqb (Status r) ApprovalStatusExpired then
        run = (Fail (Sentinel ErrApprovalExpired), World t [])
      else if negb (String.eqb (Status r) ApprovalStatusPending) then
        run = (Fail (Sentinel ErrApprovalNotPending), World t [])
      else if negb (ExpiresAt r =? 0) && (ExpiresAt r <? checked) then
        run = (Fail (Sentinel ErrApprovalExpired),
               World (map (fun r => if has_id key r
                                    then with_status r ApprovalStatusExpired stamp else r) t) [])
      else
        let review r := with_approval r approver (TrimSpace name) (TrimSpace comment) reviewed stamp in
        run = (Ok (review r), World (map (fun r => if has_id key r then review r else r) t) [])
  end.
Proof.
  intros key run. unfold run, Approve, review_checks, approve_write, Get. fold key. run_clean.
  destruct (List.find (has_id key) t) as [r|] eqn:Ef; [|done].
  assert (Hr : ID r = key) by (apply find_some in Ef as [_ Ef]; by apply String.eqb_eq in Ef).
  destruct (RequestedBy r =? approver); [done|].
  destruct (String.eqb (Status r) ApprovalStatusExpired); [done|].
  destruct (String.eqb (Status r) ApprovalStatusPending); cbn [negb]; [|done].
  unfold IsZero, After. destruct (_ && _); run_clean; unfold update_where; cbv beta iota;
    rewrite Hr; [done|]. run_clean.
  assert (Hk : TrimSpace key = key) by apply TrimSpace_idemp. rewrite Hk.
  rewrite (find_update key (fun r => with_approval r approver (TrimSpace name) (TrimSpace comment)
    reviewed stamp)) by done.
  by rewrite Ef.
Qed.

Lemma Approve_outcome_witness :
  Approve 200 201 202 " apr_a1 " 2 "bob" "ok" (World [demo_approval] []) =
    (Ok (with_approval demo_approval 2 "bob" "ok" 201 202),
     World [with_approval demo_approval 2 "bob" "ok" 201 202] []).
Proof.
  exact (Approve_outcome 200 201 202 " apr_a1 " 2 "bob" "ok" [demo_approval] eq_refl).
Defined.

(** The review is not a compare-and-swap. The update of [Approve] and
    [Reject] tests the id only, so that two reviewers who both pass the checks
    both succeed: a request can be recorded as approved (and handed over for
    execution) and afterwards as rejected. *)
Theorem review_race :
  exists s r, reachable s /\ In r (stored s) /\ Status r = ApprovalStatusRejected /\
    is_Some (ApprovedAt r) /\ is_Some (RejectedAt r) /\ ApprovedBy r <> RejectedBy r.
Proof.
  set (approved := with_approval demo_approval 2 "bob" "" 201 202).
  exists (mkSystem [with_rejection approved 3 "eve" "" 203 204] []), (with_rejection approved 3 "eve" "" 203 204).
  split; [|split; [by left|split; [done|split; [by eexists|split; [by eexists|discriminate]]]]].
  apply reachable_step with (mkSystem [approved] [("apr_a1", 3)]).
  2: { apply (step_reject 203 204 "apr_a1" 3 "eve" "" [approved] [] [("apr_a1", 3)] []
         (Ok (with_rejection approved 3 "eve" "" 203 204))
         (World [with_rejection approved 3 "eve" "" 203 204] [])); [done|].
       vm_compute. reflexivity. }
  apply reachable_step with (mkSystem [demo_approval] [("apr_a1", 3); ("apr_a1", 2)]).
  2: { apply (step_approve 201 202 "apr_a1" 2 "bob" "" [demo_approval] [] [("apr_a1", 3); ("apr_a1", 2)]
         [("apr_a1", 3)] (Ok approved) (World [approved] [])); [apply Permutation_swap|].
       vm_compute. reflexivity. }
  apply reachable_step with (mkSystem [demo_approval] [("apr_a1", 2)]).
  2: { apply (step_check 200 200 "apr_a1" 3 [demo_approval] [] [("apr_a1", 2)] demo_approval
         (World [demo_approval] [])). vm_compute. reflexivity. }
  apply reachable_step with demo_stored; [apply demo_stored_reachable|].
  apply (step_check 200 200 "apr_a1" 2 [demo_approval] [] [] demo_approval
    (World [demo_approval] [])). vm_compute. reflexivity.
Qed.

(** Expiry. The sweep stores, for every request, exactly the status that
    [EffectiveStatus] already showed, reports how many rows it changed, leaves
    everything else alone, and does not change what is shown at any later
    time; a request is shown as expired from its expiry instant on. *)
Theorem ExpirePending_agrees now stamp t (Hexp : Forall (fun r => ExpiresAt r <> 0) t) :
  exists t', ExpirePending true now stamp (World t []) =
      (Ok (Z.of_nat (length (List.filter (overdue now) t))), World t' []) /\
    map Status t' = map (fun r => EffectiveStatus (Some r) now) t /\
    map intent t' = map intent t /\
    forall later, now <= later ->
      map (fun r => EffectiveStatus (Some r) later) t' = map (fun r => EffectiveStatus (Some r) later) t.
Proof.
  eexists. split; [reflexivity|]. split_and!.
  - rewrite map_map. apply map_ext_in. intros r Hr. rewrite Forall_forall in Hexp.
    apply list_elem_of_In, Hexp, Z.eqb_neq in Hr.
    unfold EffectiveStatus, overdue, IsZero, After. rewrite Hr, <- Z.leb_antisym. cbn [negb andb].
    by destruct (String.eqb (Status r) ApprovalStatusPending), (ExpiresAt r <=? now).
  - by apply (map_update intent (overdue now) (fun r => with_status r ApprovalStatusExpired stamp)).
  - intros later Hl. rewrite map_map. apply map_ext_in. intros r Hr. rewrite Forall_forall in Hexp.
    apply list_elem_of_In, Hexp, Z.eqb_neq in Hr. destruct (overdue now r) eqn:Eo; [|done].
    apply andb_true_iff in Eo as [Ep Ee]. apply Z.leb_le in Ee.
    unfold EffectiveStatus, IsZero, After. rewrite Hr, Ep. cbn [Status ExpiresAt with_status].
    rewrite (proj2 (Z.ltb_ge _ _)) by lia. done.
Qed.

Lemma ExpirePending_agrees_witness :
  exists t', ExpirePending true (100 + 24 * Hour) 5 (World [demo_approval] []) = (Ok 1, World t' []) /\
    map Status t' = [ApprovalStatusExpired].
Proof.
  destruct (ExpirePending_agrees (100 + 24 * Hour) 5 [demo_approval]) as (t' & Hrun & Hs & _).
  - constructor; [vm_compute; discriminate|constructor].
  - exists t'. split; [exact Hrun|exact Hs].
Defined.

(** At the very instant of expiry the request is shown as expired, and can
    still be approved. *)
Lemma expiry_boundary :
  let t := [demo_approval] in
  let now := ExpiresAt demo_approval in
  EffectiveStatus (Some demo_approval) now = ApprovalStatusExpired /\
  exists r, (Approve now now now "apr_a1" 2 "bob" "" (World t [])).1 = Ok r /\
    Status r = ApprovalStatusApproved.
Proof. split; [reflexivity|]. eexists. split; [vm_compute; reflexivity|reflexivity]. Qed.

(** The approval is committed before the row is read back: when that reading
    fails, the reviewer sees an error, nothing is executed, and a second
    attempt is refused because the request is no longer pending. *)
Lemma approved_but_reported_as_failed :
  let '(r, w) := Approve 200 201 202 "apr_a1" 2 "bob" ""
    (World [demo_approval] [None; None; Some "disk I/O error"]) in
  r = Fail (ErrorString "disk I/O error") /\ map Status (tables w) = [ApprovalStatusApproved] /\
  (Approve 300 301 302 "apr_a1" 2 "bob" "" w).1 = Fail (Sentinel ErrApprovalNotPending).
Proof. vm_compute. split_and!; reflexivity. Qed.
