(* ===== verification/Credential.v ===== *)
(** Encrypted credentials ([utils/credential.go]): the envelope
    [enc:v1:base64url(nonce ++ ciphertext)], the keys derived per purpose, and
    the executable codec [base64.RawURLEncoding].

    AES-256-GCM is the interface [AEAD]; the nonce is the random value that
    the code draws. *)

From S2P Require Import Prelude GoStrings GoText GoCrypto.
From stdpp Require Import options.
#[local] Open Scope Z_scope.

(** ** base64, URL alphabet without padding *)

Definition b64_char (v : Z) : ascii :=
  of_byte (if v <? 26 then 65 + v else if v <? 52 then 71 + v else if v <? 62 then v - 4
           else if v =? 62 then 45 else 95).

Definition b64_value (c : ascii) : option Z :=
  let b := byte_of c in
  if (65 <=? b) && (b <=? 90) then Some (b - 65)
  else if (97 <=? b) && (b <=? 122) then Some (b - 71)
  else if (48 <=? b) && (b <=? 57) then Some (b + 4)
  else if b =? 45 then Some 62 else if b =? 95 then Some 63 else None.

Fixpoint b64_encode (l : list Z) : list Z :=
  match l with
  | [] => []
  | [a] => [a / 4; a mod 4 * 16]
  | [a; b] => [a / 4; a mod 4 * 16 + b / 16; b mod 16 * 4]
  | a :: b :: c :: l =>
      a / 4 :: a mod 4 * 16 + b / 16 :: b mod 16 * 4 + c / 64 :: c mod 64 :: b64_encode l
  end.

(** Trailing bits of an incomplete group are dropped; one value alone is an error. *)
Fixpoint b64_groups (vs : list Z) : option (list Z) :=
  match vs with
  | [] => Some []
  | [_] => None
  | [a; b] => Some [a * 4 + b / 16]
  | [a; b; c] => Some [a * 4 + b / 16; u8 (b * 16) + c / 4]
  | a :: b :: c :: d :: vs =>
      l ← b64_groups vs; Some (a * 4 + b / 16 :: u8 (b * 16) + c / 4 :: u8 (c * 64) + d :: l)
  end.

Definition base64url_encode (l : list Z) : string :=
  String.string_of_list_ascii (map b64_char (b64_encode l)).

Definition base64url_decode (s : string) : option (list Z) :=
  vs ← mapM b64_value (List.filter not_newline (String.list_ascii_of_string s)); b64_groups vs.

(** ** The cipher *)

Class AEAD := {
  NonceSize : nat;
  Overhead : nat;
  Seal : list Z -> list Z -> list Z -> list Z -> list Z;  (* key, nonce, plaintext, data *)
  Open : list Z -> list Z -> list Z -> list Z -> option (list Z);
  Seal_bytes key nonce plain data : Forall is_byte plain -> Forall is_byte (Seal key nonce plain data);
  Seal_length key nonce plain data :
    List.length (Seal key nonce plain data) = (List.length plain + Overhead)%nat;
  Open_Seal key nonce plain data :
    List.length nonce = NonceSize -> Open key nonce (Seal key nonce plain data) data = Some plain
}.

Definition encryptedCredentialPrefix : string := "enc:v1:".
Definition ErrCredentialNotEncrypted : string := "credential is not encrypted".
Definition CredentialPurposeTOTPSecret : string := "security.totp.secret".
Definition CredentialPurposeTOTPPending : string := "security.totp.pending".
Definition CredentialPurposeRecoveryCode : string := "security.recovery-code".

(** The installed key, if any: [credentialCipher] and [credentialKey]. *)
Definition CredentialKey : Type := option (list Z).

Definition ConfigureCredentialKey (key : list Z) (installed : CredentialKey) : result CredentialKey :=
  if negb (List.length key =? 32)%nat then
    Fail (ErrorString "credential key must contain exactly 32 bytes")
  else Ok (Some key).

Definition CredentialCipherReady (key : CredentialKey) : bool :=
  match key with Some _ => true | None => false end.

Definition DeriveCredentialSubkey (key : CredentialKey) (purpose : string) : result (list Z) :=
  let purpose := TrimSpace purpose in
  if String.eqb purpose "" then Fail (ErrorString "credential subkey purpose cannot be empty")
  else match key with
       | Some key =>
           if negb (List.length key =? 32)%nat
           then Fail (ErrorString "credential encryption key is not configured")
           else Ok (hmac_sha256 key (bytes_of ("oneinstack:credential-subkey:v1:" +:+ purpose)))
       | None => Fail (ErrorString "credential encryption key is not configured")
       end.

Definition IsEncryptedCredential (value : string) : bool := HasPrefix value encryptedCredentialPrefix.

Definition TrimPrefix (s p : string) : string :=
  if HasPrefix s p then String.substring (String.length p) (String.length s - String.length p) s
  else s.

Section credential.
Context `{!AEAD}.

(** [nonce] is the outcome of [io.ReadFull(rand.Reader, nonce)]. *)
Definition EncryptCredential (key : CredentialKey) (nonce : result (list Z)) (value purpose : string)
    : result string :=
  if String.eqb value "" then Ok ""
  else match key with
       | None => Fail (ErrorString "credential encryption key is not configured")
       | Some key =>
           match nonce with
           | Fail err => Fail (Wrap "generate credential nonce: " err "")
           | Ok nonce =>
               let ciphertext := Seal key nonce (bytes_of value) (bytes_of purpose) in
               Ok (encryptedCredentialPrefix +:+ base64url_encode (nonce ++ ciphertext))
           end
       end.

Definition DecryptCredential (key : CredentialKey) (value purpose : string) : result string :=
  if String.eqb value "" then Ok ""
  else if negb (IsEncryptedCredential value) then Fail (Sentinel ErrCredentialNotEncrypted)
  else match key with
       | None => Fail (ErrorString "credential encryption key is not configured")
       | Some key =>
           match base64url_decode (TrimPrefix value encryptedCredentialPrefix) with
           | None => Fail (Wrap "decode encrypted credential: "
                             (ErrorString "illegal base64 data") "")
           | Some payload =>
               if (List.length payload <? NonceSize + Overhead)%nat
               then Fail (ErrorString "encrypted credential payload is truncated")
               else match Open key (take NonceSize payload) (drop NonceSize payload)
                            (bytes_of purpose) with
                    | None => Fail (ErrorString "decrypt credential: authentication failed")
                    | Some plaintext => Ok (string_of_bytes plaintext)
                    end
           end
       end.
End credential.

(** ** The codec *)

#[local] Ltac Zify.zify_post_hook ::= Z.to_euclidean_division_equations.

Lemma b64_groups_encode l : Forall is_byte l -> b64_groups (b64_encode l) = Some l.
Proof.
  induction l as [|a|a b|a b c l IH] using list_ind3; intros Hl; [done| | |];
    repeat match goal with Hf : Forall _ (_ :: _) |- _ => apply Forall_cons in Hf as [? Hf] end;
    unfold is_byte in *; cbn [b64_encode b64_groups].
  - do 2 f_equal. lia.
  - do 2 f_equal; [lia|]. f_equal. unfold u8. change (2 ^ 8) with 256. lia.
  - rewrite IH by done. cbn. unfold u8. change (2 ^ 8) with 256.
    do 2 f_equal; [lia|]. f_equal; [lia|]. f_equal. lia.
Qed.

Lemma b64_encode_range l : Forall is_byte l -> Forall (fun v => 0 <= v < 64) (b64_encode l).
Proof.
  induction l as [|a|a b|a b c l IH] using list_ind3; intros Hl; [constructor| | |];
    repeat match goal with Hf : Forall _ (_ :: _) |- _ => apply Forall_cons in Hf as [? Hf] end;
    unfold is_byte in *; cbn [b64_encode]; repeat constructor; try lia. auto.
Qed.

Lemma b64_char_value v :
  0 <= v < 64 -> b64_value (b64_char v) = Some v /\ not_newline (b64_char v) = true.
Proof.
  intros Hv. assert (Hall : forallb (fun n => let v := Z.of_nat n in
    bool_decide (b64_value (b64_char v) = Some v) && not_newline (b64_char v)) (seq 0 64) = true)
    by (vm_compute; reflexivity).
  rewrite forallb_forall in Hall. specialize (Hall (Z.to_nat v)).
  rewrite Z2Nat.id in Hall by lia. cbn zeta in Hall.
  rewrite andb_true_iff, bool_decide_eq_true in Hall. apply Hall. apply in_seq. lia.
Qed.

Lemma b64_chars_value vs :
  Forall (fun v => 0 <= v < 64) vs ->
  mapM b64_value (List.filter not_newline (map b64_char vs)) = Some vs.
Proof.
  induction 1 as [|v vs Hv _ IH]; [done|]. cbn [map List.filter].
  destruct (b64_char_value v Hv) as [E1 E2]. rewrite E2. cbn. rewrite E1. cbn. by rewrite IH.
Qed.

Lemma base64url_roundtrip l : Forall is_byte l -> base64url_decode (base64url_encode l) = Some l.
Proof.
  intros Hl. unfold base64url_decode, base64url_encode.
  rewrite list_ascii_of_string_of_list_ascii, b64_chars_value by (by apply b64_encode_range).
  cbn. by apply b64_groups_encode.
Qed.

Lemma HasPrefix_app p s : HasPrefix (p +:+ s) p = true.
Proof.
  unfold HasPrefix. induction p as [|c p IH]; cbn; [by destruct s|].
  by destruct (ascii_dec c c).
Qed.

Lemma substring_whole s : String.substring 0 (String.length s) s = s.
Proof. induction s as [|c s IH]; cbn; [done|]. by rewrite IH. Qed.

Lemma TrimPrefix_app p s : TrimPrefix (p +:+ s) p = s.
Proof.
  unfold TrimPrefix. rewrite HasPrefix_app, slength_app.
  replace (String.length p + String.length s - String.length p)%nat with (String.length s) by lia.
  induction p as [|c p IH]; cbn; [|done]. apply substring_whole.
Qed.

(** ** Properties of credentials *)

Section credential_properties.
Context `{!AEAD}.

Lemma credential_roundtrip_full key nonce value purpose
  (Hnonce : List.length nonce = NonceSize) (Hbytes : Forall is_byte nonce) :
  exists sealed, EncryptCredential (Some key) (Ok nonce) value purpose = Ok sealed /\
    DecryptCredential (Some key) sealed purpose = Ok value /\
    (value <> "" -> IsEncryptedCredential sealed = true) /\
    (forall other, other <> "" -> IsEncryptedCredential other = false ->
       DecryptCredential (Some key) other purpose = Fail (Sentinel ErrCredentialNotEncrypted)).
Proof.
  unfold EncryptCredential. destruct (String.eqb_spec value "") as [->|Hv].
  { exists "". split_and!; try done. intros other Hne Hp. unfold DecryptCredential.
    rewrite Hp. by apply String.eqb_neq in Hne as ->. }
  eexists. split; [reflexivity|]. set (cipher := Seal key nonce (bytes_of value) (bytes_of purpose)).
  split_and!.
  - unfold DecryptCredential, IsEncryptedCredential. rewrite HasPrefix_app, TrimPrefix_app.
    cbn [String.eqb encryptedCredentialPrefix negb String.append].
    rewrite base64url_roundtrip by (apply Forall_app; split; [done|]; apply Seal_bytes, bytes_of_is_byte).
    rewrite length_app, Hnonce. unfold cipher at 1. rewrite Seal_length.
    rewrite (proj2 (Nat.ltb_ge _ _)) by lia. rewrite <- Hnonce.
    rewrite take_app_length, drop_app_length. unfold cipher.
    rewrite Open_Seal by done. by rewrite string_of_bytes_of.
  - intros _. apply HasPrefix_app.
  - intros other Hne Hp. unfold DecryptCredential. rewrite Hp. by apply String.eqb_neq in Hne as ->.
Qed.

Lemma credential_decrypts key nonce value purpose :
  List.length nonce = NonceSize -> Forall is_byte nonce ->
  exists sealed, EncryptCredential (Some key) (Ok nonce) value purpose = Ok sealed /\
    DecryptCredential (Some key) sealed purpose = Ok value.
Proof.
  intros Hn Hb. destruct (credential_roundtrip_full key nonce value purpose Hn Hb) as (x & ? & ? & _).
  by exists x.
Qed.

(** Sealed credentials. What is encrypted for a purpose is marked as
    encrypted, is never the plaintext's own empty marker, and decrypts for
    the same purpose to the same bytes; anything without the mark is refused. *)
Theorem credential_roundtrip key nonce value purpose
  (Hnonce : List.length nonce = NonceSize) (Hbytes : Forall is_byte nonce) :
  exists sealed, EncryptCredential (Some key) (Ok nonce) value purpose = Ok sealed /\
    DecryptCredential (Some key) sealed purpose = Ok value /\
    (value <> "" -> IsEncryptedCredential sealed = true) /\
    (forall other, other <> "" -> IsEncryptedCredential other = false ->
       DecryptCredential (Some key) other purpose = Fail (Sentinel ErrCredentialNotEncrypted)).
Proof. by apply credential_roundtrip_full. Qed.
End credential_properties.

(** A concrete instance of the interface: no secrecy, an authentic tag. *)
Definition demo_tag (data : list Z) : list Z := take 16 (data ++ repeat 0 16).

Program Definition demo_aead : AEAD := {|
  NonceSize := 12; Overhead := 16;
  Seal _ _ plain data := plain ++ map u8 (demo_tag data);
  Open _ _ cipher data :=
    let n := (List.length cipher - 16)%nat in
    if bool_decide (drop n cipher = map u8 (demo_tag data)) then Some (take n cipher) else None
|}.
Next Obligation.
  intros key nonce plain data Hp. apply Forall_app. split; [done|]. apply Forall_map_iff, Forall_forall.
  intros z _. unfold u8. change (2 ^ 8) with 256. unfold is_byte. lia.
Qed.
Next Obligation.
  intros key nonce plain data. unfold demo_tag. rewrite length_app, length_map, length_take, length_app, repeat_length.
  lia.
Qed.
Next Obligation.
  intros key nonce plain data _.
  assert (Hn : (List.length (plain ++ map u8 (demo_tag data)) - 16)%nat = List.length plain).
  { unfold demo_tag. rewrite length_app, length_map, length_take, length_app, repeat_length. lia. }
  cbv zeta beta. rewrite Hn, drop_app_length, take_app_length. by rewrite bool_decide_eq_true_2.
Qed.

Lemma credential_roundtrip_witness :
  exists sealed, @EncryptCredential demo_aead (Some []) (Ok (repeat 9 12)) "s3cret" "p" = Ok sealed /\
    @DecryptCredential demo_aead (Some []) sealed "p" = Ok "s3cret".
Proof.
  destruct (@credential_roundtrip demo_aead [] (repeat 9 12) "s3cret" "p" eq_refl
    ltac:(repeat constructor; discriminate)) as (sealed & He & Hd & _).
  exists sealed. split; [exact He|exact Hd].
Defined.
