(* ===== verification/FileManager.v ===== *)
(** The file manager ([internal/services/filemanager/manager.go],
    [operations.go]): virtual paths below a configured directory, limited to
    the scopes of an account and kept away from protected paths, and the
    operations on files and trees.

    The state is the tree of the configured directory, seen through [os.Root]
    ([GoRoot]). Closing a file is merged into what precedes it; there are no
    files but regular ones, directories and links, so the guard against devices
    never fails. *)

From stdpp Require Import gmap strings sorting options.
From S2P Require Import Prelude GoStrings GoText GoPath Store GoFiles GoRoot Access Credential.
#[local] Open Scope Z_scope.

Definition ErrInvalidPath : string := "invalid file path".
Definition ErrInvalidName : string := "invalid file name".
Definition ErrRootOperation : string := "operation on file root is not allowed".
Definition ErrNotRegular : string := "path is not a regular file".
Definition ErrReservedPath : string := "path is reserved for internal use".
Definition ErrUnsupportedType : string := "unsupported file type".
Definition internalDirectoryName : string := ".oneinstack-trash".

Definition refused {A} (sentinel text : string) : result A := Fail (Wrap "" (Sentinel sentinel) (": " +:+ text)).

Record Manager := mkManager { rootPath : string; scopePrefixes : list string; protectedPaths : list string }.

(** ** Names and paths *)

(** [fs.ValidPath]. *)
Definition ValidPath (name : string) : bool :=
  valid_utf8 name
  && (String.eqb name "."
      || forallb (fun e => negb (String.eqb e "") && negb (String.eqb e ".") && negb (String.eqb e ".."))
           (Split name slash)).

Definition ValidateName (name : string) : result unit :=
  let name := TrimSpace name in
  if String.eqb name "" || String.eqb name "." || String.eqb name ".." || (255 <? len name) then
    Fail (Sentinel ErrInvalidName)
  else if ContainsAny name "/\" || Contains name (str1 "000") then Fail (Sentinel ErrInvalidName)
  else if existsb isControl (runes name) then Fail (Sentinel ErrInvalidName)
  else Ok tt.

Definition isInternalPath (relative : string) : bool :=
  String.eqb relative internalDirectoryName || HasPrefix relative (internalDirectoryName +:+ "/").

(** [filepath.Abs] in the working directory [cwd]. *)
Definition Abs (cwd path : string) : string := if IsAbs path then Clean path else PathJoin [cwd; path].

Definition WithScope (prefixes : list string) (m : Manager) : Manager :=
  mkManager (rootPath m) prefixes (protectedPaths m).

Definition WithProtectedPaths (cwd : string) (paths : list string) (m : Manager) : Manager :=
  mkManager (rootPath m) (scopePrefixes m)
    (List.filter (fun absolute => negb (String.eqb absolute "")) (map (fun path => Abs cwd (Clean (TrimSpace path))) paths)).

Definition VirtualPath (relative : string) : string :=
  if String.eqb relative "" || String.eqb relative "." then "/" else "/" +:+ relative.

Definition isInScope (m : Manager) (virtualPath : string) : bool :=
  bool_decide (scopePrefixes m = [])
  || String.eqb virtualPath "/"
  || existsb (fun prefix => String.eqb virtualPath prefix || HasPrefix virtualPath (prefix +:+ "/")) (scopePrefixes m).

Definition isProtectedRelative (m : Manager) (relative : string) : bool :=
  let absolute := Clean (PathJoin [rootPath m; relative]) in
  existsb (fun protected => String.eqb absolute protected || HasPrefix absolute (protected +:+ "/")) (protectedPaths m).

(** An element of a virtual path. *)
Definition valid_segment (segment : string) : bool :=
  negb (String.eqb segment "..")
  && (String.eqb segment "" || String.eqb segment "." || is_ok (ValidateName segment)).

Definition Relative (m : Manager) (virtualPath : string) : result string :=
  if Contains virtualPath (str1 "000") || Contains virtualPath "\" then Fail (Sentinel ErrInvalidPath)
  else if negb (forallb valid_segment (Split virtualPath slash)) then Fail (Sentinel ErrInvalidPath)
  else
    let cleaned := Clean ("/" +:+ TrimSpace virtualPath) in
    let relative := TrimPrefix cleaned "/" in
    let relative := if String.eqb relative "" then "." else relative in
    if negb (ValidPath relative) then Fail (Sentinel ErrInvalidPath)
    else if isInternalPath relative then Fail (Sentinel ErrReservedPath)
    else if negb (isInScope m (VirtualPath relative)) then Fail (Sentinel ErrInvalidPath)
    else if isProtectedRelative m relative then Fail (Sentinel ErrReservedPath)
    else Ok relative.

Definition JoinPath (m : Manager) (virtualDir name : string) : result string :=
  match ValidateName name with
  | Fail err => Fail err
  | Ok _ =>
      match Relative m virtualDir with
      | Fail err => Fail err
      | Ok dir => Ok (if String.eqb dir "." then name else PathJoin [dir; name])
      end
  end.

Definition validatePublicRelative (relative : string) : result unit :=
  if negb (ValidPath relative) then Fail (Sentinel ErrInvalidPath)
  else if isInternalPath relative then Fail (Sentinel ErrReservedPath)
  else Ok tt.

(** A pure check before a call. *)
Definition lift {T A} (r : result A) : M T A := fun w => (r, w).

(** ** The manager of a directory *)

(** The tree at [rootPath] is what the other operations act on. *)
Definition New (cwd root : string) : M node Manager :=
  let root := TrimSpace root in
  if String.eqb root "" then lift (refused ErrInvalidPath "file root is empty")
  else
    let absoluteRoot := Abs cwd root in
    let* _ := wrapping "create file root" (GoFiles.MkdirAll absoluteRoot 493) in
    let* info := wrapping "stat file root" (Lstat absoluteRoot) in
    if negb (IsDir info) then lift (refused ErrInvalidPath "configured root is not a directory")
    else
      let* _ := wrapping "open file root" (Lstat absoluteRoot) in
      ret (mkManager absoluteRoot [] []).

Fixpoint for_each {T A} (f : A -> M T unit) (l : list A) : M T unit :=
  match l with
  | [] => ret tt
  | a :: l => let* _ := f a in for_each f l
  end.

Definition out_of_fuel {A} : result A := Fail (ErrorString "out of fuel").

Section operations.
Context `{!Machine} `{!UnicodeCase}.
Variable m : Manager.

Definition public_relative (relative : string) : result unit :=
  match validatePublicRelative relative with
  | Fail err => Fail err
  | Ok _ => if isProtectedRelative m relative then Fail (Sentinel ErrReservedPath) else Ok tt
  end.

Definition Open (virtualPath : string) : M node (handle * string) :=
  let* relative := lift (Relative m virtualPath) in
  let* file := Root_Open relative in
  ret (file, relative).

Definition OpenRelative (relative : string) : M node handle :=
  let* _ := lift (public_relative relative) in Root_Open relative.

Definition OpenFile (virtualPath : string) (flags : open_flags) (mode : Z) : M node (handle * string) :=
  let* relative := lift (Relative m virtualPath) in
  let* file := Root_OpenFile relative flags mode in
  ret (file, relative).

Definition OpenFileRelative (relative : string) (flags : open_flags) (mode : Z) : M node handle :=
  let* _ := lift (public_relative relative) in Root_OpenFile relative flags mode.

Definition Stat (virtualPath : string) : M node (node * string) :=
  let* relative := lift (Relative m virtualPath) in
  let* info := Root_Stat relative in
  ret (info, relative).

Definition LstatRelative (relative : string) : M node node :=
  let* _ := lift (public_relative relative) in Root_Lstat relative.

(** What a listing shows. *)
Definition visible (relative : string) (entry : string * node) : bool :=
  negb (String.eqb relative "." && String.eqb entry.1 internalDirectoryName)
  && negb (isProtectedRelative m (PathJoin [relative; entry.1])).

Definition ReadDir (virtualPath : string) : M node (list (string * node) * string) :=
  let* opened := Open virtualPath in
  let '(file, relative) := opened in
  let* info := File_Stat file in
  if negb (IsDir info) then lift (refused ErrInvalidPath "path is not a directory")
  else
    let* entries := File_ReadDir file in
    ret (List.filter (visible relative) entries, relative).

(** Each prefix of the path in turn; [current] is the one before. *)
Fixpoint make_each (current : string) (segments : list string) (mode : Z) : M node unit :=
  match segments with
  | [] => ret tt
  | segment :: segments =>
      let current := if String.eqb current "" then segment else PathJoin [current; segment] in
      let* made := attempt (Root_Mkdir current mode) in
      match made with
      | Ok _ => make_each current segments mode
      | Fail err =>
          if negb (is_exist err) then fail err
          else
            let* info := Root_Stat current in
            if negb (IsDir info) then lift (refused ErrInvalidPath (current +:+ " is not a directory"))
            else make_each current segments mode
      end
  end.

Definition mkdirAllRelative (relative : string) (mode : Z) : M node unit :=
  if negb (ValidPath relative) || String.eqb relative "." || isInternalPath relative
  then fail (Sentinel ErrInvalidPath)
  else make_each "" (Split relative slash) mode.

Definition MkdirAll (virtualPath : string) (mode : Z) : M node unit :=
  let* relative := lift (Relative m virtualPath) in
  if String.eqb relative "." then ret tt else mkdirAllRelative relative mode.

Definition CreateFile (virtualPath : string) (mode : Z) : M node unit :=
  let* _ := OpenFile virtualPath O_NEW mode in ret tt.

Definition WriteExistingFile (virtualPath content : string) : M node unit :=
  let* opened := OpenFile virtualPath O_RDWR 0 in
  let '(file, _) := opened in
  let* info := File_Stat file in
  if negb (IsRegular info) then fail (Sentinel ErrNotRegular)
  else
    let* _ := File_Truncate file in
    let* _ := File_Write file content in
    File_Sync file.

(** [fuel]: one for each level of the tree. *)
Fixpoint remove_all (fuel : nat) (relative : string) : M node unit :=
  let* found := attempt (Root_Lstat relative) in
  match found with
  | Fail err => if is_not_exist err then ret tt else fail err
  | Ok info =>
      let* _ :=
        (if IsDir info then
           match fuel with
           | O => lift out_of_fuel
           | S fuel =>
               let* dir := Root_Open relative in
               let* entries := File_ReadDir dir in
               for_each (fun entry => remove_all fuel (PathJoin [relative; entry.1])) entries
           end
         else ret tt) in
      Root_Remove relative
  end.

Definition removeAllRelative (relative : string) : M node unit :=
  let* fuel := tree_depth in remove_all fuel relative.

Definition RemoveAll (virtualPath : string) : M node unit :=
  let* relative := lift (Relative m virtualPath) in
  if String.eqb relative "." then fail (Sentinel ErrRootOperation) else removeAllRelative relative.
End operations.

(** ** Walks

    [fs.WalkDir] over the names below a directory. [fn] sees each entry, and
    the error when a directory cannot be listed. *)

Inductive verdict := Continue | SkipDir | Halt (err : error).

Section walking.
Context {A : Type}.
Variable fn : A -> string -> option node -> option error -> M node (A * verdict).

(** The entries of one directory, by [visit]. *)
Fixpoint walk_entries (visit : A -> string -> node -> M node (A * verdict)) (name : string) (a : A)
    (entries : list (string * node)) : M node (A * verdict) :=
  match entries with
  | [] => ret (a, Continue)
  | entry :: entries =>
      let* seen := visit a (PathJoin [name; entry.1]) entry.2 in
      match seen.2 with
      | Continue => walk_entries visit name seen.1 entries
      | SkipDir => ret (seen.1, Continue)
      | Halt err => ret (seen.1, Halt err)
      end
  end.

(** Skipping a directory is over with it. *)
Definition skipped (entry : node) (v : verdict) : verdict :=
  match v with SkipDir => if IsDir entry then Continue else SkipDir | _ => v end.

Fixpoint walk_dir (fuel : nat) (a : A) (name : string) (entry : node) : M node (A * verdict) :=
  let* seen := fn a name (Some entry) None in
  match seen.2, IsDir entry with
  | Continue, true =>
      let* listed := attempt (let* dir := Root_Open name in File_ReadDir dir) in
      match listed with
      | Fail err =>
          let* seen := fn seen.1 name (Some entry) (Some err) in
          ret (seen.1, skipped entry seen.2)
      | Ok entries =>
          match fuel with
          | O => lift out_of_fuel
          | S fuel => walk_entries (walk_dir fuel) name seen.1 entries
          end
      end
  | v, _ => ret (seen.1, skipped entry v)
  end.

Definition WalkDir (a : A) (root : string) : M node (A * result unit) :=
  let* found := attempt (Root_Stat root) in
  let* seen :=
    match found with
    | Fail err => fn a root None (Some err)
    | Ok info => let* fuel := tree_depth in walk_dir fuel a root info
    end in
  ret (seen.1, match seen.2 with Halt err => Fail err | _ => Ok tt end).
End walking.

(** ** Operations on trees *)

Record OperationResult := mkResult { OR_Path : string; OR_Bytes : Z; OR_Entries : Z }.

Definition no_result : OperationResult := mkResult "" 0 0.

(** One more entry, of so many bytes. *)
Definition counted (bytes : Z) (r : OperationResult) : OperationResult :=
  mkResult (OR_Path r) (i64 (OR_Bytes r + bytes)) (i64 (OR_Entries r + 1)).

Section trees.
Context `{!Machine} `{!UnicodeCase}.
Variable m : Manager.

Definition link_refused {A} : result A := refused ErrUnsupportedType "symbolic links cannot be copied or archived".

Definition measure_entry (allowSymbolicLinks : bool) (r : OperationResult) (path : string) (entry : option node)
    (walkErr : option error) : M node (OperationResult * verdict) :=
  match walkErr with
  | Some err => ret (r, Halt err)
  | None =>
      let* found := attempt (Root_Lstat path) in
      ret match found with
          | Fail err => (r, Halt err)
          | Ok info =>
              if negb allowSymbolicLinks && IsLink info then
                (r, match link_refused (A := unit) with Fail err => Halt err | Ok _ => Continue end)
              else (counted (if IsRegular info then info_size info else 0) r, Continue)
          end
  end.

Definition measure (virtualPath : string) (allowSymbolicLinks : bool) : M node OperationResult :=
  let* relative := lift (Relative m virtualPath) in
  if String.eqb relative "." then fail (Sentinel ErrRootOperation)
  else
    let* rootInfo := Root_Lstat relative in
    let result := mkResult (VirtualPath relative) 0 0 in
    if IsLink rootInfo then
      if negb allowSymbolicLinks then lift link_refused else ret (mkResult (VirtualPath relative) 0 1)
    else
      let* walked := WalkDir (measure_entry allowSymbolicLinks) result relative in
      match walked.2 with Ok _ => ret walked.1 | Fail err => fail err end.

Definition Measure (virtualPath : string) : M node OperationResult := measure virtualPath false.

(** One link after the other; [fuel] bounds them by the names not yet [seen]. *)
Fixpoint resolve_source (fuel : nat) (seen : list string) (relative : string) : M node (string * node) :=
  if existsb (String.eqb relative) seen then lift (refused ErrInvalidPath "symbolic link cycle")
  else
    let* info := Root_Lstat relative in
    if negb (IsLink info) then ret (relative, info)
    else
      let* parent := Root_Open (Dir relative) in
      let* linkTarget := readlinkAt parent (Base relative) in
      let* next := lift
        (if IsAbs linkTarget then
           if negb (String.eqb (rootPath m) "/")
           then refused ErrInvalidPath "absolute symbolic link target is outside managed root"
           else Ok (TrimPrefix (Clean linkTarget) "/")
         else Ok (Clean (PathJoin [Dir relative; linkTarget]))) in
      if String.eqb next "." || negb (ValidPath next) then fail (Sentinel ErrInvalidPath)
      else
        let* _ := lift (Relative m (VirtualPath next)) in
        match fuel with
        | O => lift out_of_fuel
        | S fuel => resolve_source fuel (relative :: seen) next
        end.

(** The links of a tree. *)
Fixpoint links_of (n : node) : nat :=
  match n with
  | FileNode _ _ => O
  | LinkNode _ => 1
  | DirNode _ entries => map_fold (fun _ child k => (links_of child + k)%nat) O entries
  end.

Definition resolveArchiveSource (relative : string) : M node (string * node) := fun w =>
  resolve_source (links_of (tables w)) [] relative w.

Definition MeasureForArchive (virtualPath : string) : M node OperationResult :=
  let* relative := lift (Relative m virtualPath) in
  if String.eqb relative "." then fail (Sentinel ErrRootOperation)
  else
    let* resolved := resolveArchiveSource relative in
    measure (VirtualPath resolved.1) true.

Definition resolveOperationTarget (source targetDir targetName : string) : M node (string * string) :=
  let* sourceRelative := lift (Relative m source) in
  if String.eqb sourceRelative "." then fail (Sentinel ErrRootOperation)
  else
    let targetName := if String.eqb (TrimSpace targetName) "" then Base sourceRelative else targetName in
    let* _ := lift (ValidateName targetName) in
    let* targetRelative := lift (JoinPath m targetDir targetName) in
    let* target := Stat m targetDir in
    if negb (IsDir target.1) then fail (Sentinel ErrInvalidPath) else ret (sourceRelative, targetRelative).

(** The loop over the entries of a directory, with the counts so far. *)
Fixpoint copy_each (copy : string -> string -> OperationResult -> M node OperationResult) (source target : string)
    (entries : list (string * node)) (r : OperationResult) : M node OperationResult :=
  match entries with
  | [] => ret r
  | entry :: entries =>
      let* r := copy (PathJoin [source; entry.1]) (PathJoin [target; entry.1]) r in
      copy_each copy source target entries r
  end.

Definition copy_content (source target : string) (mode : Z) : M node Z :=
  let* input := Root_Open source in
  let* output := Root_OpenFile target O_NEW mode in
  let* content := File_Read input in
  let* _ := File_Write output content in
  let* _ := File_Sync output in
  ret (len content).

Fixpoint copy_relative (fuel : nat) (source target : string) (r : OperationResult) : M node OperationResult :=
  let* info := Root_Lstat source in
  if IsLink info then fail (Sentinel ErrUnsupportedType)
  else if IsDir info then
    let* _ := Root_Mkdir target (Perm info) in
    let* directory := Root_Open source in
    let* entries := File_ReadDir directory in
    match fuel with
    | O => lift out_of_fuel
    | S fuel => copy_each (copy_relative fuel) source target entries (counted 0 r)
    end
  else if negb (IsRegular info) then fail (Sentinel ErrUnsupportedType)
  else
    let* written := copy_content source target (Perm info) in
    ret (counted written r).

Definition copyRelative (source target : string) (r : OperationResult) : M node OperationResult :=
  let* fuel := tree_depth in copy_relative fuel source target r.

(** A name below another. *)
Definition inside (target source : string) : bool := HasPrefix target (source +:+ "/").

(** What is at the target goes, when it may be overwritten. *)
Definition clear_target (targetRelative : string) (overwrite : bool) : M node unit :=
  let* found := attempt (Root_Lstat targetRelative) in
  match found with
  | Ok _ => if negb overwrite then fail (Sentinel ErrExist) else removeAllRelative targetRelative
  | Fail err => if negb (is_not_exist err) then fail err else ret tt
  end.

Definition Copy (source targetDir targetName : string) (overwrite : bool) : M node OperationResult :=
  let* paths := resolveOperationTarget source targetDir targetName in
  let '(sourceRelative, targetRelative) := paths in
  if String.eqb targetRelative sourceRelative || inside targetRelative sourceRelative then
    lift (refused ErrInvalidPath "target cannot be inside source")
  else
    let* _ := clear_target targetRelative overwrite in
    let* sourceInfo := Root_Lstat sourceRelative in
    if IsLink sourceInfo then fail (Sentinel ErrUnsupportedType)
    else
      let* copied := attempt (copyRelative sourceRelative targetRelative (mkResult (VirtualPath targetRelative) 0 0)) in
      match copied with
      | Ok r => ret r
      | Fail err => let* _ := ignoring (removeAllRelative targetRelative) in fail err
      end.

(** [renameRelativeExclusive] of [trash.go]. *)
Definition renameRelativeExclusive (source target : string) : M node unit :=
  if negb (ValidPath source) || negb (ValidPath target) || String.eqb source "." || String.eqb target "."
  then fail (Sentinel ErrInvalidPath)
  else
    let* sourceParent := Root_Open (Dir source) in
    let* targetParent := Root_Open (Dir target) in
    let* sourceInfo := File_Stat sourceParent in
    let* targetInfo := File_Stat targetParent in
    if negb (IsDir sourceInfo) || negb (IsDir targetInfo) then fail (Sentinel ErrInvalidPath)
    else renameExclusive sourceParent (Base source) targetParent (Base target).

Definition is_cross_device (e : error) : bool := errors_Is e EXDEV.

(** Onto another mount by a copy. *)
Definition move_by_copy (source targetDir targetName sourceRelative targetRelative : string) : M node OperationResult :=
  let* copied := Copy source targetDir targetName false in
  let* removed := attempt (removeAllRelative sourceRelative) in
  match removed with
  | Ok _ => ret copied
  | Fail err =>
      let* _ := ignoring (removeAllRelative targetRelative) in
      fail (Wrap "remove source after cross-filesystem copy: " err "")
  end.

Definition Move (source targetDir targetName : string) : M node OperationResult :=
  let* paths := resolveOperationTarget source targetDir targetName in
  let '(sourceRelative, targetRelative) := paths in
  if String.eqb targetRelative sourceRelative then ret (mkResult (VirtualPath sourceRelative) 0 0)
  else if inside targetRelative sourceRelative then lift (refused ErrInvalidPath "target cannot be inside source")
  else
    let* measured := Measure source in
    let* moved := attempt (renameRelativeExclusive sourceRelative targetRelative) in
    match moved with
    | Ok _ => ret (mkResult (VirtualPath targetRelative) (OR_Bytes measured) (OR_Entries measured))
    | Fail err =>
        if negb (is_cross_device err) then fail err
        else move_by_copy source targetDir targetName sourceRelative targetRelative
    end.

Definition Rename (source newName : string) : M node OperationResult :=
  let* relative := lift (Relative m source) in
  if String.eqb relative "." then fail (Sentinel ErrRootOperation)
  else Move source (VirtualPath (Dir relative)) newName.

(** [Walk], for callers outside of the package: the walk without what is
    protected or internal. *)
Definition walk_visible {A} (fn : A -> string -> option node -> option error -> M node (A * verdict)) (a : A) (path : string)
    (entry : option node) (walkErr : option error) : M node (A * verdict) :=
  let hidden := match entry with Some n => if IsDir n then SkipDir else Continue | None => Continue end in
  if negb (String.eqb path ".") && isProtectedRelative m path then ret (a, hidden)
  else if isInternalPath path then ret (a, hidden)
  else fn a path entry walkErr.

Definition Walk {A} (virtualPath : string) (fn : A -> string -> option node -> option error -> M node (A * verdict)) (a : A)
    : M node (A * result unit) :=
  let* relative := lift (Relative m virtualPath) in
  WalkDir (walk_visible fn) a relative.
End trees.

(** ** The manager of a request

    [managerForRequest] of [router/handler/ftp/ftp.go]. *)

Definition developmentFileRootFallback (development : bool) (base rootPath : string) : option string :=
  if negb development then None
  else if negb (String.eqb (Clean rootPath) "/data") then None
  else Some (PathJoin [base; "file-root"]).

(** The directories that the permissions of an account open. *)
Definition allowedPrefixes (access : option UserAccess) : list string :=
  (if HasPermission access PermissionFileScopeWebsites then ["/websites"] else [])
  ++ (if HasPermission access PermissionFileScopeBackups then ["/backups"] else []).

Definition request_scope (access : option UserAccess) (m : Manager) : Manager :=
  match access with
  | None => m
  | Some _ =>
      if HasPermission access PermissionFileScopeRoot then m
      else match allowedPrefixes access with [] => m | prefixes => WithScope prefixes m end
  end.

Definition managerForRequest (cwd base defaultPath : string) (development : bool) (access : option UserAccess)
    : M node Manager :=
  let rootPath := TrimSpace defaultPath in
  if String.eqb rootPath "" then fail (ErrorString "no root directory for files is configured")
  else
    let* opened := attempt (New cwd rootPath) in
    let* opened :=
      match opened with
      | Ok _ => ret opened
      | Fail _ =>
          match developmentFileRootFallback development base rootPath with
          | Some fallbackRoot => attempt (New cwd fallbackRoot)
          | None => ret opened
          end
      end in
    match opened with
    | Fail _ => fail (ErrorString "the file service could not be initialised")
    | Ok m => ret (request_scope access (WithProtectedPaths cwd [PathJoin [base; ".ssh"]] m))
    end.
