(* ===== verification/FileSafety.v ===== *)
(** What the file manager keeps: the paths that it accepts, and the places that
    its operations can change. *)

From stdpp Require Import gmap strings sorting options.
From S2P Require Import Prelude GoStrings GoText GoPath Store GoFiles GoRoot RootTrees Access Credential FileManager.
#[local] Open Scope Z_scope.

(** ** Paths inside of others *)

Lemma HasPrefix_iff s p : HasPrefix s p = true <-> exists t, s = p +:+ t.
Proof.
  split; [|intros [t ->]; apply HasPrefix_app]. unfold HasPrefix. revert s.
  induction p as [|c p IH]; intros s E; [by exists s|]. destruct s as [|d s]; [done|]. cbn in E.
  destruct (ascii_dec c d) as [->|]; [|done]. apply IH in E as [t ->]. by exists t.
Qed.

Lemma Join_app l k : l <> [] -> k <> [] -> Join (l ++ k) "/" = Join l "/" +:+ "/" +:+ Join k "/".
Proof.
  intros Hl Hk. induction l as [|p l IH]; [done|]. destruct l as [|q l]; [by destruct k|].
  change (p +:+ "/" +:+ Join ((q :: l) ++ k) "/" = (p +:+ "/" +:+ Join (q :: l) "/") +:+ "/" +:+ Join k "/").
  rewrite IH by done. by rewrite !sapp_assoc.
Qed.

Lemma Split_Join_plain l : l <> [] -> Forall plain_part l -> Split (Join l "/") slash = l.
Proof. intros Hn Hl. apply Split_Join; [done|]. by apply plain_parts_free. Qed.

Lemma within_Join l k : Forall plain_part l -> Forall plain_part k -> k <> [] ->
  String.eqb (Join l "/") (Join k "/") || HasPrefix (Join l "/") (Join k "/" +:+ "/") = starts_with l k.
Proof.
  intros Hl Hk Hn. apply Bool.eq_iff_eq_true. rewrite orb_true_iff, String.eqb_eq, HasPrefix_iff, starts_with_iff. split.
  - intros H. assert (Hne : l <> []).
    { intros ->. destruct Hk as [|p k Hp Hk]; [done|]. destruct H as [H|[t H]].
      - symmetry in H. by apply Join_plain in H.
      - destruct (Join (p :: k) "/") eqn:E; [by apply Join_plain in E|done]. }
    rewrite <- (Split_Join_plain l), <- (Split_Join_plain k) by done. destruct H as [->|[t ->]].
    + exists []. by rewrite app_nil_r.
    + rewrite sapp_assoc, Split_slash_app. by eexists.
  - intros [j ->]. destruct j as [|p j]; [left; by rewrite app_nil_r|right]. rewrite Join_app by done.
    exists (Join (p :: j) "/"). by rewrite sapp_assoc.
Qed.

Lemma within_rel l k : Forall plain_part l -> Forall plain_part k -> k <> [] ->
  String.eqb (rel l) (rel k) || HasPrefix (rel l) (rel k +:+ "/") = starts_with l k.
Proof.
  intros Hl Hk Hn. destruct k as [|q k]; [done|]. destruct l as [|p l].
  - apply Forall_cons in Hk as [Hplain Hk]. assert (Hd := Hplain). destruct Hd as (Hq & Hd & _ & Hf). apply orb_false_iff. split.
    + apply String.eqb_neq. change (rel []) with ".". intros E. assert (E2 := f_equal String.length E).
      rewrite rel_cons in E, E2 by done. destruct k as [|r k]; [by symmetry in E|]. cbn [Join] in E2.
      rewrite !slength_app in E2. destruct q as [|c q]; [done|]. cbn in E2. lia.
    + apply not_true_is_false. intros [t E]%HasPrefix_iff. change (rel []) with "." in E.
      apply (f_equal String.length) in E. rewrite !slength_app in E. change (String.length ".") with 1%nat in E.
      change (String.length "/") with 1%nat in E. rewrite rel_cons in E by done.
      destruct (Join (q :: k) "/") eqn:Er; [by apply Join_plain in Er|]. cbn [String.length] in E. lia.
  - rewrite <- (within_Join (p :: l) (q :: k)) by done.
    apply Forall_cons in Hl as [Hp _]. apply Forall_cons in Hk as [Hq _]. by rewrite !rel_cons by done.
Qed.

(** Absolute paths. *)
Lemma within_abs l k : Forall plain_part l -> Forall plain_part k -> k <> [] ->
  String.eqb (path_of true l) (path_of true k) || HasPrefix (path_of true l) (path_of true k +:+ "/") = starts_with l k.
Proof. intros Hl Hk Hn. rewrite <- (within_Join l k) by done. done. Qed.

(** ** The places that a manager opens *)

Definition internal (l : list string) : bool := starts_with l [internalDirectoryName].

Definition in_scope (m : Manager) (l : list string) : bool :=
  bool_decide (scopePrefixes m = []) || bool_decide (l = []) || existsb (fun p => starts_with l (parts p)) (scopePrefixes m).

Definition protected (m : Manager) (l : list string) : bool :=
  existsb (fun p => starts_with (parts (rootPath m) ++ l) (parts p)) (protectedPaths m).

(** Neither internal, nor out of scope, nor protected. *)
Definition open_to (m : Manager) (l : list string) : bool := negb (internal l) && in_scope m l && negb (protected m l).

(** An absolute path in its canonical form, other than the root. *)
Definition proper_path (p : string) : Prop := exists l, l <> [] /\ Forall plain_part l /\ p = path_of true l.

Record configured (m : Manager) : Prop := {
  root_absolute : IsAbs (rootPath m) = true;
  scopes_proper : Forall proper_path (scopePrefixes m);
  protected_proper : Forall proper_path (protectedPaths m)
}.

(** What [Relative] asks of the text of a path. *)
Definition readable (virtualPath : string) : bool :=
  negb (Contains virtualPath (str1 "000")) && negb (Contains virtualPath "\")
  && forallb valid_segment (Split virtualPath slash).

(** The place that a virtual path means. *)
Definition place (virtualPath : string) : list string := parts ("/" +:+ TrimSpace virtualPath).

Lemma place_plain p : Forall plain_part (place p).
Proof. apply parts_plain, IsAbs_slash. Qed.

Lemma internal_plain : Forall plain_part [internalDirectoryName].
Proof. by repeat constructor. Qed.

Lemma isInternalPath_rel l : Forall plain_part l -> isInternalPath (rel l) = internal l.
Proof.
  intros Hl. unfold isInternalPath, internal. rewrite <- within_rel by (try apply internal_plain; done). done.
Qed.

Lemma VirtualPath_rel l : Forall plain_part l -> VirtualPath (rel l) = path_of true l.
Proof.
  intros Hl. destruct l as [|p l]; [done|]. unfold VirtualPath, path_of.
  rewrite (proj2 (String.eqb_neq _ _)) by (by apply rel_not_empty).
  rewrite (proj2 (String.eqb_neq _ ".")); [by rewrite rel_cons by (by apply Forall_cons in Hl as [? _])|].
  intros E. apply (f_equal (fun s => splitPathInRoot s)) in E.
  by rewrite splitPathInRoot_rel in E.
Qed.

Lemma existsb_Forall_eq {A} (f g : A -> bool) l : Forall (fun x => f x = g x) l -> existsb f l = existsb g l.
Proof. induction 1 as [|x l E Hl IH]; [done|]. cbn. by rewrite E, IH. Qed.

Section accepted.
Variable m : Manager.
Hypothesis conf : configured m.

Lemma isInScope_place l : Forall plain_part l -> isInScope m (path_of true l) = in_scope m l.
Proof using conf.
  intros Hl. unfold isInScope, in_scope. f_equal; [f_equal|].
  - apply Bool.eq_iff_eq_true. rewrite String.eqb_eq, bool_decide_eq_true. split; [|by intros ->].
    intros E. rewrite <- (parts_path_of l) by done. by rewrite E.
  - apply existsb_Forall_eq. eapply Forall_impl; [apply (scopes_proper m conf)|]. intros p (k & Hk & Hp & ->). cbn beta.
    rewrite parts_path_of by done. by apply within_abs.
Qed.

Lemma absolute_place l : Forall plain_part l ->
  Clean (PathJoin [rootPath m; rel l]) = path_of true (parts (rootPath m) ++ l).
Proof using conf.
  intros Hl. assert (Ha := root_absolute m conf). rewrite Clean_PathJoin, PathJoin2 by done.
  assert (Ha2 : IsAbs (rootPath m +:+ "/" +:+ rel l) = true).
  { apply IsAbs_cons in Ha as [d ->]. rewrite sapp_assoc. apply IsAbs_slash. }
  rewrite Clean_abs by done. f_equal. destruct l as [|p l].
  - rewrite app_nil_r. change (rel []) with ".". apply IsAbs_cons in Ha as [d ->].
    rewrite sapp_assoc, !parts_rooted, Split_slash_app, clean_stack_app. done.
  - rewrite parts_below; rewrite ?Split_rel by done; done.
Qed.

Lemma isProtected_place l : Forall plain_part l -> isProtectedRelative m (rel l) = protected m l.
Proof using conf.
  intros Hl. unfold isProtectedRelative, protected. rewrite absolute_place by done. apply existsb_Forall_eq.
  eapply Forall_impl; [apply (protected_proper m conf)|]. intros p (k & Hk & Hp & ->). cbn beta.
  rewrite parts_path_of by done. apply within_abs; [|done..]. apply Forall_app. split; [|done].
  apply parts_plain, (root_absolute m conf).
Qed.

Lemma ValidPath_rel l : Forall plain_part l -> ValidPath (rel l) = valid_utf8 (rel l).
Proof using Type.
  intros Hl. unfold ValidPath. destruct l as [|p l]; [done|]. rewrite Split_rel by done.
  replace (forallb _ (p :: l)) with true; [by rewrite orb_true_r, andb_true_r|]. symmetry. apply forallb_Forall.
  eapply Forall_impl; [exact Hl|]. intros x (H1 & H2 & H3 & _). cbn beta. by rewrite !(proj2 (String.eqb_neq _ _)) by done.
Qed.

Lemma TrimPrefix_place p : let relative := TrimPrefix (Clean ("/" +:+ TrimSpace p)) "/" in
  (if String.eqb relative "" then "." else relative) = rel (place p).
Proof using Type.
  cbv zeta. rewrite Clean_abs by apply IsAbs_slash. unfold path_of at 1 2. fold (place p).
  rewrite TrimPrefix_app. reflexivity.
Qed.

(** C16: [Relative] accepts exactly the readable paths whose place is open to
    the manager: outside of the internal directory, in the scope of the account
    and not below a protected path, compared element by element. What it
    returns is that place, with every dot and every step up resolved, so that no
    spelling of a path leads out of the root or past a check. *)
Theorem Relative_accepts virtualPath relative :
  Relative m virtualPath = Ok relative <->
  readable virtualPath = true /\ valid_utf8 (rel (place virtualPath)) = true
  /\ open_to m (place virtualPath) = true /\ relative = rel (place virtualPath).
Proof using conf.
  assert (Hp := place_plain virtualPath). unfold Relative, readable, open_to. cbv zeta.
  rewrite (TrimPrefix_place virtualPath), ValidPath_rel, isInternalPath_rel, VirtualPath_rel, isInScope_place,
    isProtected_place by done.
  destruct (Contains virtualPath (str1 "000")), (Contains virtualPath "\"), (forallb _ _), (valid_utf8 _), (internal _),
    (in_scope _ _), (protected _ _); naive_solver.
Qed.
End accepted.

(** ** Making directories *)

(** Entries at or above [l] may be new; all others are as before. *)
Definition grown (l : list string) (t t' : node) : Prop :=
  forall k, label_at k t' = label_at k t \/ label_at k t = None /\ starts_with l k = true.

Lemma grown_refl l t : grown l t t.
Proof. intros k. by left. Qed.

Lemma grown_trans l t1 t2 t3 : grown l t1 t2 -> grown l t2 t3 -> grown l t1 t3.
Proof.
  intros H1 H2 k. destruct (H1 k) as [E1|?]; [|by right]. destruct (H2 k) as [E2|[E2 ?]]; [left; congruence|right].
  split; [congruence|done].
Qed.

Lemma grown_keeps l t t' k lab : grown l t t' -> label_at k t = Some lab -> label_at k t' = Some lab.
Proof. intros H E. destruct (H k) as [->|[E' _]]; [done|congruence]. Qed.

Lemma grown_dir l t t' k : grown l t t' -> dir_at k t -> dir_at k t'.
Proof. intros H [m Hm]. exists m. by eapply grown_keeps. Qed.

Lemma relabelled_grown d p j lab t t' : label_at (d ++ [p]) t = None -> relabelled (d ++ [p]) (Some lab) t t' ->
  grown (d ++ p :: j) t t'.
Proof.
  intros Hn Hr k. rewrite (Hr k). destruct (decide (k = d ++ [p])) as [->|]; [|by left]. right. split; [done|].
  replace (d ++ p :: j) with ((d ++ [p]) ++ j) by (by rewrite <- app_assoc). apply starts_with_app.
Qed.

(** Something other than a directory on the way to [l]. *)
Definition blocked (l : list string) (t : node) : Prop :=
  exists k, starts_with l k = true /\ label_at k t <> None /\ ~ dir_at k t.

Definition current_path (d : list string) : string := match d with [] => "" | _ => rel d end.

Lemma next_path d p : Forall plain_part d -> plain_part p ->
  (if String.eqb (current_path d) "" then p else PathJoin [current_path d; p]) = rel (d ++ [p]).
Proof.
  intros Hd Hp. destruct d as [|x d]; [change ([] ++ [p]) with [p]; by rewrite rel_cons|]. cbn [current_path].
  rewrite (proj2 (String.eqb_neq _ _)) by (by apply rel_not_empty). by apply PathJoin_rel.
Qed.

Section operations.
Context `{!Machine} (q : bool).
Implicit Types (t : node) (l : list string).

Lemma leads_make_each d segs mode t : sound t -> dir_at d t -> Forall plain_part (d ++ segs) ->
  leads q (make_each (current_path d) segs mode) t (fun r t' => sound t' /\ grown (d ++ segs) t t' /\
    match r with Ok _ => dir_at (d ++ segs) t' | Fail _ => q = false \/ blocked (d ++ segs) t end).
Proof using Type.
  revert d t. induction segs as [|p segs IH]; intros d t Hs Hd Hp.
  { apply leads_ret. rewrite app_nil_r. auto using grown_refl. }
  assert (Hdp : Forall plain_part (d ++ [p])).
  { apply Forall_app in Hp as [? Hp]. apply Forall_cons in Hp as [? _]. by apply plain_snoc. }
  assert (Eq : d ++ p :: segs = (d ++ [p]) ++ segs) by (by rewrite <- app_assoc).
  cbn [make_each]. rewrite next_path by (apply Forall_app in Hdp as [? Hx]; try done; by apply Forall_cons in Hx as [? _]).
  replace (rel (d ++ [p])) with (current_path (d ++ [p])) by (by destruct d).
  assert (Hfail : q = false \/ blocked (d ++ p :: segs) t ->
    sound t /\ grown (d ++ p :: segs) t t /\ (q = false \/ blocked (d ++ p :: segs) t)) by auto using grown_refl.
  apply leads_bind, leads_attempt. replace (current_path (d ++ [p])) with (rel (d ++ [p])) by (by destruct d).
  apply leads_Mkdir; [done|done| | | |].
  - intros Hq text. apply leads_fail, Hfail. by left.
  - intros t1 Hn Hr _. replace (rel (d ++ [p])) with (current_path (d ++ [p])) by (by destruct d).
    assert (Hg := relabelled_grown d p segs _ _ _ Hn Hr). rewrite Eq in *.
    eapply leads_mono; [apply (IH (d ++ [p]) t1)|].
    + eapply relabelled_sound; [exact Hr|done|by destruct d|done|done].
    + eexists. by eapply relabelled_at.
    + done.
    + intros r t' (H1 & H2 & H3). split_and!; [done|by eapply grown_trans|]. destruct r as [u|e]; [done|].
      destruct H3 as [|(k & K1 & K2 & K3)]; [by left|right]. destruct (decide (k = d ++ [p])) as [->|Hne].
      * destruct K3. eexists. by eapply relabelled_at.
      * exists k. split; [done|]. unfold dir_at in *. by rewrite <- (relabelled_other _ _ _ _ _ Hr Hne).
  - intros e Hy He. cbn beta iota. rewrite He. cbn [negb]. apply leads_bind, leads_Stat; [done|done| | |].
    + intros Hq text. apply Hfail. by left.
    + intros n Hn. destruct (IsDir n) eqn:Ed; cbn [negb].
      * replace (rel (d ++ [p])) with (current_path (d ++ [p])) by (by destruct d). rewrite Eq.
        apply IH; [done| |by rewrite <- Eq]. apply dir_node. destruct n; try done. eauto.
      * apply (leads_fail q), Hfail. right. exists (d ++ [p]). rewrite Eq, starts_with_app.
        split_and!; [done|done|]. intros (m' & e' & E')%dir_node. rewrite Hn in E'. by injection E' as ->.
    + intros Hno. done.
  - intros e Hn Hnd. rewrite removelast_last in Hnd. done.
Qed.
End operations.

(** ** Removing trees *)

(** Entries at or below [l] may be gone; all others are as before. *)
Definition pruned (l : list string) (t t' : node) : Prop :=
  forall k, label_at k t' = label_at k t \/ label_at k t' = None /\ starts_with k l = true.

Lemma pruned_refl l t : pruned l t t.
Proof. intros k. by left. Qed.

Lemma pruned_trans l t1 t2 t3 : pruned l t1 t2 -> pruned l t2 t3 -> pruned l t1 t3.
Proof.
  intros H1 H2 k. destruct (H2 k) as [E2|?]; [|by right]. destruct (H1 k) as [E1|[E1 ?]]; [left|right]; [congruence|].
  split; [congruence|done].
Qed.

Lemma starts_with_trans k l j : starts_with k l = true -> starts_with l j = true -> starts_with k j = true.
Proof. intros [x ->]%starts_with_iff [y ->]%starts_with_iff. rewrite <- app_assoc. apply starts_with_app. Qed.

Lemma pruned_below l j t t' : pruned (l ++ j) t t' -> pruned l t t'.
Proof.
  intros H k. destruct (H k) as [?|[? Hk]]; [by left|right]. split; [done|].
  eapply starts_with_trans; [exact Hk|apply starts_with_app].
Qed.

Lemma pruned_same l t t' k : pruned l t t' -> starts_with k l = false -> label_at k t' = label_at k t.
Proof. intros H Hk. destruct (H k) as [?|[_ ?]]; congruence. Qed.

Lemma pruned_none l t t' k : pruned l t t' -> label_at k t = None -> label_at k t' = None.
Proof. intros H Hk. destruct (H k) as [->|[? _]]; done. Qed.

Lemma pruned_sound l t t' : pruned l t t' -> sound t -> l <> [] -> sound t'.
Proof.
  intros H Hs Hl. apply (sound_change t); [done|]. intros k. destruct (H k) as [?|[? Hk]]; [by left|right; left].
  split; [done|]. intros ->. by destruct l.
Qed.

Lemma starts_longer (l : list string) p : starts_with l (l ++ [p]) = false.
Proof.
  apply not_true_is_false. intros [j E]%starts_with_iff. apply (f_equal List.length) in E. rewrite !length_app in E.
  cbn in E. lia.
Qed.

Lemma relabelled_pruned l t t' : relabelled l None t t' -> pruned l t t'.
Proof.
  intros H k. rewrite (H k). destruct (decide (k = l)) as [->|]; [right|by left]. split; [done|apply starts_with_refl].
Qed.

(** Everything at or below [l] is less than [fuel] levels below it. *)
Definition shallow (fuel : nat) (l : list string) (t : node) : Prop :=
  forall j, label_at (l ++ j) t <> None -> (List.length j < fuel)%nat.

Lemma depth_child mode entries x n : entries !! x = Some n -> (S (depth n) <= depth (DirNode mode entries))%nat.
Proof.
  cbn [depth]. revert x n. induction entries as [|y v entries Hy Hf IH] using map_first_key_ind; [done|].
  intros x n. rewrite map_fold_insert_first_key by done. rewrite lookup_insert. case_decide.
  - intros [= <-]. lia.
  - intros E. apply IH in E. lia.
Qed.

Lemma label_depth k t : label_at k t <> None -> (List.length k <= depth t)%nat.
Proof.
  revert t. induction k as [|x k IH]; intros t; cbn [List.length]; [lia|]. unfold label_at. cbn [node_at].
  destruct t as [|mode entries|]; try done. destruct (entries !! x) as [n|] eqn:E; [|done]. intros H.
  apply (depth_child mode) in E. specialize (IH n H). lia.
Qed.

Lemma shallow_depth l t : shallow (S (depth t)) l t.
Proof. intros j H. apply label_depth in H. rewrite length_app in H. lia. Qed.

Lemma shallow_child fuel l p t : shallow (S fuel) l t -> shallow fuel (l ++ [p]) t.
Proof.
  intros H j Hj. rewrite <- app_assoc in Hj. specialize (H (p :: j) Hj). cbn in H. lia.
Qed.

Lemma shallow_pruned fuel l k t t' : pruned k t t' -> shallow fuel l t -> shallow fuel l t'.
Proof. intros Hp H j Hj. apply H. intros E. apply Hj. by eapply pruned_none. Qed.

Section loops.
Context {T A : Type} (q : bool).

Lemma leads_for_each (f : A -> M T unit) (l : list A) t (I : list A -> T -> Prop) (Q : result unit -> T -> Prop) : I [] t ->
  (forall done x rest t1, l = done ++ x :: rest -> I done t1 ->
     leads q (f x) t1 (fun r t2 => match r with Ok _ => I (done ++ [x]) t2 | Fail e => Q (Fail e) t2 end)) ->
  (forall t2, I l t2 -> Q (Ok tt) t2) -> leads q (for_each f l) t Q.
Proof.
  intros Hi Hstep Hend. cut (forall rest done t1, l = done ++ rest -> I done t1 -> leads q (for_each f rest) t1 Q).
  { intros H. by apply (H l []). }
  intros rest. induction rest as [|x rest IH]; intros done t1 El Hd.
  - rewrite app_nil_r in El. subst done. by apply leads_ret, Hend.
  - cbn [for_each]. apply leads_bind. eapply leads_mono; [by apply (Hstep done x rest)|].
    intros [u|e] t2 H; [|done]. apply (IH (done ++ [x])); [by rewrite <- app_assoc|done].
Qed.
End loops.

Section removing.
Context `{!Machine} (q : bool).
Implicit Types (t : node) (l : list string).

Definition removed l t (r : result unit) t' : Prop :=
  sound t' /\ pruned l t t' /\
  match r with Ok _ => label_at l t' = None | Fail _ => q = false \/ ~ dir_at (removelast l) t end.

Lemma listed_plain l t entries p : sound t -> lists l t entries -> p ∈ map fst entries -> plain_part p.
Proof using Type.
  intros Hs [_ Hin] Hp. apply Hin in Hp. destruct (label_at (l ++ [p]) t) as [lab|] eqn:E; [|done].
  apply (sound_names t Hs), Forall_app in E as [_ E]. by apply Forall_cons in E as [? _].
Qed.

(** A loop that removes every entry of a directory. *)
Lemma leads_empty (remove : string -> M node unit) l t entries (Q : result unit -> node -> Prop) :
  sound t -> dir_at l t -> Forall plain_part l -> lists l t entries ->
  (forall p t1, plain_part p -> sound t1 -> pruned l t t1 -> leads q (remove (rel (l ++ [p]))) t1 (removed (l ++ [p]) t1)) ->
  (forall t1, sound t1 -> pruned l t t1 -> label_at l t1 = label_at l t -> (forall p j, label_at (l ++ p :: j) t1 = None) ->
     Q (Ok tt) t1) ->
  (q = false -> forall e t1, sound t1 -> pruned l t t1 -> Q (Fail e) t1) ->
  leads q (for_each (fun entry => remove (PathJoin [rel l; entry.1])) entries) t Q.
Proof using Type.
  intros Hs Hd Hl Hin Hrem Hok Hfail.
  apply (leads_for_each q) with (I := fun done t1 => sound t1 /\ pruned l t t1 /\ label_at l t1 = label_at l t /\
    forall p, p ∈ map fst done -> label_at (l ++ [p]) t1 = None).
  - split_and!; [done|apply pruned_refl|done|]. intros p Hp. by apply elem_of_nil in Hp.
  - intros done x rest t1 Ee (S1 & P1 & L1 & C1).
    assert (Hx : plain_part x.1).
    { apply (listed_plain l t entries); [done..|]. rewrite Ee, map_app. apply elem_of_app. right. by left. }
    rewrite PathJoin_rel by done. eapply leads_mono; [by apply Hrem|].
    intros r t2 (S2 & P2 & R2). assert (P2' := pruned_below _ _ _ _ P2).
    assert (L2 : label_at l t2 = label_at l t1) by (apply (pruned_same _ _ _ _ P2), starts_longer).
    destruct r as [u|e].
    + split_and!; [done|by eapply pruned_trans|congruence|]. intros p Hp. rewrite map_app in Hp.
      apply elem_of_app in Hp as [Hp|Hp]; [eapply pruned_none; [exact P2|by apply C1]|].
      apply list_elem_of_singleton in Hp as ->. done.
    + apply Hfail; [|done|by eapply pruned_trans]. destruct R2 as [|R2]; [done|]. exfalso. apply R2.
      rewrite removelast_last. destruct Hd as [m Hm]. exists m. congruence.
  - intros t1 (S1 & P1 & L1 & C1). apply Hok; [done..|]. intros p j.
    replace (l ++ p :: j) with ((l ++ [p]) ++ j) by (by rewrite <- app_assoc). apply no_label_below.
    destruct (label_at (l ++ [p]) t1) as [lab|] eqn:E; [|done]. exfalso.
    destruct (P1 (l ++ [p])) as [E1|[E1 _]]; [|congruence].
    rewrite C1 in E; [done|]. apply Hin. by rewrite <- E1, E.
Qed.

(** The last call, on what is left at [l]. *)
Lemma leads_remove_last l t t1 : Forall plain_part l -> l <> [] -> sound t1 -> pruned l t t1 -> label_at l t1 <> None ->
  (forall p j, label_at (l ++ p :: j) t1 = None) -> leads q (Root_Remove (rel l)) t1 (removed l t).
Proof using Type.
  intros Hl Hn S1 P1 L1 C1. apply leads_Remove; [done|done|done| | | |].
  - intros Hq text. split_and!; [done..|by left].
  - intros t2 _ _ R2. assert (P2 := relabelled_pruned _ _ _ R2). split_and!; [by eapply pruned_sound|by eapply pruned_trans|].
    by eapply relabelled_at.
  - intros L1'. done.
  - intros e _ (p & Hp). by rewrite C1 in Hp.
Qed.

Lemma leads_remove_all fuel l t : sound t -> Forall plain_part l -> l <> [] -> shallow fuel l t ->
  leads q (remove_all fuel (rel l)) t (removed l t).
Proof using Type.
  revert l t. induction fuel as [|fuel IH]; intros l t Hs Hl Hn Hf.
  all: cbn [remove_all]; apply leads_bind, leads_attempt, leads_Lstat; [done|done| | |].
  1, 4: intros Hq text; apply leads_fail; split_and!; [done|apply pruned_refl|by left].
  1: intros n Hn'; assert (H1 := Hf []); rewrite app_nil_r, (label_at_node _ _ _ Hn') in H1; specialize (H1 ltac:(done)); cbn in H1; lia.
  1, 3: intros Hnone e He; destruct (is_not_exist e) eqn:Ee;
    [apply leads_ret; split_and!; [done|apply pruned_refl|done]
    |apply leads_fail; split_and!; [done|apply pruned_refl|right; intros Hd; by specialize (He Hd)]].
  intros n Hn'. assert (Hlab := label_at_node _ _ _ Hn').
  apply leads_bind, leads_if; intros Hdir.
  2:{ apply leads_ret, leads_remove_last; [done|done|done|apply pruned_refl|by rewrite Hlab|]. intros p j. apply leaf_below.
      eapply not_dir_at; [done|]. by destruct n. }
  assert (Hd : dir_at l t) by (apply dir_node; destruct n; try done; eauto).
  apply leads_bind, leads_Open; [done|done| | |].
  { intros Hq text. split_and!; [done|apply pruned_refl|by left]. }
  2:{ intros Hno. congruence. }
  intros _ _. apply leads_bind, leads_File_ReadDir; [done|done| |].
  { intros Hq text. split_and!; [done|apply pruned_refl|by left]. }
  intros entries Hin. apply leads_empty; [done..| | |].
  - intros p t1 Hp S1 P1. apply IH; [done|by apply plain_snoc|by destruct l|]. apply shallow_child. by eapply shallow_pruned.
  - intros t1 S1 P1 L1 C1. apply leads_remove_last; [done..|by rewrite L1, Hlab|done].
  - intros Hq e t1 S1 P1. split_and!; [done..|by left].
Qed.

Lemma leads_removeAllRelative l t : sound t -> Forall plain_part l -> l <> [] ->
  leads q (removeAllRelative (rel l)) t (removed l t).
Proof using Type.
  intros Hs Hl Hn. unfold removeAllRelative. apply leads_bind. intros fs r w' Hq [= <- <-]. split; [done|].
  apply leads_remove_all; [done..|apply shallow_depth].
Qed.
End removing.

(** ** The public changes *)

(** Requests that change one place. *)
Inductive change := Create (mode : Z) | Overwrite (content : string) | MakeAll (mode : Z) | Delete.

Definition perform `{!Machine} (m : Manager) (c : change) (virtualPath : string) : M node unit :=
  match c with
  | Create mode => CreateFile m virtualPath mode
  | Overwrite content => WriteExistingFile m virtualPath content
  | MakeAll mode => MkdirAll m virtualPath mode
  | Delete => RemoveAll m virtualPath
  end.

Lemma leads_lift {T A} q (r : result A) (t : T) Q : Q r t -> leads q (lift r) t Q.
Proof. intros Hq fs r' w' Hf [= <- <-]. done. Qed.

(** What a request may have done to the place [l]. *)
Definition touches (c : change) (l : list string) (t t' : node) : Prop :=
  match c with
  | Create _ => forall k, label_at k t' = label_at k t \/ k = l /\ label_at k t = None
  | Overwrite _ => forall k, label_at k t' = label_at k t \/ k = l /\ label_at k t <> None /\ label_at k t' <> None
  | MakeAll _ => grown l t t'
  | Delete => pruned l t t' /\ l <> []
  end.

Lemma touches_refl c l t : (c = Delete -> l <> []) -> touches c l t t.
Proof. destruct c; intros Hl; [by left..|]. split; [apply pruned_refl|auto]. Qed.

Lemma rel_root l : Forall plain_part l -> String.eqb (rel l) "." = bool_decide (l = []).
Proof.
  intros Hl. apply Bool.eq_iff_eq_true. rewrite String.eqb_eq, bool_decide_eq_true. split; [|by intros ->].
  intros E. apply (f_equal splitPathInRoot) in E. rewrite splitPathInRoot_rel in E by done. by injection E.
Qed.

Section requests.
Context `{!Machine} (q : bool).
Variable m : Manager.
Hypothesis conf : configured m.

(** An operation that starts with [Relative]. *)
Lemma leads_Relative {A} virtualPath (k : string -> M node A) t Q :
  (forall e, Q (Fail e) t) ->
  (open_to m (place virtualPath) = true -> leads q (k (rel (place virtualPath))) t Q) ->
  leads q (let* relative := lift (Relative m virtualPath) in k relative) t Q.
Proof using conf.
  intros Hfail Hok. apply leads_bind, leads_lift. destruct (Relative m virtualPath) as [r|e] eqn:E; [|apply Hfail].
  apply Relative_accepts in E as (_ & _ & Ho & ->); [|done]. by apply Hok.
Qed.

Lemma leads_MkdirAll l mode t : sound t -> Forall plain_part l -> l <> [] -> internal l = false ->
  leads q (mkdirAllRelative (rel l) mode) t (fun r t' => sound t' /\ grown l t t' /\
    match r with Ok _ => dir_at l t' | Fail _ => q = false \/ blocked l t \/ valid_utf8 (rel l) = false end).
Proof using Type.
  intros Hs Hl Hn Hi. unfold mkdirAllRelative. rewrite ValidPath_rel, isInternalPath_rel, Hi by done.
  rewrite orb_false_r. rewrite rel_root by done. rewrite bool_decide_eq_false_2, orb_false_r by done.
  destruct (valid_utf8 (rel l)) eqn:Ev; cbn [negb].
  - rewrite Split_rel by done. change "" with (current_path []). eapply leads_mono.
    + apply (leads_make_each q []); [done|by apply sound_root|done].
    + intros r t' (H1 & H2 & H3). split_and!; [done..|]. destruct r; [done|]. destruct H3; auto.
  - apply leads_fail. split_and!; [done|apply grown_refl|auto].
Qed.

Lemma perform_touches c virtualPath t : sound t ->
  leads q (perform m c virtualPath) t (fun r t' => sound t' /\
    (t' = t \/ touches c (place virtualPath) t t' /\ open_to m (place virtualPath) = true)).
Proof using conf.
  intros Hs. assert (Hl := place_plain virtualPath). set (l := place virtualPath) in *.
  assert (Hsame : sound t /\ (t = t \/ touches c l t t /\ open_to m l = true)) by auto.
  destruct c as [mode|content|mode|]; cbn [perform].
  - unfold CreateFile, OpenFile. apply leads_bind, leads_Relative; [done|]. intros Ho. fold l.
    apply leads_bind, leads_OpenNew; [done|done|intros ? ?; exact Hsame| |intros; exact Hsame..]. intros t' Hn Hr Hl0. apply leads_ret, leads_ret.
    split; [by eapply relabelled_sound|]. right. split; [|done]. intros k. rewrite (Hr k). destruct (decide (k = l)); subst; auto.
  - unfold WriteExistingFile, OpenFile. apply leads_bind, leads_Relative; [done|]. intros Ho. fold l.
    apply leads_bind, leads_OpenOld; [done|done|intros ? ?; exact Hsame| |intros; exact Hsame]. intros md c Hn. apply leads_ret.
    assert (Hlab : label_at l t = Some (LFile md c)) by (by apply label_at_node in Hn).
    assert (Hl0 : l <> []).
    { intros E. rewrite E in Hn. cbn in Hn. injection Hn as ->. by destruct (sound_root _ Hs) as [? [=]]. }
    assert (Hch : forall t' md' c', relabelled l (Some (LFile md' c')) t t' ->
      sound t' /\ (t' = t \/ touches (Overwrite content) l t t' /\ open_to m l = true)).
    { intros t' md' c' Hr. split; [by eapply relabelled_sound|]. right. split; [|done]. intros k. rewrite (Hr k).
      destruct (decide (k = l)) as [->|]; [right; by rewrite Hlab|by left]. }
    apply leads_bind, (leads_File_Stat q l _ _ _ Hn); [intros ? ?; exact Hsame|]. cbn [IsRegular negb].
    apply leads_bind, (leads_File_Truncate q l _ _ _ _ Hlab Hl0); [intros ? ?; exact Hsame|]. intros t1 R1.
    apply leads_bind, (leads_File_Write q l md "" _ _ _ (relabelled_at _ _ _ _ R1) Hl0).
    { intros _ text. by eapply Hch. }
    intros t2 R2. assert (R12 : relabelled l (Some (LFile md ("" +:+ content))) t t2).
    { intros k. rewrite (R2 k), (R1 k). by destruct (decide (k = l)). }
    apply leads_File_Sync; [intros _ text|]; by eapply Hch.
  - unfold MkdirAll. apply leads_Relative; [done|]. intros Ho. fold l. rewrite rel_root by done.
    case_bool_decide as Hl0; [by apply leads_ret|]. eapply leads_mono; [apply leads_MkdirAll; [done|done|done|]|].
    + unfold open_to in Ho. rewrite !andb_true_iff, !negb_true_iff in Ho. apply Ho.
    + intros r t' (S1 & G1 & _). auto.
  - unfold RemoveAll. apply leads_Relative; [done|]. intros Ho. fold l. rewrite rel_root by done.
    case_bool_decide as Hl0; [by apply leads_fail|]. eapply leads_mono; [by apply leads_removeAllRelative|].
    intros r t' (S1 & P1 & _). split; [done|]. right. by split.
Qed.
End requests.

(** ** Above and below *)

Lemma starts_with_above l k p : starts_with l k = true -> starts_with k p = true -> starts_with l p = true.
Proof. apply starts_with_trans. Qed.

Lemma starts_with_prefix d l k p : starts_with l k = true -> starts_with (d ++ k) p = true -> starts_with (d ++ l) p = true.
Proof.
  intros [j ->]%starts_with_iff H. eapply starts_with_trans; [|exact H]. rewrite app_assoc. apply starts_with_app.
Qed.

Lemma protected_above m l k : starts_with l k = true -> protected m l = false -> protected m k = false.
Proof.
  intros Hlk. unfold protected. induction (protectedPaths m) as [|p ps IH]; [done|]. cbn.
  intros [H1 H2]%orb_false_iff. rewrite IH, orb_false_r by done. apply not_true_is_false. intros H.
  apply not_true_iff_false in H1. apply H1. by eapply starts_with_prefix.
Qed.

Lemma internal_above l k : starts_with l k = true -> internal l = false -> internal k = false.
Proof.
  intros Hlk. unfold internal. rewrite <- !not_true_iff_false. intros H1 H2. apply H1. by eapply starts_with_trans.
Qed.

Lemma internal_below l k : l <> [] -> starts_with k l = true -> internal l = false -> internal k = false.
Proof. intros Hl [j ->]%starts_with_iff. unfold internal. destruct l as [|p l]; [done|].
  cbn [app starts_with]. destruct (l ++ j); by destruct l. Qed.

Lemma in_scope_below m l k : l <> [] -> starts_with k l = true -> in_scope m l = true -> in_scope m k = true.
Proof.
  intros Hl Hk. unfold in_scope. rewrite !orb_true_iff. intros [[H|H]|H]; [by auto| |].
  - by apply bool_decide_eq_true in H.
  - right. apply existsb_exists in H as (p & Hp & H). apply existsb_exists. exists p. split; [done|].
    by eapply starts_with_trans.
Qed.

Lemma open_to_parts m l : open_to m l = true -> internal l = false /\ in_scope m l = true /\ protected m l = false.
Proof. unfold open_to. rewrite !andb_true_iff, !negb_true_iff. by intros [[? ?] ?]. Qed.


(** ** Managers of requests *)

Lemma Abs_proper cwd p : IsAbs cwd = true -> IsAbs (Abs cwd p) = true /\ Abs cwd p = Clean (Abs cwd p).
Proof.
  intros Hc. unfold Abs. destruct (IsAbs p) eqn:E.
  - split; [by apply IsAbs_Clean|]. by rewrite Clean_idemp.
  - split; [by apply IsAbs_PathJoin|]. by rewrite Clean_PathJoin.
Qed.

Lemma New_root cwd root w m w' : New cwd root w = (Ok m, w') -> IsAbs cwd = true ->
  IsAbs (rootPath m) = true /\ scopePrefixes m = [] /\ protectedPaths m = [].
Proof.
  intros E Hc. unfold New, lift in E. destruct (String.eqb _ ""); [done|]. cbv zeta in E.
  apply bind_Ok in E as (? & ? & _ & E). apply bind_Ok in E as (info & ? & _ & E). destruct (negb (IsDir info)); [done|].
  apply bind_Ok in E as (? & ? & _ & E). apply ret_Ok in E as [<- _]. split; [|done]. by apply Abs_proper.
Qed.

Lemma request_scope_configured access m : configured m -> configured (request_scope access m).
Proof.
  intros [H1 H2 H3]. unfold request_scope. destruct access as [a|]; [|done]. destruct (HasPermission _ _); [done|].
  destruct (allowedPrefixes (Some a)) as [|p ps] eqn:E; [done|]. constructor; [done| |done]. cbn [WithScope scopePrefixes].
  rewrite <- E. unfold allowedPrefixes.
  assert (Hw : proper_path "/websites") by (exists ["websites"]; split_and!; [done|by repeat constructor|done]).
  assert (Hb : proper_path "/backups") by (exists ["backups"]; split_and!; [done|by repeat constructor|done]).
  destruct (HasPermission _ PermissionFileScopeWebsites), (HasPermission _ PermissionFileScopeBackups); by repeat constructor.
Qed.

(** The manager of every request is one that the theorems speak of. *)
Lemma managerForRequest_configured cwd base defaultPath development access w m w' :
  IsAbs cwd = true -> (forall absolute, absolute = Abs cwd (Clean (TrimSpace (PathJoin [base; ".ssh"]))) -> parts absolute <> []) ->
  managerForRequest cwd base defaultPath development access w = (Ok m, w') -> configured m.
Proof.
  intros Hc Hb E. unfold managerForRequest in E. cbv zeta in E. destruct (String.eqb _ ""); [done|].
  apply bind_Ok in E as (opened & w1 & E1 & E). apply attempt_Ok in E1.
  apply bind_Ok in E as (opened2 & w2 & E2 & E).
  assert (Hm : forall m0, opened2 = Ok m0 -> IsAbs (rootPath m0) = true /\ scopePrefixes m0 = [] /\ protectedPaths m0 = []).
  { intros m0 ->. destruct opened as [m1|e].
    - apply ret_Ok in E2 as [[= ->] _]. by eapply New_root.
    - destruct (developmentFileRootFallback _ _ _) as [fb|]; [|by apply ret_Ok in E2 as [? _]].
      apply attempt_Ok in E2. by eapply New_root. }
  destruct opened2 as [m0|]; [|done]. destruct (Hm m0 eq_refl) as (R1 & R2 & R3). apply ret_Ok in E as [<- _].
  apply request_scope_configured. constructor; [done|cbn; by rewrite R2|]. cbn [WithProtectedPaths protectedPaths map].
  specialize (Hb _ eq_refl). set (a := Abs cwd (Clean (TrimSpace (PathJoin [base; ".ssh"])))) in *.
  destruct (Abs_proper cwd (Clean (TrimSpace (PathJoin [base; ".ssh"]))) Hc) as [A1 A2]. fold a in A1, A2.
  cbn [List.filter]. destruct (negb (String.eqb a "")); [|constructor]. constructor; [|constructor].
  exists (parts a). split_and!; [done|by apply parts_plain|]. by rewrite <- Clean_abs.
Qed.

(** ** A sample *)

Definition sample_machine : Machine := {| umask := 18; mount_of := fun _ => 0; directory_size := 4096 |}.
#[local] Existing Instance sample_machine.

Definition dir (entries : list (string * node)) : node := DirNode 493 (list_to_map entries).
Definition file (content : string) : node := FileNode 420 content.

(** Websites, keys that are protected, and something in the trash. *)
Definition sample_tree : node := dir [
  ("websites", dir [("site", dir [("index.html", file "hello")])]);
  ("home", dir [("keys", file "secret")]);
  (internalDirectoryName, dir [("files", dir []); ("metadata", dir [])])].

Definition sample_manager (scopes : list string) : Manager := mkManager "/data" scopes ["/data/home/keys"].

Lemma sample_configured scopes : scopes = [] \/ scopes = ["/websites"] -> configured (sample_manager scopes).
Proof.
  intros Hsc. constructor; [done| |].
  - destruct Hsc as [->| ->]; constructor; [|constructor]. exists ["websites"]. split_and!; [done|by repeat constructor|done].
  - constructor; [|constructor]. exists ["data"; "home"; "keys"]. split_and!; [done|by repeat constructor|done].
Qed.

(** A tree is sound when all of its nodes are. *)
Fixpoint all_nodes (fuel : nat) (path : list string) (n : node) : list (list string * label) :=
  (path, label_of n) ::
  match fuel, n with
  | S fuel, DirNode _ entries => flat_map (fun e => all_nodes fuel (path ++ [e.1]) e.2) (map_to_list entries)
  | _, _ => []
  end.

Lemma all_nodes_In fuel path n k lab : (List.length k <= fuel)%nat -> label_at k n = Some lab ->
  In (path ++ k, lab) (all_nodes fuel path n).
Proof.
  revert path n k. induction fuel as [|fuel IH]; intros path n k Hk E.
  - destruct k; [|cbn in Hk; lia]. injection E as <-. left. by rewrite app_nil_r.
  - destruct k as [|x k]; [injection E as <-; left; by rewrite app_nil_r|]. right. unfold label_at in E. cbn [node_at] in E.
    destruct n as [|mode entries|]; try done. destruct (entries !! x) as [c|] eqn:Ec; [|done]. apply in_flat_map.
    exists (x, c). split; [by apply list_elem_of_In, elem_of_map_to_list|]. cbn [fst snd].
    replace (path ++ x :: k) with ((path ++ [x]) ++ k) by (by rewrite <- app_assoc). apply IH; [cbn in Hk; lia|done].
Qed.

Definition sound_entry (e : list string * label) : bool :=
  forallb proper_name e.1 && match e.2 with LLink _ => false | _ => true end.

Lemma sound_check t : is_dir (label_of t) = true -> forallb sound_entry (all_nodes (depth t) [] t) = true -> sound t.
Proof.
  intros Hd Hall. assert (Hin : forall k lab, label_at k t = Some lab -> sound_entry (k, lab) = true).
  { intros k lab E. rewrite forallb_forall in Hall. apply Hall. apply (all_nodes_In (depth t) []); [|done].
    apply label_depth. by rewrite E. }
  constructor.
  - destruct t as [|mode|]; try done. by exists mode.
  - intros k lab E. apply Hin, andb_true_iff in E as [E _]. cbn in E. apply Forall_forall. intros p Hp.
    rewrite forallb_forall in E. apply proper_name_part, E. by apply list_elem_of_In.
  - intros k target E. apply Hin in E. unfold sound_entry in E. cbn in E. by rewrite andb_false_r in E.
Qed.

Lemma sample_sound : sound sample_tree.
Proof. apply sound_check; vm_compute; reflexivity. Qed.


Lemma Relative_accepts_witness :
  configured (sample_manager ["/websites"]) /\ readable "/websites//./site " = true
  /\ Relative (sample_manager ["/websites"]) "/websites//./site " = Ok "websites/site".
Proof.
  assert (Hc : configured (sample_manager ["/websites"])) by (apply sample_configured; by right).
  split; [exact Hc|]. split; [vm_compute; reflexivity|].
  apply (Relative_accepts _ Hc). split_and!; vm_compute; reflexivity.
Defined.

(** ** Where the checks do not reach *)

Definition outcome_of {A} (m : M node A) (t : node) (k : list string) : bool * option label :=
  let '(r, w) := m (World t []) in (is_ok r, label_at k (tables w)).

(** The target of a copy is not checked: neither against the scope, nor against
    the internal directory, nor against the protected paths. *)
Lemma copy_targets_are_unchecked :
  outcome_of (Copy (sample_manager ["/websites"]) "/websites/site" "/" "mine" false) sample_tree ["mine"; "index.html"]
    = (true, Some (LFile 420 "hello"))
  /\ open_to (sample_manager ["/websites"]) ["mine"] = false
  /\ outcome_of (Copy (sample_manager []) "/websites/site" "/" internalDirectoryName true) sample_tree [internalDirectoryName; "files"]
    = (true, None)
  /\ outcome_of (Copy (sample_manager []) "/websites/site/index.html" "/home" "keys" true) sample_tree ["home"; "keys"]
    = (true, Some (LFile 420 "hello")).
Proof. vm_compute. repeat split. Qed.

(** A copy over a directory above its source removes the source first. *)
Lemma copy_over_an_ancestor_loses_it :
  outcome_of (Copy (sample_manager []) "/websites/site" "/" "websites" true) sample_tree ["websites"] = (false, None).
Proof. vm_compute. reflexivity. Qed.

(** A removal looks at its own path only, not at what is protected below. *)
Lemma removal_takes_protected_entries :
  outcome_of (RemoveAll (sample_manager []) "/home") sample_tree ["home"; "keys"] = (true, None).
Proof. vm_compute. reflexivity. Qed.

(** Paths are compared as texts: a link inside of the root leads past the
    protected paths. *)
Lemma links_lead_past_the_checks :
  is_ok (Relative (sample_manager []) "/home/keys") = false
  /\ outcome_of (WriteExistingFile (sample_manager []) "/door/keys" "mine")
       (dir [("home", dir [("keys", file "secret")]); ("door", LinkNode "home")]) ["home"; "keys"]
     = (true, Some (LFile 420 "mine")).
Proof. vm_compute. repeat split. Qed.

(** An account without any of the three scopes is not limited to one. *)
Lemma no_scope_is_every_scope access m : HasPermission (Some access) PermissionFileScopeWebsites = false ->
  HasPermission (Some access) PermissionFileScopeBackups = false -> request_scope (Some access) m = m.
Proof.
  intros H1 H2. unfold request_scope, allowedPrefixes. rewrite H1, H2.
  destruct (HasPermission (Some access) PermissionFileScopeRoot); reflexivity.
Qed.
