(* ===== verification/FileTrash.v ===== *)
(** The trash of the file manager ([internal/services/filemanager/trash.go]):
    what is deleted moves into the internal directory, with a record of where it
    was, and can be restored. On another mount, where a rename is refused, trees
    are copied first.

    The operations hold the lock of the trash, so they do not interleave. The
    identifiers of [uuid] and the JSON of a record are parameters. *)

From stdpp Require Import gmap strings sorting options.
From S2P Require Import Prelude GoStrings GoText GoPath Store GoFiles GoRoot FileManager.
#[local] Open Scope Z_scope.

Definition trashMetadataVersion : Z := 1.
Definition trashFilesDirectory : string := internalDirectoryName +:+ "/files".
Definition trashMetadataDir : string := internalDirectoryName +:+ "/metadata".
Definition maxTrashMetadataSize : Z := Z.shiftl 64 10.
Definition maxTrashEntries : Z := 10000.

Record TrashEntry := mkTrashEntry {
  TE_Version : Z; TE_ID : string; TE_OriginalPath : string; TE_Name : string;
  TE_Size : Z; TE_IsDir : bool; TE_DeletedAt : time; TE_DeletedBy : string
}.

(** What JSON makes of a record. *)
Definition json_entry (e : TrashEntry) : TrashEntry :=
  mkTrashEntry (TE_Version e) (clean_text (TE_ID e)) (clean_text (TE_OriginalPath e)) (clean_text (TE_Name e))
    (TE_Size e) (TE_IsDir e) (TE_DeletedAt e) (clean_text (TE_DeletedBy e)).

(** Encoding of a record, and decoding of the first record of a text, without
    fields that it does not know. *)
Class TrashJSON := {
  encode_entry : TrashEntry -> result string;
  decode_entry : string -> result TrashEntry;
  decode_encoded_entry e : printable (TE_DeletedAt e) -> - 2 ^ 63 <= TE_Size e < 2 ^ 63 ->
    exists text, encode_entry e = Ok text /\ decode_entry text = Ok (json_entry e)
}.

(** [uuid.Parse] followed by [String]: 36 bytes, of hexadecimal digits and
    dashes. *)
Definition uuid_byte (c : ascii) : bool :=
  is_digit c || ((97 <=? byte_of c) && (byte_of c <=? 102)) || Ascii.eqb c "-".

Class UUID := {
  uuid_String : string -> option string;
  uuid_bytes s id : uuid_String s = Some id -> len id = 36 /\ sforall uuid_byte id = true
}.

Definition trashMetadataPath (id : string) : string := PathJoin [trashMetadataDir; id +:+ ".json"].
Definition trashFilePath (id : string) : string := PathJoin [trashFilesDirectory; id].

Section trash.
Context `{!Machine} `{!TrashJSON} `{!UUID}.
Variable m : Manager.

Definition validateTrashID (id : string) : result unit :=
  match uuid_String (TrimSpace id) with
  | Some parsed => if String.eqb parsed id then Ok tt else Fail (Sentinel ErrInvalidName)
  | None => Fail (Sentinel ErrInvalidName)
  end.

(** ** The directories *)

Definition ensure_directory (directory : string) : M node unit :=
  let* made := attempt (Root_Mkdir directory 448) in
  match made with
  | Fail err => if negb (is_exist err) then fail err else ret tt
  | Ok _ => ret tt
  end ;;;
  let* info := Root_Lstat directory in
  if negb (IsDir info) || IsLink info then lift (refused ErrInvalidPath "trash directory is not a safe directory")
  else
    let* file := Root_Open directory in
    File_Chmod file 448.

Definition ensureTrashDirectories : M node unit :=
  for_each ensure_directory [internalDirectoryName; trashFilesDirectory; trashMetadataDir].

(** ** Records *)

Definition writeTrashMetadata (entry : TrashEntry) : M node unit :=
  let* data := lift (encode_entry entry) in
  let metadataPath := trashMetadataPath (TE_ID entry) in
  let* file := Root_OpenFile metadataPath O_NEW 384 in
  let* written := attempt (let* _ := File_Write file data in File_Sync file) in
  match written with
  | Ok _ => ret tt
  | Fail err => let* _ := ignoring (Root_Remove metadataPath) in fail err
  end.

Definition checked_entry (id : string) (entry : TrashEntry) : result TrashEntry :=
  if negb (TE_Version entry =? trashMetadataVersion) || negb (String.eqb (TE_ID entry) id) || IsZero (TE_DeletedAt entry)
  then Fail (ErrorString "invalid trash metadata")
  else
    match Relative m (TE_OriginalPath entry) with
    | Ok relative =>
        if String.eqb relative "." || negb (String.eqb (TE_Name entry) (Base relative))
        then Fail (ErrorString "invalid trash metadata path") else Ok entry
    | Fail _ => Fail (ErrorString "invalid trash metadata path")
    end.

Definition readTrashMetadata (id : string) : M node TrashEntry :=
  let* _ := lift (validateTrashID id) in
  let* file := Root_Open (trashMetadataPath id) in
  let* content := File_Read file in
  let* entry := wrapping "decode trash metadata" (lift (decode_entry (take_bytes maxTrashMetadataSize content))) in
  lift (checked_entry id entry).

(** ** Copies that keep links and permissions *)

Definition copy_trash_link (source target : string) : M node unit :=
  let* sourceParent := Root_Open (Dir source) in
  let* targetParent := Root_Open (Dir target) in
  let* linkTarget := readlinkAt sourceParent (Base source) in
  symlinkAt linkTarget targetParent (Base target).

Definition copy_trash_file (source target : string) (mode : Z) : M node unit :=
  let* input := Root_Open source in
  let* output := Root_OpenFile target O_NEW 384 in
  let* content := File_Read input in
  let* _ := File_Write output content in
  let* _ := File_Sync output in
  File_Chmod output mode.

Fixpoint copy_trash (fuel : nat) (source target : string) : M node unit :=
  let* info := Root_Lstat source in
  if IsLink info then copy_trash_link source target
  else if IsDir info then
    let* _ := Root_Mkdir target (Z.lor (Perm info) 448) in
    let* directory := Root_Open source in
    let* entries := File_ReadDir directory in
    match fuel with
    | O => lift out_of_fuel
    | S fuel =>
        let* _ := for_each (fun child => copy_trash fuel (PathJoin [source; child.1]) (PathJoin [target; child.1])) entries in
        let* targetDirectory := Root_Open target in
        File_Chmod targetDirectory (Perm info)
    end
  else if negb (IsRegular info) then lift (refused ErrUnsupportedType "")
  else copy_trash_file source target (Perm info).

Definition copyTrashRelative (source target : string) : M node unit :=
  let* fuel := tree_depth in copy_trash fuel source target.

(** Clean up with [undo], and report. *)
Definition undoing {A} (text : string) (undo : M node unit) (call : M node A) : M node A :=
  let* done := attempt call in
  match done with
  | Ok a => ret a
  | Fail err => let* _ := ignoring undo in fail (Wrap text err "")
  end.

Definition moveToTrashAcrossMount (source target : string) (entry : TrashEntry) : M node unit :=
  let partial := target +:+ ".partial" in
  let* _ := undoing "copy source into cross-mount trash: " (removeAllRelative partial) (copyTrashRelative source partial) in
  let* _ := undoing "commit cross-mount trash copy: " (removeAllRelative partial) (renameRelativeExclusive partial target) in
  let* _ := undoing "write cross-mount trash metadata: " (removeAllRelative target) (writeTrashMetadata entry) in
  wrapping "remove source after cross-mount trash copy" (removeAllRelative source).

Definition restoreTrashAcrossMount (source target id : string) : M node unit :=
  let temporary := PathJoin [Dir target; ".oneinstack-restore-" +:+ id +:+ ".partial"] in
  let* _ := undoing "copy cross-mount trash entry for restore: " (removeAllRelative temporary) (copyTrashRelative source temporary) in
  let* _ := undoing "commit cross-mount trash restore: " (removeAllRelative temporary) (renameRelativeExclusive temporary target) in
  wrapping "remove trash source after cross-mount restore" (removeAllRelative source).

(** ** Into the trash and back *)

Definition trash_entry (id : string) (now : time) (relative deletedBy : string) (info : node) : TrashEntry :=
  mkTrashEntry trashMetadataVersion id (VirtualPath relative) (Base relative) (i64 (info_size info)) (IsDir info) now (TrimSpace deletedBy).

(** The rename, or what takes its place. *)
Definition into_trash (relative : string) (entry : TrashEntry) : M node unit :=
  let target := trashFilePath (TE_ID entry) in
  let* moved := attempt (renameRelativeExclusive relative target) in
  match moved with
  | Ok _ => ret tt
  | Fail err =>
      if negb (is_cross_device err) then
        let* _ := ignoring (Root_Remove (trashMetadataPath (TE_ID entry))) in fail err
      else
        let* _ := wrapping "prepare cross-mount trash move" (Root_Remove (trashMetadataPath (TE_ID entry))) in
        moveToTrashAcrossMount relative target entry
  end.

(** [id]: of [uuid.NewString]; [now]: of [time.Now]. *)
Definition MoveToTrash (id : string) (now : time) (virtualPath deletedBy : string) : M node TrashEntry :=
  let* _ := ensureTrashDirectories in
  let* relative := lift (Relative m virtualPath) in
  if String.eqb relative "." then fail (Sentinel ErrRootOperation)
  else
    let* info := Root_Lstat relative in
    let entry := trash_entry id now relative deletedBy info in
    let* _ := writeTrashMetadata entry in
    let* _ := into_trash relative entry in
    ret entry.

(** Nothing may be at the place to restore. *)
Definition check_vacant (relative : string) : M node unit :=
  let* found := attempt (Root_Lstat relative) in
  match found with
  | Ok _ => fail (Sentinel ErrExist)
  | Fail err => if negb (is_not_exist err) then fail err else ret tt
  end.

Definition out_of_trash (relative id : string) : M node unit :=
  let source := trashFilePath id in
  let* moved := attempt (renameRelativeExclusive source relative) in
  match moved with
  | Ok _ => ret tt
  | Fail err => if negb (is_cross_device err) then fail err else restoreTrashAcrossMount source relative id
  end.

Definition RestoreTrash (id : string) : M node TrashEntry :=
  let* _ := ensureTrashDirectories in
  let* entry := readTrashMetadata id in
  let* relative := lift (match Relative m (TE_OriginalPath entry) with
                         | Ok relative => Ok relative
                         | Fail err => Fail (Wrap "invalid trash metadata: " err "")
                         end) in
  if String.eqb relative "." then fail (Sentinel ErrRootOperation)
  else
    let* _ := check_vacant relative in
    let parent := Dir relative in
    let* _ := if negb (String.eqb parent ".") then mkdirAllRelative parent 493 else ret tt in
    let* _ := out_of_trash relative (TE_ID entry) in
    let* _ := ignoring (Root_Remove (trashMetadataPath (TE_ID entry))) in
    ret entry.

(** ** Listing and emptying *)

Definition readInternalDirectory (relative : string) : M node (list (string * node)) :=
  let* file := Root_Open relative in File_ReadDir file.

Definition deleteTrashLocked (id : string) : M node unit :=
  let* entry := readTrashMetadata id in
  let* _ := removeAllRelative (trashFilePath (TE_ID entry)) in
  let* removed := attempt (Root_Remove (trashMetadataPath (TE_ID entry))) in
  match removed with
  | Fail err => if negb (is_not_exist err) then fail err else ret tt
  | Ok _ => ret tt
  end.

Definition DeleteTrashPermanently (id : string) : M node unit :=
  let* _ := ensureTrashDirectories in deleteTrashLocked id.

(** The record of one file of the metadata, when it is one and its entry is
    there. *)
Definition list_one (metadataFile : string * node) : M node (option TrashEntry) :=
  if IsDir metadataFile.2 || negb (HasSuffix metadataFile.1 ".json") then ret None
  else
    let id := take_bytes (len metadataFile.1 - 5) metadataFile.1 in
    let* found := attempt (readTrashMetadata id) in
    match found with
    | Fail _ => ret None
    | Ok entry =>
        let* info := attempt (Root_Lstat (trashFilePath id)) in
        match info with
        | Fail _ => ret None
        | Ok info =>
            ret (Some (mkTrashEntry (TE_Version entry) (TE_ID entry) (TE_OriginalPath entry) (TE_Name entry)
              (i64 (info_size info)) (IsDir info) (TE_DeletedAt entry) (TE_DeletedBy entry)))
        end
    end.

Fixpoint list_each (metadata : list (string * node)) (entries : list TrashEntry) : M node (list TrashEntry) :=
  match metadata with
  | [] => ret entries
  | metadataFile :: metadata =>
      if maxTrashEntries <=? Z.of_nat (List.length entries) then ret entries
      else
        let* found := list_one metadataFile in
        list_each metadata (match found with Some e => entries ++ [e] | None => entries end)
  end.

Definition later (a b : TrashEntry) : bool := After (TE_DeletedAt a) (TE_DeletedAt b).

Definition listTrashLocked : M node (list TrashEntry) :=
  let* metadata := readInternalDirectory trashMetadataDir in
  let* entries := list_each metadata [] in
  ret (sort_slice later entries).

Definition ListTrash : M node (list TrashEntry) := let* _ := ensureTrashDirectories in listTrashLocked.

(** The loops that count what they deleted, and stop at the first error. *)
Fixpoint count_each {A} (f : A -> M node bool) (l : list A) (deleted : Z) : M node (Z * result unit) :=
  match l with
  | [] => ret (deleted, Ok tt)
  | a :: l =>
      let* done := attempt (f a) in
      match done with
      | Ok counted => count_each f l (if counted then deleted + 1 else deleted)
      | Fail err => ret (deleted, Fail err)
      end
  end.

Definition CleanupTrashBefore (cutoff : time) : M node (Z * result unit) :=
  let* _ := ensureTrashDirectories in
  let* entries := listTrashLocked in
  count_each (fun entry =>
    if Before (TE_DeletedAt entry) cutoff then let* _ := deleteTrashLocked (TE_ID entry) in ret true else ret false) entries 0.

Definition empty_file (entry : string * node) : M node bool :=
  if negb (is_ok (ValidateName entry.1)) then ret false
  else let* _ := removeAllRelative (PathJoin [trashFilesDirectory; entry.1]) in ret true.

Definition empty_metadata (entry : string * node) : M node bool :=
  if negb (is_ok (ValidateName entry.1)) then ret false
  else
    let* removed := attempt (Root_Remove (PathJoin [trashMetadataDir; entry.1])) in
    match removed with
    | Fail err => if negb (is_not_exist err) then fail err else ret false
    | Ok _ => ret false
    end.

Definition EmptyTrash : M node (Z * result unit) :=
  let* _ := ensureTrashDirectories in
  let* files := readInternalDirectory trashFilesDirectory in
  let* emptied := count_each empty_file files 0 in
  match emptied with
  | (deleted, Fail err) => ret (deleted, Fail err)
  | (deleted, Ok _) =>
      let* metadata := attempt (readInternalDirectory trashMetadataDir) in
      match metadata with
      | Fail err => ret (deleted, Fail err)
      | Ok metadata => count_each empty_metadata metadata deleted
      end
  end.
End trash.
