(* ===== verification/TrashSafety.v ===== *)
(** What the trash keeps: nothing is lost on the way in or out, whatever calls
    fail, and what was deleted comes back as it was. *)

From stdpp Require Import gmap strings sorting options.
From S2P Require Import Prelude GoStrings GoText GoPath Store GoFiles GoRoot RootTrees FileManager FileSafety FileTrash Lines.
#[local] Open Scope Z_scope.

(** ** The places of the trash *)

Definition trash_root : list string := [internalDirectoryName].
Definition trash_files : list string := [internalDirectoryName; "files"].
Definition trash_metadata : list string := [internalDirectoryName; "metadata"].
Definition trash_dirs : list (list string) := [trash_root; trash_files; trash_metadata].

Definition file_place (id : string) : list string := trash_files ++ [id].
Definition partial_place (id : string) : list string := trash_files ++ [id +:+ ".partial"].
Definition record_place (id : string) : list string := trash_metadata ++ [id +:+ ".json"].

(** An identifier as [uuid] writes it. *)
Definition uuid_text (id : string) : Prop := len id = 36 /\ sforall uuid_byte id = true.

Lemma uuid_free id : uuid_text id -> free_of slash id.
Proof.
  intros [_ H]. eapply sforall_impl; [|exact H]. intros c Hc. apply negb_true_iff, Ascii.eqb_neq. by intros ->.
Qed.

Lemma uuid_plain id : uuid_text id -> plain_part id.
Proof. intros H. apply long_plain_name; [by apply uuid_free|]. destruct H. lia. Qed.

Lemma uuid_suffix id s : uuid_text id -> free_of slash s -> 2 <= len s -> plain_part (id +:+ s).
Proof. intros H Hs Hl. apply plain_suffix; [by apply uuid_plain|done..]. Qed.

Lemma uuid_ascii id : uuid_text id -> valid_utf8 id = true.
Proof.
  intros [_ H]. apply ascii_valid. eapply sforall_impl; [|exact H]. intros c. unfold uuid_byte, is_digit.
  rewrite !orb_true_iff, !andb_true_iff, !Z.leb_le, Ascii.eqb_eq. intros [[?|?]| ->]; [apply Z.ltb_lt; lia..|done].
Qed.

Lemma trash_plain : Forall plain_part trash_files /\ Forall plain_part trash_metadata.
Proof. split; by repeat constructor. Qed.

Section places.
Variable id : string.
Hypothesis good : uuid_text id.

Lemma file_place_plain : Forall plain_part (file_place id).
Proof using good. apply plain_snoc; [apply trash_plain|by apply uuid_plain]. Qed.

Lemma partial_place_plain : Forall plain_part (partial_place id).
Proof using good. apply plain_snoc; [apply trash_plain|by apply uuid_suffix]. Qed.

Lemma record_place_plain : Forall plain_part (record_place id).
Proof using good. apply plain_snoc; [apply trash_plain|by apply uuid_suffix]. Qed.

Lemma trashFilePath_rel : trashFilePath id = rel (file_place id).
Proof using good. apply (PathJoin_rel trash_files); [apply trash_plain|by apply uuid_plain]. Qed.

Lemma trashMetadataPath_rel : trashMetadataPath id = rel (record_place id).
Proof using good. apply (PathJoin_rel trash_metadata); [apply trash_plain|by apply uuid_suffix]. Qed.

Lemma partial_rel : trashFilePath id +:+ ".partial" = rel (partial_place id).
Proof using good.
  rewrite trashFilePath_rel. unfold file_place, partial_place.
  rewrite !rel_snoc by (first [done | by apply file_place_plain | by apply partial_place_plain]). by rewrite !sapp_assoc.
Qed.
End places.

Lemma file_not_partial id : strip (file_place id) (partial_place id) = None /\ strip (partial_place id) (file_place id) = None.
Proof.
  assert (H : id <> id +:+ ".partial").
  { intros E. apply (f_equal String.length) in E. rewrite slength_app in E. cbn in E. lia. }
  unfold file_place, partial_place. cbn. destruct (String.eqb_spec id (id +:+ ".partial")); [done|].
  by destruct (String.eqb_spec (id +:+ ".partial") id); [congruence|].
Qed.

(** ** Changes beyond some places *)

(** Other than at [ds], and at or below [ls], all is as before. *)
Definition beyond (ds ls : list (list string)) (t t' : node) : Prop :=
  forall k, k ∉ ds -> Forall (fun l => starts_with k l = false) ls -> label_at k t' = label_at k t.

Lemma beyond_refl ds ls t : beyond ds ls t t.
Proof. by intros k _ _. Qed.

Lemma beyond_trans ds ls t1 t2 t3 : beyond ds ls t1 t2 -> beyond ds ls t2 t3 -> beyond ds ls t1 t3.
Proof. intros H1 H2 k Hd Hl. by rewrite H2, H1. Qed.

Lemma beyond_weaken ds ls ds' ls' t t' : ds ⊆ ds' -> ls ⊆ ls' -> beyond ds ls t t' -> beyond ds' ls' t t'.
Proof.
  intros Hd Hl H k Hk Hf. apply H; [set_solver|]. apply Forall_forall. intros l Hin. eapply Forall_forall in Hf; [exact Hf|].
  by apply Hl.
Qed.

Lemma pruned_beyond l t t' : pruned l t t' -> beyond [] [l] t t'.
Proof. intros H k _ [Hk _]%Forall_cons. by eapply pruned_same. Qed.

Lemma relabelled_beyond l v t t' : relabelled l v t t' -> beyond [] [l] t t'.
Proof.
  intros H k _ [Hk _]%Forall_cons. eapply relabelled_other; [done|]. intros ->. by rewrite starts_with_refl in Hk.
Qed.

Lemma relocated_beyond s d t t' : relocated s d t t' -> beyond [] [s; d] t t'.
Proof.
  intros H k _ [Hs [Hd _]%Forall_cons]%Forall_cons. rewrite (H k). apply strip_None in Hs, Hd. by rewrite Hd, Hs.
Qed.

Lemma beyond_at ds ls t t' k : beyond ds ls t t' -> k ∉ ds -> Forall (fun l => starts_with k l = false) ls ->
  label_at k t' = label_at k t.
Proof. intros H. apply H. Qed.

(** All of what is at a place. *)
Definition same_tree (l1 : list string) (t1 : node) (l2 : list string) (t2 : node) : Prop :=
  forall j, label_at (l1 ++ j) t1 = label_at (l2 ++ j) t2.

Lemma same_tree_refl l t : same_tree l t l t.
Proof. by intros j. Qed.

Lemma same_tree_trans l1 t1 l2 t2 l3 t3 : same_tree l1 t1 l2 t2 -> same_tree l2 t2 l3 t3 -> same_tree l1 t1 l3 t3.
Proof. intros H1 H2 j. by rewrite H1. Qed.

Lemma same_tree_root l1 t1 l2 t2 : same_tree l1 t1 l2 t2 -> label_at l1 t1 = label_at l2 t2.
Proof. intros H. specialize (H []). by rewrite !app_nil_r in H. Qed.

Lemma strip_apart l k j : strip l k = None -> strip k l = None -> starts_with (l ++ j) k = false.
Proof.
  intros H1 H2. apply not_true_is_false. intros [i E]%starts_with_iff. symmetry in E. by eapply strip_both in E.
Qed.

Lemma beyond_tree ds ls t t' l : beyond ds ls t t' -> (forall j, l ++ j ∉ ds) ->
  Forall (fun k => strip l k = None /\ strip k l = None) ls -> same_tree l t' l t.
Proof.
  intros H Hd Hl j. apply H; [apply Hd|]. eapply Forall_impl; [exact Hl|]. intros k [H1 H2]. by apply strip_apart.
Qed.

Lemma relocated_tree s d t t' : relocated s d t t' -> same_tree d t' s t.
Proof. intros H j. rewrite (H (d ++ j)). by rewrite strip_app. Qed.

Lemma relocated_gone s d t t' j : relocated s d t t' -> strip s d = None -> strip d s = None -> label_at (s ++ j) t' = None.
Proof.
  intros H H1 H2. rewrite (H (s ++ j)), strip_app. destruct (strip d (s ++ j)) as [i|] eqn:E; [|done].
  apply strip_Some in E. exfalso. by eapply strip_both in E.
Qed.

Lemma relocated_sound s d t t' : relocated s d t t' -> sound t -> s <> [] -> d <> [] -> Forall plain_part d ->
  Forall plain_part s -> sound t'.
Proof.
  intros H Hs Hn Hdn Hd Hsp. constructor.
  - destruct (sound_root t Hs) as [m Hm]. exists m. rewrite (H []). destruct d; [done|]. by destruct s.
  - intros k lab E. rewrite (H k) in E. destruct (strip d k) as [j|] eqn:Ed.
    + apply strip_Some in Ed as ->. apply (sound_names t Hs), Forall_app in E as [_ Hj]. by apply Forall_app.
    + destruct (strip s k); [done|]. by eapply sound_names.
  - intros k target E. rewrite (H k) in E. destruct (strip d k); [|destruct (strip s k); [done|]];
      by eapply (sound_links t Hs) in E.
Qed.

Definition parted (l k : list string) : Prop := strip l k = None /\ strip k l = None.

Lemma parted_app l k i j : parted l k -> parted (l ++ i) (k ++ j).
Proof.
  intros [H1 H2]. split.
  - destruct (strip_cases (l ++ i) (k ++ j)) as [[x E]|]; [|done]. rewrite <- app_assoc in E. symmetry in E. by eapply strip_both in E.
  - destruct (strip_cases (k ++ j) (l ++ i)) as [[x E]|]; [|done]. rewrite <- app_assoc in E. symmetry in E. by eapply strip_both in E.
Qed.

Lemma parted_sym l k : parted l k -> parted k l.
Proof. by intros []. Qed.

Lemma parted_siblings l a b : a <> b -> parted (l ++ [a]) (l ++ [b]).
Proof.
  intros Hne. induction l as [|p l [H1 H2]].
  - split; cbn; [by destruct (String.eqb_spec a b)|by destruct (String.eqb_spec b a); congruence].
  - split; cbn; by rewrite String.eqb_refl.
Qed.

Lemma beyond_parted l k t t' : beyond [] [k] t t' -> parted l k -> same_tree l t' l t.
Proof. intros H Hp. apply (beyond_tree [] [k]); [done|set_solver|by apply Forall_singleton]. Qed.

Lemma beyond_below l j t t' : beyond [] [l ++ j] t t' -> beyond [] [l] t t'.
Proof.
  intros H k Hk [Hl _]%Forall_cons. apply H; [done|]. apply Forall_singleton. apply not_true_is_false.
  intros E. assert (starts_with k l = true) by (eapply starts_with_trans; [exact E|apply starts_with_app]). congruence.
Qed.

Lemma beyond_above l p t t' : beyond [] [l ++ [p]] t t' -> label_at l t' = label_at l t.
Proof. intros H. apply H; [set_solver|]. apply Forall_singleton, starts_longer. Qed.

Lemma same_tree_app l1 t1 l2 t2 j : same_tree l1 t1 l2 t2 -> same_tree (l1 ++ j) t1 (l2 ++ j) t2.
Proof. intros H i. rewrite <- !app_assoc. apply H. Qed.

Lemma shallow_same fuel l t t' : same_tree l t' l t -> shallow fuel l t -> shallow fuel l t'.
Proof. intros H Hs j. rewrite (H j). apply Hs. Qed.

Lemma parted_internal l k : l <> [] -> internal l = false -> internal k = true -> parted l k.
Proof.
  unfold internal. intros Hl H1 [j ->]%starts_with_iff. destruct l as [|p l]; [done|].
  assert (Hp : p <> internalDirectoryName).
  { intros ->. cbn in H1. by destruct l. }
  split; cbn [app strip].
  - by rewrite (proj2 (String.eqb_neq _ _)).
  - by rewrite (proj2 (String.eqb_neq _ _)) by congruence.
Qed.

Lemma parted_places id : parted (file_place id) (partial_place id) /\ parted (file_place id) (record_place id)
  /\ parted (partial_place id) (record_place id).
Proof. split_and!; [apply file_not_partial|by split..]. Qed.

(** ** The directories of the trash *)

Section trash_calls.
Context `{!Machine} (q : bool).
Implicit Types (t : node) (l : list string).

Lemma leads_secure_directory l t t0 : sound t -> Forall plain_part l -> l <> [] -> label_at l t <> None ->
  (forall k, k <> l -> label_at k t = label_at k t0) -> (dir_at l t <-> dir_at l t0 \/ label_at l t0 = None) ->
  leads q (let* info := Root_Lstat (rel l) in
           if negb (IsDir info) || IsLink info then lift (refused ErrInvalidPath "trash directory is not a safe directory")
           else let* file := Root_Open (rel l) in File_Chmod file 448) t
    (fun r t' => sound t' /\ (forall k, k <> l -> label_at k t' = label_at k t0) /\
       match r with Ok _ => dir_at l t' | Fail _ => q = false \/ ~ (dir_at l t0 \/ label_at l t0 = None) end).
Proof using Type.
  intros Hs Hl Hn Hlab Hk Hd. apply leads_bind, leads_Lstat; [done|done| | |done].
  { intros Hq text. auto. }
  intros n Hnode. assert (Hlab' := label_at_node _ _ _ Hnode).
  destruct (negb (IsDir n) || IsLink n) eqn:E.
  - apply leads_lift. split_and!; [done|done|right]. rewrite <- Hd. intros (m & e & E')%dir_node. rewrite Hnode in E'.
    injection E' as ->. done.
  - apply orb_false_iff in E as [E _]. assert (Hdir : dir_at l t) by (apply dir_node; destruct n; try done; eauto).
    apply leads_bind, leads_Open; [done|done| | |done]; [intros Hq text; auto|]. intros _ _.
    eapply leads_File_Chmod; [done|exact Hlab'|done|intros Hq text; auto|].
    intros t' Hr. destruct n as [|m0 es|]; [done| |done]. cbn [label_of with_mode] in Hr. split_and!.
    + eapply relabelled_sound; [exact Hr|done..].
    + intros k Hkl. by rewrite (relabelled_other _ _ _ _ _ Hr Hkl), Hk.
    + eexists. by eapply relabelled_at.
Qed.

Lemma leads_ensure_directory p x t : sound t -> Forall plain_part (p ++ [x]) -> dir_at p t ->
  leads q (ensure_directory (rel (p ++ [x]))) t (fun r t' => sound t' /\
    (forall k, k <> p ++ [x] -> label_at k t' = label_at k t) /\
    match r with Ok _ => dir_at (p ++ [x]) t'
    | Fail _ => q = false \/ ~ (dir_at (p ++ [x]) t \/ label_at (p ++ [x]) t = None) end).
Proof using Type.
  intros Hs Hl Hp. assert (Hn : p ++ [x] <> []) by (by destruct p). set (l := p ++ [x]) in *.
  unfold ensure_directory. apply leads_bind, leads_attempt, leads_Mkdir; [done|done| | | |].
  - intros Hq text. apply leads_bind, leads_fail. auto.
  - intros t1 Hno Hr _. apply leads_bind, leads_ret.
    apply leads_secure_directory; [|done|done|by rewrite (relabelled_at _ _ _ _ Hr)| |].
    + by eapply relabelled_sound.
    + intros k Hk. by eapply relabelled_other.
    + split; [auto|]. intros _. eexists. by eapply relabelled_at.
  - intros e Hlab He. apply leads_bind. rewrite He. cbn [negb]. apply leads_ret.
    apply leads_secure_directory; [done..|]. split; [auto|]. by intros [|].
  - intros e _ Hd. unfold l in Hd. by rewrite removelast_last in Hd.
Qed.

(** The trash is a directory with two others, or is not there yet. *)
Definition trash_fits t : Prop := Forall (fun d => dir_at d t \/ label_at d t = None) trash_dirs.

Lemma leads_ensure t : sound t ->
  leads q ensureTrashDirectories t (fun r t' => sound t' /\ beyond trash_dirs [] t t' /\
    match r with Ok _ => Forall (fun d => dir_at d t') trash_dirs | Fail _ => q = false \/ ~ trash_fits t end).
Proof using Type.
  intros Hs. unfold ensureTrashDirectories. cbn [for_each].
  assert (Hpl : Forall (Forall plain_part) trash_dirs) by (by repeat constructor).
  change internalDirectoryName with (rel ([] ++ [internalDirectoryName])).
  apply leads_bind. eapply leads_mono; [apply leads_ensure_directory; [done|by repeat constructor|by apply sound_root]|].
  change ([] ++ [internalDirectoryName]) with trash_root. intros r1 t1 (S1 & K1 & R1).
  assert (B1 : beyond trash_dirs [] t t1) by (intros k Hk _; apply K1; set_solver).
  destruct r1 as [u|e]; [|split_and!; [done..|destruct R1 as [|R1]; [by left|right]; intros [? _]%Forall_cons; done]].
  change trashFilesDirectory with (rel (trash_root ++ ["files"])).
  apply leads_bind. eapply leads_mono; [apply leads_ensure_directory; [done|by repeat constructor|done]|].
  change (trash_root ++ ["files"]) with trash_files. intros r2 t2 (S2 & K2 & R2).
  assert (B2 : beyond trash_dirs [] t t2).
  { eapply beyond_trans; [exact B1|]. intros k Hk _. apply K2. set_solver. }
  assert (K12 : label_at trash_files t1 = label_at trash_files t) by (by apply K1).
  destruct r2 as [u2|e].
  2:{ split_and!; [done..|]. destruct R2 as [|R2]; [by left|right]. unfold dir_at in R2. rewrite K12 in R2.
      intros [_ [? _]%Forall_cons]%Forall_cons. done. }
  change trashMetadataDir with (rel (trash_root ++ ["metadata"])).
  assert (D2 : dir_at trash_root t2) by (unfold dir_at; by rewrite K2).
  apply leads_bind. eapply leads_mono; [apply leads_ensure_directory; [done|by repeat constructor|done]|].
  change (trash_root ++ ["metadata"]) with trash_metadata. intros r3 t3 (S3 & K3 & R3).
  assert (B3 : beyond trash_dirs [] t t3).
  { eapply beyond_trans; [exact B2|]. intros k Hk _. apply K3. set_solver. }
  assert (K13 : label_at trash_metadata t2 = label_at trash_metadata t) by (by rewrite K2, K1).
  destruct r3 as [u3|e].
  - apply leads_ret. split_and!; [done..|]. apply Forall_cons; split; [|apply Forall_cons; split; [|by apply Forall_singleton]].
    + unfold dir_at. by rewrite K3.
    + unfold dir_at. by rewrite K3.
  - split_and!; [done..|]. destruct R3 as [|R3]; [by left|right]. unfold dir_at in R3. rewrite K13 in R3.
    intros [_ [_ [? _]%Forall_cons]%Forall_cons]%Forall_cons. done.
Qed.

(** ** Records *)

Context `{!TrashJSON}.

Lemma leads_write_record entry t : sound t -> uuid_text (TE_ID entry) -> dir_at trash_metadata t ->
  leads q (writeTrashMetadata entry) t (fun r t' => sound t' /\ beyond [] [record_place (TE_ID entry)] t t' /\
    match r with
    | Ok _ => exists mode text, encode_entry entry = Ok text /\ label_at (record_place (TE_ID entry)) t' = Some (LFile mode text)
    | Fail _ => q = false \/ label_at (record_place (TE_ID entry)) t <> None \/ (forall text, encode_entry entry <> Ok text)
    end).
Proof using Type.
  intros Hs Hid Hd. unfold writeTrashMetadata. rewrite trashMetadataPath_rel by done.
  assert (Hl := record_place_plain _ Hid). set (l := record_place (TE_ID entry)) in *.
  assert (Hl0 : l <> []) by done.
  apply leads_bind, leads_lift. destruct (encode_entry entry) as [text|e] eqn:Ee.
  2:{ split_and!; [done|apply beyond_refl|]. by right; right. }
  apply leads_bind, leads_OpenNew; [done|done| | | |].
  - intros Hq s. split_and!; [done|apply beyond_refl|by left].
  - intros t1 Hno R1 _. assert (S1 : sound t1) by (by eapply relabelled_sound).
    assert (Hany : forall v t', relabelled l v t t' -> beyond [] [l] t t') by (intros; by eapply relabelled_beyond).
    apply leads_bind, leads_attempt.
    apply leads_mono with (P := fun r t' => match r with
      | Ok _ => relabelled l (Some (LFile (masked 384) text)) t t'
      | Fail _ => q = false /\ exists c, relabelled l (Some (LFile (masked 384) c)) t t' end).
    + apply leads_bind. eapply leads_File_Write; [by eapply relabelled_at|done|intros Hq s; by split; [|eexists]|].
      intros t2 R2. assert (R12 : relabelled l (Some (LFile (masked 384) ("" +:+ text))) t t2).
      { intros k. rewrite (R2 k), (R1 k). by destruct (decide (k = l)). }
      apply leads_File_Sync; [intros Hq s; by split; [|eexists]|done].
    + intros r t2 R2. destruct r as [u|e].
      * apply leads_ret. split_and!; [by eapply relabelled_sound|by eapply Hany|]. eexists _, _. split; [done|].
        by eapply relabelled_at.
      * destruct R2 as [-> [c R2]]. assert (S2 : sound t2) by (by eapply relabelled_sound).
        apply leads_bind, leads_ignoring, leads_Remove; [done..| | | |].
        -- intros _ s. apply leads_fail. split_and!; [done|by eapply Hany|by left].
        -- intros t3 _ _ R3. apply leads_fail. split_and!; [by eapply relabelled_sound| |by left].
           eapply beyond_trans; [by eapply Hany|by eapply relabelled_beyond].
        -- intros E. by rewrite (relabelled_at _ _ _ _ R2) in E.
        -- intros e' _ _. apply leads_fail. split_and!; [done|by eapply Hany|by left].
  - intros e Hthere _. split_and!; [done|apply beyond_refl|by right; left].
  - intros e _ Hnd. exfalso. apply Hnd. unfold l, record_place. by rewrite removelast_last.
Qed.

(** ** Renames and clean-ups *)

Lemma leads_renameRelative a x b y t : sound t -> Forall plain_part (a ++ [x]) -> Forall plain_part (b ++ [y]) ->
  leads q (renameRelativeExclusive (rel (a ++ [x])) (rel (b ++ [y]))) t (fun r t' =>
    match r with
    | Ok _ => sound t' /\ relocated (a ++ [x]) (b ++ [y]) t t' /\ strip (a ++ [x]) (b ++ [y]) = None
        /\ strip (b ++ [y]) (a ++ [x]) = None
    | Fail e => t' = t /\ (q = true -> valid_utf8 (rel (a ++ [x])) = true -> valid_utf8 (rel (b ++ [y])) = true -> dir_at b t ->
        label_at (a ++ [x]) t <> None -> label_at (b ++ [y]) t = None -> strip (a ++ [x]) (b ++ [y]) = None ->
        is_cross_device e = true /\ mount_of a <> mount_of b)
    end).
Proof using Type.
  intros Hs Ha Hb. assert (Hax : Forall plain_part a /\ plain_part x).
  { apply Forall_app in Ha as [? Hx]. split; [done|]. by apply Forall_cons in Hx as [? _]. }
  assert (Hby : Forall plain_part b /\ plain_part y).
  { apply Forall_app in Hb as [? Hy]. split; [done|]. by apply Forall_cons in Hy as [? _]. }
  destruct Hax as [Hap Hx], Hby as [Hbp Hy]. unfold renameRelativeExclusive.
  rewrite !ValidPath_rel, !rel_root by done. rewrite !bool_decide_eq_false_2, !orb_false_r by (by destruct a, b).
  destruct (valid_utf8 (rel (a ++ [x]))) eqn:Va; [|apply leads_fail; by split]. cbn [negb orb].
  destruct (valid_utf8 (rel (b ++ [y]))) eqn:Vb; [|apply leads_fail; by split]. cbn [negb orb].
  rewrite !Dir_rel, !Base_rel by done.
  apply leads_bind, leads_Open; [done|done|by intros -> ?| |].
  2:{ intros Hno e _. split; [done|]. intros _ _ _ _ Hlab. by rewrite no_label_below in Hlab. }
  intros na Hna. apply leads_bind, leads_Open; [done|done|by intros -> ?| |].
  2:{ intros Hno e _. split; [done|]. intros _ _ _ [m Hd]. congruence. }
  intros nb Hnb. apply leads_bind, (leads_File_Stat q a na _ _ Hna); [by intros -> ?|].
  apply leads_bind, (leads_File_Stat q b nb _ _ Hnb); [by intros -> ?|].
  destruct (IsDir na) eqn:Da; cbn [negb orb].
  2:{ apply leads_fail. split; [done|]. intros _ _ _ _ Hlab. exfalso. apply Hlab, leaf_below.
      eapply not_dir_at; [exact Hna|]. by destruct na. }
  destruct (IsDir nb) eqn:Db; cbn [negb orb].
  2:{ apply leads_fail. split; [done|]. intros _ _ _ Hd. exfalso. revert Hd. eapply not_dir_at; [exact Hnb|]. by destruct nb. }
  assert (Hdb : dir_at b t) by (apply dir_node; destruct nb; try done; eauto).
  apply leads_rename; [by intros -> ?|done| | |].
  - intros t' _ Hsrc Hdst Hst Hr. assert (Hts : strip (b ++ [y]) (a ++ [x]) = None).
    { destruct (strip_cases (b ++ [y]) (a ++ [x])) as [[j Ej]|]; [|done]. by rewrite Ej, no_label_below in Hsrc. }
    split_and!; try done. eapply relocated_sound; [exact Hr|done|by destruct a|by destruct b|done..].
  - intros e He Hm. by split.
  - intros e He Hm Hor. split; [done|]. intros _ _ _ _ H1 H2 H3. by destruct Hor as [|[|]].
Qed.

Lemma leads_undoing {A} text undo (call : M node A) t (Q : result A -> node -> Prop) :
  leads q call t (fun r t' => match r with
    | Ok a => Q (Ok a) t'
    | Fail e => leads q undo t' (fun _ t'' => Q (Fail (Wrap text e "")) t'')
    end) -> leads q (undoing text undo call) t Q.
Proof using Type.
  intros Hc. unfold undoing. apply leads_bind, leads_attempt. eapply leads_mono; [exact Hc|].
  intros [a|e] t' H1; [by apply leads_ret|]. apply leads_bind, leads_ignoring. eapply leads_mono; [exact H1|].
  intros r t'' H2. by apply leads_fail.
Qed.

(** ** Copies *)

Definition copied s d t (r : result unit) t' : Prop :=
  sound t' /\ beyond [] [d] t t' /\
  match r with
  | Ok _ => same_tree d t' s t
  | Fail _ => q = false \/ label_at d t <> None \/ label_at s t = None
  end.

Lemma leads_copy_trash_file s d mode c t : sound t -> Forall plain_part s -> Forall plain_part d -> d <> [] ->
  strip d s = None -> label_at s t = Some (LFile mode c) -> dir_at (removelast d) t ->
  leads q (copy_trash_file (rel s) (rel d) mode) t (copied s d t).
Proof using Type.
  intros Hs Hps Hpd Hd Hds Hlab Hdir. unfold copy_trash_file. destruct (label_node _ _ _ Hlab) as (n & Hn & _).
  assert (Hsd : s <> d) by (intros ->; rewrite <- (app_nil_r d) in Hds at 2; by rewrite strip_app in Hds).
  assert (Hstop : forall v t', relabelled d (Some (LFile v c)) t t' \/ relabelled d (Some (LFile v "")) t t' ->
    q = false -> forall e, copied s d t (Fail e) t').
  { intros v t' [Hr|Hr] Hq e; (split_and!; [by eapply relabelled_sound|by eapply relabelled_beyond|by left]). }
  apply leads_bind, leads_Open; [done|done| | |by intros E; congruence].
  { intros Hq text. split_and!; [done|apply beyond_refl|by left]. }
  intros _ _. apply leads_bind, leads_OpenNew; [done|done| | | |].
  { intros Hq text. split_and!; [done|apply beyond_refl|by left]. }
  2:{ intros e Hthere _. split_and!; [done|apply beyond_refl|by right; left]. }
  2:{ intros e _ Hnd. done. }
  intros t1 Hno R1 _. apply leads_bind, (leads_File_Read q s mode c); [by rewrite (relabelled_other _ _ _ _ _ R1)| |].
  { intros Hq text. by eapply Hstop; [right|]. }
  apply leads_bind. eapply leads_File_Write; [by eapply relabelled_at|done| |].
  { intros Hq text. by eapply Hstop; [right|]. }
  intros t2 R2. assert (R12 : relabelled d (Some (LFile (masked 384) c)) t t2).
  { intros k. rewrite (R2 k), (R1 k). by destruct (decide (k = d)). }
  apply leads_bind, leads_File_Sync. { intros Hq text. by eapply Hstop; [left|]. }
  eapply leads_File_Chmod; [by eapply relabelled_sound|by eapply relabelled_at|done| |].
  { intros Hq text. by eapply Hstop; [left|]. }
  intros t3 R3. cbn [with_mode] in R3. assert (R13 : relabelled d (Some (LFile mode c)) t t3).
  { intros k. rewrite (R3 k), (R12 k). by destruct (decide (k = d)). }
  split_and!; [by eapply relabelled_sound|by eapply relabelled_beyond|]. intros j. destruct j as [|p j].
  - rewrite !app_nil_r, Hlab. by eapply relabelled_at.
  - rewrite (relabelled_other _ _ _ _ _ R13), no_label_below, leaf_below; [done| |done|].
    + intros [m Hm]. congruence.
    + intros E. apply (f_equal List.length) in E. rewrite length_app in E. cbn in E. lia.
Qed.

(** The loop over the entries of a directory. *)
Lemma leads_copy_entries (copy : string -> string -> M node unit) s d t0 t1 entries (Q : result unit -> node -> Prop) :
  sound t0 -> sound t1 -> Forall plain_part s -> Forall plain_part d -> parted s d ->
  lists s t0 entries -> beyond [] [d] t0 t1 -> dir_at d t1 -> (forall p j, label_at (d ++ p :: j) t1 = None) ->
  (forall p t2, plain_part p -> sound t2 -> beyond [] [d] t0 t2 -> dir_at d t2 ->
     leads q (copy (rel (s ++ [p])) (rel (d ++ [p]))) t2 (copied (s ++ [p]) (d ++ [p]) t2)) ->
  (forall t2, sound t2 -> beyond [] [d] t0 t2 -> dir_at d t2 ->
     (forall p j, label_at (d ++ p :: j) t2 = label_at (s ++ p :: j) t0) -> Q (Ok tt) t2) ->
  (q = false -> forall e t2, sound t2 -> beyond [] [d] t0 t2 -> Q (Fail e) t2) ->
  leads q (for_each (fun child => copy (PathJoin [rel s; child.1]) (PathJoin [rel d; child.1])) entries) t1 Q.
Proof using Type.
  intros Hs0 Hs1 Hps Hpd Hsd Hin Hb1 Hd1 Hn1 Hcopy Hok Hfail. destruct Hin as [Hnd Hin].
  apply (leads_for_each q) with (I := fun done t2 => sound t2 /\ beyond [] [d] t0 t2 /\ dir_at d t2 /\
    (forall p, p ∈ map fst done -> same_tree (d ++ [p]) t2 (s ++ [p]) t0) /\
    (forall p j, p ∉ map fst done -> label_at (d ++ p :: j) t2 = None)).
  - split_and!; [done..|by intros p Hp%elem_of_nil|by intros p j _].
  - intros done x rest t2 Ee (S2 & B2 & D2 & C2 & N2).
    assert (Hx : plain_part x.1).
    { eapply (listed_plain s t0 entries); [done|by split|]. rewrite Ee, map_app. apply elem_of_app. right. by left. }
    assert (Hx0 : label_at (s ++ [x.1]) t0 <> None).
    { apply Hin. rewrite Ee, map_app. apply elem_of_app. right. by left. }
    assert (Hfresh : x.1 ∉ map fst done).
    { rewrite Ee, map_app in Hnd. apply NoDup_app in Hnd as (_ & Hnd & _). intros Hd'. apply (Hnd _ Hd'). by left. }
    assert (T2 : same_tree s t2 s t0) by (by eapply beyond_parted).
    rewrite !PathJoin_rel by done. eapply leads_mono; [by apply Hcopy|]. intros r t3 (S3 & B3 & R3).
    assert (B3' : beyond [] [d] t0 t3) by (eapply beyond_trans; [exact B2|by eapply beyond_below]).
    destruct r as [u|e].
    + split_and!; [done|done| | |].
      * destruct D2 as [m D2]. exists m. rewrite <- D2. by eapply beyond_above.
      * intros p Hp. rewrite map_app in Hp. apply elem_of_app in Hp as [Hp|Hp].
        -- eapply same_tree_trans; [|by apply C2]. eapply beyond_parted; [exact B3|]. apply parted_siblings.
           intros ->. done.
        -- apply list_elem_of_singleton in Hp as ->. eapply same_tree_trans; [exact R3|]. by apply same_tree_app.
      * intros p j Hp. rewrite map_app in Hp. apply not_elem_of_app in Hp as [Hp Hpx].
        rewrite <- (N2 p j Hp). apply B3; [set_solver|]. apply Forall_singleton.
        replace (d ++ p :: j) with ((d ++ [p]) ++ j) by (by rewrite <- app_assoc).
        assert (Hpar : parted (d ++ [p]) (d ++ [x.1])).
        { apply parted_siblings. intros ->. apply Hpx. by left. }
        apply strip_apart; apply Hpar.
    + apply Hfail; [|done..]. destruct R3 as [|[R3|R3]]; [done|..]; exfalso.
      * apply R3. by apply N2.
      * apply Hx0. rewrite <- R3. symmetry. apply same_tree_root, same_tree_app, T2.
  - intros t2 (S2 & B2 & D2 & C2 & N2). apply Hok; [done..|]. intros p j.
    assert (Ed : d ++ p :: j = (d ++ [p]) ++ j) by (by rewrite <- app_assoc).
    assert (Es : s ++ p :: j = (s ++ [p]) ++ j) by (by rewrite <- app_assoc).
    destruct (decide (p ∈ map fst entries)) as [Hp|Hp]; [rewrite Ed, Es; by apply C2|].
    rewrite N2, Es by done. symmetry. apply no_label_below.
    destruct (label_at (s ++ [p]) t0) eqn:E; [|done]. exfalso. apply Hp, Hin. by rewrite E.
Qed.

Lemma leads_copy_trash fuel s d t : sound t -> Forall plain_part s -> Forall plain_part d -> d <> [] ->
  parted s d -> dir_at (removelast d) t -> shallow fuel s t ->
  leads q (copy_trash fuel (rel s) (rel d)) t (copied s d t).
Proof using Type.
  revert s d t. induction fuel as [|fuel IH]; intros s d t Hs Hps Hpd Hd Hsd Hdir Hsh.
  all: cbn [copy_trash]; apply leads_bind, leads_Lstat; [done|done| | |].
  1, 4: intros Hq text; split_and!; [done|apply beyond_refl|by left].
  2, 4: intros Hno e _; split_and!; [done|apply beyond_refl|by right; right].
  { intros n Hn. assert (H1 := Hsh []). rewrite app_nil_r, (label_at_node _ _ _ Hn) in H1. specialize (H1 ltac:(done)). cbn in H1. lia. }
  intros n Hn. assert (Hlab := label_at_node _ _ _ Hn).
  destruct n as [mode c|mode es|target]; [..|by apply (sound_links t Hs) in Hlab]; cbn [IsLink IsDir IsRegular negb Perm label_of] in *.
  { eapply leads_copy_trash_file; [done..|apply Hsd|exact Hlab|done]. }
  assert (Hds : dir_at s t) by (by exists mode).
  assert (Hnsd : s <> d) by (intros ->; destruct Hsd as [Hx _]; rewrite <- (app_nil_r d) in Hx at 2; by rewrite strip_app in Hx).
  apply leads_bind, leads_Mkdir; [done|done| | | |].
  { intros Hq text. split_and!; [done|apply beyond_refl|by left]. }
  2:{ intros e Hthere _. split_and!; [done|apply beyond_refl|by right; left]. }
  2:{ intros e _ Hnd. done. }
  intros t1 Hno R1 _. assert (S1 : sound t1) by (by eapply relabelled_sound). assert (B1 := relabelled_beyond _ _ _ _ R1).
  assert (T1 : same_tree s t1 s t) by (by eapply beyond_parted).
  assert (D1 : dir_at s t1) by (unfold dir_at; by rewrite (same_tree_root _ _ _ _ T1)).
  destruct (proj1 (dir_node s t1) D1) as (m1 & es1 & N1).
  apply leads_bind, leads_Open; [done|done| | |by intros E; rewrite (same_tree_root _ _ _ _ T1), Hlab in E].
  { intros Hq text. split_and!; [done|done|by left]. }
  intros _ _. apply leads_bind, leads_File_ReadDir; [done|done| |].
  { intros Hq text. split_and!; [done|done|by left]. }
  intros entries Hin.
  assert (Hin0 : lists s t entries).
  { destruct Hin as [Hnd Hin]. split; [done|]. intros p. by rewrite Hin, (T1 [p]). }
  apply leads_bind. apply (leads_copy_entries _ s d t t1); [done..| | | | |].
  - eexists. by eapply relabelled_at.
  - intros p j. rewrite (relabelled_other _ _ _ _ _ R1); [by apply no_label_below|].
    intros E. apply (f_equal List.length) in E. rewrite length_app in E. cbn in E. lia.
  - intros p t2 Hp S2 B2 D2. apply IH; [done|by apply plain_snoc..|by destruct d|by apply parted_app|by rewrite removelast_last|].
    apply shallow_child. eapply shallow_same; [|exact Hsh]. by eapply beyond_parted.
  - intros t2 S2 B2 D2 C2. apply leads_bind, leads_Open; [done|done| | |].
    { intros Hq text. split_and!; [done|done|by left]. }
    2:{ intros E. destruct D2 as [m D2]. congruence. }
    intros _ _. destruct D2 as [m D2]. eapply leads_File_Chmod; [done|exact D2|done| |].
    { intros Hq text. split_and!; [done|done|by left]. }
    intros t3 R3. cbn [with_mode] in R3.
    split_and!; [by eapply relabelled_sound|eapply beyond_trans; [exact B2|by eapply relabelled_beyond]|].
    intros [|p j]; [rewrite !app_nil_r, Hlab; by eapply relabelled_at|].
    rewrite (relabelled_other _ _ _ _ _ R3); [apply C2|].
    intros E. apply (f_equal List.length) in E. rewrite length_app in E. cbn in E. lia.
  - intros Hq e t2 S2 B2. split_and!; [done..|by left].
Qed.

Lemma leads_copyTrashRelative s d t : sound t -> Forall plain_part s -> Forall plain_part d -> d <> [] ->
  parted s d -> dir_at (removelast d) t -> leads q (copyTrashRelative (rel s) (rel d)) t (copied s d t).
Proof using Type.
  intros Hs Hps Hpd Hd Hsd Hdir. unfold copyTrashRelative. apply leads_bind. intros fs r w' Hq [= <- <-]. split; [done|].
  apply leads_copy_trash; [done..|apply shallow_depth].
Qed.

(** ** Into the trash *)

Section into.
Variables (a : list string) (x id : string) (entry : TrashEntry).
Let l : list string := a ++ [x].
Hypothesis plain_l : Forall plain_part l.
Hypothesis public_l : internal l = false.
Hypothesis good_id : uuid_text id.
Hypothesis entry_id : TE_ID entry = id.

Lemma l_parted k : internal k = true -> parted l k.
Proof using All. intros Hk. apply parted_internal; [unfold l; by destruct a|done..]. Qed.

(** The record of the entry. *)
Definition recorded t : Prop :=
  exists mode text, encode_entry entry = Ok text /\ label_at (record_place id) t = Some (LFile mode text).

(** The copy of the tree is in the trash; what was at [l] may be partly removed. *)
Lemma leads_remove_source text t0 t : sound t -> same_tree (file_place id) t l t0 ->
  dir_at a t -> recorded t ->
  leads q (wrapping text (removeAllRelative (rel l))) t (fun r t' =>
    sound t' /\ beyond [] [l] t t' /\ same_tree (file_place id) t' l t0 /\
    match r with Ok _ => (forall j, label_at (l ++ j) t' = None) /\ recorded t' | Fail _ => q = false end).
Proof using All.
  intros Hs Hf Hd (mode & txt & He & Hrec). apply leads_wrapping. eapply leads_mono.
  { apply leads_removeAllRelative; [done..|unfold l; by destruct a]. }
  intros r t' (S1 & P1 & R1). assert (B1 := pruned_beyond _ _ _ P1).
  assert (F1 : same_tree (file_place id) t' l t0).
  { eapply same_tree_trans; [|exact Hf]. eapply beyond_parted; [exact B1|]. by apply parted_sym, l_parted. }
  destruct r as [u|e].
  - split_and!; [done..| |].
    + intros j. by apply no_label_below.
    + exists mode, txt. split; [done|]. rewrite <- Hrec. eapply same_tree_root, beyond_parted; [exact B1|].
      by apply parted_sym, l_parted.
  - split_and!; [done..|]. destruct R1 as [|R1]; [done|]. exfalso. apply R1. unfold l. by rewrite removelast_last.
Qed.

Definition moved t (r : result unit) t' : Prop :=
  sound t' /\ beyond [] [l; file_place id; partial_place id; record_place id] t t' /\
  (same_tree l t' l t \/ same_tree (file_place id) t' l t) /\
  match r with
  | Ok _ => same_tree (file_place id) t' l t /\ (forall j, label_at (l ++ j) t' = None)
      /\ (recorded t -> recorded t')
  | Fail _ => True
  end.

(** What makes a move succeed. *)
Definition movable t : Prop :=
  valid_utf8 (rel l) = true /\ label_at l t <> None /\ label_at (file_place id) t = None /\
  label_at (partial_place id) t = None /\ exists text, encode_entry entry = Ok text.

(** A failure is due to the schedule or to what is missing at the start. *)
Definition excused t : Prop := q = true -> movable t -> False.

Definition moves t (r : result unit) t' : Prop :=
  moved t r t' /\ match r with Ok _ => True | Fail _ => excused t end.

Definition trash_places : list (list string) := [file_place id; partial_place id; record_place id].

Lemma moves_kept t e t' : sound t' -> beyond [] trash_places t t' -> excused t -> moves t (Fail e) t'.
Proof using All.
  intros Hs Hb He. split; [|done]. split_and!; [done|eapply beyond_weaken; [..|exact Hb]; set_solver|left|done].
  apply (beyond_tree [] _ _ _ l Hb); [set_solver|].
  repeat (apply Forall_cons; split; [by apply l_parted|]). constructor.
Qed.

(** Removing one of the places of the trash. *)
Lemma leads_take_back k e t t1 : sound t1 -> beyond [] trash_places t t1 -> excused t ->
  k = file_place id \/ k = partial_place id ->
  leads q (removeAllRelative (rel k)) t1 (fun (_ : result unit) t' => moves t (Fail e) t').
Proof using All.
  intros Hs Hb He Hk. eapply leads_mono.
  { apply leads_removeAllRelative; [done|destruct Hk as [->| ->]; [by apply file_place_plain|by apply partial_place_plain]
      |by destruct Hk as [->| ->]]. }
  intros r t' (S1 & P1 & _). apply moves_kept; [done| |done]. eapply beyond_trans; [exact Hb|].
  eapply beyond_weaken; [..|apply pruned_beyond; exact P1]; [done|]. unfold trash_places. destruct Hk as [->| ->]; set_solver.
Qed.

Lemma beyond_places k t t' : k ∈ trash_places -> beyond [] [k] t t' -> beyond [] trash_places t t'.
Proof using All. intros Hk Hb. eapply beyond_weaken; [..|exact Hb]; set_solver. Qed.

Lemma place_valid k p : Forall plain_part (k ++ [p]) -> k = trash_files -> valid_utf8 p = true -> valid_utf8 (rel (k ++ [p])) = true.
Proof using All. intros Hk -> Hp. by apply valid_rel_beside. Qed.

(** From the copy in the trash on. *)
Lemma leads_commit t t2 : sound t2 -> beyond [] trash_places t t2 -> dir_at trash_files t2 -> dir_at trash_metadata t2 ->
  dir_at a t -> same_tree (partial_place id) t2 l t ->
  label_at (record_place id) t2 = None ->
  (movable t -> label_at (file_place id) t2 = None) ->
  leads q (
    let* _ := undoing "commit cross-mount trash copy: " (removeAllRelative (rel (partial_place id)))
      (renameRelativeExclusive (rel (partial_place id)) (rel (file_place id))) in
    let* _ := undoing "write cross-mount trash metadata: " (removeAllRelative (rel (file_place id))) (writeTrashMetadata entry) in
    wrapping "remove source after cross-mount trash copy" (removeAllRelative (rel l))) t2 (moves t).
Proof using All.
  intros S2 B2 D2 M2 Da C2 R2 F2. assert (Hpp := partial_place_plain _ good_id). assert (Hfp := file_place_plain _ good_id).
  destruct (parted_places id) as (PFP & PFR & PPR).
  assert (Hup : forall k t3, beyond [] [k] t2 t3 -> k ∈ trash_places -> beyond [] trash_places t t3).
  { intros k t3 Hb Hk. eapply beyond_trans; [exact B2|by eapply beyond_places]. }
  apply leads_bind, leads_undoing. eapply leads_mono; [by apply leads_renameRelative|].
  intros [u3|e3] t3.
  2:{ intros (-> & Hwhy). apply leads_take_back; [done|done| |by right]. intros Hq Hm. destruct Hwhy as [_ Hx]; try done.
      - apply place_valid; [done..|]. apply valid_app; [by apply uuid_ascii|done].
      - apply place_valid; [done..|]. by apply uuid_ascii.
      - change (trash_files ++ [id +:+ ".partial"]) with (partial_place id). rewrite (same_tree_root _ _ _ _ C2). apply Hm.
      - by apply F2.
      - apply PFP. }
  intros (S3 & L3 & _). assert (B3 : beyond [] trash_places t t3).
  { eapply beyond_trans; [exact B2|]. eapply beyond_weaken; [..|by apply relocated_beyond]; set_solver. }
  assert (T3 : same_tree (file_place id) t3 l t) by (eapply same_tree_trans; [by apply relocated_tree|done]).
  assert (M3 : forall d, d = trash_metadata \/ d = record_place id -> label_at d t3 = label_at d t2).
  { intros d Hd. apply (relocated_beyond _ _ _ _ L3); [set_solver|].
    destruct Hd as [->| ->]; repeat (apply Forall_cons; split; [done|]); constructor. }
  apply leads_bind, leads_undoing. eapply leads_mono.
  { apply leads_write_record; [done|by rewrite entry_id|]. destruct M2 as [m M2]. exists m. rewrite <- M2. apply M3. by left. }
  rewrite entry_id. intros [u4|e4] t4 (S4 & B4 & W4).
  2:{ apply leads_take_back; [done| | |by left].
      - eapply beyond_trans; [exact B3|]. by eapply beyond_places; [|exact B4]; set_solver.
      - intros Hq Hm. destruct W4 as [W4|[W4|W4]]; [congruence| |].
        + apply W4. rewrite M3, R2; auto.
        + destruct Hm as (_ & _ & _ & _ & text & Hm). by apply (W4 text). }
  assert (T4 : same_tree (file_place id) t4 l t).
  { eapply same_tree_trans; [|exact T3]. eapply beyond_parted; [exact B4|done]. }
  assert (B4' : beyond [] trash_places t t4).
  { eapply beyond_trans; [exact B3|]. by eapply beyond_places; [|exact B4]; set_solver. }
  eapply leads_mono.
  { eapply (leads_remove_source _ t); [done|done| |exact W4]. destruct Da as [m Da]. exists m. rewrite <- Da.
    apply B4'; [set_solver|]. unfold trash_places.
    assert (Ha : internal a = false) by (eapply internal_above; [|exact public_l]; apply starts_with_app).
    repeat (apply Forall_cons; split; [apply not_true_is_false; intros Hc; apply not_true_iff_false in Ha; apply Ha;
      unfold internal; eapply starts_with_trans; [exact Hc|done]|]). constructor. }
  intros r t5 (S5 & B5 & F5 & R5). split; [|destruct r; [done|intros Hq; congruence]]. split_and!; [done| |by right|].
  - eapply beyond_trans; [eapply beyond_weaken; [..|exact B4']; set_solver|].
    eapply beyond_weaken; [..|exact B5]; set_solver.
  - destruct r; [|done]. destruct R5 as [R5 R5']. done.
Qed.

(** The whole way on another mount. *)
Lemma leads_across t t1 : sound t1 -> beyond [] [record_place id] t t1 -> dir_at trash_files t1 -> dir_at trash_metadata t1 ->
  dir_at a t -> label_at (record_place id) t1 = None ->
  leads q (moveToTrashAcrossMount (rel l) (trashFilePath id) entry) t1 (moves t).
Proof using All.
  intros S1 B0 D1 M1 Da R1. assert (Hpp := partial_place_plain _ good_id). unfold moveToTrashAcrossMount.
  rewrite partial_rel, trashFilePath_rel by done.
  assert (B1 : beyond [] trash_places t t1) by (eapply beyond_places; [|exact B0]; set_solver).
  destruct (parted_places id) as (PFP & PFR & PPR).
  assert (K1 : forall k, parted k (record_place id) -> same_tree k t1 k t) by (intros k Hk; by eapply beyond_parted).
  assert (T1 : same_tree l t1 l t) by (by apply K1, l_parted).
  assert (Hap : parted a (record_place id) \/ a = []).
  { destruct a as [|y a'] eqn:Ea; [by right|left]. apply parted_internal; [done| |done].
    eapply internal_above; [|exact public_l]. apply starts_with_app. }
  apply leads_bind, leads_undoing. eapply leads_mono; [apply leads_copyTrashRelative|].
  { done. } { done. } { done. } { done. } { by apply l_parted. } { done. }
  intros [u|e] t2 (S2 & B2 & C2).
  - assert (B2' : beyond [] trash_places t t2).
    { eapply beyond_trans; [exact B1|]. by eapply beyond_places; [|exact B2]; set_solver. }
    assert (K2 : forall k, parted k (partial_place id) -> label_at k t2 = label_at k t1).
    { intros k Hk. eapply same_tree_root, beyond_parted; [exact B2|done]. }
    apply leads_commit; [done|done| | |done| | |].
    + destruct D1 as [m D1]. exists m. rewrite <- D1. by apply (beyond_above trash_files (id +:+ ".partial")).
    + destruct M1 as [m M1]. exists m. by rewrite K2.
    + by eapply same_tree_trans.
    + rewrite K2; [done|]. by apply parted_sym.
    + intros (_ & _ & HF & _ & _). rewrite K2, (same_tree_root _ _ _ _ (K1 _ PFR)) by done. done.
  - apply leads_take_back; [done| | |by right].
    + eapply beyond_trans; [exact B1|]. by eapply beyond_places; [|exact B2]; set_solver.
    + intros Hq (_ & Hl & _ & HP & _). destruct C2 as [C2|[C2|C2]]; [congruence| |].
      * apply C2. by rewrite (same_tree_root _ _ _ _ (K1 _ PPR)).
      * apply Hl. by rewrite <- (same_tree_root _ _ _ _ T1).
Qed.

(** By a rename or by a copy. *)
Lemma leads_into_trash t : sound t -> dir_at trash_files t -> dir_at trash_metadata t -> dir_at a t -> recorded t ->
  leads q (into_trash (rel l) entry) t (fun r t' => moves t r t').
Proof using All.
  intros Hs Df Dm Da Hrec. assert (Hfp := file_place_plain _ good_id). assert (Hrp := record_place_plain _ good_id).
  unfold into_trash. rewrite entry_id. rewrite trashMetadataPath_rel by done.
  destruct (parted_places id) as (PFP & PFR & PPR). rewrite trashFilePath_rel by done.
  assert (Hleaf : forall p j t1, label_at (record_place id) t1 = label_at (record_place id) t ->
    label_at (record_place id ++ p :: j) t1 = None).
  { intros p j t1 E. apply leaf_below. intros [m Hm]. destruct Hrec as (md & tx & _ & Hrec). congruence. }
  apply leads_bind, leads_attempt. eapply leads_mono; [by apply leads_renameRelative|]. intros [u|e] t1.
  - intros (S1 & L1 & P1 & P2). apply leads_ret. split; [|done].
    assert (F1 : same_tree (file_place id) t1 l t) by (by apply relocated_tree).
    assert (B1 := relocated_beyond _ _ _ _ L1). split_and!; [done|eapply beyond_weaken; [..|exact B1]; set_solver|by right|done
      |intros j; by eapply relocated_gone|]. intros (md & tx & He & Hr). exists md, tx. split; [done|].
    rewrite <- Hr. apply B1; [set_solver|]. repeat (apply Forall_cons; split; [|]); [..|done|constructor].
    assert (Hlr : parted l (record_place id)) by (by apply l_parted).
    rewrite <- (app_nil_r (record_place id)). apply strip_apart; apply Hlr.
  - intros (-> & Hwhy). destruct (is_cross_device e) eqn:Ec; cbn [negb].
    + apply leads_bind, leads_wrapping, leads_Remove; [done|done|done| | | |].
      * intros Hq text. apply moves_kept; [done|apply beyond_refl|]. intros; congruence.
      * intros t1 _ _ R1. rewrite <- (trashFilePath_rel _ good_id). apply leads_across; [|by eapply relabelled_beyond| | |done|].
        -- by eapply relabelled_sound.
        -- destruct Df as [m Df]. exists m. by rewrite (relabelled_other _ _ _ _ _ R1).
        -- destruct Dm as [m Dm]. exists m. by rewrite (relabelled_other _ _ _ _ _ R1).
        -- by eapply relabelled_at.
      * intros E. destruct Hrec as (md & tx & _ & Hrec). congruence.
      * intros e' _ (p & Hp). by rewrite Hleaf in Hp.
    + assert (Hex : excused t).
      { intros Hq (Hv & Hl & HF & HP & _). destruct Hwhy as [Hx _]; [done|done| |done|done|done|apply l_parted; done|congruence].
        apply place_valid; [done..|]. by apply uuid_ascii. }
      apply leads_bind, leads_ignoring. apply leads_Remove; [done|done|done| | | |].
      * intros Hq text. apply leads_fail, moves_kept; [done|apply beyond_refl|done].
      * intros t1 _ _ R1. apply leads_fail, moves_kept; [by eapply relabelled_sound| |done].
        eapply beyond_places; [|by eapply relabelled_beyond]. set_solver.
      * intros E. destruct Hrec as (md & tx & _ & Hrec). congruence.
      * intros e' _ (p & Hp). by rewrite Hleaf in Hp.
Qed.
End into.
End trash_calls.

(** ** Out of the trash *)

Definition restore_name (id : string) : string := ".oneinstack-restore-" +:+ id +:+ ".partial".

Lemma restore_name_plain id : uuid_text id -> plain_part (restore_name id) /\ valid_utf8 (restore_name id) = true.
Proof.
  intros H. split.
  - apply long_plain_name.
    + unfold restore_name. apply free_of_app; [done|]. apply free_of_app; [by apply uuid_free|done].
    + unfold restore_name. rewrite len_app. pose proof (len_nonneg (id +:+ ".partial")).
      change (len ".oneinstack-restore-") with 20. lia.
  - unfold restore_name. apply valid_app; [done|]. apply valid_app; [by apply uuid_ascii|done].
Qed.

Section out.
Context `{!Machine} (q : bool).
Variables (a : list string) (x id : string).
Let l : list string := a ++ [x].
Let T : list string := a ++ [restore_name id].
Hypothesis plain_l : Forall plain_part l.
Hypothesis public_l : internal l = false.
Hypothesis good_id : uuid_text id.

Lemma plain_temporary : Forall plain_part T /\ Forall plain_part a.
Proof using All.
  assert (Ha : Forall plain_part a) by (by apply Forall_app in plain_l as [? _]).
  split; [|done]. apply plain_snoc; [done|by apply restore_name_plain].
Qed.

Lemma temporary_public : internal T = false.
Proof using All.
  revert public_l. unfold l, T, internal. destruct a as [|y a']; [intros _; cbn; done|]. cbn [app starts_with]. intros E.
  destruct (a' ++ [x]), (a' ++ [restore_name id]); exact E.
Qed.

Lemma out_parted : parted (file_place id) T /\ parted (file_place id) l.
Proof using All.
  split; apply parted_sym, parted_internal; try done; [unfold T; by destruct a|apply temporary_public|unfold l; by destruct a].
Qed.

Definition restored t (r : result unit) t' : Prop :=
  sound t' /\ beyond [] [l; T; file_place id] t t' /\
  (same_tree (file_place id) t' (file_place id) t \/ same_tree l t' (file_place id) t) /\
  match r with
  | Ok _ => same_tree l t' (file_place id) t /\ (forall j, label_at (file_place id ++ j) t' = None) /\
      (x <> restore_name id -> label_at T t = None -> forall j, label_at (T ++ j) t' = None)
  | Fail _ => q = true -> valid_utf8 (rel l) = true -> x <> restore_name id -> label_at (file_place id) t <> None ->
      label_at l t = None -> label_at T t = None -> False
  end.

(** Removing the temporary copy. *)
Lemma leads_drop_temporary e t t1 : sound t1 -> beyond [] [T] t t1 ->
  (q = true -> valid_utf8 (rel l) = true -> x <> restore_name id -> label_at (file_place id) t <> None ->
     label_at l t = None -> label_at T t = None -> False) ->
  leads q (removeAllRelative (rel T)) t1 (fun (_ : result unit) t' => restored t (Fail e) t').
Proof using All.
  intros S1 B1 Hwhy. eapply leads_mono; [apply leads_removeAllRelative; [done|apply plain_temporary|unfold T; by destruct a]|].
  intros r t2 (S2 & P2 & _). assert (B2 : beyond [] [T] t t2) by (eapply beyond_trans; [exact B1|by apply pruned_beyond]).
  split_and!; [done|eapply beyond_weaken; [..|exact B2]; set_solver| |done]. left. eapply beyond_parted; [exact B2|apply out_parted].
Qed.

Lemma leads_restore_across t : sound t -> dir_at a t ->
  leads q (restoreTrashAcrossMount (rel (file_place id)) (rel l) id) t (restored t).
Proof using All.
  intros Hs Da. destruct plain_temporary as [HT Ha]. destruct out_parted as [PT PL].
  assert (Hx : plain_part x) by (by apply Forall_app in plain_l as [_ [? _]%Forall_cons]).
  assert (Hfp := file_place_plain _ good_id). destruct (restore_name_plain _ good_id) as [Hrn Hrv].
  assert (Et : PathJoin [Dir (rel l); ".oneinstack-restore-" +:+ id +:+ ".partial"] = rel T).
  { unfold l. rewrite Dir_rel by done. by apply PathJoin_rel. }
  unfold restoreTrashAcrossMount. cbv zeta. rewrite Et.
  assert (Hvalid : valid_utf8 (rel l) = true -> valid_utf8 (rel T) = true).
  { intros Hv. apply valid_rel_beside; [done| |done]. by apply (valid_rel_above a x). }
  apply leads_bind, leads_undoing. eapply leads_mono.
  { apply leads_copyTrashRelative; [done|done|done|unfold T; by destruct a|done|]. unfold T. by rewrite removelast_last. }
  intros [u|e] t2 (S2 & B2 & C2).
  2:{ apply leads_drop_temporary; [done|done|]. intros Hq _ _ HF _ HTn. destruct C2 as [|[|]]; congruence. }
  apply leads_bind, leads_undoing. eapply leads_mono; [by apply leads_renameRelative|].
  intros [u2|e] t3.
  2:{ intros (-> & Hwhy). apply leads_drop_temporary; [done|done|]. intros Hq Hv Hne HF Hl HTn. destruct Hwhy as [_ Hx']; try done.
      - by apply Hvalid.
      - destruct Da as [md Da]. exists md. rewrite <- Da. by apply (beyond_above a (restore_name id)).
      - change (label_at T t2 <> None). by rewrite (same_tree_root _ _ _ _ C2).
      - rewrite <- Hl. eapply same_tree_root, beyond_parted; [exact B2|by apply parted_siblings].
      - by apply parted_siblings. }
  intros (S3 & L3 & P3 & P3'). assert (T3 : same_tree l t3 (file_place id) t).
  { eapply same_tree_trans; [by apply relocated_tree|done]. }
  assert (B3 : beyond [] [l; T; file_place id] t t3).
  { eapply beyond_trans; [eapply beyond_weaken; [..|exact B2]; set_solver|].
    eapply beyond_weaken; [..|by apply relocated_beyond]; set_solver. }
  apply leads_wrapping. eapply leads_mono; [apply leads_removeAllRelative; done|]. intros r t4 (S4 & P4 & R4).
  assert (B4 := pruned_beyond _ _ _ P4).
  assert (T4 : same_tree l t4 (file_place id) t).
  { eapply same_tree_trans; [|exact T3]. eapply beyond_parted; [exact B4|]. by apply parted_sym. }
  assert (B4' : beyond [] [l; T; file_place id] t t4).
  { eapply beyond_trans; [exact B3|]. eapply beyond_weaken; [..|exact B4]; set_solver. }
  destruct r as [u4|e]; split_and!; try done; try (by right).
  - intros j. by apply no_label_below.
  - intros _ _ j. assert (T34 : same_tree T t4 T t3) by (eapply beyond_parted; [exact B4|by apply parted_sym]).
    rewrite T34. by eapply relocated_gone.
  - intros Hq _ _ HF _ _. destruct R4 as [|R4]; [congruence|]. apply R4. unfold file_place. rewrite removelast_last.
    assert (Hf : dir_at trash_files t).
    { destruct (label_at (file_place id) t) eqn:E; [|done]. by apply label_above in E. }
    destruct Hf as [md Hf]. exists md. rewrite <- Hf. symmetry.
    assert (Hpar : parted trash_files l /\ parted trash_files T).
    { split; apply parted_sym, parted_internal; try done; [unfold l; by destruct a|unfold T; by destruct a|apply temporary_public]. }
    destruct Hpar as [Q1 Q2]. symmetry. rewrite (relocated_beyond _ _ _ _ L3 trash_files); [|set_solver|].
    + apply B2; [set_solver|]. apply Forall_singleton. rewrite <- (app_nil_r trash_files). apply strip_apart; apply Q2.
    + repeat (apply Forall_cons; split; [|]); [..|constructor]; rewrite <- (app_nil_r trash_files); apply strip_apart; (apply Q1 || apply Q2).
Qed.

Lemma leads_out_of_trash t : sound t -> dir_at a t ->
  leads q (out_of_trash (rel l) id) t (restored t).
Proof using All.
  intros Hs Da. destruct out_parted as [PT PL]. assert (Hfp := file_place_plain _ good_id).
  unfold out_of_trash. rewrite trashFilePath_rel by done.
  apply leads_bind, leads_attempt. eapply leads_mono; [by apply leads_renameRelative|]. intros [u|e] t1.
  - intros (S1 & L1 & P1 & P2). apply leads_ret. assert (F1 : same_tree l t1 (file_place id) t) by (by apply relocated_tree).
    split_and!; [done| |by right|done| |].
    + eapply beyond_weaken; [..|by apply relocated_beyond]; set_solver.
    + intros j. by eapply relocated_gone.
    + intros Hne HTn j. assert (PTl : parted T l) by (apply parted_siblings; congruence).
      rewrite (beyond_tree [] _ _ _ T (relocated_beyond _ _ _ _ L1)); [by apply no_label_below|set_solver|].
      repeat (apply Forall_cons; split; [by first [exact PTl|apply parted_sym, PT]|]). constructor.
  - intros (-> & Hwhy). destruct (is_cross_device e) eqn:Ec; cbn [negb]; [by apply leads_restore_across|].
    apply leads_fail. split_and!; [done|apply beyond_refl|left; apply same_tree_refl|]. intros Hq Hv _ HF Hl _.
    destruct Hwhy as [Hx _]; try done; [|apply PL|congruence..]. apply valid_rel_beside; [done|done|by apply uuid_ascii].
Qed.
End out.

(** ** The operations *)

Section public.
Context `{!Machine} `{!TrashJSON} `{!UUID}.
Variable m : Manager.
Hypothesis conf : configured m.

Lemma trash_dir_internal d : d ∈ trash_dirs -> internal d = true.
Proof using Type. intros Hd. repeat (apply elem_of_cons in Hd as [->|Hd]; [done|]). by apply elem_of_nil in Hd. Qed.

(** Making the directories of the trash changes no other tree. *)
Lemma ensured_tree l t t1 : beyond trash_dirs [] t t1 -> l <> [] -> internal l = false -> same_tree l t1 l t.
Proof using Type.
  intros Hb Hl Hi j. apply Hb; [|done]. intros Hd%trash_dir_internal.
  rewrite (internal_below l (l ++ j)) in Hd; [done|done|apply starts_with_app|done].
Qed.

Lemma ensured_place k t t1 : beyond trash_dirs [] t t1 -> (3 <= List.length k)%nat -> label_at k t1 = label_at k t.
Proof using Type.
  intros Hb Hk. apply Hb; [|done]. intros Hd. repeat (apply elem_of_cons in Hd as [->|Hd]; [cbn in Hk; lia|]). by apply elem_of_nil in Hd.
Qed.

(** What [Lstat] shows of a place is in its label. *)
Lemma trash_entry_label id now r db n n' : label_of n = label_of n' -> trash_entry id now r db n = trash_entry id now r db n'.
Proof using Type. unfold trash_entry. by destruct n, n'; intros [=]; subst. Qed.

(** The identifier is new. *)
Definition vacant (id : string) t : Prop :=
  label_at (file_place id) t = None /\ label_at (partial_place id) t = None /\ label_at (record_place id) t = None.

(** When nothing stands in the way of a deletion. *)
Definition deletable (id : string) (now : time) (virtualPath db : string) t : Prop :=
  is_ok (Relative m virtualPath) = true /\ place virtualPath <> [] /\ label_at (place virtualPath) t <> None /\
  trash_fits t /\ vacant id t /\
  forall n, node_at (place virtualPath) t = Some n ->
    exists text, encode_entry (trash_entry id now (rel (place virtualPath)) db n) = Ok text.

Definition kept_or_trashed id l t t' : Prop := same_tree l t' l t \/ same_tree (file_place id) t' l t.

Lemma leads_MoveToTrash q id now virtualPath db t : sound t -> uuid_text id ->
  let l := place virtualPath in
  leads q (MoveToTrash m id now virtualPath db) t (fun r t' => sound t' /\
    beyond trash_dirs (l :: trash_places id) t t' /\ (l <> [] -> internal l = false -> kept_or_trashed id l t t') /\
    match r with
    | Ok e => open_to m l = true /\ l <> [] /\ valid_utf8 (rel l) = true /\
        (exists n, node_at l t = Some n /\ e = trash_entry id now (rel l) db n) /\
        same_tree (file_place id) t' l t /\ (forall j, label_at (l ++ j) t' = None) /\ recorded id e t'
    | Fail _ => q = true -> deletable id now virtualPath db t -> False
    end).
Proof using conf.
  intros Hs Hid l. assert (Hl := place_plain virtualPath). fold l in Hl.
  assert (Hkeep : forall t1, sound t1 -> beyond trash_dirs [] t t1 ->
    sound t1 /\ beyond trash_dirs (l :: trash_places id) t t1 /\ (l <> [] -> internal l = false -> kept_or_trashed id l t t1)).
  { intros t1 S1 B1. split_and!; [done|eapply beyond_weaken; [done| |exact B1]; set_solver|]. intros Hn Hi. left. by apply ensured_tree. }
  unfold MoveToTrash. apply leads_bind. eapply leads_mono; [by apply leads_ensure|]. intros [u|e] t1 (S1 & B1 & D1).
  2:{ destruct (Hkeep t1 S1 B1) as (K1 & K2 & K3). split_and!; [done..|]. intros Hq (_ & _ & _ & Hfit & _). destruct D1; [congruence|done]. }
  destruct (Hkeep t1 S1 B1) as (K1 & K2 & K3).
  apply leads_bind, leads_lift. destruct (Relative m virtualPath) as [r|e] eqn:Er.
  2:{ split_and!; [done..|]. intros _ (Hok & _). by rewrite Er in Hok. }
  apply Relative_accepts in Er as (_ & Hv & Ho & ->); [|done]. fold l. assert (Hi := proj1 (open_to_parts _ _ Ho)). fold l in Hi, Hv, Ho.
  rewrite rel_root by done. case_bool_decide as Hl0.
  { apply leads_fail. split_and!; [done..|]. by intros _ (_ & ? & _). }
  destruct (exists_last Hl0) as (a & x & El). assert (T1 : same_tree l t1 l t) by (by apply ensured_tree).
  apply leads_bind, leads_Lstat; [done|done| | |].
  { intros Hq text. split_and!; [done..|]. intros; congruence. }
  2:{ intros Hno e _. split_and!; [done..|]. intros _ (_ & _ & Hlab & _). fold l in Hlab.
      rewrite (same_tree_root _ _ _ _ T1) in Hno. done. }
  intros n Hn. set (entry := trash_entry id now (rel l) db n).
  assert (Hn0 : exists n0, node_at l t = Some n0 /\ label_of n0 = label_of n).
  { apply label_node. rewrite <- (same_tree_root _ _ _ _ T1). by apply label_at_node. }
  destruct Hn0 as (n0 & Hn0 & En0). assert (Ee : entry = trash_entry id now (rel l) db n0) by (symmetry; by apply trash_entry_label).
  assert (Df : dir_at trash_files t1) by (eapply Forall_forall in D1; [exact D1|set_solver]).
  assert (Dm : dir_at trash_metadata t1) by (eapply Forall_forall in D1; [exact D1|set_solver]). clear D1.
  assert (Hfree : vacant id t -> vacant id t1).
  { intros (V1 & V2 & V3). unfold vacant. by rewrite !(ensured_place _ t t1) by (done || cbn; lia). }
  assert (Hid' : TE_ID entry = id) by done.
  assert (Hstep : forall t2, beyond [] (trash_places id) t1 t2 ->
    beyond trash_dirs (l :: trash_places id) t t2 /\ kept_or_trashed id l t t2).
  { intros t2 B2. split.
    - eapply beyond_trans; [exact K2|]. eapply beyond_weaken; [..|exact B2]; set_solver.
    - left. eapply same_tree_trans; [|exact T1]. apply (beyond_tree [] _ _ _ l B2); [set_solver|].
      repeat (apply Forall_cons; split; [by apply parted_internal|]). constructor. }
  apply leads_bind. eapply leads_mono; [apply leads_write_record; [done|by rewrite Hid'|done]|].
  rewrite Hid'. intros [u2|e] t2 (S2 & B2 & W2).
  2:{ destruct (Hstep t2) as [G1 G2]; [eapply beyond_weaken; [..|exact B2]; set_solver|]. split_and!; [done..|].
      intros Hq (_ & _ & _ & _ & Hv2 & Htext). apply Hfree in Hv2 as (_ & _ & V3). destruct W2 as [W2|[W2|W2]]; [congruence|done|].
      destruct (Htext _ Hn0) as [text Htx]. apply (W2 text). by rewrite Ee. }
  assert (T2 : same_tree l t2 l t1).
  { eapply beyond_parted; [exact B2|by apply parted_internal]. }
  assert (Da : dir_at a t2).
  { assert (Hlab : label_at (a ++ [x]) t2 <> None).
    { rewrite <- El, (same_tree_root _ _ _ _ T2), (label_at_node _ _ _ Hn). done. }
    destruct (label_at (a ++ [x]) t2) eqn:E; [|done]. by apply label_above in E. }
  assert (Kd : forall d, d = trash_files \/ d = trash_metadata -> dir_at d t1 -> dir_at d t2).
  { intros d Hd [md Hmd]. exists md. rewrite <- Hmd. apply B2; [set_solver|]. apply Forall_singleton.
    destruct Hd as [->| ->]; [done|apply starts_longer]. }
  apply leads_bind. rewrite El in *. eapply leads_mono.
  { apply (leads_into_trash q a x id entry); [done..| | |done|done]; apply Kd; auto. }
  intros r t3 [(S3 & B3 & K3' & R3) Hwhy].
  assert (G1 : beyond trash_dirs ((a ++ [x]) :: trash_places id) t t3).
  { eapply beyond_trans; [exact K2|]. eapply beyond_trans; [eapply beyond_weaken; [..|exact B2]; set_solver|].
    eapply beyond_weaken; [..|exact B3]; set_solver. }
  assert (T21 : same_tree (a ++ [x]) t2 (a ++ [x]) t) by (by eapply same_tree_trans).
  assert (G2 : kept_or_trashed id (a ++ [x]) t t3).
  { destruct K3' as [K|K]; [left|right]; by eapply same_tree_trans. }
  destruct r as [u3|e].
  - destruct R3 as (R3 & R4 & R5). apply leads_ret. split_and!; try done.
    + by exists n0.
    + by eapply same_tree_trans.
    + by apply R5.
  - split_and!; try done. intros Hq (_ & _ & Hlab & _ & Hv2 & Htext). apply Hfree in Hv2 as (V1 & V2 & _).
    fold l in Hlab, Htext. rewrite El in Hlab, Htext. apply (Hwhy Hq). split_and!.
    + done.
    + by rewrite (same_tree_root _ _ _ _ T21).
    + rewrite <- V1. eapply same_tree_root, beyond_parted; [exact B2|apply parted_places].
    + rewrite <- V2. eapply same_tree_root, beyond_parted; [exact B2|apply parted_places].
    + destruct (Htext _ Hn0) as [text Htx]. exists text. by rewrite Ee.
Qed.

(** What a record says, as it is read. *)
Definition reads (id : string) (t : node) (e : TrashEntry) : Prop :=
  validateTrashID id = Ok tt /\ checked_entry m id e = Ok e /\
  exists mode text, label_at (record_place id) t = Some (LFile mode text)
    /\ decode_entry (take_bytes maxTrashMetadataSize text) = Ok e.

Lemma valid_id_text id : validateTrashID id = Ok tt -> uuid_text id.
Proof using Type.
  unfold validateTrashID. destruct (uuid_String (TrimSpace id)) as [s|] eqn:E; [|done].
  destruct (String.eqb_spec s id) as [->|]; [|done]. intros _. by apply uuid_bytes in E.
Qed.

Lemma checked_entry_Ok id e e' : checked_entry m id e = Ok e' -> e' = e /\ TE_ID e = id /\
  exists r, Relative m (TE_OriginalPath e) = Ok r /\ r <> ".".
Proof using Type.
  unfold checked_entry. destruct (String.eqb_spec (TE_ID e) id) as [Ei|]; [|by rewrite orb_true_r].
  destruct (negb _ || negb true || _); [done|]. destruct (Relative m (TE_OriginalPath e)) as [r|]; [|done].
  destruct (String.eqb_spec r "."); [done|]. cbn [orb]. destruct (negb _); [done|]. intros [= <-]. eauto.
Qed.

Lemma leads_readTrashMetadata q id t : sound t ->
  leads q (readTrashMetadata m id) t (fun r t' => t' = t /\
    match r with Ok e => reads id t e | Fail _ => q = true -> forall e, ~ reads id t e end).
Proof using Type.
  intros Hs. unfold readTrashMetadata. apply leads_bind, leads_lift.
  destruct (validateTrashID id) as [[]|e] eqn:Ev; [|split; [done|]; intros _ e' (? & _); congruence].
  assert (Hid := valid_id_text _ Ev). rewrite trashMetadataPath_rel by done.
  apply leads_bind, leads_Open; [done|by apply record_place_plain|by intros -> ?| |].
  2:{ intros Hno e _. split; [done|]. intros _ e' (_ & _ & mode & text & E & _). congruence. }
  intros n Hn. assert (Hlab := label_at_node _ _ _ Hn). destruct n as [mode c|mode es|target].
  - apply leads_bind, (leads_File_Read q _ mode c); [done|by intros -> ?|].
    assert (Hread : forall e, reads id t e -> checked_entry m id e = Ok e /\ decode_entry (take_bytes maxTrashMetadataSize c) = Ok e).
    { intros e (_ & Hc & md & tx & E & Hd). rewrite Hlab in E. injection E as -> ->. done. }
    apply leads_bind, leads_wrapping, leads_lift. destruct (decode_entry _) as [e|e] eqn:Ed.
    + apply leads_lift. destruct (checked_entry m id e) as [e'|e'] eqn:Ec.
      * assert (e' = e) as -> by (by apply checked_entry_Ok in Ec as [-> _]). split; [done|]. split_and!; [done..|]. eauto.
      * split; [done|]. intros _ e'' [Hc Hd]%Hread. congruence.
    + split; [done|]. intros _ e' [Hc Hd]%Hread. congruence.
  - apply leads_bind. unfold File_Read. apply leads_look; [by intros -> ?| |].
    + intros n. rewrite Hn. intros [= <-]. split; [done|]. intros _ e (_ & _ & md & tx & E' & _). by rewrite Hlab in E'.
    + intros Hno. congruence.
  - by apply (sound_links t Hs) in Hlab.
Qed.

(** Whatever is public, present and not a leftover of this restore. *)
Definition bystander (id : string) (k : list string) : Prop :=
  internal k = false /\ forall a, starts_with k (a ++ [restore_name id]) = false.

(** When nothing stands in the way of the restore of [e]. *)
Definition restorable (id : string) t (e : TrashEntry) : Prop :=
  trash_fits t /\ reads id t e /\ label_at (file_place id) t <> None /\
  forall a x, place (TE_OriginalPath e) = a ++ [x] ->
    label_at (a ++ [x]) t = None /\ dir_at a t /\ x <> restore_name id /\ label_at (a ++ [restore_name id]) t = None.

Lemma trash_dirs_short k : (3 <= List.length k)%nat -> k ∉ trash_dirs.
Proof using Type.
  intros Hk Hd. repeat (apply elem_of_cons in Hd as [->|Hd]; [cbn in Hk; lia|]). by apply elem_of_nil in Hd.
Qed.

Lemma leads_check_vacant q l t : sound t -> Forall plain_part l ->
  leads q (check_vacant (rel l)) t (fun r t' => t' = t /\
    match r with Ok _ => label_at l t = None | Fail _ => q = true -> label_at l t <> None \/ ~ dir_at (removelast l) t end).
Proof using Type.
  intros Hs Hl. unfold check_vacant. apply leads_bind, leads_attempt, leads_Lstat; [done|done| | |].
  - intros -> text. by apply leads_fail.
  - intros n Hn. apply leads_fail. split; [done|]. intros _. left. by rewrite (label_at_node _ _ _ Hn).
  - intros Hno e He. destruct (is_not_exist e) eqn:En; cbn [negb]; [by apply leads_ret|].
    apply leads_fail. split; [done|]. intros _. right. intros Hd. specialize (He Hd). congruence.
Qed.

(** What a restore to the place [l] did. *)
Definition restores id l t (r : result TrashEntry) t' : Prop :=
  match r with
  | Ok e => reads id t e /\ l = place (TE_OriginalPath e) /\ open_to m l = true /\ label_at l t = None /\
      same_tree l t' (file_place id) t /\ (forall j, label_at (file_place id ++ j) t' = None) /\
      (forall a x, l = a ++ [x] ->
        (forall k, internal k = false -> starts_with k l = false -> starts_with k (a ++ [restore_name id]) = false ->
           label_at k t' = label_at k t \/ label_at k t = None /\ starts_with a k = true) /\
        (x <> restore_name id -> label_at (a ++ [restore_name id]) t = None ->
           forall j, label_at (a ++ [restore_name id] ++ j) t' = None))
  | Fail _ => True
  end.

Definition preserved id t t' : Prop :=
  (forall k, bystander id k -> label_at k t <> None -> label_at k t' = label_at k t) /\
  (forall k, internal k = true -> k ∉ trash_dirs -> starts_with k (file_place id) = false ->
     starts_with k (record_place id) = false -> label_at k t' = label_at k t) /\
  (same_tree (file_place id) t' (file_place id) t \/
     exists l, open_to m l = true /\ label_at l t = None /\ same_tree l t' (file_place id) t).

Lemma ensured_preserved id t t1 : beyond trash_dirs [] t t1 -> preserved id t t1.
Proof using Type.
  intros B1. split_and!.
  - intros k [Hi _] _. apply B1; [|done]. intros Hd%trash_dir_internal. congruence.
  - intros k _ Hk _ _. by apply B1.
  - left. intros j. apply ensured_place; [done|]. rewrite length_app. cbn. lia.
Qed.

Lemma place_alone k : internal k = false -> forall j, internal j = true -> starts_with j k = false \/ k = [].
Proof using Type.
  intros Hk j Hj. destruct k as [|p k]; [by right|left]. rewrite <- (app_nil_r j). apply strip_apart;
    apply (parted_internal (p :: k) j); done.
Qed.

(** The directories above the place. *)
Lemma leads_make_parent q a x t : sound t -> Forall plain_part (a ++ [x]) -> internal (a ++ [x]) = false ->
  valid_utf8 (rel (a ++ [x])) = true ->
  leads q (if negb (String.eqb (Dir (rel (a ++ [x]))) ".") then mkdirAllRelative (Dir (rel (a ++ [x]))) 493 else ret tt) t
    (fun r t' => sound t' /\ grown a t t' /\ match r with Ok _ => dir_at a t' | Fail _ => q = false \/ blocked a t end).
Proof using Type.
  intros Hs Hl Hi Hv. assert (Hx := Hl). apply Forall_app in Hx as [Ha [Hx _]%Forall_cons].
  rewrite Dir_rel, rel_root by done. case_bool_decide as E; cbn [negb].
  - subst a. apply leads_ret. split_and!; [done|apply grown_refl|by apply sound_root].
  - eapply leads_mono; [apply leads_MkdirAll; [done|done|done|]|].
    + eapply internal_above; [|exact Hi]. apply starts_with_app.
    + intros r t' (S1 & G1 & R1). split_and!; [done..|]. destruct r; [done|]. destruct R1 as [|[|R1]]; [by left|by right|].
      rewrite (valid_rel_above a x) in R1; done.
Qed.

(** The record goes; what a failure leaves of it is not reported. *)
Lemma leads_drop_record q id e t (Q : result TrashEntry -> node -> Prop) : sound t -> uuid_text id ->
  (forall t', sound t' -> beyond [] [record_place id] t t' -> Q (Ok e) t') ->
  leads q (let* _ := ignoring (Root_Remove (trashMetadataPath id)) in ret e) t Q.
Proof using Type.
  intros Hs Hid HQ. rewrite trashMetadataPath_rel by done.
  apply leads_bind, leads_ignoring, leads_Remove; [done|by apply record_place_plain|done|..].
  - intros Hq text. apply leads_ret, HQ; [done|apply beyond_refl].
  - intros t' _ _ R. apply leads_ret, HQ; [|by eapply relabelled_beyond]. eapply relabelled_sound; [exact R|done|done|by apply record_place_plain|done].
  - intros _ e' _. apply leads_ret, HQ; [done|apply beyond_refl].
  - intros e' _ _. apply leads_ret, HQ; [done|apply beyond_refl].
Qed.

Lemma internal_start k p : internal k = false -> internal p = true -> starts_with k p = false.
Proof using Type.
  intros Hk Hp. apply not_true_is_false. intros Hs. unfold internal in *. apply not_true_iff_false in Hk. apply Hk.
  by eapply starts_with_trans.
Qed.

(** The part of a restore that has found its place. *)
Lemma restore_steps (q ok : bool) a x id t t1 t2 t3 t4 : let l := a ++ [x] in
  uuid_text id -> Forall plain_part l -> internal l = false -> open_to m l = true -> label_at l t = None ->
  beyond trash_dirs [] t t1 -> grown a t1 t2 -> beyond [] [l; a ++ [restore_name id]; file_place id] t2 t3 ->
  same_tree (file_place id) t3 (file_place id) t2 \/ same_tree l t3 (file_place id) t2 ->
  (ok = true -> same_tree l t3 (file_place id) t2 /\ (forall j, label_at (file_place id ++ j) t3 = None) /\
     (x <> restore_name id -> label_at (a ++ [restore_name id]) t2 = None ->
        forall j, label_at ((a ++ [restore_name id]) ++ j) t3 = None)) ->
  beyond [] [record_place id] t3 t4 ->
  preserved id t t4 /\
  (ok = true -> same_tree l t4 (file_place id) t /\ (forall j, label_at (file_place id ++ j) t4 = None) /\
    (forall k, internal k = false -> starts_with k l = false -> starts_with k (a ++ [restore_name id]) = false ->
       label_at k t4 = label_at k t \/ label_at k t = None /\ starts_with a k = true) /\
    (x <> restore_name id -> label_at (a ++ [restore_name id]) t = None ->
       forall j, label_at (a ++ [restore_name id] ++ j) t4 = None)).
Proof using All.
  intros l Hid Hl Hi Ho Hln B1 G2 B3 K3 R3 B4. destruct (out_parted q a x id Hl Hi Hid) as [PT PL].
  assert (HTi := temporary_public q a x id Hl Hi Hid). destruct (parted_places id) as (_ & PFR & _).
  assert (Hl0 : l <> []) by (unfold l; by destruct a).
  assert (HT0 : a ++ [restore_name id] <> []) by (by destruct a).
  assert (E1 : forall k, internal k = false -> label_at k t1 = label_at k t).
  { intros k Hk. apply B1; [|done]. intros Hd%trash_dir_internal. congruence. }
  assert (E2 : forall k, internal k = true -> label_at k t2 = label_at k t1).
  { intros k Hk. destruct (G2 k) as [|[_ Hs]]; [done|]. exfalso.
    assert (Hf : internal k = false); [|congruence]. eapply internal_above; [|exact Hi].
    eapply starts_with_trans; [apply starts_with_app|exact Hs]. }
  assert (EF : same_tree (file_place id) t2 (file_place id) t).
  { intros j. rewrite E2 by done. apply ensured_place; [done|]. rewrite length_app. cbn. lia. }
  assert (Hal : starts_with a l = false) by apply starts_longer.
  assert (El2 : label_at l t2 = None).
  { destruct (G2 l) as [->|[_ Hs]]; [by rewrite E1|congruence]. }
  assert (E3 : forall k, internal k = false -> starts_with k l = false -> starts_with k (a ++ [restore_name id]) = false ->
    label_at k t4 = label_at k t2).
  { intros k Hk H1' H2'. rewrite (B4 k), (B3 k); [done|set_solver| |set_solver|].
    - repeat (apply Forall_cons; split; [first [done|by apply internal_start]|]). constructor.
    - apply Forall_singleton. by apply internal_start. }
  assert (F4 : forall k, parted k (record_place id) -> same_tree k t4 k t3) by (intros k Hk; by eapply beyond_parted).
  assert (L4 : same_tree l t4 l t3) by (by apply F4, parted_internal).
  assert (T4 : same_tree (a ++ [restore_name id]) t4 (a ++ [restore_name id]) t3) by (by apply F4, parted_internal).
  split.
  - split_and!.
    + intros k [Hk Hb] Hlab. destruct (G2 k) as [E|[E _]]; [|by rewrite E1 in E].
      rewrite E3; [by rewrite E, E1|done| |apply Hb]. apply not_true_is_false. intros [j ->]%starts_with_iff.
      apply Hlab. by apply no_label_below.
    + intros k Hk Hd H1' H2'. rewrite (B4 k), (B3 k), E2; [by apply B1|done|set_solver| |set_solver|by apply Forall_singleton].
      repeat (apply Forall_cons; split; [|]); [..|done|constructor]; apply not_true_is_false; intros Hs;
        apply internal_below in Hs; try done; congruence.
    + destruct K3 as [K|K]; [left|right].
      * eapply same_tree_trans; [by apply F4|]. by eapply same_tree_trans.
      * exists l. split_and!; [done..|]. eapply same_tree_trans; [exact L4|]. by eapply same_tree_trans.
  - intros Hok. destruct (R3 Hok) as (R4' & R4 & R5). split_and!.
    + eapply same_tree_trans; [exact L4|]. by eapply same_tree_trans.
    + intros j. by rewrite (F4 _ PFR).
    + intros k Hk H1' H2'. rewrite E3 by done. destruct (G2 k) as [->|[E Hs]]; [left; by apply E1|right].
      split; [by rewrite <- E1|done].
    + intros Hne HTn j. rewrite app_assoc, (T4 j). apply R5; [done|]. destruct (G2 (a ++ [restore_name id])) as [->|[_ Hs]]; [by rewrite E1|].
      by rewrite starts_longer in Hs.
Qed.

Lemma reads_same id e t t1 : beyond trash_dirs [] t t1 -> reads id t1 e <-> reads id t e.
Proof using Type.
  intros Hb. unfold reads. by rewrite (ensured_place (record_place id) t t1) by (done || cbn; lia).
Qed.

Lemma reads_unique id t e e' : reads id t e -> reads id t e' -> e = e'.
Proof using Type. intros (_ & _ & m1 & t1 & E1 & D1) (_ & _ & m2 & t2 & E2 & D2). congruence. Qed.

Lemma dir_clear a t : dir_at a t -> ~ blocked a t.
Proof using Type.
  intros Hd (k & [j ->]%starts_with_iff & Hk & Hn). apply Hn. destruct j as [|p j]; [by rewrite app_nil_r in Hd|].
  destruct Hd as [md Hd]. by apply label_above in Hd.
Qed.

Lemma leads_RestoreTrash q id t : sound t ->
  leads q (RestoreTrash m id) t (fun r t' => sound t' /\ preserved id t t' /\ (exists l, restores id l t r t') /\
    match r with Ok _ => True | Fail _ => q = true -> forall e, ~ restorable id t e end).
Proof using All.
  intros Hs. unfold RestoreTrash. apply leads_bind. eapply leads_mono; [by apply leads_ensure|].
  intros [u|e] t1 (S1 & B1 & D1).
  2:{ split_and!; [done|by apply ensured_preserved|by exists []|]. intros Hq e' (Hfit & _). destruct D1; [congruence|done]. }
  assert (P1 := ensured_preserved id t t1 B1).
  apply leads_bind. eapply leads_mono; [by apply leads_readTrashMetadata|]. intros [e|err] t1' (-> & Hr).
  2:{ split_and!; [done..|by exists []|]. intros Hq e' (_ & Hr' & _). apply (Hr Hq e'). by apply (reads_same _ _ _ _ B1). }
  apply (reads_same _ _ _ _ B1) in Hr. destruct (Hr) as (Hv & Hc & _). assert (Hid := valid_id_text _ Hv).
  apply checked_entry_Ok in Hc as (_ & Hide & r0 & Er & Hr0). rewrite Hide.
  apply leads_bind, leads_lift. rewrite Er. apply Relative_accepts in Er as (_ & Hutf & Ho & ->); [|done].
  assert (Hl := place_plain (TE_OriginalPath e)). set (l := place (TE_OriginalPath e)) in *.
  rewrite rel_root by done.
  case_bool_decide as Hl0; [by rewrite Hl0 in Hr0|]. destruct (exists_last Hl0) as (a & x & El).
  assert (Hi := proj1 (open_to_parts _ _ Ho)).
  assert (Hfree : forall e', restorable id t e' -> label_at l t = None /\ dir_at a t /\ x <> restore_name id
    /\ label_at (a ++ [restore_name id]) t = None /\ label_at (file_place id) t <> None).
  { intros e' (_ & Hr' & HF & Hplace). rewrite <- (reads_unique _ _ _ _ Hr Hr') in Hplace. fold l in Hplace.
    destruct (Hplace a x El) as (Q1 & Q2 & Q3 & Q4). by rewrite El. }
  assert (E1 : forall k, internal k = false -> label_at k t1 = label_at k t).
  { intros k Hk. apply B1; [|done]. intros Hd%trash_dir_internal. congruence. }
  assert (Hai : internal a = false) by (eapply internal_above; [|exact Hi]; rewrite El; apply starts_with_app).
  apply leads_bind. eapply leads_mono; [by apply leads_check_vacant|]. intros [u1|err] t1' (-> & Hvac).
  2:{ split_and!; [done..|by exists []|]. intros Hq e' (Q1 & [md Q2] & _)%Hfree. destruct (Hvac Hq) as [Hn|Hn].
      - by rewrite E1 in Hn.
      - apply Hn. rewrite El, removelast_last. exists md. by rewrite E1. }
  rewrite E1 in Hvac by done.
  assert (Hsteps := restore_steps q). rewrite El in *. apply leads_bind. eapply leads_mono; [by apply leads_make_parent|].
  intros [u2|err] t2 (S2 & G2 & D2).
  2:{ split_and!; [done| |by exists []|].
      - eapply (Hsteps false a x id t t1 t2 t2 t2); try done; left; apply same_tree_refl.
      - intros Hq e' (_ & [md Q2] & _)%Hfree. destruct D2 as [|D2]; [congruence|]. revert D2. apply dir_clear.
        exists md. by rewrite E1. }
  apply leads_bind. eapply leads_mono; [by apply leads_out_of_trash|]. intros [u3|err] t3 (S3 & B3 & K3 & R3).
  2:{ split_and!; [done| |by exists []|].
      - eapply (Hsteps false a x id t t1 t2 t3 t3); done.
      - intros Hq e' (Q1 & [md Q2] & Q3 & Q4 & Q5)%Hfree.
        assert (G0 : forall k, k = a ++ [x] \/ k = a ++ [restore_name id] -> internal k = false -> label_at k t = None -> label_at k t2 = None).
        { intros k Hk Hki Hkn. destruct (G2 k) as [->|[_ Hs2]]; [by rewrite E1|]. destruct Hk as [->| ->]; by rewrite starts_longer in Hs2. }
        apply (R3 Hq); [done|done| |apply G0; auto|apply G0; auto; by apply (temporary_public q a x id)].
        destruct (G2 (file_place id)) as [->|[_ Hs2]]; [by rewrite (ensured_place _ t t1) by done|].
        intros _. assert (Hf : internal (file_place id) = false) by (by eapply internal_above). done. }
  apply leads_drop_record; [done|done|]. intros t4 S4 B4.
  destruct (Hsteps true a x id t t1 t2 t3 t4) as (P4 & R4); try done. destruct (R4 eq_refl) as (R4a & R4b & R4c & R4d).
  split_and!; [done|done| |done]. exists (a ++ [x]). split_and!; try done.
  intros a' x' Eax. apply app_inj_tail in Eax as [<- <-]. done.
Qed.
End public.

(** ** What the trash promises *)

Section promises.
Context `{!Machine} `{!TrashJSON} `{!UUID}.
Variable m : Manager.
Hypothesis conf : configured m.



(** What lets an entry come back: its path reads back, its identifier and the
    name of the temporary copy are new, and its record fits. *)
Record returnable id now virtualPath db t : Prop := {
  known_path : is_ok (Relative m virtualPath) = true;
  same_path : Relative m (VirtualPath (rel (place virtualPath))) = Ok (rel (place virtualPath));
  entry_there : label_at (place virtualPath) t <> None;
  trash_usable : trash_fits t;
  new_identifier : vacant id t;
  identifier : uuid_String (TrimSpace id) = Some id;
  real_time : 0 < now /\ printable now;
  free_name : forall a x, place virtualPath = a ++ [x] -> x <> restore_name id /\ label_at (a ++ [restore_name id]) t = None;
  small_record : forall n text, encode_entry (trash_entry id now (rel (place virtualPath)) db n) = Ok text ->
    len text <= maxTrashMetadataSize
}.

Lemma take_whole n s : len s <= n -> take_bytes n s = s.
Proof using Type.
  intros Hn. unfold take_bytes, len in *. assert (Hle : (String.length s <= Z.to_nat n)%nat) by lia. clear Hn.
  revert Hle. generalize (Z.to_nat n) as k. induction s as [|c s IH]; intros [|k] Hk; cbn in *; try done; try lia.
  f_equal. apply IH. lia.
Qed.

Lemma clean_virtual l : l <> [] -> Forall plain_part l -> valid_utf8 (rel l) = true ->
  clean_text (VirtualPath (rel l)) = VirtualPath (rel l).
Proof using Type.
  intros Hl0 Hl Hv. apply clean_valid. rewrite VirtualPath_rel by done. unfold path_of. destruct l as [|p l]; [done|].
  apply (valid_app "/"); [done|]. rewrite <- rel_cons; [done|]. by apply Forall_cons in Hl as [? _].
Qed.

(** The record of a deletion reads back. *)
Lemma record_reads id now virtualPath db t t1 n : returnable id now virtualPath db t -> place virtualPath <> [] ->
  valid_utf8 (rel (place virtualPath)) = true ->
  recorded id (trash_entry id now (rel (place virtualPath)) db n) t1 ->
  reads m id t1 (json_entry (trash_entry id now (rel (place virtualPath)) db n)).
Proof using All.
  intros Hr Hl0 Hv (mode & text & He & Hlab). set (l := place virtualPath) in *. set (e := trash_entry id now (rel l) db n) in *.
  assert (Hl := place_plain virtualPath). fold l in Hl. assert (Hid := identifier _ _ _ _ _ Hr).
  assert (Hval : validateTrashID id = Ok tt) by (unfold validateTrashID; by rewrite Hid, String.eqb_refl).
  destruct (exists_last Hl0) as (a & x & El).
  assert (Hx : valid_utf8 x = true /\ Base (rel l) = x).
  { rewrite El in *. assert (Hp := Hl). apply Forall_app in Hp as [Ha [Hxp _]%Forall_cons]. split; [|by apply Base_rel].
    by apply (valid_rel_last a). }
  destruct Hx as [Hxv Hxb].
  assert (Hpath : clean_text (VirtualPath (rel l)) = VirtualPath (rel l)) by (by apply clean_virtual).
  destruct (real_time _ _ _ _ _ Hr) as [Hnow Hprint].
  destruct (decode_encoded_entry e) as (text' & He' & Hd); [done|apply i64_range|].
  rewrite He in He'. injection He' as <-. split; [done|]. split.
  - unfold checked_entry. cbn [e trash_entry json_entry TE_Version TE_ID TE_DeletedAt TE_OriginalPath TE_Name].
    rewrite (clean_valid id) by (apply uuid_ascii; by eapply valid_id_text). rewrite String.eqb_refl, Hpath.
    assert (Hsp := same_path _ _ _ _ _ Hr). fold l in Hsp. rewrite Hsp, Hxb, (clean_valid x), String.eqb_refl by done.
    rewrite rel_root, bool_decide_eq_false_2 by done. unfold IsZero. rewrite (proj2 (Z.eqb_neq now 0)) by lia. done.
  - exists mode, text. split; [done|]. rewrite take_whole; [done|]. by eapply small_record.
Qed.

End promises.

(** ** A sample *)

Definition entry_fields (e : TrashEntry) : list (Z + string) :=
  [inl (TE_Version e); inr (TE_ID e); inr (TE_OriginalPath e); inr (TE_Name e); inl (TE_Size e); flag (TE_IsDir e);
   inl (TE_DeletedAt e); inr (TE_DeletedBy e)].

Definition fields_entry (l : list (Z + string)) : result TrashEntry :=
  match l with
  | [inl version; inr id; inr path; inr name; inl size; inl is_dir; inl at_; inr by_] =>
      Ok (mkTrashEntry version id path name size (is_dir =? 1) at_ by_)
  | _ => Fail (ErrorString "invalid")
  end.

Definition read_entry (s : string) : result TrashEntry :=
  match line_fields s with Some l => fields_entry l | None => Fail (ErrorString "invalid") end.

#[local] Program Instance sample_entries : TrashJSON := {
  encode_entry e := Ok (fields_line (entry_fields (json_entry e)));
  decode_entry := read_entry
}.
Next Obligation.
  intros e _ _. eexists. split; [done|]. unfold read_entry. rewrite line_fields_of. unfold entry_fields, flag. cbn.
  unfold json_entry. by destruct (TE_IsDir e).
Qed.

#[local] Program Instance sample_identifiers : UUID := {
  uuid_String s := if (len s =? 36) && sforall uuid_byte s then Some s else None
}.
Next Obligation.
  intros s id E. cbv beta in E. destruct ((len s =? 36) && sforall uuid_byte s) eqn:Eb; [|done]. injection E as <-.
  by apply andb_true_iff in Eb as [->%Z.eqb_eq ->].
Qed.

(** The trash is on a mount of its own. *)
#[local] Instance two_mounts : Machine :=
  {| umask := 18; mount_of := fun path => if internal path then 1 else 0; directory_size := 4096 |}.

Definition sample_id : string := "01234567-89ab-cdef-0123-456789abcdef".
Definition sample_run : result TrashEntry * world node :=
  MoveToTrash (sample_manager []) sample_id 7 "/websites/site" "admin" (World sample_tree []).



Lemma short_number z : - 2 ^ 63 <= z < 2 ^ 63 -> len (field_string (inl z)) <= 71.
Proof.
  intros Hz. unfold field_string, len. cbn [String.length]. rewrite Nat2Z.inj_succ.
  enough (String.length (bits_of (encode z)) <= 70)%nat by lia. apply length_bits.
  destruct z as [|p|p]; [done|change (Z.pos p~0 < 2 ^ 70)|change (Z.pos p~1 < 2 ^ 70)]; lia.
Qed.

Definition sample_entry (size : Z) (is_dir : bool) : TrashEntry :=
  mkTrashEntry 1 sample_id "/websites/site" "site" size is_dir 7 "admin".

Lemma sample_record size is_dir : - 2 ^ 63 <= size < 2 ^ 63 ->
  len (fields_line (entry_fields (json_entry (sample_entry size is_dir)))) <= maxTrashMetadataSize.
Proof.
  intros H1%short_number. rewrite length_fields_line.
  assert (H2 : len (field_string (flag is_dir)) <= 71) by (destruct is_dir; vm_compute; discriminate).
  unfold entry_fields, sample_entry, json_entry.
  cbn [fold_right TE_Version TE_ID TE_OriginalPath TE_Name TE_Size TE_IsDir TE_DeletedAt TE_DeletedBy].
  revert H1 H2. generalize (len (field_string (inl size))) (len (field_string (flag is_dir))). intros x y Hx Hy.
  rewrite !clean_valid by (vm_compute; reflexivity).
  assert (Hs : forall s, len (field_string (inr s)) = len s + 1) by (intros s; unfold field_string, len; cbn [String.length]; lia).
  rewrite !Hs. assert (H1 : len (field_string (inl 1)) <= 71 /\ len (field_string (inl 7)) <= 71) by by split; apply short_number.
  change (len sample_id) with 36. change (len "/websites/site") with 14. change (len "site") with 4. change (len "admin") with 5.
  change maxTrashMetadataSize with 65536. change time with Z. lia.
Qed.

Lemma sample_returnable : returnable (sample_manager []) sample_id 7 "/websites/site" "admin" sample_tree.
Proof.
  constructor.
  - reflexivity.
  - reflexivity.
  - vm_compute. discriminate.
  - repeat (apply Forall_cons; split; [left; eexists; vm_compute; reflexivity|]). constructor.
  - repeat split; vm_compute; reflexivity.
  - vm_compute. reflexivity.
  - split; [done|]. split; [done|]. reflexivity.
  - change (place "/websites/site") with (["websites"] ++ ["site"]). intros a x [<- <-]%app_inj_tail.
    split; [discriminate|vm_compute; reflexivity].
  - intros n text E. assert (text = fields_line (entry_fields (json_entry (sample_entry (i64 (info_size n)) (IsDir n))))) as ->.
    { change (Ok (fields_line (entry_fields (json_entry (sample_entry (i64 (info_size n)) (IsDir n))))) = Ok text) in E. congruence. }
    apply sample_record, i64_range.
Qed.


(** A path is trimmed when it is read: a name that ends in a space, reached by
    a path that goes on after it, is deleted with a record that is refused. *)
Lemma a_trailing_space_is_not_restored :
  let t := dir [("x ", file "hello"); (internalDirectoryName, dir [("files", dir []); ("metadata", dir [])])] in
  let run := MoveToTrash (sample_manager []) sample_id 7 "/x /." "admin" (World t []) in
  is_ok run.1 = true
  /\ label_at (file_place sample_id) (tables run.2) = Some (LFile 420 "hello")
  /\ is_ok (RestoreTrash (sample_manager []) sample_id (World (tables run.2) [])).1 = false.
Proof. vm_compute. repeat split. Qed.
