(* ===== verification/BackupCrypt.v ===== *)
(** Encrypted archives of the panel ([internal/services/panelbackup/encryption.go]):
    a magic line, a header, then the content in chunks, each sealed under its
    index and the header, and an empty chunk at the end.

    XChaCha20-Poly1305 is the interface [Credential.AEAD], with its nonce of 24
    bytes; scrypt and the JSON of the header are parameters. *)

From stdpp Require Import gmap strings options.
From S2P Require Import Prelude GoStrings GoText GoCrypto GoPath Store GoFiles Credential.
#[local] Open Scope Z_scope.

Definition ErrInvalidBackup : string := "invalid panel backup".
Definition ErrInvalidPassphrase : string := "invalid panel backup passphrase".

Definition EncryptionSchema : Z := 1.
Definition backupMagic : string := "ONEINSTACK-PANEL-BACKUP-V1" +:+ str1 "010".
Definition encryptionChunkSize : Z := 2 ^ 20.
Definition maxHeaderBytes : Z := 2 ^ 14.

Record encryptionHeader := mkHeader {
  H_SchemaVersion : Z; H_KDF : string; H_Salt : string; H_N : Z; H_R : Z; H_P : Z;
  H_Cipher : string; H_NoncePrefix : string; H_ChunkSize : Z; H_CreatedAt : time
}.

Definition validatePassphrase (passphrase : string) : option error :=
  if negb (valid_utf8 passphrase) || has_byte "000" passphrase then Some (Sentinel ErrInvalidPassphrase)
  else if (len passphrase <? 12) || (256 <? len passphrase) then
    Some (Wrap "" (Sentinel ErrInvalidPassphrase) ": passphrase must contain 12-256 bytes")
  else None.

(** ** Bytes *)

(** [binary.BigEndian], four bytes. *)
Definition be32 (n : Z) : list Z := bytes_of_word (u32 n).

Definition read32 (l : list Z) : option (Z * list Z) :=
  match l with
  | a :: b :: c :: d :: rest => Some (word_of a b c d, rest)
  | _ => None
  end.

(** [io.ReadFull] of [n] bytes. *)
Definition read_full (n : nat) (l : list Z) : option (list Z * list Z) :=
  if (List.length l <? n)%nat then None else Some (take n l, drop n l).

Definition chunkNonce (prefix : list Z) (index : Z) : list Z := prefix ++ be64 index.

Definition chunkAAD (header : list Z) (index : Z) : list Z := header ++ be64 index.

(** Pieces of at most [n] bytes; [fuel] bounds their number. *)
Fixpoint chunks (fuel : nat) (n : nat) (l : list Z) : list (list Z) :=
  match fuel, l with
  | S fuel, _ :: _ => take n l :: chunks fuel n (drop n l)
  | _, _ => []
  end.

Definition invalid {A} : result A := Fail (Sentinel ErrInvalidBackup).

(** The JSON of the header: [json.Marshal]; a strict decoder that refuses
    unknown fields and trailing data; and [json.Unmarshal]. *)
Class HeaderJSON := {
  marshal_header : encryptionHeader -> string;
  decode_header : string -> option encryptionHeader;
  unmarshal_header : string -> option encryptionHeader;
  marshal_not_empty h : marshal_header h <> "";
  decode_marshal h : decode_header (marshal_header h) = Some h;
  unmarshal_marshal h : unmarshal_header (marshal_header h) = Some h
}.

Section encryption.
Context `{!AEAD} `{!HeaderJSON}.

(** [scrypt.Key] with N = 2^15, r = 8, p = 1 and 32 bytes of key. *)
Variable scrypt : string -> list Z -> list Z.

Definition header_of (salt noncePrefix : list Z) (createdAt : time) : encryptionHeader :=
  mkHeader EncryptionSchema "scrypt" (base64_encode salt) (2 ^ 15) 8 1 "XChaCha20-Poly1305"
    (base64_encode noncePrefix) encryptionChunkSize createdAt.

(** ** Encryption *)

Definition seal_chunk (key header noncePrefix : list Z) (index : Z) (chunk : list Z) : list Z :=
  Seal key (chunkNonce noncePrefix index) chunk (chunkAAD header index).

(** The chunks from [index] on: a read, then the size and the ciphertext. *)
Fixpoint write_chunks (source destination : string) (key header noncePrefix : list Z) (index : Z)
    (todo : list (list Z)) : M node unit :=
  let* _ := Sync source in
  match todo with
  | [] => ret tt
  | chunk :: todo =>
      let* _ := Append destination (string_of_bytes (be32 (Z.of_nat (List.length chunk)))) in
      let* _ := Append destination (string_of_bytes (seal_chunk key header noncePrefix index chunk)) in
      if Z.of_nat (List.length chunk) <? encryptionChunkSize then ret tt  (* a short read: the end *)
      else write_chunks source destination key header noncePrefix (u64 (index + 1)) todo
  end.

(** [defer]: the destination goes when an error is returned. *)
Definition removing {A} (destination : string) (m : M node A) : M node A :=
  let* done := attempt m in
  match done with
  | Ok a => ret a
  | Fail err => let* _ := ignoring (Remove destination) in fail err
  end.

Definition write_encrypted (source destination : string) (key header noncePrefix content : list Z)
    : M node unit :=
  let* _ := Append destination backupMagic in
  if maxHeaderBytes <? Z.of_nat (List.length header) then fail (Sentinel ErrInvalidBackup)
  else
    let* _ := Append destination (string_of_bytes (be32 (Z.of_nat (List.length header)))) in
    let* _ := Append destination (string_of_bytes header) in
    let* _ := write_chunks source destination key header noncePrefix 0
      (chunks (List.length content) (Z.to_nat encryptionChunkSize) content) in
    let* _ := Append destination (string_of_bytes (be32 0)) in
    Sync destination.

(** [salt] and [noncePrefix] are the outcomes of [rand.Read]. *)
Definition encryptArchive (sourcePath destinationPath passphrase : string) (createdAt : time)
    (salt noncePrefix : result (list Z)) : M node unit :=
  match validatePassphrase passphrase with
  | Some err => fail err
  | None =>
      match salt with
      | Fail err => fail (Wrap "generate backup encryption salt: " err "")
      | Ok salt =>
          match noncePrefix with
          | Fail err => fail (Wrap "generate backup nonce prefix: " err "")
          | Ok noncePrefix =>
              let header := bytes_of (marshal_header (header_of salt noncePrefix createdAt)) in
              let key := scrypt passphrase salt in
              let* content := ReadFile sourcePath in
              let* _ := CreateExcl destinationPath 384 in
              let* _ := removing destinationPath
                (write_encrypted sourcePath destinationPath key header noncePrefix (bytes_of content)) in
              Sync (Dir destinationPath)
          end
      end
  end.

(** ** Decryption *)

(** The magic line and the bytes of the header. *)
Definition read_prelude (l : list Z) : result (list Z * list Z) :=
  match read_full (String.length backupMagic) l with
  | None => invalid
  | Some (magic, l) =>
      if negb (bool_decide (magic = bytes_of backupMagic)) then invalid
      else
        match read32 l with
        | None => invalid
        | Some (size, l) =>
            if (size =? 0) || (maxHeaderBytes <? size) then invalid
            else match read_full (Z.to_nat size) l with Some found => Ok found | None => invalid end
        end
  end.

(** The header with the salt and the nonce prefix that it carries. *)
Definition check_header (header : encryptionHeader) : result (list Z * list Z) :=
  if negb (H_SchemaVersion header =? EncryptionSchema) || negb (String.eqb (H_KDF header) "scrypt")
     || negb (H_N header =? 2 ^ 15) || negb (H_R header =? 8) || negb (H_P header =? 1)
     || negb (String.eqb (H_Cipher header) "XChaCha20-Poly1305")
     || negb (H_ChunkSize header =? encryptionChunkSize) || IsZero (H_CreatedAt header) then invalid
  else
    match base64_decode (H_Salt header) with
    | None => invalid
    | Some salt =>
        if negb (List.length salt =? 16)%nat then invalid
        else
          match base64_decode (H_NoncePrefix header) with
          | None => invalid
          | Some noncePrefix =>
              if negb (List.length noncePrefix =? 16)%nat then invalid else Ok (salt, noncePrefix)
          end
    end.

(** The next chunk, [None] at the end; [total] bytes came before. *)
Definition next_chunk (key header noncePrefix : list Z) (maxPlaintextBytes index total : Z) (l : list Z)
    : result (option (list Z) * list Z) :=
  match read32 l with
  | None => invalid
  | Some (size, l) =>
      if size =? 0 then Ok (None, l)
      else if (encryptionChunkSize <? size) || (maxPlaintextBytes <? total + size) then invalid
      else
        match read_full (Z.to_nat size + Overhead) l with
        | None => invalid
        | Some (ciphertext, l) =>
            match Open key (chunkNonce noncePrefix index) ciphertext (chunkAAD header index) with
            | None => Fail (Sentinel ErrInvalidPassphrase)
            | Some plaintext => Ok (Some plaintext, l)
            end
        end
  end.

(** Reading on: every error but that of [os.Open] means a bad archive. *)
Definition reading (source : string) : M node unit :=
  let* done := attempt (Sync source) in
  match done with Ok _ => ret tt | Fail _ => fail (Sentinel ErrInvalidBackup) end.

(** Each chunk takes at least four bytes, so [fuel] is the number of bytes. *)
Fixpoint read_chunks (fuel : nat) (source destination : string) (key header noncePrefix : list Z)
    (maxPlaintextBytes index total : Z) (l : list Z) : M node (list Z) :=
  let* _ := reading source in
  match next_chunk key header noncePrefix maxPlaintextBytes index total l with
  | Fail err => fail err
  | Ok (None, l) => ret l
  | Ok (Some plaintext, l) =>
      let* _ := Append destination (string_of_bytes plaintext) in
      match fuel with
      | O => fail (ErrorString "out of fuel")
      | S fuel =>
          read_chunks fuel source destination key header noncePrefix maxPlaintextBytes (u64 (index + 1))
            (total + Z.of_nat (List.length plaintext)) l
      end
  end.

Definition decryptArchive (sourcePath destinationPath passphrase : string) (maxPlaintextBytes : Z)
    : M node encryptionHeader :=
  match validatePassphrase passphrase with
  | Some err => fail err
  | None =>
      let* content := ReadFile sourcePath in
      let* _ := reading sourcePath in
      match read_prelude (bytes_of content) with
      | Fail err => fail err
      | Ok (headerBytes, l) =>
          match decode_header (string_of_bytes headerBytes) with
          | None => fail (Sentinel ErrInvalidBackup)
          | Some header =>
              match check_header header with
              | Fail err => fail err
              | Ok (salt, noncePrefix) =>
                  let key := scrypt passphrase salt in
                  let* _ := CreateExcl destinationPath 384 in
                  removing destinationPath
                    (let* rest := read_chunks (List.length l) sourcePath destinationPath key headerBytes
                       noncePrefix maxPlaintextBytes 0 0 l in
                     if negb (List.length rest =? 0)%nat then fail (Sentinel ErrInvalidBackup)
                     else let* _ := Sync destinationPath in ret header)
              end
          end
      end
  end.

Definition readEncryptionHeader (path : string) : M node encryptionHeader :=
  let* content := ReadFile path in
  let* _ := reading path in
  match read_prelude (bytes_of content) with
  | Fail err => fail err
  | Ok (headerBytes, _) =>
      match unmarshal_header (string_of_bytes headerBytes) with
      | Some header =>
          if negb (H_SchemaVersion header =? EncryptionSchema) || IsZero (H_CreatedAt header)
          then fail (Sentinel ErrInvalidBackup) else ret header
      | None => fail (Sentinel ErrInvalidBackup)
      end
  end.
End encryption.

(** ** The bytes of an archive *)

Lemma bytes_of_app a b : bytes_of (a +:+ b) = bytes_of a ++ bytes_of b.
Proof.
  unfold bytes_of. induction a as [|c a IH]; [done|].
  change (byte_of c :: map byte_of (list_ascii_of_string (a +:+ b)) =
          byte_of c :: (map byte_of (list_ascii_of_string a) ++ map byte_of (list_ascii_of_string b))).
  by rewrite IH.
Qed.

Lemma bytes_of_string l : Forall is_byte l -> bytes_of (string_of_bytes l) = l.
Proof.
  unfold bytes_of, string_of_bytes. rewrite list_ascii_of_string_of_list_ascii, map_map.
  induction 1 as [|b l Hb _ IH]; [done|]. cbn. by rewrite byte_of_byte, IH.
Qed.

Lemma string_of_bytes_app a b : string_of_bytes (a ++ b) = string_of_bytes a +:+ string_of_bytes b.
Proof.
  unfold string_of_bytes. rewrite map_app. induction (map of_byte a) as [|c l IH]; [done|].
  cbn [app String.string_of_list_ascii]. rewrite IH. done.
Qed.

Lemma bytes_of_word_bytes n : Forall is_byte (bytes_of_word n).
Proof. unfold bytes_of_word. repeat constructor; unfold is_byte; apply Z.mod_pos_bound; lia. Qed.

Lemma read32_be32 n l : 0 <= n < 2 ^ 32 -> read32 (be32 n ++ l) = Some (n, l).
Proof.
  intros Hn. unfold be32, u32. rewrite Z.mod_small by done. cbn. f_equal. f_equal. unfold word_of.
  change (2 ^ 32) with 4294967296 in Hn. Z.to_euclidean_division_equations. lia.
Qed.

Lemma read_full_app a l : read_full (List.length a) (a ++ l) = Some (a, l).
Proof.
  unfold read_full. rewrite length_app, (proj2 (Nat.ltb_ge _ _)) by lia.
  by rewrite take_app_length, drop_app_length.
Qed.

Lemma length_be64 n : List.length (be64 n) = 8%nat.
Proof. reflexivity. Qed.

(** The index and the header of a sealed chunk can be read off its data. *)
Lemma chunkAAD_inj h i h' i' : 0 <= i < 2 ^ 64 -> 0 <= i' < 2 ^ 64 ->
  chunkAAD h i = chunkAAD h' i' -> h = h' /\ i = i'.
Proof.
  intros Hi Hi' E. unfold chunkAAD in E. apply app_inj_2 in E as [-> E]; [|by rewrite !length_be64].
  split; [done|]. unfold be64, bytes_of_word in E.
  injection E as E0 E1 E2 E3 E4 E5 E6 E7. clear h'. change (2 ^ 64) with 18446744073709551616 in *.
  Z.to_euclidean_division_equations. lia.
Qed.

#[local] Opaque encryptionChunkSize backupMagic.

Lemma chunk_size_range : 0 < encryptionChunkSize < 2 ^ 32.
Proof. by vm_compute. Qed.

Section archives.
Context `{!AEAD} `{!HeaderJSON}.
Variable scrypt : string -> list Z -> list Z.

(** The chunks as they are stored, from [index] on. *)
Fixpoint sealed_from (key header noncePrefix : list Z) (index : Z) (todo : list (list Z)) : list Z :=
  match todo with
  | [] => []
  | chunk :: todo =>
      be32 (Z.of_nat (List.length chunk)) ++ seal_chunk key header noncePrefix index chunk
      ++ sealed_from key header noncePrefix (u64 (index + 1)) todo
  end.

Definition archive_bytes (key header noncePrefix : list Z) (todo : list (list Z)) : list Z :=
  bytes_of backupMagic ++ be32 (Z.of_nat (List.length header)) ++ header
  ++ sealed_from key header noncePrefix 0 todo ++ be32 0.

(** No chunk is empty or too long, and only the last one is short. *)
Inductive well_chunked : list (list Z) -> Prop :=
  | chunked_nil : well_chunked []
  | chunked_last c : 0 < Z.of_nat (List.length c) <= encryptionChunkSize -> Forall is_byte c -> well_chunked [c]
  | chunked_cons c l : Z.of_nat (List.length c) = encryptionChunkSize -> Forall is_byte c -> well_chunked l ->
      well_chunked (c :: l).

Lemma chunks_concat fuel n l : (0 < n)%nat -> (List.length l <= fuel)%nat -> List.concat (chunks fuel n l) = l.
Proof using Type.
  intros Hn. revert l. induction fuel as [|fuel IH]; intros l Hl; [by destruct l; [|cbn in Hl; lia]|].
  cbn [chunks]. destruct l as [|z l]; [done|]. cbn [List.concat].
  rewrite IH, take_drop; [done|]. rewrite length_drop. cbn in *. lia.
Qed.

Lemma chunks_nil fuel n : chunks fuel n [] = [].
Proof using Type. by destruct fuel. Qed.

Lemma chunks_well fuel l : Forall is_byte l -> well_chunked (chunks fuel (Z.to_nat encryptionChunkSize) l).
Proof using Type.
  pose proof chunk_size_range as Hsize. revert l. induction fuel as [|fuel IH]; intros l Hl; [constructor|].
  cbn [chunks]. destruct l as [|z l]; [constructor|]. set (k := z :: l) in *.
  assert (Hk : (0 < List.length k)%nat) by (cbn; lia).
  destruct (le_lt_dec (List.length k) (Z.to_nat encryptionChunkSize)) as [Hs|Hs].
  - rewrite take_ge, drop_ge, chunks_nil by lia. constructor; [lia|done].
  - constructor; [rewrite length_take; lia|by apply Forall_take|by apply IH, Forall_drop].
Qed.

Lemma well_chunked_head c l : well_chunked (c :: l) ->
  0 < Z.of_nat (List.length c) <= encryptionChunkSize /\ Forall is_byte c /\ well_chunked l /\
  (Z.of_nat (List.length c) <? encryptionChunkSize = true -> l = []).
Proof using Type.
  pose proof chunk_size_range. inversion 1; subst; split_and!; try done; try lia; try constructor.
Qed.

(** ** What encryption writes *)

Lemma removing_Ok {A} path (m : M node A) w a w' : removing path m w = (Ok a, w') -> m w = (Ok a, w').
Proof using Type.
  unfold removing, bind, attempt. destruct (m w) as [[b|e] w1]; cbn; [done|].
  unfold ignoring, bind, attempt. by destruct (Remove path w1) as [[|] ?].
Qed.

Lemma write_chunks_Ok source destination key header noncePrefix index todo mode before w u w' :
  well_chunked todo -> at_path destination (tables w) = Some (FileNode mode before) ->
  write_chunks source destination key header noncePrefix index todo w = (Ok u, w') ->
  at_path destination (tables w') =
    Some (FileNode mode (before +:+ string_of_bytes (sealed_from key header noncePrefix index todo))) /\
  only_at destination (tables w) (tables w').
Proof using Type.
  revert index before w. induction todo as [|c todo IH]; intros index before w Hc Hw E; cbn [write_chunks] in E.
  - apply bind_Ok in E as (v & w1 & E1%Sync_tables & E%ret_Ok). destruct E as [_ ->].
    rewrite E1, Hw. cbn. by rewrite sapp_nil_r.
  - apply well_chunked_head in Hc as (Hlen & Hbytes & Hrest & Hshort).
    apply bind_Ok in E as (v & w1 & E1%Sync_tables & E).
    apply bind_Ok in E as (v2 & w2 & (m1 & b1 & H1 & H2 & Ho1)%Append_Ok & E).
    apply bind_Ok in E as (v3 & w3 & (m2 & b2 & H3 & H4 & Ho2)%Append_Ok & E).
    rewrite E1, Hw in H1. injection H1 as <- <-. rewrite H2 in H3. injection H3 as <- <-.
    rewrite E1 in Ho1. pose proof (only_at_trans _ _ _ _ Ho1 Ho2) as Ho.
    cbn [sealed_from]. rewrite !string_of_bytes_app, <- !sapp_assoc.
    destruct (Z.of_nat (List.length c) <? encryptionChunkSize).
    + rewrite (Hshort eq_refl). apply ret_Ok in E as [_ ->]. cbn [sealed_from string_of_bytes map].
      change (string_of_bytes []) with "". rewrite sapp_nil_r. done.
    + apply IH with (before := (before +:+ string_of_bytes (be32 (Z.of_nat (List.length c)))) +:+
        string_of_bytes (seal_chunk key header noncePrefix index c)) in E as [E Ho']; [|done..].
      split; [done|by eapply only_at_trans].
Qed.

Lemma write_encrypted_Ok source destination key header noncePrefix content mode w u w' :
  Forall is_byte content -> at_path destination (tables w) = Some (FileNode mode "") ->
  write_encrypted source destination key header noncePrefix content w = (Ok u, w') ->
  at_path destination (tables w') = Some (FileNode mode (string_of_bytes (archive_bytes key header noncePrefix
    (chunks (List.length content) (Z.to_nat encryptionChunkSize) content)))) /\
  only_at destination (tables w) (tables w') /\ Z.of_nat (List.length header) <= maxHeaderBytes.
Proof using Type.
  intros Hb Hw E. unfold write_encrypted in E.
  apply bind_Ok in E as (v1 & w1 & (m1 & b1 & H1 & H2 & Ho1)%Append_Ok & E).
  rewrite Hw in H1. injection H1 as <- <-.
  destruct (maxHeaderBytes <? _) eqn:Eh; [done|]. apply Z.ltb_ge in Eh.
  apply bind_Ok in E as (v2 & w2 & (m2 & b2 & H3 & H4 & Ho2)%Append_Ok & E).
  apply bind_Ok in E as (v3 & w3 & (m3 & b3 & H5 & H6 & Ho3)%Append_Ok & E).
  apply bind_Ok in E as (v4 & w4 & E4 & E).
  apply bind_Ok in E as (v5 & w5 & (m5 & b5 & H7 & H8 & Ho5)%Append_Ok & E%Sync_tables).
  rewrite H2 in H3. injection H3 as <- <-. rewrite H4 in H5. injection H5 as <- <-.
  eapply write_chunks_Ok in E4 as [E4 Ho4]; [|by apply chunks_well|exact H6].
  rewrite E4 in H7. injection H7 as <- <-. split_and!; [| |done].
  - rewrite E, H8. do 2 f_equal. unfold archive_bytes. rewrite !string_of_bytes_app, !sapp_assoc, string_of_bytes_of.
    done.
  - rewrite E. repeat (eapply only_at_trans; [eassumption|]). apply only_at_refl.
Qed.
End archives.

Section decryption.
Context `{!AEAD} `{!HeaderJSON}.
Variable scrypt : string -> list Z -> list Z.
Hypothesis Hnonce : NonceSize = 24%nat.

Lemma read_prelude_archive key header noncePrefix todo :
  0 < Z.of_nat (List.length header) <= maxHeaderBytes ->
  read_prelude (archive_bytes key header noncePrefix todo)
  = Ok (header, sealed_from key header noncePrefix 0 todo ++ be32 0).
Proof using Type.
  clear Hnonce.
  intros Hh. unfold read_prelude, archive_bytes.
  rewrite <- length_bytes_of, read_full_app, bool_decide_true by done. cbn [negb].
  assert (maxHeaderBytes < 2 ^ 32) by done. rewrite read32_be32 by lia.
  rewrite (proj2 (Z.eqb_neq _ _)), (proj2 (Z.ltb_ge _ _)) by lia. cbn [orb].
  by rewrite Nat2Z.id, read_full_app.
Qed.

Lemma check_header_of salt noncePrefix createdAt :
  Forall is_byte salt -> List.length salt = 16%nat -> Forall is_byte noncePrefix -> List.length noncePrefix = 16%nat ->
  createdAt <> 0 -> check_header (header_of salt noncePrefix createdAt) = Ok (salt, noncePrefix).
Proof using Type.
  clear Hnonce.
  intros Hs Hls Hp Hlp Hc. unfold check_header, header_of.
  cbn [H_SchemaVersion H_KDF H_N H_R H_P H_Cipher H_ChunkSize H_CreatedAt H_Salt H_NoncePrefix].
  rewrite !Z.eqb_refl, !String.eqb_refl. unfold IsZero. rewrite (proj2 (Z.eqb_neq _ _)) by done. cbn [negb orb].
  by rewrite !base64_roundtrip, Hls, Hlp by done.
Qed.

Lemma next_chunk_sealed key header noncePrefix max index total c rest :
  List.length noncePrefix = 16%nat -> 0 < Z.of_nat (List.length c) <= encryptionChunkSize ->
  total + Z.of_nat (List.length c) <= max ->
  next_chunk key header noncePrefix max index total
    (be32 (Z.of_nat (List.length c)) ++ seal_chunk key header noncePrefix index c ++ rest) = Ok (Some c, rest).
Proof using Hnonce.
  intros Hp Hc Hm. pose proof chunk_size_range. unfold next_chunk. rewrite read32_be32 by lia.
  rewrite (proj2 (Z.eqb_neq _ _)), !(proj2 (Z.ltb_ge _ _)) by lia. cbn [orb].
  assert (Hlen : (Z.to_nat (Z.of_nat (List.length c)) + Overhead)%nat =
                 List.length (seal_chunk key header noncePrefix index c)).
  { unfold seal_chunk. rewrite Seal_length. lia. }
  rewrite Hlen, read_full_app. unfold seal_chunk. rewrite Open_Seal; [done|].
  unfold chunkNonce. rewrite length_app, length_be64. lia.
Qed.

Lemma next_chunk_end key header noncePrefix max index total rest :
  next_chunk key header noncePrefix max index total (be32 0 ++ rest) = Ok (None, rest).
Proof using Type. done. Qed.

Lemma clean_reading source disk : reading source (World disk []) = (Ok tt, World disk []).
Proof using Type. done. Qed.

Lemma clean_read_chunks source destination key header noncePrefix max todo index total fuel mode before disk :
  List.length noncePrefix = 16%nat -> well_chunked todo ->
  total + Z.of_nat (List.length (List.concat todo)) <= max -> (List.length todo <= fuel)%nat ->
  parts destination <> [] -> at_path destination disk = Some (FileNode mode before) ->
  exists disk', read_chunks fuel source destination key header noncePrefix max index total
      (sealed_from key header noncePrefix index todo ++ be32 0) (World disk []) = (Ok [], World disk' []) /\
    at_path destination disk' = Some (FileNode mode (before +:+ string_of_bytes (List.concat todo))) /\
    only_at destination disk disk'.
Proof using Hnonce.
  intros Hp Hw Hm Hfuel Hd. revert index total fuel before disk Hm Hfuel.
  induction todo as [|c todo IH]; intros index total fuel before disk Hm Hfuel Hb.
  - exists disk. split_and!; [by destruct fuel| |apply only_at_refl]. cbn. by rewrite sapp_nil_r.
  - apply well_chunked_head in Hw as (Hlen & Hbytes & Hrest & _). cbn [List.concat] in Hm |- *.
    rewrite length_app in Hm. destruct fuel as [|fuel]; [cbn in Hfuel; lia|].
    cbn [read_chunks sealed_from]. unfold bind at 1. rewrite clean_reading, <- !app_assoc.
    rewrite next_chunk_sealed by (done || lia).
    destruct (clean_Append destination (string_of_bytes c) mode before disk Hd Hb) as (d1 & E1 & Hb1 & Ho1).
    unfold bind. rewrite E1.
    destruct (IH Hrest (u64 (index + 1)) (total + Z.of_nat (List.length c)) fuel
      (before +:+ string_of_bytes c) d1 ltac:(lia) ltac:(cbn in Hfuel; lia) Hb1) as (d2 & E2 & Hb2 & Ho2).
    exists d2. split; [exact E2|]. split; [|by eapply only_at_trans].
    rewrite Hb2, string_of_bytes_app, sapp_assoc. done.
Qed.

Lemma sealed_from_length key header noncePrefix index todo :
  (List.length todo <= List.length (sealed_from key header noncePrefix index todo))%nat.
Proof using Type.
  clear Hnonce.
  revert index. induction todo as [|c todo IH]; intros index; [done|]. cbn [sealed_from List.length].
  rewrite !length_app. specialize (IH (u64 (index + 1))).
  assert (List.length (be32 (Z.of_nat (List.length c))) = 4%nat) by done. lia.
Qed.

Lemma sealed_from_bytes key header noncePrefix index todo : well_chunked todo ->
  Forall is_byte (sealed_from key header noncePrefix index todo).
Proof using Type.
  clear Hnonce.
  revert index. induction todo as [|c todo IH]; intros index Hw; [constructor|].
  apply well_chunked_head in Hw as (_ & Hb & Hw & _). cbn [sealed_from].
  apply Forall_app. split; [apply bytes_of_word_bytes|]. apply Forall_app. split; [by apply Seal_bytes|by apply IH].
Qed.

Lemma archive_bytes_bytes key header noncePrefix todo : Forall is_byte header -> well_chunked todo ->
  Forall is_byte (archive_bytes key header noncePrefix todo).
Proof using Type.
  clear Hnonce.
  intros Hh Hw. unfold archive_bytes. rewrite !Forall_app.
  split_and!; try done; try apply bytes_of_is_byte; try apply bytes_of_word_bytes. by apply sealed_from_bytes.
Qed.

End decryption.

Section promises.
Context `{!AEAD} `{!HeaderJSON}.
Variable scrypt : string -> list Z -> list Z.

(** The random values of an encryption, and a time that is set. *)
Definition drawn (salt noncePrefix : list Z) (createdAt : time) : Prop :=
  Forall is_byte salt /\ List.length salt = 16%nat /\ Forall is_byte noncePrefix /\
  List.length noncePrefix = 16%nat /\ createdAt <> 0.

Lemma encryptArchive_Ok source destination passphrase createdAt salt noncePrefix w u w' :
  encryptArchive scrypt source destination passphrase createdAt (Ok salt) (Ok noncePrefix) w = (Ok u, w') ->
  validatePassphrase passphrase = None /\
  exists content, (exists mode, at_path source (tables w) = Some (FileNode mode content)) /\
    let header := bytes_of (marshal_header (header_of salt noncePrefix createdAt)) in
    Z.of_nat (List.length header) <= maxHeaderBytes /\
    at_path destination (tables w') = Some (FileNode 384 (string_of_bytes
      (archive_bytes (scrypt passphrase salt) header noncePrefix
        (chunks (List.length (bytes_of content)) (Z.to_nat encryptionChunkSize) (bytes_of content))))) /\
    only_at destination (tables w) (tables w').
Proof.
  unfold encryptArchive. destruct (validatePassphrase passphrase); [done|]. intros E. split; [done|].
  apply bind_Ok in E as (content & w1 & [H1 Hc]%ReadFile_Ok & E).
  apply bind_Ok in E as (v2 & w2 & (_ & H2 & Ho2)%CreateExcl_Ok & E).
  apply bind_Ok in E as (v3 & w3 & E3%removing_Ok & E%Sync_tables).
  eapply write_encrypted_Ok in E3 as (H3 & Ho3 & Hh); [|apply bytes_of_is_byte|exact H2].
  exists content. split; [done|]. split_and!; [done|by rewrite E|].
  rewrite E, <- H1. by eapply only_at_trans.
Qed.

(** C9: round trip of backups. An archive that was written, whatever happened
    on the way, is opened again under its passphrase, and the file that comes
    out holds exactly the bytes that went in. *)
Theorem backup_archives_roundtrip source archive restored passphrase createdAt salt noncePrefix max w u w1
  (Hnonce : NonceSize = 24%nat)
  (Hdrawn : drawn salt noncePrefix createdAt)
  (Hwritten : encryptArchive scrypt source archive passphrase createdAt (Ok salt) (Ok noncePrefix) w = (Ok u, w1))
  (Hroom : at_path restored (tables w1) = None /\ is_Some (put_at restored (Some (FileNode 384 "")) (tables w1)))
  (Hmax : forall mode content, at_path source (tables w) = Some (FileNode mode content) -> len content <= max) :
  exists mode content disk,
    at_path source (tables w) = Some (FileNode mode content) /\
    decryptArchive scrypt archive restored passphrase max (World (tables w1) []) =
      (Ok (header_of salt noncePrefix createdAt), World disk []) /\
    at_path restored disk = Some (FileNode 384 content) /\ only_at restored (tables w1) disk.
Proof.
  destruct Hdrawn as (Hs & Hls & Hp & Hlp & Hc).
  apply encryptArchive_Ok in Hwritten as (Hv & content & [mode Hsrc] & Hh & Ha & _).
  specialize (Hmax mode content Hsrc). exists mode, content.
  set (header := bytes_of (marshal_header (header_of salt noncePrefix createdAt))) in *.
  set (todo := chunks _ _ _) in *. set (key := scrypt passphrase salt) in *.
  assert (Hw : well_chunked todo) by apply chunks_well, bytes_of_is_byte.
  assert (Hcat : List.concat todo = bytes_of content).
  { apply chunks_concat; [|lia]. pose proof chunk_size_range. lia. }
  assert (Hne : 0 < Z.of_nat (List.length header)).
  { unfold header. rewrite length_bytes_of. pose proof (marshal_not_empty (header_of salt noncePrefix createdAt)).
    destruct (marshal_header _); [done|]. cbn. lia. }
  destruct (clean_CreateExcl restored 384 (tables w1) (proj1 Hroom) (proj2 Hroom)) as (d1 & E1 & H1 & Ho1).
  assert (Hparts : parts restored <> []) by (destruct Hroom as [_ [d' E]]; by eapply put_at_parts).
  destruct (clean_read_chunks Hnonce archive restored key header noncePrefix max todo 0 0
    (List.length (sealed_from key header noncePrefix 0 todo ++ be32 0)) 384 "" d1 Hlp Hw) as (d2 & E2 & H2 & Ho2).
  { rewrite Hcat, length_bytes_of. exact Hmax. }
  { rewrite length_app. pose proof (sealed_from_length key header noncePrefix 0 todo). lia. }
  { done. }
  { done. }
  exists d2. split; [done|]. split; [|split].
  - unfold decryptArchive. rewrite Hv. unfold bind at 1. rewrite (clean_ReadFile _ _ _ _ Ha).
    unfold bind at 1. rewrite clean_reading, bytes_of_string by (apply archive_bytes_bytes; [apply bytes_of_is_byte|done]).
    rewrite read_prelude_archive by done. unfold header at 1. rewrite string_of_bytes_of, decode_marshal.
    rewrite check_header_of by done. fold key. unfold bind at 1. rewrite E1.
    unfold removing, bind, attempt. rewrite E2. done.
  - rewrite H2, Hcat, string_of_bytes_of. done.
  - by eapply only_at_trans.
Qed.
(** ** Archives that were tampered with *)

(** What the panel sealed for one archive. *)
Record sealedArchive := mkArchive {
  A_salt : list Z; A_prefix : list Z; A_header : list Z; A_chunks : list (list Z)
}.

(** A key, a nonce, a ciphertext and its data. *)
Definition block : Type := list Z * list Z * list Z * list Z.

Fixpoint blocks_from (key header noncePrefix : list Z) (index : Z) (todo : list (list Z)) : list block :=
  match todo with
  | [] => []
  | c :: todo =>
      (key, chunkNonce noncePrefix index, seal_chunk key header noncePrefix index c, chunkAAD header index)
      :: blocks_from key header noncePrefix (index + 1) todo
  end.

Definition sealed_blocks (passphrase : string) (a : sealedArchive) : list block :=
  blocks_from (scrypt passphrase (A_salt a)) (A_header a) (A_prefix a) 0 (A_chunks a).

(** The blocks that open, one after the other, in a file that is read. *)
Fixpoint opened_from (fuel : nat) (key header noncePrefix : list Z) (index : Z) (l : list Z) : list block :=
  match fuel, read32 l with
  | S fuel, Some (size, l) =>
      match read_full (Z.to_nat size + Overhead) l with
      | Some (ciphertext, l) =>
          if size =? 0 then []
          else
            match Open key (chunkNonce noncePrefix index) ciphertext (chunkAAD header index) with
            | Some _ => (key, chunkNonce noncePrefix index, ciphertext, chunkAAD header index)
                        :: opened_from fuel key header noncePrefix (u64 (index + 1)) l
            | None => []
            end
      | None => []
      end
  | _, _ => []
  end.

Definition opened_blocks (passphrase content : string) : list block :=
  match read_prelude (bytes_of content) with
  | Ok (headerBytes, l) =>
      match decode_header (string_of_bytes headerBytes) with
      | Some header =>
          match check_header header with
          | Ok (salt, noncePrefix) =>
              opened_from (S (List.length l)) (scrypt passphrase salt) headerBytes noncePrefix 0 l
          | Fail _ => []
          end
      | None => []
      end
  | Fail _ => []
  end.

(** As the panel makes them: fewer chunks than indices, and no header twice. *)
Definition sound_archives (archives : list sealedArchive) : Prop :=
  Forall (fun a => List.length (A_prefix a) = 16%nat /\ Z.of_nat (List.length (A_chunks a)) < 2 ^ 64) archives /\
  NoDup (map A_header archives).

Lemma blocks_from_In key header noncePrefix index todo b : In b (blocks_from key header noncePrefix index todo) ->
  exists j c, todo !! j = Some c /\
    b = (key, chunkNonce noncePrefix (index + Z.of_nat j),
         seal_chunk key header noncePrefix (index + Z.of_nat j) c, chunkAAD header (index + Z.of_nat j)).
Proof using Type.
  revert index. induction todo as [|c todo IH]; intros index; [done|]. cbn [blocks_from].
  intros [<-|Hb].
  - exists 0%nat, c. split; [done|]. by rewrite Z.add_0_r.
  - apply IH in Hb as (j & d & Hj & ->). exists (S j), d. split; [done|].
    replace (index + 1 + Z.of_nat j) with (index + Z.of_nat (S j)) by lia. done.
Qed.

(** A block that was sealed in an archive, found at an index of a file. *)
Lemma sealed_block passphrase archives key header noncePrefix index c m :
  NonceSize = 24%nat -> sound_archives archives -> 0 <= index < 2 ^ 64 ->
  In (key, chunkNonce noncePrefix index, c, chunkAAD header index)
    (flat_map (sealed_blocks passphrase) archives) ->
  Open key (chunkNonce noncePrefix index) c (chunkAAD header index) = Some m ->
  exists a, In a archives /\ A_header a = header /\ A_chunks a !! Z.to_nat index = Some m.
Proof using Type.
  intros Hnonce [Hsound _] Hi (a & Ha & Hb)%in_flat_map Ho.
  rewrite Forall_forall in Hsound. destruct (Hsound a) as [Hp Hl]; [by apply list_elem_of_In|].
  apply blocks_from_In in Hb as (j & d & Hj & [= Ek En Ec Ea]). rewrite Z.add_0_l in *.
  assert (Hj' : 0 <= Z.of_nat j < 2 ^ 64) by (apply lookup_lt_Some in Hj; lia).
  apply chunkAAD_inj in Ea as [Eh Ei]; [|done..]. exists a. split_and!; [done|done|].
  rewrite Ei, Nat2Z.id, Hj. f_equal.
  rewrite Ek, En, Ec, Eh, Ei in Ho. unfold seal_chunk in Ho. rewrite Open_Seal in Ho; [congruence|].
  unfold chunkNonce. rewrite length_app, length_be64. lia.
Qed.

Lemma same_header archives a b : NoDup (map A_header archives) -> In a archives -> In b archives ->
  A_header a = A_header b -> a = b.
Proof using Type. intros Hd Ha Hb. by apply (NoDup_map_inj A_header archives); [|apply list_elem_of_In..]. Qed.

Lemma next_chunk_Some key header noncePrefix max index total l m l' fuel :
  next_chunk key header noncePrefix max index total l = Ok (Some m, l') ->
  exists c, Open key (chunkNonce noncePrefix index) c (chunkAAD header index) = Some m /\
    opened_from (S fuel) key header noncePrefix index l =
      (key, chunkNonce noncePrefix index, c, chunkAAD header index)
      :: opened_from fuel key header noncePrefix (u64 (index + 1)) l'.
Proof using Type.
  unfold next_chunk. cbn [opened_from]. destruct (read32 l) as [[size k]|]; [|done].
  destruct (size =? 0); [done|]. destruct (_ || _); [done|].
  destruct (read_full _ k) as [[c k']|]; [|done].
  destruct (Open _ _ c _) as [m'|] eqn:Eo; [|done]. intros [= -> ->]. by exists c.
Qed.

Lemma read_chunks_Ok source destination passphrase archives key header noncePrefix max fuel k total l mode before w rest w' :
  NonceSize = 24%nat -> sound_archives archives -> Z.of_nat k < 2 ^ 64 ->
  (forall b, In b (opened_from (S fuel) key header noncePrefix (Z.of_nat k) l) ->
     In b (flat_map (sealed_blocks passphrase) archives)) ->
  at_path destination (tables w) = Some (FileNode mode before) ->
  read_chunks fuel source destination key header noncePrefix max (Z.of_nat k) total l w = (Ok rest, w') ->
  exists ms, at_path destination (tables w') = Some (FileNode mode (before +:+ string_of_bytes (List.concat ms))) /\
    (ms = [] \/ exists a, In a archives /\ A_header a = header /\ ms = take (List.length ms) (drop k (A_chunks a))).
Proof using Type.
  intros Hn Hs. revert k total l before w.
  induction fuel as [|fuel IH]; intros k total l before w Hk Ho Hb E; cbn [read_chunks] in E;
    apply bind_Ok in E as (v1 & w1 & E1 & E);
    assert (Ht : tables w1 = tables w) by
      (revert E1; unfold reading, bind, attempt; destruct (Sync source w) as [[|] w0] eqn:E0; [|done];
       intros [= _ <-]; by apply Sync_tables in E0);
    destruct (next_chunk _ _ _ _ _ _ l) as [[[m|] l']|e] eqn:En; try discriminate.
  - apply bind_Ok in E as (v2 & w2 & _ & E). discriminate.
  - apply ret_Ok in E as [_ ->]. exists []. rewrite Ht. cbn. rewrite sapp_nil_r. auto.
  - apply bind_Ok in E as (v2 & w2 & (m0 & b0 & H1 & H2 & _)%Append_Ok & E).
    rewrite Ht, Hb in H1. injection H1 as <- <-.
    destruct (next_chunk_Some _ _ _ _ _ _ _ _ _ (S fuel) En) as (c & Hopen & Hblocks).
    rewrite Hblocks in Ho. destruct (sealed_block passphrase archives key header noncePrefix (Z.of_nat k) c m Hn Hs)
      as (a & Ha & Hh & Hm); [lia| |done|]; [apply Ho; by left|]. rewrite Nat2Z.id in Hm.
    assert (Hlen : Z.of_nat (List.length (A_chunks a)) < 2 ^ 64).
    { destruct Hs as [Hs _]. rewrite Forall_forall in Hs. apply Hs. by apply list_elem_of_In. }
    assert (Hk' : u64 (Z.of_nat k + 1) = Z.of_nat (S k)).
    { apply lookup_lt_Some in Hm. unfold u64. rewrite Z.mod_small; lia. }
    rewrite Hk' in *. apply lookup_lt_Some in Hm as Hlt.
    apply IH with (before := before +:+ string_of_bytes m) in E as (ms & H3 & H4);
      [|lia|intros b Hin; apply Ho; by right|done].
    exists (m :: ms). cbn [List.concat]. rewrite string_of_bytes_app, <- sapp_assoc. split; [done|]. right.
    exists a. split_and!; [done..|]. cbn [List.length].
    rewrite (drop_S _ m k Hm). cbn [take]. f_equal. destruct H4 as [->|(a' & Ha' & Hh' & H5)]; [done|].
    assert (a' = a) as -> by (apply (same_header archives); [apply Hs|done|done|congruence]). done.
  - apply ret_Ok in E as [_ ->]. exists []. rewrite Ht. cbn. rewrite sapp_nil_r. auto.
Qed.

End promises.

(** ** The end of an archive *)

Section cut.
Context `{!AEAD} `{!HeaderJSON}.
Variable scrypt : string -> list Z -> list Z.

Lemma well_chunked_take n l : well_chunked l -> well_chunked (take n l).
Proof using Type.
  pose proof chunk_size_range.
  intros Hl. revert n. induction Hl as [|c Hc Hb|c l Hc Hb Hl IH]; intros [|n]; cbn [take].
  - constructor.
  - constructor.
  - constructor.
  - rewrite take_nil. by constructor.
  - constructor.
  - apply chunked_cons; auto.
Qed.

Lemma sealed_from_app key header noncePrefix index l k : 0 <= index ->
  index + Z.of_nat (List.length l) < 2 ^ 64 ->
  sealed_from key header noncePrefix index (l ++ k) =
  sealed_from key header noncePrefix index l ++ sealed_from key header noncePrefix (index + Z.of_nat (List.length l)) k.
Proof using Type.
  revert index. induction l as [|c l IH]; intros index Hi Hl; [by rewrite Z.add_0_r|].
  cbn [app sealed_from List.length] in *. unfold u64 in *. rewrite Z.mod_small by lia.
  rewrite IH by lia. rewrite <- !app_assoc. do 4 f_equal. lia.
Qed.

(** The last chunk is not marked: cut after any chunk and closed with an empty
    one, an archive is still accepted, and yields its beginning. *)
Lemma a_cut_archive_is_accepted key header noncePrefix todo n source destination max disk :
  NonceSize = 24%nat -> List.length noncePrefix = 16%nat -> well_chunked todo ->
  Z.of_nat (List.length todo) < 2 ^ 64 ->
  Z.of_nat (List.length (List.concat (take n todo))) <= max -> parts destination <> [] ->
  at_path destination disk = Some (FileNode 384 "") ->
  (exists rest, sealed_from key header noncePrefix 0 todo = sealed_from key header noncePrefix 0 (take n todo) ++ rest) /\
  exists fuel disk', read_chunks fuel source destination key header noncePrefix max 0 0
      (sealed_from key header noncePrefix 0 (take n todo) ++ be32 0) (World disk []) = (Ok [], World disk' []) /\
    at_path destination disk' = Some (FileNode 384 (string_of_bytes (List.concat (take n todo)))).
Proof using Type.
  intros Hn Hp Hw Hlen Hm Hd Hb. split.
  - eexists. rewrite <- (sealed_from_app key header noncePrefix 0 (take n todo) (drop n todo)), take_drop;
      [done|lia|]. rewrite length_take. lia.
  - destruct (clean_read_chunks Hn source destination key header noncePrefix max (take n todo) 0 0
      (List.length (take n todo)) 384 "" disk Hp) as (d & E & Hd' & _); try done; [by apply well_chunked_take|].
    exists (List.length (take n todo)), d. done.
Qed.
End cut.

(** ** Reading ends *)

Section termination.
Context `{!AEAD} `{!HeaderJSON}.
Variable scrypt : string -> list Z -> list Z.

(** The error of the recursion that ran out, and of no call. *)
Definition exhausted (e : error) : Prop := e = ErrorString "out of fuel".

Definition honest_faults (w : world node) : Prop := Forall (fun f => f <> Some "out of fuel") (faults w).

(** Whatever it returns, not that error, and the faults ahead stay honest. *)
Definition never_exhausted {A} (m : M node A) : Prop :=
  forall w r w', honest_faults w -> m w = (r, w') -> honest_faults w' /\ forall e, r = Fail e -> ~ exhausted e.

Lemma ne_ret {A} (a : A) : never_exhausted (ret a).
Proof using Type. by intros w r w' Hw [= <- <-]. Qed.

Lemma ne_fail {A} e : ~ exhausted e -> never_exhausted (fail (A := A) e).
Proof using Type. intros He w r w' Hw [= <- <-]. split; [done|]. by intros e' [= <-]. Qed.

Lemma ne_bind {A B} (m : M node A) (k : A -> M node B) :
  never_exhausted m -> (forall a, never_exhausted (k a)) -> never_exhausted (bind m k).
Proof using Type.
  intros Hm Hk w r w' Hw E. unfold bind in E. destruct (m w) as [[a|e] w1] eqn:E1; apply Hm in E1 as [Hw1 He]; try done.
  - by eapply Hk.
  - injection E as <- <-. split; [done|]. intros e' [= <-]. by apply He.
Qed.

Lemma ne_attempt {A} (m : M node A) : never_exhausted m -> never_exhausted (attempt m).
Proof using Type. intros Hm w r w' Hw E. apply attempt_run in E as (done & E & ->). apply Hm in E as [Hw' _]; [|done]. by split. Qed.

Lemma ne_statement {A} (f : node -> result (A * node)) : (forall d e, f d = Fail e -> ~ exhausted e) ->
  never_exhausted (statement f).
Proof using Type.
  intros Hf w r w' Hw E. unfold statement, next_fault in E. unfold honest_faults in *. destruct (faults w) as [|x fs] eqn:Ew.
  - destruct (f (tables w)) as [[a d]|e] eqn:Ef; injection E as <- <-; cbn [faults]; rewrite ?Ew; (split; [constructor|]); [done|].
    intros e' [= <-]. by eapply Hf.
  - inversion_clear Hw as [|? ? Hx Hfs]. destruct x as [text|].
    + injection E as <- <-. split; [done|]. intros e [= <-] Hex. injection Hex as ->. done.
    + cbn [tables faults] in E. destruct (f (tables w)) as [[a d]|e] eqn:Ef; injection E as <- <-; (split; [done|]); [done|].
      intros e' [= <-]. by eapply Hf.
Qed.

Lemma ne_change path f : (forall o e, f o = Fail e -> ~ exhausted e) -> never_exhausted (change path f).
Proof using Type.
  intros Hf. apply ne_statement. intros d e. destruct (f (at_path path d)) as [v|x] eqn:E; [|intros [= <-]; by eapply Hf].
  destruct (put_at _ _ _); [done|]. by intros [= <-].
Qed.

Lemma ne_Append path s : never_exhausted (Append path s).
Proof using Type. apply ne_change. intros [[mode before| |]|] e; by intros [= <-]. Qed.

Lemma ne_Remove path : never_exhausted (Remove path).
Proof using Type.
  apply ne_change. intros [[| |]|] e; try (by intros [= <-]). destruct (bool_decide _); by intros [= <-].
Qed.

Lemma ne_CreateExcl path mode : never_exhausted (CreateExcl path mode).
Proof using Type. apply ne_change. intros [?|] e; by intros [= <-]. Qed.

Lemma ne_ReadFile path : never_exhausted (ReadFile path).
Proof using Type. apply ne_statement. intros d e. destruct (at_path path d) as [[| |]|]; by intros [= <-]. Qed.

Lemma ne_Sync path : never_exhausted (Sync path).
Proof using Type. by apply ne_statement. Qed.

Lemma ne_reading source : never_exhausted (reading source).
Proof using Type. apply ne_bind; [apply ne_attempt, ne_Sync|]. intros []; [apply ne_ret|by apply ne_fail]. Qed.

Lemma ne_ignoring {A} (m : M node A) : never_exhausted m -> never_exhausted (ignoring m).
Proof using Type. intros Hm. apply ne_bind; [by apply ne_attempt|]. intros. apply ne_ret. Qed.

Lemma ne_removing {A} path (m : M node A) : never_exhausted m -> never_exhausted (removing path m).
Proof using Type.
  intros Hm w r w' Hw E. unfold removing, bind in E. destruct (attempt m w) as [r1 w1] eqn:E1.
  apply attempt_run in E1 as (done & E1 & ->). apply Hm in E1 as [Hw1 He]; [|done].
  destruct done as [a|err]; [by injection E as <- <-|].
  destruct (ignoring _ w1) as [r2 w2] eqn:E2. assert (E2' := E2). apply (ne_ignoring _ (ne_Remove path)) in E2' as [Hw2 _]; [|done].
  apply ignoring_run in E2 as (-> & _). injection E as <- <-. split; [done|]. intros e [= <-]. by apply He.
Qed.

Lemma read_full_length n l a l' : read_full n l = Some (a, l') -> (List.length l' <= List.length l)%nat.
Proof using Type.
  clear. unfold read_full. destruct (_ <? _)%nat; [done|]. intros [= _ <-]. rewrite length_drop. lia.
Qed.

(** A chunk takes four bytes and more. *)
Lemma next_chunk_shorter key header noncePrefix max index total l found l' :
  next_chunk key header noncePrefix max index total l = Ok (Some found, l') -> (List.length l' < List.length l)%nat.
Proof using Type.
  unfold next_chunk. destruct l as [|a [|b [|c [|d l]]]]; try done. cbn [read32].
  set (size := _ : Z). destruct (size =? 0); [done|]. destruct (_ || _); [done|].
  destruct (read_full _ l) as [[cipher rest]|] eqn:E; [|done]. apply read_full_length in E.
  destruct (Open _ _ _ _); [|done]. intros [= _ <-]. cbn [List.length]. lia.
Qed.

Lemma next_chunk_error key header noncePrefix max index total l e :
  next_chunk key header noncePrefix max index total l = Fail e -> ~ exhausted e.
Proof using Type.
  unfold next_chunk. destruct (read32 l) as [[size k]|]; [|by intros [= <-]].
  destruct (size =? 0); [done|]. destruct (_ || _); [by intros [= <-]|].
  destruct (read_full _ k) as [[cipher rest]|]; [|by intros [= <-]].
  destruct (Open _ _ _ _); [done|]. by intros [= <-].
Qed.

Lemma ne_read_chunks fuel source destination key header noncePrefix max index total l :
  (List.length l <= fuel)%nat ->
  never_exhausted (read_chunks fuel source destination key header noncePrefix max index total l).
Proof using Type.
  revert index total l. induction fuel as [|fuel IH]; intros index total l Hl; cbn [read_chunks];
    (apply ne_bind; [apply ne_reading|intros _; cbv beta]);
    (destruct (next_chunk _ _ _ _ _ _ l) as [[[found|] rest]|e] eqn:E;
     [|apply ne_ret|apply ne_fail; by eapply next_chunk_error]); apply next_chunk_shorter in E;
    (apply ne_bind; [apply ne_Append|intros _; cbv beta]); [lia|].
  apply IH. lia.
Qed.

(** C11: decrypting an archive ends with an answer: the loop that reads chunks
    is bounded by the bytes of the archive, so for every archive, passphrase
    and schedule of faults [decryptArchive] returns a header or an error of a
    call or of the archive, and never runs out of steps. *)
Theorem decryption_ends source destination passphrase max w r w' :
  honest_faults w -> decryptArchive scrypt source destination passphrase max w = (r, w') ->
  forall e, r = Fail e -> ~ exhausted e.
Proof using Type.
  intros Hw E. refine (proj2 (_ w r w' Hw E)). clear. unfold decryptArchive.
  destruct (validatePassphrase passphrase) as [err|] eqn:Ep.
  { apply ne_fail. unfold validatePassphrase in Ep. do 2 (destruct (_ || _); [by injection Ep as <-|]). done. }
  apply ne_bind; [apply ne_ReadFile|intros content; cbv beta]. apply ne_bind; [apply ne_reading|intros _; cbv beta].
  assert (Hinv : never_exhausted (fail (A := encryptionHeader) (Sentinel ErrInvalidBackup))) by (by apply ne_fail).
  destruct (read_prelude _) as [[headerBytes l]|e] eqn:E1.
  2: { apply ne_fail. unfold read_prelude in E1. destruct (read_full _ _) as [[magic k]|]; [|by injection E1 as <-].
    destruct (negb _); [by injection E1 as <-|]. destruct (read32 k) as [[size k']|]; [|by injection E1 as <-].
    destruct (_ || _); [by injection E1 as <-|]. destruct (read_full _ k'); [done|by injection E1 as <-]. }
  destruct (decode_header _) as [header|]; [|done].
  destruct (check_header header) as [[salt noncePrefix]|e] eqn:E2.
  2: { apply ne_fail. unfold check_header in E2. destruct (_ || _); [by injection E2 as <-|].
    destruct (base64_decode _) as [salt|]; [|by injection E2 as <-]. destruct (negb _); [by injection E2 as <-|].
    destruct (base64_decode (H_NoncePrefix header)) as [p|]; [|by injection E2 as <-]. destruct (negb _); [by injection E2 as <-|done]. }
  apply ne_bind; [apply ne_CreateExcl|intros _; cbv beta]. apply ne_removing, ne_bind; [by apply ne_read_chunks|].
  intros rest. destruct (negb _); [done|]. apply ne_bind; [apply ne_Sync|intros; apply ne_ret].
Qed.
End termination.

(** ** A concrete instance *)

Section witnesses.

Definition last16 (data : list Z) : list Z := take 16 (rev data ++ repeat 0 16).

#[local] Program Instance demo_xaead : AEAD := {|
  NonceSize := 24; Overhead := 16;
  Seal _ _ plain data := plain ++ map u8 (last16 data);
  Open _ _ cipher data :=
    let n := (List.length cipher - 16)%nat in
    if bool_decide (drop n cipher = map u8 (last16 data)) then Some (take n cipher) else None
|}.
Next Obligation.
  intros key nonce plain data Hp. apply Forall_app. split; [done|]. apply Forall_map_iff, Forall_forall.
  intros z _. unfold u8, is_byte. by apply Z.mod_pos_bound.
Qed.
Next Obligation.
  intros key nonce plain data. unfold last16. rewrite length_app, length_map, length_take, length_app, repeat_length.
  lia.
Qed.
Next Obligation.
  intros key nonce plain data _.
  assert (Hn : (List.length (plain ++ map u8 (last16 data)) - 16)%nat = List.length plain).
  { unfold last16. rewrite length_app, length_map, length_take, length_app, repeat_length. lia. }
  cbv zeta beta. rewrite Hn, drop_app_length, take_app_length. by rewrite bool_decide_eq_true_2.
Qed.

(** The fields in order. *)
Definition header_fields (h : encryptionHeader) : list (Z + string) :=
  [inl (H_SchemaVersion h); inr (H_KDF h); inr (H_Salt h); inl (H_N h); inl (H_R h); inl (H_P h);
   inr (H_Cipher h); inr (H_NoncePrefix h); inl (H_ChunkSize h); inl (H_CreatedAt h)].

Definition header_from (s : string) : option encryptionHeader :=
  match decode (of_bits s) with
  | Some [inl a; inr b; inr c; inl d; inl e; inl f; inr g; inr h; inl i; inl j] =>
      Some (mkHeader a b c d e f g h i j)
  | _ => None
  end.

#[local] Program Instance demo_header_json : HeaderJSON := {|
  marshal_header h := "h" +:+ bits_of (encode (header_fields h));
  decode_header s := match s with String _ s => header_from s | "" => None end;
  unmarshal_header s := match s with String _ s => header_from s | "" => None end
|}.
Next Obligation. done. Qed.
Next Obligation. intros []. cbn. unfold header_from. by rewrite of_bits_of, decode_encode. Qed.
Next Obligation. intros []. cbn. unfold header_from. by rewrite of_bits_of, decode_encode. Qed.

Definition demo_scrypt (passphrase : string) (salt : list Z) : list Z := bytes_of passphrase ++ salt.

Definition demo_disk : node := DirNode 493 {["src" := FileNode 384 "panel data"]}.

Definition demo_pass : string := "correct horse battery".

Definition demo_encrypted : world node :=
  (encryptArchive demo_scrypt "/src" "/enc" demo_pass 7 (Ok (repeat 1 16)) (Ok (repeat 2 16)) (World demo_disk [])).2.

Lemma backup_archives_roundtrip_witness :
  exists disk, decryptArchive demo_scrypt "/enc" "/out" demo_pass 1000 (World (tables demo_encrypted) []) =
      (Ok (header_of (repeat 1 16) (repeat 2 16) 7), World disk []) /\
    at_path "/out" disk = Some (FileNode 384 "panel data").
Proof.
  destruct (@backup_archives_roundtrip demo_xaead demo_header_json demo_scrypt "/src" "/enc" "/out" demo_pass 7 (repeat 1 16) (repeat 2 16) 1000
    (World demo_disk []) tt demo_encrypted eq_refl) as (mode & content & disk & Hs & Hd & Ho & _).
  - split_and!; try done; repeat constructor; discriminate.
  - vm_compute. reflexivity.
  - split; [by vm_compute|]. vm_compute. eexists. reflexivity.
  - intros mode content. vm_compute. intros [= _ <-]. discriminate.
  - exists disk. split; [done|]. vm_compute in Hs. injection Hs as _ <-. done.
Defined.

Definition demo_archive : sealedArchive :=
  mkArchive (repeat 1 16) (repeat 2 16) (bytes_of (marshal_header (header_of (repeat 1 16) (repeat 2 16) 7)))
    [bytes_of "panel data"].


(** The second call meets an error. *)
Lemma decryption_ends_witness :
  let run := decryptArchive demo_scrypt "/enc" "/out" demo_pass 1000 (World (tables demo_encrypted) [None; Some "input/output error"]) in
  is_ok run.1 = false /\ match run.1 with Fail e => ~ exhausted e | Ok _ => True end.
Proof.
  intros run. destruct run as [r w] eqn:E. split; [vm_compute in E; by injection E as <- _|]. destruct r as [h|e]; [exact I|].
  apply (@decryption_ends demo_xaead demo_header_json demo_scrypt "/enc" "/out" demo_pass 1000
    (World (tables demo_encrypted) [None; Some "input/output error"]) (Fail e) w); [|exact E|reflexivity].
  repeat constructor; discriminate.
Defined.
End witnesses.
