(* ===== verification/PanelBackup.v ===== *)
(** Backups of the panel ([internal/services/panelbackup/manager.go], [types.go]):
    what goes into an archive, the metadata beside it, and the validation that
    every archive passes before it is listed or restored.

    The disk is the tree of [GoFiles]. tar with gzip, YAML, the JSON of the
    documents and the check of a SQLite file are parameters. *)

From stdpp Require Import gmap strings sorting options.
From S2P Require Import Prelude GoStrings GoText GoCrypto GoTime GoPath Store GoFiles Credential BackupCrypt Lines.
#[local] Open Scope Z_scope.

Definition BackupSchemaVersion : Z := 1.
Definition ErrNotFound : string := "panel backup not found".

(** *** Stages of validation *)

Definition ValidationStageIntegrity : string := "integrity".
Definition ValidationStageDecrypt : string := "decrypt".
Definition ValidationStageManifest : string := "manifest".
Definition ValidationStageConfig : string := "config".
Definition ValidationStageDatabase : string := "database".

Definition stages : list string :=
  [ValidationStageIntegrity; ValidationStageDecrypt; ValidationStageManifest; ValidationStageConfig;
   ValidationStageDatabase].

(** [validationStageError]: the stage is the text before the error. *)
Definition withValidationStage (stage : string) (err : error) : error := Wrap (stage +:+ ": ") err "".

Fixpoint ValidationStageOf (err : error) : string :=
  match err with
  | Wrap before cause _ =>
      match List.find (fun stage => String.eqb before (stage +:+ ": ")) stages with
      | Some stage => stage
      | None => ValidationStageOf cause
      end
  | _ => "unknown"
  end.

Definition ValidationFailureMessage (err : error) : string :=
  let stage := ValidationStageOf err in
  if String.eqb stage ValidationStageIntegrity then "备份文件完整性校验失败"
  else if String.eqb stage ValidationStageDecrypt then "备份解密校验失败"
  else if String.eqb stage ValidationStageManifest then "备份清单校验失败"
  else if String.eqb stage ValidationStageConfig then "备份配置校验失败"
  else if String.eqb stage ValidationStageDatabase then "备份数据库校验失败"
  else "备份恢复预检失败".

(** *** Data *)

Record Config := mkConfig {
  BasePath : string; ConfigPath : string; DatabasePath : string; CertificatePath : string;
  BackupRoot : string; MaxBackupBytes : Z; MaxFiles : Z
}.

Record BackupInfo := mkInfo {
  BI_ID : string; BI_FileName : string; BI_CreatedAt : time; BI_PanelVersion : string; BI_Size : Z;
  BI_SHA256 : string; BI_FileCount : Z; BI_IncludesCertificates : bool; BI_Imported : bool
}.

Record ManifestFile := mkFile {
  MF_Path : string; MF_Kind : string; MF_Size : Z; MF_Mode : Z; MF_SHA256 : string
}.

Record Manifest := mkManifest {
  M_SchemaVersion : Z; M_CreatedAt : time; M_PanelVersion : string; M_IncludesCertificates : bool;
  M_Files : list ManifestFile
}.

Record PreflightResult := mkPreflight {
  PR_Backup : BackupInfo; PR_SchemaVersion : Z; PR_PanelVersion : string; PR_FileCount : Z;
  PR_IncludesCertificates : bool; PR_ConfigValid : bool; PR_DatabaseValid : bool
}.

Record archiveSource := mkSource {
  AS_Path : string; AS_SourcePath : string; AS_Kind : string; AS_Mode : Z; AS_Size : Z; AS_SHA256 : string
}.

(** What the code reads of a tar header; [TypeReg] is a regular file. *)
Record tarHeader := mkTar { T_Name : string; T_Mode : Z; T_Size : Z; T_Regular : bool }.

Definition defaultMaxBackupBytes : Z := 2 ^ 31.
Definition defaultMaxFiles : Z := 10000.
Definition maxManifestBytes : Z := 2 ^ 20.

(** A YAML value as the code looks at it; a scalar carries its [fmt.Sprint]. *)
Inductive yaml_value :=
  | YamlMap (values : list (string * yaml_value))
  | YamlString (value : string)
  | YamlOther (text : string).

(** A strict JSON decoder and the encoder of a type. *)
Class JSON (A : Type) := {
  marshal : A -> string;
  unmarshal : string -> option A;
  unmarshal_marshal' a : unmarshal (marshal a) = Some a;
  unmarshal_line a : unmarshal (marshal a +:+ str1 "010") = Some a
}.

(** tar and gzip: the entries of an archive with their contents, and whether
    the stream ends well; [None] is no gzip stream. *)
Class Archives := {
  targz : list (tarHeader * string) -> string;
  untargz : string -> option (list (tarHeader * string) * bool);
  untargz_targz l : Forall (fun e => T_Size e.1 = len e.2) l -> untargz (targz l) = Some (l, true)
}.

(** ** Paths *)

(** [^[a-f0-9]{32}$]. *)
Definition valid_id (s : string) : bool :=
  (len s =? 32) && sforall (fun c => ((48 <=? byte_of c) && (byte_of c <=? 57))
                                     || ((97 <=? byte_of c) && (byte_of c <=? 102))) s.

Definition safeArchivePath (path : string) : bool :=
  if String.eqb path "" || Contains path (str1 "092") || HasPrefix path "/" then false
  else
    let clean := Clean path in
    if negb (String.eqb clean path) || String.eqb clean "." then false
    else forallb (fun part => negb (existsb (String.eqb part) [""; "."; ".."])) (Split path slash).

Definition pathWithin (root target : string) : bool :=
  match Rel (Clean root) (Clean target) with
  | Some relative => negb (String.eqb relative "..") && negb (HasPrefix relative "../")
  | None => false
  end.

(** ** Files *)

Definition file_sha256 (content : string) : string := hex_encode (sha256 (bytes_of content)).

Definition fileSHA256 (path : string) : M node string :=
  let* content := ReadFile path in ret (file_sha256 content).

(** Size and digest. *)
Definition backupFileInfo (path : string) : M node (Z * string) :=
  let* info := Lstat path in
  if negb (IsRegular info) then fail (Sentinel ErrInvalidBackup)
  else let* digest := fileSHA256 path in ret (Size info, digest).

Definition atomicWriteFile (token path content : string) (mode : Z) : M node unit :=
  let* _ := MkdirAll (Dir path) 448 in
  let name := PathJoin [Dir path; "." +:+ Base path +:+ "." +:+ token +:+ ".new"] in
  write_beside path name content mode.

Section manager.
Context `{!UnicodeCase} `{!AEAD} `{!HeaderJSON} `{!Archives}.
Context `{!JSON Manifest} `{!JSON BackupInfo}.
Variable scrypt : string -> list Z -> list Z.
Variable yaml : string -> option (list (string * yaml_value)).
Variable quick_check : string -> result string.  (* [PRAGMA quick_check] on a database file *)
Variable version : string.  (* [buildinfo.Current().Version] *)

Definition invalid_with {A} (message : string) : M node A :=
  fail (Wrap "" (Sentinel ErrInvalidBackup) (": " +:+ message)).

Definition cleaned (path : string) : string := Clean (TrimSpace path).

Definition NewManager (config : Config) : M node Config :=
  let c := mkConfig (cleaned (BasePath config)) (cleaned (ConfigPath config)) (cleaned (DatabasePath config))
    (cleaned (CertificatePath config)) (cleaned (BackupRoot config)) (MaxBackupBytes config) (MaxFiles config) in
  let bad path := negb (IsAbs path) || String.eqb path "/" in
  if existsb bad [BasePath c; ConfigPath c; DatabasePath c; BackupRoot c] then
    fail (ErrorString "path must be a non-root absolute path")
  else if negb (String.eqb (CertificatePath c) ".") && bad (CertificatePath c) then
    fail (ErrorString "certificate path must be a non-root absolute path")
  else
    let maxBytes := if MaxBackupBytes c =? 0 then defaultMaxBackupBytes else MaxBackupBytes c in
    if (maxBytes <? 2 ^ 24) || (2 ^ 35 <? maxBytes) then
      fail (ErrorString "panel backup limit must be between 16 MiB and 32 GiB")
    else
      let maxFiles := if MaxFiles c =? 0 then defaultMaxFiles else MaxFiles c in
      if (maxFiles <? 2) || (100000 <? maxFiles) then
        fail (ErrorString "panel backup file limit must be between 2 and 100000")
      else
        let c := mkConfig (BasePath c) (ConfigPath c) (DatabasePath c) (CertificatePath c) (BackupRoot c)
          maxBytes maxFiles in
        let* made := attempt (MkdirAll (BackupRoot c) 448) in
        match made with
        | Fail err => fail (Wrap "create panel backup directory: " err "")
        | Ok _ =>
            let* info := Lstat (BackupRoot c) in
            if negb (IsDir info) then fail (ErrorString "panel backup root must be a real directory") else ret c
        end.

(** [m.config]; the other fields of the manager are arguments. *)
Variable config : Config.

Definition archivePath (info : BackupInfo) : result string :=
  if negb (valid_id (BI_ID info)) || negb (String.eqb (Base (BI_FileName info)) (BI_FileName info)) then invalid
  else
    let path := PathJoin [BackupRoot config; BI_FileName info] in
    if negb (String.eqb (Dir path) (BackupRoot config)) then invalid else Ok path.

Definition metadata_path (id : string) : string := PathJoin [BackupRoot config; id +:+ ".json"].

Definition line_feed : string := str1 "010".

Definition writeMetadata (token : string) (info : BackupInfo) : M node unit :=
  atomicWriteFile token (metadata_path (BI_ID info)) (marshal info +:+ line_feed) 384.

Definition valid_info (info : BackupInfo) : bool :=
  valid_id (BI_ID info) && negb (String.eqb (BI_FileName info) "")
  && String.eqb (Base (BI_FileName info)) (BI_FileName info) && HasSuffix (BI_FileName info) ".onebak"
  && negb (IsZero (BI_CreatedAt info)) && negb (BI_Size info <? 1) && (len (BI_SHA256 info) =? 64)
  && match hex_decode (BI_SHA256 info) with Some _ => true | None => false end.

Definition readMetadata (path : string) : M node BackupInfo :=
  let* found := attempt (Lstat path) in
  match found with
  | Fail err => if is_not_exist err then fail (Sentinel ErrNotFound) else fail err
  | Ok info =>
      if negb (IsRegular info) || (2 ^ 16 <? Size info) then fail (Sentinel ErrInvalidBackup)
      else
        let* content := ReadFile path in
        match unmarshal content with
        | Some result => if valid_info result then ret result else fail (Sentinel ErrInvalidBackup)
        | None => fail (Sentinel ErrInvalidBackup)
        end
  end.

Definition Get (id : string) : M node BackupInfo :=
  if negb (valid_id (TrimSpace id)) then fail (Sentinel ErrNotFound) else readMetadata (metadata_path id).

(** One entry of the directory: [None] is skipped. *)
Definition list_entry (name : string) : M node (option BackupInfo) :=
  if negb (HasSuffix name ".json") then ret None
  else
    let* found := attempt (readMetadata (PathJoin [BackupRoot config; name])) in
    match found with
    | Fail _ => ret None
    | Ok info =>
        if negb (String.eqb name (BI_ID info +:+ ".json")) then ret None
        else
          match archivePath info with
          | Fail _ => ret None
          | Ok path =>
              let* stat := attempt (Lstat path) in
              match stat with
              | Ok n => if IsRegular n && (Size n =? BI_Size info) then ret (Some info) else ret None
              | Fail _ => ret None
              end
          end
    end.

Fixpoint list_entries (names : list string) : M node (list BackupInfo) :=
  match names with
  | [] => ret []
  | name :: names =>
      let* found := list_entry name in
      let* rest := list_entries names in
      ret match found with Some info => info :: rest | None => rest end
  end.

Definition created_later (a b : BackupInfo) : bool := After (BI_CreatedAt a) (BI_CreatedAt b).

Definition List_ : M node (list BackupInfo) :=
  let* names := ReadDir (BackupRoot config) in
  let* infos := list_entries names in
  ret (sort_slice created_later infos).

(** [Open]: with the content that is then streamed. *)
Definition Open_ (id : string) : M node (string * BackupInfo) :=
  let* info := Get id in
  match archivePath info with
  | Fail err => fail err
  | Ok path =>
      let* opened := attempt (ReadFile path) in
      match opened with
      | Fail err => if is_not_exist err then fail (Sentinel ErrNotFound) else fail err
      | Ok content =>
          if negb (len content =? BI_Size info) then fail (Sentinel ErrInvalidBackup)
          else
            let* digest := attempt (fileSHA256 path) in
            match digest with
            | Ok digest => if String.eqb digest (BI_SHA256 info) then ret (content, info)
                           else fail (Sentinel ErrInvalidBackup)
            | Fail _ => fail (Sentinel ErrInvalidBackup)
            end
      end
  end.

(** [os.Remove] that may find nothing. *)
Definition remove_if_there (path : string) : M node unit :=
  let* done := attempt (Remove path) in
  match done with
  | Ok _ => ret tt
  | Fail err => if is_not_exist err then ret tt else fail err
  end.

Definition Delete (id : string) : M node unit :=
  let* info := Get id in
  match archivePath info with
  | Fail err => fail err
  | Ok path =>
      let* _ := remove_if_there path in
      let* _ := remove_if_there (metadata_path (BI_ID info)) in
      Sync (BackupRoot config)
  end.

(** ** What goes into an archive *)

(** [None]: there is no such file. *)
Definition inspectArchiveSource (source : archiveSource) : M node (option archiveSource) :=
  let* found := attempt (Lstat (AS_SourcePath source)) in
  match found with
  | Fail err => if is_not_exist err then ret None else fail err
  | Ok info =>
      if negb (IsRegular info) then
        fail (ErrorString ("panel backup source must be a regular file: " +:+ AS_SourcePath source))
      else
        let mode := if AS_Mode source =? 0 then Perm info else AS_Mode source in
        let* digest := fileSHA256 (AS_SourcePath source) in
        ret (Some (mkSource (AS_Path source) (AS_SourcePath source) (AS_Kind source) mode (Size info) digest))
  end.

Definition required_sources (databaseSnapshot : string) : list archiveSource :=
  [mkSource "config/config.yaml" (ConfigPath config) "config" 384 0 "";
   mkSource "database/myadmin.db" databaseSnapshot "database" 384 0 ""].

Definition identity_path : string := PathJoin [BasePath config; "panel-instance-id"].
Definition trust_path : string := PathJoin [BasePath config; "update"; "trusted-keys.json"].

Definition optional_sources : list archiveSource :=
  [mkSource "identity/panel-instance-id" identity_path "identity" 384 0 "";
   mkSource "update/trusted-keys.json" trust_path "trust" 384 0 ""].

Fixpoint inspect_required (sources : list archiveSource) : M node (list archiveSource) :=
  match sources with
  | [] => ret []
  | source :: sources =>
      let* found := inspectArchiveSource source in
      match found with
      | None => fail (ErrorString ("required panel backup source " +:+ AS_SourcePath source +:+ " is missing"))
      | Some source => let* rest := inspect_required sources in ret (source :: rest)
      end
  end.

Fixpoint inspect_optional (sources : list archiveSource) : M node (list archiveSource) :=
  match sources with
  | [] => ret []
  | source :: sources =>
      let* found := inspectArchiveSource source in
      let* rest := inspect_optional sources in
      ret match found with Some source => source :: rest | None => rest end
  end.

(** [filepath.WalkDir] below a directory: every entry in lexical order, a
    directory before its entries. [fuel] bounds the depth. *)
Fixpoint walk (fuel : nat) (relative : string) (n : node) : list (string * node) :=
  match fuel, n with
  | S fuel, DirNode _ entries =>
      flat_map (fun name =>
        match entries !! name with
        | Some child =>
            let here := if String.eqb relative "" then name else relative +:+ "/" +:+ name in
            (here, child) :: walk fuel here child
        | None => []
        end) (entry_names entries)
  | _, _ => []
  end.

(** Deeper trees than this do not fit a path of the system. *)
Definition walk_fuel : nat := 4096.

Fixpoint certificate_sources (entries : list (string * node)) (found : list archiveSource)
    : M node (list archiveSource) :=
  match entries with
  | [] => ret found
  | (relative, n) :: entries =>
      let path := PathJoin [CertificatePath config; relative] in
      match n with
      | LinkNode _ => fail (ErrorString ("certificate backup refuses symbolic link " +:+ path))
      | DirNode _ _ => certificate_sources entries found
      | FileNode _ _ =>
          if negb (safeArchivePath relative) then fail (Sentinel ErrInvalidBackup)
          else
            let* enriched := inspectArchiveSource (mkSource ("certificates/" +:+ relative) path "certificate" 0 0 "") in
            let found := match enriched with Some s => found ++ [s] | None => found end in
            if MaxFiles config <? Z.of_nat (List.length found) + 2 then
              fail (ErrorString "certificate backup contains too many files")
            else certificate_sources entries found
      end
  end.

Definition collectCertificateSources : M node (list archiveSource) :=
  if String.eqb (CertificatePath config) "." then ret []
  else
    let* found := attempt (Lstat (CertificatePath config)) in
    match found with
    | Fail err => if is_not_exist err then ret [] else fail err
    | Ok info =>
        if negb (IsDir info) then fail (ErrorString "certificate root must be a real directory")
        else certificate_sources (walk walk_fuel "" info) []
    end.

(** The sum of the sizes, checked after each file. *)
Fixpoint within_limit (limit total : Z) (sizes : list Z) : bool :=
  match sizes with
  | [] => true
  | size :: sizes => negb (limit <? i64 (total + size)) && within_limit limit (i64 (total + size)) sizes
  end.

Definition path_before (a b : archiveSource) : bool := String.ltb (AS_Path a) (AS_Path b).

Definition collectSources (databaseSnapshot : string) (includeCertificates : bool) : M node (list archiveSource) :=
  let* required := inspect_required (required_sources databaseSnapshot) in
  let* optional := inspect_optional optional_sources in
  let* certificates := if includeCertificates then collectCertificateSources else ret [] in
  let result := required ++ optional ++ certificates in
  if MaxFiles config <? Z.of_nat (List.length result) then fail (ErrorString "panel backup contains too many files")
  else if negb (within_limit (MaxBackupBytes config) 0 (map AS_Size result)) then
    fail (ErrorString "panel backup source data exceeds configured limit")
  else ret (sort_slice path_before result).

Definition manifest_file (source : archiveSource) : ManifestFile :=
  mkFile (AS_Path source) (AS_Kind source) (AS_Size source) (Z.land (AS_Mode source) 511) (AS_SHA256 source).

(** [io.CopyN] of the size that was seen, and the digest once more. *)
Fixpoint read_sources (sources : list archiveSource) : M node (list (tarHeader * string)) :=
  match sources with
  | [] => ret []
  | source :: sources =>
      let* _ := ctx_Err in
      let* content := ReadFile (AS_SourcePath source) in
      if len content <? AS_Size source then fail (ErrorString "EOF")
      else
        let content := take_bytes (AS_Size source) content in
        if negb (String.eqb (file_sha256 content) (AS_SHA256 source)) then
          fail (ErrorString ("panel backup source changed while reading: " +:+ AS_Path source))
        else
          let* rest := read_sources sources in
          ret ((mkTar (AS_Path source) (Z.land (AS_Mode source) 511) (AS_Size source) true, content) :: rest)
  end.

(** The stream is compressed on the way; [countingWriter] stops it at the limit. *)
Definition writeArchive (path : string) (manifest : Manifest) (sources : list archiveSource) : M node unit :=
  let* _ := CreateExcl path 384 in
  removing path
    (let text := marshal manifest in
     let* contents := read_sources sources in
     let archive := targz ((mkTar "manifest.json" 384 (len text) true, text) :: contents) in
     if MaxBackupBytes config <? len archive then
       fail (Wrap "" (Sentinel ErrInvalidBackup) ": compressed archive exceeds configured limit")
     else
       let* _ := Append path archive in
       Sync path).

(** ** Validation of an archive *)

Definition allowed_kind (manifest : Manifest) (entry : ManifestFile) : bool :=
  let one path kind := String.eqb (MF_Path entry) path && String.eqb (MF_Kind entry) kind in
  one "config/config.yaml" "config" || one "database/myadmin.db" "database"
  || one "identity/panel-instance-id" "identity" || one "update/trusted-keys.json" "trust"
  || HasPrefix (MF_Path entry) "certificates/" && String.eqb (MF_Kind entry) "certificate"
     && M_IncludesCertificates manifest.

Definition valid_file (entry : ManifestFile) : bool :=
  safeArchivePath (MF_Path entry) && negb (MF_Size entry <? 0) && (len (MF_SHA256 entry) =? 64)
  && negb (MF_Mode entry =? 0) && (Z.ldiff (MF_Mode entry) 511 =? 0)
  && match hex_decode (MF_SHA256 entry) with Some _ => true | None => false end.

(** [seen] holds the paths before this entry. *)
Fixpoint valid_files (manifest : Manifest) (maxBytes : Z) (files : list ManifestFile) (seen : list string)
    (total : Z) : bool :=
  match files with
  | [] => true
  | entry :: files =>
      let total := i64 (total + MF_Size entry) in
      valid_file entry && negb (existsb (String.eqb (MF_Path entry)) seen) && allowed_kind manifest entry
      && negb (maxBytes <? total) && valid_files manifest maxBytes files (MF_Path entry :: seen) total
  end.

Definition has_entry (manifest : Manifest) (path kind : string) : bool :=
  existsb (fun entry => String.eqb (MF_Path entry) path && String.eqb (MF_Kind entry) kind) (M_Files manifest).

Definition validateManifest (manifest : Manifest) (maxFiles maxBytes : Z) : bool :=
  let count := Z.of_nat (List.length (M_Files manifest)) in
  (M_SchemaVersion manifest =? BackupSchemaVersion) && negb (IsZero (M_CreatedAt manifest))
  && negb (String.eqb (TrimSpace (M_PanelVersion manifest)) "") && negb (count <? 2) && negb (maxFiles <? count)
  && valid_files manifest maxBytes (M_Files manifest) [] 0
  && has_entry manifest "config/config.yaml" "config" && has_entry manifest "database/myadmin.db" "database".

(** [expected[name]]. *)
Definition expected (manifest : Manifest) (name : string) : option ManifestFile :=
  List.find (fun entry => String.eqb (MF_Path entry) name) (rev (M_Files manifest)).

Definition target_of (destination name : string) : string := PathJoin [destination; name].

(** One file of the archive, written below [destination]. *)
Definition extract_file (destination : string) (header : tarHeader) (content : string) (entry : ManifestFile)
    : M node unit :=
  let target := target_of destination (T_Name header) in
  let* _ := MkdirAll (Dir target) 448 in
  let* _ := CreateExcl target (MF_Mode entry) in
  let content := take_bytes (MF_Size entry) content in
  let* copied := attempt (Append target content) in
  match copied with
  | Fail _ => fail (Sentinel ErrInvalidBackup)
  | Ok _ =>
      if negb (len content =? MF_Size entry) || negb (String.eqb (file_sha256 content) (MF_SHA256 entry))
      then fail (Sentinel ErrInvalidBackup) else ret tt
  end.

(** The entries after the manifest; [ended]: the stream ends well. *)
Fixpoint extract_files (destination : string) (manifest : Manifest) (entries : list (tarHeader * string))
    (ended : bool) (seen : list string) : M node (list string) :=
  let* _ := ctx_Err in
  match entries with
  | [] => if ended then ret seen else fail (Sentinel ErrInvalidBackup)
  | (header, content) :: entries =>
      let name := T_Name header in
      if negb (T_Regular header) || negb (safeArchivePath name) then fail (Sentinel ErrInvalidBackup)
      else
        match expected manifest name with
        | None => fail (Sentinel ErrInvalidBackup)
        | Some entry =>
            if negb (T_Size header =? MF_Size entry) || negb (Z.land (u32 (T_Mode header)) 511 =? MF_Mode entry)
               || existsb (String.eqb name) seen || negb (pathWithin destination (target_of destination name))
            then fail (Sentinel ErrInvalidBackup)
            else
              let* _ := extract_file destination header content entry in
              extract_files destination manifest entries ended (name :: seen)
        end
  end.

(** The manifest at the head of the entries, and the entries after it. *)
Definition read_manifest (entries : list (tarHeader * string)) : option (Manifest * list (tarHeader * string)) :=
  match entries with
  | (header, content) :: entries =>
      if negb (String.eqb (T_Name header) "manifest.json") || negb (T_Regular header) || (T_Size header <? 1)
         || (maxManifestBytes <? T_Size header) || negb (len content =? T_Size header) then None
      else match unmarshal content with Some manifest => Some (manifest, entries) | None => None end
  | [] => None
  end.

Definition extractAndValidate (archive destination : string) : M node Manifest :=
  let* content := ReadFile archive in
  match untargz content with
  | None => fail (Sentinel ErrInvalidBackup)
  | Some (entries, ended) =>
      match read_manifest entries with
      | None => fail (Sentinel ErrInvalidBackup)
      | Some (manifest, entries) =>
          if negb (validateManifest manifest (MaxFiles config) (MaxBackupBytes config))
          then fail (Sentinel ErrInvalidBackup)
          else
            let* seen := extract_files destination manifest entries ended [] in
            if (List.length seen =? List.length (remove_dups (map MF_Path (M_Files manifest))))%nat
            then ret manifest else fail (Sentinel ErrInvalidBackup)
      end
  end.

(** *** The configuration in a backup *)

(** The map is ranged over in any order: here that of the list. *)
Definition yamlValue (values : list (string * yaml_value)) (name : string) : option yaml_value :=
  match List.find (fun '(key, _) => EqualFold key name) values with Some (_, value) => Some value | None => None end.

Definition yamlMapValue (values : list (string * yaml_value)) (name : string) : option (list (string * yaml_value)) :=
  match yamlValue values name with Some (YamlMap result) => Some result | _ => None end.

Definition yamlStringValue (values : list (string * yaml_value)) (name : string) : option string :=
  match yamlValue values name with Some (YamlString result) => Some result | _ => None end.

(** [fmt.Sprint]; that of a map is no number. *)
Definition yaml_Sprint (value : yaml_value) : string :=
  match value with YamlString s => s | YamlOther s => s | YamlMap _ => "map[]" end.

Definition config_port (system : list (string * yaml_value)) : option Z :=
  match yamlValue system "port" with
  | None => None
  | Some value =>
      match Atoi (TrimSpace (yaml_Sprint value)) with
      | Some port => if (port <? 1) || (65535 <? port) then None else Some port
      | None => None
      end
  end.

Definition check_secret (system : list (string * yaml_value)) : bool :=
  match yamlStringValue system "jwtSecret" with
  | Some jwtSecret => negb (len (TrimSpace jwtSecret) <? 32)
  | None => false
  end.

Definition check_credential_key (system : list (string * yaml_value)) : bool :=
  let credentialKey := match yamlStringValue system "credentialKey" with Some s => s | None => "" end in
  match hex_decode (TrimSpace credentialKey) with
  | Some key => (List.length key =? 32)%nat
  | None => false
  end.

(** The port. *)
Definition check_config (content : string) (expectedCertificatePath : string) : result string :=
  let bad {A} (message : string) : result A := Fail (Wrap "" (Sentinel ErrInvalidBackup) (": " +:+ message)) in
  match yaml content with
  | None => bad "config.yaml is invalid"
  | Some document =>
      match yamlMapValue document "system" with
      | None => bad "system configuration is missing"
      | Some system =>
          match config_port system with
          | None => bad "panel HTTP port is invalid"
          | Some port =>
              if negb (check_secret system) then bad "JWT key is missing"
              else if negb (check_credential_key system) then bad "credential encryption key is invalid"
              else
                match yamlStringValue system "certificatePath" with
                | None => bad "certificate path is missing"
                | Some value =>
                    let certificatePath := cleaned value in
                    if negb (String.eqb expectedCertificatePath ".")
                       && negb (String.eqb certificatePath expectedCertificatePath)
                    then bad "certificate path does not match this Panel path"
                    else Ok (Itoa port)
                end
          end
      end
  end.

Definition readBackupConfig (path expectedCertificatePath : string) : M node string :=
  let* read := attempt (ReadFile path) in
  match read with
  | Fail _ => invalid_with "config.yaml cannot be read"
  | Ok content =>
      if (len content =? 0) || (2 ^ 22 <? len content) then invalid_with "config.yaml cannot be read"
      else match check_config content expectedCertificatePath with Ok port => ret port | Fail err => fail err end
  end.

Definition validateBackupConfig (path expectedCertificatePath : string) : M node unit :=
  let* _ := readBackupConfig path expectedCertificatePath in ret tt.

Definition HealthURL : M node string :=
  let* port := readBackupConfig (ConfigPath config) (CertificatePath config) in
  ret ("http://127.0.0.1:" +:+ port +:+ "/health/ready").

Definition validateSQLiteSnapshot (path : string) : M node unit :=
  let* opened := attempt (ReadFile path) in
  match opened with
  | Fail err => invalid_with ("open SQLite snapshot: " +:+ Error err)
  | Ok content =>
      match quick_check content with
      | Ok found => if String.eqb found "ok" then ret tt else invalid_with "SQLite integrity check failed"
      | Fail _ => invalid_with "SQLite integrity check failed"
      end
  end.

(** ** Preparing a backup *)

(** [preparedBackup]: [Cleanup] removes the workspace. *)
Record preparedBackup := mkPrepared { P_Manifest : Manifest; P_Root : string; P_Workspace : string }.

Definition Cleanup (prepared : preparedBackup) : M node unit := ignoring (RemoveAll (P_Workspace prepared)).

Definition staged {A} (stage : string) (m : M node A) : M node A :=
  let* done := attempt m in
  match done with Ok a => ret a | Fail err => fail (withValidationStage stage err) end.

(** Between the workspace and the result: what [cleanup] is called for. *)
Definition prepare_in (workspace archive passphrase : string) : M node preparedBackup :=
  let* _ := Chmod workspace 448 in
  let plainArchive := PathJoin [workspace; "payload.tar.gz"] in
  let* _ := staged ValidationStageDecrypt
    (decryptArchive scrypt archive plainArchive passphrase (MaxBackupBytes config)) in
  let extractedRoot := PathJoin [workspace; "payload"] in
  let* _ := Mkdir extractedRoot 448 in
  let* manifest := staged ValidationStageManifest (extractAndValidate plainArchive extractedRoot) in
  let* _ := ignoring (Remove plainArchive) in
  let* _ := staged ValidationStageConfig
    (validateBackupConfig (PathJoin [extractedRoot; "config"; "config.yaml"]) (CertificatePath config)) in
  let* _ := staged ValidationStageDatabase
    (validateSQLiteSnapshot (PathJoin [extractedRoot; "database"; "myadmin.db"])) in
  ret (mkPrepared manifest extractedRoot workspace).

(** [token] is what [os.MkdirTemp] puts for the star. *)
Definition prepare (token : string) (info : BackupInfo) (passphrase : string) : M node preparedBackup :=
  match archivePath info with
  | Fail err => fail err
  | Ok archive =>
      let* actual := staged ValidationStageIntegrity (backupFileInfo archive) in
      if negb (actual.1 =? BI_Size info) || negb (String.eqb actual.2 (BI_SHA256 info)) then
        fail (withValidationStage ValidationStageIntegrity
          (Wrap "" (Sentinel ErrInvalidBackup) ": encrypted archive digest does not match metadata"))
      else
        let workspace := PathJoin [BackupRoot config; ".preflight-" +:+ token] in
        let* _ := Mkdir workspace 448 in
        let* done := attempt (prepare_in workspace archive passphrase) in
        match done with
        | Ok prepared => ret prepared
        | Fail err => let* _ := ignoring (RemoveAll workspace) in fail err
        end
  end.

Definition Preflight (token id passphrase : string) : M node PreflightResult :=
  let* info := Get id in
  let* prepared := prepare token info passphrase in
  let manifest := P_Manifest prepared in
  let* _ := Cleanup prepared in
  ret (mkPreflight info (M_SchemaVersion manifest) (M_PanelVersion manifest)
    (Z.of_nat (List.length (M_Files manifest))) (M_IncludesCertificates manifest) true true).

(** ** Creating and importing *)

(** [VACUUM INTO]: the consistent snapshot, written to a new file. *)
Definition vacuum_into (database path : string) : M node unit :=
  let* done := attempt (let* _ := CreateExcl path 420 in Append path database) in
  match done with
  | Ok _ => ret tt
  | Fail err => fail (Wrap "create consistent SQLite snapshot: " err "")
  end.

(** [randomBackupID]. *)
Definition randomBackupID (random : result (list Z)) : M node string :=
  match random with Ok value => ret (hex_encode value) | Fail err => fail err end.

Definition file_name (prefix : string) (createdAt : time) (id : string) : string :=
  prefix +:+ format_compact createdAt +:+ "-" +:+ take_bytes 8 id +:+ ".onebak".

(** The outcomes of the random sources and the names of temporary files. *)
Record randomness := mkRandom {
  R_id : result (list Z); R_salt : result (list Z); R_prefix : result (list Z);
  R_workspace : string; R_prepare : string; R_metadata : string
}.

(** What follows [encryptArchive] in [Create]. *)
Definition publish (r : randomness) (finalPath passphrase : string) (result : Z -> string -> BackupInfo)
    : M node BackupInfo :=
  let* info := backupFileInfo finalPath in
  let result := result info.1 info.2 in
  let* prepared := prepare (R_prepare r) result passphrase in
  let* _ := Cleanup prepared in
  let* _ := writeMetadata (R_metadata r) result in
  ret result.

Definition create_in (r : randomness) (now : time) (workspace database passphrase : string)
    (includeCertificates : bool) : M node BackupInfo :=
  let* _ := Chmod workspace 448 in
  let databaseSnapshot := PathJoin [workspace; "myadmin.db"] in
  let* _ := vacuum_into database databaseSnapshot in
  let* sources := collectSources databaseSnapshot includeCertificates in
  let manifest := mkManifest BackupSchemaVersion now version includeCertificates (map manifest_file sources) in
  let plainArchive := PathJoin [workspace; "payload.tar.gz"] in
  let* _ := writeArchive plainArchive manifest sources in
  let* id := randomBackupID (R_id r) in
  let fileName := file_name "panel-" now id in
  let finalPath := PathJoin [BackupRoot config; fileName] in
  let* _ := encryptArchive scrypt plainArchive finalPath passphrase now (R_salt r) (R_prefix r) in
  removing finalPath
    (publish r finalPath passphrase (fun size digest =>
       mkInfo id fileName now version size digest (Z.of_nat (List.length sources)) includeCertificates false)).

(** [defer]: an effect after [m], whatever it returned. *)
Definition finally {A} (m : M node A) (cleanup : M node unit) : M node A :=
  let* done := attempt m in
  let* _ := ignoring cleanup in
  match done with Ok a => ret a | Fail err => fail err end.

(** [database] is what the panel database holds now, [None] when there is no handle. *)
Definition Create (r : randomness) (now : time) (database : option string) (passphrase : string)
    (includeCertificates : bool) : M node BackupInfo :=
  match validatePassphrase passphrase with
  | Some err => fail err
  | None =>
      match database with
      | None => fail (ErrorString "panel database is unavailable")
      | Some database =>
          let* _ := ctx_Err in
          let workspace := PathJoin [BackupRoot config; ".create-" +:+ R_workspace r] in
          let* _ := Mkdir workspace 448 in
          finally (create_in r now workspace database passphrase includeCertificates) (RemoveAll workspace)
      end
  end.

Definition maxEncryptedBytes : Z := i64 (MaxBackupBytes config + 2 ^ 20).

(** The upload up to the limit, as [io.LimitReader] passes it on. *)
Definition receive (temporaryPath source : string) : M node unit :=
  let* _ := Chmod temporaryPath 384 in
  let received := take_bytes (maxEncryptedBytes + 1) source in
  let* _ := Append temporaryPath received in
  if (len received <? 1) || (maxEncryptedBytes <? len received) then
    invalid_with "encrypted archive exceeds configured limit"
  else Sync temporaryPath.

Definition describe_import (r : randomness) (finalPath passphrase : string) (candidate : Z -> string -> BackupInfo)
    : M node BackupInfo :=
  let* fileInfo := backupFileInfo finalPath in
  let candidate := candidate fileInfo.1 fileInfo.2 in
  let* prepared := prepare (R_prepare r) candidate passphrase in
  let manifest := P_Manifest prepared in
  let candidate := mkInfo (BI_ID candidate) (BI_FileName candidate) (BI_CreatedAt candidate)
    (M_PanelVersion manifest) (BI_Size candidate) (BI_SHA256 candidate)
    (Z.of_nat (List.length (M_Files manifest))) (M_IncludesCertificates manifest) (BI_Imported candidate) in
  let* _ := Cleanup prepared in
  let* _ := writeMetadata (R_metadata r) candidate in
  ret candidate.

Definition import_in (r : randomness) (temporaryPath source passphrase : string) : M node BackupInfo :=
  let* _ := receive temporaryPath source in
  let* header := readEncryptionHeader temporaryPath in
  let* id := randomBackupID (R_id r) in
  let fileName := file_name "panel-import-" (H_CreatedAt header) id in
  let finalPath := PathJoin [BackupRoot config; fileName] in
  let* _ := Rename temporaryPath finalPath in
  let* _ := Sync (BackupRoot config) in
  removing finalPath
    (describe_import r finalPath passphrase (fun size digest =>
       mkInfo id fileName (H_CreatedAt header) "" size digest 0 false true)).

(** [source] is [None] for a nil reader. *)
Definition Import_ (r : randomness) (source : option string) (passphrase : string) : M node BackupInfo :=
  match source with
  | None => fail (Sentinel ErrInvalidBackup)
  | Some source =>
      match validatePassphrase passphrase with
      | Some err => fail err
      | None =>
          let temporaryPath := PathJoin [BackupRoot config; ".import-" +:+ R_workspace r +:+ ".onebak"] in
          let* _ := CreateExcl temporaryPath 384 in
          finally (import_in r temporaryPath source passphrase) (Remove temporaryPath)
      end
  end.
End manager.

(** ** Paths below the destination *)

Lemma safe_plain path : safeArchivePath path = true -> Forall plain_part (Split path slash).
Proof.
  unfold safeArchivePath. destruct (_ || _); [done|]. destruct (negb _ || _); [done|]. intros Hs.
  apply Forall_forall. intros p Hp. rewrite forallb_forall in Hs. specialize (Hs p (proj1 (list_elem_of_In _ _) Hp)).
  apply negb_true_iff in Hs. cbn [existsb] in Hs. rewrite !orb_false_iff in Hs.
  destruct Hs as (H1 & H2 & H3 & _). apply String.eqb_neq in H1, H2, H3.
  split_and!; try done. by eapply Forall_forall; [apply Split_pieces|].
Qed.

Section destination.
Variable destination : string.
Hypothesis absolute : IsAbs destination = true.

Lemma parts_target name : safeArchivePath name = true ->
  parts (target_of destination name) = parts destination ++ Split name slash.
Proof using absolute. intros Hs. by apply parts_PathJoin; [|apply safe_plain]. Qed.

Lemma target_below name : safeArchivePath name = true -> below (target_of destination name) destination.
Proof using absolute. intros Hs. exists (Split name slash). by apply parts_target. Qed.

Lemma target_parts_nonempty name : safeArchivePath name = true -> parts (target_of destination name) <> [].
Proof using absolute.
  intros Hs. rewrite parts_target by done. destruct (Split_cons name slash) as (h & t & ->). by destruct (parts destination).
Qed.

Lemma parts_target_dir name : safeArchivePath name = true ->
  parts (Dir (target_of destination name)) = parts destination ++ removelast (Split name slash).
Proof using absolute.
  intros Hs. rewrite parts_Dir; [|by apply IsAbs_PathJoin|by apply Clean_PathJoin|by apply target_parts_nonempty].
  rewrite parts_target by done. apply removelast_app. destruct (Split_cons name slash) as (h & t & ->). done.
Qed.

Lemma target_inj a b : safeArchivePath a = true -> safeArchivePath b = true ->
  parts (target_of destination a) = parts (target_of destination b) -> a = b.
Proof using absolute.
  intros Ha Hb. rewrite !parts_target by done. intros E%app_inv_head.
  rewrite <- (Join_Split a slash), <- (Join_Split b slash). by rewrite E.
Qed.

(** A file of the archive stays below the destination. *)
Lemma confined_extract_file header content entry : safeArchivePath (T_Name header) = true ->
  confined destination (extract_file destination header content entry).
Proof using absolute.
  intros Hs. assert (Hb := target_below _ Hs).
  assert (Hd : below (Dir (target_of destination (T_Name header))) destination)
    by (eexists; by apply parts_target_dir).
  apply confined_bind; [by apply confined_MkdirAll|]. intros _.
  apply confined_bind; [eapply confined_below; [exact Hb|apply confined_change]|]. intros _.
  apply confined_bind; [eapply confined_attempt, confined_below; [exact Hb|apply confined_change]|].
  intros []; [|auto with files]. destruct (_ || _); auto with files.
Qed.
End destination.

(** ** What an accepted archive left on the disk *)

(** The file of the manifest is there, with its mode, size and digest. *)
Definition extracted (destination : string) (manifest : Manifest) (disk : node) (name : string) : Prop :=
  exists entry content, expected manifest name = Some entry /\ safeArchivePath name = true /\
    at_path (target_of destination name) disk = Some (FileNode (MF_Mode entry) content) /\
    len content = MF_Size entry /\ file_sha256 content = MF_SHA256 entry.

Section extraction.
Variable destination : string.
Variable manifest : Manifest.
Hypothesis absolute : IsAbs destination = true.

Lemma extract_file_Ok header content entry w u w' : safeArchivePath (T_Name header) = true ->
  expected manifest (T_Name header) = Some entry ->
  extract_file destination header content entry w = (Ok u, w') ->
  extracted destination manifest (tables w') (T_Name header) /\
  (forall name, name <> T_Name header -> extracted destination manifest (tables w) name ->
     extracted destination manifest (tables w') name).
Proof using absolute.
  intros Hs Hx E. unfold extract_file in E.
  apply bind_Ok in E as ([] & w1 & E1 & E). apply bind_Ok in E as ([] & w2 & E2 & E).
  apply bind_Ok in E as (r & w3 & E3 & E). apply attempt_Ok in E3.
  destruct r as [[]|]; [|done]. destruct (_ || _) eqn:Ec; [done|]. apply ret_Ok in E as [_ ->].
  apply orb_false_iff in Ec as [Hlen%negb_false_iff%Z.eqb_eq Hsha%negb_false_iff%String.eqb_eq].
  assert (E2' := E2). apply CreateExcl_Ok in E2' as (Hnew & Hfile & _).
  assert (E3' := E3). apply Append_Ok in E3' as (mode & before & Hb & Ha & _).
  rewrite Hfile in Hb. injection Hb as <- <-.
  split; [by exists entry, (take_bytes (MF_Size entry) content)|].
  intros name Hne (entry' & c & Hx' & Hs' & Hf & Hl & Hc). exists entry', c. split_and!; try done.
  assert (Hp : parts (target_of destination name) <> parts (target_of destination (T_Name header)))
    by (intros Hp; apply Hne; by eapply target_inj).
  unfold at_path, CreateExcl, Append in *. eapply (change_file _ _ _ _ _ _ _ _ E3); [|done|intros; unfold at_path; by rewrite Hfile].
  eapply (change_file _ _ _ _ _ _ _ _ E2); [|done|intros; unfold at_path; by rewrite Hnew].
  by eapply MkdirAll_file.
Qed.

Lemma extract_files_Ok entries ended seen w seen' w' :
  Forall (extracted destination manifest (tables w)) seen -> NoDup seen ->
  extract_files destination manifest entries ended seen w = (Ok seen', w') ->
  Forall (extracted destination manifest (tables w')) seen' /\ NoDup seen'.
Proof using absolute.
  revert seen w. induction entries as [|[header content] entries IH]; intros seen w Hseen Hnd E; cbn in E;
    apply bind_Ok in E as ([] & w1 & E1 & E); apply statement_Ok in E1; injection E1 as E1.
  - destruct ended; [|done]. apply ret_Ok in E as [-> ->]. by rewrite E1 in Hseen.
  - destruct (_ || _) eqn:Eg; [done|]. apply orb_false_iff in Eg as [_ Hs%negb_false_iff].
    destruct (expected _ _) as [entry|] eqn:Hx; [|done].
    destruct (_ || _) eqn:Eg; [done|]. rewrite !orb_false_iff in Eg. destruct Eg as [[[_ _] Hnew] _].
    apply bind_Ok in E as ([] & w2 & E2 & E).
    apply extract_file_Ok in E2 as [Hf Hk]; [|done..]. rewrite E1 in Hseen.
    assert (Hni : T_Name header ∉ seen).
    { intros Hin. apply list_elem_of_In in Hin. apply not_true_iff_false in Hnew. apply Hnew, existsb_exists.
      exists (T_Name header). by rewrite String.eqb_refl. }
    eapply IH; [| |exact E]; constructor; try done.
    apply Forall_forall. intros name Hin. apply Hk; [by intros ->|]. by eapply Forall_forall in Hseen.
Qed.
End extraction.

Lemma confined_ctx_Err path : confined path ctx_Err.
Proof. apply confined_reading. by intros d a d' [= _ <-]. Qed.
#[local] Hint Resolve confined_ctx_Err : files.

Lemma confined_extract_files destination manifest entries ended seen : IsAbs destination = true ->
  confined destination (extract_files destination manifest entries ended seen).
Proof.
  intros Ha. revert seen. induction entries as [|[header content] entries IH]; intros seen;
    (apply confined_bind; [apply confined_ctx_Err|intros _; cbv beta iota zeta]); [destruct ended; auto with files|].
  destruct (_ || _) eqn:Eg; [auto with files|]. apply orb_false_iff in Eg as [_ Hs%negb_false_iff].
  destruct (expected _ _); [|auto with files]. destruct (_ || _); [auto with files|].
  apply confined_bind; [by apply confined_extract_file|done].
Qed.

Section accepted.
Context `{!UnicodeCase} `{!AEAD} `{!HeaderJSON} `{!Archives}.
Context `{!JSON Manifest} `{!JSON BackupInfo}.
Variable config : Config.

Lemma confined_extractAndValidate archive destination : IsAbs destination = true ->
  confined destination (extractAndValidate config archive destination).
Proof.
  intros Ha. apply confined_bind; [auto with files|]. intros content.
  destruct (untargz content) as [[entries ended]|]; [|auto with files].
  destruct (read_manifest entries) as [[manifest rest]|]; [|auto with files].
  destruct (negb _); [auto with files|].
  apply confined_bind; [by apply confined_extract_files|]. intros seen.
  destruct (_ =? _)%nat; auto with files.
Qed.

Lemma valid_files_paths manifest maxBytes files seen total :
  valid_files manifest maxBytes files seen total = true -> NoDup seen -> NoDup (map MF_Path files ++ seen).
Proof.
  revert seen total. induction files as [|entry files IH]; intros seen total E Hs; [done|].
  cbn [valid_files] in E. rewrite !andb_true_iff in E. destruct E as [[[[_ Hn%negb_true_iff] _] _] E].
  assert (Hni : MF_Path entry ∉ seen).
  { intros Hin%list_elem_of_In. apply not_true_iff_false in Hn. apply Hn, existsb_exists.
    exists (MF_Path entry). by rewrite String.eqb_refl. }
  cbn [map app]. rewrite Permutation_middle. eapply IH; [exact E|]. by constructor.
Qed.

Lemma expected_entry manifest entry : NoDup (map MF_Path (M_Files manifest)) -> In entry (M_Files manifest) ->
  expected manifest (MF_Path entry) = Some entry.
Proof.
  intros Hnd Hin. unfold expected. destruct (List.find _ _) as [e|] eqn:E.
  - apply List.find_some in E as [He Hp%String.eqb_eq]. apply in_rev in He. f_equal.
    eapply (NoDup_map_inj MF_Path); [done|by apply list_elem_of_In..|done].
  - apply List.find_none with (x := entry) in E; [|by apply in_rev in Hin]. by rewrite String.eqb_refl in E.
Qed.

Lemma remove_dups_NoDup (l : list string) : NoDup l -> remove_dups l = l.
Proof. induction 1 as [|x l Hx Hl IH]; [done|]. cbn. destruct (decide_rel _ x l); [done|]. by rewrite IH. Qed.


(** ** Nothing outside the workspace *)

Lemma confined_removing {A} path (m : M node A) : confined path m -> confined path (removing path m).
Proof.
  intros Hm. apply confined_bind; [by apply confined_attempt|]. intros []; auto with files.
  apply confined_bind; [apply confined_ignoring, confined_change|auto with files].
Qed.

Lemma confined_reading_ source path : confined path (reading source).
Proof. apply confined_bind; [auto with files|]. intros []; auto with files. Qed.

Lemma confined_read_chunks path fuel source key header noncePrefix max index total l :
  confined path (read_chunks fuel source path key header noncePrefix max index total l).
Proof.
  revert index total l. induction fuel as [|fuel IH]; intros index total l; cbn [read_chunks];
    (apply confined_bind; [apply confined_reading_|intros _; cbv beta]);
    (destruct (next_chunk _ _ _ _ _ _ _) as [[[plaintext|] rest]|]; [|auto with files..]);
    (apply confined_bind; [apply confined_change|intros _; cbv beta]); auto with files.
Qed.

Variable scrypt : string -> list Z -> list Z.
Variable yaml : string -> option (list (string * yaml_value)).
Variable quick_check : string -> result string.

Lemma confined_decryptArchive source path passphrase max : confined path (decryptArchive scrypt source path passphrase max).
Proof.
  unfold decryptArchive. destruct (validatePassphrase _); [auto with files|].
  apply confined_bind; [auto with files|intros content; cbv beta].
  apply confined_bind; [apply confined_reading_|intros _; cbv beta].
  destruct (read_prelude _) as [[headerBytes l]|]; [|auto with files].
  destruct (decode_header _) as [header|]; [|auto with files].
  destruct (check_header _) as [[salt noncePrefix]|]; [|auto with files].
  apply confined_bind; [apply confined_change|intros _; cbv beta].
  apply confined_removing, confined_bind; [apply confined_read_chunks|]. intros rest. destruct (negb _); auto with files.
Qed.

Lemma confined_staged {A} path stage (m : M node A) : confined path m -> confined path (staged stage m).
Proof. intros Hm. apply confined_bind; [auto with files|]. intros []; auto with files. Qed.

Lemma confined_validateBackupConfig path file expectedPath :
  confined path (validateBackupConfig yaml file expectedPath).
Proof.
  apply confined_bind; [|auto with files]. apply confined_bind; [auto with files|]. intros [content|]; [|apply confined_fail].
  destruct (_ || _); [apply confined_fail|]. destruct (check_config _ _ _); auto with files.
Qed.

Lemma confined_validateSQLiteSnapshot path file : confined path (validateSQLiteSnapshot quick_check file).
Proof.
  apply confined_bind; [auto with files|]. intros [content|]; [|apply confined_fail].
  destruct (quick_check content) as [found|]; [|apply confined_fail]. destruct (String.eqb _ _); [auto with files|apply confined_fail].
Qed.

Lemma below_join dir rel : IsAbs dir = true -> Forall plain_part (Split rel slash) -> below (PathJoin [dir; rel]) dir.
Proof. intros Ha Hr. exists (Split rel slash). by apply parts_PathJoin. Qed.

Lemma plain_name s : free_of slash s -> s <> "" -> s <> "." -> s <> ".." -> Forall plain_part (Split s slash).
Proof. intros Hs ???. rewrite Split_free by done. by constructor. Qed.

Lemma confined_prepare_in workspace archive passphrase : IsAbs workspace = true ->
  confined workspace (prepare_in scrypt yaml quick_check config workspace archive passphrase).
Proof.
  intros Ha.
  assert (Hb1 : below (PathJoin [workspace; "payload.tar.gz"]) workspace) by (apply below_join, plain_name; done).
  assert (Hb2 : below (PathJoin [workspace; "payload"]) workspace) by (apply below_join, plain_name; done).
  unfold prepare_in. apply confined_bind; [apply confined_change|intros _; cbv beta].
  apply confined_bind; [eapply confined_staged, confined_below; [exact Hb1|apply confined_decryptArchive]|intros _; cbv beta].
  apply confined_bind; [eapply confined_below; [exact Hb2|apply confined_change]|intros _; cbv beta].
  apply confined_bind; [eapply confined_staged, confined_below; [exact Hb2|]|intros manifest; cbv beta].
  { by apply confined_extractAndValidate, IsAbs_PathJoin. }
  apply confined_bind; [eapply confined_ignoring, confined_below; [exact Hb1|apply confined_change]|intros _; cbv beta].
  apply confined_bind; [apply confined_staged, confined_validateBackupConfig|intros _; cbv beta].
  apply confined_bind; [apply confined_staged, confined_validateSQLiteSnapshot|auto with files].
Qed.

Definition preflight_workspace (token : string) : string := PathJoin [BackupRoot config; ".preflight-" +:+ token].

Lemma confined_prepare token info passphrase : IsAbs (BackupRoot config) = true ->
  confined (preflight_workspace token) (prepare scrypt yaml quick_check config token info passphrase).
Proof.
  intros Ha. unfold prepare. destruct (archivePath _ _) as [archive|]; [|auto with files].
  apply confined_bind; [apply confined_staged|intros actual; cbv beta].
  { apply confined_bind; [auto with files|]. intros found. destruct (negb _); [auto with files|].
    apply confined_bind; [|auto with files]. apply confined_bind; auto with files. }
  destruct (_ || _); [auto with files|]. apply confined_bind; [apply confined_change|intros _; cbv beta].
  apply confined_bind; [apply confined_attempt; by apply confined_prepare_in, IsAbs_PathJoin|].
  intros []; [auto with files|]. apply confined_bind; auto with files.
Qed.

Lemma confined_Get path id : confined path (Get config id).
Proof.
  unfold Get. destruct (negb _); [auto with files|]. apply confined_bind; [auto with files|]. intros [info|err].
  - destruct (_ || _); [auto with files|]. apply confined_bind; [auto with files|]. intros content.
    destruct (unmarshal content); [|auto with files]. destruct (valid_info _); auto with files.
  - destruct (is_not_exist err); auto with files.
Qed.

Lemma prepare_workspace token info passphrase w prepared w' :
  prepare scrypt yaml quick_check config token info passphrase w = (Ok prepared, w') ->
  P_Workspace prepared = preflight_workspace token.
Proof.
  unfold prepare. destruct (archivePath _ _) as [archive|]; [|done]. intros E.
  apply bind_Ok in E as (actual & w1 & _ & E). destruct (_ || _); [done|].
  apply bind_Ok in E as (u & w2 & _ & E). apply bind_Ok in E as (done & w3 & E3 & E). apply attempt_Ok in E3.
  destruct done as [p|]; [|by apply bind_Ok in E as (? & ? & _ & [=])]. apply ret_Ok in E as [-> ->].
  unfold prepare_in in E3. repeat (apply bind_Ok in E3 as (? & ? & _ & E3)). by apply ret_Ok in E3 as [<- _].
Qed.

(** C7: whatever an uploaded or stored archive holds, checking it touches
    nothing but its workspace: a preflight, with any passphrase, any archive
    and any schedule of faults, leaves every path that is apart from
    [.preflight-*] below the backup root as it was, so neither the names, nor
    the modes, nor the sizes in a hostile archive reach the rest of the disk. *)
Theorem preflight_is_confined token id passphrase w r w' :
  IsAbs (BackupRoot config) = true ->
  Preflight scrypt yaml quick_check config token id passphrase w = (r, w') ->
  only_at (preflight_workspace token) (tables w) (tables w').
Proof.
  intros Ha E. unfold Preflight, bind in E.
  destruct (Get config id w) as [[info|e] w1] eqn:E1; assert (Hb1 := confined_Get (preflight_workspace token) id _ _ _ E1);
    [|by injection E as _ <-].
  destruct (prepare _ _ _ _ _ _ _ w1) as [[prepared|e] w2] eqn:E2;
    assert (Hb2 := confined_prepare _ _ _ Ha _ _ _ E2); [|injection E as _ <-; by eapply only_at_trans].
  assert (Hc : confined (preflight_workspace token) (Cleanup prepared)).
  { unfold Cleanup. rewrite (prepare_workspace _ _ _ _ _ _ E2). auto with files. }
  destruct (Cleanup prepared w2) as [[u|e] w3] eqn:E3; injection E as _ <-;
    (eapply only_at_trans; [exact Hb1|eapply only_at_trans; [exact Hb2|by eapply Hc]]).
Qed.
End accepted.

(** ** atomicWriteFile *)

(** The path that [atomicWriteFile] writes first. *)
Definition temporary (token path : string) : string := PathJoin [Dir path; "." +:+ Base path +:+ "." +:+ token +:+ ".new"].

Section atomic_write.
Variable root q token : string.
Hypothesis absolute : IsAbs root = true.
Hypothesis plain : plain_part q.
Hypothesis token_free : free_of slash token.
Abbreviation path := (PathJoin [root; q]).

Lemma path_parts : parts path = parts root ++ [q].
Proof using absolute plain.
  rewrite parts_PathJoin by (rewrite ?Split_free by apply plain; auto). by rewrite Split_free by apply plain.
Qed.

Lemma path_is : path = path_of true (parts root ++ [q]).
Proof using absolute plain.
  rewrite <- path_parts, <- Clean_abs by (by apply IsAbs_PathJoin). by rewrite Clean_PathJoin.
Qed.

Lemma dir_path : Dir path = path_of true (parts root).
Proof using absolute plain. rewrite path_is. apply parts_Dir_join; [by apply parts_plain|done]. Qed.

Lemma parts_dir_path : parts (Dir path) = parts root.
Proof using absolute plain. rewrite dir_path. by apply parts_path_of, parts_plain. Qed.

Lemma temporary_parts : exists t, parts (temporary token path) = parts root ++ [t] /\ t <> q.
Proof using All.
  assert (Hb : Base path = q) by (rewrite path_is; by apply Base_path_of).
  unfold temporary. rewrite Hb. set (t := "." +:+ q +:+ "." +:+ token +:+ ".new").
  assert (Hlen : len t = len q + len token + 6) by (unfold t; rewrite !len_app; unfold len; cbn; lia).
  assert (Hq := len_nonneg q). assert (Ht := len_nonneg token).
  assert (Hf : free_of slash t).
  { unfold t. destruct plain as (_ & _ & _ & Hf). repeat apply free_of_app; try done. }
  exists t. split; [|intros Hx; rewrite Hx in Hlen; lia].
  assert (Ha : IsAbs (Dir path) = true) by (rewrite dir_path; apply IsAbs_path_of).
  rewrite parts_PathJoin, parts_dir_path, Split_free; [done|done|done|].
  rewrite Split_free by done. constructor; [|constructor]. assert (Hl : 6 <= len t) by lia. clearbody t.
  split_and!; try done; intros ->; unfold len in Hl; cbn in Hl; lia.
Qed.

Lemma below_path : below path root.
Proof using absolute plain. eexists. apply path_parts. Qed.

(** The whole of the old content or the whole of the new one, at every failure. *)
Lemma atomicWriteFile_run content mode w r w' : atomicWriteFile token path content mode w = (r, w') ->
  only_at root (tables w) (tables w') /\
  (at_path path (tables w') = at_path path (tables w) \/ at_path path (tables w') = Some (FileNode mode content)) /\
  (r = Ok tt -> at_path path (tables w') = Some (FileNode mode content)).
Proof using All.
  intros E. destruct temporary_parts as (t & Htp & Hne). assert (Hpp := path_parts).
  unfold atomicWriteFile, bind in E. fold (temporary token path) in E.
  destruct (MkdirAll _ _ w) as [r1 w1] eqn:E1.
  assert (Ho1 : only_at root (tables w) (tables w1)).
  { eapply confined_MkdirAll; [|exact E1]. exists []. by rewrite parts_dir_path, app_nil_r. }
  assert (Hs1 : at_path path (tables w1) = at_path path (tables w)).
  { eapply MkdirAll_other; [exact E1|]. rewrite parts_dir_path, Hpp. apply starts_with_longer. }
  destruct r1 as [u1|err]; [|injection E as <- <-; split; [done|split; [by left|done]]].
  apply (write_beside_run (parts root) t q), (replaced_keeps (parts root) t q) in E as (Hu & Hg & Hr); [|done..].
  rewrite Hs1 in Hg.
  split; [|done]. eapply only_at_trans; [exact Ho1|]. eapply untouched_below; [|exact Hu].
  repeat constructor; [by eexists|apply below_path].
Qed.
End atomic_write.

(** ** A concrete instance *)

Section witnesses.
#[local] Existing Instances latin1_case demo_xaead demo_header_json.

(** A codec from the fields of a type. *)
Definition fields_json {A} (put : A -> list (Z + string)) (get : list (Z + string) -> option A)
    (get_put : forall a, get (put a) = Some a) : JSON A.
Proof.
  refine {| marshal a := fields_line (put a);
            unmarshal s := match line_fields s with Some l => get l | None => None end |}.
  - intros a. by rewrite line_fields_of.
  - intros a. by rewrite line_fields_line.
Defined.

Definition file_fields (f : ManifestFile) : list (Z + string) :=
  [inr (MF_Path f); inr (MF_Kind f); inl (MF_Size f); inl (MF_Mode f); inr (MF_SHA256 f)].

Fixpoint files_of (l : list (Z + string)) : option (list ManifestFile) :=
  match l with
  | [] => Some []
  | inr path :: inr kind :: inl size :: inl mode :: inr digest :: l =>
      match files_of l with Some files => Some (mkFile path kind size mode digest :: files) | None => None end
  | _ => None
  end.

Definition manifest_of (l : list (Z + string)) : option Manifest :=
  match l with
  | inl schema :: inl created :: inr version :: inl certificates :: files =>
      match files_of files with
      | Some files => Some (mkManifest schema created version (certificates =? 1) files)
      | None => None
      end
  | _ => None
  end.

#[local] Instance demo_manifest_json : JSON Manifest.
Proof.
  refine (fields_json
    (fun m => inl (M_SchemaVersion m) :: inl (M_CreatedAt m) :: inr (M_PanelVersion m)
              :: flag (M_IncludesCertificates m) :: flat_map file_fields (M_Files m)) manifest_of _).
  intros [schema created version certificates files]. cbn.
  assert (files_of (flat_map file_fields files) = Some files) as ->.
  { induction files as [|[] files IH]; [done|]. cbn. by rewrite IH. }
  by destruct certificates.
Defined.

Definition info_of (l : list (Z + string)) : option BackupInfo :=
  match l with
  | [inr a; inr b; inl c; inr d; inl e; inr f; inl g; inl h; inl i] =>
      Some (mkInfo a b c d e f g (h =? 1) (i =? 1))
  | _ => None
  end.

#[local] Instance demo_info_json : JSON BackupInfo.
Proof.
  refine (fields_json
    (fun i => [inr (BI_ID i); inr (BI_FileName i); inl (BI_CreatedAt i); inr (BI_PanelVersion i); inl (BI_Size i);
               inr (BI_SHA256 i); inl (BI_FileCount i); flag (BI_IncludesCertificates i); flag (BI_Imported i)])
    info_of _).
  intros [? ? ? ? ? ? ? [] []]; done.
Defined.

Definition entry_fields (e : tarHeader * string) : list (Z + string) :=
  [inr (T_Name e.1); inl (T_Mode e.1); inl (T_Size e.1); flag (T_Regular e.1); inr e.2].

Fixpoint entries_of (l : list (Z + string)) : option (list (tarHeader * string)) :=
  match l with
  | [] => Some []
  | inr name :: inl mode :: inl size :: inl regular :: inr content :: l =>
      match entries_of l with
      | Some entries => Some ((mkTar name mode size (regular =? 1), content) :: entries)
      | None => None
      end
  | _ => None
  end.

Definition demo_untargz (s : string) : option (list (tarHeader * string) * bool) :=
  match line_fields s with
  | Some l => match entries_of l with Some entries => Some (entries, true) | None => None end
  | None => None
  end.

#[local] Program Instance demo_archives : Archives := {|
  targz l := fields_line (flat_map entry_fields l);
  untargz := demo_untargz
|}.
Next Obligation.
  intros l _. unfold demo_untargz. rewrite line_fields_of.
  assert (He : entries_of (flat_map entry_fields l) = Some l).
  { induction l as [|[[name mode size []] content] l IH]; [done|..]; cbn; by rewrite IH. }
  by rewrite He.
Qed.

Definition demo_files : list (string * string * string) :=
  [("config/config.yaml", "config", "port: 1"); ("database/myadmin.db", "database", "SQLite")].

Definition demo_manifest : Manifest :=
  mkManifest 1 7 "1.0" false
    (map (fun '(path, kind, content) => mkFile path kind (len content) 384 (file_sha256 content)) demo_files).

Definition demo_entries : list (tarHeader * string) :=
  let text := marshal demo_manifest in
  (mkTar "manifest.json" 384 (len text) true, text)
  :: map (fun '(path, _, content) => (mkTar path 384 (len content) true, content)) demo_files.

Definition demo_config : Config := mkConfig "/panel" "/panel/config.yaml" "/panel/myadmin.db" "." "/backups" 100000 10.

Definition demo_archive_disk : node :=
  DirNode 493 {["pkg" := FileNode 384 (targz demo_entries)]}.

Definition demo_run : result Manifest * world node :=
  extractAndValidate demo_config "/pkg" "/out" (World demo_archive_disk []).


(** A backup in the store whose archive is not what its metadata says. *)
Definition demo_id : string := "0123456789abcdef0123456789abcdef".

Definition demo_info : BackupInfo :=
  mkInfo demo_id "panel.onebak" 7 "1.0" 3 (file_sha256 "bad") 2 false false.

Definition demo_store : node :=
  DirNode 493 {["etc" := FileNode 384 "kept";
                "backups" := DirNode 448 {["panel.onebak" := FileNode 384 "bad";
                                           demo_id +:+ ".json" := FileNode 384 (marshal demo_info +:+ line_feed)]}]}.

Lemma preflight_is_confined_witness :
  let run := Preflight demo_scrypt (fun _ => None) (fun _ => Ok "ok") demo_config "1" demo_id "correct horse battery"
    (World demo_store []) in
  is_ok run.1 = false /\ only_at "/backups/.preflight-1" demo_store (tables run.2) /\
  at_path "/etc" (tables run.2) = Some (FileNode 384 "kept").
Proof.
  intros run. destruct run as [r w] eqn:E.
  assert (Ho := preflight_is_confined demo_config demo_scrypt (fun _ => None) (fun _ => Ok "ok") "1" demo_id
    "correct horse battery" (World demo_store []) r w eq_refl E).
  split; [vm_compute in E; by injection E as <- _|]. split; [exact Ho|].
  cbn [snd]. rewrite (Ho "/etc" ltac:(by vm_compute)). vm_compute. reflexivity.
Defined.
End witnesses.
