(* ===== verification/PanelRestore.v ===== *)
(** Restoring a backup of the panel ([internal/services/panelbackup/restore.go]):
    candidates beside their targets, a journal, two renames for each entry, and
    the rollback that works from what is on the disk.

    A process that stops is a schedule of faults in which every call from some
    point on fails, so a theorem over all schedules covers every crash. *)

From stdpp Require Import gmap strings sorting options.
From S2P Require Import Prelude GoStrings GoText GoCrypto GoTime GoPath Store GoFiles Credential BackupCrypt PanelBackup.
#[local] Open Scope Z_scope.

Definition restoreJournalSchema : Z := 1.
Definition ErrRestoreBusy : string := "panel restore is already running".
Definition ErrRecoveryNeeded : string := "an interrupted panel restore must be recovered".

(** *** Data *)

Record restoreEntry := mkEntry {
  E_Target : string; E_Candidate : string; E_Previous : string; E_Kind : string;
  E_HadOld : bool; E_Installed : bool
}.

Record restoreJournal := mkJournal {
  J_SchemaVersion : Z; J_BackupID : string; J_CreatedAt : time; J_Entries : list restoreEntry
}.

Record RestoreTransaction := mkTransaction { T_Journal : restoreJournal; T_Closed : bool }.

Record RestoreRequest := mkRequest { RR_BackupID : string; RR_Passphrase : string }.

Record RestoreStatus := mkStatus {
  RS_State : string; RS_BackupID : string; RS_Message : string; RS_RollbackAttempted : bool;
  RS_RollbackSucceeded : bool; RS_StartedAt : option time; RS_UpdatedAt : time; RS_FinishedAt : option time
}.

Definition StatusIdle : string := "idle".
Definition StatusValidating : string := "validating".
Definition StatusStopping : string := "stopping".
Definition StatusRestoring : string := "restoring".
Definition StatusHealthCheck : string := "health_checking".
Definition StatusSucceeded : string := "succeeded".
Definition StatusFailed : string := "failed".
Definition StatusRolledBack : string := "rolled_back".
Definition StatusRollbackError : string := "rollback_failed".

(** ** Files and directories beside their targets *)

Definition removeRestorePath (path kind : string) : M node unit :=
  if String.eqb path "" then ret tt
  else if String.eqb kind "certificates" then RemoveAll path
  else Remove path.

Definition copyRegularFile (source destination : string) (mode : Z) : M node unit :=
  let* content := ReadFile source in
  let* _ := CreateExcl destination mode in
  let* _ := removing destination (let* _ := Append destination content in Sync destination) in
  Sync (Dir destination).

(** The callback of [WalkDir] on one entry below [source]. *)
Definition copy_entry (source destination : string) (found : string * node) : M node unit :=
  let '(relative, n) := found in
  if String.eqb relative ".." || HasPrefix relative "../" then fail (Sentinel ErrInvalidBackup)
  else
    let target := PathJoin [destination; relative] in
    match n with
    | LinkNode _ => fail (Sentinel ErrInvalidBackup)
    | DirNode mode _ => Mkdir target mode
    | FileNode mode _ =>
        let* _ := MkdirAll (Dir target) 448 in
        copyRegularFile (PathJoin [source; relative]) target mode
    end.

Fixpoint copy_entries (source destination : string) (found : list (string * node)) : M node unit :=
  match found with
  | [] => ret tt
  | entry :: found => let* _ := copy_entry source destination entry in copy_entries source destination found
  end.

(** [defer]: the destination and all below it go when an error is returned. *)
Definition removing_all {A} (destination : string) (m : M node A) : M node A :=
  let* done := attempt m in
  match done with
  | Ok a => ret a
  | Fail err => let* _ := ignoring (RemoveAll destination) in fail err
  end.

Definition copyDirectory (source destination : string) : M node unit :=
  let* _ := Mkdir destination 448 in
  let* _ := removing_all destination
    (let* n := Lstat source in copy_entries source destination (walk walk_fuel "" n)) in
  Sync (Dir destination).

Definition candidate_of (target operationID : string) : string := target +:+ ".one-restore-new-" +:+ operationID.
Definition previous_of (target operationID : string) : string := target +:+ ".one-restore-old-" +:+ operationID.

(** A target is there: of the kind that [good] wants, or the candidate goes. *)
Definition had_old (target : string) (good : node -> bool) (message : string) (discard : M node unit) : M node bool :=
  let* found := attempt (Lstat target) in
  match found with
  | Ok info =>
      if good info then ret true
      else let* _ := ignoring discard in fail (ErrorString (message +:+ target))
  | Fail err =>
      if is_not_exist err then ret false else let* _ := ignoring discard in fail err
  end.

Definition prepareFileEntry (source target operationID kind : string) (mode : Z) : M node restoreEntry :=
  if negb (IsAbs target) || String.eqb (Clean target) "/" then fail (Sentinel ErrInvalidBackup)
  else
    let* _ := MkdirAll (Dir target) 448 in
    let candidate := candidate_of target operationID in
    let* found := attempt (Lstat candidate) in
    match found with
    | Ok _ => fail (ErrorString "restore candidate already exists")
    | Fail err =>
        if negb (is_not_exist err) then fail err
        else
          let* _ := copyRegularFile source candidate mode in
          let* hadOld := had_old target IsRegular "restore target is not a regular file: " (Remove candidate) in
          ret (mkEntry target candidate (previous_of target operationID) kind hadOld false)
    end.

Definition prepareDirectoryEntry (source target operationID kind : string) : M node restoreEntry :=
  if negb (IsAbs target) || String.eqb (Clean target) "/" then fail (Sentinel ErrInvalidBackup)
  else
    let* _ := MkdirAll (Dir target) 448 in
    let candidate := candidate_of target operationID in
    let* _ := copyDirectory source candidate in
    let* hadOld := had_old target IsDir "restore target is not a real directory: " (RemoveAll candidate) in
    ret (mkEntry target candidate (previous_of target operationID) kind hadOld false).

(** ** Installing and rolling back *)

Definition set_aside (entry : restoreEntry) : M node unit :=
  if E_HadOld entry then Rename (E_Target entry) (E_Previous entry) else ret tt.

(** The candidate in its place, or what was there before back. *)
Definition bring_in (entry : restoreEntry) : M node unit :=
  let* renamed := attempt (Rename (E_Candidate entry) (E_Target entry)) in
  match renamed with
  | Ok _ => ret tt
  | Fail err =>
      let* _ := if E_HadOld entry then ignoring (Rename (E_Previous entry) (E_Target entry)) else ret tt in
      fail err
  end.

Definition installRestoreEntry (entry : restoreEntry) : M node restoreEntry :=
  let* _ := set_aside entry in
  let* _ :=
    if negb (String.eqb (E_Candidate entry) "") then bring_in entry
    else if negb (E_HadOld entry) then fail (Sentinel ErrInvalidBackup) else ret tt in
  let* _ := Sync (Dir (E_Target entry)) in
  ret (mkEntry (E_Target entry) (E_Candidate entry) (E_Previous entry) (E_Kind entry) (E_HadOld entry) true).

(** [os.Lstat]: whether something is there, or the error that is not [ErrNotExist]. *)
Definition exists_at (path : string) : M node (result bool) :=
  let* found := attempt (Lstat path) in
  ret match found with
      | Ok _ => Ok true
      | Fail err => if is_not_exist err then Ok false else Fail err
      end.

(** The removal of a path that may be missing. *)
Definition remove_target (entry : restoreEntry) : M node (list error) :=
  let* removed := attempt (removeRestorePath (E_Target entry) (E_Kind entry)) in
  ret match removed with
      | Ok _ => []
      | Fail err => if is_not_exist err then [] else [err]
      end.

(** The previous content back in its place. *)
Definition put_back (entry : restoreEntry) : M node (list error) :=
  let* errs := remove_target entry in
  match errs with
  | _ :: _ => ret errs
  | [] =>
      let* renamed := attempt (Rename (E_Previous entry) (E_Target entry)) in
      match renamed with
      | Fail err => ret [err]
      | Ok _ =>
          let* synced := attempt (Sync (Dir (E_Target entry))) in
          ret match synced with Ok _ => [] | Fail err => [err] end
      end
  end.

Definition drop_candidate (entry : restoreEntry) : M node unit :=
  if negb (String.eqb (E_Candidate entry) "") then
    ignoring (removeRestorePath (E_Candidate entry) (E_Kind entry))
  else ret tt.

(** The candidate of an entry without one is looked for in vain. *)
Definition candidate_exists (entry : restoreEntry) : M node (result bool) :=
  if String.eqb (E_Candidate entry) "" then ret (Ok false) else exists_at (E_Candidate entry).

(** One round of the loop of [rollbackJournal], with the errors it collects. *)
Definition rollback_entry (entry : restoreEntry) : M node (list error) :=
  let* previous := exists_at (E_Previous entry) in
  match previous with
  | Fail err => ret [err]
  | Ok previousExists =>
      let* candidate := candidate_exists entry in
      match candidate with
      | Fail err => ret [err]
      | Ok candidateExists =>
          if E_HadOld entry && previousExists then
            let* errs := put_back entry in
            match errs with
            | [] => let* _ := drop_candidate entry in ret []
            | _ => ret errs
            end
          else
            let* errs :=
              if negb (E_HadOld entry) && negb (String.eqb (E_Candidate entry) "") && negb candidateExists
              then remove_target entry else ret [] in
            let* _ := drop_candidate entry in
            ret errs
      end
  end.

(** From the last entry to the first. *)
Fixpoint rollback_entries (entries : list restoreEntry) : M node (list error) :=
  match entries with
  | [] => ret []
  | entry :: entries =>
      let* errs := rollback_entries entries in
      let* more := rollback_entry entry in
      ret (errs ++ more)
  end.

(** [errors.Join] of no error is nil. *)
Definition rollbackJournal (journal : restoreJournal) : M node (list error) := rollback_entries (J_Entries journal).

Definition rollback_result (errs : list error) : result unit :=
  match errs with [] => Ok tt | err :: errs => Fail (errors_Join err errs) end.

Fixpoint cleanup_entries (entries : list restoreEntry) : M node unit :=
  match entries with
  | [] => ret tt
  | entry :: entries => let* _ := drop_candidate entry in cleanup_entries entries
  end.

Definition cleanupJournalCandidates (journal : restoreJournal) : M node unit := cleanup_entries (J_Entries journal).

Section manager.
Context `{!UnicodeCase} `{!AEAD} `{!HeaderJSON} `{!Archives}.
Context `{!JSON Manifest} `{!JSON BackupInfo} `{!JSON restoreJournal} `{!JSON RestoreRequest} `{!JSON RestoreStatus}.
Variable scrypt : string -> list Z -> list Z.
Variable yaml : string -> option (list (string * yaml_value)).
Variable quick_check : string -> result string.
Variable config : Config.

(** ** The journal *)

Definition restoreJournalPath : string := PathJoin [BackupRoot config; "restore-journal.json"].

Definition writeRestoreJournal (token : string) (journal : restoreJournal) : M node unit :=
  atomicWriteFile token restoreJournalPath (marshal journal +:+ line_feed) 384.

(** The map of the targets: a path that comes twice has the kind given last. *)
Definition allowed_targets : list (string * string) :=
  [(ConfigPath config, "config"); (DatabasePath config, "database");
   (DatabasePath config +:+ "-wal", "sqlite-sidecar"); (DatabasePath config +:+ "-shm", "sqlite-sidecar");
   (identity_path config, "identity"); (trust_path config, "trust")]
  ++ (if String.eqb (CertificatePath config) "." then [] else [(CertificatePath config, "certificates")]).

(** [allowed[target]]: the empty string for a path that is not in the map. *)
Definition allowed_kind_of (target : string) : string :=
  match List.find (fun '(path, _) => String.eqb path target) (rev allowed_targets) with
  | Some (_, kind) => kind
  | None => ""
  end.

Definition validRestoreSibling (target sibling marker : string) : bool :=
  let prefix := Clean target +:+ marker in
  if negb (HasPrefix (Clean sibling) prefix) then false else valid_id (TrimPrefix (Clean sibling) prefix).

Definition validRestoreEntry (entry : restoreEntry) : bool :=
  if negb (String.eqb (allowed_kind_of (Clean (E_Target entry))) (E_Kind entry))
     || negb (validRestoreSibling (E_Target entry) (E_Previous entry) ".one-restore-old-") then false
  else if String.eqb (E_Candidate entry) "" then String.eqb (E_Kind entry) "sqlite-sidecar"
  else validRestoreSibling (E_Target entry) (E_Candidate entry) ".one-restore-new-".

Definition valid_journal (journal : restoreJournal) : bool :=
  (J_SchemaVersion journal =? restoreJournalSchema) && valid_id (J_BackupID journal)
  && negb (IsZero (J_CreatedAt journal))
  && negb (Z.of_nat (List.length (J_Entries journal)) <? 2)
  && negb (100010 <? Z.of_nat (List.length (J_Entries journal)))
  && forallb validRestoreEntry (J_Entries journal).

(** [None]: there is no journal. *)
Definition readRestoreJournal : M node (option restoreJournal) :=
  let* read := attempt (ReadFile restoreJournalPath) in
  match read with
  | Fail err => if is_not_exist err then ret None else fail err
  | Ok content =>
      match unmarshal content with
      | Some journal => if valid_journal journal then ret (Some journal) else fail (Sentinel ErrInvalidBackup)
      | None => fail (Sentinel ErrInvalidBackup)
      end
  end.

Definition RecoverInterruptedRestore : M node unit :=
  let* found := readRestoreJournal in
  match found with
  | None => ret tt
  | Some journal =>
      let* errs := rollbackJournal journal in
      match rollback_result errs with
      | Fail err => fail err
      | Ok _ =>
          let* _ := Remove restoreJournalPath in
          Sync (BackupRoot config)
      end
  end.

Definition NeedsRecovery : M node bool :=
  let* found := attempt (Lstat restoreJournalPath) in
  match found with
  | Fail err => if is_not_exist err then ret false else fail err
  | Ok info => if IsRegular info then ret true else fail (Sentinel ErrInvalidBackup)
  end.

(** ** The entries of a restore *)

(** An error drops the candidates that were made. *)
Definition cleaning {A} (entries : list restoreEntry) (m : M node A) : M node A :=
  let* done := attempt m in
  match done with
  | Ok a => ret a
  | Fail err => let* _ := cleanup_entries entries in fail err
  end.

(** A file of the backup that need not be there. *)
Fixpoint add_optional (operationID : string) (optional : list (string * string * string))
    (entries : list restoreEntry) : M node (list restoreEntry) :=
  match optional with
  | [] => ret entries
  | (source, target, kind) :: optional =>
      let* found := cleaning entries (exists_at source) in
      match found with
      | Ok true =>
          let* entry := cleaning entries (prepareFileEntry source target operationID kind 384) in
          add_optional operationID optional (entries ++ [entry])
      | Ok false => add_optional operationID optional entries
      | Fail err => let* _ := cleanup_entries entries in fail err
      end
  end.

Fixpoint add_sidecars (operationID : string) (suffixes : list string) (entries : list restoreEntry)
    : M node (list restoreEntry) :=
  match suffixes with
  | [] => ret entries
  | suffix :: suffixes =>
      let target := DatabasePath config +:+ suffix in
      let* found := exists_at target in
      match found with
      | Ok true =>
          add_sidecars operationID suffixes
            (entries ++ [mkEntry target "" (previous_of target operationID) "sqlite-sidecar" true false])
      | Ok false => add_sidecars operationID suffixes entries
      | Fail err => let* _ := cleanup_entries entries in fail err
      end
  end.

Definition add_certificates (root operationID : string) (entries : list restoreEntry) : M node (list restoreEntry) :=
  let certificateSource := PathJoin [root; "certificates"] in
  let* _ := cleaning entries (MkdirAll certificateSource 448) in
  let* entry := cleaning entries
    (prepareDirectoryEntry certificateSource (CertificatePath config) operationID "certificates") in
  ret (entries ++ [entry]).

Definition optional_targets (root : string) : list (string * string * string) :=
  [(PathJoin [root; "identity"; "panel-instance-id"], identity_path config, "identity");
   (PathJoin [root; "update"; "trusted-keys.json"], trust_path config, "trust")].

Definition prepare_entries (prepared : preparedBackup) (operationID : string) : M node (list restoreEntry) :=
  let root := P_Root prepared in
  let* first := prepareFileEntry (PathJoin [root; "config"; "config.yaml"]) (ConfigPath config) operationID "config" 384 in
  let* second := cleaning [first]
    (prepareFileEntry (PathJoin [root; "database"; "myadmin.db"]) (DatabasePath config) operationID "database" 384) in
  let* entries := add_optional operationID (optional_targets root) [first; second] in
  let* entries := add_sidecars operationID ["-wal"; "-shm"] entries in
  if M_IncludesCertificates (P_Manifest prepared) then add_certificates root operationID entries else ret entries.

(** ** RestoreOffline *)

(** The end of a restore that failed: the journal goes, whatever the rollback reported. *)
Definition abandon {A} (journal : restoreJournal) (err : error) : M node A :=
  let* errs := rollbackJournal journal in
  let* _ := ignoring (Remove restoreJournalPath) in
  fail (errors_Join err errs).

(** The loop over the entries: [token n] names the temporary file of the n-th journal. *)
Fixpoint install_entries (token : nat -> string) (journal_of : list restoreEntry -> restoreJournal)
    (done todo : list restoreEntry) : M node (list restoreEntry) :=
  match todo with
  | [] => ret done
  | entry :: todo =>
      let* alive := attempt ctx_Err in
      match alive with
      | Fail err => abandon (journal_of (done ++ entry :: todo)) err
      | Ok _ =>
          let* installed := attempt (installRestoreEntry entry) in
          match installed with
          | Fail err => abandon (journal_of (done ++ entry :: todo)) err
          | Ok entry =>
              let journal := journal_of (done ++ entry :: todo) in
              let* written := attempt (writeRestoreJournal (token (List.length done)) journal) in
              match written with
              | Fail err => abandon journal err
              | Ok _ => install_entries token journal_of (done ++ [entry]) todo
              end
          end
      end
  end.

(** The journal first, then the entries. *)
Definition install_all (first_token : string) (token : nat -> string) (id : string) (now : time)
    (entries : list restoreEntry) : M node RestoreTransaction :=
  let journal_of := mkJournal restoreJournalSchema id now in
  let* _ := cleaning entries (writeRestoreJournal first_token (journal_of entries)) in
  let* installed := install_entries token journal_of [] entries in
  ret (mkTransaction (journal_of installed) false).

Record restore_tokens := mkTokens {
  K_prepare : string; K_operation : result (list Z); K_first : string; K_journal : nat -> string
}.

Definition restore_prepared (tokens : restore_tokens) (now : time) (id : string) (prepared : preparedBackup)
    : M node RestoreTransaction :=
  let* operationID := randomBackupID (K_operation tokens) in
  let* entries := prepare_entries prepared operationID in
  install_all (K_first tokens) (K_journal tokens) id now entries.

Definition RestoreOffline (tokens : restore_tokens) (now : time) (id passphrase : string)
    : M node RestoreTransaction :=
  let* found := exists_at restoreJournalPath in
  match found with
  | Fail err => fail err
  | Ok true => fail (Sentinel ErrRecoveryNeeded)
  | Ok false =>
      let* info := Get config id in
      let* prepared := prepare scrypt yaml quick_check config (K_prepare tokens) info passphrase in
      finally (restore_prepared tokens now id prepared) (Cleanup prepared)
  end.

(** ** Commit and Rollback *)

Definition drop_previous (entry : restoreEntry) : M node unit :=
  if E_HadOld entry then ignoring (removeRestorePath (E_Previous entry) (E_Kind entry)) else ret tt.

Fixpoint drop_all (entries : list restoreEntry) : M node unit :=
  match entries with
  | [] => ret tt
  | entry :: entries =>
      let* _ := drop_previous entry in
      let* _ := drop_candidate entry in
      drop_all entries
  end.

Definition Commit (t : RestoreTransaction) : M node RestoreTransaction :=
  if T_Closed t then ret t
  else
    let* _ := remove_if_there restoreJournalPath in
    let* _ := Sync (BackupRoot config) in
    let* _ := drop_all (J_Entries (T_Journal t)) in
    ret (mkTransaction (T_Journal t) true).

(** The transaction is closed whatever the rollback returns. *)
Definition Rollback (t : RestoreTransaction) : M node (result unit * RestoreTransaction) :=
  if T_Closed t then ret (Ok tt, t)
  else
    let* errs := rollbackJournal (T_Journal t) in
    let* _ := match errs with [] => ignoring (Remove restoreJournalPath) | _ => ret tt end in
    ret (rollback_result errs, mkTransaction (T_Journal t) true).

(** ** The request and the status *)

Definition restoreRequestPath : string := PathJoin [BackupRoot config; "restore-request.json"].

Definition WriteRestoreRequest (request : RestoreRequest) : M node unit :=
  if negb (valid_id (TrimSpace (RR_BackupID request))) then fail (Sentinel ErrNotFound)
  else
    match validatePassphrase (RR_Passphrase request) with
    | Some err => fail err
    | None =>
        let* created := attempt (CreateExcl restoreRequestPath 384) in
        match created with
        | Fail err => if errors_Is err ErrExist then fail (Sentinel ErrRestoreBusy) else fail err
        | Ok _ =>
            removing restoreRequestPath
              (let* _ := Append restoreRequestPath (marshal request +:+ line_feed) in Sync restoreRequestPath)
        end
    end.

(** The request goes once it was read, valid or not. *)
Definition ConsumeRestoreRequest : M node RestoreRequest :=
  let* info := Lstat restoreRequestPath in
  if negb (IsRegular info) || negb (Z.land (Perm info) 63 =? 0) || (4096 <? Size info)
  then fail (Sentinel ErrInvalidBackup)
  else
    let* read := attempt (ReadFile restoreRequestPath) in
    let* _ := ignoring (Remove restoreRequestPath) in
    match read with
    | Fail err => fail err
    | Ok content =>
        match unmarshal content with
        | Some request =>
            match validatePassphrase (RR_Passphrase request) with
            | None => if valid_id (RR_BackupID request) then ret request else fail (Sentinel ErrInvalidBackup)
            | Some _ => fail (Sentinel ErrInvalidBackup)
            end
        | None => fail (Sentinel ErrInvalidBackup)
        end
    end.

Definition RemoveRestoreRequest : M node unit :=
  let* _ := ignoring (Remove restoreRequestPath) in
  ignoring (Sync (BackupRoot config)).

Definition restoreStatusPath : string := PathJoin [BackupRoot config; "restore-status.json"].

Definition WriteStatus (token : string) (status : RestoreStatus) : M node unit :=
  atomicWriteFile token restoreStatusPath (marshal status +:+ line_feed) 384.

Definition validRestoreStatus (status : RestoreStatus) : bool :=
  existsb (String.eqb (RS_State status))
    [StatusIdle; StatusValidating; StatusStopping; StatusRestoring; StatusHealthCheck; StatusSucceeded;
     StatusFailed; StatusRolledBack; StatusRollbackError]
  && negb (IsZero (RS_UpdatedAt status))
  && (String.eqb (RS_BackupID status) "" || valid_id (RS_BackupID status)).

Definition idle_status (now : time) : RestoreStatus := mkStatus StatusIdle "" "" false false None now None.

Definition Status (now : time) : M node RestoreStatus :=
  let* found := attempt (Lstat restoreStatusPath) in
  match found with
  | Fail err => if is_not_exist err then ret (idle_status now) else fail err
  | Ok info =>
      if negb (IsRegular info) || (2 ^ 16 <? Size info) then fail (Sentinel ErrInvalidBackup)
      else
        let* content := ReadFile restoreStatusPath in
        match unmarshal content with
        | Some status => if validRestoreStatus status then ret status else fail (Sentinel ErrInvalidBackup)
        | None => fail (Sentinel ErrInvalidBackup)
        end
  end.
End manager.
