(* ===== verification/RestoreSafety.v ===== *)
(** What a restore of the panel guarantees: as long as the journal is on the
    disk, every entry can be brought back to what it was before, from every
    state that any sequence of failed calls can leave.

    The invariant of an entry is [recoverable]; the rollback and the
    installation keep it under every schedule of faults, and a rollback that
    reports no error, in particular one without faults, ends in [restored]. *)

From stdpp Require Import gmap strings sorting options.
From S2P Require Import Prelude GoStrings GoText GoCrypto GoTime GoPath Store GoFiles Credential BackupCrypt PanelBackup.
From S2P Require Import PanelRestore.
#[local] Open Scope Z_scope.

(** ** One entry *)

(** The candidate and the previous content are beside the target. *)
Definition placed (e : restoreEntry) : Prop :=
  exists dir t p, parts (E_Target e) = dir ++ [t] /\ parts (E_Previous e) = dir ++ [p] /\ t <> p /\
    (E_Candidate e = "" \/ exists c, parts (E_Candidate e) = dir ++ [c] /\ c <> t /\ c <> p).

Definition entry_paths (e : restoreEntry) : list string :=
  E_Target e :: E_Previous e :: (if String.eqb (E_Candidate e) "" then [] else [E_Candidate e]).

Definition no_dir (o : option node) : Prop := match o with Some (DirNode _ _) => False | _ => True end.

(** Only the entry of the certificates is a directory. *)
Definition right_kind (e : restoreEntry) (d : node) : Prop :=
  E_Kind e <> "certificates" -> Forall (fun p => no_dir (at_path p d)) (entry_paths e).

(** [old] is what the target held before the restore. *)
Definition recoverable (old : option node) (e : restoreEntry) (d : node) : Prop :=
  right_kind e d /\
  if E_HadOld e then
    is_Some old /\ ((at_path (E_Previous e) d = None /\ at_path (E_Target e) d = old) \/ at_path (E_Previous e) d = old)
  else old = None /\ (at_path (E_Target e) d = None \/ (E_Candidate e <> "" /\ at_path (E_Candidate e) d = None)).

(** Before the entry is installed. *)
Definition pristine (old : option node) (e : restoreEntry) (d : node) : Prop :=
  right_kind e d /\ at_path (E_Target e) d = old /\
  if E_HadOld e then is_Some old /\ at_path (E_Previous e) d = None else old = None.

Lemma pristine_recoverable old e d : pristine old e d -> recoverable old e d.
Proof.
  intros (Hk & Ht & Hh). split; [done|]. destruct (E_HadOld e); [split; [tauto|]; left; tauto|].
  split; [done|left; by rewrite Ht].
Qed.

Section entry.
Variable old : option node.
Variable e : restoreEntry.
Hypothesis Hplaced : placed e.

Lemma target_ne : parts (E_Target e) <> [] /\ E_Target e <> "".
Proof using Hplaced.
  destruct Hplaced as (dir & t & p & Ht & _). split; [rewrite Ht; by destruct dir|]. intros E. rewrite E in Ht.
  by destruct dir.
Qed.

Lemma previous_ne : parts (E_Previous e) <> [].
Proof using Hplaced. destruct Hplaced as (dir & t & p & _ & Hp & _). rewrite Hp. by destruct dir. Qed.

Lemma candidate_ne : E_Candidate e <> "" -> parts (E_Candidate e) <> [].
Proof using Hplaced.
  intros Hc. destruct Hplaced as (dir & t & p & _ & _ & _ & [|(c & Hcp & _)]); [done|]. rewrite Hcp. by destruct dir.
Qed.

Lemma apart_target_previous : apart (parts (E_Target e)) (parts (E_Previous e)) = true.
Proof using Hplaced. destruct Hplaced as (dir & t & p & -> & -> & Hne & _). by apply apart_siblings. Qed.

Lemma apart_candidate : E_Candidate e <> "" ->
  apart (parts (E_Target e)) (parts (E_Candidate e)) = true /\
  apart (parts (E_Previous e)) (parts (E_Candidate e)) = true.
Proof using Hplaced.
  intros Hc. destruct Hplaced as (dir & t & p & -> & -> & _ & [|(c & -> & H1 & H2)]); [done|].
  split; by apply apart_siblings.
Qed.

Lemma candidate_path : E_Candidate e <> "" -> E_Candidate e ∈ entry_paths e.
Proof using Type. clear Hplaced. intros Hc. unfold entry_paths. rewrite (proj2 (String.eqb_neq _ _) Hc). set_solver. Qed.

(** The removal of a path of the entry. *)
Lemma removeRestorePath_run path w r w' : path <> "" -> parts path <> [] ->
  removeRestorePath path (E_Kind e) w = (r, w') ->
  only_at path (tables w) (tables w') /\ (calm w -> calm w') /\
  (at_path path (tables w') = None \/ tables w' = tables w) /\
  match r with
  | Ok _ => at_path path (tables w') = None
  | Fail err => tables w' = tables w /\ (is_not_exist err = true -> at_path path (tables w) = None) /\
      (calm w -> (E_Kind e <> "certificates" -> no_dir (at_path path (tables w))) -> is_not_exist err = true)
  end.
Proof using Type.
  intros Hne Hp E. unfold removeRestorePath in E. rewrite (proj2 (String.eqb_neq _ _) Hne) in E.
  destruct (String.eqb_spec (E_Kind e) "certificates") as [Hk|Hk].
  - apply RemoveAll_run in E as (Ho & Hc & Hr); [|done]. split; [done|]. split; [by intros [? _]%Hc|].
    destruct r as [|err]; [by split; [left|]|]. destruct Hr as [Ht Hx]. split; [by right|]. split; [done|].
    split; [by rewrite Hx|]. intros Hw _. by apply Hc in Hw as [_ [=]].
  - apply Remove_run in E as (Ho & Hc & Hr); [|done]. split; [done|]. split; [done|].
    destruct r as [|err]; [by split; [left|]|]. destruct Hr as (Ht & Hx & Hcalm). split; [by right|]. split; [done|].
    split; [done|]. intros Hw Hd. destruct (Hcalm Hw) as [|(mode & entries & Hat)]; [done|].
    specialize (Hd Hk). by rewrite Hat in Hd.
Qed.

Lemma remove_target_run w r w' : remove_target e w = (r, w') ->
  exists errs, r = Ok errs /\ only_at (E_Target e) (tables w) (tables w') /\
    (at_path (E_Target e) (tables w') = None \/ tables w' = tables w) /\
    (errs = [] -> at_path (E_Target e) (tables w') = None) /\
    (calm w -> calm w' /\ (right_kind e (tables w) -> errs = [])).
Proof using Hplaced.
  intros E. unfold remove_target, bind in E. destruct (attempt _ w) as [r1 w1] eqn:E1.
  apply attempt_run in E1 as (done & E1 & ->). injection E as <- <-. destruct target_ne as [Hp Hn].
  apply removeRestorePath_run in E1 as (Ho & Hc & Hg & Hr); [|done..]. eexists. split; [reflexivity|].
  split; [done|]. split; [done|]. destruct done as [u|err]; [by split; [|intros Hw; split; [auto|]]|].
  destruct Hr as (Ht & Hx & Hcalm). split.
  - destruct (is_not_exist err) eqn:Ex; [|done]. rewrite Ht. auto.
  - intros Hw. split; [auto|]. intros Hk. rewrite Hcalm; [done|done|]. intros Hne. specialize (Hk Hne).
    by apply Forall_inv in Hk.
Qed.

Lemma exists_at_run path w r w' : exists_at path w = (r, w') ->
  exists found, r = Ok found /\ tables w' = tables w /\ (calm w -> calm w' /\ exists b, found = Ok b) /\
    (found = Ok true -> is_Some (at_path path (tables w))) /\ (found = Ok false -> at_path path (tables w) = None).
Proof using Type.
  intros E. unfold exists_at, bind in E. destruct (attempt _ w) as [r1 w1] eqn:E1.
  apply attempt_run in E1 as (done & E1 & ->). injection E as <- <-. apply Lstat_run in E1 as (Ht & Hc & Hr).
  eexists. split; [reflexivity|]. split; [done|]. destruct done as [n|err].
  - split; [intros Hw; split; [auto|by exists true]|]. split; [|done]. intros _. rewrite Hr. by eexists.
  - destruct Hr as [Hx Hcalm]. destruct (is_not_exist err) eqn:Ex.
    + split; [intros Hw; split; [auto|by exists false]|]. split; [done|auto].
    + split; [intros Hw; by specialize (Hcalm Hw)|done].
Qed.

Lemma drop_candidate_run w r w' : drop_candidate e w = (r, w') ->
  r = Ok tt /\ (E_Candidate e = "" -> tables w' = tables w) /\
  (E_Candidate e <> "" -> only_at (E_Candidate e) (tables w) (tables w') /\
     (at_path (E_Candidate e) (tables w') = None \/ tables w' = tables w)) /\
  (calm w -> calm w').
Proof using Hplaced.
  intros E. unfold drop_candidate in E. destruct (String.eqb_spec (E_Candidate e) "") as [Hc|Hc]; cbn [negb] in E.
  - injection E as <- <-. by split_and!.
  - apply ignoring_run in E as (-> & done & E). apply removeRestorePath_run in E as (Ho & Hw & Hg & _);
      [|done|by apply candidate_ne]. by split_and!.
Qed.
End entry.

(** ** The rollback of an entry *)

Section rollback.
Variable old : option node.
Variable e : restoreEntry.
Hypothesis Hplaced : placed e.

Lemma right_kind_step d d' : right_kind e d ->
  (forall p, p ∈ entry_paths e -> at_path p d' = None \/ exists q, q ∈ entry_paths e /\ at_path p d' = at_path q d) ->
  right_kind e d'.
Proof using Type.
  clear Hplaced. intros Hk Hs Hne. specialize (Hk Hne). apply Forall_forall. intros p Hp. destruct (Hs p Hp) as [->|(q & Hq & ->)]; [done|].
  by eapply Forall_forall in Hk.
Qed.

(** Another path of the entry than the one that changed. *)
Lemma entry_paths_other p q d d' : p ∈ entry_paths e -> q ∈ entry_paths e -> only_at p d d' ->
  q = p \/ at_path q d' = at_path q d.
Proof using Hplaced.
  intros Hp Hq Ho. assert (Htp := apart_target_previous e Hplaced). assert (Hc := apart_candidate e Hplaced).
  unfold entry_paths in Hp, Hq. destruct (String.eqb_spec (E_Candidate e) "") as [Hce|Hce];
    [clear Hc|destruct (Hc Hce) as [Htc Hpc]]; rewrite ?elem_of_cons, ?elem_of_nil in Hp, Hq;
    destruct_or!; subst; try (by left); right; apply Ho; by rewrite ?(apart_sym (parts (E_Previous e)) (parts (E_Target e))),
      ?(apart_sym (parts (E_Candidate e))).
Qed.

(** A path of the entry that went or stayed. *)
Lemma right_kind_only p d d' : p ∈ entry_paths e -> only_at p d d' -> at_path p d' = None \/ d' = d ->
  right_kind e d -> right_kind e d'.
Proof using Hplaced.
  intros Hp Ho [Hn | ->] Hk; [|done]. eapply right_kind_step; [exact Hk|]. intros q Hq.
  destruct (entry_paths_other p q d d' Hp Hq Ho) as [-> | Hs]; [by left|right]. by exists q.
Qed.

Lemma target_in : E_Target e ∈ entry_paths e.
Proof using Type. clear Hplaced. unfold entry_paths. set_solver. Qed.

Lemma previous_in : E_Previous e ∈ entry_paths e.
Proof using Type. clear Hplaced. unfold entry_paths. set_solver. Qed.

Lemma drop_candidate_keeps w r w' : drop_candidate e w = (r, w') -> recoverable old e (tables w) ->
  r = Ok tt /\ recoverable old e (tables w') /\ untouched (entry_paths e) (tables w) (tables w') /\
  at_path (E_Target e) (tables w') = at_path (E_Target e) (tables w) /\ (calm w -> calm w').
Proof using Hplaced.
  intros E [Hk Hr]. apply drop_candidate_run in E as (-> & Hnone & Hsome & Hc); [|done]. split; [done|].
  destruct (String.eqb_spec (E_Candidate e) "") as [Hce|Hce].
  { rewrite Hnone by done. split; [by split|]. split; [apply untouched_refl|]. done. }
  destruct (Hsome Hce) as [Ho Hg]. assert (Hcp := candidate_path e Hce). destruct (apart_candidate e Hplaced Hce) as [Htc Hpc].
  assert (Ht := Ho (E_Target e) Htc). assert (Hp := Ho (E_Previous e) Hpc).
  split; [|split; [by eapply only_untouched|by split]]. split; [by eapply right_kind_only|].
  rewrite Ht, Hp. destruct (E_HadOld e); [done|]. destruct Hr as [Hold Hr]. split; [done|].
  destruct Hr as [|[_ Hcn]]; [by left|]. right. split; [done|]. destruct Hg as [|Hg]; [done|]. by rewrite Hg.
Qed.

Lemma remove_target_keeps w r w' : remove_target e w = (r, w') -> recoverable old e (tables w) ->
  (if E_HadOld e then at_path (E_Previous e) (tables w) = old
   else E_Candidate e <> "" /\ at_path (E_Candidate e) (tables w) = None) ->
  exists errs, r = Ok errs /\ recoverable old e (tables w') /\ untouched (entry_paths e) (tables w) (tables w') /\
    (errs = [] -> at_path (E_Target e) (tables w') = None) /\ (calm w -> calm w' /\ errs = []) /\
    at_path (E_Previous e) (tables w') = at_path (E_Previous e) (tables w).
Proof using Hplaced.
  intros E [Hk Hr] Hcase. apply remove_target_run in E as (errs & -> & Ho & Hg & Hn & Hc); [|done].
  exists errs. split; [done|]. assert (Hpp : at_path (E_Previous e) (tables w') = at_path (E_Previous e) (tables w)).
  { apply Ho. rewrite apart_sym. by apply apart_target_previous. }
  assert (Hk' : right_kind e (tables w')) by (eapply right_kind_only; [apply target_in|done..]).
  split; [|split; [eapply only_untouched; [apply target_in|done]|]].
  - split; [done|]. destruct (E_HadOld e).
    + split; [by destruct Hr|]. right. by rewrite Hpp.
    + destruct Hr as [Hold _]. split; [done|]. right. destruct Hcase as [Hce Hcn]. split; [done|].
      rewrite <- Hcn. apply Ho. rewrite apart_sym. by apply apart_candidate.
  - split; [done|]. split; [|done]. intros Hw. destruct (Hc Hw) as [? Hx]. split; [done|auto].
Qed.

Lemma put_back_keeps w r w' : put_back e w = (r, w') -> E_HadOld e = true -> recoverable old e (tables w) ->
  at_path (E_Previous e) (tables w) = old ->
  exists errs, r = Ok errs /\ recoverable old e (tables w') /\ untouched (entry_paths e) (tables w) (tables w') /\
    (errs = [] -> at_path (E_Target e) (tables w') = old) /\ (calm w -> calm w' /\ errs = []).
Proof using Hplaced.
  intros E Hh Hrec Hp. unfold put_back, bind in E. destruct (remove_target e w) as [r1 w1] eqn:E1.
  apply remove_target_keeps in E1 as (errs & -> & Hrec1 & Hu1 & Hn1 & Hc1 & Hp1); [|done|by rewrite Hh].
  destruct errs as [|err errs]; [|injection E as <- <-; eexists; split_and!; try done; by intros Hw; apply Hc1 in Hw as [_ ?]].
  destruct (attempt _ w1) as [r2 w2] eqn:E2. apply attempt_run in E2 as (done & E2 & ->).
  destruct Hplaced as (dir & t & p & Ht & Hpp & Hne & Hcand).
  apply (Rename_run dir p t) in E2 as (Hu2 & Hc2 & Hr2); [|done..].
  assert (Hold : is_Some old) by (destruct Hrec1 as [_ Hx]; rewrite Hh in Hx; tauto).
  assert (Hu2' : untouched (entry_paths e) (tables w1) (tables w2)).
  { eapply untouched_incl; [|exact Hu2]. assert (H1 := target_in). assert (H2 := previous_in). clear -H1 H2. set_solver. }
  destruct done as [u|err].
  - destruct Hr2 as (_ & Ht2 & Hp2). destruct (attempt _ w2) as [r3 w3] eqn:E3. apply attempt_run in E3 as (done & E3 & ->).
    apply Sync_run in E3 as [Ht3 Hc3]. assert (w' = w3) as -> by (destruct done; by injection E as _ <-).
    assert (Hat : at_path (E_Target e) (tables w3) = old) by (by rewrite Ht3, Ht2, Hp1).
    exists (match done with Ok _ => [] | Fail err => [err] end). rewrite Ht3.
    split; [by destruct done; injection E as <-|]. split; [|split; [by eapply untouched_trans|split; [by rewrite <- Ht3|]]].
    + split.
      * eapply right_kind_step; [apply Hrec1|]. intros q Hq.
        destruct (String.eqb_spec q (E_Target e)) as [->|Hqt]; [right; exists (E_Previous e); split; [apply previous_in|done]|].
        destruct (String.eqb_spec q (E_Previous e)) as [->|Hqp]; [by left|]. right. exists q. split; [done|].
        apply Hu2. assert (q = E_Candidate e /\ E_Candidate e <> "") as [-> Hce].
        { unfold entry_paths in Hq. destruct (String.eqb_spec (E_Candidate e) ""); set_solver. }
        destruct (apart_candidate e (ex_intro _ dir (ex_intro _ t (ex_intro _ p (conj Ht (conj Hpp (conj Hne Hcand))))))
          Hce) as [Ha Hb]. repeat constructor; by rewrite apart_sym.
      * rewrite Hh. split; [done|]. left. split; [done|]. by rewrite <- Ht3.
    + intros Hw. destruct (Hc1 Hw) as [Hw1 _]. destruct (Hc3 (Hc2 Hw1)) as [? ->]. done.
  - destruct Hr2 as [Ht2 Hcalm2]. injection E as <- <-. exists [err]. rewrite Ht2. split; [done|]. split; [done|].
    split; [done|]. split; [done|]. intros Hw. destruct (Hc1 Hw) as [Hw1 _]. exfalso.
    specialize (Hcalm2 Hw1 (Hn1 eq_refl)). rewrite Hp1, Hp in Hcalm2. destruct Hold as [? Hold]. congruence.
Qed.
End rollback.

Lemma rollback_entry_keeps old e w r w' : placed e -> rollback_entry e w = (r, w') -> recoverable old e (tables w) ->
  exists errs, r = Ok errs /\ recoverable old e (tables w') /\ untouched (entry_paths e) (tables w) (tables w') /\
    (errs = [] -> at_path (E_Target e) (tables w') = old) /\ (calm w -> calm w' /\ errs = []).
Proof.
  intros Hpl E Hrec. unfold rollback_entry, bind in E. destruct (exists_at _ w) as [r1 w1] eqn:E1.
  apply exists_at_run in E1 as (previous & -> & Ht1 & Hc1 & Hyes1 & Hno1). rewrite <- Ht1 in Hrec, Hyes1, Hno1 |- *.
  destruct previous as [pe|err]; [|injection E as <- <-; exists [err]; split_and!; try done;
    by intros Hw; apply Hc1 in Hw as [_ [? ?]]].
  assert (Hc1' : calm w -> calm w1) by (intros Hw; by apply Hc1). clear Hc1.
  destruct (candidate_exists e w1) as [r2 w2] eqn:E2.
  assert (Hcand : exists found, r2 = Ok found /\ tables w2 = tables w1 /\ (calm w1 -> calm w2 /\ exists b, found = Ok b) /\
      (found = Ok true -> E_Candidate e <> "" /\ is_Some (at_path (E_Candidate e) (tables w1))) /\
      (found = Ok false -> E_Candidate e <> "" -> at_path (E_Candidate e) (tables w1) = None)).
  { unfold candidate_exists in E2. destruct (String.eqb_spec (E_Candidate e) "") as [Hce|Hce].
    - injection E2 as <- <-. exists (Ok false). split_and!; try done. intros Hw. split; [done|by exists false].
    - apply exists_at_run in E2 as (found & -> & Ht2 & Hc2 & Hy & Hn). exists found. split_and!; try done; auto. }
  destruct Hcand as (candidate & -> & Ht2 & Hc2 & Hyes2 & Hno2). rewrite <- Ht2 in Hrec, Hyes1, Hno1, Hyes2, Hno2 |- *.
  destruct candidate as [ce|err]; [|injection E as <- <-; exists [err]; split_and!; try done;
    by intros Hw; apply Hc1', Hc2 in Hw as [_ [? ?]]].
  assert (Hc : calm w -> calm w2) by (intros Hw; by apply Hc2, Hc1'). clear Hc1' Hc2 Ht1 Ht2 E2.
  destruct (E_HadOld e && pe) eqn:Eb.
  - apply andb_true_iff in Eb as [Hh ->].
    assert (Hp : at_path (E_Previous e) (tables w2) = old).
    { destruct Hrec as [_ Hx]. rewrite Hh in Hx. destruct Hx as [_ [[Hn _]|]]; [|done].
      rewrite Hn in Hyes1. by destruct (Hyes1 eq_refl). }
    destruct (put_back e w2) as [r3 w3] eqn:E3. apply (put_back_keeps old) in E3 as (errs & -> & Hrec3 & Hu3 & Hr3 & Hc3); [|done..].
    destruct errs as [|err errs].
    + destruct (drop_candidate e w3) as [r4 w4] eqn:E4. apply (drop_candidate_keeps old) in E4 as (-> & Hrec4 & Hu4 & Ht4 & Hc4); [|done..].
      injection E as <- <-. exists []. split_and!; try done; [by eapply untouched_trans|by rewrite Ht4, Hr3|].
      intros Hw. split; [|done]. by apply Hc4, Hc3, Hc.
    + injection E as <- <-. eexists. split_and!; try done. intros Hw. by apply Hc3, Hc.
  - set (cond := negb (E_HadOld e) && negb (String.eqb (E_Candidate e) "") && negb ce) in E.
    destruct ((if cond then remove_target e else ret []) w2) as [r3 w3] eqn:E3.
    assert (H3 : exists errs, r3 = Ok errs /\ recoverable old e (tables w3) /\
        untouched (entry_paths e) (tables w2) (tables w3) /\
        (errs = [] -> at_path (E_Target e) (tables w3) = old) /\ (calm w2 -> calm w3 /\ errs = [])).
    { destruct cond eqn:Ec; unfold cond in Ec.
      - rewrite !andb_true_iff, !negb_true_iff in Ec. destruct Ec as [[Hh Hce%String.eqb_neq] ->].
        apply (remove_target_keeps old) in E3 as (errs & -> & Hrec3 & Hu3 & Hn3 & Hc3 & _); [|done|done|rewrite Hh; auto].
        exists errs. split_and!; try done. destruct Hrec3 as [_ Hx]. rewrite Hh in Hx. destruct Hx as [-> _]. done.
      - injection E3 as <- <-. exists []. do 2 (split; [done|]). split; [apply untouched_refl|]. split; [|done]. intros _.
        destruct Hrec as [_ Hx]. destruct (E_HadOld e).
        + cbn in Eb. subst pe. destruct Hx as [[v Hv] [[_ ?]|Hx]]; [done|]. rewrite Hno1 in Hx by done. by rewrite Hv in Hx.
        + destruct Hx as [-> [|[Hce Hcn]]]; [done|]. cbn in Ec. rewrite (proj2 (String.eqb_neq _ _) Hce) in Ec.
          cbn in Ec. apply negb_false_iff in Ec as ->. destruct (Hyes2 eq_refl) as [_ [v Hv]]. by rewrite Hv in Hcn. }
    destruct H3 as (errs & -> & Hrec3 & Hu3 & Hr3 & Hc3).
    destruct (drop_candidate e w3) as [r4 w4] eqn:E4.
    apply (drop_candidate_keeps old) in E4 as (-> & Hrec4 & Hu4 & Ht4 & Hc4); [|done..].
    injection E as <- <-. exists errs. split_and!; try done; [by eapply untouched_trans|by intros Hx; rewrite Ht4; auto|].
    intros Hw. destruct (Hc3 (Hc Hw)) as [Hw3 ->]. split; [by apply Hc4|done].
Qed.

(** ** All entries *)

Definition separate (e f : restoreEntry) : Prop :=
  forall p q, p ∈ entry_paths e -> q ∈ entry_paths f -> apart (parts p) (parts q) = true.

(** The entries of a restore, none of whose paths is at or around another. *)
Definition well_placed (entries : list restoreEntry) : Prop :=
  Forall placed entries /\ ForallOrdPairs separate entries.

Definition all_paths (entries : list restoreEntry) : list string := flat_map entry_paths entries.

(** What [d0] held at the target. *)
Definition before (d0 : node) (e : restoreEntry) : option node := at_path (E_Target e) d0.

Definition all_recoverable (d0 d : node) (entries : list restoreEntry) : Prop :=
  Forall (fun e => recoverable (before d0 e) e d) entries.

Definition restored (d0 d : node) (entries : list restoreEntry) : Prop :=
  Forall (fun e => at_path (E_Target e) d = before d0 e) entries.

Lemma untouched_entry e ps d d' : untouched ps d d' ->
  (forall p q, p ∈ entry_paths e -> q ∈ ps -> apart (parts p) (parts q) = true) ->
  Forall (fun p => at_path p d' = at_path p d) (entry_paths e).
Proof.
  intros Hu Ha. apply Forall_forall. intros p Hp. apply Hu. apply Forall_forall. intros q Hq. by apply Ha.
Qed.

Lemma recoverable_same old e d d' : Forall (fun p => at_path p d' = at_path p d) (entry_paths e) ->
  recoverable old e d -> recoverable old e d'.
Proof.
  intros Hs [Hk Hr]. assert (Ht := proj1 (Forall_forall _ _) Hs _ (target_in e)).
  assert (Hp := proj1 (Forall_forall _ _) Hs _ (previous_in e)). cbv beta in Ht, Hp. split.
  - eapply right_kind_step; [exact Hk|]. intros q Hq. right. exists q. split; [done|].
    by eapply (proj1 (Forall_forall _ _) Hs).
  - rewrite Ht, Hp. destruct (E_HadOld e); [done|]. destruct Hr as [Hold [|[Hce Hcn]]]; (split; [done|]); [by left|right].
    split; [done|]. rewrite <- Hcn. apply (proj1 (Forall_forall _ _) Hs). by apply candidate_path.
Qed.

Lemma all_recoverable_other d0 d d' ps entries : untouched ps d d' ->
  Forall (fun e => forall p q, p ∈ entry_paths e -> q ∈ ps -> apart (parts p) (parts q) = true) entries ->
  all_recoverable d0 d entries -> all_recoverable d0 d' entries.
Proof.
  intros Hu Ha Hr. unfold all_recoverable in *. rewrite !Forall_forall in *. intros e He.
  eapply recoverable_same; [|by apply Hr]. eapply untouched_entry; [exact Hu|by apply Ha].
Qed.

Lemma separate_sym e f : separate e f -> separate f e.
Proof. intros H p q Hp Hq. rewrite apart_sym. by apply H. Qed.

Lemma separate_all e entries : Forall (separate e) entries ->
  forall p q, p ∈ entry_paths e -> q ∈ all_paths entries -> apart (parts p) (parts q) = true.
Proof.
  intros Hs p q Hp Hq. apply list_elem_of_In, in_flat_map in Hq as (f & Hf & Hq). apply list_elem_of_In in Hf, Hq.
  eapply Forall_forall in Hs; [|exact Hf]. by apply Hs.
Qed.

Lemma rollback_entries_keeps d0 entries w r w' : well_placed entries -> rollback_entries entries w = (r, w') ->
  all_recoverable d0 (tables w) entries ->
  exists errs, r = Ok errs /\ all_recoverable d0 (tables w') entries /\
    untouched (all_paths entries) (tables w) (tables w') /\
    (errs = [] -> restored d0 (tables w') entries) /\ (calm w -> calm w' /\ errs = []).
Proof.
  revert w r w'. induction entries as [|e entries IH]; intros w r w' [Hpl Hsep] E Hrec; cbn [rollback_entries] in E.
  { injection E as <- <-. exists []. do 2 (split; [done|]). split; [apply untouched_refl|]. split; [by constructor|done]. }
  inversion_clear Hpl as [|? ? He Hes]. inversion_clear Hsep as [|? ? Hse Hss]. inversion_clear Hrec as [|? ? Hre Hrs].
  unfold bind in E. destruct (rollback_entries entries w) as [r1 w1] eqn:E1.
  apply IH in E1 as (errs1 & -> & Hrs1 & Hu1 & Hd1 & Hc1); [|by split|done].
  assert (Hre1 : recoverable (before d0 e) e (tables w1)).
  { eapply recoverable_same; [|exact Hre]. eapply untouched_entry; [exact Hu1|]. by apply separate_all. }
  destruct (rollback_entry e w1) as [r2 w2] eqn:E2.
  apply (rollback_entry_keeps (before d0 e)) in E2 as (errs2 & -> & Hre2 & Hu2 & Hd2 & Hc2); [|done..].
  injection E as <- <-. exists (errs1 ++ errs2). split; [done|].
  assert (Hout : Forall (fun f => forall p q, p ∈ entry_paths f -> q ∈ entry_paths e -> apart (parts p) (parts q) = true) entries).
  { eapply Forall_impl; [exact Hse|]. intros f Hf. by apply separate_sym. }
  split; [constructor; [done|by eapply all_recoverable_other]|]. split.
  - eapply untouched_trans; eapply untouched_incl; [|exact Hu1| |exact Hu2]; cbn [all_paths flat_map]; set_solver.
  - split.
    + intros [-> ->]%app_eq_nil. constructor; [by apply Hd2|]. specialize (Hd1 eq_refl). unfold restored in *.
      rewrite !Forall_forall in *. intros f Hf. rewrite <- Hd1 by done.
      assert (Hs := untouched_entry f _ _ _ Hu2 (Hout f Hf)). eapply Forall_forall in Hs; [exact Hs|apply target_in].
    + intros Hw. destruct (Hc1 Hw) as [Hw1 ->]. destruct (Hc2 Hw1) as [Hw2 ->]. done.
Qed.

(** ** The journal on the disk *)

Section journal.
Context `{!JSON restoreJournal}.
Variable config : Config.
Hypothesis absolute : IsAbs (BackupRoot config) = true.

Abbreviation jpath := (restoreJournalPath config).

Lemma jpath_parts : parts jpath = parts (BackupRoot config) ++ ["restore-journal.json"].
Proof using absolute. by apply parts_PathJoin; [|apply plain_name]. Qed.

Lemma jpath_ne : parts jpath <> [].
Proof using absolute. rewrite jpath_parts. by destruct (parts (BackupRoot config)). Qed.

(** No path of an entry is at, around or below the backup root. *)
Definition outside (entries : list restoreEntry) : Prop :=
  forall p, p ∈ all_paths entries -> apart (parts p) (parts (BackupRoot config)) = true.

Lemma outside_journal entries p : outside entries -> p ∈ all_paths entries -> apart (parts p) (parts jpath) = true.
Proof using absolute. intros Ho Hp. rewrite jpath_parts. by apply apart_below, Ho. Qed.

Lemma journal_untouched entries d d' : outside entries -> untouched (all_paths entries) d d' ->
  at_path jpath d' = at_path jpath d.
Proof using absolute.
  intros Ho Hu. apply Hu. apply Forall_forall. intros p Hp. rewrite apart_sym. by eapply outside_journal.
Qed.

(** A change below the backup root leaves the entries alone. *)
Lemma all_recoverable_root d0 d d' entries : outside entries -> only_at (BackupRoot config) d d' ->
  all_recoverable d0 d entries -> all_recoverable d0 d' entries.
Proof using Type.
  clear absolute. intros Ho Hu Hr. unfold all_recoverable in *. rewrite !Forall_forall in *. intros e He.
  eapply recoverable_same; [|by apply Hr]. apply Forall_forall. intros p Hp. apply Hu, Ho.
  apply list_elem_of_In, in_flat_map. exists e. by rewrite <- !list_elem_of_In.
Qed.

Lemma restored_root d0 d d' entries : outside entries -> only_at (BackupRoot config) d d' ->
  restored d0 d entries -> restored d0 d' entries.
Proof using Type.
  clear absolute. intros Ho Hu Hr. unfold restored in *. rewrite !Forall_forall in *. intros e He. rewrite <- Hr by done.
  apply Hu, Ho. apply list_elem_of_In, in_flat_map. exists e. rewrite <- !list_elem_of_In. split; [done|apply target_in].
Qed.

Definition journal_on (d : node) (j : restoreJournal) : Prop :=
  valid_journal config j = true /\ exists mode, at_path jpath d = Some (FileNode mode (marshal j +:+ line_feed)).

Lemma readRestoreJournal_run w r w' : readRestoreJournal config w = (r, w') ->
  tables w' = tables w /\ (calm w -> calm w') /\
  (forall j, journal_on (tables w) j ->
     (r = Ok (Some j) \/ exists e, r = Fail e) /\ (calm w -> r = Ok (Some j))) /\
  (at_path jpath (tables w) = None -> (r = Ok None \/ exists e, r = Fail e) /\ (calm w -> r = Ok None)).
Proof using Type.
  clear absolute. intros E. unfold readRestoreJournal, bind in E. destruct (attempt _ w) as [r1 w1] eqn:E1.
  apply attempt_run in E1 as (done & E1 & ->). assert (Hw1 : calm w -> calm w1) by (by eapply statement_calm).
  destruct done as [content|err].
  - apply ReadFile_Ok in E1 as [Ht (mode & Hat)].
    assert (w' = w1) as -> by (destruct (unmarshal content) as [j|]; [destruct (valid_journal config j)|]; by injection E as _ <-).
    split; [done|]. split; [done|]. split; [|by rewrite Hat].
    intros j [Hv (mode' & Hat')]. rewrite Hat' in Hat. injection Hat as -> <-.
    unfold line_feed in E. rewrite unmarshal_line, Hv in E. injection E as <-. auto.
  - assert (E1' := E1). apply statement_Fail in E1' as [Ht Hcase].
    assert (w' = w1) as -> by (destruct (is_not_exist err); by injection E as _ <-).
    split; [done|]. split; [done|]. split.
    + intros j [Hv (mode' & Hat')]. rewrite Hat' in Hcase. destruct Hcase as [[s ->]|]; [|done]. injection E as <-.
      split; [right; by eexists|]. intros Hw. apply (statement_calm_Fail _ _ _ _ E1) in Hw. by rewrite Hat' in Hw.
    + intros Hat. split.
      * destruct (is_not_exist err); injection E as <-; [by left|right; by eexists].
      * intros Hw. apply (statement_calm_Fail _ _ _ _ E1) in Hw. rewrite Hat in Hw. injection Hw as <-. by injection E as <-.
Qed.

(** ** Recovery *)

(** Either the journal is there and every entry can be restored, or it is gone
    and every entry is restored. *)
Definition recovering (d0 : node) (j : restoreJournal) (d : node) : Prop :=
  (journal_on d j /\ all_recoverable d0 d (J_Entries j)) \/
  (at_path jpath d = None /\ restored d0 d (J_Entries j)).

Lemma only_jpath d d' : only_at jpath d d' -> only_at (BackupRoot config) d d'.
Proof using absolute. apply only_at_below. eexists. apply jpath_parts. Qed.

Lemma recovery_step d0 j w r w' : well_placed (J_Entries j) -> outside (J_Entries j) ->
  recovering d0 j (tables w) -> RecoverInterruptedRestore config w = (r, w') ->
  recovering d0 j (tables w') /\
  untouched (BackupRoot config :: all_paths (J_Entries j)) (tables w) (tables w') /\
  (calm w -> r = Ok tt /\ calm w' /\ at_path jpath (tables w') = None /\ restored d0 (tables w') (J_Entries j)).
Proof using absolute.
  intros Hpl Hout Hrec E. unfold RecoverInterruptedRestore, bind in E.
  destruct (readRestoreJournal config w) as [r1 w1] eqn:E1. apply readRestoreJournal_run in E1 as (Ht1 & Hc1 & Hon & Hoff).
  assert (Hsame : untouched (BackupRoot config :: all_paths (J_Entries j)) (tables w1) (tables w1)) by apply untouched_refl.
  rewrite <- Ht1. destruct Hrec as [[Hj Hrec]|[Hno Hres]].
  - destruct (Hon j Hj) as [[-> | [e ->]] Hcalm1]; rewrite <- Ht1 in Hj, Hrec;
      [|injection E as _ <-; split; [by left|split; [done|by intros ?%Hcalm1]]].
    destruct (rollbackJournal j w1) as [r2 w2] eqn:E2.
    apply (rollback_entries_keeps d0) in E2 as (errs & -> & Hrec2 & Hu2 & Hd2 & Hc2); [|done..].
    assert (Hu2' : untouched (BackupRoot config :: all_paths (J_Entries j)) (tables w1) (tables w2)).
    { eapply untouched_incl; [|exact Hu2]. intros p Hp. by right. }
    assert (Hj2 : journal_on (tables w2) j).
    { destruct Hj as [Hv (mode & Hat)]. split; [done|]. exists mode. by rewrite (journal_untouched _ _ _ Hout Hu2). }
    destruct errs as [|err errs];
      [|injection E as _ <-; split; [by left|split; [done|]]; by intros Hw; apply Hc1, Hc2 in Hw as [_ ?]].
    specialize (Hd2 eq_refl). cbn [rollback_result] in E. destruct (Remove jpath w2) as [r3 w3] eqn:E3.
    apply Remove_run in E3 as (Ho3 & Hc3 & Hr3); [|apply jpath_ne].
    assert (Hu3 : untouched (BackupRoot config :: all_paths (J_Entries j)) (tables w1) (tables w3)).
    { eapply untouched_trans; [exact Hu2'|]. eapply only_untouched; [by left|by apply only_jpath]. }
    destruct r3 as [u|e].
    + assert (Hdone : at_path jpath (tables w3) = None /\ restored d0 (tables w3) (J_Entries j)).
      { split; [done|]. eapply restored_root; [exact Hout|by apply only_jpath|done]. }
      apply Sync_run in E as [Ht Hc]. rewrite Ht. split; [by right|]. split; [done|]. intros Hw.
      assert (Hw3 : calm w3) by (apply Hc3; by apply Hc2, Hc1). destruct (Hc Hw3) as [? ->]. tauto.
    + injection E as _ <-. destruct Hr3 as (Ht3 & Hnone & Hcalm). rewrite Ht3 in Hu3 |- *. split; [by left|]. split; [done|].
      intros Hw. exfalso. destruct Hj2 as [_ (mode & Hat)]. apply Hc1, Hc2 in Hw as [Hw _].
      destruct (Hcalm Hw) as [Hx|(m & n & Hd)]; [|by rewrite Hat in Hd]. by rewrite Hnone in Hat.
  - destruct (Hoff Hno) as [[-> | [e ->]] Hcalm1]; rewrite <- Ht1 in Hno, Hres; injection E as <- <-;
      (split; [by right|]; split; [done|]); intros Hw; [tauto|]. by apply Hcalm1 in Hw.
Qed.

(** The disk after attempts at a recovery, each under a schedule of its own. *)
Definition recovered_under (schedules : list (list (option string))) (d : node) : node :=
  fold_left (fun d faults => tables (RecoverInterruptedRestore config (World d faults)).2) schedules d.

Lemma recovering_under d0 j schedules d : well_placed (J_Entries j) -> outside (J_Entries j) ->
  recovering d0 j d ->
  recovering d0 j (recovered_under schedules d) /\
  untouched (BackupRoot config :: all_paths (J_Entries j)) d (recovered_under schedules d).
Proof using absolute.
  intros Hpl Hout. revert d. induction schedules as [|f schedules IH]; intros d Hrec; [split; [done|apply untouched_refl]|].
  change (recovered_under (f :: schedules) d)
    with (recovered_under schedules (tables (RecoverInterruptedRestore config (World d f)).2)).
  destruct (RecoverInterruptedRestore config (World d f)) as [r w] eqn:E.
  apply (recovery_step d0 j) in E as (Hrec' & Hu & _); [|done..]. destruct (IH _ Hrec') as [Hr Hu'].
  split; [done|]. by eapply untouched_trans.
Qed.

(** Any attempts, then one without faults. *)
Lemma recovery_completes d0 j schedules d : well_placed (J_Entries j) -> outside (J_Entries j) ->
  recovering d0 j d ->
  exists d', RecoverInterruptedRestore config (World (recovered_under schedules d) []) = (Ok tt, World d' []) /\
    at_path jpath d' = None /\ restored d0 d' (J_Entries j) /\
    untouched (BackupRoot config :: all_paths (J_Entries j)) d d'.
Proof using absolute.
  intros Hpl Hout Hrec. destruct (recovering_under d0 j schedules d Hpl Hout Hrec) as [Hrec' Hu].
  destruct (RecoverInterruptedRestore config (World (recovered_under schedules d) [])) as [r w] eqn:E.
  apply (recovery_step d0 j) in E as (_ & Hu' & Hc); [|done..]. destruct (Hc eq_refl) as (-> & Hw & Hno & Hres).
  exists (tables w). split; [destruct w as [t f]; by rewrite Hw|]. split; [done|]. split; [done|]. by eapply untouched_trans.
Qed.
End journal.

(** ** Installing an entry *)

Definition as_installed (e : restoreEntry) : restoreEntry :=
  mkEntry (E_Target e) (E_Candidate e) (E_Previous e) (E_Kind e) (E_HadOld e) true.

(** What the entry puts in the place of its target. *)
Definition replacement (e : restoreEntry) (d : node) : option node :=
  if String.eqb (E_Candidate e) "" then None else at_path (E_Candidate e) d.

Section install.
Variable old : option node.
Variable e : restoreEntry.
Hypothesis Hplaced : placed e.

(** The first rename. *)
Lemma set_aside_run w r w' : pristine old e (tables w) ->
  set_aside e w = (r, w') ->
  right_kind e (tables w') /\ untouched [E_Target e; E_Previous e] (tables w) (tables w') /\
  match r with
  | Ok _ => at_path (E_Target e) (tables w') = None /\
      (if E_HadOld e then is_Some old /\ at_path (E_Previous e) (tables w') = old else old = None)
  | Fail _ => tables w' = tables w
  end.
Proof using Hplaced.
  intros (Hk & Ht & Hh) E. unfold set_aside in E. destruct Hplaced as (dir & t & p & Htp & Hpp & Hne & _).
  destruct (E_HadOld e) eqn:Eh.
  - apply (Rename_run dir t p) in E as (Hu & _ & Hr); [|done..]. split; [|split; [done|]].
    + destruct r as [u|err]; [|by destruct Hr as [-> _]]. destruct Hr as (_ & Hp & Hn).
      eapply right_kind_step; [exact Hk|]. intros q Hq.
      destruct (String.eqb_spec q (E_Target e)) as [->|Hqt]; [by left|].
      destruct (String.eqb_spec q (E_Previous e)) as [->|Hqp]; [right; exists (E_Target e); split; [apply target_in|done]|].
      right. exists q. split; [done|]. apply Hu.
      assert (q = E_Candidate e /\ E_Candidate e <> "") as [-> Hce].
      { unfold entry_paths in Hq. destruct (String.eqb_spec (E_Candidate e) ""); set_solver. }
      destruct (apart_candidate e Hplaced Hce) as [Ha Hb]. repeat constructor; by rewrite apart_sym.
    + destruct r as [u|err]; [|by destruct Hr]. destruct Hr as (_ & Hp & Hn). rewrite Hp, Ht. tauto.
  - injection E as <- <-. split; [done|]. split; [apply untouched_refl|]. split; [by rewrite Ht|done].
Qed.

Lemma entry_paths_two : [E_Target e; E_Previous e] ⊆ entry_paths e.
Proof using Type. clear Hplaced. assert (H1 := target_in e). assert (H2 := previous_in e). clear -H1 H2. set_solver. Qed.

(** With the target aside, the candidate comes in or the target comes back. *)
Lemma bring_in_run w r w' : E_Candidate e <> "" -> right_kind e (tables w) ->
  at_path (E_Target e) (tables w) = None ->
  (if E_HadOld e then is_Some old /\ at_path (E_Previous e) (tables w) = old else old = None) ->
  bring_in e w = (r, w') ->
  recoverable old e (tables w') /\ untouched (entry_paths e) (tables w) (tables w') /\
  (r = Ok tt -> at_path (E_Target e) (tables w') = at_path (E_Candidate e) (tables w) /\
                at_path (E_Previous e) (tables w') = at_path (E_Previous e) (tables w)).
Proof using Hplaced.
  intros Hce Hk Ht Hh E. assert (Hpl := Hplaced).
  destruct Hpl as (dir & t & p & Htp & Hpp & Hne & [|(c & Hcp & Hct & Hcpp)]); [done|].
  destruct (apart_candidate e Hplaced Hce) as [Htc Hpc]. assert (Htpa := apart_target_previous e Hplaced).
  assert (H1 := target_in e). assert (H2 := previous_in e). assert (H3 := candidate_path e Hce).
  unfold bring_in, bind in E. destruct (attempt _ w) as [r1 w1] eqn:E1. apply attempt_run in E1 as (done & E1 & ->).
  apply (Rename_run dir c t) in E1 as (Hu1 & _ & Hr1); [|done..]. destruct done as [u|err].
  - injection E as <- <-. destruct Hr1 as (_ & Hat & Hcn).
    assert (Hp1 : at_path (E_Previous e) (tables w1) = at_path (E_Previous e) (tables w)).
    { apply Hu1. repeat constructor; [done|by rewrite apart_sym]. }
    split; [split|split; [eapply untouched_incl; [|exact Hu1]; set_solver|done]].
    + eapply right_kind_step; [exact Hk|]. intros q Hq.
      destruct (String.eqb_spec q (E_Target e)) as [->|Hqt]; [right; by exists (E_Candidate e)|].
      destruct (String.eqb_spec q (E_Candidate e)) as [->|Hqp]; [by left|]. right. exists q. split; [done|].
      assert (q = E_Previous e) as ->; [|done].
      unfold entry_paths in Hq. destruct (String.eqb_spec (E_Candidate e) ""); set_solver.
    + rewrite Hp1. destruct (E_HadOld e); [split; [tauto|right; tauto]|]. split; [done|]. by right.
  - destruct Hr1 as [Ht1 _]. rewrite <- Ht1 in Hk, Ht, Hh |- *.
    assert (Hrec1 : recoverable old e (tables w1)).
    { split; [done|]. destruct (E_HadOld e); [split; [tauto|right; tauto]|]. split; [done|by left]. }
    destruct (E_HadOld e) eqn:Eh.
    + destruct (ignoring _ w1) as [r2 w2] eqn:E2. apply ignoring_run in E2 as (-> & done & E2). apply (Rename_run dir p t) in E2 as (Hu2 & _ & Hr2); [|done..].
      injection E as <- <-. assert (Hu2' : untouched (entry_paths e) (tables w1) (tables w2)).
      { eapply untouched_incl; [|exact Hu2]. set_solver. }
      split; [|by split]. destruct done as [u|err']; [|by destruct Hr2 as [-> _]]. destruct Hr2 as (_ & Hat & Hpn).
      split.
      * eapply right_kind_step; [exact Hk|]. intros q Hq.
        destruct (String.eqb_spec q (E_Target e)) as [->|Hqt]; [right; by exists (E_Previous e)|].
        destruct (String.eqb_spec q (E_Previous e)) as [->|Hqp]; [by left|]. right. exists q. split; [done|].
        apply Hu2. assert (q = E_Candidate e) as ->.
        { unfold entry_paths in Hq. destruct (String.eqb_spec (E_Candidate e) ""); set_solver. }
        repeat constructor; by rewrite apart_sym.
      * rewrite Eh. split; [tauto|]. left. split; [done|]. rewrite Hat. tauto.
    + injection E as <- <-. split; [done|]. split; [apply untouched_refl|done].
Qed.

Lemma installRestoreEntry_keeps w r w' : pristine old e (tables w) -> installRestoreEntry e w = (r, w') ->
  recoverable old e (tables w') /\ untouched (entry_paths e) (tables w) (tables w') /\
  (forall e', r = Ok e' -> e' = as_installed e /\ at_path (E_Target e) (tables w') = replacement e (tables w)).
Proof using Hplaced.
  intros Hpr E. unfold installRestoreEntry, bind in E.
  destruct (set_aside e w) as [r1 w1] eqn:E1.
  apply (set_aside_run _ _ _ Hpr) in E1 as (Hk1 & Hu1 & Hr1).
  assert (Hu1' : untouched (entry_paths e) (tables w) (tables w1))
    by (eapply untouched_incl; [apply entry_paths_two|exact Hu1]).
  destruct r1 as [u|err]; [|injection E as <- <-; rewrite Hr1; split; [by apply pristine_recoverable|split; [apply untouched_refl|done]]].
  destruct Hr1 as [Ht1 Hh1]. unfold replacement.
  destruct (String.eqb_spec (E_Candidate e) "") as [Hce|Hce]; cbn [negb] in E.
  - assert (Hrec1 : recoverable old e (tables w1)).
    { split; [done|]. destruct (E_HadOld e); [split; [tauto|right; tauto]|]. split; [done|by left]. }
    destruct (E_HadOld e) eqn:Eh; cbn [negb] in E; [|injection E as <- <-; by split_and!].
    cbn [ret] in E. unfold ret at 1 in E. destruct (Sync _ w1) as [r3 w3] eqn:E3. apply Sync_run in E3 as [Ht3 _].
    destruct r3 as [u3|err]; injection E as <- <-; rewrite Ht3; (split; [done|]; split; [done|]; [..]; try done).
    intros e' [= <-]. split; [unfold as_installed; by rewrite Eh|done].
  - destruct (bring_in e w1) as [r2 w2] eqn:E2.
    apply bring_in_run in E2 as (Hrec2 & Hu2 & Hr2); [|done..].
    assert (Hu : untouched (entry_paths e) (tables w) (tables w2)) by (by eapply untouched_trans).
    destruct r2 as [[]|err]; [|injection E as <- <-; by split_and!].
    destruct (Sync _ w2) as [r3 w3] eqn:E3. apply Sync_run in E3 as [Ht3 _].
    destruct r3 as [u3|err]; injection E as <- <-; rewrite Ht3; (split; [done|]; split; [done|]; [..]; try done).
    intros e' [= <-]. split; [done|]. destruct (Hr2 eq_refl) as [-> _]. apply Hu1.
    destruct (apart_candidate e Hplaced Hce) as [Ha Hb]. repeat constructor; by rewrite apart_sym.
Qed.
End install.

(** ** An entry and what is recorded of it *)

(** Without the flag that an installation sets. *)
Definition static (e : restoreEntry) : restoreEntry :=
  mkEntry (E_Target e) (E_Candidate e) (E_Previous e) (E_Kind e) (E_HadOld e) false.

Definition same_entries (es fs : list restoreEntry) : Prop := map static es = map static fs.

(** A property that does not look at the flag. *)
Lemma same_entries_Forall (P : restoreEntry -> Prop) es fs : (forall e, P (static e) <-> P e) ->
  same_entries es fs -> Forall P es -> Forall P fs.
Proof.
  intros HP Hs H. assert (Hm : Forall P (map static fs)).
  { rewrite <- Hs. rewrite List.Forall_map. eapply Forall_impl; [exact H|]. intros e He. by apply HP. }
  rewrite List.Forall_map in Hm. eapply Forall_impl; [exact Hm|]. intros e He. by apply HP.
Qed.

Lemma placed_static e : placed (static e) <-> placed e.
Proof. by destruct e. Qed.

Lemma entry_paths_static es : all_paths (map static es) = all_paths es.
Proof. unfold all_paths. induction es as [|[] es IH]; [done|]. cbn. by rewrite IH. Qed.

Lemma ForallOrdPairs_static es : ForallOrdPairs separate (map static es) <-> ForallOrdPairs separate es.
Proof.
  induction es as [|e es IH]; [done|]. cbn [map]. split; intros H; inversion_clear H as [|? ? Ha Hb]; constructor;
    try (by apply IH); [rewrite List.Forall_map in Ha|rewrite List.Forall_map]; (eapply Forall_impl; [exact Ha|done]).
Qed.

Lemma well_placed_static es fs : same_entries es fs -> well_placed es -> well_placed fs.
Proof.
  intros Hs [Hp Hsep]. split; [by eapply same_entries_Forall; [apply placed_static|..]|].
  apply ForallOrdPairs_static. rewrite <- Hs. by apply ForallOrdPairs_static.
Qed.

Lemma outside_static config es fs : same_entries es fs -> outside config es -> outside config fs.
Proof. intros Hs Ho p. rewrite <- entry_paths_static, <- Hs, entry_paths_static. apply Ho. Qed.

Lemma all_recoverable_static d0 d es fs : same_entries es fs -> all_recoverable d0 d es -> all_recoverable d0 d fs.
Proof. apply same_entries_Forall. by intros []. Qed.

Lemma restored_static d0 d es fs : same_entries es fs -> restored d0 d es -> restored d0 d fs.
Proof. apply same_entries_Forall. by intros []. Qed.

Lemma same_entries_sym es fs : same_entries es fs -> same_entries fs es.
Proof. by unfold same_entries. Qed.

(** [new] is what a restore puts at each target. *)
Definition awaiting (d0 : node) (new : string -> option node) (d : node) (e : restoreEntry) : Prop :=
  pristine (before d0 e) e d /\ replacement e d = new (E_Target e).

Definition switched (new : string -> option node) (d : node) (es : list restoreEntry) : Prop :=
  Forall (fun e => at_path (E_Target e) d = new (E_Target e)) es.

Lemma awaiting_same d0 new e d d' : Forall (fun p => at_path p d' = at_path p d) (entry_paths e) ->
  awaiting d0 new d e -> awaiting d0 new d' e.
Proof.
  intros Hs [(Hk & Ht & Hh) Hn]. assert (Hst := proj1 (Forall_forall _ _) Hs _ (target_in e)).
  assert (Hsp := proj1 (Forall_forall _ _) Hs _ (previous_in e)). cbv beta in Hst, Hsp.
  split; [split; [|by rewrite Hst, Hsp]|].
  - eapply right_kind_step; [exact Hk|]. intros q Hq. right. exists q. split; [done|].
    by eapply (proj1 (Forall_forall _ _) Hs).
  - rewrite <- Hn. unfold replacement. destruct (String.eqb_spec (E_Candidate e) "") as [|Hce]; [done|].
    apply (proj1 (Forall_forall _ _) Hs). by apply candidate_path.
Qed.

Section install_all.
Context `{!JSON restoreJournal}.
Variable config : Config.
Hypothesis absolute : IsAbs (BackupRoot config) = true.
Variable d0 : node.
Variable new : string -> option node.
Variable id : string.
Variable now : time.
Variable entries : list restoreEntry.
Hypothesis Hplaced : well_placed entries.
Hypothesis Houtside : outside config entries.

Abbreviation jpath := (restoreJournalPath config).
Abbreviation journal_of := (mkJournal restoreJournalSchema id now).
Hypothesis Hvalid : valid_journal config (journal_of entries) = true.

(** A journal of these entries is on the disk. *)
Definition journal_for (d : node) : Prop :=
  exists j, journal_on config d j /\ same_entries (J_Entries j) entries.

Lemma valid_static fs : same_entries fs entries -> valid_journal config (journal_of fs) = true.
Proof using Hvalid.
  intros Hs. rewrite <- Hvalid. unfold valid_journal. cbn [J_SchemaVersion J_BackupID J_CreatedAt J_Entries].
  assert (Hl : List.length fs = List.length entries) by (by rewrite <- (length_map static), Hs, length_map).
  rewrite Hl. f_equal. clear -Hs. unfold same_entries in Hs. revert fs Hs.
  assert (Hm : forall es, forallb (validRestoreEntry config) es = forallb (validRestoreEntry config) (map static es)).
  { induction es as [|[] es IH]; [done|]. cbn [map forallb]. by rewrite IH. }
  intros fs Hs. by rewrite Hm, Hs, <- Hm.
Qed.

Lemma journal_for_root d d' : at_path jpath d' = at_path jpath d -> journal_for d -> journal_for d'.
Proof using Type. intros He (j & [Hv (mode & Hat)] & Hs). exists j. split; [|done]. split; [done|]. exists mode. by rewrite He. Qed.

Lemma writeRestoreJournal_run token fs w r w' : free_of slash token -> same_entries fs entries ->
  writeRestoreJournal config token (journal_of fs) w = (r, w') ->
  only_at (BackupRoot config) (tables w) (tables w') /\
  (at_path jpath (tables w') = at_path jpath (tables w) \/ journal_for (tables w')) /\
  (r = Ok tt -> journal_for (tables w')).
Proof using absolute Hvalid.
  intros Ht Hs E. apply atomicWriteFile_run in E as (Ho & Hg & Hr); [|done|repeat split; done|done].
  assert (Hon : at_path jpath (tables w') = Some (FileNode 384 (marshal (journal_of fs) +:+ line_feed)) ->
    journal_for (tables w')).
  { intros Hat. exists (journal_of fs). split; [|done]. split; [by apply valid_static|by exists 384]. }
  split; [done|]. split; [destruct Hg as [Hg|Hg]; [by left|right; by apply Hon]|]. intros Hok. by apply Hon, Hr.
Qed.

(** How a restore ends that returns an error: every target as before and no
    journal, or the journal with every entry recoverable. Only a rollback that
    itself met an error leaves neither, because the journal is removed then. *)
Definition failed_safely (d : node) (e : error) : Prop :=
  (exists j, same_entries (J_Entries j) entries /\ recovering config d0 j d) \/
  (at_path jpath d = None /\ exists err x xs, e = errors_Join err (x :: xs)).

Lemma journal_for_recovering d : journal_for d -> all_recoverable d0 d entries ->
  exists j, same_entries (J_Entries j) entries /\ recovering config d0 j d.
Proof using Type.
  clear. intros (j & Hj & Hs) Hr. exists j. split; [done|]. left. split; [done|].
  eapply all_recoverable_static; [|exact Hr]. by apply same_entries_sym.
Qed.

Lemma abandon_run {A} fs err w (r : result A) w' : same_entries fs entries ->
  all_recoverable d0 (tables w) entries -> journal_for (tables w) ->
  abandon config (journal_of fs) err w = (r, w') ->
  exists e, r = Fail e /\ failed_safely (tables w') e.
Proof using absolute Hplaced Houtside.
  intros Hs Hrec Hj E. unfold abandon, bind in E.
  destruct (rollbackJournal _ w) as [r1 w1] eqn:E1. unfold rollbackJournal in E1. cbn [J_Entries] in E1.
  assert (Hs' := same_entries_sym _ _ Hs).
  apply (rollback_entries_keeps d0) in E1 as (errs & -> & Hrec1 & Hu1 & Hd1 & _);
    [|by eapply well_placed_static|by eapply all_recoverable_static].
  assert (Hj1 : at_path jpath (tables w1) = at_path jpath (tables w)).
  { eapply journal_untouched; [done|by eapply outside_static|exact Hu1]. }
  destruct (ignoring _ w1) as [r2 w2] eqn:E2. apply ignoring_run in E2 as (-> & done & E2).
  apply Remove_run in E2 as (Ho2 & _ & Hr2); [|by apply jpath_ne]. injection E as <- <-.
  assert (Hob : only_at (BackupRoot config) (tables w1) (tables w2)) by (by apply only_jpath).
  eexists. split; [reflexivity|].
  assert (Hrec2 : all_recoverable d0 (tables w2) entries).
  { eapply all_recoverable_root; [exact Houtside|exact Hob|]. by eapply all_recoverable_static. }
  destruct done as [u|e2].
  - destruct errs as [|x xs]; [left|right; split; [done|by exists err, x, xs]].
    exists (journal_of fs). split; [done|]. right. split; [done|].
    eapply restored_root; [by eapply outside_static|exact Hob|by apply Hd1].
  - destruct Hr2 as [Ht2 _]. left. apply journal_for_recovering; [|done]. eapply journal_for_root; [|exact Hj].
    by rewrite Ht2, Hj1.
Qed.

Lemma ForallOrdPairs_mid l e k : ForallOrdPairs separate (l ++ e :: k) ->
  Forall (separate e) k /\ Forall (separate e) l.
Proof using Type.
  clear. induction l as [|f l IH]; cbn [app]; intros H; inversion_clear H as [|? ? Ha Hb]; [by split|].
  destruct (IH Hb) as [H1 H2]. split; [done|]. constructor; [|done]. apply separate_sym.
  apply Forall_app in Ha as [_ Ha]. by apply Forall_inv in Ha.
Qed.

(** What one entry or the journal changes, none of the other entries sees. *)
Lemma frame (P : node -> restoreEntry -> Prop) fs d d' :
  (forall e, Forall (fun p => at_path p d' = at_path p d) (entry_paths e) -> P d e -> P d' e) ->
  (forall f p, In f fs -> p ∈ entry_paths f -> at_path p d' = at_path p d) ->
  Forall (P d) fs -> Forall (P d') fs.
Proof using Type.
  clear. intros HP Hs H. rewrite Forall_forall in *. intros f Hf. apply HP; [|by apply H].
  apply Forall_forall. intros p Hp. apply (Hs f); [by apply list_elem_of_In|done].
Qed.

Lemma entry_frame e fs d d' : untouched (entry_paths e) d d' -> Forall (separate e) fs ->
  forall f p, In f fs -> p ∈ entry_paths f -> at_path p d' = at_path p d.
Proof using Type.
  clear. intros Hu Hs f p Hf Hp. apply Hu. apply Forall_forall. intros q Hq. rewrite apart_sym.
  rewrite Forall_forall in Hs. exact (Hs f (proj2 (list_elem_of_In _ _) Hf) q p Hq Hp).
Qed.

Lemma root_frame fs d d' : outside config fs -> only_at (BackupRoot config) d d' ->
  forall f p, In f fs -> p ∈ entry_paths f -> at_path p d' = at_path p d.
Proof using Type.
  clear. intros Ho Hu f p Hf Hp. apply Hu, Ho. apply list_elem_of_In, in_flat_map. exists f.
  split; [done|by apply list_elem_of_In].
Qed.

Lemma switched_same e d d' : Forall (fun p => at_path p d' = at_path p d) (entry_paths e) ->
  at_path (E_Target e) d = new (E_Target e) -> at_path (E_Target e) d' = new (E_Target e).
Proof using Type. clear. intros Hs <-. exact (proj1 (Forall_forall _ _) Hs _ (target_in e)). Qed.

Lemma awaiting_recoverable d fs : Forall (awaiting d0 new d) fs -> all_recoverable d0 d fs.
Proof using Type. clear. intros H. eapply Forall_impl; [exact H|]. intros e [He _]. by apply pristine_recoverable. Qed.

(** The state between two rounds of the loop. *)
Definition between (d : node) (done todo : list restoreEntry) : Prop :=
  same_entries (done ++ todo) entries /\ all_recoverable d0 d done /\ switched new d done /\
  Forall (awaiting d0 new d) todo /\ journal_for d.

Lemma between_recoverable d done todo : between d done todo -> all_recoverable d0 d entries.
Proof using Type.
  clear -new. intros (Hs & Hd & _ & Ht & _). eapply all_recoverable_static; [exact Hs|].
  apply Forall_app. split; [done|by apply awaiting_recoverable].
Qed.

Lemma between_root d d' done todo : only_at (BackupRoot config) d d' -> journal_for d' ->
  between d done todo -> between d' done todo.
Proof using Houtside.
  intros Hu Hj (Hs & Hd & Hw & Ht & _). assert (Ho := outside_static config _ _ (same_entries_sym _ _ Hs) Houtside).
  assert (Hf := root_frame _ _ _ Ho Hu). split; [done|].
  split; [|split; [|split; [|done]]].
  - eapply (frame (fun d e => recoverable (before d0 e) e d)); [intros e; apply recoverable_same| |exact Hd].
    intros f p Hin. apply Hf. apply in_app_iff. by left.
  - eapply (frame (fun d e => at_path (E_Target e) d = new (E_Target e))); [intros e; apply switched_same| |exact Hw].
    intros f p Hin. apply Hf. apply in_app_iff. by left.
  - eapply frame; [intros e; apply awaiting_same| |exact Ht]. intros f p Hin. apply Hf. apply in_app_iff. by right.
Qed.

(** One more entry. *)
Lemma install_between done e todo w r w' : between (tables w) done (e :: todo) ->
  installRestoreEntry e w = (r, w') ->
  all_recoverable d0 (tables w') entries /\ journal_for (tables w') /\
  (forall e', r = Ok e' -> between (tables w') (done ++ [e']) todo /\ same_entries (done ++ e' :: todo) entries).
Proof using absolute Hplaced Houtside.
  intros (Hs & Hd & Hw & Ht & Hj) E. assert (Hsym := same_entries_sym _ _ Hs).
  destruct (well_placed_static _ _ Hsym Hplaced) as [Hpl Hsep]. assert (Ho := outside_static config _ _ Hsym Houtside).
  apply ForallOrdPairs_mid in Hsep as [Hst Hsd]. apply Forall_app in Hpl as [_ Hpl]. apply Forall_inv in Hpl.
  inversion_clear Ht as [|? ? [Hpr Hrep] Hrest].
  apply (installRestoreEntry_keeps (before d0 e) e Hpl) in E as (Hrec & Hu & Hok); [|done].
  assert (Hj' : journal_for (tables w')).
  { eapply journal_for_root; [|exact Hj]. eapply journal_untouched; [done|exact Ho|]. eapply untouched_incl; [|exact Hu].
    intros p Hp. apply list_elem_of_In, in_flat_map. exists e. split; [|by apply list_elem_of_In].
    apply in_app_iff. right. by left. }
  assert (Hd' : all_recoverable d0 (tables w') done).
  { eapply (frame (fun d e => recoverable (before d0 e) e d)); [intros f; apply recoverable_same| |exact Hd].
    by eapply entry_frame. }
  assert (Hw' : switched new (tables w') done).
  { eapply (frame (fun d e => at_path (E_Target e) d = new (E_Target e))); [intros f; apply switched_same| |exact Hw].
    by eapply entry_frame. }
  assert (Ht' : Forall (awaiting d0 new (tables w')) todo).
  { eapply frame; [intros f; apply awaiting_same| |exact Hrest]. by eapply entry_frame. }
  split; [|split; [done|]].
  - eapply all_recoverable_static; [exact Hs|]. apply Forall_app. split; [done|]. constructor; [done|by apply awaiting_recoverable].
  - intros e' [-> Hat]%Hok. assert (Hse : same_entries (done ++ as_installed e :: todo) entries).
    { unfold same_entries. rewrite <- Hs, !map_app. by destruct e. }
    split; [|done]. split_and!; try done.
    + by rewrite <- app_assoc.
    + apply Forall_app. split; [done|]. constructor; [|done]. by destruct e.
    + apply Forall_app. split; [done|]. constructor; [|done].
      change (at_path (E_Target e) (tables w') = new (E_Target e)). by rewrite Hat.
Qed.

Lemma install_entries_run token todo done w r w' : (forall n, free_of slash (token n)) ->
  between (tables w) done todo ->
  install_entries config token journal_of done todo w = (r, w') ->
  match r with
  | Ok es => between (tables w') es []
  | Fail e => failed_safely (tables w') e
  end.
Proof using absolute Hplaced Houtside Hvalid.
  intros Htok. revert done w. induction todo as [|e todo IH]; intros done w Hb E; cbn [install_entries] in E.
  { injection E as <- <-. done. }
  unfold bind in E. destruct (attempt ctx_Err w) as [r1 w1] eqn:E1. apply attempt_run in E1 as (alive & E1 & ->).
  assert (Ht1 : tables w1 = tables w).
  { destruct alive; [by apply statement_Ok in E1; injection E1|by apply statement_Fail in E1 as [-> _]]. }
  rewrite <- Ht1 in Hb. assert (Hrec := between_recoverable _ _ _ Hb).
  destruct alive as [u|err]; [|apply abandon_run in E as (x & -> & Hx); [done|apply Hb|done|apply Hb]].
  destruct (attempt _ w1) as [r2 w2] eqn:E2. apply attempt_run in E2 as (inst & E2 & ->).
  assert (Hb' := install_between _ _ _ _ _ _ Hb E2). destruct Hb' as (Hrec2 & Hj2 & Hok2).
  destruct inst as [e'|err]; [|apply abandon_run in E as (x & -> & Hx); [done|apply Hb|done|done]].
  destruct (Hok2 e' eq_refl) as [Hb2 Hs2].
  destruct (attempt _ w2) as [r3 w3] eqn:E3. apply attempt_run in E3 as (written & E3 & ->).
  apply writeRestoreJournal_run in E3 as (Ho3 & Hg3 & Hr3); [|done|done].
  assert (Hj3 : journal_for (tables w3)) by (destruct Hg3 as [Hg3|]; [by eapply journal_for_root|done]).
  destruct written as [u3|err].
  - eapply IH; [|exact E]. by eapply between_root.
  - apply abandon_run in E as (x & -> & Hx); [done|done| |done].
    by eapply all_recoverable_root.
Qed.
End install_all.
