(* ===== verification/RestoreRun.v ===== *)
(** The whole of [RestoreOffline], [Commit] and the recovery at the next start:
    from the disk before a restore, through every failure, back to it.

    The targets are fixed by the configuration. While the entries are prepared
    no target and no path for the previous content changes; from the journal on
    the invariant of [RestoreSafety] carries every target. *)

From stdpp Require Import gmap strings sorting options.
From S2P Require Import Prelude GoStrings GoText GoCrypto GoTime GoPath Store GoFiles Credential BackupCrypt PanelBackup.
From S2P Require Import PanelRestore RestoreSafety Lines.
#[local] Open Scope Z_scope.

(** ** A target and what a restore puts beside it *)

Definition clean_target (target : string) : bool :=
  IsAbs target && String.eqb (Clean target) target && negb (String.eqb target "/").

Lemma valid_id_free op : valid_id op = true -> free_of slash op.
Proof.
  unfold valid_id, free_of. intros [_ H]%andb_true_iff. eapply sforall_impl; [|exact H]. intros c Hc. cbv beta in Hc.
  destruct (Ascii.eqb_spec c slash) as [->|]; [by vm_compute in Hc|done].
Qed.

Lemma valid_id_hex l : Forall is_byte l -> List.length l = 16%nat -> valid_id (hex_encode l) = true.
Proof.
  intros Hb Hl. unfold valid_id. rewrite hex_encode_digits by done. rewrite andb_true_r. apply Z.eqb_eq. unfold len.
  rewrite length_hex_encode, Hl. done.
Qed.

Section beside.
Variable target op : string.
Hypothesis Hclean : clean_target target = true.
Hypothesis Hop : valid_id op = true.

Lemma target_abs : IsAbs target = true /\ Clean target = target /\ parts target <> [].
Proof using Hclean.
  unfold clean_target in Hclean. rewrite !andb_true_iff in Hclean. destruct Hclean as [[Ha Hc%String.eqb_eq] Hr%negb_true_iff].
  split; [done|]. split; [done|]. intros Hp. apply String.eqb_neq in Hr. apply Hr.
  rewrite <- Hc, Clean_abs, Hp by done. done.
Qed.

Lemma target_shape : exists dir t, Forall plain_part dir /\ plain_part t /\ target = path_of true (dir ++ [t]) /\
  parts target = dir ++ [t].
Proof using Hclean.
  destruct target_abs as (Ha & Hc & Hn). assert (Hp := parts_plain target Ha).
  destruct (exists_last Hn) as (dir & t & E). exists dir, t. rewrite E in Hp. apply Forall_app in Hp as [Hd Ht].
  rewrite Forall_singleton in Ht. split_and!; try done. by rewrite <- E, <- Clean_abs, Hc.
Qed.

(** A suffix with the identifier of the operation. *)
Lemma suffixed marker : free_of slash marker -> 2 <= len marker -> exists dir t,
  parts target = dir ++ [t] /\ parts (target +:+ marker +:+ op) = dir ++ [t +:+ marker +:+ op] /\
  Clean (target +:+ marker +:+ op) = target +:+ marker +:+ op /\ t <> t +:+ marker +:+ op.
Proof using Hclean Hop.
  intros Hm Hl. destruct target_shape as (dir & t & Hd & Ht & E & Hp). exists dir, t. split; [done|].
  assert (Hlo := len_nonneg op). assert (Hlt := len_nonneg t).
  assert (Hpl : Forall plain_part (dir ++ [t +:+ marker +:+ op])).
  { apply Forall_app. split; [done|]. constructor; [|done]. apply plain_suffix; [done| |rewrite len_app; lia].
    apply free_of_app; [done|by apply valid_id_free]. }
  rewrite E, path_of_suffix, parts_path_of, Clean_path_of by done. split_and!; try done.
  intros Hx. apply (f_equal len) in Hx. rewrite !len_app in Hx. lia.
Qed.

Lemma candidate_previous_ne : forall t, t +:+ ".one-restore-new-" +:+ op <> t +:+ ".one-restore-old-" +:+ op.
Proof using Type. clear. intros t. induction t as [|c t IH]; [done|]. intros [= E]. by apply IH. Qed.

Lemma placed_full kind b : placed (mkEntry target (candidate_of target op) (previous_of target op) kind b false).
Proof using Hclean Hop.
  destruct (suffixed ".one-restore-new-") as (dir & t & Ht & Hc & _ & Hne); [done|by vm_compute|].
  destruct (suffixed ".one-restore-old-") as (dir' & t' & Ht' & Hp & _ & Hne'); [done|by vm_compute|].
  rewrite Ht in Ht'. apply app_inj_tail in Ht' as [<- <-].
  exists dir, t, (t +:+ ".one-restore-old-" +:+ op). split_and!; try done. right.
  exists (t +:+ ".one-restore-new-" +:+ op). split_and!; try done. apply candidate_previous_ne.
Qed.

Lemma placed_sidecar kind b : placed (mkEntry target "" (previous_of target op) kind b false).
Proof using Hclean Hop.
  destruct (suffixed ".one-restore-old-") as (dir & t & Ht & Hp & _ & Hne); [done|by vm_compute|].
  exists dir, t, (t +:+ ".one-restore-old-" +:+ op). split_and!; try done. by left.
Qed.

Lemma sibling_valid marker : free_of slash marker -> 2 <= len marker ->
  validRestoreSibling target (target +:+ marker +:+ op) marker = true.
Proof using Hclean Hop.
  intros Hm Hl. destruct (suffixed marker Hm Hl) as (_ & _ & _ & _ & Hc & _). destruct target_abs as (_ & Ht & _).
  unfold validRestoreSibling. rewrite Ht, Hc. replace (target +:+ marker +:+ op) with ((target +:+ marker) +:+ op) by apply sapp_assoc.
  by rewrite HasPrefix_app, TrimPrefix_app.
Qed.

(** ** What the preparation of an entry touches *)

(** The candidate, and directories on the way to the target. *)
Definition beside (d d' : node) : Prop :=
  forall q, apart (parts q) (parts (candidate_of target op)) = true ->
    starts_with (parts (Dir target)) (parts q) = false -> at_path q d' = at_path q d.

Lemma beside_refl d : beside d d.
Proof using Type. by intros q _ _. Qed.

Lemma beside_trans d1 d2 d3 : beside d1 d2 -> beside d2 d3 -> beside d1 d3.
Proof using Type. intros H1 H2 q Hq Hs. by rewrite H2, H1. Qed.
End beside.

(** ** Files and directories beside the target *)

Section prepare_entry.
Variable target op : string.
Hypothesis Hclean : clean_target target = true.
Hypothesis Hop : valid_id op = true.
Abbreviation C := (candidate_of target op).

Lemma only_beside d d' : only_at C d d' -> beside target op d d'.
Proof using Type. intros Ho q Hq _. by apply Ho. Qed.

Lemma same_beside d d' : d' = d -> beside target op d d'.
Proof using Type. intros ->. apply beside_refl. Qed.

Lemma MkdirAll_beside mode w r w' : MkdirAll (Dir target) mode w = (r, w') -> beside target op (tables w) (tables w').
Proof using Type. intros E q _ Hs. eapply MkdirAll_other; [exact E|done]. Qed.

Lemma removing_run {A} path (m : M node A) w r w' : parts path <> [] -> removing path m w = (r, w') ->
  exists r1 w1, m w = (r1, w1) /\ only_at path (tables w1) (tables w') /\
    (forall a, r = Ok a -> r1 = Ok a /\ w' = w1).
Proof using Type.
  clear. intros Hp E. unfold removing, bind in E. destruct (attempt m w) as [r1 w1] eqn:E1.
  apply attempt_run in E1 as (done & E1 & ->). exists done, w1. split; [done|]. destruct done as [a|err].
  - injection E as <- <-. split; [apply only_at_refl|]. by intros b [= <-].
  - destruct (ignoring _ w1) as [r2 w2] eqn:E2. apply ignoring_run in E2 as (-> & done & E2).
    apply Remove_run in E2 as (Ho & _); [|done]. by injection E as <- <-.
Qed.

Lemma copyRegularFile_run source path mode w r w' : parts path <> [] -> copyRegularFile source path mode w = (r, w') ->
  only_at path (tables w) (tables w') /\
  (r = Ok tt -> exists m s, at_path source (tables w) = Some (FileNode m s) /\
     at_path path (tables w') = Some (FileNode mode s)).
Proof using Type.
  clear. intros Hp E. unfold copyRegularFile, bind in E. destruct (ReadFile source w) as [r1 w1] eqn:E1.
  destruct r1 as [content|err]; [|injection E as <- <-; apply statement_Fail in E1 as [-> _]; split; [apply only_at_refl|done]].
  apply ReadFile_Ok in E1 as [Ht1 (m & Hs)].
  destruct (CreateExcl path mode w1) as [r2 w2] eqn:E2. assert (Ho2 := E2). unfold CreateExcl in Ho2. apply change_only in Ho2.
  rewrite Ht1 in Ho2. destruct r2 as [u2|err]; [|by injection E as <- <-]. apply CreateExcl_Ok in E2 as (_ & Hnew & _).
  destruct (removing path _ w2) as [r3 w3] eqn:E3. apply removing_run in E3 as (r4 & w4 & E4 & Ho3 & Hok); [|done].
  unfold bind in E4. destruct (Append path content w2) as [r5 w5] eqn:E5. assert (Ho5 := E5). unfold Append in Ho5.
  apply change_only in Ho5.
  assert (H4 : only_at path (tables w2) (tables w4) /\
    (r4 = Ok tt -> at_path path (tables w4) = Some (FileNode mode content))).
  { destruct r5 as [u5|err]; [|injection E4 as <- <-; by split].
    apply Append_Ok in E5 as (m5 & b & Hb & Ha & _). rewrite Hnew in Hb. injection Hb as <- <-.
    apply Sync_run in E4 as [-> _]. by split. }
  destruct H4 as [Ho4 Hat4].
  assert (Ho : only_at path (tables w) (tables w3)).
  { eapply only_at_trans; [exact Ho2|]. by eapply only_at_trans. }
  destruct r3 as [u3|err]; [|injection E as <- <-; by split].
  destruct (Hok u3 eq_refl) as [-> ->]. destruct u3. apply Sync_run in E as [-> _]. split; [done|]. intros _.
  exists m, content. split; [done|by apply Hat4].
Qed.

Lemma had_old_run good message discard path w r w' : confined path discard ->
  had_old target good message discard w = (r, w') ->
  only_at path (tables w) (tables w') /\
  (forall b, r = Ok b -> tables w' = tables w /\
     match at_path target (tables w) with Some n => b = true /\ good n = true | None => b = false end).
Proof using Type.
  clear. intros Hd E. unfold had_old, bind in E. destruct (attempt _ w) as [r1 w1] eqn:E1.
  apply attempt_run in E1 as (done & E1 & ->). apply Lstat_run in E1 as (Ht1 & _ & Hr1).
  assert (Hdis : forall e, (let (r, w') := ignoring discard w1 in
      match r with Ok _ => fail (A := bool) e w' | Fail e => (Fail e, w') end) = (r, w') ->
      only_at path (tables w) (tables w') /\ exists e, r = Fail e).
  { intros e E'. destruct (ignoring discard w1) as [r2 w2] eqn:E2.
    assert (Hi := confined_ignoring path _ Hd _ _ _ E2). rewrite Ht1 in Hi.
    apply ignoring_run in E2 as (-> & _). injection E' as <- <-. split; [done|by eexists]. }
  destruct done as [info|err].
  - destruct (good info) eqn:Eg.
    + injection E as <- <-. rewrite Ht1. split; [apply only_at_refl|]. intros b [= <-]. by rewrite Hr1.
    + apply Hdis in E as [Ho [e ->]]. by split.
  - destruct Hr1 as [Hx _]. destruct (is_not_exist err).
    + injection E as <- <-. rewrite Ht1. split; [apply only_at_refl|]. intros b [= <-]. by rewrite Hx.
    + apply Hdis in E as [Ho [e ->]]. by split.
Qed.

Lemma candidate_ne_root : parts C <> [].
Proof using Hclean Hop.
  destruct (suffixed target op Hclean Hop ".one-restore-new-") as (dir & t & _ & Hc & _); [done|by vm_compute|].
  unfold candidate_of. rewrite Hc. by destruct dir.
Qed.

(** The entry of a file, or an error; the target stays, the candidate may be left. *)
Lemma prepareFileEntry_run source kind mode w r w' : prepareFileEntry source target op kind mode w = (r, w') ->
  beside target op (tables w) (tables w') /\
  (forall e, r = Ok e -> exists b, e = mkEntry target C (previous_of target op) kind b false /\
     (exists m s d, at_path C (tables w') = Some (FileNode mode s) /\
        beside target op (tables w) d /\ at_path source d = Some (FileNode m s)) /\
     match at_path target (tables w') with Some n => b = true /\ IsRegular n = true | None => b = false end).
Proof using Hclean Hop.
  intros E. unfold prepareFileEntry in E. destruct (_ || _); [injection E as <- <-; split; [apply beside_refl|done]|].
  unfold bind in E. destruct (MkdirAll _ _ w) as [r1 w1] eqn:E1. assert (Hb1 := MkdirAll_beside _ _ _ _ E1).
  destruct r1 as [u1|err]; [|injection E as <- <-; by split].
  destruct (attempt _ w1) as [r2 w2] eqn:E2. apply attempt_run in E2 as (found & E2 & ->). apply Lstat_run in E2 as (Ht2 & _ & _).
  destruct found as [n|err]; [injection E as <- <-; rewrite Ht2; by split|].
  destruct (negb _); [injection E as <- <-; rewrite Ht2; by split|].
  destruct (copyRegularFile _ _ _ w2) as [r3 w3] eqn:E3. apply copyRegularFile_run in E3 as [Ho3 Hr3]; [|apply candidate_ne_root].
  rewrite Ht2 in Ho3, Hr3. assert (Hb3 : beside target op (tables w) (tables w3)).
  { eapply beside_trans; [exact Hb1|by apply only_beside]. }
  destruct r3 as [[]|err3]; [|injection E as <- <-; by split]. destruct (Hr3 eq_refl) as (m & s & Hs & Hat).
  destruct (had_old _ _ _ _ w3) as [r4 w4] eqn:E4. apply (had_old_run _ _ _ C) in E4 as [Ho4 Hr4];
    [|unfold Remove; apply confined_change].
  assert (Hb4 : beside target op (tables w) (tables w4)) by (eapply beside_trans; [exact Hb3|by apply only_beside]).
  destruct r4 as [b|err4]; [|injection E as <- <-; by split]. injection E as <- <-. split; [done|].
  intros e [= <-]. exists b. split; [done|]. destruct (Hr4 b eq_refl) as [Ht4 Hm]. rewrite Ht4. split; [|done].
  by exists m, s, (tables w1).
Qed.
End prepare_entry.

(** ** The tree of the certificates *)

Definition plain_path (relative : string) : Prop := Forall plain_part (Split relative slash).

Lemma walk_plain fuel relative n found : relative = "" \/ plain_path relative ->
  In found (walk fuel relative n) -> plain_path found.1.
Proof.
  revert relative n. induction fuel as [|fuel IH]; intros relative n Hr Hin; [by destruct n|].
  destruct n as [|mode entries|]; [done| |done]. cbn [walk] in Hin. apply in_flat_map in Hin as (name & Hn & Hin).
  apply List.filter_In in Hn as [_ Hn%proper_name_part]. destruct (entries !! name) as [child|]; [|done].
  assert (Hp : plain_path (if String.eqb relative "" then name else relative +:+ "/" +:+ name)).
  { destruct (String.eqb_spec relative "") as [|Hne]; unfold plain_path; [rewrite Split_free by apply Hn; by constructor|].
    destruct Hr as [|Hr]; [done|]. rewrite Split_slash_app, (Split_free name) by apply Hn. apply Forall_app. split; [done|by constructor]. }
  destruct Hin as [<-|Hin]; [done|]. eapply IH; [|exact Hin]. by right.
Qed.

Section copy_directory.
Variable source destination : string.
Hypothesis absolute : IsAbs destination = true.

Lemma confined_copyRegularFile from path mode : parts path <> [] -> confined path (copyRegularFile from path mode).
Proof using Type. intros Hp w r w' E. by eapply copyRegularFile_run. Qed.

Lemma confined_copy_entry found : plain_path found.1 -> confined destination (copy_entry source destination found).
Proof using absolute.
  destruct found as [relative n]. cbn [fst]. intros Hp. cbn [copy_entry]. destruct (_ || _); [auto with files|].
  assert (Hb := below_join _ _ absolute Hp).
  assert (Hparts : parts (PathJoin [destination; relative]) = parts destination ++ Split relative slash) by (by apply parts_PathJoin).
  assert (Hne : parts (PathJoin [destination; relative]) <> []).
  { rewrite Hparts. destruct (Split_cons relative slash) as (h & t & ->). by destruct (parts destination). }
  destruct n as [mode content|mode entries|]; [|eapply confined_below; [exact Hb|apply confined_change]|auto with files].
  apply confined_bind; [|intros _; eapply confined_below; [exact Hb|by apply confined_copyRegularFile]].
  apply confined_MkdirAll. exists (removelast (Split relative slash)).
  rewrite parts_Dir; [|by apply IsAbs_PathJoin|by apply Clean_PathJoin|done]. rewrite Hparts. apply removelast_app.
  destruct (Split_cons relative slash) as (h & t & ->). done.
Qed.

Lemma confined_copy_entries found : Forall (fun f => plain_path f.1) found ->
  confined destination (copy_entries source destination found).
Proof using absolute.
  induction 1 as [|f found Hf _ IH]; [apply confined_ret|]. apply confined_bind; [by apply confined_copy_entry|done].
Qed.

Lemma confined_copyDirectory : confined destination (copyDirectory source destination).
Proof using absolute.
  apply confined_bind; [apply confined_change|intros _; cbv beta]. apply confined_bind; [|auto with files].
  apply confined_bind; [apply confined_attempt|].
  - apply confined_bind; [auto with files|]. intros n. apply confined_copy_entries. apply Forall_forall.
    intros f Hf. apply list_elem_of_In in Hf. eapply walk_plain; [|exact Hf]. by left.
  - intros []; [auto with files|]. apply confined_bind; auto with files.
Qed.
End copy_directory.

Section prepare_directory.
Variable target op : string.
Hypothesis Hclean : clean_target target = true.
Hypothesis Hop : valid_id op = true.
Abbreviation C := (candidate_of target op).

Lemma candidate_abs : IsAbs C = true.
Proof using Hclean.
  destruct (target_abs target Hclean) as (Ha & _ & _). apply IsAbs_cons in Ha as [s Hs]. unfold candidate_of.
  rewrite Hs, sapp_assoc. apply IsAbs_slash.
Qed.

Lemma prepareDirectoryEntry_run source kind w r w' : prepareDirectoryEntry source target op kind w = (r, w') ->
  beside target op (tables w) (tables w') /\
  (forall e, r = Ok e -> exists b, e = mkEntry target C (previous_of target op) kind b false /\
     match at_path target (tables w') with Some n => b = true /\ IsDir n = true | None => b = false end).
Proof using Hclean Hop.
  intros E. unfold prepareDirectoryEntry in E. destruct (_ || _); [injection E as <- <-; split; [apply beside_refl|done]|].
  unfold bind in E. destruct (MkdirAll _ _ w) as [r1 w1] eqn:E1. assert (Hb1 := MkdirAll_beside target op _ _ _ _ E1).
  destruct r1 as [u1|err]; [|injection E as <- <-; by split].
  destruct (copyDirectory _ _ w1) as [r2 w2] eqn:E2. assert (Ho2 := confined_copyDirectory _ _ candidate_abs _ _ _ E2).
  assert (Hb2 : beside target op (tables w) (tables w2)) by (eapply beside_trans; [exact Hb1|by apply only_beside]).
  destruct r2 as [[]|err]; [|injection E as <- <-; by split].
  destruct (had_old _ _ _ _ w2) as [r3 w3] eqn:E3. apply (had_old_run _ _ _ _ C) in E3 as [Ho3 Hr3];
    [|apply confined_RemoveAll].
  assert (Hb3 : beside target op (tables w) (tables w3)) by (eapply beside_trans; [exact Hb2|by apply only_beside]).
  destruct r3 as [b|err3]; [|injection E as <- <-; by split]. injection E as <- <-. split; [done|].
  intros e [= <-]. exists b. split; [done|]. destruct (Hr3 b eq_refl) as [Ht3 Hm]. by rewrite Ht3.
Qed.
End prepare_directory.

(** ** Preparing all entries *)

(** The targets in the order in which their entries are made. *)
Definition restore_order (config : Config) : list (string * string) :=
  [(ConfigPath config, "config"); (DatabasePath config, "database"); (identity_path config, "identity");
   (trust_path config, "trust"); (DatabasePath config +:+ "-wal", "sqlite-sidecar");
   (DatabasePath config +:+ "-shm", "sqlite-sidecar")]
  ++ (if String.eqb (CertificatePath config) "." then [] else [(CertificatePath config, "certificates")]).

Definition full_entry (op : string) (t : string * string) : restoreEntry :=
  mkEntry t.1 (candidate_of t.1 op) (previous_of t.1 op) t.2 false false.

Lemma starts_with_removelast k l : l <> [] -> starts_with (removelast l) k = true -> starts_with l k = true.
Proof.
  intros Hl [j Hj]%starts_with_iff. apply starts_with_iff. exists (j ++ [List.last l ""]).
  rewrite app_assoc, <- Hj. by apply app_removelast_last.
Qed.

Lemma sublist_elem_of {A} (l k : list A) x : l `sublist_of` k -> x ∈ l -> x ∈ k.
Proof. intros Hs Hx. eapply elem_of_submseteq; [exact Hx|by apply sublist_submseteq]. Qed.

Section preparing.
Variable config : Config.
Variable op : string.
Variable d0 : node.
Notation order := (restore_order config).

(** What a configuration and an operation have to satisfy. *)
Record well_configured : Prop := mkWell {
  W_abs : IsAbs (BackupRoot config) = true;
  W_clean : Forall (fun t => clean_target t.1 = true) order;
  W_separate : ForallOrdPairs separate (map (full_entry op) order);
  W_outside : outside config (map (full_entry op) order);
  W_op : valid_id op = true
}.
Hypothesis W : well_configured.

Lemma placed_target t : t ∈ order -> placed (full_entry op t).
Proof using W.
  intros Ht. assert (Hc := proj1 (Forall_forall _ _) (W_clean W) _ Ht). by apply placed_full; [|apply W_op].
Qed.

Lemma order_separate l t k : order = l ++ t :: k ->
  Forall (fun u => separate (full_entry op t) (full_entry op u)) (l ++ k).
Proof using W.
  intros E. assert (Hs := W_separate W). rewrite E, map_app in Hs. cbn [map] in Hs.
  apply ForallOrdPairs_mid in Hs as [H1 H2]. rewrite !List.Forall_map in *. by apply Forall_app.
Qed.

Lemma full_paths t : [t.1; previous_of t.1 op; candidate_of t.1 op] ⊆ entry_paths (full_entry op t).
Proof using Type.
  clear W. intros q Hq. unfold entry_paths, full_entry. cbn [E_Target E_Previous E_Candidate].
  destruct (String.eqb_spec (candidate_of t.1 op) "") as [Hc|_]; [|set_solver].
  unfold candidate_of in Hc. by destruct t.1.
Qed.

(** The journal, the targets and the places for what they held are as on [d0]. *)
Definition kept (d : node) : Prop :=
  at_path (restoreJournalPath config) d = at_path (restoreJournalPath config) d0 /\
  Forall (fun t => at_path t.1 d = at_path t.1 d0 /\
                   at_path (previous_of t.1 op) d = at_path (previous_of t.1 op) d0) order.

Lemma beside_kept l t k d d' : order = l ++ t :: k -> beside t.1 op d d' ->
  (kept d -> kept d') /\
  (forall u, u ∈ l -> at_path (candidate_of u.1 op) d' = at_path (candidate_of u.1 op) d).
Proof using W.
  intros E Hb. assert (Ht : t ∈ order) by (rewrite E; set_solver).
  assert (Hc := proj1 (Forall_forall _ _) (W_clean W) _ Ht). cbv beta in Hc.
  destruct (target_abs _ Hc) as (Ha & Hcl & Hne).
  assert (Hdir : parts (Dir t.1) = removelast (parts t.1)) by (by apply parts_Dir).
  assert (Hother : forall u q, u ∈ l ++ k -> q ∈ [u.1; previous_of u.1 op; candidate_of u.1 op] -> at_path q d' = at_path q d).
  { intros u q Hu Hq. assert (Hs := proj1 (Forall_forall _ _) (order_separate l t k E) _ Hu). cbv beta in Hs.
    assert (Hq' := full_paths u q Hq). apply Hb.
    - rewrite apart_sym. apply Hs; [apply full_paths; clear; set_solver|done].
    - rewrite Hdir. apply not_true_is_false. intros Hx%starts_with_removelast; [|done].
      assert (Hy := Hs t.1 q (target_in (full_entry op t)) Hq').
      apply andb_true_iff in Hy as [Hy%negb_true_iff _]. congruence. }
  assert (Hself : forall q, q ∈ [t.1; previous_of t.1 op] -> at_path q d' = at_path q d).
  { intros q Hq. assert (Hp := placed_target t Ht). destruct (apart_candidate _ Hp) as [H1 H2].
    { cbn. unfold candidate_of. by destruct t.1. }
    destruct Hp as (dir & n & p & Hpt & Hpp & _). cbn [E_Target E_Previous E_Candidate full_entry] in *.
    assert (Hlen : forall q, (List.length dir < List.length (parts q))%nat -> starts_with (parts (Dir t.1)) (parts q) = false).
    { intros x Hx. rewrite Hdir, Hpt, removelast_last. apply not_true_is_false. intros [j Hj]%starts_with_iff.
      apply (f_equal (@List.length _)) in Hj. rewrite length_app in Hj. lia. }
    rewrite !elem_of_cons, elem_of_nil in Hq. destruct Hq as [-> |[-> |[]]]; apply Hb; try done; apply Hlen;
      rewrite ?Hpt, ?Hpp, length_app; cbn; lia. }
  split; [|intros u Hu; apply (Hother u); set_solver].
  assert (Hj : at_path (restoreJournalPath config) d' = at_path (restoreJournalPath config) d).
  { assert (Hin : forall q, q ∈ [t.1; candidate_of t.1 op] -> apart (parts q) (parts (restoreJournalPath config)) = true).
    { intros q Hq. eapply outside_journal; [apply (W_abs W)|apply (W_outside W)|]. apply list_elem_of_In, in_flat_map.
      exists (full_entry op t). split; [by apply in_map, list_elem_of_In|]. apply list_elem_of_In, full_paths. set_solver. }
    apply Hb; [rewrite apart_sym; apply Hin; set_solver|]. rewrite Hdir. apply not_true_is_false.
    intros Hx%starts_with_removelast; [|done]. assert (Hy := Hin t.1 ltac:(set_solver)).
    apply andb_true_iff in Hy as [Hy%negb_true_iff _]. congruence. }
  intros [Hkj Hk]. split; [by rewrite Hj|]. apply Forall_forall. intros u Hu. assert (Hku := proj1 (Forall_forall _ _) Hk _ Hu). cbv beta in Hku.
  rewrite E, elem_of_app, elem_of_cons in Hu. destruct Hu as [Hu|[-> |Hu]].
  - rewrite !(Hother u) by (clear -Hu; set_solver). done.
  - rewrite !Hself by (clear; set_solver). done.
  - rewrite !(Hother u) by (clear -Hu; set_solver). done.
Qed.

(** Changes below the backup root are not seen. *)
Lemma root_kept d d' : only_at (BackupRoot config) d d' ->
  at_path (restoreJournalPath config) d' = at_path (restoreJournalPath config) d ->
  (kept d -> kept d') /\
  (forall u, u ∈ order -> at_path (candidate_of u.1 op) d' = at_path (candidate_of u.1 op) d).
Proof using W.
  intros Ho Hj.
  assert (Hf : forall u q, u ∈ order -> q ∈ [u.1; previous_of u.1 op; candidate_of u.1 op] -> at_path q d' = at_path q d).
  { intros u q Hu Hq. apply Ho. apply (W_outside W). apply list_elem_of_In, in_flat_map. exists (full_entry op u).
    split; [by apply in_map, list_elem_of_In|]. apply list_elem_of_In. by apply full_paths. }
  split; [|intros u Hu; apply (Hf u); [done|set_solver]].
  intros [Hkj Hk]. split; [by rewrite Hj|]. apply Forall_forall. intros u Hu. assert (Hku := proj1 (Forall_forall _ _) Hk _ Hu). cbv beta in Hku.
  rewrite !(Hf u) by (clear -Hu; set_solver). done.
Qed.

(** The entry made for a target. *)
Definition entry_for (d : node) (e : restoreEntry) (t : string * string) : Prop :=
  exists b,
    ((e = mkEntry t.1 (candidate_of t.1 op) (previous_of t.1 op) t.2 b false /\ t.2 <> "sqlite-sidecar" /\
      (t.2 <> "certificates" -> exists m s, at_path (candidate_of t.1 op) d = Some (FileNode m s))) \/
     (e = mkEntry t.1 "" (previous_of t.1 op) t.2 b false /\ t.2 = "sqlite-sidecar" /\ b = true)) /\
    match at_path t.1 d0 with
    | Some n => b = true /\ (t.2 <> "certificates" -> no_dir (Some n))
    | None => b = false
    end.

Lemma entry_for_placed d e t : t ∈ order -> entry_for d e t -> placed e.
Proof using W.
  intros Ht (b & [(-> & _)|(-> & _)] & _); assert (Hc := proj1 (Forall_forall _ _) (W_clean W) _ Ht); cbv beta in Hc.
  - by apply placed_full; [|apply W_op].
  - by apply placed_sidecar; [|apply W_op].
Qed.

Lemma entry_for_paths d e t : entry_for d e t -> entry_paths e ⊆ entry_paths (full_entry op t).
Proof using Type.
  clear W. intros (b & [(-> & _)|(-> & _)] & _); [done|]. intros q Hq. apply full_paths. unfold entry_paths in Hq. cbn in Hq. set_solver.
Qed.

Lemma entry_for_same d d' e t : at_path (candidate_of t.1 op) d' = at_path (candidate_of t.1 op) d ->
  entry_for d e t -> entry_for d' e t.
Proof using Type. clear W. intros Hs (b & Hb & Hm). exists b. split; [|done]. by rewrite Hs. Qed.

(** The targets of [l] have been looked at, and some have an entry. *)
Definition prep (d : node) (l : list (string * string)) (es : list restoreEntry) : Prop :=
  kept d /\ exists ts, ts `sublist_of` l /\ Forall2 (entry_for d) es ts.

Lemma prep_same d d' l es : kept d' ->
  (forall u, u ∈ l -> at_path (candidate_of u.1 op) d' = at_path (candidate_of u.1 op) d) ->
  prep d l es -> prep d' l es.
Proof using Type.
  clear W. intros Hk Hs [_ (ts & Hsub & Hf)]. split; [done|]. exists ts. split; [done|].
  assert (Hin : forall u, u ∈ ts -> u ∈ l) by (intros u Hu; by eapply sublist_elem_of).
  clear Hsub. induction Hf as [|e t es ts He Hf IH]; constructor.
  - eapply entry_for_same; [|exact He]. apply Hs, Hin. by left.
  - apply IH. intros u Hu. apply Hin. by right.
Qed.

Lemma prep_skip d l es t : prep d l es -> prep d (l ++ [t]) es.
Proof using Type. clear W. intros [Hk (ts & Hs & Hf)]. split; [done|]. exists ts. split; [by apply sublist_inserts_r|done]. Qed.

Lemma prep_add d l es t e : prep d l es -> entry_for d e t -> prep d (l ++ [t]) (es ++ [e]).
Proof using Type.
  clear W. intros [Hk (ts & Hs & Hf)] He. split; [done|]. exists (ts ++ [t]). split; [by apply sublist_app|].
  apply Forall2_app; [done|by constructor].
Qed.

(** *** Dropping the candidates *)

Lemma cleanup_kept d es ts w r w' : ts ⊆ order -> Forall2 (entry_for d) es ts ->
  cleanup_entries es w = (r, w') -> r = Ok tt /\ (kept (tables w) -> kept (tables w')).
Proof using W.
  intros Hin Hf. revert w. induction Hf as [|e t es ts He Hf IH]; intros w E; cbn [cleanup_entries] in E;
    [by injection E as <- <-|].
  assert (Ht : t ∈ order) by (apply Hin; by left). unfold bind in E. destruct (drop_candidate e w) as [r1 w1] eqn:E1.
  assert (Hp := entry_for_placed _ _ _ Ht He). apply drop_candidate_run in E1 as (-> & Hnone & Hsome & _); [|done].
  apply IH in E as [-> Hk]; [|set_solver]. split; [done|]. intros Hk0. apply Hk. clear IH Hk.
  destruct (String.eqb_spec (E_Candidate e) "") as [Hce|Hce]; [by rewrite Hnone|].
  destruct (Hsome Hce) as [Ho _]. destruct He as (b & [(-> & _)|(-> & _)] & _); [|done]. cbn [E_Candidate] in Ho.
  apply list_elem_of_split in Ht as (l & k & El). eapply (beside_kept l t k); [exact El| |exact Hk0]. by apply only_beside.
Qed.

Lemma prep_order d l k es : order = l ++ k -> prep d l es -> exists ts, ts ⊆ order /\ Forall2 (entry_for d) es ts.
Proof using Type.
  clear W. intros E [_ (ts & Hs & Hf)]. exists ts. split; [|done]. intros u Hu. rewrite E. apply elem_of_app. left.
  by eapply sublist_elem_of.
Qed.

Lemma cleaning_run {A} d l k es (m : M node A) w r w' : order = l ++ k -> prep d l es ->
  cleaning es m w = (r, w') ->
  exists r1 w1, m w = (r1, w1) /\
    ((exists a, r = Ok a /\ r1 = Ok a /\ w' = w1) \/
     (exists e, r = Fail e /\ (kept (tables w1) -> kept (tables w')))).
Proof using W.
  intros El Hp E. unfold cleaning, bind in E. destruct (attempt m w) as [r1 w1] eqn:E1.
  apply attempt_run in E1 as (done & E1 & ->). exists done, w1. split; [done|]. destruct done as [a|err].
  - injection E as <- <-. left. by exists a.
  - destruct (prep_order _ _ _ _ El Hp) as (ts & Hin & Hf). destruct (cleanup_entries es w1) as [r2 w2] eqn:E2.
    apply (cleanup_kept _ _ _ _ _ _ Hin Hf) in E2 as [-> Hk]. injection E as <- <-. right. by exists err.
Qed.

(** *** One file *)

Lemma file_entry l t k es source w r w' : order = l ++ t :: k -> t.2 <> "sqlite-sidecar" -> t.2 <> "certificates" ->
  prep (tables w) l es -> prepareFileEntry source t.1 op t.2 384 w = (r, w') ->
  prep (tables w') l es /\ (forall e, r = Ok e -> prep (tables w') (l ++ [t]) (es ++ [e])).
Proof using W.
  intros El H1 H2 Hp E. assert (Ht : t ∈ order) by (rewrite El; set_solver).
  assert (Hc := proj1 (Forall_forall _ _) (W_clean W) _ Ht). cbv beta in Hc.
  apply prepareFileEntry_run in E as [Hb Hok]; [|done|apply (W_op W)].
  destruct (beside_kept l t k _ _ El Hb) as [Hk Hs].
  assert (Hp' : prep (tables w') l es) by (eapply prep_same; [apply Hk, Hp|exact Hs|exact Hp]).
  split; [done|]. intros e [b (-> & (m & s & d & Hat & _) & Hm)]%Hok. apply prep_add; [done|].
  destruct Hp' as [[_ Hk'] _]. assert (Hkt := proj1 (Forall_forall _ _) Hk' _ Ht). destruct Hkt as [Hkt _]. rewrite Hkt in Hm.
  exists b. split; [left; split_and!; [done|done|by exists 384, s]|].
  destruct (at_path t.1 d0) as [n|]; [|done]. destruct Hm as [-> Hr]. split; [done|]. intros _. by destruct n.
Qed.

(** The result of a part of the preparation. *)
Definition prepares (l : list (string * string)) (es : list restoreEntry) (r : result (list restoreEntry)) (d' : node) : Prop :=
  kept d' /\ forall es', r = Ok es' -> prep d' l es' /\ (List.length es <= List.length es')%nat.

Definition target_kind (o : string * string * string) : string * string := (o.1.2, o.2).

Lemma add_optional_run optional l k es w r w' : order = l ++ map target_kind optional ++ k ->
  Forall (fun o => o.2 <> "sqlite-sidecar" /\ o.2 <> "certificates") optional ->
  prep (tables w) l es -> add_optional op optional es w = (r, w') ->
  prepares (l ++ map target_kind optional) es r (tables w').
Proof using W.
  revert l es w. induction optional as [|[[source target] kind] optional IH]; intros l es w El Hk Hp E; cbn [add_optional] in E.
  { injection E as <- <-. split; [apply Hp|]. intros es' [= <-]. rewrite app_nil_r. by split. }
  inversion_clear Hk as [|? ? [Hk1 Hk2] Hks]. cbn [map] in El |- *. change (target_kind (source, target, kind)) with (target, kind) in *.
  assert (El' : order = (l ++ [(target, kind)]) ++ map target_kind optional ++ k) by (by rewrite <- app_assoc).
  replace (l ++ (target, kind) :: map target_kind optional) with ((l ++ [(target, kind)]) ++ map target_kind optional) by (by rewrite <- app_assoc).
  unfold bind at 1 in E. destruct (cleaning es (exists_at source) w) as [r1 w1] eqn:E1.
  eapply cleaning_run in E1 as (r2 & w2 & E2 & H2); [|exact El|exact Hp].
  apply exists_at_run in E2 as (found & -> & Ht2 & _).
  destruct H2 as [(a & -> & [= <-] & ->)|(e & -> & Hkeep)]; [|injection E as <- <-; split; [apply Hkeep; rewrite Ht2; apply Hp|done]].
  rewrite <- Ht2 in Hp. destruct found as [[]|err].
  - unfold bind in E. destruct (cleaning es _ w2) as [r3 w3] eqn:E3.
    eapply cleaning_run in E3 as (r4 & w4 & E4 & H4); [|exact El|exact Hp].
    eapply (file_entry l (target, kind)) in E4 as [Hp4 Hok4]; [|exact El|done|done|exact Hp].
    destruct H4 as [(e & -> & -> & ->)|(e & -> & Hkeep)]; [|injection E as <- <-; split; [apply Hkeep, Hp4|done]].
    apply (IH (l ++ [(target, kind)])) in E as [Hk' Hok']; [|done|done|by apply Hok4]. split; [done|]. intros es' [Hpe Hle]%Hok'.
    split; [done|]. rewrite length_app in Hle. lia.
  - apply (IH (l ++ [(target, kind)])) in E as [Hk' Hok']; [|done|done|by apply prep_skip]. by split.
  - unfold bind in E. destruct (prep_order _ _ _ _ El Hp) as (ts & Hin & Hf). destruct (cleanup_entries es w2) as [r3 w3] eqn:E3.
    apply (cleanup_kept _ _ _ _ _ _ Hin Hf) in E3 as [-> Hkeep]. injection E as <- <-. split; [apply Hkeep, Hp|done].
Qed.

Definition sidecar (suffix : string) : string * string := (DatabasePath config +:+ suffix, "sqlite-sidecar").

Lemma add_sidecars_run suffixes l k es w r w' : order = l ++ map sidecar suffixes ++ k ->
  Forall (fun s => no_dir (at_path (DatabasePath config +:+ s) d0)) suffixes ->
  prep (tables w) l es -> add_sidecars config op suffixes es w = (r, w') ->
  prepares (l ++ map sidecar suffixes) es r (tables w').
Proof using W.
  revert l es w. induction suffixes as [|suffix suffixes IH]; intros l es w El Hd Hp E; cbn [add_sidecars] in E.
  { injection E as <- <-. split; [apply Hp|]. intros es' [= <-]. rewrite app_nil_r. by split. }
  inversion_clear Hd as [|? ? Hd1 Hds]. cbn [map] in El |- *.
  assert (El' : order = (l ++ [sidecar suffix]) ++ map sidecar suffixes ++ k) by (by rewrite <- app_assoc).
  replace (l ++ sidecar suffix :: map sidecar suffixes) with ((l ++ [sidecar suffix]) ++ map sidecar suffixes) by (by rewrite <- app_assoc).
  unfold bind at 1 in E. destruct (exists_at _ w) as [r1 w1] eqn:E1.
  apply exists_at_run in E1 as (found & -> & Ht1 & _ & Hyes & _). rewrite <- Ht1 in Hp, Hyes.
  destruct found as [[]|err].
  - assert (He : entry_for (tables w1) (mkEntry (DatabasePath config +:+ suffix) ""
      (previous_of (DatabasePath config +:+ suffix) op) "sqlite-sidecar" true false) (sidecar suffix)).
    { exists true. split; [by right|]. destruct (Hyes eq_refl) as [n Hn]. cbn [fst sidecar].
      assert (Ht : sidecar suffix ∈ order) by (rewrite El; set_solver).
      assert (Hkt := proj1 (Forall_forall _ _) (proj2 (proj1 Hp)) _ Ht). destruct Hkt as [Hkt _]. cbn [fst sidecar] in Hkt.
      rewrite <- Hkt in Hd1 |- *. rewrite Hn in Hd1 |- *. done. }
    apply (IH (l ++ [sidecar suffix])) in E as [Hk' Hok']; [|done|done|by apply prep_add]. split; [done|]. intros es' [Hpe Hle]%Hok'.
    split; [done|]. rewrite length_app in Hle. lia.
  - apply (IH (l ++ [sidecar suffix])) in E as [Hk' Hok']; [|done|done|by apply prep_skip]. by split.
  - unfold bind in E. destruct (prep_order _ _ _ _ El Hp) as (ts & Hin & Hf). destruct (cleanup_entries es w1) as [r3 w3] eqn:E3.
    apply (cleanup_kept _ _ _ _ _ _ Hin Hf) in E3 as [-> Hkeep]. injection E as <- <-. split; [apply Hkeep, Hp|done].
Qed.

Lemma add_certificates_run root l es w r w' : IsAbs root = true -> below root (BackupRoot config) ->
  apart (parts (restoreJournalPath config)) (parts root) = true ->
  order = l ++ (if String.eqb (CertificatePath config) "." then [] else [(CertificatePath config, "certificates")]) ->
  prep (tables w) l es -> add_certificates config root op es w = (r, w') ->
  prepares order es r (tables w').
Proof using W.
  intros Ha Hb Hap El Hp E. unfold add_certificates, bind in E. destruct (cleaning es (MkdirAll _ _) w) as [r1 w1] eqn:E1.
  eapply cleaning_run in E1 as (r2 & w2 & E2 & H2); [|exact El|exact Hp].
  assert (Hbc : below (PathJoin [root; "certificates"]) (BackupRoot config)).
  { destruct Hb as [j Hj]. destruct (below_join root "certificates" Ha) as [i Hi]; [by apply plain_name|].
    exists (j ++ i). by rewrite Hi, Hj, app_assoc. }
  assert (Hj2 : at_path (restoreJournalPath config) (tables w2) = at_path (restoreJournalPath config) (tables w)).
  { eapply MkdirAll_other; [exact E2|]. apply apart_starts.
    destruct (below_join root "certificates" Ha) as [i ->]; [by apply plain_name|]. by apply apart_below. }
  destruct (root_kept _ _ (confined_MkdirAll _ _ _ Hbc _ _ _ E2) Hj2) as [Hk2 Hs2].
  assert (Hp2 : prep (tables w2) l es).
  { eapply prep_same; [apply Hk2, Hp| |exact Hp]. intros u Hu. apply Hs2. rewrite El. apply elem_of_app. by left. }
  destruct H2 as [([] & -> & -> & ->)|(e & -> & Hkeep)]; [|injection E as <- <-; split; [apply Hkeep, Hp2|done]].
  destruct (cleaning es (prepareDirectoryEntry _ _ _ _) w2) as [r3 w3] eqn:E3.
  eapply cleaning_run in E3 as (r4 & w4 & E4 & H4); [|exact El|exact Hp2].
  destruct (String.eqb_spec (CertificatePath config) ".") as [Hc|Hc].
  { rewrite Hc in E4. injection E4 as <- <-.
    destruct H4 as [(a & _ & [=] & _)|(e & -> & Hkeep)]. injection E as <- <-. split; [apply Hkeep, Hp2|done]. }
  assert (Ht : (CertificatePath config, "certificates") ∈ order) by (rewrite El; set_solver).
  assert (Hcl := proj1 (Forall_forall _ _) (W_clean W) _ Ht). cbn [fst] in Hcl.
  apply prepareDirectoryEntry_run in E4 as [Hbe Hok]; [|done|apply (W_op W)].
  destruct (beside_kept l (CertificatePath config, "certificates") [] _ _ El Hbe) as [Hk4 Hs4].
  assert (Hp4 : prep (tables w4) l es) by (eapply prep_same; [apply Hk4, Hp2|exact Hs4|exact Hp2]).
  destruct H4 as [(e & -> & -> & ->)|(e & -> & Hkeep)]; [|injection E as <- <-; split; [apply Hkeep, Hp4|done]].
  injection E as <- <-. split; [apply Hp4|]. intros es' [= <-]. split; [|rewrite length_app; lia]. rewrite El.
  apply prep_add; [done|]. destruct (Hok e eq_refl) as (b & -> & Hm). exists b.
  assert (Hkt := proj1 (Forall_forall _ _) (proj2 (proj1 Hp4)) _ Ht). destruct Hkt as [Hkt _]. cbn [fst] in Hkt. rewrite Hkt in Hm.
  split; [by left|]. cbn [fst snd]. destruct (at_path (CertificatePath config) d0); [|done]. by destruct Hm as [-> _].
Qed.

Lemma prepare_entries_run prepared w r w' : IsAbs (P_Root prepared) = true ->
  below (P_Root prepared) (BackupRoot config) ->
  apart (parts (restoreJournalPath config)) (parts (P_Root prepared)) = true ->
  Forall (fun s => no_dir (at_path (DatabasePath config +:+ s) d0)) ["-wal"; "-shm"] ->
  kept (tables w) -> prepare_entries config prepared op w = (r, w') ->
  kept (tables w') /\ forall es, r = Ok es -> prep (tables w') order es /\ (2 <= List.length es)%nat.
Proof using W.
  intros Ha Hb Hap Hd Hk E. unfold prepare_entries in E. set (root := P_Root prepared) in *.
  set (certs := if String.eqb (CertificatePath config) "." then [] else [(CertificatePath config, "certificates")]).
  assert (E0 : order = [] ++ (ConfigPath config, "config") :: (DatabasePath config, "database")
     :: map target_kind (optional_targets config root) ++ map sidecar ["-wal"; "-shm"] ++ certs) by done.
  assert (Hp0 : prep (tables w) [] []) by (split; [done|exists []; by split]).
  unfold bind at 1 in E. destruct (prepareFileEntry _ _ _ _ _ w) as [r1 w1] eqn:E1.
  eapply (file_entry [] (ConfigPath config, "config")) in E1 as [Hp1 Hok1]; [|exact E0|done|done|exact Hp0].
  destruct r1 as [e1|err]; [|injection E as <- <-; split; [apply Hp1|done]]. assert (Hp1' := Hok1 e1 eq_refl).
  unfold bind at 1 in E. destruct (cleaning [e1] _ w1) as [r2 w2] eqn:E2.
  eapply (cleaning_run _ [(ConfigPath config, "config")]) in E2 as (r3 & w3 & E3 & H3); [|exact E0|exact Hp1'].
  eapply (file_entry [(ConfigPath config, "config")] (DatabasePath config, "database")) in E3 as [Hp3 Hok3];
    [|exact E0|done|done|exact Hp1'].
  destruct H3 as [(e2 & -> & -> & ->)|(e & -> & Hkeep)]; [|injection E as <- <-; split; [apply Hkeep, Hp3|done]].
  assert (Hp2 := Hok3 e2 eq_refl). cbn [app] in Hp2.
  unfold bind at 1 in E. destruct (add_optional _ _ _ w3) as [r4 w4] eqn:E4.
  eapply (add_optional_run _ [(ConfigPath config, "config"); (DatabasePath config, "database")]) in E4 as [Hk4 Hok4];
    [|exact E0|by repeat constructor|exact Hp2].
  destruct r4 as [es4|err]; [|by injection E as <- <-]. destruct (Hok4 es4 eq_refl) as [Hp4 Hl4].
  unfold bind at 1 in E. destruct (add_sidecars _ _ _ _ w4) as [r5 w5] eqn:E5.
  set (l4 := [(ConfigPath config, "config"); (DatabasePath config, "database")]
    ++ map target_kind (optional_targets config root)) in *.
  eapply (add_sidecars_run _ l4 certs) in E5 as [Hk5 Hok5]; [|exact E0|exact Hd|exact Hp4].
  destruct r5 as [es5|err]; [|by injection E as <- <-]. destruct (Hok5 es5 eq_refl) as [Hp5 Hl5].
  cbn [List.length] in Hl4. destruct (M_IncludesCertificates _).
  - eapply (add_certificates_run root (l4 ++ map sidecar ["-wal"; "-shm"])) in E as [Hk6 Hok6]; [|done|done|done| |exact Hp5].
    + split; [done|]. intros es [Hp6 Hl6]%Hok6. split; [done|]. lia.
    + exact E0.
  - injection E as <- <-. split; [done|]. intros es [= <-]. split; [|lia]. destruct Hp5 as [_ (ts & Hs & Hf)].
    split; [done|]. exists ts. split; [|done].
    replace order with ((l4 ++ map sidecar ["-wal"; "-shm"]) ++ certs) by done. by apply sublist_inserts_r.
Qed.
End preparing.

(** ** From the prepared entries to the journal *)

Lemma ForallOrdPairs_sublist {A} (R : A -> A -> Prop) (l k : list A) :
  l `sublist_of` k -> ForallOrdPairs R k -> ForallOrdPairs R l.
Proof.
  induction 1 as [|x l k Hs IH|x l k Hs IH]; intros H; [constructor| |]; inversion_clear H as [|? ? Ha Hb].
  - constructor; [|by apply IH]. rewrite Forall_forall in *. intros y Hy. apply Ha. by eapply sublist_elem_of.
  - by apply IH.
Qed.

Lemma sublist_map {A B} (f : A -> B) (l k : list A) : l `sublist_of` k -> map f l `sublist_of` map f k.
Proof. induction 1; cbn; by constructor. Qed.

Section prepared.
Variable config : Config.
Variable op : string.
Variable d0 : node.
Notation order := (restore_order config).
Hypothesis W : well_configured config op.
Hypothesis fresh : Forall (fun t => at_path (previous_of t.1 op) d0 = None) order.

Lemma apart_irrefl l : apart l l = false.
Proof using Type. clear. unfold apart. by rewrite starts_with_refl. Qed.

Lemma order_unique t u : t ∈ order -> u ∈ order -> t.1 = u.1 -> t = u.
Proof using W.
  clear fresh d0. intros Ht Hu He. apply list_elem_of_split in Ht as (l & k & El).
  assert (Hs := order_separate config op W l t k El). rewrite El, elem_of_app, elem_of_cons in Hu.
  assert (Hno : u ∈ l ++ k -> False).
  { intros Hx. rewrite Forall_forall in Hs.
    specialize (Hs u Hx _ _ (target_in (full_entry op t)) (target_in (full_entry op u))).
    cbn [E_Target full_entry] in Hs. by rewrite He, apart_irrefl in Hs. }
  destruct Hu as [Hu|[->|Hu]]; [|done|]; exfalso; apply Hno; set_solver.
Qed.

Lemma allowed_order t : t ∈ allowed_targets config <-> t ∈ order.
Proof using Type. clear. unfold allowed_targets, restore_order. set_solver. Qed.

Lemma allowed_kind_target t : t ∈ order -> allowed_kind_of config t.1 = t.2.
Proof using W.
  intros Ht. unfold allowed_kind_of. destruct (List.find _ _) as [[path kind]|] eqn:E.
  - apply List.find_some in E as [Hin He%String.eqb_eq]. apply in_rev, list_elem_of_In, allowed_order in Hin.
    cbn in He. by rewrite <- (order_unique (path, kind) t Hin Ht He).
  - exfalso. apply allowed_order, list_elem_of_In, in_rev in Ht. apply (List.find_none _ _ E) in Ht. destruct t as [path kind].
    cbn in Ht. by rewrite String.eqb_refl in Ht.
Qed.

Lemma entry_for_valid d e t : t ∈ order -> entry_for op d0 d e t -> validRestoreEntry config e = true.
Proof using W.
  intros Ht He. assert (Hc := proj1 (Forall_forall _ _) (W_clean _ _ W) _ Ht). cbv beta in Hc.
  destruct (target_abs _ Hc) as (_ & Hcl & _). unfold validRestoreEntry.
  assert (E1 : E_Target e = t.1 /\ E_Kind e = t.2 /\ E_Previous e = previous_of t.1 op /\
    (E_Candidate e = candidate_of t.1 op \/ (E_Candidate e = "" /\ t.2 = "sqlite-sidecar"))).
  { destruct He as (b & [(-> & _)|(-> & Hk & _)] & _); split_and!; try done; auto. }
  destruct E1 as (-> & -> & -> & Hcand). rewrite Hcl, allowed_kind_target, String.eqb_refl by done.
  unfold previous_of. rewrite sibling_valid by (try apply W; done). cbn [negb orb].
  destruct Hcand as [-> |[-> ->]]; [|done].
  destruct (String.eqb_spec (candidate_of t.1 op) "") as [Hx|_]; [unfold candidate_of in Hx; by destruct t.1|].
  unfold candidate_of. by apply sibling_valid; [|apply W|..].
Qed.

Section entries.
Variable d : node.
Variable es : list restoreEntry.
Hypothesis Hprep : prep config op d0 d order es.

Lemma prep_each e : e ∈ es -> exists t, t ∈ order /\ entry_for op d0 d e t.
Proof using Hprep.
  intros He. destruct Hprep as [_ (ts & Hs & Hf)]. apply list_elem_of_lookup in He as [i Hi].
  destruct (Forall2_lookup_l _ _ _ _ _ Hf Hi) as (t & Ht & Hx). exists t. split; [|done].
  eapply sublist_elem_of; [exact Hs|]. apply list_elem_of_lookup. by exists i.
Qed.

Lemma prep_well_placed : well_placed es.
Proof using W Hprep.
  split.
  - apply Forall_forall. intros e He. destruct (prep_each e He) as (t & Ht & Hx).
    by eapply entry_for_placed.
  - destruct Hprep as [_ (ts & Hs & Hf)].
    assert (Hsep : ForallOrdPairs separate (map (full_entry op) ts)).
    { eapply ForallOrdPairs_sublist; [|exact (W_separate _ _ W)]. by apply sublist_map. }
    clear Hs Hprep. induction Hf as [|e t l ts He Hf IH]; [constructor|]. cbn [map] in Hsep.
    inversion_clear Hsep as [|? ? Ha Hb]. constructor; [|by apply IH].
    apply Forall_forall. intros f Hfe. apply list_elem_of_lookup in Hfe as [i Hi].
    destruct (Forall2_lookup_l _ _ _ _ _ Hf Hi) as (u & Hu & Hx). rewrite Forall_forall in Ha.
    assert (Hsep : separate (full_entry op t) (full_entry op u)).
    { apply Ha. apply list_elem_of_In, in_map, list_elem_of_In, list_elem_of_lookup. by exists i. }
    intros p q Hp Hq. apply Hsep; by eapply entry_for_paths.
Qed.

Lemma prep_outside : outside config es.
Proof using W Hprep.
  intros p Hp. apply list_elem_of_In, in_flat_map in Hp as (e & He & Hp). apply list_elem_of_In in He, Hp.
  destruct (prep_each e He) as (t & Ht & Hx). apply (W_outside _ _ W). apply list_elem_of_In, in_flat_map.
  exists (full_entry op t). split; [by apply in_map, list_elem_of_In|]. apply list_elem_of_In. by eapply entry_for_paths.
Qed.

Lemma prep_length : (List.length es <= 7)%nat.
Proof using Hprep.
  destruct Hprep as [_ (ts & Hs & Hf)]. rewrite (Forall2_length _ _ _ Hf). apply sublist_length in Hs.
  eapply Nat.le_trans; [exact Hs|]. unfold restore_order. destruct (String.eqb _ _); cbn; lia.
Qed.

Lemma prep_valid id now : valid_id id = true -> IsZero now = false -> (2 <= List.length es)%nat ->
  valid_journal config (mkJournal restoreJournalSchema id now es) = true.
Proof using W Hprep.
  intros Hid Hnow H2. assert (H7 := prep_length). unfold valid_journal. cbn [J_SchemaVersion J_BackupID J_CreatedAt J_Entries].
  rewrite Hid, Hnow. rewrite !andb_true_iff, !negb_true_iff, !Z.ltb_ge. split_and!; try done; [lia..|].
  apply forallb_forall. intros e He. apply list_elem_of_In in He. destruct (prep_each e He) as (t & Ht & Hx).
  by eapply entry_for_valid.
Qed.

(** What the restore will put at a target. *)
Definition incoming (target : string) : option node :=
  match List.find (fun e => String.eqb (E_Target e) target) es with
  | Some e => replacement e d
  | None => None
  end.

Lemma prep_awaiting : Forall (awaiting d0 incoming d) es.
Proof using W fresh Hprep.
  apply Forall_forall. intros e He. assert (Hwp := prep_well_placed). split.
  - destruct (prep_each e He) as (t & Ht & Hx). destruct Hprep as [[_ Hk] _].
    destruct (proj1 (Forall_forall _ _) Hk _ Ht) as [Hkt Hkp]. assert (Hfr := proj1 (Forall_forall _ _) fresh _ Ht).
    cbv beta in Hfr. rewrite Hfr in Hkp.
    assert (Hb : before d0 e = at_path t.1 d0) by (by destruct Hx as (b & [(-> & _)|(-> & _)] & _)).
    rewrite Hb. destruct Hx as (b & Hcase & Hm). split; [|split].
    + intros Hkind. apply Forall_forall. intros p Hp. destruct Hcase as [(-> & _ & Hfile)|(-> & _ & _)];
        unfold entry_paths in Hp; cbn [E_Target E_Previous E_Candidate E_Kind] in *.
      * assert (Hp' : p = t.1 \/ p = previous_of t.1 op \/ p = candidate_of t.1 op)
          by (clear -Hp; destruct (String.eqb _ ""); set_solver).
        destruct Hp' as [-> |[-> | ->]].
        -- rewrite Hkt. destruct (at_path t.1 d0) as [n|]; [|done]. destruct Hm as [_ Hm]. by apply Hm.
        -- by rewrite Hkp.
        -- destruct (Hfile Hkind) as (m & s & ->). done.
      * assert (Hp' : p = t.1 \/ p = previous_of t.1 op) by (cbn in Hp; clear -Hp; set_solver).
        destruct Hp' as [-> | ->]; [|by rewrite Hkp].
        rewrite Hkt. destruct (at_path t.1 d0) as [n|]; [|done]. destruct Hm as [_ Hm]. by apply Hm.
    + by destruct Hcase as [(-> & _)|(-> & _)].
    + destruct Hcase as [(-> & _)|(-> & _)]; cbn [E_HadOld E_Previous];
        (destruct (at_path t.1 d0) as [n|]; [destruct Hm as [-> _]; by split|by rewrite Hm]).
  - unfold incoming. destruct (List.find _ es) as [f|] eqn:E.
    + apply List.find_some in E as [Hf Ht%String.eqb_eq]. apply list_elem_of_In in Hf. f_equal.
      destruct (list_elem_of_split _ _ He) as (l & k & El). destruct Hwp as [_ Hsep]. rewrite El in Hsep, Hf.
      apply ForallOrdPairs_mid in Hsep as [H1 H2]. rewrite Forall_forall in H1, H2.
      rewrite elem_of_app, elem_of_cons in Hf. assert (Hno : separate e f -> False).
      { intros Hs. specialize (Hs (E_Target e) (E_Target f) (target_in e) (target_in f)).
        by rewrite Ht, apart_irrefl in Hs. }
      destruct Hf as [Hf|[->|Hf]]; [|done|]; exfalso; auto.
    + apply list_elem_of_In in He. apply (List.find_none _ _ E) in He. by rewrite String.eqb_refl in He.
Qed.
End entries.
End prepared.

(** ** What a restore can change at all *)

Lemma cto_removeRestorePath ps path kind : path ∈ ps -> confined_to ps (removeRestorePath path kind).
Proof.
  intros Hp. unfold removeRestorePath. destruct (String.eqb path ""); [auto with files|].
  destruct (String.eqb kind "certificates"); [auto with files|]. unfold Remove. auto with files.
Qed.

Section frames.
Variable e : restoreEntry.

Lemma cto_drop_candidate : confined_to (entry_paths e) (drop_candidate e).
Proof using Type.
  unfold drop_candidate. destruct (String.eqb_spec (E_Candidate e) "") as [|Hc]; cbn [negb]; [auto with files|].
  apply cto_ignoring, cto_removeRestorePath. by apply candidate_path.
Qed.

Lemma cto_remove_target : confined_to (entry_paths e) (remove_target e).
Proof using Type.
  apply cto_bind; [apply cto_attempt, cto_removeRestorePath, target_in|auto with files].
Qed.

Lemma cto_exists_at ps path : confined_to ps (exists_at path).
Proof using Type. apply cto_bind; auto with files. Qed.

Lemma cto_rename_back : confined_to (entry_paths e) (Rename (E_Previous e) (E_Target e)).
Proof using Type. apply cto_Rename; [apply previous_in|apply target_in]. Qed.

Lemma cto_put_back : confined_to (entry_paths e) (put_back e).
Proof using Type.
  apply cto_bind; [apply cto_remove_target|]. intros [|err errs]; [|auto with files].
  apply cto_bind; [apply cto_attempt, cto_rename_back|]. intros [u|err]; [|auto with files].
  apply cto_bind; auto with files.
Qed.

Lemma cto_rollback_entry : confined_to (entry_paths e) (rollback_entry e).
Proof using Type.
  apply cto_bind; [apply cto_exists_at|]. intros [pe|err]; [|auto with files].
  apply cto_bind; [unfold candidate_exists; destruct (String.eqb _ _); [auto with files|apply cto_exists_at]|].
  intros [ce|err]; [|auto with files]. destruct (_ && _).
  - apply cto_bind; [apply cto_put_back|]. intros [|err errs]; [|auto with files].
    apply cto_bind; [apply cto_drop_candidate|auto with files].
  - apply cto_bind; [destruct (_ && _); [apply cto_remove_target|auto with files]|]. intros errs.
    apply cto_bind; [apply cto_drop_candidate|auto with files].
Qed.

Lemma cto_installRestoreEntry : confined_to (entry_paths e) (installRestoreEntry e).
Proof using Type.
  apply cto_bind; [unfold set_aside; destruct (E_HadOld e); [|auto with files];
    apply cto_Rename; [apply target_in|apply previous_in]|]. intros _.
  apply cto_bind; [|intros _; apply cto_bind; auto with files].
  destruct (String.eqb_spec (E_Candidate e) "") as [|Hc]; cbn [negb]; [destruct (negb _); auto with files|].
  apply cto_bind; [apply cto_attempt, cto_Rename; [by apply candidate_path|apply target_in]|].
  intros [u|err]; [auto with files|]. apply cto_bind; [|auto with files].
  destruct (E_HadOld e); [apply cto_ignoring, cto_rename_back|auto with files].
Qed.
End frames.

Lemma all_paths_cons e es : all_paths (e :: es) = entry_paths e ++ all_paths es.
Proof. done. Qed.

Lemma cto_rollback_entries es : confined_to (all_paths es) (rollback_entries es).
Proof.
  induction es as [|e es IH]; [apply cto_ret|]. rewrite all_paths_cons.
  apply cto_bind; [eapply cto_incl; [|exact IH]; set_solver|]. intros errs.
  apply cto_bind; [eapply cto_incl; [|apply cto_rollback_entry]; set_solver|auto with files].
Qed.

Lemma cto_cleanup_entries es : confined_to (all_paths es) (cleanup_entries es).
Proof.
  induction es as [|e es IH]; [apply cto_ret|]. rewrite all_paths_cons.
  apply cto_bind; [eapply cto_incl; [|apply cto_drop_candidate]; set_solver|]. intros _.
  eapply cto_incl; [|exact IH]. set_solver.
Qed.

Lemma cleanup_entries_keeps d0 es w r w' : well_placed es -> cleanup_entries es w = (r, w') ->
  all_recoverable d0 (tables w) es -> all_recoverable d0 (tables w') es.
Proof.
  revert w. induction es as [|e es IH]; intros w [Hpl Hsep] E Hrec; [by injection E as _ <-|].
  inversion_clear Hpl as [|? ? He Hes]. inversion_clear Hsep as [|? ? Hse Hss]. inversion_clear Hrec as [|? ? Hre Hrs].
  cbn [cleanup_entries] in E. unfold bind in E. destruct (drop_candidate e w) as [r1 w1] eqn:E1.
  apply (drop_candidate_keeps (before d0 e)) in E1 as (-> & Hre1 & Hu1 & _); [|done..].
  assert (Hrs1 : all_recoverable d0 (tables w1) es).
  { eapply (frame (fun d e => recoverable (before d0 e) e d)); [intros f; apply recoverable_same| |exact Hrs].
    by eapply entry_frame. }
  assert (Hu2 := cto_cleanup_entries es _ _ _ E). constructor; [|by eapply IH].
  eapply recoverable_same; [|exact Hre1]. eapply untouched_entry; [exact Hu2|]. by apply separate_all.
Qed.

Section run.
Context `{!JSON restoreJournal}.
Variable config : Config.
Hypothesis absolute : IsAbs (BackupRoot config) = true.
Abbreviation jpath := (restoreJournalPath config).

Lemma cto_root {A} ps (m : M node A) : confined (BackupRoot config) m -> confined_to (BackupRoot config :: ps) m.
Proof using Type. clear absolute. intros Hm. eapply cto_confined; [|exact Hm]. by left. Qed.

Lemma cto_remove_journal ps : confined_to (BackupRoot config :: ps) (Remove jpath).
Proof using absolute. apply cto_root. intros w r w' E. apply only_jpath; [done|]. by eapply confined_change. Qed.

Lemma cto_write_journal ps token j : free_of slash token ->
  confined_to (BackupRoot config :: ps) (writeRestoreJournal config token j).
Proof using absolute.
  intros Ht. apply cto_root. intros w r w' E. by apply atomicWriteFile_run in E as [? _]; [|done|repeat split|].
Qed.

Lemma cto_abandon {A} j err : confined_to (BackupRoot config :: all_paths (J_Entries j)) (abandon (A := A) config j err).
Proof using absolute.
  apply cto_bind; [eapply cto_incl; [|apply cto_rollback_entries]; set_solver|]. intros errs.
  apply cto_bind; [apply cto_ignoring, cto_remove_journal|auto with files].
Qed.

Lemma all_paths_installed done e todo : all_paths (done ++ as_installed e :: todo) = all_paths (done ++ e :: todo).
Proof using Type. clear. unfold all_paths. rewrite !flat_map_app. by destruct e. Qed.

Lemma cto_install_entries token id now done todo : (forall n, free_of slash (token n)) ->
  confined_to (BackupRoot config :: all_paths (done ++ todo))
    (install_entries config token (mkJournal restoreJournalSchema id now) done todo).
Proof using absolute.
  intros Htok. revert done. induction todo as [|e todo IH]; intros done; [apply cto_ret|]. cbn [install_entries].
  assert (Hab : forall (A : Type) es err, all_paths es = all_paths (done ++ e :: todo) ->
    confined_to (BackupRoot config :: all_paths (done ++ e :: todo))
      (abandon (A := A) config (mkJournal restoreJournalSchema id now es) err)).
  { intros A es err <-. apply cto_abandon. }
  apply cto_bind; [apply cto_attempt, cto_same; intros w r w' E|].
  { destruct r; [by apply statement_Ok in E; injection E|by apply statement_Fail in E as [-> _]]. }
  intros [u|err]; [|by apply Hab].
  intros w r w' E. unfold bind in E. destruct (attempt _ w) as [r1 w1] eqn:E1. apply attempt_run in E1 as (inst & E1 & ->).
  assert (Hin : entry_paths e ⊆ BackupRoot config :: all_paths (done ++ e :: todo)).
  { intros p Hp. right. apply list_elem_of_In, in_flat_map. exists e. split; [apply in_app_iff; right; by left|by apply list_elem_of_In]. }
  eapply untouched_trans; [eapply untouched_incl; [exact Hin|exact (cto_installRestoreEntry e _ _ _ E1)]|].
  destruct inst as [e'|err]; [|by eapply Hab].
  assert (e' = as_installed e) as ->.
  { unfold installRestoreEntry in E1. apply bind_Ok in E1 as (? & ? & _ & E1). apply bind_Ok in E1 as (? & ? & _ & E1).
    apply bind_Ok in E1 as (? & ? & _ & E1). by apply ret_Ok in E1 as [<- _]. }
  destruct (attempt _ w1) as [r2 w2] eqn:E2. apply attempt_run in E2 as (written & E2 & ->).
  eapply untouched_trans; [exact (cto_write_journal _ _ _ (Htok _) _ _ _ E2)|].
  destruct written as [u2|err]; [|eapply Hab; [apply all_paths_installed|exact E]].
  rewrite <- all_paths_installed. specialize (IH (done ++ [as_installed e])). rewrite <- app_assoc in IH. by eapply IH.
Qed.
End run.

(** ** Every target after a recovery *)

Section recovery.
Context `{!JSON restoreJournal}.
Variable config : Config.
Variable op : string.
Variable d0 : node.
Hypothesis W : well_configured config op.
Abbreviation jpath := (restoreJournalPath config).
Notation order := (restore_order config).

(** The target has an entry, or nothing that a restore did touched it. *)
Definition covered (es : list restoreEntry) (d : node) (t : string * string) : Prop :=
  (exists e, e ∈ es /\ E_Target e = t.1) \/
  (at_path t.1 d = at_path t.1 d0 /\ forall p, p ∈ all_paths es -> apart (parts t.1) (parts p) = true).

(** From this disk a recovery gives every target what it held on [d0]. *)
Definition safe (d : node) : Prop :=
  exists j, well_placed (J_Entries j) /\ outside config (J_Entries j) /\ recovering config d0 j d /\
    Forall (covered (J_Entries j) d) order.

Lemma target_outside t : t ∈ order -> apart (parts t.1) (parts (BackupRoot config)) = true.
Proof using W.
  intros Ht. apply (W_outside _ _ W). apply list_elem_of_In, in_flat_map. exists (full_entry op t).
  split; [by apply in_map, list_elem_of_In|]. apply list_elem_of_In, (target_in (full_entry op t)).
Qed.

Lemma safe_recovers schedules d : safe d ->
  exists d', RecoverInterruptedRestore config (World (recovered_under config schedules d) []) = (Ok tt, World d' []) /\
    at_path jpath d' = None /\ Forall (fun t => at_path t.1 d' = at_path t.1 d0) order.
Proof using W.
  intros (j & Hp & Ho & Hr & Hc).
  destruct (recovery_completes config (W_abs _ _ W) d0 j schedules d Hp Ho Hr) as (d' & E & Hno & Hres & Hu).
  exists d'. split; [done|]. split; [done|]. rewrite Forall_forall in *. intros t Ht.
  destruct (Hc t Ht) as [(e & He & <-)|[Hat Hap]]; [by apply (proj1 (Forall_forall _ _) Hres)|].
  rewrite <- Hat. apply Hu. constructor; [by apply target_outside|]. apply Forall_forall. auto.
Qed.

Lemma safe_kept d : at_path jpath d0 = None -> kept config op d0 d -> safe d.
Proof using Type.
  clear W. intros Hno [Hj Hk]. exists (mkJournal 1 "" 0 []). split; [split; constructor|]. split; [by intros p ?%not_elem_of_nil|].
  split; [right; split; [by rewrite Hj|constructor]|]. eapply Forall_impl; [exact Hk|]. intros t [Ht _]. right.
  split; [done|by intros p ?%not_elem_of_nil].
Qed.

(** The workspace of the preflight may still go. *)
Lemma safe_below path d d' : below path (BackupRoot config) -> apart (parts jpath) (parts path) = true ->
  only_at path d d' -> safe d -> safe d'.
Proof using W.
  intros Hb Hap Hu (j & Hp & Ho & Hr & Hc). exists j. split; [done|]. split; [done|].
  assert (Hroot := only_at_below _ _ _ _ Hb Hu). split.
  - destruct Hr as [[Hj Hr]|[Hno Hr]].
    + left. split; [|by eapply all_recoverable_root]. destruct Hj as [Hv (mode & Hat)]. split; [done|]. exists mode.
      by rewrite Hu.
    + right. split; [by rewrite Hu|by eapply restored_root].
  - rewrite Forall_forall in *. intros t Ht. destruct (Hc t Ht) as [|[Hat Hx]]; [by left|right]. split; [|done].
    rewrite <- Hat. apply Hroot. by apply target_outside.
Qed.

Lemma prep_covered d es t : prep config op d0 d order es -> t ∈ order ->
  (exists e, e ∈ es /\ E_Target e = t.1) \/ (forall p, p ∈ all_paths es -> apart (parts t.1) (parts p) = true).
Proof using W.
  intros [_ (ts & Hs & Hf)] Ht. destruct (decide (t ∈ ts)) as [Hin|Hni].
  - left. apply list_elem_of_lookup in Hin as [i Hi]. destruct (Forall2_lookup_r _ _ _ _ _ Hf Hi) as (e & He & Hx).
    exists e. split; [apply list_elem_of_lookup; by exists i|]. by destruct Hx as (b & [(-> & _)|(-> & _)] & _).
  - right. intros p Hp. apply list_elem_of_In, in_flat_map in Hp as (e & He & Hp). apply list_elem_of_In in He, Hp.
    apply list_elem_of_lookup in He as [i Hi]. destruct (Forall2_lookup_l _ _ _ _ _ Hf Hi) as (u & Hu & Hx).
    assert (Hut : u ∈ ts) by (apply list_elem_of_lookup; by exists i).
    assert (Huo := sublist_elem_of _ _ _ Hs Hut). destruct (list_elem_of_split _ _ Ht) as (l & k & El).
    assert (Hsep := order_separate config op W l t k El). rewrite Forall_forall in Hsep.
    rewrite El, elem_of_app, elem_of_cons in Huo.
    assert (Hlk : u ∈ l ++ k) by (rewrite elem_of_app; destruct Huo as [|[->|]]; [by left|done|by right]).
    apply (Hsep u Hlk t.1 p (target_in (full_entry op t))). by eapply entry_for_paths.
Qed.

Lemma same_covered es fs d t : same_entries es fs -> covered es d t -> covered fs d t.
Proof using Type.
  clear W. intros Hs [(e & He & Ht)|[Hat Hp]].
  - left. assert (Hin : static e ∈ map static fs) by (rewrite <- Hs; by apply list_elem_of_In, in_map, list_elem_of_In).
    apply list_elem_of_In, in_map_iff in Hin as (f & Hf & Hfin). exists f. split; [by apply list_elem_of_In|].
    rewrite <- Ht. by destruct e, f; injection Hf.
  - right. split; [done|]. by rewrite <- entry_paths_static, <- Hs, entry_paths_static.
Qed.

Hypothesis fresh : Forall (fun t => at_path (previous_of t.1 op) d0 = None) order.
Hypothesis no_journal : at_path jpath d0 = None.

Section installing.
Variable d1 : node.
Variable es : list restoreEntry.
Hypothesis Hprep : prep config op d0 d1 order es.
Hypothesis H2 : (2 <= List.length es)%nat.

Lemma safe_entries j d : same_entries (J_Entries j) es -> recovering config d0 j d ->
  untouched (BackupRoot config :: all_paths es) d1 d -> safe d.
Proof using W Hprep.
  intros Hs Hr Hu. assert (Hs' := same_entries_sym _ _ Hs). exists j.
  split; [by eapply well_placed_static, prep_well_placed|]. split; [by eapply outside_static, prep_outside|].
  split; [done|]. apply Forall_forall. intros t Ht. apply (same_covered es); [done|].
  destruct (prep_covered d1 es t Hprep Ht) as [|Hap]; [by left|right]. split; [|done].
  destruct Hprep as [[_ Hk] _]. destruct (proj1 (Forall_forall _ _) Hk _ Ht) as [Hkt _]. rewrite <- Hkt. apply Hu.
  constructor; [by apply target_outside|]. by apply Forall_forall.
Qed.

(** The end of [install_all]: the error tells when the journal is gone with targets not restored. *)
Definition ends_safely (r : result RestoreTransaction) (d : node) : Prop :=
  safe d \/ (at_path jpath d = None /\ exists err x xs, r = Fail (errors_Join err (x :: xs))).

Lemma install_all_run first_token token id now w r w' : tables w = d1 ->
  free_of slash first_token -> (forall n, free_of slash (token n)) -> valid_id id = true -> IsZero now = false ->
  install_all config first_token token id now es w = (r, w') ->
  ends_safely r (tables w') /\
  (forall t, r = Ok t -> T_Closed t = false /\ same_entries (J_Entries (T_Journal t)) es /\
     all_recoverable d0 (tables w') es /\ journal_for config es (tables w') /\
     switched (incoming d1 es) (tables w') (J_Entries (T_Journal t))).
Proof using W fresh no_journal Hprep H2.
  intros Hw Hft Htok Hid Hnow E. assert (Ha := W_abs _ _ W). assert (Hwp := prep_well_placed _ _ _ W _ _ Hprep).
  assert (Hout := prep_outside _ _ _ W _ _ Hprep). assert (Hv := prep_valid _ _ _ W _ _ Hprep id now Hid Hnow H2).
  assert (Haw := prep_awaiting _ _ _ W fresh _ _ Hprep).
  unfold install_all, bind in E. destruct (cleaning es _ w) as [r1 w1] eqn:E1.
  unfold cleaning, bind in E1. destruct (attempt _ w) as [r2 w2] eqn:E2. apply attempt_run in E2 as (written & E2 & ->).
  apply (writeRestoreJournal_run config Ha id now es Hv) in E2 as (Ho2 & Hg2 & Hr2); [|done|done].
  assert (Hu2 : untouched (BackupRoot config :: all_paths es) d1 (tables w2)).
  { rewrite <- Hw. eapply only_untouched; [by left|done]. }
  assert (Hrec2 : all_recoverable d0 (tables w2) es).
  { eapply all_recoverable_root; [exact Hout|exact Ho2|]. rewrite Hw. by eapply awaiting_recoverable. }
  destruct written as [[]|err].
  - injection E1 as <- <-. destruct (install_entries _ _ _ _ _ w2) as [r3 w3] eqn:E3.
    assert (Hu3 := cto_install_entries config Ha token id now [] es Htok _ _ _ E3). cbn [app] in Hu3.
    assert (Hu : untouched (BackupRoot config :: all_paths es) d1 (tables w3)) by (by eapply untouched_trans).
    assert (Hb2 : between config d0 (incoming d1 es) es (tables w2) [] es).
    { split_and!; try done; [constructor|constructor| |by apply Hr2].
      eapply frame; [intros e; apply awaiting_same| |rewrite Hw in Ho2; exact Haw]. rewrite Hw in Ho2. by eapply root_frame. }
    eapply install_entries_run in E3; [|exact Ha|exact Hwp|exact Hout|exact Hv|exact Htok|exact Hb2].
    destruct r3 as [fs|e]; injection E as <- <-.
    + assert (Hrec3 := between_recoverable _ _ _ _ _ _ _ E3). destruct E3 as (Hs & _ & Hsw & _ & Hj). rewrite app_nil_r in Hs.
      split; [left|by intros t [= <-]].
      destruct (journal_for_recovering config d0 es _ Hj Hrec3) as (j & Hjs & Hjr). by eapply safe_entries.
    + split; [|done]. destruct E3 as [(j & Hjs & Hjr)|[Hno (x & y & ys & ->)]]; [left; by eapply safe_entries|right].
      split; [done|]. by exists x, y, ys.
  - destruct (cleanup_entries es w2) as [r3 w3] eqn:E3. assert (Hu3 := cto_cleanup_entries es _ _ _ E3).
    assert (Hrec3 := cleanup_entries_keeps _ _ _ _ _ Hwp E3 Hrec2).
    destruct (prep_order _ _ _ _ _ [] _ (eq_sym (app_nil_r _)) Hprep) as (ts & Hin & Hf).
    destruct (cleanup_kept config op d0 W _ _ _ _ _ _ Hin Hf E3) as [-> Hkeep].
    injection E1 as <- <-. injection E as <- <-. split; [left|done].
    assert (Hu : untouched (BackupRoot config :: all_paths es) d1 (tables w3)).
    { eapply untouched_trans; [exact Hu2|]. eapply untouched_incl; [|exact Hu3]. intros p Hp. by right. }
    assert (Hj3 : at_path jpath (tables w3) = at_path jpath (tables w2)) by (by eapply journal_untouched).
    destruct Hg2 as [Hg2|Hg2].
    + destruct Hprep as [Hk1 _]. assert (Hk3 : kept config op d0 (tables w3)); [|by apply safe_kept].
      apply Hkeep. rewrite Hw in Ho2, Hg2. by eapply root_kept.
    + assert (Hj := journal_for_root config es _ _ Hj3 Hg2).
      destruct (journal_for_recovering config d0 es _ Hj Hrec3) as (j & Hjs & Hjr). by eapply safe_entries.
Qed.
End installing.
End recovery.

(** ** RestoreOffline and Commit *)

Definition is_none {A} (o : option A) : bool := match o with None => true | Some _ => false end.

(** What [Commit] removes is beside the targets. *)
Definition leftovers (es : list restoreEntry) : list string :=
  flat_map (fun e => E_Previous e :: (if String.eqb (E_Candidate e) "" then [] else [E_Candidate e])) es.

Lemma cto_drop_all es : confined_to (leftovers es) (drop_all es).
Proof.
  induction es as [|e es IH]; [apply cto_ret|].
  change (leftovers (e :: es)) with ((E_Previous e :: (if String.eqb (E_Candidate e) "" then [] else [E_Candidate e])) ++ leftovers es).
  cbn [drop_all]. apply cto_bind; [unfold drop_previous; destruct (E_HadOld e); [|auto with files];
    apply cto_ignoring, cto_removeRestorePath; set_solver|]. intros _.
  apply cto_bind; [unfold drop_candidate; destruct (String.eqb_spec (E_Candidate e) "") as [|Hc]; cbn [negb]; [auto with files|];
    apply cto_ignoring, cto_removeRestorePath; set_solver|]. intros _.
  eapply cto_incl; [|exact IH]. set_solver.
Qed.

Lemma leftovers_same es fs : same_entries es fs -> leftovers es = leftovers fs.
Proof.
  intros Hs. assert (Hm : forall l, leftovers l = leftovers (map static l)).
  { unfold leftovers. induction l as [|[] l IH]; [done|]. cbn. by rewrite IH. }
  by rewrite (Hm es), (Hm fs), Hs.
Qed.

Lemma leftovers_apart config op d0 d1 es t p : well_configured config op ->
  prep config op d0 d1 (restore_order config) es -> t ∈ restore_order config ->
  p ∈ leftovers es -> apart (parts t.1) (parts p) = true.
Proof.
  intros W Hprep Ht Hp. apply list_elem_of_In, in_flat_map in Hp as (e & He & Hp). apply list_elem_of_In in He, Hp.
  assert (Hpp : p ∈ [E_Previous e; E_Candidate e] /\ p ∈ entry_paths e /\ (p = E_Candidate e -> E_Candidate e <> "" \/ p = E_Previous e)).
  { unfold entry_paths. destruct (String.eqb_spec (E_Candidate e) ""); set_solver. }
  destruct (prep_each _ _ _ _ _ Hprep e He) as (u & Hu & Hx).
  assert (Hpl := entry_for_placed config op d0 W _ _ _ Hu Hx).
  assert (Hte : E_Target e = u.1) by (by destruct Hx as (b & [(-> & _)|(-> & _)] & _)).
  destruct (list_elem_of_split _ _ Ht) as (l & k & El).
  assert (Hsep := order_separate config op W l t k El). rewrite Forall_forall in Hsep.
  destruct Hpp as (Hpp & Hpe & Hpc). destruct (decide (u = t)) as [->|Hne].
  - rewrite <- Hte. rewrite !elem_of_cons, elem_of_nil in Hpp. destruct Hpp as [->|[->|[]]]; [by apply apart_target_previous|].
    destruct (Hpc eq_refl) as [Hce|Hce]; [by apply apart_candidate|]. rewrite Hce. by apply apart_target_previous.
  - rewrite El, elem_of_app, elem_of_cons in Hu. assert (Hlk : u ∈ l ++ k) by (rewrite elem_of_app; destruct Hu as [|[->|]]; [by left|done|by right]).
    apply (Hsep u Hlk t.1 p (target_in (full_entry op t))). by eapply entry_for_paths.
Qed.

Section offline.
Context `{!UnicodeCase} `{!AEAD} `{!HeaderJSON} `{!Archives}.
Context `{!JSON Manifest} `{!JSON BackupInfo} `{!JSON restoreJournal}.
Variable scrypt : string -> list Z -> list Z.
Variable yaml : string -> option (list (string * yaml_value)).
Variable quick_check : string -> result string.
Variable config : Config.
Abbreviation jpath := (restoreJournalPath config).
Notation order := (restore_order config).

(** What a restore relies on: clean paths, none of which is at or around
    another, an identifier that no file carries yet, names of temporary files
    without a separator, and sidecars of the database that are no directories. *)
Record restore_ready (op : string) (d0 : node) (tokens : restore_tokens) : Prop := mkReady {
  Y_well : well_configured config op;
  Y_fresh : Forall (fun t => at_path (previous_of t.1 op) d0 = None) order;
  Y_sidecars : Forall (fun s => no_dir (at_path (DatabasePath config +:+ s) d0)) ["-wal"; "-shm"];
  Y_tokens : free_of slash (K_prepare tokens) /\ free_of slash (K_first tokens) /\
    forall n, free_of slash (K_journal tokens n)
}.

Lemma prepare_root token info passphrase w prepared w' :
  prepare scrypt yaml quick_check config token info passphrase w = (Ok prepared, w') ->
  P_Root prepared = PathJoin [preflight_workspace config token; "payload"].
Proof.
  unfold prepare. destruct (archivePath _ _) as [archive|]; [|done]. intros E.
  apply bind_Ok in E as (actual & w1 & _ & E). destruct (_ || _); [done|].
  apply bind_Ok in E as (u & w2 & _ & E). apply bind_Ok in E as (done & w3 & E3 & E). apply attempt_Ok in E3.
  destruct done as [p|]; [|by apply bind_Ok in E as (? & ? & _ & [=])]. apply ret_Ok in E as [-> ->].
  unfold prepare_in in E3. repeat (apply bind_Ok in E3 as (? & ? & _ & E3)). by apply ret_Ok in E3 as [<- _].
Qed.

Section ready.
Variable op : string.
Variable d0 : node.
Variable tokens : restore_tokens.
Hypothesis Y : restore_ready op d0 tokens.
Hypothesis no_journal : at_path jpath d0 = None.
Abbreviation workspace := (preflight_workspace config (K_prepare tokens)).

Lemma workspace_parts : exists t, parts workspace = parts (BackupRoot config) ++ [t] /\ t <> "restore-journal.json".
Proof using Y.
  destruct (Y_tokens _ _ _ Y) as [Hf _]. assert (Ha := W_abs _ _ (Y_well _ _ _ Y)).
  assert (Hft : free_of slash (".preflight-" +:+ K_prepare tokens)) by (apply free_of_app; done).
  exists (".preflight-" +:+ K_prepare tokens). split; [|done]. unfold preflight_workspace.
  rewrite parts_PathJoin, Split_free; try done. apply plain_name; try done.
Qed.

Lemma workspace_below : below workspace (BackupRoot config).
Proof using Y. destruct workspace_parts as (t & Ht & _). by exists [t]. Qed.

Lemma workspace_apart : apart (parts jpath) (parts workspace) = true.
Proof using Y.
  destruct workspace_parts as (t & Ht & Hne). rewrite Ht, jpath_parts by (apply W_abs with op, Y). by apply apart_siblings.
Qed.

Lemma kept_workspace d d' : only_at workspace d d' -> kept config op d0 d -> kept config op d0 d'.
Proof using Y.
  intros Ho Hk. eapply root_kept; [apply Y|eapply only_at_below; [apply workspace_below|exact Ho]|apply Ho, workspace_apart|exact Hk].
Qed.

Lemma root_facts prepared : P_Root prepared = PathJoin [workspace; "payload"] ->
  IsAbs (P_Root prepared) = true /\ below (P_Root prepared) (BackupRoot config) /\
  apart (parts jpath) (parts (P_Root prepared)) = true.
Proof using Y.
  intros ->. assert (Ha : IsAbs workspace = true) by (apply IsAbs_PathJoin, (W_abs _ _ (Y_well _ _ _ Y))).
  destruct (below_join workspace "payload" Ha) as [i Hi]; [by apply plain_name|].
  destruct workspace_below as [j Hj]. split; [by apply IsAbs_PathJoin|]. rewrite Hi. split.
  - exists (j ++ i). by rewrite Hi, Hj, app_assoc.
  - apply apart_below, workspace_apart.
Qed.

(** A transaction whose journal is on the disk. *)
Definition installed (t : RestoreTransaction) (d : node) : Prop :=
  exists es d1, prep config op d0 d1 order es /\ T_Closed t = false /\
    same_entries (J_Entries (T_Journal t)) es /\ journal_for config es d.

Lemma installed_workspace t d d' : only_at workspace d d' -> installed t d -> installed t d'.
Proof using Y.
  intros Ho (es & d1 & Hp & Hc & Hs & Hj). exists es, d1. split_and!; try done.
  eapply journal_for_root; [|exact Hj]. apply Ho, workspace_apart.
Qed.

Lemma restore_prepared_run value now id prepared w r w' :
  K_operation tokens = Ok value -> op = hex_encode value -> valid_id id = true -> IsZero now = false ->
  P_Root prepared = PathJoin [workspace; "payload"] -> kept config op d0 (tables w) ->
  restore_prepared config tokens now id prepared w = (r, w') ->
  ends_safely config d0 r (tables w') /\ (forall t, r = Ok t -> installed t (tables w')).
Proof using Y no_journal.
  intros Hv Hop Hid Hnow Hroot Hk E. destruct (root_facts _ Hroot) as (Ha & Hb & Hap).
  unfold restore_prepared in E. rewrite Hv in E. cbn [randomBackupID] in E. rewrite <- Hop in E. unfold bind, ret in E.
  destruct (prepare_entries config prepared op w) as [r1 w1] eqn:E1.
  eapply prepare_entries_run in E1 as [Hk1 Hok1]; [|apply Y|exact Ha|exact Hb|exact Hap|apply Y|exact Hk].
  destruct r1 as [es|err]; [|injection E as <- <-; split; [left; eapply safe_kept; [exact no_journal|exact Hk1]|done]].
  destruct (Hok1 es eq_refl) as [Hp Hlen]. destruct (Y_tokens _ _ _ Y) as (_ & Hft & Htok).
  eapply install_all_run in E as [He Hok]; [split; [exact He|]|apply Y|apply Y|exact no_journal|exact Hp|exact Hlen|done|exact Hft|exact Htok|exact Hid|exact Hnow].
  intros t Ht. destruct (Hok t Ht) as (Hc & Hs & _ & Hj & _). by exists es, (tables w1).
Qed.

Lemma RestoreOffline_run value now id passphrase w r w' :
  tables w = d0 -> K_operation tokens = Ok value -> op = hex_encode value -> valid_id id = true -> IsZero now = false ->
  RestoreOffline scrypt yaml quick_check config tokens now id passphrase w = (r, w') ->
  ends_safely config d0 r (tables w') /\ (forall t, r = Ok t -> installed t (tables w')).
Proof using Y no_journal.
  intros Hw Hv Hop Hid Hnow E. assert (Ha := W_abs _ _ (Y_well _ _ _ Y)).
  assert (Hk0 : kept config op d0 d0) by (split; [done|by apply Forall_true]).
  assert (Hsafe : forall d e, kept config op d0 d -> ends_safely config d0 (Fail e) d /\
    (forall t, Fail e = Ok t -> installed t d)) by (intros d e Hd; split; [left; by eapply safe_kept|done]).
  unfold RestoreOffline, bind in E. destruct (exists_at jpath w) as [r1 w1] eqn:E1.
  apply exists_at_run in E1 as (found & -> & Ht1 & _ & Hyes & _). rewrite Hw in Ht1, Hyes.
  destruct found as [[]|err]; [by rewrite no_journal in Hyes; destruct (Hyes eq_refl)| |injection E as <- <-; rewrite Ht1; auto].
  destruct (Get config id w1) as [r2 w2] eqn:E2.
  assert (Ho2 := confined_Get config workspace id _ _ _ E2). rewrite Ht1 in Ho2.
  assert (Hk2 := kept_workspace _ _ Ho2 Hk0).
  destruct r2 as [info|err]; [|injection E as <- <-; auto].
  destruct (prepare _ _ _ _ _ _ _ w2) as [r3 w3] eqn:E3.
  assert (Hk3 := kept_workspace _ _ (confined_prepare config scrypt yaml quick_check _ _ _ Ha _ _ _ E3) Hk2).
  destruct r3 as [prepared|err]; [|injection E as <- <-; auto].
  unfold finally, bind in E. destruct (attempt _ w3) as [r4 w4] eqn:E4. apply attempt_run in E4 as (done & E4 & ->).
  eapply restore_prepared_run in E4 as [He4 Hi4]; [|exact Hv|exact Hop|exact Hid|exact Hnow|by eapply prepare_root|exact Hk3].
  destruct (ignoring _ w4) as [r5 w5] eqn:E5.
  assert (Ho5 : only_at workspace (tables w4) (tables w5)).
  { unfold Cleanup in E5. rewrite (prepare_workspace _ _ _ _ _ _ _ _ _ _ E3) in E5.
    eapply confined_ignoring, E5. auto with files. }
  apply ignoring_run in E5 as (-> & _). assert (r = done /\ w' = w5) as [-> ->] by (destruct done; by injection E).
  split; [|intros t Ht; eapply installed_workspace; [exact Ho5|by apply Hi4]].
  destruct He4 as [Hs|[Hn He]].
  - left. eapply safe_below; [apply Y|apply workspace_below|apply workspace_apart|exact Ho5|exact Hs].
  - right. split; [|done]. rewrite Ho5; [done|]. apply workspace_apart.
Qed.
End ready.

(** C5: a restore that stops anywhere loses nothing: from a disk without a
    pending restore, [RestoreOffline] under any schedule of faults, followed by
    any number of recoveries under schedules of their own and then one without
    faults, ends with no journal and with every target - configuration,
    database, sidecars, identity, trusted keys and certificates - as it was
    before. The one exception is a restore whose own rollback reported an
    error and that could still remove the journal, which a process that
    stopped cannot do. *)
Theorem interrupted_restore_recovers tokens value now id passphrase schedules w r w' :
  K_operation tokens = Ok value ->
  restore_ready (hex_encode value) (tables w) tokens ->
  valid_id id = true -> IsZero now = false ->
  at_path jpath (tables w) = None ->
  RestoreOffline scrypt yaml quick_check config tokens now id passphrase w = (r, w') ->
  (at_path jpath (tables w') = None /\ exists err x xs, r = Fail (errors_Join err (x :: xs))) \/
  exists d, RecoverInterruptedRestore config (World (recovered_under config schedules (tables w')) []) = (Ok tt, World d []) /\
    at_path jpath d = None /\
    Forall (fun target => at_path target.1 d = at_path target.1 (tables w)) order.
Proof.
  intros Hv Y Hid Hnow Hno E.
  eapply RestoreOffline_run in E as [[Hs|Hl] _]; [right|by left|exact Y|exact Hno|reflexivity|exact Hv|reflexivity|exact Hid|exact Hnow].
  eapply safe_recovers; [apply Y|exact Hs].
Qed.

(** C6: a restore takes effect as a whole: when [RestoreOffline] returned a
    transaction and [Commit] then ran under any schedule of faults, either the
    journal is gone and every target holds what the restore put there, and no
    later recovery changes it; or the journal is still there and recovery, after
    any number of interrupted attempts, gives every target what it held before
    the restore. *)
Theorem restore_commits_atomically tokens value now id passphrase schedules faults w t w' r w2 :
  K_operation tokens = Ok value ->
  restore_ready (hex_encode value) (tables w) tokens ->
  valid_id id = true -> IsZero now = false ->
  at_path jpath (tables w) = None ->
  RestoreOffline scrypt yaml quick_check config tokens now id passphrase w = (Ok t, w') ->
  Commit config t (World (tables w') faults) = (r, w2) ->
  exists d, RecoverInterruptedRestore config (World (recovered_under config schedules (tables w2)) []) = (Ok tt, World d []) /\
    at_path jpath d = None /\
    if is_none (at_path jpath (tables w2))
    then Forall (fun target => at_path target.1 d = at_path target.1 (tables w')) order
    else Forall (fun target => at_path target.1 d = at_path target.1 (tables w)) order.
Proof.
  intros Hv Y Hid Hnow Hno E Ec. set (op := hex_encode value) in *.
  eapply RestoreOffline_run in E as [He Hi]; [|exact Y|exact Hno|reflexivity|exact Hv|reflexivity|exact Hid|exact Hnow].
  destruct He as [Hs|[_ (x & y & ys & [=])]]. destruct (Hi t eq_refl) as (es & d1 & Hp & Hcl & Hse & Hj).
  assert (W := Y_well _ _ _ Y). assert (Ha := W_abs _ _ W).
  unfold Commit in Ec. rewrite Hcl in Ec. unfold bind in Ec.
  destruct (remove_if_there jpath _) as [r1 w1] eqn:E1. unfold remove_if_there, bind in E1.
  destruct (attempt _ _) as [r0 w0] eqn:E0. apply attempt_run in E0 as (done & E0 & ->).
  apply Remove_run in E0 as (Ho0 & _ & Hr0); [|by apply jpath_ne]. cbn [tables] in Ho0, Hr0.
  destruct Hj as (j & [Hjv (mode & Hat)] & _).
  destruct done as [u|err].
  - injection E1 as <- <-. destruct (Sync _ w0) as [r2 w2'] eqn:E2. apply Sync_run in E2 as [Ht2 _].
    assert (Hfin : at_path jpath (tables w2) = None /\
      Forall (fun target => at_path target.1 (tables w2) = at_path target.1 (tables w')) order).
    { assert (Hroot := only_jpath config Ha _ _ Ho0).
      assert (Hw0 : Forall (fun target => at_path target.1 (tables w0) = at_path target.1 (tables w')) order).
      { apply Forall_forall. intros u' Hu. apply Hroot. by eapply target_outside. }
      destruct r2 as [u2|err]; [|injection Ec as <- <-; by rewrite Ht2].
      destruct (drop_all _ w2') as [r3 w3] eqn:E3. assert (w2 = w3) as -> by (destruct r3; by injection Ec).
      assert (Hu3 := cto_drop_all _ _ _ _ E3). rewrite Ht2, (leftovers_same _ _ Hse) in Hu3. split.
      - rewrite Hu3; [done|]. apply Forall_forall. intros p Hpl. rewrite apart_sym.
        eapply outside_journal; [exact Ha|eapply prep_outside; [exact W|exact Hp]|].
        apply list_elem_of_In, in_flat_map in Hpl as (e & He & Hpl). apply list_elem_of_In, in_flat_map.
        exists e. split; [done|]. unfold entry_paths. by right.
      - rewrite Forall_forall in *. intros u' Hu. rewrite <- Hw0 by done. apply Hu3. apply Forall_forall. intros p Hpl.
        by eapply leftovers_apart. }
    destruct Hfin as [Hn Hf]. rewrite Hn. cbn [is_none].
    destruct (safe_recovers config op (tables w2) W schedules (tables w2)) as (d & Er & Hnd & Hd).
    { apply (safe_kept config op (tables w2) (tables w2) Hn). split; [done|by apply Forall_true]. }
    exists d. split; [exact Er|]. split; [exact Hnd|]. rewrite Forall_forall in *. intros u' Hu. rewrite Hd by done. by apply Hf.
  - destruct Hr0 as (Ht0 & Hx & _). destruct (is_not_exist err) eqn:Ex; [by rewrite Hx in Hat|].
    injection E1 as <- <-. injection Ec as <- <-. rewrite Ht0, Hat. cbn [is_none].
    eapply safe_recovers; [exact W|exact Hs].
Qed.
End offline.

(** ** Deciding that a configuration is fit for a restore *)

Definition separate_b (e f : restoreEntry) : bool :=
  forallb (fun p => forallb (fun q => apart (parts p) (parts q)) (entry_paths f)) (entry_paths e).

Fixpoint pairs_b (l : list restoreEntry) : bool :=
  match l with [] => true | e :: l => forallb (separate_b e) l && pairs_b l end.

Definition well_configured_b (config : Config) (op : string) : bool :=
  let full := map (full_entry op) (restore_order config) in
  IsAbs (BackupRoot config) && forallb (fun t => clean_target t.1) (restore_order config) && pairs_b full
  && forallb (fun p => apart (parts p) (parts (BackupRoot config))) (all_paths full) && valid_id op.

Lemma well_configured_sound config op : well_configured_b config op = true -> well_configured config op.
Proof.
  unfold well_configured_b. rewrite !andb_true_iff. intros [[[[Ha Hc] Hp] Ho] Hop]. split; try done.
  - apply Forall_forall. intros t Ht. rewrite forallb_forall in Hc. by apply Hc, list_elem_of_In.
  - clear -Hp. induction (map (full_entry op) (restore_order config)) as [|e l IH]; [constructor|].
    cbn [pairs_b] in Hp. apply andb_true_iff in Hp as [He Hl]. constructor; [|by apply IH].
    apply Forall_forall. intros f Hf p q Hpe Hqf. rewrite forallb_forall in He.
    assert (Hs := He f (proj1 (list_elem_of_In _ _) Hf)). unfold separate_b in Hs. rewrite forallb_forall in Hs.
    assert (Hx := Hs p (proj1 (list_elem_of_In _ _) Hpe)). rewrite forallb_forall in Hx.
    by apply Hx, list_elem_of_In.
  - intros p Hp'. rewrite forallb_forall in Ho. by apply Ho, list_elem_of_In.
Qed.

(** ** A restore of a concrete panel *)

Section witnesses.
#[local] Existing Instances latin1_case demo_xaead demo_header_json demo_manifest_json demo_info_json demo_archives.

Definition entry_line (e : restoreEntry) : list (Z + string) :=
  [inr (E_Target e); inr (E_Candidate e); inr (E_Previous e); inr (E_Kind e); flag (E_HadOld e); flag (E_Installed e)].

Fixpoint line_entries (l : list (Z + string)) : option (list restoreEntry) :=
  match l with
  | [] => Some []
  | inr t :: inr c :: inr p :: inr k :: inl h :: inl i :: l =>
      match line_entries l with Some es => Some (mkEntry t c p k (h =? 1) (i =? 1) :: es) | None => None end
  | _ => None
  end.

Definition line_journal (l : list (Z + string)) : option restoreJournal :=
  match l with
  | inl schema :: inr id :: inl created :: l =>
      match line_entries l with Some es => Some (mkJournal schema id created es) | None => None end
  | _ => None
  end.

#[local] Instance demo_journal_json : JSON restoreJournal.
Proof.
  refine (fields_json (fun j => inl (J_SchemaVersion j) :: inr (J_BackupID j) :: inl (J_CreatedAt j)
    :: flat_map entry_line (J_Entries j)) line_journal _).
  intros [schema id created es]. cbn.
  assert (line_entries (flat_map entry_line es) = Some es) as ->; [|done].
  induction es as [|[? ? ? ? [] []] es IH]; [done|..]; cbn; by rewrite IH.
Defined.

Definition demo_panel : Config :=
  mkConfig "/panel" "/panel/config.yaml" "/panel/myadmin.db" "/panel/certs" "/backups" 100000 10.

Definition demo_key : string := "0123456789abcdef0123456789abcdef".

Definition demo_yaml (content : string) : option (list (string * yaml_value)) :=
  Some [("system", YamlMap [("port", YamlOther "8089"); ("jwtSecret", YamlString demo_key);
    ("credentialKey", YamlString (demo_key +:+ demo_key)); ("certificatePath", YamlString "/panel/certs")])].

Definition demo_check (content : string) : result string := Ok "ok".

Definition panel_disk (content : string) (backups : gmap string node) : node :=
  DirNode 493 {["panel" := DirNode 493 {["config.yaml" := FileNode 384 content; "myadmin.db" := FileNode 384 content]};
                "backups" := DirNode 448 backups]}.

(** A backup of the first contents. *)
Definition demo_created : result BackupInfo * world node :=
  Create demo_scrypt demo_yaml demo_check "1.0" demo_panel
    (mkRandom (Ok (repeat 18 16)) (Ok (repeat 1 16)) (Ok (repeat 2 16)) "a" "b" "c")
    7 (Some "first") demo_pass false (World (panel_disk "first" ∅) []).

Definition backups_of (disk : node) : gmap string node :=
  match at_path "/backups" disk with Some (DirNode _ entries) => entries | _ => ∅ end.

(** The panel has moved on since. *)
Definition demo_before : node := panel_disk "second" (backups_of (tables demo_created.2)).

Definition demo_tokens : restore_tokens := mkTokens "p" (Ok (repeat 255 16)) "f" (fun _ => "j").
Definition demo_backup_id : string := "12121212121212121212121212121212".

Definition demo_restore (faults : list (option string)) : result RestoreTransaction * world node :=
  RestoreOffline demo_scrypt demo_yaml demo_check demo_panel demo_tokens 9 demo_backup_id demo_pass (World demo_before faults).

(** The machine stops when the database is between its two names. *)
Definition demo_crash : list (option string) := repeat None 70 ++ repeat (Some "stopped") 60.

Lemma demo_ready : restore_ready demo_panel (hex_encode (repeat 255 16)) demo_before demo_tokens.
Proof.
  split; [apply well_configured_sound; vm_compute; reflexivity| | |].
  - apply Forall_forall. intros t Ht.
    assert (H : forallb (fun t => is_none (at_path (previous_of t.1 (hex_encode (repeat 255 16))) demo_before))
      (restore_order demo_panel) = true) by (vm_compute; reflexivity).
    rewrite forallb_forall in H. apply list_elem_of_In, H in Ht. by destruct (at_path _ demo_before).
  - repeat constructor.
  - split; [done|]. split; [done|]. by intros n.
Qed.

Lemma demo_no_journal : at_path (restoreJournalPath demo_panel) demo_before = None.
Proof. vm_compute. reflexivity. Qed.

Lemma interrupted_restore_recovers_witness :
  let run := demo_restore demo_crash in
  at_path "/panel/myadmin.db" (tables run.2) = None /\
  exists d, RecoverInterruptedRestore demo_panel (World (recovered_under demo_panel [demo_crash] (tables run.2)) [])
      = (Ok tt, World d []) /\
    at_path "/panel/myadmin.db" d = at_path "/panel/myadmin.db" demo_before.
Proof.
  intros run. destruct run as [r w] eqn:E.
  assert (Hx : at_path "/panel/myadmin.db" (tables run.2) = None /\ is_none (at_path (restoreJournalPath demo_panel) (tables run.2)) = false)
    by (vm_compute; split; reflexivity).
  rewrite E in Hx. cbn [snd] in Hx |- *. destruct Hx as [Hdb Hj]. split; [exact Hdb|].
  destruct (interrupted_restore_recovers demo_scrypt demo_yaml demo_check demo_panel demo_tokens (repeat 255 16) 9
    demo_backup_id demo_pass [demo_crash] (World demo_before demo_crash) r w) as [[Hn _]|(d & Hr & _ & Hall)].
  - reflexivity.
  - exact demo_ready.
  - vm_compute. reflexivity.
  - reflexivity.
  - exact demo_no_journal.
  - exact E.
  - rewrite Hn in Hj. discriminate.
  - exists d. split; [exact Hr|]. rewrite Forall_forall in Hall. apply (Hall ("/panel/myadmin.db", "database")).
    apply list_elem_of_In. right. left. reflexivity.
Defined.

Definition demo_restored : result RestoreTransaction * world node := demo_restore [].

(** The restore is committed while a later removal fails. *)
Definition then_commit (run : result RestoreTransaction * world node) : result RestoreTransaction * world node :=
  match run with
  | (Ok t, w') => Commit demo_panel t (World (tables w') [None; None; Some "busy"])
  | (Fail e, w') => (Fail e, w')
  end.

Definition demo_committed : result RestoreTransaction * world node := then_commit demo_restored.

Lemma restore_commits_atomically_witness :
  exists d, RecoverInterruptedRestore demo_panel (World (recovered_under demo_panel [] (tables demo_committed.2)) [])
      = (Ok tt, World d []) /\
    at_path "/panel/myadmin.db" d = Some (FileNode 384 "first").
Proof.
  assert (Hok : is_ok demo_restored.1 = true /\ at_path "/panel/myadmin.db" (tables demo_restored.2) = Some (FileNode 384 "first"))
    by (vm_compute; split; reflexivity).
  assert (Hn : is_none (at_path (restoreJournalPath demo_panel) (tables demo_committed.2)) = true) by (vm_compute; reflexivity).
  unfold demo_committed in *. destruct demo_restored as [[t|err] w'] eqn:E; [|by destruct Hok as [[=] _]].
  cbn [fst snd] in Hok. destruct Hok as [_ Hdb].
  unfold then_commit in *. destruct (Commit demo_panel t _) as [r w2] eqn:Ec. cbn [snd] in *.
  destruct (restore_commits_atomically demo_scrypt demo_yaml demo_check demo_panel demo_tokens (repeat 255 16) 9
    demo_backup_id demo_pass [] [None; None; Some "busy"] (World demo_before []) t w' r w2) as (d & Hr & _ & Hall).
  - reflexivity.
  - exact demo_ready.
  - vm_compute. reflexivity.
  - reflexivity.
  - exact demo_no_journal.
  - exact E.
  - exact Ec.
  - rewrite Hn in Hall. exists d. split; [exact Hr|]. rewrite <- Hdb. rewrite Forall_forall in Hall.
    apply (Hall ("/panel/myadmin.db", "database")). apply list_elem_of_In. right. left. reflexivity.
Defined.

(** A rename that fails, and fails again in the rollback: the journal goes all
    the same, the database has lost its name, and nothing asks for a recovery. *)
Lemma a_failed_rollback_drops_the_journal :
  exists faults, let run := demo_restore faults in
    is_ok run.1 = false /\ at_path "/panel/myadmin.db" (tables run.2) = None /\
    (NeedsRecovery demo_panel (World (tables run.2) [])).1 = Ok false /\
    (RecoverInterruptedRestore demo_panel (World (tables run.2) [])).1 = Ok tt.
Proof.
  exists (repeat None 70 ++ [Some "input/output error"; Some "input/output error"; None; None; None; Some "input/output error"]).
  vm_compute. split_and!; reflexivity.
Qed.

(** An entry whose kind is empty passes for any target: the map has no kind for it. *)
Lemma an_entry_without_a_kind_is_valid :
  validRestoreEntry demo_panel
    (mkEntry "/etc/passwd" (candidate_of "/etc/passwd" demo_key) (previous_of "/etc/passwd" demo_key) "" false true) = true.
Proof. vm_compute. reflexivity. Qed.

(** Recovery with the default certificate directory, when the configuration is
    aside: the journal of a restore with certificates elsewhere is refused. *)
Lemma recovery_refuses_other_certificates :
  let fallback := mkConfig "/panel" "/panel/config.yaml" "/panel/myadmin.db" "/panel/certificates" "/backups" 100000 10 in
  let entry := mkEntry "/panel/certs" (candidate_of "/panel/certs" demo_key) (previous_of "/panel/certs" demo_key)
    "certificates" true true in
  validRestoreEntry demo_panel entry = true /\ validRestoreEntry fallback entry = false.
Proof. vm_compute. split; reflexivity. Qed.
End witnesses.
