(* ===== verification/Preview.v ===== *)
(** Operation previews ([internal/services/operationpreview/service.go]): a
    high-risk operation is first described, sealed and stored; executing it
    consumes the stored record, once, by the same account and in time.

    [encoding/json] is represented by [reencode], what unmarshalling a payload
    and marshalling it again yields, and by the codec of [Document]. *)

From S2P Require Import Prelude GoStrings GoText GoCrypto Store Credential.
From stdpp Require Import options.
#[local] Open Scope Z_scope.

Definition credentialPurpose : string := "operation-preview.payload".
Definition defaultTTL : duration := 5 * Minute.

Definition ErrNotFound : string := "operation preview not found".
Definition ErrExpired : string := "operation preview expired".
Definition ErrConsumed : string := "operation preview already consumed".

Record Review := mkReview { Required : bool; RiskLevel : string; Reason : string }.
Record FileChange := mkFileChange {
  Path : string; FileAction : string; ChangeSummary : string; Diff : string }.
Record Action := mkAction {
  Type_ : string; Name : string; DisplayCommand : string; ServiceName : string }.
Record Precheck := mkPrecheck { PrecheckName : string; PrecheckStatus : string; PrecheckMessage : string }.
Record Impact := mkImpact {
  WriteFiles : bool; ModifyDatabase : bool; RestartService : bool; ReloadService : bool;
  NetworkRisk : bool }.
Record Rollback := mkRollback { Supported : bool; Summary : string; Unrecoverable : list string }.

Record Document := mkDocument {
  PreviewID : string; Operation : string; DocReview : Review; Files : list FileChange;
  Actions : list Action; Prechecks : list Precheck; DocImpact : Impact; DocRollback : Rollback;
  DocExpiresAt : time
}.

(** [models.OperationPreview]. *)
Record OperationPreview := mkOperationPreview {
  ID : string; RecordOperation : string; UserID : Z; RequestHash : string;
  ResourceVersion : string; EncryptedPayload : string; PreviewJSON : string; ExpiresAt : time;
  ConsumedAt : option time; CreatedAt : time
}.

Abbreviation PreviewTables := (list OperationPreview).

(** [encoding/json] as the service uses it. *)
Class DocumentCodec := {
  reencode : string -> result (option string);  (* [None]: not an object *)
  marshal_document : Document -> string;
  unmarshal_document : string -> result Document;
  document_roundtrip d : unmarshal_document (marshal_document d) = Ok d
}.

Section service.
Context `{!AEAD} `{!DocumentCodec}.

Definition NormalizePayload (payload : string) : result (string * string) :=
  let payload := if String.eqb payload "" then "{}" else payload in
  match reencode payload with
  | Fail err => Fail (Wrap "payload must be valid JSON: " err "")
  | Ok None => Fail (ErrorString "payload must be a JSON object")
  | Ok (Some normalized) => Ok (normalized, hex_encode (sha256 (bytes_of normalized)))
  end.

Definition insert_preview (r : OperationPreview) (t : PreviewTables) : result (unit * PreviewTables) :=
  if existsb (fun q => String.eqb (ID q) (ID r)) t then
    Fail (ErrorString "UNIQUE constraint failed: operation_preview.id")
  else Ok (tt, t ++ [r]).

Definition with_identity (document : Document) (id operation : string) (expiresAt : time) : Document :=
  mkDocument id operation (DocReview document) (Files document) (Actions document)
    (Prechecks document) (DocImpact document) (DocRollback document) expiresAt.

(** [uuid] and [nonce] are the random values drawn. *)
Definition Create (key : CredentialKey) (nonce : result (list Z)) (uuid : string) (now : time)
    (operation : string) (userID : Z) (payload : string) (document : Document)
    (resourceVersion : string) : M PreviewTables Document :=
  let operation := TrimSpace operation in
  if String.eqb operation "" || (userID <=? 0) then
    fail (ErrorString "operation and user are required")
  else
    match NormalizePayload payload with
    | Fail err => fail err
    | Ok (normalized, digest) =>
        if negb (CredentialCipherReady key) then
          fail (ErrorString "operation preview encryption is not configured")
        else
          match EncryptCredential key nonce normalized credentialPurpose with
          | Fail err => fail (Wrap "encrypt operation preview payload: " err "")
          | Ok encrypted =>
              let document := with_identity document uuid operation (now + defaultTTL) in
              let* _ := exec (insert_preview
                {| ID := uuid; RecordOperation := operation; UserID := userID;
                   RequestHash := digest; ResourceVersion := TrimSpace resourceVersion;
                   EncryptedPayload := encrypted; PreviewJSON := marshal_document document;
                   ExpiresAt := DocExpiresAt document; ConsumedAt := None; CreatedAt := now |}) in
              ret document
          end
    end.

Definition owned (id : string) (userID : Z) (r : OperationPreview) : bool :=
  String.eqb (ID r) (TrimSpace id) && (UserID r =? userID).

(** The first part of [Consume], up to the update. *)
Definition consume_checks (key : CredentialKey) (now : time) (id : string) (userID : Z)
    : M PreviewTables (OperationPreview * Document * string) :=
  let* found := attempt (first (List.find (owned id userID))) in
  match found with
  | Fail err => if is_not_found err then fail (Sentinel ErrNotFound) else fail err
  | Ok record =>
      if match ConsumedAt record with Some _ => true | None => false end then
        fail (Sentinel ErrConsumed)
      else if negb (After (ExpiresAt record) now) then fail (Sentinel ErrExpired)
      else
        match unmarshal_document (PreviewJSON record) with
        | Fail err => fail err
        | Ok document =>
            match DecryptCredential key (EncryptedPayload record) credentialPurpose with
            | Fail err => fail (Wrap "decrypt operation preview payload: " err "")
            | Ok decrypted => ret (record, document, decrypted)
            end
        end
  end.

(** [UPDATE ... WHERE id = ? AND consumed_at IS NULL], with [RowsAffected]. *)
Definition unconsumed (id : string) (r : OperationPreview) : bool :=
  String.eqb (ID r) id && match ConsumedAt r with Some _ => false | None => true end.

Definition mark_consumed (now : time) (r : OperationPreview) : OperationPreview :=
  mkOperationPreview (ID r) (RecordOperation r) (UserID r) (RequestHash r) (ResourceVersion r)
    (EncryptedPayload r) (PreviewJSON r) (ExpiresAt r) (Some now) (CreatedAt r).

Definition claim_update (now : time) (id : string) (t : PreviewTables) : result (Z * PreviewTables) :=
  Ok (Z.of_nat (List.length (List.filter (unconsumed id) t)),
      map (fun r => if unconsumed id r then mark_consumed now r else r) t).

Definition claim (now : time) (id : string) : M PreviewTables unit :=
  let* affected := exec (claim_update now id) in
  if negb (affected =? 1) then fail (Sentinel ErrConsumed) else ret tt.

Definition Consume (key : CredentialKey) (now : time) (id : string) (userID : Z)
    : M PreviewTables (string * string * Document * string) :=
  let* found := consume_checks key now id userID in
  let '(record, document, decrypted) := found in
  let* _ := claim now (ID record) in
  ret (RecordOperation record, decrypted, document, ResourceVersion record).

Definition Peek (now : time) (id : string) (userID : Z) : M PreviewTables (string * string) :=
  let* found := attempt (first (List.find (owned id userID))) in
  match found with
  | Fail err => if is_not_found err then fail (Sentinel ErrNotFound) else fail err
  | Ok record =>
      if match ConsumedAt record with Some _ => true | None => false end then
        fail (Sentinel ErrConsumed)
      else if negb (After (ExpiresAt record) now) then fail (Sentinel ErrExpired)
      else ret (RecordOperation record, ResourceVersion record)
  end.
End service.

(** ** Specification *)

Definition unique_ids (t : PreviewTables) : Prop := NoDup (map ID t).

Definition is_consumed (r : OperationPreview) : bool :=
  match ConsumedAt r with Some _ => true | None => false end.

Lemma find_unique t r id :
  unique_ids t -> In r t -> ID r = id -> List.filter (unconsumed id) t =
    if is_consumed r then [] else [r].
Proof.
  unfold unique_ids, is_consumed. intros Hu Hin <-. induction t as [|x t IH]; [done|].
  cbn in Hu. apply NoDup_cons in Hu as [Hx Hu]. cbn [List.filter].
  assert (Hnone : forall y, ID y ∉ map ID t -> List.filter (unconsumed (ID y)) t = []).
  { intros y Hy. clear -Hy. induction t as [|z t IH]; [done|]. cbn in *.
    apply not_elem_of_cons in Hy as [Hz Hy]. unfold unconsumed at 1.
    destruct (String.eqb_spec (ID z) (ID y)); [congruence|]. by apply IH. }
  destruct Hin as [->|Hin].
  - rewrite Hnone by done. unfold unconsumed. rewrite String.eqb_refl. by destruct (ConsumedAt r).
  - unfold unconsumed at 1. destruct (String.eqb_spec (ID x) (ID r)) as [E|E]; [|by apply IH].
    exfalso. apply Hx. rewrite E. by apply list_elem_of_In, in_map.
Qed.

Lemma consume_checks_Ok `{!AEAD} `{!DocumentCodec} key now id user w record doc text w' :
  consume_checks key now id user w = (Ok (record, doc, text), w') ->
  tables w' = tables w /\ In record (tables w) /\ ID record = TrimSpace id /\ UserID record = user /\
  ConsumedAt record = None /\ now < ExpiresAt record /\
  unmarshal_document (PreviewJSON record) = Ok doc /\
  DecryptCredential key (EncryptedPayload record) credentialPurpose = Ok text.
Proof.
  intros Hrun. unfold consume_checks in Hrun. run_inv.
  match goal with Hf : first _ _ = (?r, _) |- _ => destruct r as [rec|err] end.
  2: { by destruct (is_not_found err). }
  run_inv. match goal with Hf : List.find _ _ = Some _ |- _ =>
    apply find_some in Hf as [Hin Ho] end.
  unfold owned in Ho. bool_props. destruct (ConsumedAt rec) eqn:Ec; [done|].
  destruct (After (ExpiresAt rec) now) eqn:Ea; cbn [negb] in Hrun; [|done].
  destruct (unmarshal_document (PreviewJSON rec)) as [d|] eqn:Ed; [|done].
  destruct (DecryptCredential _ _ _) as [x|] eqn:Ex; [|done]. run_inv. simplify_eq.
  unfold After in Ea. bool_props. split_and!; done.
Qed.

Lemma claim_run now id w r w' :
  claim now id w = (r, w') ->
  match r with
  | Ok _ => List.length (List.filter (unconsumed id) (tables w)) = 1%nat /\
      tables w' = map (fun r => if unconsumed id r then mark_consumed now r else r) (tables w)
  | Fail _ => tables w' = tables w \/
      tables w' = map (fun r => if unconsumed id r then mark_consumed now r else r) (tables w)
  end.
Proof.
  unfold claim, bind, exec, statement. destruct (next_fault w) as [[s|] w1] eqn:E;
    apply next_fault_tables in E; [intros [= <- <-]; auto|].
  unfold claim_update. rewrite E.
  destruct (Z.eqb_spec (Z.of_nat (List.length (List.filter (unconsumed id) (tables w)))) 1) as [En|En];
    cbn [negb]; intros [= <- <-]; cbn [tables]; [split; [lia|done]|auto].
Qed.

(** ** Concurrent consumers

    Any number of consumers of the record [id] may be past the checks; their
    updates run in some order, with any faults. *)
Fixpoint claims (nows : list time) (id : string) (w : world PreviewTables)
    : list (result unit) * world PreviewTables :=
  match nows with
  | [] => ([], w)
  | now :: nows =>
      let '(r, w1) := claim now id w in
      let '(rs, w2) := claims nows id w1 in (r :: rs, w2)
  end.

Definition winners (rs : list (result unit)) : nat := List.length (List.filter is_ok rs).

Lemma filter_marked now id t :
  List.filter (unconsumed id) (map (fun r => if unconsumed id r then mark_consumed now r else r) t) = [].
Proof.
  induction t as [|r t IH]; [done|]. cbn. destruct (unconsumed id r) eqn:E.
  - unfold unconsumed at 1. cbn. by rewrite andb_false_r.
  - by rewrite E.
Qed.

Lemma claims_none nows id : forall w rs w',
  claims nows id w = (rs, w') -> List.filter (unconsumed id) (tables w) = [] -> winners rs = 0%nat.
Proof.
  induction nows as [|now nows IH]; intros w rs w' Hrun Hf; cbn in Hrun; [by injection Hrun as <- <-|].
  destruct (claim now id w) as [r w1] eqn:Ec. destruct (claims nows id w1) as [rs1 w2] eqn:Er.
  injection Hrun as <- <-. apply claim_run in Ec. destruct r as [u|e].
  - destruct Ec as [Hlen _]. by rewrite Hf in Hlen.
  - cbn. eapply IH; [exact Er|]. destruct Ec as [->| ->]; [done|]. apply filter_marked.
Qed.

Lemma claims_at_most_one nows id : forall w rs w',
  claims nows id w = (rs, w') -> (winners rs <= 1)%nat.
Proof.
  induction nows as [|now nows IH]; intros w rs w' Hrun; cbn in Hrun; [injection Hrun as <- <-; cbn; lia|].
  destruct (claim now id w) as [r w1] eqn:Ec. destruct (claims nows id w1) as [rs1 w2] eqn:Er.
  injection Hrun as <- <-. apply claim_run in Ec. destruct r as [u|e]; unfold winners; cbn.
  - destruct Ec as [_ Ht]. pose proof (claims_none _ _ _ _ _ Er) as Hn.
    rewrite Ht, filter_marked in Hn. specialize (Hn eq_refl). unfold winners in Hn. lia.
  - by eapply IH.
Qed.

Lemma claim_wins now id t r :
  unique_ids t -> In r t -> ID r = id -> ConsumedAt r = None ->
  claim now id (World t []) =
    (Ok tt, World (map (fun r => if unconsumed id r then mark_consumed now r else r) t) []).
Proof.
  intros Hu Hin Hid Hc. unfold claim. run_clean. unfold claim_update. cbv beta iota.
  rewrite (find_unique t r id) by done. unfold is_consumed. by rewrite Hc.
Qed.

(** ** Properties of previews *)

Section preview_properties.
Context `{!AEAD} `{!DocumentCodec}.

(** C33: single use. However many executions of the same preview are past
    the checks, in whatever order their updates run and whatever fails, at
    most one of them wins; without faults and starting from an unconsumed
    record, exactly the first one does. *)
Theorem preview_claimed_at_most_once nows id :
  (forall w, (winners (claims nows id w).1 <= 1)%nat) /\
  (forall t r, unique_ids t -> In r t -> ID r = id -> ConsumedAt r = None -> nows <> [] ->
     exists rest, (claims nows id (World t [])).1 = Ok tt :: rest /\ winners rest = 0%nat).
Proof.
  split.
  - intros w. destruct (claims nows id w) as [rs w'] eqn:E. by apply claims_at_most_one in E.
  - intros t r Hu Hin Hid Hc Hne. destruct nows as [|now nows]; [done|]. cbn [claims].
    rewrite (claim_wins now id t r Hu Hin Hid Hc).
    destruct (claims nows id _) as [rs w'] eqn:E. exists rs. split; [done|].
    eapply claims_none; [exact E|]. apply filter_marked.
Qed.

(** An execution gets exactly what was previewed. A preview that was
    created can, without faults, be consumed by the same account until it
    expires, and yields the operation, the normalised payload, the document
    and the resource version it was created with; from then on it is
    reported as consumed, and to any other account it does not exist. *)
Theorem preview_roundtrip key nonce uuid now op user payload doc version t d w later
  (Hnonce : List.length nonce = NonceSize) (Hbytes : Forall is_byte nonce)
  (Huuid : TrimSpace uuid = uuid) (Huniq : unique_ids t)
  (Hcreate : Create (Some key) (Ok nonce) uuid now op user payload doc version (World t []) = (Ok d, w))
  (Hlater : later < now + defaultTTL) :
  exists text digest w',
    NormalizePayload payload = Ok (text, digest) /\
    PreviewID d = uuid /\ DocExpiresAt d = now + defaultTTL /\ Operation d = TrimSpace op /\
    Consume (Some key) later uuid user w = (Ok (TrimSpace op, text, d, TrimSpace version), w') /\
    (Consume (Some key) later uuid user w').1 = Fail (Sentinel ErrConsumed) /\
    (forall other, other <> user ->
       (Consume (Some key) later uuid other w).1 = Fail (Sentinel ErrNotFound)).
Proof.
  unfold Create in Hcreate. destruct (_ || _); [done|].
  destruct (NormalizePayload payload) as [[text digest]|]; [|done]. cbn [CredentialCipherReady negb] in Hcreate.
  destruct (EncryptCredential (Some key) (Ok nonce) text credentialPurpose) as [sealed|] eqn:Es; [|done].
  rewrite bind_exec in Hcreate. unfold insert_preview in Hcreate. cbn [ID] in Hcreate.
  destruct (existsb _ t) eqn:Ex; [done|]. injection Hcreate as Hd Hw.
  set (record := mkOperationPreview _ _ _ _ _ _ _ _ _ _) in Hw.
  assert (Hfresh : Forall (fun q => String.eqb (ID q) uuid = false) t) by (by apply existsb_false_Forall).
  assert (Hskip : forall (f : OperationPreview -> bool) l, (forall q, String.eqb (ID q) uuid = false -> f q = false) ->
    List.find f (t ++ l) = List.find f l).
  { intros f l Hf. clear -Hfresh Hf. induction Hfresh as [|q t Hq _ IH]; [done|]. cbn. by rewrite Hf. }
  assert (Hfind : forall other, List.find (owned uuid other) (t ++ [record]) =
    if user =? other then Some record else None).
  { intros other. rewrite Hskip.
    - cbn. unfold owned. cbn [ID UserID record]. rewrite Huuid, String.eqb_refl. by destruct (user =? other).
    - intros q Hq. unfold owned. by rewrite Huuid, Hq. }
  assert (Hdec : DecryptCredential (Some key) sealed credentialPurpose = Ok text).
  { destruct (credential_decrypts key nonce text credentialPurpose Hnonce Hbytes) as (s & Hs & Hd').
    rewrite Hs in Es. by injection Es as ->. }
  assert (Hin : In record (t ++ [record])) by (apply in_or_app; right; by left).
  assert (Hu' : unique_ids (t ++ [record])).
  { unfold unique_ids. rewrite map_app. apply NoDup_app. split_and!; [done| |apply NoDup_singleton].
    intros x Hx ->%list_elem_of_singleton. apply list_elem_of_In, in_map_iff in Hx as (q & Hq & Hqin).
    rewrite Forall_forall in Hfresh. apply list_elem_of_In, Hfresh in Hqin.
    rewrite Hq in Hqin. cbn in Hqin. by rewrite String.eqb_refl in Hqin. }
  exists text, digest, (World (map (fun r => if unconsumed uuid r then mark_consumed later r else r)
    (t ++ [record])) []).
  rewrite <- Hd, <- Hw. do 4 (split; [done|]). split; [|split].
  - assert (Hchecks : consume_checks (Some key) later uuid user (World (t ++ [record]) []) =
      (Ok (record, with_identity doc uuid (TrimSpace op) (now + defaultTTL), text),
       World (t ++ [record]) [])).
    { unfold consume_checks. run_clean. rewrite Hfind, Z.eqb_refl. cbn [ConsumedAt record ExpiresAt].
      unfold After. cbn [DocExpiresAt with_identity]. rewrite (proj2 (Z.ltb_lt _ _) Hlater).
      cbn [negb PreviewJSON EncryptedPayload record]. by rewrite document_roundtrip, Hdec. }
    unfold Consume. unfold bind at 1. rewrite Hchecks. unfold bind. cbn [ID record].
    by rewrite (claim_wins later uuid (t ++ [record]) record).
  - unfold Consume, consume_checks. run_clean. rewrite map_app. cbn [map].
    assert (Hrec : unconsumed uuid record = true) by (unfold unconsumed; cbn; by rewrite String.eqb_refl).
    rewrite Hrec.
    assert (Hmap : map (fun r => if unconsumed uuid r then mark_consumed later r else r) t = t).
    { clear -Hfresh. induction Hfresh as [|q t Hq _ IH]; [done|]. cbn. unfold unconsumed at 1.
      rewrite Hq. cbn. by rewrite IH. }
    rewrite Hmap, Hskip.
    + cbn [List.find]. unfold owned. cbn [ID UserID mark_consumed record].
      by rewrite Huuid, String.eqb_refl, Z.eqb_refl.
    + intros q Hq. unfold owned. by rewrite Huuid, Hq.
  - intros other Hne. unfold Consume, consume_checks. run_clean. rewrite Hfind.
    apply not_eq_sym, Z.eqb_neq in Hne. by rewrite Hne.
Qed.
End preview_properties.

(** ** A concrete codec

    Documents are countable; a document is written as the bits of its code. *)

#[global] Instance Review_eq : EqDecision Review. Proof. solve_decision. Defined.
#[global] Instance FileChange_eq : EqDecision FileChange. Proof. solve_decision. Defined.
#[global] Instance Action_eq : EqDecision Action. Proof. solve_decision. Defined.
#[global] Instance Precheck_eq : EqDecision Precheck. Proof. solve_decision. Defined.
#[global] Instance Impact_eq : EqDecision Impact. Proof. solve_decision. Defined.
#[global] Instance Rollback_eq : EqDecision Rollback. Proof. solve_decision. Defined.
#[global] Instance Document_eq : EqDecision Document. Proof. solve_decision. Defined.

#[global] Program Instance Review_countable : Countable Review :=
  inj_countable' (fun r => (Required r, RiskLevel r, Reason r)) (fun '(a, b, c) => mkReview a b c) _.
Next Obligation. by intros []. Qed.
#[global] Program Instance FileChange_countable : Countable FileChange :=
  inj_countable' (fun r => (Path r, FileAction r, ChangeSummary r, Diff r))
    (fun '(a, b, c, d) => mkFileChange a b c d) _.
Next Obligation. by intros []. Qed.
#[global] Program Instance Action_countable : Countable Action :=
  inj_countable' (fun r => (Type_ r, Name r, DisplayCommand r, ServiceName r))
    (fun '(a, b, c, d) => mkAction a b c d) _.
Next Obligation. by intros []. Qed.
#[global] Program Instance Precheck_countable : Countable Precheck :=
  inj_countable' (fun r => (PrecheckName r, PrecheckStatus r, PrecheckMessage r))
    (fun '(a, b, c) => mkPrecheck a b c) _.
Next Obligation. by intros []. Qed.
#[global] Program Instance Impact_countable : Countable Impact :=
  inj_countable' (fun r => (WriteFiles r, ModifyDatabase r, RestartService r, ReloadService r, NetworkRisk r))
    (fun '(a, b, c, d, e) => mkImpact a b c d e) _.
Next Obligation. by intros []. Qed.
#[global] Program Instance Rollback_countable : Countable Rollback :=
  inj_countable' (fun r => (Supported r, Summary r, Unrecoverable r)) (fun '(a, b, c) => mkRollback a b c) _.
Next Obligation. by intros []. Qed.
#[global] Program Instance Document_countable : Countable Document :=
  inj_countable' (fun r => (PreviewID r, Operation r, DocReview r, Files r, Actions r, Prechecks r,
      DocImpact r, DocRollback r, DocExpiresAt r))
    (fun '(a, b, c, d, e, f, g, h, i) => mkDocument a b c d e f g h i) _.
Next Obligation. by intros []. Qed.

Program Definition demo_codec : DocumentCodec := {|
  reencode payload := if HasPrefix payload "{" then Ok (Some payload) else Ok None;
  marshal_document d := bits_of (encode d);
  unmarshal_document s := match decode (of_bits s) with
                          | Some d => Ok d
                          | None => Fail (ErrorString "invalid document")
                          end
|}.
Next Obligation. intros d. cbn. by rewrite of_bits_of, decode_encode. Qed.

Definition demo_document : Document :=
  mkDocument "" "" (mkReview true "high" "") [] [] [] (mkImpact false true false false false)
    (mkRollback false "" []) 0.

Lemma preview_roundtrip_witness :
  exists d w text w', @Create demo_aead demo_codec (Some []) (Ok (repeat 9 12)) "u1" 100 " website.delete" 7 ""
      demo_document "v1" (World [] []) = (Ok d, w) /\
    @Consume demo_aead demo_codec (Some []) 200 "u1" 7 w = (Ok ("website.delete", text, d, "v1"), w').
Proof.
  destruct (@Create demo_aead demo_codec (Some []) (Ok (repeat 9 12)) "u1" 100 " website.delete" 7 ""
    demo_document "v1" (World [] [])) as [[d|e] w] eqn:E; [|discriminate E].
  destruct (@preview_roundtrip demo_aead demo_codec [] (repeat 9 12) "u1" 100 " website.delete" 7 ""
    demo_document "v1" [] d w 200 eq_refl ltac:(repeat constructor; discriminate) eq_refl
    ltac:(constructor) E ltac:(vm_compute; reflexivity))
    as (text & digest & w' & _ & _ & _ & _ & Hc & _).
  exists d, w, text, w'. split; [reflexivity|exact Hc].
Defined.
