(* ===== verification/RateLimit.v ===== *)
(** The sliding-window rate limiter ([router/middleware/ratelimit.go]).

    The visitors are objects behind pointers: [Allow] first finds (or makes)
    the visitor of a key under the map's lock, and then works on the visitor
    under its own lock, while the cleaner may remove the visitor from the map
    in between.  [lookup_visitor] and [visit] are the two parts. *)

From S2P Require Import Prelude GoStrings GoText.
From stdpp Require Import options.
#[local] Open Scope Z_scope.

Record RateLimiter := mkRateLimiter { rate : Z; window : duration }.

Record limiter_state := mkState {
  visitors : gmap string nat;       (* key to pointer *)
  heap : gmap nat (list time);      (* pointer to the visitor's requests *)
  next : nat
}.

Definition NewRateLimiter (rate : Z) (window : duration) : RateLimiter * limiter_state :=
  (mkRateLimiter rate window, mkState ∅ ∅ 0).

Definition normalize_key (key : string) : string :=
  let key := TrimSpace key in if String.eqb key "" then "unknown" else key.

Definition lookup_visitor (key : string) (st : limiter_state) : nat * limiter_state :=
  match visitors st !! normalize_key key with
  | Some p => (p, st)
  | None =>
      (next st, mkState (<[normalize_key key := next st]> (visitors st))
                  (<[next st := []]> (heap st)) (S (next st)))
  end.

(** The work on the visitor; [None] is the panic of [requests[0]] on an empty
    list, which a rate of zero or less leads to. *)
Definition visit (rl : RateLimiter) (now : time) (p : nat) (st : limiter_state)
    : option (bool * duration) * limiter_state :=
  let requests := default [] (heap st !! p) in
  let cutoff := now - window rl in
  let validRequests := List.filter (fun reqTime => After reqTime cutoff) requests in
  if rate rl <=? Z.of_nat (List.length validRequests) then
    (match validRequests with
     | [] => None
     | oldest :: _ =>
         let retryAfter := oldest + window rl - now in
         Some (false, if retryAfter <? 0 then 0 else retryAfter)
     end, mkState (visitors st) (<[p := validRequests]> (heap st)) (next st))
  else
    (Some (true, 0),
     mkState (visitors st) (<[p := validRequests ++ [now]]> (heap st)) (next st)).

Definition Allow (rl : RateLimiter) (key : string) (now : time) (st : limiter_state)
    : option (bool * duration) * limiter_state :=
  let '(p, st) := lookup_visitor key st in visit rl now p st.

Definition IsAllowed (rl : RateLimiter) (ip : string) (now : time) (st : limiter_state)
    : option bool * limiter_state :=
  let '(r, st) := Allow rl ip now st in (option_map fst r, st).

(** One tick of the cleaner. *)
Definition stale (cutoff : time) (requests : list time) : bool :=
  match last requests with None => true | Some t => Before t cutoff end.

Definition cleanup (rl : RateLimiter) (now : time) (st : limiter_state) : limiter_state :=
  let cutoff := now - window rl * 2 in
  mkState (filter (fun kp => stale cutoff (default [] (heap st !! kp.2)) = false) (visitors st))
    (heap st) (next st).

(** [int(math.Ceil(retryAfter.Seconds()))], at least 1. *)
Definition retry_seconds (retryAfter : duration) : Z :=
  Z.max 1 ((retryAfter + Second - 1) / Second).

Inductive limit_verdict :=
  | Pass
  | TooManyRequests (seconds : Z)   (* 429 with [Retry-After] *)
  | Panic.

Definition rateLimitMiddleware (rl : RateLimiter) (key : string) (now : time) (st : limiter_state)
    : limit_verdict * limiter_state :=
  let '(r, st) := Allow rl key now st in
  (match r with
   | None => Panic
   | Some (true, _) => Pass
   | Some (false, retryAfter) => TooManyRequests (retry_seconds retryAfter)
   end, st).

Definition LoginRateLimiter : RateLimiter := mkRateLimiter 5 Minute.
Definition APIRateLimiter : RateLimiter := mkRateLimiter 100 Minute.

(** The key of [APIRateLimitMiddleware]. *)
Definition api_key (clientIP method fullPath path : string) : string :=
  let route := if String.eqb fullPath "" then path else fullPath in
  Join [clientIP; method; route] "|".

(** ** Runs *)

Inductive event :=
  | Request (key : string) (now : time)
  | Tick (now : time).

Definition event_time (e : event) : time := match e with Request _ now => now | Tick now => now end.

(** The accepted requests of a sequence of events, by key, in order. *)
Fixpoint run (rl : RateLimiter) (evs : list event) (st : limiter_state)
    (log : list (string * time)) : list (string * time) * limiter_state :=
  match evs with
  | [] => (log, st)
  | Request key now :: evs =>
      let '(r, st) := Allow rl key now st in
      run rl evs st (match r with
                     | Some (true, _) => log ++ [(normalize_key key, now)]
                     | _ => log
                     end)
  | Tick now :: evs => run rl evs (cleanup rl now st) log
  end.

(** The clock does not run backwards. *)
Fixpoint in_order (now : time) (evs : list event) : Prop :=
  match evs with
  | [] => True
  | e :: evs => now <= event_time e /\ in_order (event_time e) evs
  end.

Definition times (key : string) (log : list (string * time)) : list time :=
  map snd (List.filter (fun e => String.eqb e.1 key) log).

Definition within (s e : time) (ts : list time) : list time :=
  List.filter (fun t => (s <? t) && (t <=? e)) ts.

(** ** The invariant *)

Definition requests_of (st : limiter_state) (key : string) : list time :=
  match visitors st !! key with
  | Some p => default [] (heap st !! p)
  | None => []
  end.

Definition pointers_ok (st : limiter_state) : Prop :=
  (forall k p, visitors st !! k = Some p -> (p < next st)%nat) /\
  (forall k1 k2 p, visitors st !! k1 = Some p -> visitors st !! k2 = Some p -> k1 = k2).

(** What a visitor remembers is a suffix of what was accepted, and what it
    forgot is out of the window. *)
Definition key_ok (rl : RateLimiter) (now : time) (reqs acc : list time) : Prop :=
  StronglySorted Z.le acc /\ Forall (fun t => t <= now) acc /\
  exists dropped, acc = dropped ++ reqs /\ Forall (fun t => t <= now - window rl) dropped.

Definition bounded (rl : RateLimiter) (acc : list time) : Prop :=
  forall s, Z.of_nat (List.length (within s (s + window rl) acc)) <= rate rl.

Definition inv (rl : RateLimiter) (now : time) (st : limiter_state) (log : list (string * time)) : Prop :=
  pointers_ok st /\
  forall key, key_ok rl now (requests_of st key) (times key log) /\ bounded rl (times key log).

Lemma times_snoc key log k t :
  times key (log ++ [(k, t)]) = times key log ++ (if String.eqb k key then [t] else []).
Proof.
  unfold times. rewrite List.filter_app, map_app. cbn. by destruct (String.eqb k key).
Qed.

(** Filtering a sorted list by a lower bound drops a prefix. *)
Lemma filter_after_sorted cutoff l :
  StronglySorted Z.le l ->
  exists pre, l = pre ++ List.filter (fun t => After t cutoff) l /\ Forall (fun t => t <= cutoff) pre.
Proof.
  induction 1 as [|t l Hl IH Ht]; [by exists []|]. cbn. unfold After at 1.
  destruct (Z.ltb_spec cutoff t).
  - exists []. split; [|done]. cbn. f_equal. symmetry.
    clear IH. induction Hl as [|u l Hl IH Hu]; [done|]. apply Forall_cons in Ht as [? Ht]. cbn.
    unfold After at 1. rewrite (proj2 (Z.ltb_lt _ _)) by lia. by rewrite IH.
  - destruct IH as (pre & E & Hp). exists (t :: pre). cbn. split; [by rewrite <- E|].
    constructor; [lia|done].
Qed.

Lemma sorted_app_r (l k : list time) : StronglySorted Z.le (l ++ k) -> StronglySorted Z.le k.
Proof. intros H. by apply StronglySorted_app_inv in H as (_ & ? & _). Qed.

Lemma key_ok_mono rl now now' reqs acc :
  now <= now' -> key_ok rl now reqs acc -> key_ok rl now' reqs acc.
Proof.
  intros Hn (Hs & Hle & dropped & -> & Hd). split; [done|]. split.
  - eapply Forall_impl; [exact Hle|]. intros; cbn in *; lia.
  - exists dropped. split; [done|]. eapply Forall_impl; [exact Hd|]. intros; cbn in *; lia.
Qed.

(** What the visitor keeps after dropping the old requests. *)
Lemma key_ok_filter rl now reqs acc :
  key_ok rl now reqs acc ->
  key_ok rl now (List.filter (fun t => After t (now - window rl)) reqs) acc.
Proof.
  intros (Hs & Hle & dropped & -> & Hd). split; [done|]. split; [done|].
  destruct (filter_after_sorted (now - window rl) reqs) as (pre & E & Hp); [by apply sorted_app_r in Hs|].
  exists (dropped ++ pre). rewrite <- app_assoc, <- E. split; [done|]. by apply Forall_app.
Qed.

Lemma key_ok_accept rl now reqs acc :
  key_ok rl now reqs acc -> key_ok rl now (reqs ++ [now]) (acc ++ [now]).
Proof.
  intros (Hs & Hle & dropped & -> & Hd). split; [by apply StronglySorted_snoc|]. split.
  - apply Forall_app. split; [done|]. constructor; [lia|constructor].
  - exists dropped. by rewrite app_assoc.
Qed.

Lemma within_app s e l k : within s e (l ++ k) = within s e l ++ within s e k.
Proof. apply List.filter_app. Qed.

Lemma within_length s e l : (List.length (within s e l) <= List.length l)%nat.
Proof. apply filter_length_le. Qed.

(** Accepting when fewer than [rate] requests are in the window keeps every
    window bounded. *)
Lemma bounded_accept rl now reqs acc :
  0 <= window rl -> key_ok rl now reqs acc -> bounded rl acc ->
  Forall (fun t => now - window rl < t) reqs -> Z.of_nat (List.length reqs) < rate rl ->
  bounded rl (acc ++ [now]).
Proof.
  intros Hw (Hs & Hle & dropped & -> & Hd) Hb Hreqs Hlen s. specialize (Hb s).
  rewrite within_app, length_app. unfold within at 2. cbn.
  destruct (s <? now) eqn:E1, (now <=? s + window rl) eqn:E2; cbn [andb List.length];
    rewrite ?Nat.add_0_r; try done.
  apply Z.ltb_lt in E1. apply Z.leb_le in E2. rewrite within_app, length_app.
  assert (Hz : within s (s + window rl) dropped = []).
  { clear -Hd E2. induction Hd as [|t l Ht _ IH]; [done|]. unfold within in *. cbn.
    rewrite (proj2 (Z.ltb_ge _ _)) by lia. done. }
  rewrite Hz. pose proof (within_length s (s + window rl) reqs). cbn [List.length]. lia.
Qed.

Lemma lookup_visitor_spec key st p st1 :
  lookup_visitor key st = (p, st1) -> pointers_ok st ->
  pointers_ok st1 /\ visitors st1 !! normalize_key key = Some p /\
  forall k, requests_of st1 k = requests_of st k.
Proof.
  unfold lookup_visitor. intros Hl [Hlt Hinj].
  destruct (visitors st !! normalize_key key) as [q|] eqn:E; injection Hl as <- <-; [done|].
  split; [split|split].
  - cbn. intros k q [[<- <-]|[_ Hq]]%lookup_insert_Some; [lia|]. apply Hlt in Hq. lia.
  - cbn. intros k1 k2 q [[<- <-]|[_ H1]]%lookup_insert_Some [[<- H2]|[_ H2]]%lookup_insert_Some;
      [done| | |by eapply Hinj].
    + apply Hlt in H2. lia.
    + subst. apply Hlt in H1. lia.
  - cbn. by rewrite lookup_insert_eq.
  - intros k. unfold requests_of. cbn. destruct (decide (k = normalize_key key)) as [->|Hne].
    + by rewrite lookup_insert_eq, E, lookup_insert_eq.
    + rewrite lookup_insert_ne by done. destruct (visitors st !! k) as [q|] eqn:Eq; [|done].
      rewrite lookup_insert_ne; [done|]. apply Hlt in Eq. lia.
Qed.

(** The three outcomes of [visit] and what becomes of the requests. *)
Lemma visit_spec rl now p st key r st' :
  visit rl now p st = (r, st') -> pointers_ok st -> visitors st !! key = Some p ->
  let valid := List.filter (fun t => After t (now - window rl)) (requests_of st key) in
  pointers_ok st' /\ visitors st' = visitors st /\
  (forall k, k <> key -> requests_of st' k = requests_of st k) /\
  if rate rl <=? Z.of_nat (List.length valid) then
    requests_of st' key = valid /\
    r = match valid with
        | [] => None
        | oldest :: _ => Some (false, Z.max 0 (oldest + window rl - now))
        end
  else requests_of st' key = valid ++ [now] /\ r = Some (true, 0).
Proof.
  intros Hv [Hlt Hinj] Hp valid.
  assert (Hreq : requests_of st key = default [] (heap st !! p)) by (unfold requests_of; by rewrite Hp).
  unfold visit in Hv. rewrite <- Hreq in Hv. fold valid in Hv.
  assert (Hother : forall l k, k <> key -> requests_of (mkState (visitors st) (<[p := l]> (heap st)) (next st)) k
      = requests_of st k).
  { intros l k Hk. unfold requests_of. cbn. destruct (visitors st !! k) as [q|] eqn:Eq; [|done].
    rewrite lookup_insert_ne; [done|]. intros ->. by apply Hk, (Hinj k key q). }
  assert (Hself : forall l, requests_of (mkState (visitors st) (<[p := l]> (heap st)) (next st)) key = l).
  { intros l. unfold requests_of. cbn. by rewrite Hp, lookup_insert_eq. }
  destruct (rate rl <=? Z.of_nat (List.length valid)); injection Hv as <- <-;
    (split; [done|split; [done|split; [auto|]]]).
  - split; [auto|]. destruct valid as [|oldest rest]; [done|].
    destruct (Z.ltb_spec (oldest + window rl - now) 0); do 2 f_equal; lia.
  - auto.
Qed.

Lemma inv_mono rl now now' st log : now <= now' -> inv rl now st log -> inv rl now' st log.
Proof.
  intros Hn [Hp Hk]. split; [done|]. intros key. destruct (Hk key) as [H1 H2].
  split; [by eapply key_ok_mono|done].
Qed.

Lemma filter_after_Forall cutoff l : Forall (fun t => cutoff < t) (List.filter (fun t => After t cutoff) l).
Proof. apply Forall_forall. intros t [_ Ht]%list_elem_of_In%filter_In. by apply Z.ltb_lt. Qed.

Lemma Allow_inv rl key now st log r st' :
  0 <= window rl -> inv rl now st log -> Allow rl key now st = (r, st') ->
  inv rl now st' (match r with Some (true, _) => log ++ [(normalize_key key, now)] | _ => log end).
Proof.
  intros Hw [Hp Hk] Hrun. unfold Allow in Hrun. destruct (lookup_visitor key st) as [p st1] eqn:El.
  destruct (lookup_visitor_spec _ _ _ _ El Hp) as (Hp1 & Hl1 & Hsame).
  destruct (visit_spec _ _ _ _ _ _ _ Hrun Hp1 Hl1) as (Hp2 & _ & Hother & Hcase).
  split; [done|]. intros k. destruct (Hk k) as [Hok Hb].
  destruct (decide (k = normalize_key key)) as [->|Hne].
  - rewrite <- Hsame in Hok. apply key_ok_filter in Hok as Hok'.
    destruct (rate rl <=? _) eqn:Er in Hcase; destruct Hcase as [Hreq ->]; rewrite Hreq.
    + match goal with |- context [times _ (match ?m with _ => _ end)] =>
        replace (match m with Some (true, _) => log ++ [(normalize_key key, now)] | _ => log end)
          with log by (by destruct (List.filter _ _)) end. done.
    + rewrite times_snoc, String.eqb_refl. split; [by apply key_ok_accept|].
      eapply bounded_accept; [done|exact Hok'|done|apply filter_after_Forall|by apply Z.leb_gt].
  - rewrite Hother, Hsame by done.
    assert (Ht : times k (match r with Some (true, _) => log ++ [(normalize_key key, now)] | _ => log end)
      = times k log).
    { destruct r as [[[] ?]|]; [|done..]. rewrite times_snoc.
      destruct (String.eqb_spec (normalize_key key) k); [congruence|]. by rewrite app_nil_r. }
    by rewrite Ht.
Qed.

Lemma cleanup_inv rl now st log :
  0 <= window rl -> inv rl now st log -> inv rl now (cleanup rl now st) log.
Proof.
  intros Hw [[Hlt Hinj] Hk]. split.
  { split; cbn.
    - intros k p [Hp _]%map_lookup_filter_Some. eauto.
    - intros k1 k2 p [H1 _]%map_lookup_filter_Some [H2 _]%map_lookup_filter_Some. eauto. }
  intros key. destruct (Hk key) as [Hok Hb]. split; [|done].
  unfold requests_of in *. cbn [visitors heap cleanup].
  destruct (visitors st !! key) as [p|] eqn:Ep.
  2: { replace (filter _ (visitors st) !! key) with (@None nat); [done|].
       symmetry. apply map_lookup_filter_None. by left. }
  destruct (stale (now - window rl * 2) (default [] (heap st !! p))) eqn:Es.
  - replace (filter _ (visitors st) !! key) with (@None nat).
    2: { symmetry. apply map_lookup_filter_None. right. intros q Hq. assert (q = p) as -> by congruence.
         cbn. by rewrite Es. }
    destruct Hok as (Hs & Hle & dropped & E & Hd). split; [done|]. split; [done|].
    exists (dropped ++ default [] (heap st !! p)). rewrite app_nil_r. split; [done|].
    apply Forall_app. split; [done|]. rewrite E in Hs. apply sorted_app_r in Hs.
    unfold stale in Es. destruct (last _) as [t|] eqn:El.
    + apply last_snoc_inv in El as [l El]. rewrite El in *. unfold Before in Es. apply Z.ltb_lt in Es.
      apply Forall_app. split; [|constructor; [lia|constructor]].
      apply StronglySorted_app_inv in Hs as (_ & _ & Hs). eapply Forall_impl; [exact Hs|].
      intros u [Hu _]%Forall_cons. lia.
    + apply last_None in El. rewrite El. constructor.
  - replace (filter _ (visitors st) !! key) with (Some p); [done|].
    symmetry. by apply map_lookup_filter_Some.
Qed.

(** Up to a time that no event exceeds. *)
Lemma run_inv_at rl evs : forall start now log st log0 st0,
  0 <= window rl -> in_order start evs -> Forall (fun e => event_time e <= now) evs -> start <= now ->
  inv rl start st0 log0 -> run rl evs st0 log0 = (log, st) -> inv rl now st log.
Proof.
  induction evs as [|[key t|t] evs IH]; intros start now log st log0 st0 Hw Hord Hle Hstart Hinv Hrun;
    cbn in *.
  - injection Hrun as <- <-. by eapply inv_mono.
  - destruct Hord as [Ht Hord]. apply Forall_cons in Hle as [Hle Hrest].
    destruct (Allow rl key t st0) as [r st1] eqn:Ea.
    apply (inv_mono _ _ t) in Hinv; [|done]. pose proof (Allow_inv _ _ _ _ _ _ _ Hw Hinv Ea).
    by eapply (IH t).
  - destruct Hord as [Ht Hord]. apply Forall_cons in Hle as [Hle Hrest].
    apply (inv_mono _ _ t) in Hinv; [|done]. eapply (IH t); [done..| |exact Hrun].
    by apply cleanup_inv.
Qed.

Lemma inv_start rl now : 0 <= rate rl -> inv rl now (mkState ∅ ∅ 0) [].
Proof.
  intros Hr. split; [split; [by intros k p|by intros k1 k2 p]|].
  intros key. split; [|by intros s].
  split; [constructor|]. split; [constructor|]. exists []. split; [done|constructor].
Qed.

Lemma Allow_known rl key now st p :
  visitors st !! normalize_key key = Some p -> Allow rl key now st = visit rl now p st.
Proof. intros Hp. unfold Allow, lookup_visitor. by rewrite Hp. Qed.

Lemma in_order_last start evs :
  in_order start evs -> exists now, start <= now /\ Forall (fun e => event_time e <= now) evs.
Proof.
  revert start. induction evs as [|e evs IH]; intros start; cbn; [by exists start; split; [lia|]|].
  intros [He (now & Hn & Hall)%IH]. exists now. split; [lia|]. by constructor.
Qed.

(** The requests in the window that ends now are those the visitor keeps. *)
Lemma within_now rl now reqs acc :
  key_ok rl now reqs acc -> Forall (fun t => now - window rl < t) reqs ->
  within (now - window rl) now acc = reqs.
Proof.
  intros (_ & Hle & dropped & -> & Hd) Hr. apply Forall_app_inv in Hle as [_ Hle].
  rewrite within_app. assert (Hz : within (now - window rl) now dropped = []).
  { clear -Hd. induction Hd as [|t l Ht _ IH]; [done|]. unfold within in *. cbn.
    by rewrite (proj2 (Z.ltb_ge _ _)) by lia. }
  rewrite Hz. cbn. clear Hz Hd. induction Hr as [|t l Ht _ IH]; [done|].
  apply Forall_cons in Hle as [? Hle]. unfold within in *. cbn.
  rewrite (proj2 (Z.ltb_lt _ _)), (proj2 (Z.leb_le _ _)) by lia. cbn. by rewrite IH.
Qed.

Lemma filter_all cutoff l :
  Forall (fun t => cutoff < t) l -> List.filter (fun t => After t cutoff) l = l.
Proof.
  induction 1 as [|t l Ht _ IH]; [done|]. cbn. unfold After at 1.
  by rewrite (proj2 (Z.ltb_lt _ _) Ht), IH.
Qed.

(** ** Properties of the limiter *)

(** C34: the limit holds. In any sequence of requests and clean-ups in clock
    order, no key ever gets more than [rate] requests accepted in a time span
    of one window, wherever the span starts. *)
Theorem sliding_window_bound rl start evs key s
  (Hrate : 0 <= rate rl) (Hwindow : 0 <= window rl) (Horder : in_order start evs) :
  let accepted := (run rl evs (mkState ∅ ∅ 0) []).1 in
  Z.of_nat (List.length (within s (s + window rl) (times key accepted))) <= rate rl.
Proof.
  destruct (run rl evs (mkState ∅ ∅ 0) []) as [log st] eqn:E. cbn.
  destruct (in_order_last _ _ Horder) as (now & Hs & Hall).
  destruct (run_inv_at _ _ _ _ _ _ _ _ Hwindow Horder Hall Hs (inv_start rl start Hrate) E) as [_ Hk].
  apply Hk.
Qed.

Lemma sliding_window_bound_witness :
  let evs := [Request "ip" 0; Request "ip " 1; Tick 2; Request "ip" 3; Request "ip" 11] in
  let accepted := (run (mkRateLimiter 2 10) evs (mkState ∅ ∅ 0) []).1 in
  times "ip" accepted = [0; 1; 11] /\
  Z.of_nat (List.length (within 0 (0 + 10) (times "ip" accepted))) <= 2.
Proof.
  split; [vm_compute; reflexivity|].
  exact (sliding_window_bound (mkRateLimiter 2 10) 0
    [Request "ip" 0; Request "ip " 1; Tick 2; Request "ip" 3; Request "ip" 11] "ip" 0 ltac:(discriminate) ltac:(discriminate)
    ltac:(repeat split; discriminate)).
Defined.

(** No needless refusal, and an honest [Retry-After]. In every state that
    a run can reach, a request is refused only when the full rate was accepted
    within the window that ends now; refusing leaves no trace, and the same
    key is accepted after exactly the advertised wait and not before. *)
Theorem refusal_is_exact rl start evs log st key now retryAfter st'
  (Hrate : 0 < rate rl) (Hwindow : 0 < window rl) (Horder : in_order start evs)
  (Hrun : run rl evs (mkState ∅ ∅ 0) [] = (log, st))
  (Hnow : Forall (fun e => event_time e <= now) evs) (Hstart : start <= now)
  (Hrefused : Allow rl key now st = (Some (false, retryAfter), st')) :
  Z.of_nat (List.length (within (now - window rl) now (times (normalize_key key) log))) = rate rl /\
  0 < retryAfter <= window rl /\
  (Allow rl key (now + retryAfter) st').1 = Some (true, 0) /\
  forall d, 0 <= d < retryAfter -> (Allow rl key (now + d) st').1 = Some (false, retryAfter - d).
Proof.
  destruct (run_inv_at rl evs start now log st [] (mkState ∅ ∅ 0)) as [Hp Hk];
    try done; [lia|apply inv_start; lia|].
  unfold Allow in Hrefused. destruct (lookup_visitor key st) as [p st1] eqn:El.
  destruct (lookup_visitor_spec _ _ _ _ El Hp) as (Hp1 & Hl1 & Hsame).
  destruct (visit_spec _ _ _ _ _ _ _ Hrefused Hp1 Hl1) as (Hp2 & Hv2 & _ & Hcase).
  destruct (Hk (normalize_key key)) as [Hok Hb]. rewrite <- Hsame in Hok.
  apply key_ok_filter in Hok.
  pose proof (filter_after_Forall (now - window rl) (requests_of st1 (normalize_key key))) as Hafter.
  set (valid := List.filter _ _) in *.
  destruct (rate rl <=? _) eqn:Er in Hcase; [|by destruct Hcase].
  apply Z.leb_le in Er. destruct Hcase as [Hreq Hr].
  pose proof (within_now _ _ _ _ Hok Hafter) as Hwithin. specialize (Hb (now - window rl)).
  replace (now - window rl + window rl) with now in Hb by lia. rewrite Hwithin in *.
  destruct Hok as (Hsorted & Hle & dropped & Eacc & _).
  rewrite Eacc in Hsorted, Hle. apply sorted_app_r in Hsorted. apply Forall_app_inv in Hle as [_ Hle].
  clearbody valid. destruct valid as [|oldest rest]; [done|]. injection Hr as ->.
  apply Forall_cons in Hafter as [Hnew _]. apply Forall_cons in Hle as [Hold _].
  apply StronglySorted_inv in Hsorted as [_ Hsorted].
  rewrite (Z.max_r 0) by lia. split; [lia|]. split; [lia|].
  assert (Hknown : visitors st' !! normalize_key key = Some p) by (by rewrite Hv2).
  assert (Hnext : forall d, (Allow rl key (now + d) st').1 =
    if rate rl <=? Z.of_nat (List.length (List.filter (fun t => After t (now + d - window rl)) (oldest :: rest)))
    then match List.filter (fun t => After t (now + d - window rl)) (oldest :: rest) with
         | [] => None
         | o :: _ => Some (false, Z.max 0 (o + window rl - (now + d)))
         end
    else Some (true, 0)).
  { intros d. rewrite (Allow_known _ _ _ _ p Hknown). destruct (visit rl (now + d) p st') as [r st2] eqn:Ev.
    destruct (visit_spec _ _ _ _ _ _ _ Ev Hp2 Hknown) as (_ & _ & _ & Hc). rewrite Hreq in Hc.
    cbn [fst]. destruct (rate rl <=? _); by destruct Hc. }
  split.
  - rewrite Hnext. set (f := fun t => After t (now + (oldest + window rl - now) - window rl)).
    assert (E : List.filter f (oldest :: rest) = List.filter f rest).
    { cbn. unfold f at 1, After. by rewrite (proj2 (Z.ltb_ge _ _)) by lia. }
    rewrite E. pose proof (filter_length_le f rest). cbn [List.length] in *.
    by rewrite (proj2 (Z.leb_gt _ _)) by lia.
  - intros d Hd. rewrite Hnext, filter_all.
    + rewrite (proj2 (Z.leb_le _ _)) by lia. do 2 f_equal. lia.
    + constructor; [lia|]. eapply Forall_impl; [exact Hsorted|]. intros; cbn in *; lia.
Qed.

Lemma refusal_is_exact_witness :
  let rl := mkRateLimiter 1 10 in
  (Allow rl "ip" 13 (run rl [Request "ip" 5] (mkState ∅ ∅ 0) []).2).1 = Some (false, 2) /\
  (Allow rl "ip" 15 (Allow rl "ip" 13 (run rl [Request "ip" 5] (mkState ∅ ∅ 0) []).2).2).1 = Some (true, 0).
Proof.
  split; [vm_compute; reflexivity|].
  exact (proj1 (proj2 (proj2 (refusal_is_exact (mkRateLimiter 1 10) 0 [Request "ip" 5] [("ip", 5)] _ "ip" 13 2
    _ eq_refl eq_refl ltac:(repeat split; discriminate) eq_refl
    ltac:(repeat constructor; vm_compute; discriminate) ltac:(discriminate) eq_refl)))).
Defined.

(** Between the two parts of [Allow] the cleaner may drop the visitor that was
    just made: the request is then counted on an object that no later request
    finds, and one more than the rate is accepted in the window. *)
Lemma cleaner_race :
  let rl := mkRateLimiter 1 10 in
  let '(p, st) := lookup_visitor "ip" (mkState ∅ ∅ 0) in
  let '(first, st) := visit rl 5 p (cleanup rl 5 st) in
  first = Some (true, 0) /\ (Allow rl "ip" 6 st).1 = Some (true, 0).
Proof. vm_compute. split; reflexivity. Qed.
