(* ===== verification/Session.v ===== *)
(** The session registry ([internal/services/security/session.go]): creation
    with retention, validation, listing and revocation.

    gorm adds [deleted_at IS NULL] to every statement that is not [Unscoped]. *)

From S2P Require Import Prelude GoStrings Store.
From stdpp Require Import sorting options.
#[local] Open Scope Z_scope.

Definition ErrSessionNotFound : string := "session not found".
Definition ErrSessionRevoked : string := "session is revoked".
Definition ErrSessionExpired : string := "session is expired".
Definition ErrSessionVersion : string := "session security version is stale".

(** [models.UserSession]. *)
Record UserSession := mkUserSession {
  ID : string; UserID : Z; Username : string; RemoteIP : string; UserAgent : string;
  SecurityVersion : Z; CreatedAt : time; LastSeenAt : time; ExpiresAt : time;
  RevokedAt : option time; RevocationReason : string; DeletedAt : option time
}.

Abbreviation SessionTables := (list UserSession).

Record NewSession := mkNewSession {
  in_UserID : Z; in_Username : string; in_RemoteIP : string; in_UserAgent : string;
  in_SecurityVersion : Z; in_ExpiresAt : time
}.

Definition is_none {A} (o : option A) : bool := match o with None => true | Some _ => false end.

Definition scoped (r : UserSession) : bool := is_none (DeletedAt r).

(** The rows that the clean-up of [Create] removes, deleted or not. *)
Definition retired (cutoff : time) (r : UserSession) : bool :=
  (ExpiresAt r <? cutoff)
  || match RevokedAt r with Some at' => at' <? cutoff | None => false end.

Definition delete_where (c : UserSession -> bool) (t : SessionTables) : result (unit * SessionTables) :=
  Ok (tt, List.filter (fun r => negb (c r)) t).

Definition update_where (c : UserSession -> bool) (f : UserSession -> UserSession)
    (t : SessionTables) : result (Z * SessionTables) :=
  Ok (Z.of_nat (List.length (List.filter c t)), map (fun r => if c r then f r else r) t).

Definition insert_session (r : UserSession) (t : SessionTables) : result (unit * SessionTables) :=
  if existsb (fun q => String.eqb (ID q) (ID r)) t then
    Fail (ErrorString "UNIQUE constraint failed: user_sessions.id")
  else Ok (tt, t ++ [r]).

(** [random] is what [randomSessionID] returned. *)
Definition Create (random : result string) (now : time) (input : NewSession)
    : M SessionTables UserSession :=
  if (in_UserID input <=? 0) || String.eqb (in_Username input) "" || IsZero (in_ExpiresAt input) then
    fail (ErrorString "session identity and expiry are required")
  else
    match random with
    | Fail err => fail err
    | Ok id =>
        let retentionCutoff := AddDays now (-7) in
        let* _ := attempt (exec (delete_where (retired retentionCutoff))) in
        let version := if in_SecurityVersion input =? 0 then 1 else in_SecurityVersion input in
        let record := {| ID := id; UserID := in_UserID input; Username := in_Username input;
          RemoteIP := in_RemoteIP input; UserAgent := in_UserAgent input;
          SecurityVersion := version; CreatedAt := now; LastSeenAt := now;
          ExpiresAt := in_ExpiresAt input; RevokedAt := None; RevocationReason := "";
          DeletedAt := None |} in
        let* _ := wrapping "create session" (exec (insert_session record)) in
        ret record
    end.

Definition with_last_seen (now : time) (r : UserSession) : UserSession :=
  mkUserSession (ID r) (UserID r) (Username r) (RemoteIP r) (UserAgent r) (SecurityVersion r)
    (CreatedAt r) now (ExpiresAt r) (RevokedAt r) (RevocationReason r) (DeletedAt r).

Definition with_revocation (now : time) (reason : string) (r : UserSession) : UserSession :=
  mkUserSession (ID r) (UserID r) (Username r) (RemoteIP r) (UserAgent r) (SecurityVersion r)
    (CreatedAt r) (LastSeenAt r) (ExpiresAt r) (Some now) reason (DeletedAt r).

Definition effective_version (v : Z) : Z := if v =? 0 then 1 else v.

Definition Validate (now : time) (id : string) (userID securityVersion : Z)
    : M SessionTables UserSession :=
  if String.eqb id "" || (userID <=? 0) then fail (Sentinel ErrSessionNotFound)
  else
    let* found := attempt (first (List.find (fun r =>
      scoped r && String.eqb (ID r) id && (UserID r =? userID)))) in
    match found with
    | Fail err => if is_not_found err then fail (Sentinel ErrSessionNotFound) else fail err
    | Ok record =>
        if negb (is_none (RevokedAt record)) then fail (Sentinel ErrSessionRevoked)
        else if negb (After (ExpiresAt record) now) then fail (Sentinel ErrSessionExpired)
        else if negb (SecurityVersion record =? effective_version securityVersion) then
          fail (Sentinel ErrSessionVersion)
        else if Before (LastSeenAt record) (now - 5 * Minute) then
          let* _ := attempt (exec (update_where (fun r =>
            scoped r && String.eqb (ID r) (ID record) && is_none (RevokedAt r))
            (with_last_seen now))) in
          ret (with_last_seen now record)
        else ret record
    end.

Definition last_seen_first (a b : UserSession) : Prop := LastSeenAt b <= LastSeenAt a.
#[global] Instance last_seen_first_dec : RelDecision last_seen_first.
Proof. intros a b. unfold last_seen_first. apply _. Defined.

Definition active (now : time) (userID : Z) (r : UserSession) : bool :=
  scoped r && (UserID r =? userID) && is_none (RevokedAt r) && (now <? ExpiresAt r).

Definition ListActive (now : time) (userID : Z) : M SessionTables (list UserSession) :=
  read (fun t => merge_sort last_seen_first (List.filter (active now userID) t)).

Definition Revoke (now : time) (userID : Z) (id reason : string) : M SessionTables bool :=
  let* affected := exec (update_where (fun r =>
    scoped r && String.eqb (ID r) id && (UserID r =? userID) && is_none (RevokedAt r))
    (with_revocation now reason)) in
  ret (0 <? affected).

Definition RevokeOthers (now : time) (userID : Z) (currentID reason : string) : M SessionTables Z :=
  exec (update_where (fun r =>
    scoped r && (UserID r =? userID) && negb (String.eqb (ID r) currentID) && is_none (RevokedAt r))
    (with_revocation now reason)).

Definition RevokeAll (now : time) (userID : Z) (reason : string) : M SessionTables Z :=
  exec (update_where (fun r => scoped r && (UserID r =? userID) && is_none (RevokedAt r))
    (with_revocation now reason)).

(** ** Specification *)

Inductive operation :=
  | OpCreate (random : result string) (now : time) (input : NewSession)
  | OpValidate (now : time) (id : string) (userID version : Z)
  | OpList (now : time) (userID : Z)
  | OpRevoke (now : time) (userID : Z) (id reason : string)
  | OpRevokeOthers (now : time) (userID : Z) (currentID reason : string)
  | OpRevokeAll (now : time) (userID : Z) (reason : string).

(** The tables after an operation, whatever it answered. *)
Definition perform (op : operation) (w : world SessionTables) : world SessionTables :=
  match op with
  | OpCreate random now input => (Create random now input w).2
  | OpValidate now id userID version => (Validate now id userID version w).2
  | OpList now userID => (ListActive now userID w).2
  | OpRevoke now userID id reason => (Revoke now userID id reason w).2
  | OpRevokeOthers now userID currentID reason => (RevokeOthers now userID currentID reason w).2
  | OpRevokeAll now userID reason => (RevokeAll now userID reason w).2
  end.

Definition perform_all (ops : list operation) (w : world SessionTables) : world SessionTables :=
  fold_left (fun w op => perform op w) ops w.

(** The random identifier of a new session is not [id]. *)
Definition creates_no (id : string) (op : operation) : Prop :=
  match op with OpCreate (Ok new) _ _ => new <> id | _ => True end.

(** Every row with this identifier is revoked. *)
Definition dead (id : string) (t : SessionTables) : Prop :=
  Forall (fun r => ID r = id -> RevokedAt r <> None) t.

Lemma exec_tables {A} (f : SessionTables -> result (A * SessionTables)) w r w' :
  exec f w = (r, w') -> tables w' = tables w \/ exists a, r = Ok a /\ f (tables w) = Ok (a, tables w').
Proof.
  intros E. destruct r as [a|e].
  - right. exists a. split; [done|]. by apply statement_Ok in E.
  - left. by apply statement_Fail in E as [? _].
Qed.

Lemma dead_update id (c : UserSession -> bool) f t :
  (forall r, ID (f r) = ID r) -> (forall r, RevokedAt r <> None -> RevokedAt (f r) <> None) ->
  dead id t -> dead id (map (fun r : UserSession => if c r then f r else r) t).
Proof.
  intros Hid Hrev Hd. unfold dead. rewrite Forall_map_iff. eapply Forall_impl; [exact Hd|].
  intros r Hr. cbn. destruct (c r); [|done]. rewrite Hid. auto.
Qed.

Lemma exec_update_dead id c f w r w' :
  (forall r, ID (f r) = ID r) -> (forall r, RevokedAt r <> None -> RevokedAt (f r) <> None) ->
  exec (update_where c f) w = (r, w') -> dead id (tables w) -> dead id (tables w').
Proof.
  intros Hid Hrev E Hd. apply exec_tables in E as [->|(a & _ & E)]; [done|].
  injection E as _ <-. by apply dead_update.
Qed.

Lemma Create_dead id random now input w :
  creates_no id (OpCreate random now input) -> dead id (tables w) ->
  dead id (tables (Create random now input w).2).
Proof.
  intros Hne Hd. unfold Create. destruct (_ || _); [done|]. destruct random as [new|]; [|done].
  unfold bind, attempt, wrapping.
  destruct (exec (delete_where _) w) as [r1 w1] eqn:E1.
  assert (Hd1 : dead id (tables w1)).
  { apply exec_tables in E1 as [->|(a & _ & E)]; [done|]. injection E as _ <-. unfold dead in *.
    rewrite Forall_forall in *. intros r Hr. apply list_elem_of_In, filter_In in Hr as [Hr _].
    by apply Hd, list_elem_of_In. }
  destruct (exec (insert_session _) w1) as [r2 w2] eqn:E2.
  assert (Hd2 : dead id (tables w2)).
  { apply exec_tables in E2 as [->|(a & _ & E)]; [done|]. unfold insert_session in E.
    destruct (existsb _ _); [done|]. injection E as _ <-. unfold dead in *.
    apply Forall_app. split; [done|]. constructor; [|constructor]. cbn. intros Hid.
    exfalso. by apply Hne. }
  by destruct r2.
Qed.

Lemma Validate_dead id now i u v w :
  dead id (tables w) -> dead id (tables (Validate now i u v w).2).
Proof.
  intros Hd. unfold Validate. destruct (_ || _); [done|]. unfold bind at 1, attempt at 1.
  match goal with |- context [first ?f w] => destruct (first f w) as [r w1] eqn:E end.
  apply first_tables in E. rewrite <- E in Hd.
  destruct r as [record|e]; [|by destruct (is_not_found e)].
  destruct (negb _); [done|]. destruct (negb _); [done|]. destruct (negb _); [done|].
  destruct (Before _ _); [|done]. unfold bind, attempt.
  match goal with |- context [exec ?f w1] => destruct (exec f w1) as [r2 w2] eqn:E2 end.
  cbn. by eapply (exec_update_dead id _ (with_last_seen now)); [| |exact E2|].
Qed.

Lemma perform_dead id op w :
  creates_no id op -> dead id (tables w) -> dead id (tables (perform op w)).
Proof.
  intros Hne Hd. destruct op; cbn [perform].
  - by apply Create_dead.
  - by apply Validate_dead.
  - unfold ListActive. match goal with |- context [read ?f w] => destruct (read f w) as [r w1] eqn:E end.
    apply read_tables in E. cbn. by rewrite E.
  - unfold Revoke, bind. match goal with |- context [exec ?f w] => destruct (exec f w) as [r w1] eqn:E end.
    assert (dead id (tables w1)) by (by eapply (exec_update_dead id _ (with_revocation now reason));
      [| |exact E|]). by destruct r.
  - unfold RevokeOthers. match goal with |- context [exec ?f w] => destruct (exec f w) as [r w1] eqn:E end.
    by eapply (exec_update_dead id _ (with_revocation now reason)); [| |exact E|].
  - unfold RevokeAll. match goal with |- context [exec ?f w] => destruct (exec f w) as [r w1] eqn:E end.
    by eapply (exec_update_dead id _ (with_revocation now reason)); [| |exact E|].
Qed.

Lemma perform_all_dead id ops : forall w,
  Forall (creates_no id) ops -> dead id (tables w) -> dead id (tables (perform_all ops w)).
Proof.
  induction ops as [|op ops IH]; intros w Hne Hd; [done|].
  apply Forall_cons in Hne as [Hop Hne]. apply IH; [done|]. by apply perform_dead.
Qed.

(** What a successful validation establishes, under any faults. *)
Lemma Validate_Ok now id user version w r w' :
  Validate now id user version w = (Ok r, w') ->
  exists stored, In stored (tables w) /\ ID stored = id /\ UserID stored = user /\
    DeletedAt stored = None /\ RevokedAt stored = None /\ now < ExpiresAt stored /\
    SecurityVersion stored = effective_version version /\
    (r = stored \/ r = with_last_seen now stored).
Proof.
  unfold Validate. destruct (_ || _); [done|]. unfold bind at 1, attempt at 1.
  match goal with |- context [first ?f w] => destruct (first f w) as [r1 w1] eqn:E end.
  destruct r1 as [stored|e]; [|by destruct (is_not_found e)].
  apply first_Ok in E as [Hf _]. apply find_some in Hf as [Hin Hc]. unfold scoped in Hc. bool_props.
  destruct (DeletedAt stored) eqn:Ed; [done|].
  destruct (RevokedAt stored) eqn:Er; [done|]. cbn [is_none negb].
  destruct (After (ExpiresAt stored) now) eqn:Ea; cbn [negb]; [|done]. apply Z.ltb_lt in Ea.
  destruct (SecurityVersion stored =? _) eqn:Ev; cbn [negb]; [|done]. apply Z.eqb_eq in Ev.
  destruct (Before _ _).
  - unfold bind, attempt. match goal with |- context [exec ?f w1] => destruct (exec f w1) as [r2 w2] end.
    intros [= <- <-]. exists stored. split_and!; auto.
  - intros [= <- <-]. exists stored. split_and!; auto.
Qed.

(** What a successful creation leaves: some of the old rows, and the new one
    under an identifier that none of them has. *)
Lemma Create_Ok random now input w r w' :
  Create random now input w = (Ok r, w') ->
  exists kept, random = Ok (ID r) /\ 0 < in_UserID input /\ in_Username input <> "" /\
    r = mkUserSession (ID r) (in_UserID input) (in_Username input) (in_RemoteIP input)
      (in_UserAgent input) (effective_version (in_SecurityVersion input)) now now
      (in_ExpiresAt input) None "" None /\
    tables w' = kept ++ [r] /\
    forall s, In s kept -> In s (tables w) /\ ID s <> ID r.
Proof.
  unfold Create. destruct (_ || _) eqn:Eg; [done|]. bool_props. destruct random as [id|]; [|done].
  intros E. apply bind_Ok in E as (u & w1 & E1%attempt_Ok & E).
  apply bind_Ok in E as ([] & w2 & E2%wrapping_Ok & E). apply ret_Ok in E as [<- ->].
  assert (Hsub : forall s, In s (tables w1) -> In s (tables w)).
  { apply exec_tables in E1 as [->|(a & _ & E1)]; [done|]. injection E1 as _ <-.
    intros s Hs. by apply filter_In in Hs as [Hs _]. }
  apply statement_Ok in E2. unfold insert_session in E2.
  destruct (existsb _ _) eqn:Ed; [discriminate E2|]. injection E2 as <-. cbn [ID].
  exists (tables w1). split_and!; [done|lia|done|done|done|]. intros s Hs. split; [auto|].
  apply existsb_false_Forall in Ed. rewrite Forall_forall in Ed.
  specialize (Ed s). cbn in Ed. apply String.eqb_neq, Ed. by apply list_elem_of_In.
Qed.

(** Without faults a live row that its identifier names first validates. *)
Lemma Validate_live now t r version :
  List.find (fun q => scoped q && String.eqb (ID q) (ID r) && (UserID q =? UserID r)) t = Some r ->
  ID r <> "" -> 0 < UserID r -> RevokedAt r = None -> now < ExpiresAt r ->
  SecurityVersion r = effective_version version ->
  exists r' t', Validate now (ID r) (UserID r) version (World t []) = (Ok r', World t' []).
Proof.
  intros Hf Hid Hu Hr He Hv. unfold Validate.
  rewrite (proj2 (String.eqb_neq _ _) Hid). destruct (UserID r <=? 0) eqn:E; [lia|].
  cbn [orb]. run_clean. rewrite Hf, Hr. cbn [is_none negb]. unfold After.
  rewrite (proj2 (Z.ltb_lt _ _) He), Hv, Z.eqb_refl. cbn [negb].
  destruct (Before _ _); [|by eexists _, _]. unfold bind, attempt. rewrite run_exec. cbn.
  by eexists _, _.
Qed.

(** ** Properties of sessions *)

(** A revoked session stays revoked. Once every row with an identifier is
    revoked, no sequence of operations, with whatever faults, makes the
    identifier valid again, unless the random generator repeats it. *)
Theorem revocation_is_permanent id ops w now user version
  (Hfresh : Forall (creates_no id) ops) (Hdead : dead id (tables w)) :
  forall r w', Validate now id user version (perform_all ops w) <> (Ok r, w').
Proof.
  intros r w' Hv. apply Validate_Ok in Hv as (s & Hin & Hid & _ & _ & Hrev & _).
  pose proof (perform_all_dead id ops w Hfresh Hdead) as Hd. unfold dead in Hd.
  rewrite Forall_forall in Hd. by apply (Hd s) in Hrev; [|by apply list_elem_of_In|].
Qed.

Lemma Forall2_update (c : UserSession -> bool) f t :
  Forall2 (fun r r' => if c r then r' = f r else r' = r) t (map (fun r => if c r then f r else r) t).
Proof. induction t as [|r t IH]; cbn; constructor; [|done]. by destruct (c r). Qed.

Lemma run_update (c d : UserSession -> bool) f t :
  (forall r, c r = d r) ->
  exec (update_where c f) (World t []) =
    (Ok (Z.of_nat (List.length (List.filter d t))),
     World (map (fun r => if d r then f r else r) t) []).
Proof.
  intros E. rewrite run_exec. unfold update_where. rewrite (List.filter_ext c d) by done.
  by rewrite (map_ext (fun r => if c r then f r else r) (fun r => if d r then f r else r))
    by (intros r; by rewrite E).
Qed.

(** What the revocations reach. Without faults, revoking one session,
    all but the current one, or all, revokes exactly the live sessions it
    names, reports how many they were, and leaves every other row untouched;
    after revoking all, no session of the account validates. *)
Theorem revocations_reach now user id reason t :
  let target (c : UserSession -> bool) t' := Forall2 (fun r r' => if c r then r' = with_revocation now reason r else r' = r) t t' in
  let live r := scoped r && (UserID r =? user) && is_none (RevokedAt r) in
  let count c := Z.of_nat (List.length (List.filter c t)) in
  (exists t', Revoke now user id reason (World t []) =
       (Ok (0 <? count (fun r => live r && String.eqb (ID r) id)), World t' []) /\
     target (fun r => live r && String.eqb (ID r) id) t') /\
  (exists t', RevokeOthers now user id reason (World t []) =
       (Ok (count (fun r => live r && negb (String.eqb (ID r) id))), World t' []) /\
     target (fun r => live r && negb (String.eqb (ID r) id)) t') /\
  (exists t', RevokeAll now user reason (World t []) = (Ok (count live), World t' []) /\
     target live t' /\
     forall id' now' version r w', Validate now' id' user version (World t' []) <> (Ok r, w')).
Proof.
  intros target live count. split_and!.
  - exists (map (fun r => if live r && String.eqb (ID r) id then with_revocation now reason r else r) t).
    split; [|apply (Forall2_update (fun r => live r && String.eqb (ID r) id))].
    unfold Revoke, bind. rewrite (run_update _ (fun r => live r && String.eqb (ID r) id)); [done|].
    intros r. unfold live.
    by destruct (scoped r), (UserID r =? user), (is_none (RevokedAt r)), (String.eqb (ID r) id).
  - exists (map (fun r => if live r && negb (String.eqb (ID r) id) then with_revocation now reason r else r) t).
    split; [|apply (Forall2_update (fun r => live r && negb (String.eqb (ID r) id)))].
    unfold RevokeOthers. rewrite (run_update _ (fun r => live r && negb (String.eqb (ID r) id))); [done|].
    intros r. unfold live.
    by destruct (scoped r), (UserID r =? user), (is_none (RevokedAt r)), (String.eqb (ID r) id).
  - exists (map (fun r => if live r then with_revocation now reason r else r) t).
    split; [|split; [apply (Forall2_update live)|]].
    + unfold RevokeAll. by rewrite (run_update _ live).
    + intros id' now' version r w' Hv. apply Validate_Ok in Hv
        as (s & Hin & _ & Hu & Hd & Hr & _). cbn [tables] in Hin.
      apply in_map_iff in Hin as (q & Hq & _). destruct (live q) eqn:El.
      * rewrite <- Hq in Hr. discriminate Hr.
      * subst s. unfold live, scoped in El. rewrite Hd, Hr, Hu, Z.eqb_refl in El. discriminate El.
Qed.

Definition demo_session : NewSession := mkNewSession 7 "ops" "10.0.0.1" "curl" 1 1000.

Lemma revocation_is_permanent_witness :
  let w := (Revoke 5 7 "s1" "logout" (Create (Ok "s1") 3 demo_session (World [] [])).2).2 in
  is_ok (Validate 9 "s1" 7 1
    (perform_all [OpCreate (Ok "s2") 6 demo_session; OpValidate 7 "s1" 7 1; OpList 8 7] w)).1 = false.
Proof.
  intros w. destruct (Validate _ _ _ _ _) as [[r|e] w'] eqn:E; [|done]. exfalso. revert E.
  apply (revocation_is_permanent "s1" [OpCreate (Ok "s2") 6 demo_session; OpValidate 7 "s1" 7 1; OpList 8 7]
    w 9 7 1).
  - repeat constructor; discriminate.
  - vm_compute. repeat constructor; discriminate.
Defined.
