(* ===== verification/Totp.v ===== *)
(** Two-factor authentication ([internal/services/security/totp.go]): TOTP
    (RFC 6238 over HMAC-SHA-1, executable), recovery codes, and their life
    cycle from set-up to disabling.

    Random bytes, bcrypt's comparison and the JSON list of recovery-code
    hashes are parameters; the credential envelope is [Credential]. *)

From S2P Require Import Prelude GoStrings GoText GoCrypto Store Credential Access.
From S2P Require Session.
From stdpp Require Import options.
#[local] Open Scope Z_scope.

Definition totpIssuer : string := "Oneinstack Panel".
Definition totpDigits : Z := 6.
Definition totpPeriodSeconds : Z := 30.
Definition recoveryCodeCount : nat := 10.
Definition recoveryCodeByteCount : nat := 7.

Definition ErrMFAUnavailable : string := "multi-factor authentication is not configured".
Definition ErrMFAAlreadyEnabled : string := "multi-factor authentication is already enabled".
Definition ErrMFANotEnabled : string := "multi-factor authentication is not enabled".
Definition ErrInvalidSecondFactor : string := "invalid verification or recovery code".
Definition ErrInvalidPassword : string := "invalid current password".

(** [models.UserMFA]. *)
Record UserMFA := mkUserMFA {
  UserID : Z; Enabled : bool; SecretEncrypted : string; PendingSecretEncrypted : string;
  RecoveryCodeHashesJSON : string; RecoveryCodesGeneration : Z; LastTOTPCounter : Z
}.

Record SecurityTables := mkSecurityTables {
  sec_users : list User; mfa : list UserMFA; sec_sessions : list Session.UserSession
}.

Record SecurityStatus := mkSecurityStatus {
  TOTPEnabled : bool; TOTPSetupPending : bool; RecoveryCodesRemaining : Z;
  MustChangePassword : bool
}.

(** [json.Marshal] and [json.Unmarshal] of a list of strings. *)
Class HashListCodec := {
  marshal_hashes : list string -> string;
  unmarshal_hashes : string -> result (list string);
  hashes_roundtrip l : unmarshal_hashes (marshal_hashes l) = Ok l;
  hashes_not_blank l : TrimSpace (marshal_hashes l) <> ""
}.

Definition credentialPurpose (base : string) (userID : Z) : string :=
  base +:+ ":user:" +:+ Itoa userID.

Section codes.
Context `{!UnicodeCase}.

(** [fmt.Sprintf("%06d", n)] for [0 <= n]. *)
Definition six_digits (n : Z) : string :=
  let s := digits n in
  sconcat (repeat "0" (6 - String.length s)) +:+ s.

Definition byte_at (l : list Z) (i : Z) : Z := nth (Z.to_nat i) l 0.

Definition totpAt (secret : string) (counter : Z) : option string :=
  match base32_decode (ToUpper (TrimSpace secret)) with
  | None => None
  | Some decoded =>
      let sum := hmac_sha1 decoded (be64 (u64 counter)) in
      let offset := Z.land (byte_at sum (Z.of_nat (List.length sum) - 1)) 15 in
      let number :=
        Z.lor (Z.lor (Z.lor (u32 (Z.shiftl (Z.land (byte_at sum offset) 127) 24))
                            (u32 (Z.shiftl (byte_at sum (offset + 1)) 16)))
                     (u32 (Z.shiftl (byte_at sum (offset + 2)) 8)))
              (byte_at sum (offset + 3)) in
      Some (six_digits (number mod 1000000))
  end.

Fixpoint matching_offset (secret code : string) (counter : Z) (offsets : list Z) : option Z :=
  match offsets with
  | [] => None
  | offset :: offsets =>
      let candidateCounter := counter + offset in
      match totpAt secret candidateCounter with
      | Some expected =>
          if String.eqb expected code then Some candidateCounter
          else matching_offset secret code counter offsets
      | None => matching_offset secret code counter offsets
      end
  end.

Definition matchingTOTPCounter (secret code : string) (at' : time) : option Z :=
  let code := TrimSpace code in
  if negb (len code =? totpDigits) then None
  else if negb (forallb (fun r => (48 <=? r) && (r <=? 57)) (runes code)) then None
  else matching_offset secret code (Z.quot (Unix at') totpPeriodSeconds) [-1; 0; 1].

Definition validateTOTP (secret code : string) (at' : time) : bool :=
  match matchingTOTPCounter secret code at' with Some _ => true | None => false end.
End codes.

(** ** Recovery codes *)

(** The loop of [generateRecoveryCodes]: an encoding shorter than ten
    characters is skipped; [random] is the sequence of 7-byte draws. *)
Fixpoint generateRecoveryCodes (random : list (result (list Z))) (codes : list string)
    : result (list string) :=
  if (recoveryCodeCount <=? List.length codes)%nat then Ok codes
  else
    match random with
    | [] => Ok codes
    | Fail err :: _ => Fail err
    | Ok bytes :: random =>
        let value := base32_encode bytes in
        if len value <? 10 then generateRecoveryCodes random codes
        else generateRecoveryCodes random
               (codes ++ [String.substring 0 5 value +:+ "-" +:+ String.substring 5 5 value])
    end.

Section recovery.
Context `{!UnicodeCase}.

Definition recoveryCodeHash (key : CredentialKey) (userID : Z) (code : string) : result string :=
  let code := ToUpper (ReplaceAll1 (TrimSpace code) "-" "") in
  match DeriveCredentialSubkey key (credentialPurpose CredentialPurposeRecoveryCode userID) with
  | Fail err => Fail err
  | Ok subkey => Ok (hex_encode (hmac_sha256 subkey (bytes_of code)))
  end.

Fixpoint hashRecoveryCodes (key : CredentialKey) (userID : Z) (codes : list string)
    : result (list string) :=
  match codes with
  | [] => Ok []
  | code :: codes =>
      match recoveryCodeHash key userID code with
      | Fail err => Fail err
      | Ok hash =>
          match hashRecoveryCodes key userID codes with
          | Fail err => Fail err
          | Ok hashes => Ok (hash :: hashes)
          end
      end
  end.

(** The loop of [consumeRecoveryCode]: the first equal hash is removed. *)
Fixpoint remove_first (candidate : string) (hashes : list string) : option (list string) :=
  match hashes with
  | [] => None
  | hash :: hashes =>
      if String.eqb hash candidate then Some hashes
      else option_map (cons hash) (remove_first candidate hashes)
  end.

Definition consumeRecoveryCode (key : CredentialKey) (userID : Z) (hashes : list string)
    (code : string) : result (bool * list string) :=
  match recoveryCodeHash key userID code with
  | Fail err => Fail err
  | Ok candidate =>
      match remove_first candidate hashes with
      | Some updated => Ok (true, updated)
      | None => Ok (false, hashes)
      end
  end.

Context `{!HashListCodec}.

Definition decodeRecoveryHashes (value : string) : result (list string) :=
  if String.eqb (TrimSpace value) "" then Ok []
  else match unmarshal_hashes value with
       | Fail err => Fail (Wrap "decode recovery code hashes: " err "")
       | Ok hashes => Ok hashes
       end.
End recovery.

(** The hash that a recovery code consumes. *)
Lemma remove_first_Some candidate hashes updated :
  remove_first candidate hashes = Some updated ->
  exists l1 l2, hashes = l1 ++ candidate :: l2 /\ ~ In candidate l1 /\ updated = l1 ++ l2.
Proof.
  revert updated. induction hashes as [|h hashes IH]; intros updated; cbn; [done|].
  destruct (String.eqb_spec h candidate) as [->|Hne].
  - intros [= ->]. exists [], updated. split_and!; [done|intros []|done].
  - destruct (remove_first candidate hashes) as [u|]; [|done]. intros [= <-].
    destruct (IH u eq_refl) as (l1 & l2 & -> & Hl1 & ->). exists (h :: l1), l2.
    split_and!; [done| |done]. cbn. tauto.
Qed.

Lemma remove_first_In candidate hashes updated :
  remove_first candidate hashes = Some updated -> In candidate hashes.
Proof.
  intros (l1 & l2 & -> & _ & _)%remove_first_Some. apply in_or_app. right. by left.
Qed.

Lemma remove_first_complete candidate hashes :
  In candidate hashes -> exists updated, remove_first candidate hashes = Some updated.
Proof.
  induction hashes as [|h hashes IH]; [done|]. cbn.
  destruct (String.eqb_spec h candidate) as [->|Hne]; [eauto|].
  intros [->|Hin]; [done|]. destruct (IH Hin) as [u ->]. cbn. eauto.
Qed.

(** ** New recovery codes *)

Lemma b32_char_visible v : 0 <= v < 32 -> visible (b32_char v) = true.
Proof.
  intros Hv. unfold visible, b32_char.
  destruct (Z.ltb_spec v 26); rewrite byte_of_byte by lia; apply andb_true_iff; lia.
Qed.

(** What one draw of seven bytes gives. *)
Lemma draw_code bytes :
  List.length bytes = recoveryCodeByteCount -> Forall is_byte bytes ->
  let value := base32_encode bytes in
  let code := String.substring 0 5 value +:+ "-" +:+ String.substring 5 5 value in
  len value = 12 /\ len code = 11 /\ sforall visible code = true.
Proof.
  intros Hl Hb. unfold recoveryCodeByteCount in Hl.
  do 8 (destruct bytes as [|?b bytes]; try discriminate Hl).
  repeat match goal with H : Forall _ (_ :: _) |- _ => apply Forall_cons in H as [? H] end.
  unfold is_byte in *. cbv zeta. split_and!; [done|done|]. cbn.
  repeat match goal with |- context [visible (b32_char ?v)] => rewrite (b32_char_visible v) end;
    try done; Z.to_euclidean_division_equations; lia.
Qed.

Definition good_draw (draw : result (list Z)) : Prop :=
  exists bytes, draw = Ok bytes /\ List.length bytes = recoveryCodeByteCount /\ Forall is_byte bytes.

Definition recovery_code (code : string) : Prop := len code = 11 /\ sforall visible code = true.

Lemma generate_codes draws : forall codes,
  Forall good_draw draws -> Forall recovery_code codes ->
  (List.length codes + List.length draws = recoveryCodeCount)%nat ->
  exists codes', generateRecoveryCodes draws codes = Ok codes' /\
    List.length codes' = recoveryCodeCount /\ Forall recovery_code codes'.
Proof.
  induction draws as [|draw draws IH]; intros codes Hd Hc Hn; cbn [generateRecoveryCodes].
  - cbn in Hn. rewrite Nat.add_0_r in Hn. rewrite Hn, Nat.leb_refl. eauto.
  - cbn in Hn. rewrite (proj2 (Nat.leb_gt _ _)) by lia.
    apply Forall_cons in Hd as [(bytes & -> & Hl & Hb) Hd].
    destruct (draw_code bytes Hl Hb) as (Hv & Hcode & Hvis). cbv zeta. rewrite Hv.
    change (12 <? 10) with false. cbv iota. apply IH; [done| |].
    + apply Forall_app. split; [done|]. by repeat constructor.
    + rewrite length_app. cbn. lia.
Qed.

Lemma hash_codes `{!UnicodeCase} key userID codes k :
  key = Some k -> List.length k = 32%nat ->
  exists hashes, hashRecoveryCodes key userID codes = Ok hashes /\
    List.length hashes = List.length codes /\
    forall code, In code codes -> exists hash,
      recoveryCodeHash key userID code = Ok hash /\ In hash hashes.
Proof.
  intros -> Hk. induction codes as [|code codes (hashes & IH & Hl & Hin)].
  { exists []. split_and!; [done|done|]. intros ? []. }
  assert (exists hash, recoveryCodeHash (Some k) userID code = Ok hash) as [hash Hh].
  { unfold recoveryCodeHash, DeriveCredentialSubkey, credentialPurpose.
    destruct (String.eqb_spec (TrimSpace (CredentialPurposeRecoveryCode +:+ ":user:" +:+ Itoa userID)) "")
      as [E|_].
    - exfalso. revert E. by apply TrimSpace_not_blank.
    - rewrite Hk. cbn [Nat.eqb negb]. eauto. }
  exists (hash :: hashes). cbn [hashRecoveryCodes]. rewrite Hh, IH. split_and!; [done|cbn; lia|].
  intros c [->|Hc]; [exists hash; split; [done|by left]|].
  destruct (Hin c Hc) as (h & ? & ?). exists h. split; [done|by right].
Qed.

(** ** The manager *)

Definition set_users (t : SecurityTables) (l : list User) : SecurityTables :=
  mkSecurityTables l (mfa t) (sec_sessions t).
Definition set_mfa (t : SecurityTables) (l : list UserMFA) : SecurityTables :=
  mkSecurityTables (sec_users t) l (sec_sessions t).
Definition set_sessions (t : SecurityTables) (l : list Session.UserSession) : SecurityTables :=
  mkSecurityTables (sec_users t) (mfa t) l.

Definition mfa_of (userID : Z) (t : SecurityTables) : option UserMFA :=
  List.find (fun r => UserID r =? userID) (mfa t).
Definition user_of (userID : Z) (t : SecurityTables) : option User :=
  List.find (fun u => User_ID u =? userID) (sec_users t).

(** [Save]: update the row with this primary key, or insert it. *)
Definition save_mfa (r : UserMFA) (t : SecurityTables) : result (unit * SecurityTables) :=
  Ok (tt, set_mfa t
    (if existsb (fun q => UserID q =? UserID r) (mfa t)
     then map (fun q => if UserID q =? UserID r then r else q) (mfa t)
     else mfa t ++ [r])).

Definition update_mfa (c : UserMFA -> bool) (f : UserMFA -> UserMFA) (t : SecurityTables)
    : result (Z * SecurityTables) :=
  Ok (Z.of_nat (List.length (List.filter c (mfa t))),
      set_mfa t (map (fun r => if c r then f r else r) (mfa t))).

Definition with_counter (counter : Z) (r : UserMFA) : UserMFA :=
  mkUserMFA (UserID r) (Enabled r) (SecretEncrypted r) (PendingSecretEncrypted r)
    (RecoveryCodeHashesJSON r) (RecoveryCodesGeneration r) counter.

Definition with_hashes (json : string) (r : UserMFA) : UserMFA :=
  mkUserMFA (UserID r) (Enabled r) (SecretEncrypted r) (PendingSecretEncrypted r)
    json (RecoveryCodesGeneration r) (LastTOTPCounter r).

Definition disabled (r : UserMFA) : UserMFA :=
  mkUserMFA (UserID r) false "" "" "" (RecoveryCodesGeneration r) (LastTOTPCounter r).

Definition EffectiveSecurityVersion (u : User) : Z :=
  if User_SecurityVersion u =? 0 then 1 else User_SecurityVersion u.

Section manager.
Context `{!UnicodeCase} `{!AEAD} `{!HashListCodec}.
(** [CheckPasswordHash], and the installed credential key. *)
Variable CheckPasswordHash : string -> string -> bool.
Variable key : CredentialKey.

Definition Status (userID : Z) : M SecurityTables SecurityStatus :=
  let* user := first (user_of userID) in
  let* found := attempt (first (mfa_of userID)) in
  match found with
  | Fail err =>
      if is_not_found err
      then ret (mkSecurityStatus false false 0 (User_MustChangePassword user))
      else fail err
  | Ok record =>
      match decodeRecoveryHashes (RecoveryCodeHashesJSON record) with
      | Fail err => fail err
      | Ok hashes =>
          ret (mkSecurityStatus (Enabled record)
                 (negb (String.eqb (PendingSecretEncrypted record) ""))
                 (Z.of_nat (List.length hashes)) (User_MustChangePassword user))
      end
  end.

Definition IsEnabled (userID : Z) : M SecurityTables bool :=
  let* found := attempt (first (mfa_of userID)) in
  match found with
  | Ok record => ret (Enabled record)
  | Fail err => if is_not_found err then ret false else fail err
  end.

Definition empty_mfa : UserMFA := mkUserMFA 0 false "" "" "" 0 0.

(** The record that [Setup] starts from. *)
Definition setup_record (userID : Z) : M SecurityTables UserMFA :=
  let* found := attempt (first (mfa_of userID)) in
  match found with
  | Ok existing =>
      if Enabled existing then fail (Sentinel ErrMFAAlreadyEnabled) else ret existing
  | Fail err => if is_not_found err then ret empty_mfa else fail err
  end.

(** [PathEscape] is [url.PathEscape]; the secret is returned with its URI,
    whose query [Values.Encode] sorts by key. *)
Definition setup_pending (PathEscape : string -> string) (random nonce : result (list Z))
    (userID : Z) (username : string) (existing : UserMFA) : M SecurityTables (string * string) :=
  match random with
  | Fail err => fail (Wrap "generate TOTP secret: " err "")
  | Ok secretBytes =>
      let secret := base32_encode secretBytes in
      match EncryptCredential key nonce secret
              (credentialPurpose CredentialPurposeTOTPPending userID) with
      | Fail err => fail err
      | Ok encrypted =>
          let* _ := exec (save_mfa (mkUserMFA userID false (SecretEncrypted existing) encrypted
            (RecoveryCodeHashesJSON existing) (RecoveryCodesGeneration existing)
            (LastTOTPCounter existing))) in
          ret (secret, "otpauth://totp/" +:+ PathEscape (totpIssuer +:+ ":" +:+ username)
            +:+ "?algorithm=SHA1&digits=6&issuer=Oneinstack+Panel&period=30&secret=" +:+ secret)
      end
  end.

Definition Setup (PathEscape : string -> string) (random nonce : result (list Z))
    (userID : Z) (username : string) : M SecurityTables (string * string) :=
  let* existing := setup_record userID in
  setup_pending PathEscape random nonce userID username existing.

Definition loadUserAndMFA (userID : Z) : M SecurityTables (User * UserMFA) :=
  let* user := first (user_of userID) in
  let* found := attempt (first (mfa_of userID)) in
  match found with
  | Ok record => ret (user, record)
  | Fail err => if is_not_found err then fail (Sentinel ErrMFAUnavailable) else fail err
  end.

(** New recovery codes with their encoded hashes. *)
Definition new_recovery_codes (userID : Z) (random : list (result (list Z)))
    : result (list string * string) :=
  match generateRecoveryCodes random [] with
  | Fail err => Fail err
  | Ok codes =>
      match hashRecoveryCodes key userID codes with
      | Fail err => Fail err
      | Ok hashes => Ok (codes, marshal_hashes hashes)
      end
  end.

Definition Confirm (now : time) (random : list (result (list Z))) (nonce : result (list Z))
    (userID : Z) (password code : string) : M SecurityTables (list string) :=
  transaction
    (let* loaded := loadUserAndMFA userID in
     let '(user, record) := loaded in
     if Enabled record then fail (Sentinel ErrMFAAlreadyEnabled)
     else if negb (CheckPasswordHash password (User_Password user)) then
       fail (Sentinel ErrInvalidPassword)
     else if String.eqb (PendingSecretEncrypted record) "" then fail (Sentinel ErrMFAUnavailable)
     else
       match DecryptCredential key (PendingSecretEncrypted record)
               (credentialPurpose CredentialPurposeTOTPPending userID) with
       | Fail err => fail err
       | Ok secret =>
           if negb (validateTOTP secret code now) then fail (Sentinel ErrInvalidSecondFactor)
           else
             match new_recovery_codes userID random with
             | Fail err => fail err
             | Ok (recoveryCodes, encoded) =>
                 match EncryptCredential key nonce secret
                         (credentialPurpose CredentialPurposeTOTPSecret userID) with
                 | Fail err => fail err
                 | Ok encrypted =>
                     let* _ := exec (save_mfa (mkUserMFA (UserID record) true encrypted "" encoded
                       (u64 (RecoveryCodesGeneration record + 1)) (LastTOTPCounter record))) in
                     ret recoveryCodes
                 end
             end
       end).

(** The function given to the transaction of [VerifyLoginCode]. *)
Definition verify_login_tx (now : time) (userID : Z) (code : string) : M SecurityTables unit :=
  let* found := attempt (first (fun t =>
    List.find (fun r => (UserID r =? userID) && Enabled r) (mfa t))) in
  match found with
  | Fail err => if is_not_found err then fail (Sentinel ErrMFANotEnabled) else fail err
  | Ok record =>
      match DecryptCredential key (SecretEncrypted record)
              (credentialPurpose CredentialPurposeTOTPSecret userID) with
      | Fail err => fail err
      | Ok secret =>
          match matchingTOTPCounter secret code now with
          | Some counter =>
              let* affected := exec (update_mfa
                (fun r => (UserID r =? userID) && (LastTOTPCounter r <? counter))
                (with_counter counter)) in
              if affected =? 1 then ret tt else fail (Sentinel ErrInvalidSecondFactor)
          | None =>
              match decodeRecoveryHashes (RecoveryCodeHashesJSON record) with
              | Fail err => fail err
              | Ok hashes =>
                  match consumeRecoveryCode key userID hashes code with
                  | Fail err => fail err
                  | Ok (false, _) => fail (Sentinel ErrInvalidSecondFactor)
                  | Ok (true, updated) =>
                      let* affected := exec (update_mfa
                        (fun r => (UserID r =? userID)
                          && String.eqb (RecoveryCodeHashesJSON r) (RecoveryCodeHashesJSON record))
                        (with_hashes (marshal_hashes updated))) in
                      if negb (affected =? 1) then fail (Sentinel ErrInvalidSecondFactor)
                      else ret tt
                  end
              end
          end
      end
  end.

Definition VerifyLoginCode (now : time) (userID : Z) (code : string) : M SecurityTables unit :=
  transaction (verify_login_tx now userID code).

Definition bump_version (userID version : Z) (t : SecurityTables) : result (unit * SecurityTables) :=
  Ok (tt, set_users t (map (fun u =>
    if User_ID u =? userID
    then mkUser (User_ID u) (User_Username u) (User_Password u) (User_IsAdmin u)
           (User_FirstJoin u) (User_MustChangePassword u) version (User_CreateTime u)
    else u) (sec_users t))).

Definition revoke_sessions (now : time) (userID : Z) (t : SecurityTables)
    : result (unit * SecurityTables) :=
  Ok (tt, set_sessions t (map (fun r =>
    if Session.scoped r && (Session.UserID r =? userID) && Session.is_none (Session.RevokedAt r)
    then Session.with_revocation now "totp_disabled" r else r) (sec_sessions t))).

Definition Disable (now revoked : time) (userID : Z) (password code : string)
    : M SecurityTables unit :=
  transaction
    (let* loaded := loadUserAndMFA userID in
     let '(user, record) := loaded in
     if negb (Enabled record) then fail (Sentinel ErrMFANotEnabled)
     else if negb (CheckPasswordHash password (User_Password user)) then
       fail (Sentinel ErrInvalidPassword)
     else
       match DecryptCredential key (SecretEncrypted record)
               (credentialPurpose CredentialPurposeTOTPSecret userID) with
       | Fail err => fail err
       | Ok secret =>
           if negb (validateTOTP secret code now) then fail (Sentinel ErrInvalidSecondFactor)
           else
             let* _ := exec (update_mfa (fun r => UserID r =? UserID record) disabled) in
             let* _ := exec (bump_version userID (u64 (EffectiveSecurityVersion user + 1))) in
             exec (revoke_sessions revoked userID)
       end).

Definition RegenerateRecoveryCodes (now : time) (random : list (result (list Z)))
    (userID : Z) (password code : string) : M SecurityTables (list string) :=
  transaction
    (let* loaded := loadUserAndMFA userID in
     let '(user, record) := loaded in
     if negb (Enabled record) then fail (Sentinel ErrMFANotEnabled)
     else if negb (CheckPasswordHash password (User_Password user)) then
       fail (Sentinel ErrInvalidPassword)
     else
       match DecryptCredential key (SecretEncrypted record)
               (credentialPurpose CredentialPurposeTOTPSecret userID) with
       | Fail err => fail err
       | Ok secret =>
           if negb (validateTOTP secret code now) then fail (Sentinel ErrInvalidSecondFactor)
           else
             match new_recovery_codes userID random with
             | Fail err => fail err
             | Ok (recoveryCodes, encoded) =>
                 let* _ := exec (save_mfa (mkUserMFA (UserID record) (Enabled record)
                   (SecretEncrypted record) (PendingSecretEncrypted record) encoded
                   (u64 (RecoveryCodesGeneration record + 1)) (LastTOTPCounter record))) in
                 ret recoveryCodes
             end
       end).
End manager.

(** ** The last accepted counter never moves back *)

Lemma find_map_same {A} (c : A -> bool) (f : A -> A) (l : list A) :
  (forall x, c (f x) = c x) -> List.find c (map f l) = option_map f (List.find c l).
Proof.
  intros Hf. induction l as [|x l IH]; cbn; [done|]. rewrite Hf. by destruct (c x).
Qed.

Lemma find_map_id {A} (c : A -> bool) (f : A -> A) (l : list A) :
  (forall x, c (f x) = c x) -> (forall x, c x = true -> f x = x) ->
  List.find c (map f l) = List.find c l.
Proof.
  intros Hf Hid. rewrite find_map_same by done. destruct (List.find c l) as [x|] eqn:E; [|done].
  apply find_some in E as [_ E]. cbn. by rewrite Hid.
Qed.

Lemma find_none_existsb {A} (c : A -> bool) (l : list A) :
  List.find c l = None -> existsb c l = false.
Proof. induction l as [|x l IH]; cbn; [done|]. by destruct (c x). Qed.

Lemma find_some_existsb {A} (c : A -> bool) (l : list A) x :
  List.find c l = Some x -> existsb c l = true.
Proof. intros H%find_some. apply existsb_exists. eauto. Qed.

Lemma find_snoc {A} (c : A -> bool) (l : list A) x :
  List.find c (l ++ [x]) =
  match List.find c l with Some y => Some y | None => if c x then Some x else None end.
Proof. induction l as [|y l IH]; cbn; [done|]. by destruct (c y). Qed.

Lemma mfa_of_id userID t r : mfa_of userID t = Some r -> UserID r = userID.
Proof. intros H%find_some. lia. Qed.

(** What [save_mfa] leaves under each primary key. *)
Lemma mfa_of_save r t t' userID :
  save_mfa r t = Ok (tt, t') ->
  mfa_of userID t' = if userID =? UserID r then Some r else mfa_of userID t.
Proof.
  intros [= <-]. unfold mfa_of. cbn [mfa set_mfa].
  destruct (existsb _ (mfa t)) eqn:E.
  - destruct (Z.eqb_spec userID (UserID r)) as [->|Hne].
    + rewrite find_map_same.
      * destruct (List.find _ (mfa t)) as [q|] eqn:Eq.
        -- apply find_some in Eq as [_ Eq]. cbn. by rewrite Eq.
        -- apply find_none_existsb in Eq. by rewrite Eq in E.
      * intros q. by destruct (Z.eqb_spec (UserID q) (UserID r)); rewrite ?Z.eqb_refl; lia.
    + apply find_map_id.
      * intros q. destruct (Z.eqb_spec (UserID q) (UserID r)) as [->|]; [|done].
        done.
      * intros q Hq. destruct (Z.eqb_spec (UserID q) (UserID r)); [lia|done].
  - rewrite find_snoc. destruct (Z.eqb_spec userID (UserID r)) as [->|Hne].
    + destruct (List.find _ (mfa t)) as [q|] eqn:Eq; [|by rewrite Z.eqb_refl].
      apply find_some_existsb in Eq. by rewrite Eq in E.
    + destruct (Z.eqb_spec (UserID r) userID); [lia|]. by destruct (List.find _ (mfa t)).
Qed.

Lemma mfa_of_update c f t n t' userID :
  (forall r, UserID (f r) = UserID r) ->
  update_mfa c f t = Ok (n, t') ->
  mfa_of userID t' = option_map (fun r => if c r then f r else r) (mfa_of userID t).
Proof.
  intros Hf [= <- <-]. unfold mfa_of. cbn [mfa set_mfa]. apply find_map_same.
  intros r. destruct (c r); [by rewrite Hf|done].
Qed.

(** The primary key [user_id]. *)
Definition unique_rows (t : SecurityTables) : Prop := NoDup (map UserID (mfa t)).

Lemma keys_map (c : UserMFA -> bool) (f : UserMFA -> UserMFA) l :
  (forall r, c r = true -> UserID (f r) = UserID r) ->
  map UserID (map (fun r => if c r then f r else r) l) = map UserID l.
Proof.
  intros Hf. induction l as [|r l IH]; cbn; [done|]. rewrite IH.
  destruct (c r) eqn:E; [by rewrite Hf|done].
Qed.

Lemma unique_save r t t' : save_mfa r t = Ok (tt, t') -> unique_rows t -> unique_rows t'.
Proof.
  intros [= <-] Hu. unfold unique_rows. cbn [mfa set_mfa].
  destruct (existsb _ (mfa t)) eqn:E.
  - rewrite (keys_map (fun q => UserID q =? UserID r) (fun _ => r)); [done|]. intros q Hq. lia.
  - rewrite map_app. apply NoDup_app. split_and!; [done| |repeat constructor; set_solver].
    intros k Hk. cbn. rewrite list_elem_of_singleton. intros ->.
    apply list_elem_of_In, in_map_iff in Hk as (q & Hq & Hin).
    apply existsb_false_Forall in E. rewrite Forall_forall in E.
    apply list_elem_of_In, E in Hin. lia.
Qed.

Lemma unique_find t r :
  unique_rows t -> In r (mfa t) -> mfa_of (UserID r) t = Some r.
Proof.
  unfold unique_rows, mfa_of. induction (mfa t) as [|q l IH]; [done|]. cbn [map].
  intros [Hq Hl]%NoDup_cons [->|Hin]; cbn; [by rewrite Z.eqb_refl|].
  destruct (Z.eqb_spec (UserID q) (UserID r)) as [E|]; [|by apply IH].
  exfalso. apply Hq. rewrite E. apply list_elem_of_In, in_map_iff. eauto.
Qed.

(** An update that reports one row reached the user's only row. *)
Lemma update_one userID (d : UserMFA -> bool) f t t' :
  unique_rows t -> (forall r, UserID (f r) = UserID r) ->
  update_mfa (fun r => (UserID r =? userID) && d r) f t = Ok (1, t') ->
  exists r, mfa_of userID t = Some r /\ d r = true /\ mfa_of userID t' = Some (f r) /\
    forall other, other <> userID -> mfa_of other t' = mfa_of other t.
Proof.
  intros Hu Hf E. pose proof E as [= Hn _].
  destruct (List.filter _ (mfa t)) as [|r l] eqn:El; [done|].
  assert (Hr : In r (r :: l)) by (by left). rewrite <- El in Hr.
  apply filter_In in Hr as [Hin Hc]. apply andb_true_iff in Hc as [Hid Hd].
  apply Z.eqb_eq in Hid. pose proof (unique_find _ _ Hu Hin) as Hr. rewrite Hid in Hr.
  exists r. split_and!; [done..| |].
  - rewrite (mfa_of_update _ _ _ _ _ _ Hf E), Hr. cbn. by rewrite Hid, Z.eqb_refl, Hd.
  - intros other Hne. rewrite (mfa_of_update _ _ _ _ _ _ Hf E).
    destruct (mfa_of other t) as [q|] eqn:Eq; [|done]. cbn.
    rewrite (mfa_of_id _ _ _ Eq). by destruct (Z.eqb_spec other userID).
Qed.

Lemma update_count userID (d : UserMFA -> bool) t r :
  unique_rows t -> mfa_of userID t = Some r ->
  List.length (List.filter (fun q => (UserID q =? userID) && d q) (mfa t)) = if d r then 1%nat else 0%nat.
Proof.
  unfold unique_rows, mfa_of. induction (mfa t) as [|q l IH]; [done|]. cbn [map].
  intros [Hq Hl]%NoDup_cons. cbn. destruct (Z.eqb_spec (UserID q) userID) as [E|Hne]; [|by apply IH].
  intros [= ->]. cbn [andb].
  assert (List.filter (fun q => (UserID q =? userID) && d q) l = []) as Hnil.
  { destruct (List.filter _ l) as [|q m] eqn:Ef; [done|].
    assert (Hin : In q (q :: m)) by (by left). rewrite <- Ef in Hin.
    apply filter_In in Hin as [Hin Hc]. apply andb_true_iff in Hc as [Hc _]. apply Z.eqb_eq in Hc.
    exfalso. apply Hq. rewrite E, <- Hc. apply list_elem_of_In, in_map_iff. eauto. }
  destruct (d r); cbn; by rewrite Hnil.
Qed.

(** Primary keys stay unique, no second-factor row disappears, and no last
    counter decreases. *)
Definition advances (t t' : SecurityTables) : Prop :=
  (unique_rows t -> unique_rows t') /\
  forall userID r, mfa_of userID t = Some r ->
    exists r', mfa_of userID t' = Some r' /\ LastTOTPCounter r <= LastTOTPCounter r'.

#[global] Instance advances_preorder : PreOrder advances.
Proof.
  split.
  - intros t. split; [done|]. intros userID r Hr. exists r. split; [done|lia].
  - intros t1 t2 t3 [Hu12 H12] [Hu23 H23]. split; [auto|]. intros userID r Hr.
    apply H12 in Hr as (r2 & Hr2 & ?). apply H23 in Hr2 as (r3 & ? & ?). exists r3. split; [done|lia].
Qed.

Lemma advances_same t t' : mfa t' = mfa t -> advances t t'.
Proof.
  intros E. unfold advances, unique_rows, mfa_of. rewrite E. split; [done|].
  intros userID r Hr. exists r. split; [done|lia].
Qed.

Lemma advances_save r t t' :
  save_mfa r t = Ok (tt, t') ->
  (forall q, mfa_of (UserID r) t = Some q -> LastTOTPCounter q <= LastTOTPCounter r) ->
  advances t t'.
Proof.
  intros E Hr. split; [by apply (unique_save r)|]. intros userID q Hq.
  rewrite (mfa_of_save _ _ _ _ E).
  destruct (Z.eqb_spec userID (UserID r)) as [->|]; [|exists q; split; [done|lia]].
  exists r. auto.
Qed.

Lemma advances_update c f t n t' :
  (forall r, UserID (f r) = UserID r) ->
  (forall r, c r = true -> LastTOTPCounter r <= LastTOTPCounter (f r)) ->
  update_mfa c f t = Ok (n, t') -> advances t t'.
Proof.
  intros Hf Hc E. split.
  - injection E as _ <-. unfold unique_rows. cbn. by rewrite (keys_map c f).
  - intros userID r Hr. rewrite (mfa_of_update _ _ _ _ _ _ Hf E), Hr. cbn.
    eexists. split; [done|]. destruct (c r) eqn:Ec; [auto|lia].
Qed.

(** ** Specification *)

Inductive operation :=
  | OpSetup (random nonce : result (list Z)) (userID : Z) (username : string)
  | OpConfirm (now : time) (random : list (result (list Z))) (nonce : result (list Z))
      (userID : Z) (password code : string)
  | OpLogin (now : time) (userID : Z) (code : string)
  | OpDisable (now revoked : time) (userID : Z) (password code : string)
  | OpRegenerate (now : time) (random : list (result (list Z))) (userID : Z)
      (password code : string).

Section properties.
Context `{!UnicodeCase} `{!AEAD} `{!HashListCodec}.
Variable CheckPasswordHash : string -> string -> bool.
Variable PathEscape : string -> string.
Variable key : CredentialKey.

Abbreviation setup := (Setup key PathEscape).
Abbreviation confirm := (Confirm CheckPasswordHash key).
Abbreviation login := (VerifyLoginCode key).
Abbreviation disable := (Disable CheckPasswordHash key).
Abbreviation regenerate := (RegenerateRecoveryCodes CheckPasswordHash key).

(** The world after an operation, whatever it answered. *)
Definition perform (op : operation) (w : world SecurityTables) : world SecurityTables :=
  match op with
  | OpSetup random nonce userID username => (setup random nonce userID username w).2
  | OpConfirm now random nonce userID password code =>
      (confirm now random nonce userID password code w).2
  | OpLogin now userID code => (login now userID code w).2
  | OpDisable now revoked userID password code => (disable now revoked userID password code w).2
  | OpRegenerate now random userID password code =>
      (regenerate now random userID password code w).2
  end.

Definition perform_all (ops : list operation) (w : world SecurityTables) : world SecurityTables :=
  fold_left (fun w op => perform op w) ops w.

Lemma advances_tx {A} (m : M SecurityTables A) :
  (forall w a w', m w = (Ok a, w') -> advances (tables w) (tables w')) ->
  forall w, advances (tables w) (tables (transaction m w).2).
Proof.
  intros Hm w. destruct (transaction m w) as [r w'] eqn:E. cbn.
  apply transaction_outcome in E as [->|(a & w1 & w2 & _ & <- & E & ->)]; [reflexivity|].
  by apply Hm in E.
Qed.

Lemma loadUserAndMFA_Ok userID w user record w' :
  loadUserAndMFA userID w = (Ok (user, record), w') ->
  user_of userID (tables w) = Some user /\ mfa_of userID (tables w) = Some record /\
  tables w' = tables w.
Proof.
  unfold loadUserAndMFA. intros Hrun.
  apply bind_Ok in Hrun as (u & w1 & [Hu Ht1]%first_Ok & Hrun).
  apply bind_Ok in Hrun as (found & w2 & Hf%attempt_Ok & Hrun). destruct found as [r|e].
  - apply first_Ok in Hf as [Hf Ht2]. apply ret_Ok in Hrun as [Hrun ->]. simplify_eq.
    rewrite Ht1 in *. auto.
  - by destruct (is_not_found e).
Qed.

(** A save of the row that the transaction loaded. *)
Lemma advances_save_loaded userID t record r t' :
  mfa_of userID t = Some record -> UserID r = UserID record ->
  LastTOTPCounter r = LastTOTPCounter record -> save_mfa r t = Ok (tt, t') -> advances t t'.
Proof.
  intros Hr Hid Hc Hs. eapply advances_save; [exact Hs|].
  rewrite Hid, (mfa_of_id _ _ _ Hr), Hr. intros q [= <-]. lia.
Qed.

Lemma Confirm_advances now random nonce userID password code w :
  advances (tables w) (tables (confirm now random nonce userID password code w).2).
Proof.
  apply advances_tx. clear w. intros w a w' Hrun.
  apply bind_Ok in Hrun as ([user record] & w1 & (_ & Hr & Ht)%loadUserAndMFA_Ok & Hrun).
  repeat (case_hyp Hrun; try done).
  apply bind_Ok in Hrun as ([] & w2 & Hs%statement_Ok & [_ ->]%ret_Ok). rewrite Ht in Hs.
  by eapply advances_save_loaded; [exact Hr| | |exact Hs].
Qed.

Lemma Regenerate_advances now random userID password code w :
  advances (tables w) (tables (regenerate now random userID password code w).2).
Proof.
  apply advances_tx. clear w. intros w a w' Hrun.
  apply bind_Ok in Hrun as ([user record] & w1 & (_ & Hr & Ht)%loadUserAndMFA_Ok & Hrun).
  repeat (case_hyp Hrun; try done).
  apply bind_Ok in Hrun as ([] & w2 & Hs%statement_Ok & [_ ->]%ret_Ok). rewrite Ht in Hs.
  by eapply advances_save_loaded; [exact Hr| | |exact Hs].
Qed.

Lemma Disable_advances now revoked userID password code w :
  advances (tables w) (tables (disable now revoked userID password code w).2).
Proof.
  apply advances_tx. clear w. intros w a w' Hrun.
  apply bind_Ok in Hrun as ([user record] & w1 & (_ & Hr & Ht)%loadUserAndMFA_Ok & Hrun).
  repeat (case_hyp Hrun; try done).
  apply bind_Ok in Hrun as (n & w2 & Hu%statement_Ok & Hrun). rewrite Ht in Hu.
  apply bind_Ok in Hrun as (u & w3 & Hb%statement_Ok & Hs%statement_Ok).
  transitivity (tables w2).
  { by eapply (advances_update _ disabled); [| |exact Hu]; intros r; cbn; try lia. }
  transitivity (tables w3); apply advances_same; unfold bump_version, revoke_sessions in *.
  - by injection Hb as _ <-.
  - by injection Hs as _ <-.
Qed.

Lemma setup_pending_advances random nonce userID username existing w :
  (forall q, mfa_of userID (tables w) = Some q -> LastTOTPCounter q = LastTOTPCounter existing) ->
  advances (tables w)
    (tables (setup_pending key PathEscape random nonce userID username existing w).2).
Proof.
  intros Hb. unfold setup_pending. destruct random as [bytes|]; [|done]. cbn zeta.
  destruct (EncryptCredential key nonce _ _) as [enc|]; [|done]. unfold bind.
  destruct (exec _ w) as [[[]|e] w2] eqn:Es; cbn.
  - apply statement_Ok in Es. eapply advances_save; [exact Es|]. cbn. intros q ->%Hb. lia.
  - apply statement_Fail in Es as [-> _]. reflexivity.
Qed.

Lemma Setup_advances random nonce userID username w :
  advances (tables w) (tables (setup random nonce userID username w).2).
Proof.
  unfold Setup, setup_record. rewrite bind_assoc. unfold bind at 1, attempt.
  destruct (first _ w) as [found w1] eqn:Ef. pose proof (first_tables _ _ _ _ Ef) as Ht.
  rewrite <- Ht. destruct found as [existing|e].
  - apply first_Ok in Ef as [Hf _]. destruct (Enabled existing); [reflexivity|].
    rewrite bind_ret. apply setup_pending_advances. rewrite Ht. congruence.
  - destruct (is_not_found e) eqn:En; [|reflexivity].
    apply first_not_found in Ef as [Hf _]; [|done]. rewrite bind_ret.
    apply setup_pending_advances. rewrite Ht. congruence.
Qed.

(** ** Logging in *)

(** The row that [verify_login_tx] decides on. *)
Definition enrolled (userID : Z) (t : SecurityTables) : option UserMFA :=
  List.find (fun r => (UserID r =? userID) && Enabled r) (mfa t).

Definition secret_of (userID : Z) (r : UserMFA) : result string :=
  DecryptCredential key (SecretEncrypted r) (credentialPurpose CredentialPurposeTOTPSecret userID).

(** An accepted login used a fresh counter or one recovery code. *)
Lemma verify_login_Ok now userID code w w' :
  verify_login_tx key now userID code w = (Ok tt, w') ->
  exists r secret, enrolled userID (tables w) = Some r /\ secret_of userID r = Ok secret /\
  ((exists counter, matchingTOTPCounter secret code now = Some counter /\
      update_mfa (fun r => (UserID r =? userID) && (LastTOTPCounter r <? counter))
        (with_counter counter) (tables w) = Ok (1, tables w')) \/
   (exists hashes updated, matchingTOTPCounter secret code now = None /\
      decodeRecoveryHashes (RecoveryCodeHashesJSON r) = Ok hashes /\
      consumeRecoveryCode key userID hashes code = Ok (true, updated) /\
      update_mfa (fun q => (UserID q =? userID)
          && String.eqb (RecoveryCodeHashesJSON q) (RecoveryCodeHashesJSON r))
        (with_hashes (marshal_hashes updated)) (tables w) = Ok (1, tables w'))).
Proof.
  intros Hrun. apply bind_Ok in Hrun as (found & w1 & Hf%attempt_Ok & Hrun).
  destruct found as [r|e]; [|by destruct (is_not_found e)].
  apply first_Ok in Hf as [Hf Ht]. fold (enrolled userID (tables w)) in Hf.
  destruct (DecryptCredential key _ _) as [secret|] eqn:Es; [|done].
  exists r, secret. split; [done|]. split; [done|]. rewrite <- Ht.
  destruct (matchingTOTPCounter secret code now) as [counter|] eqn:Em; [left|right].
  - exists counter. split; [done|].
    apply bind_Ok in Hrun as (n & w2 & Hu%statement_Ok & Hrun).
    destruct (Z.eqb_spec n 1) as [->|]; [|done]. by apply ret_Ok in Hrun as [_ ->].
  - destruct (decodeRecoveryHashes _) as [hashes|] eqn:Ed; [|done].
    destruct (consumeRecoveryCode _ _ _ _) as [[[] updated]|] eqn:Ec; [|done|done].
    exists hashes, updated. split_and!; [done..|].
    apply bind_Ok in Hrun as (n & w2 & Hu%statement_Ok & Hrun).
    destruct (Z.eqb_spec n 1) as [->|]; [|done]. by apply ret_Ok in Hrun as [_ ->].
Qed.

Lemma Login_advances now userID code w :
  advances (tables w) (tables (login now userID code w).2).
Proof.
  apply advances_tx. clear w. intros w [] w' Hrun.
  apply verify_login_Ok in Hrun as (r & secret & _ & _ & [(c & _ & Hu)|(hs & up & _ & _ & _ & Hu)]).
  - eapply (advances_update _ (with_counter c)); [done| |exact Hu]. intros q Hq. cbn in *. lia.
  - eapply (advances_update _ (with_hashes _)); [done| |exact Hu]. intros q _. cbn. lia.
Qed.

Lemma perform_advances op w : advances (tables w) (tables (perform op w)).
Proof.
  destruct op; cbn [perform];
    auto using Setup_advances, Confirm_advances, Login_advances, Disable_advances,
      Regenerate_advances.
Qed.

Lemma perform_all_advances ops : forall w, advances (tables w) (tables (perform_all ops w)).
Proof.
  induction ops as [|op ops IH]; intros w; cbn; [reflexivity|].
  transitivity (tables (perform op w)); [apply perform_advances|apply IH].
Qed.

(** A login accepted by its one-time code advanced the counter. *)
Lemma accepted_totp now userID code w w' r secret counter :
  unique_rows (tables w) -> login now userID code w = (Ok tt, w') ->
  enrolled userID (tables w) = Some r -> secret_of userID r = Ok secret ->
  matchingTOTPCounter secret code now = Some counter ->
  exists row, mfa_of userID (tables w') = Some row /\
    LastTOTPCounter row = counter /\
    forall q, mfa_of userID (tables w) = Some q -> LastTOTPCounter q < counter.
Proof.
  intros Hu (v & v' & Hv & Hrun & Hv')%transaction_Ok Hr Hs Hc.
  apply verify_login_Ok in Hrun as (r0 & s0 & Hr0 & Hs0 & Hcase). rewrite Hv in *.
  assert (s0 = secret) as -> by congruence.
  destruct Hcase as [(c & Hc' & Hupd)|(? & ? & ? & _)]; [|congruence].
  assert (c = counter) as -> by congruence.
  apply update_one in Hupd as (row & Hrow & Hlt & Hrow' & _); [|done|done].
  eexists. rewrite Hv'. split_and!; [exact Hrow'|done|]. intros q Hq.
  rewrite Hrow in Hq. injection Hq as <-. lia.
Qed.

Lemma enrolled_mfa_of userID t r :
  unique_rows t -> enrolled userID t = Some r -> mfa_of userID t = Some r.
Proof.
  intros Hu Hr. apply find_some in Hr as [Hin Hc]. apply andb_true_iff in Hc as [Hid _].
  apply Z.eqb_eq in Hid. rewrite <- Hid. by apply unique_find.
Qed.

Lemma decode_marshal hashes : decodeRecoveryHashes (marshal_hashes hashes) = Ok hashes.
Proof.
  unfold decodeRecoveryHashes. destruct (String.eqb_spec (TrimSpace (marshal_hashes hashes)) "") as [E|_].
  - by apply hashes_not_blank in E.
  - by rewrite hashes_roundtrip.
Qed.

(** A login that its one-time code does not decide was accepted by a hash of
    the stored list. *)
Lemma accepted_recovery now userID code w w' :
  unique_rows (tables w) -> login now userID code w = (Ok tt, w') ->
  (forall r secret, enrolled userID (tables w) = Some r -> secret_of userID r = Ok secret ->
     matchingTOTPCounter secret code now = None) ->
  exists r hashes candidate updated, mfa_of userID (tables w) = Some r /\
    decodeRecoveryHashes (RecoveryCodeHashesJSON r) = Ok hashes /\
    recoveryCodeHash key userID code = Ok candidate /\
    remove_first candidate hashes = Some updated /\
    mfa_of userID (tables w') = Some (with_hashes (marshal_hashes updated) r) /\
    forall other, other <> userID -> mfa_of other (tables w') = mfa_of other (tables w).
Proof.
  intros Hu (v & v' & Hv & Hrun & Hv')%transaction_Ok Hno.
  apply verify_login_Ok in Hrun as (r & s & Hr & Hs & Hcase). rewrite Hv in *.
  destruct Hcase as [(c & Hc & _)|(hashes & updated & _ & Hd & Hcons & Hupd)];
    [by rewrite (Hno r s) in Hc|].
  apply update_one in Hupd as (row & Hrow & _ & Hrow' & Hother); [|done|done].
  apply enrolled_mfa_of in Hr; [|done]. rewrite Hr in Hrow. injection Hrow as <-.
  unfold consumeRecoveryCode in Hcons.
  destruct (recoveryCodeHash key userID code) as [candidate|] eqn:Eh; [|done].
  destruct (remove_first candidate hashes) as [u|] eqn:Er; [|done]. injection Hcons as <-.
  rewrite Hv'. eauto 12.
Qed.

(** ** Properties of second factors *)

(** C30: an accepted one-time code is never accepted again. When a login is
    accepted with the code of time step [counter], then after any sequence
    of set-ups, confirmations, logins, disablings and regenerations, with
    whatever faults, a login whose code belongs to that step or an earlier
    one, of the current secret, is refused. *)
Theorem totp_never_replayed userID now code w w1 r secret counter ops now' code' r' secret' counter'
  (Hunique : unique_rows (tables w))
  (Haccepted : login now userID code w = (Ok tt, w1))
  (Henrolled : enrolled userID (tables w) = Some r)
  (Hsecret : secret_of userID r = Ok secret)
  (Hcounter : matchingTOTPCounter secret code now = Some counter)
  (Henrolled' : enrolled userID (tables (perform_all ops w1)) = Some r')
  (Hsecret' : secret_of userID r' = Ok secret')
  (Hcounter' : matchingTOTPCounter secret' code' now' = Some counter')
  (Hold : counter' <= counter) :
  forall w2, login now' userID code' (perform_all ops w1) <> (Ok tt, w2).
Proof.
  intros w2 Hrun.
  pose proof (Login_advances now userID code w) as [Huniq1 _]. rewrite Haccepted in Huniq1.
  apply accepted_totp with (secret := secret) (r := r) (counter := counter) in Haccepted
    as (row & Hrow & Hc); [|done..].
  pose proof (perform_all_advances ops w1) as [Huniq Hadv].
  apply Hadv in Hrow as (row' & Hrow' & Hle).
  apply accepted_totp with (secret := secret') (r := r') (counter := counter') in Hrun
    as (row2 & Hrow2 & Hc2); auto.
  destruct Hc2 as [_ Hlt]. specialize (Hlt row' Hrow'). lia.
Qed.

(** A recovery code opens one session. A login accepted without a
    matching one-time code removes exactly one entry of the stored list, the
    first hash of that code, keeps the others in order and touches no other
    account's row; if the list held that hash once, the same code is refused
    from then on. *)
Theorem recovery_code_consumed userID now code w w1
  (Hunique : unique_rows (tables w))
  (Haccepted : login now userID code w = (Ok tt, w1))
  (Hno_totp : forall r secret, enrolled userID (tables w) = Some r ->
     secret_of userID r = Ok secret -> matchingTOTPCounter secret code now = None) :
  exists r candidate before after, mfa_of userID (tables w) = Some r /\
    decodeRecoveryHashes (RecoveryCodeHashesJSON r) = Ok (before ++ candidate :: after) /\
    ~ In candidate before /\ recoveryCodeHash key userID code = Ok candidate /\
    mfa_of userID (tables w1) = Some (with_hashes (marshal_hashes (before ++ after)) r) /\
    (forall other, other <> userID -> mfa_of other (tables w1) = mfa_of other (tables w)) /\
    (~ In candidate after -> forall now' w1' w2, tables w1' = tables w1 ->
       (forall r secret, enrolled userID (tables w1) = Some r ->
          secret_of userID r = Ok secret -> matchingTOTPCounter secret code now' = None) ->
       login now' userID code w1' <> (Ok tt, w2)).
Proof.
  pose proof (Login_advances now userID code w) as [Huniq1 _]. rewrite Haccepted in Huniq1.
  apply accepted_recovery in Haccepted
    as (r & hashes & candidate & updated & Hr & Hd & Hh & Hrm & Hr1 & Hother); [|done..].
  pose proof Hrm as (before & after & -> & Hbefore & ->)%remove_first_Some.
  exists r, candidate, before, after. split_and!; [done..|].
  intros Hafter now' w1' w2 Ht Hno Hrun.
  apply accepted_recovery in Hrun
    as (r1 & hashes1 & candidate1 & updated1 & Hr1' & Hd1 & Hh1 & Hrm1 & _);
    [|rewrite Ht; auto..].
  rewrite Ht, Hr1 in Hr1'. injection Hr1' as <-. cbn in Hd1. rewrite decode_marshal in Hd1.
  assert (candidate1 = candidate) as -> by congruence. injection Hd1 as <-.
  apply remove_first_In, in_app_or in Hrm1 as [|]; auto.
Qed.

(** ** Runs without faults *)

Variable k : list Z.

(** The last accepted counter of an account, 0 before it is enrolled. *)
Definition counter_of (userID : Z) (t : SecurityTables) : Z :=
  match mfa_of userID t with Some r => LastTOTPCounter r | None => 0 end.

(** A row with a sealed secret that opens to [secret]. *)
Definition sealed_as (sealed secret purpose : string) : Prop :=
  sealed <> "" /\ DecryptCredential key sealed purpose = Ok secret.

Lemma seal nonce secret purpose :
  key = Some k -> List.length nonce = NonceSize -> Forall is_byte nonce -> secret <> "" ->
  exists sealed, EncryptCredential key (Ok nonce) secret purpose = Ok sealed /\
    sealed_as sealed secret purpose.
Proof.
  unfold sealed_as. intros -> Hn Hb Hs.
  destruct (credential_roundtrip_full k nonce secret purpose Hn Hb) as (x & He & Hd & Hp & _).
  exists x. split; [done|]. split; [|done]. intros ->. discriminate (Hp Hs).
Qed.

Lemma Setup_run t userID username bytes nonce :
  key = Some k -> List.length nonce = NonceSize -> Forall is_byte nonce -> bytes <> [] ->
  unique_rows t -> (forall r, mfa_of userID t = Some r -> Enabled r = false) ->
  exists uri t1 r, setup (Ok bytes) (Ok nonce) userID username (World t []) =
      (Ok (base32_encode bytes, uri), World t1 []) /\
    sec_users t1 = sec_users t /\ unique_rows t1 /\ mfa_of userID t1 = Some r /\
    Enabled r = false /\ LastTOTPCounter r = counter_of userID t /\
    sealed_as (PendingSecretEncrypted r) (base32_encode bytes)
      (credentialPurpose CredentialPurposeTOTPPending userID).
Proof.
  intros Hk Hn Hb Hne Hu Hnew. unfold Setup.
  assert (Hsecret : base32_encode bytes <> "").
  { destruct bytes as [|a [|b [|c [|d [|e bytes]]]]]; try done; cbn; discriminate. }
  destruct (seal nonce (base32_encode bytes)
    (credentialPurpose CredentialPurposeTOTPPending userID) Hk Hn Hb Hsecret) as (sealed & He & Hs).
  assert (Hrun : exists base, LastTOTPCounter base = counter_of userID t /\
    forall kont : UserMFA -> M SecurityTables (string * string),
    bind (setup_record userID) kont (World t []) = kont base (World t [])).
  { unfold counter_of, setup_record. destruct (mfa_of userID t) as [r|] eqn:Er.
    - exists r. split; [done|]. intros kont. run_clean. by rewrite Er, (Hnew r).
    - exists empty_mfa. split; [done|]. intros kont. run_clean. by rewrite Er. }
  destruct Hrun as (base & Hbase & Hrun).
  set (r := mkUserMFA userID false (SecretEncrypted base) sealed (RecoveryCodeHashesJSON base)
    (RecoveryCodesGeneration base) (LastTOTPCounter base)).
  destruct (save_mfa r t) as [[[] t1]|] eqn:Es; [|done].
  eexists _, t1, r. rewrite Hrun. unfold setup_pending. cbv zeta. rewrite He. fold r.
  run_clean. rewrite Es. split_and!; [reflexivity|by injection Es as <-|by eapply unique_save| | | |];
    try done.
  rewrite (mfa_of_save _ _ _ userID Es). cbn. by rewrite Z.eqb_refl.
Qed.

Definition good_nonce (nonce : list Z) : Prop :=
  List.length nonce = NonceSize /\ Forall is_byte nonce.

Lemma Confirm_run t now draws nonce userID password code secret counter user r :
  key = Some k -> List.length k = 32%nat -> good_nonce nonce -> secret <> "" ->
  Forall good_draw draws -> List.length draws = recoveryCodeCount ->
  unique_rows t -> user_of userID t = Some user -> mfa_of userID t = Some r ->
  CheckPasswordHash password (User_Password user) = true -> Enabled r = false ->
  sealed_as (PendingSecretEncrypted r) secret (credentialPurpose CredentialPurposeTOTPPending userID) ->
  matchingTOTPCounter secret code now = Some counter ->
  exists codes hashes t2 r2,
    confirm now draws (Ok nonce) userID password code (World t []) = (Ok codes, World t2 []) /\
    List.length codes = recoveryCodeCount /\ Forall recovery_code codes /\
    unique_rows t2 /\ sec_users t2 = sec_users t /\ mfa_of userID t2 = Some r2 /\
    Enabled r2 = true /\ PendingSecretEncrypted r2 = "" /\
    LastTOTPCounter r2 = LastTOTPCounter r /\
    sealed_as (SecretEncrypted r2) secret (credentialPurpose CredentialPurposeTOTPSecret userID) /\
    RecoveryCodeHashesJSON r2 = marshal_hashes hashes /\
    List.length hashes = recoveryCodeCount /\
    forall c, In c codes -> exists hash, recoveryCodeHash key userID c = Ok hash /\ In hash hashes.
Proof.
  intros Hk Hkl [Hn Hb] Hs Hdraws Hl Hu Huser Hr Hpass Hen [Hp Hopen] Hm.
  destruct (generate_codes draws []) as (codes & Hgen & Hlen & Hcodes); [done|constructor|done|].
  destruct (hash_codes key userID codes k Hk Hkl) as (hashes & Hhash & Hhl & Hin).
  destruct (seal nonce secret (credentialPurpose CredentialPurposeTOTPSecret userID) Hk Hn Hb Hs)
    as (sealed & He & Hsealed).
  set (r2 := mkUserMFA (UserID r) true sealed "" (marshal_hashes hashes)
    (u64 (RecoveryCodesGeneration r + 1)) (LastTOTPCounter r)).
  destruct (save_mfa r2 t) as [[[] t2]|] eqn:Es; [|done].
  exists codes, hashes, t2, r2. split_and!; try done.
  - unfold Confirm. erewrite (run_transaction _ t (Ok codes) t2); [done|].
    unfold loadUserAndMFA. run_clean. rewrite Huser. run_clean. rewrite Hr. run_clean.
    rewrite Hen, Hpass. cbn [negb]. apply String.eqb_neq in Hp as ->. rewrite Hopen.
    unfold validateTOTP, new_recovery_codes. rewrite Hm, Hgen, Hhash, He. cbn [negb].
    fold r2. run_clean. by rewrite Es.
  - by eapply unique_save.
  - by injection Es as <-.
  - rewrite (mfa_of_save _ _ _ userID Es). cbn. by rewrite (mfa_of_id _ _ _ Hr), Z.eqb_refl.
  - by rewrite Hhl.
Qed.

Lemma enrolled_find userID t r :
  unique_rows t -> mfa_of userID t = Some r -> Enabled r = true -> enrolled userID t = Some r.
Proof.
  unfold unique_rows, mfa_of, enrolled. intros _.
  induction (mfa t) as [|q l IH]; [done|]. cbn.
  destruct (UserID q =? userID) eqn:E; [|done]. cbn. intros [= ->] ->. done.
Qed.

Lemma login_totp_run t now userID code secret counter r :
  unique_rows t -> mfa_of userID t = Some r -> Enabled r = true ->
  secret_of userID r = Ok secret -> matchingTOTPCounter secret code now = Some counter ->
  is_ok (login now userID code (World t [])).1 = (LastTOTPCounter r <? counter).
Proof.
  intros Hu Hr Hen Hs Hm. pose proof (enrolled_find _ _ _ Hu Hr Hen) as He.
  unfold VerifyLoginCode, verify_login_tx.
  set (c := fun r => (UserID r =? userID) && (LastTOTPCounter r <? counter)).
  destruct (update_mfa c (with_counter counter) t) as [[n t']|] eqn:Eu; [|done].
  assert (Hn : n = if LastTOTPCounter r <? counter then 1 else 0).
  { injection Eu as <- _. unfold c.
    rewrite (update_count userID (fun r => LastTOTPCounter r <? counter) t r Hu Hr).
    by destruct (_ <? _). }
  unfold transaction, next_fault. cbn [faults]. run_clean.
  fold (enrolled userID t). rewrite He. fold (secret_of userID r). rewrite Hs, Hm. fold c.
  run_clean. rewrite Eu, Hn. by destruct (_ <? _).
Qed.

Lemma login_recovery_run t now userID code secret r hashes hash :
  unique_rows t -> mfa_of userID t = Some r -> Enabled r = true ->
  secret_of userID r = Ok secret -> matchingTOTPCounter secret code now = None ->
  RecoveryCodeHashesJSON r = marshal_hashes hashes ->
  recoveryCodeHash key userID code = Ok hash -> In hash hashes ->
  is_ok (login now userID code (World t [])).1 = true.
Proof.
  intros Hu Hr Hen Hs Hm Hj Hh Hin. pose proof (enrolled_find _ _ _ Hu Hr Hen) as He.
  destruct (remove_first_complete _ _ Hin) as [updated Hrm].
  set (c := fun q => (UserID q =? userID)
    && String.eqb (RecoveryCodeHashesJSON q) (RecoveryCodeHashesJSON r)).
  destruct (update_mfa c (with_hashes (marshal_hashes updated)) t) as [[n t']|] eqn:Eu; [|done].
  assert (Hn : n = 1).
  { injection Eu as <- _. unfold c.
    rewrite (update_count userID (fun q => String.eqb _ _) t r Hu Hr). by rewrite String.eqb_refl. }
  unfold VerifyLoginCode, verify_login_tx, transaction, next_fault. cbn [faults]. run_clean.
  fold (enrolled userID t). rewrite He. fold (secret_of userID r). rewrite Hs, Hm. fold c.
  rewrite Hj, decode_marshal. unfold consumeRecoveryCode. rewrite Hh, Hrm.
  run_clean. by rewrite Eu, Hn.
Qed.

Lemma recovery_code_no_totp secret code now :
  recovery_code code -> matchingTOTPCounter secret code now = None.
Proof.
  intros [Hl Hv]. unfold matchingTOTPCounter. by rewrite TrimSpace_visible, Hl by done.
Qed.

(** Enrolment. Set-up returns a fresh secret; confirming it with the
    password and a code of that secret enables it and returns ten recovery
    codes; from then on a one-time code opens a session exactly when its
    time step is after the last accepted one, and each of the ten recovery
    codes opens one. Confirming records no step, so the code that confirmed
    the enrolment still opens a session. *)
Theorem enrolment t userID username password user bytes nonce nonce' draws now code counter
  (Hkey : key = Some k) (Hlength : List.length k = 32%nat)
  (Hnonce : good_nonce nonce) (Hnonce' : good_nonce nonce')
  (Hbytes : bytes <> []) (Hdraws : Forall good_draw draws)
  (Hten : List.length draws = recoveryCodeCount)
  (Hunique : unique_rows t) (Huser : user_of userID t = Some user)
  (Hpassword : CheckPasswordHash password (User_Password user) = true)
  (Hnew : forall r, mfa_of userID t = Some r -> Enabled r = false)
  (Hcode : matchingTOTPCounter (base32_encode bytes) code now = Some counter) :
  let secret := base32_encode bytes in
  exists uri t1 codes t2,
    setup (Ok bytes) (Ok nonce) userID username (World t []) = (Ok (secret, uri), World t1 []) /\
    confirm now draws (Ok nonce') userID password code (World t1 []) = (Ok codes, World t2 []) /\
    Status userID (World t2 []) =
      (Ok (mkSecurityStatus true false 10 (User_MustChangePassword user)), World t2 []) /\
    (forall now' code' counter', matchingTOTPCounter secret code' now' = Some counter' ->
       is_ok (login now' userID code' (World t2 [])).1 = (counter_of userID t <? counter')) /\
    (List.length codes = 10%nat /\ forall code', In code' codes -> forall now',
       is_ok (login now' userID code' (World t2 [])).1 = true) /\
    is_ok (login now userID code (World t2 [])).1 = (counter_of userID t <? counter).
Proof.
  intros secret. destruct Hnonce as [Hn Hb].
  destruct (Setup_run t userID username bytes nonce) as
    (uri & t1 & r & Hsetup & Husers & Hu1 & Hr & Hen & Hcnt & Hseal); [done..|].
  assert (Hs : secret <> "").
  { unfold secret. destruct bytes as [|a [|b [|c [|d [|e bytes]]]]]; try done; cbn; discriminate. }
  destruct (Confirm_run t1 now draws nonce' userID password code secret counter user r) as
    (codes & hashes & t2 & r2 & Hconf & Hlen & Hcodes & Hu2 & Hus2 & Hr2 & Hen2 & Hp2 & Hc2 & [_ Hs2]
      & Hj & Hhl & Hin); try done.
  { unfold user_of in *. by rewrite Husers. }
  assert (Htotp : forall now' code' counter', matchingTOTPCounter secret code' now' = Some counter' ->
    is_ok (login now' userID code' (World t2 [])).1 = (counter_of userID t <? counter')).
  { intros now' code' counter' Hm. rewrite <- Hcnt, <- Hc2. by eapply login_totp_run. }
  exists uri, t1, codes, t2. split_and!; [done|done| |done|done| |by apply Htotp].
  - unfold Status. run_clean. unfold user_of in *. rewrite Hus2, Husers, Huser. run_clean.
    rewrite Hr2, Hj, decode_marshal, Hhl, Hen2, Hp2. done.
  - intros code' Hc' now'. destruct (Hin code' Hc') as (hash & Hh & Hhin).
    rewrite Forall_forall in Hcodes. apply list_elem_of_In, Hcodes in Hc'.
    by eapply login_recovery_run; [| | |exact Hs2|apply recovery_code_no_totp| | |].
Qed.

(** Disabling. It needs the password and a code of the enabled secret;
    when it succeeds, under whatever faults, the account's secrets and
    recovery codes are erased so that no code opens a session, its security
    version is the next one, every live session of the account is revoked,
    and no other account's row or session is touched; when it fails,
    nothing changed. *)
Theorem disabling now revoked userID password code w r w'
  (Hunique : unique_rows (tables w))
  (Hrun : disable now revoked userID password code w = (r, w')) :
  let t := tables w in let t' := tables w' in
  (r <> Ok tt -> t' = t) /\
  (r = Ok tt ->
    (exists user record secret,
       user_of userID t = Some user /\ mfa_of userID t = Some record /\ Enabled record = true /\
       CheckPasswordHash password (User_Password user) = true /\
       secret_of userID record = Ok secret /\ validateTOTP secret code now = true /\
       mfa_of userID t' = Some (disabled record) /\
       sec_users t' = map (fun u => if User_ID u =? userID
         then mkUser (User_ID u) (User_Username u) (User_Password u) (User_IsAdmin u)
                (User_FirstJoin u) (User_MustChangePassword u)
                (u64 (EffectiveSecurityVersion user + 1)) (User_CreateTime u)
         else u) (sec_users t)) /\
    (forall other, other <> userID -> mfa_of other t' = mfa_of other t) /\
    Forall2 (fun s s' => if Session.scoped s && (Session.UserID s =? userID)
                            && Session.is_none (Session.RevokedAt s)
                         then s' = Session.with_revocation revoked "totp_disabled" s
                         else s' = s) (sec_sessions t) (sec_sessions t') /\
    forall now' code' w1 w2, tables w1 = t' -> login now' userID code' w1 <> (Ok tt, w2)).
Proof.
  cbv zeta. split.
  { intros Hr. destruct r as [[]|e]; [done|]. by apply transaction_Fail in Hrun. }
  intros ->. pose proof (Disable_advances now revoked userID password code w) as [Hu' _].
  rewrite Hrun in Hu'. specialize (Hu' Hunique). cbn in Hu'.
  apply transaction_Ok in Hrun as (v & v' & Hv & Hrun & Hv'). rewrite <- Hv, Hv' in *.
  apply bind_Ok in Hrun as ([user record] & v1 & (Huser & Hr & Ht)%loadUserAndMFA_Ok & Hrun).
  destruct (Enabled record) eqn:Een; [|done]. cbn [negb] in Hrun.
  destruct (CheckPasswordHash _ _) eqn:Ep; [|done]. cbn [negb] in Hrun.
  fold (secret_of userID record) in Hrun.
  destruct (secret_of userID record) as [secret|] eqn:Es; [|done].
  destruct (validateTOTP secret code now) eqn:Ev; [|done]. cbn [negb] in Hrun.
  apply bind_Ok in Hrun as (n & v2 & Hm%statement_Ok & Hrun). rewrite Ht in Hm.
  apply bind_Ok in Hrun as (u & v3 & Hb%statement_Ok & Hs%statement_Ok).
  unfold bump_version, revoke_sessions in Hb, Hs. injection Hb as _ Hb. injection Hs as Hs.
  assert (Hmfa : forall other, mfa_of other (tables v') =
    option_map (fun r => if UserID r =? UserID record then disabled r else r) (mfa_of other (tables v))).
  { intros other. rewrite <- (mfa_of_update _ disabled _ _ _ other (fun _ => eq_refl) Hm).
    unfold mfa_of. by rewrite <- Hs, <- Hb. }
  pose proof (mfa_of_id _ _ _ Hr) as Hid. rewrite Hid in Hmfa.
  assert (Hmine : mfa_of userID (tables v') = Some (disabled record)).
  { rewrite Hmfa, Hr. cbn. by rewrite Hid, Z.eqb_refl. }
  split_and!.
  - exists user, record, secret. split_and!; try done.
    rewrite <- Hs, <- Hb. injection Hm as _ <-. done.
  - intros other Hne. rewrite Hmfa. destruct (mfa_of other (tables v)) as [q|] eqn:Eq; [|done].
    cbn. rewrite (mfa_of_id _ _ _ Eq). by destruct (Z.eqb_spec other userID).
  - rewrite <- Hs, <- Hb. injection Hm as _ <-. apply Session.Forall2_update.
  - intros now' code' w1 w2 Hw1 (x & x' & Hx & Hlog & _)%transaction_Ok.
    apply verify_login_Ok in Hlog as (q & s & Hq & _). rewrite Hx, Hw1 in Hq.
    pose proof (enrolled_mfa_of _ _ _ Hu' Hq) as Hq'. apply find_some in Hq as [_ Hq].
    rewrite Hmine in Hq'. injection Hq' as <-. by apply andb_true_iff in Hq as [_ ?].
Qed.

End properties.

(** RFC 6238, appendix B (SHA-1, the last six of eight digits). *)
Example rfc6238_vectors :
  let secret := base32_encode (bytes_of "12345678901234567890") in
  map (@totpAt latin1_case secret) [1; 37037036; 37037037; 41152263; 66666666] =
  map Some ["287082"; "081804"; "050471"; "005924"; "279037"].
Proof. vm_compute. reflexivity. Qed.

(** ** Witnesses *)

(** A codec that prints a list as an opening bracket and the bits of its code. *)
Program Definition demo_hashes : HashListCodec := {|
  marshal_hashes l := String "[" (bits_of (encode l));
  unmarshal_hashes s :=
    match s with
    | String _ s => match decode (of_bits s) with
                    | Some l => Ok l
                    | None => Fail (ErrorString "invalid list")
                    end
    | EmptyString => Fail (ErrorString "unexpected end of JSON input")
    end
|}.
Next Obligation. intros l. cbn. by rewrite of_bits_of, decode_encode. Qed.
Next Obligation. intros l. by apply TrimSpace_not_blank. Qed.

Definition demo_key : CredentialKey := Some (repeat 7 32).
Definition demo_secret : list Z := bytes_of "12345678901234567890".
Definition demo_nonce : list Z := repeat 9 12.
Definition demo_now : time := (unixEpochSeconds + 59) * Second.
Definition demo_check (password hash : string) : bool := String.eqb hash ("#" +:+ password).
Definition demo_account : User := mkUser 5 "ops" "#pw" false false false 1 0.

Definition demo_sealed : string :=
  match @EncryptCredential demo_aead demo_key (Ok demo_nonce) (base32_encode demo_secret)
          (credentialPurpose CredentialPurposeTOTPSecret 5) with
  | Ok sealed => sealed
  | Fail _ => ""
  end.

(** An enrolled account with this encoded list of recovery-code hashes. *)
Definition demo_row (hashes : string) : UserMFA := mkUserMFA 5 true demo_sealed "" hashes 1 0.
Definition demo_tables (hashes : string) : SecurityTables :=
  mkSecurityTables [demo_account] [demo_row hashes]
    [Session.mkUserSession "s1" 5 "ops" "" "" 1 0 0 demo_now None "" None].

Lemma demo_secret_of h : @secret_of demo_aead demo_key 5 (demo_row h) = Ok (base32_encode demo_secret).
Proof. vm_compute. reflexivity. Qed.

Lemma demo_code :
  @matchingTOTPCounter latin1_case (base32_encode demo_secret) "287082" demo_now = Some 1.
Proof. vm_compute. reflexivity. Qed.

Lemma is_ok_run {T} (m : M T unit) w : is_ok (m w).1 = true -> m w = (Ok tt, (m w).2).
Proof. destruct (m w) as [[[]|] w']; done. Qed.

#[local] Abbreviation demo_login :=
  (@VerifyLoginCode latin1_case demo_aead demo_hashes demo_key).
#[local] Abbreviation demo_perform :=
  (@perform_all latin1_case demo_aead demo_hashes demo_check (fun s => s) demo_key).

Lemma demo_unique h : unique_rows (demo_tables h).
Proof. repeat constructor. set_solver. Qed.

Lemma totp_never_replayed_witness :
  let w := World (demo_tables "") [] in
  let w1 := (demo_login demo_now 5 "287082" w).2 in
  is_ok (demo_login (demo_now + Second) 5 "287082"
    (demo_perform [OpSetup (Ok demo_secret) (Ok demo_nonce) 5 "ops"] w1)).1 = false.
Proof.
  intros w w1. apply not_true_is_false. intros E%is_ok_run. revert E.
  apply (@totp_never_replayed latin1_case demo_aead demo_hashes demo_check (fun s => s) demo_key
    5 demo_now "287082" w w1 (demo_row "") (base32_encode demo_secret) 1
    [OpSetup (Ok demo_secret) (Ok demo_nonce) 5 "ops"] (demo_now + Second) "287082"
    (with_counter 1 (demo_row "")) (base32_encode demo_secret) 1 (demo_unique "")).
  - apply (is_ok_run (demo_login demo_now 5 "287082") w).
    exact (@login_totp_run latin1_case demo_aead demo_hashes demo_key (demo_tables "") demo_now 5
      "287082" (base32_encode demo_secret) 1 (demo_row "") (demo_unique "") eq_refl eq_refl
      (demo_secret_of "") demo_code).
  - reflexivity.
  - exact (demo_secret_of "").
  - apply demo_code.
  - vm_compute. reflexivity.
  - exact (demo_secret_of "").
  - vm_compute. reflexivity.
  - lia.
Defined.

Lemma demo_hash : exists hash, @recoveryCodeHash latin1_case demo_key 5 "AAAAA-BBBBB" = Ok hash.
Proof. unfold recoveryCodeHash, DeriveCredentialSubkey. cbn. eauto. Qed.

Lemma recovery_code_consumed_witness :
  exists hash, let h := @marshal_hashes demo_hashes [hash] in
  exists r candidate before after,
    @decodeRecoveryHashes demo_hashes (RecoveryCodeHashesJSON r) =
      Ok (before ++ candidate :: after) /\
    mfa_of 5 (tables (demo_login demo_now 5 "AAAAA-BBBBB" (World (demo_tables h) [])).2) =
      Some (with_hashes (@marshal_hashes demo_hashes (before ++ after)) r).
Proof.
  destruct demo_hash as [hash Hhash]. exists hash. intros h.
  destruct (@recovery_code_consumed latin1_case demo_aead demo_hashes demo_key 5 demo_now "AAAAA-BBBBB"
    (World (demo_tables h) []) _ (demo_unique h)
    (is_ok_run _ _ (@login_recovery_run latin1_case demo_aead demo_hashes demo_key (demo_tables h)
       demo_now 5 "AAAAA-BBBBB" (base32_encode demo_secret) (demo_row h) [hash] hash (demo_unique h)
       eq_refl eq_refl (demo_secret_of h) eq_refl eq_refl Hhash (or_introl eq_refl)))
    (fun _ _ _ _ => eq_refl))
    as (r & candidate & before & after & _ & Hd & _ & _ & Hr & _).
  exists r, candidate, before, after. split; [exact Hd|exact Hr].
Defined.

Lemma enrolment_witness :
  exists uri t1,
    @Setup demo_aead demo_key (fun s => s) (Ok demo_secret) (Ok demo_nonce) 5 "ops"
      (World (mkSecurityTables [demo_account] [] []) []) =
      (Ok (base32_encode demo_secret, uri), World t1 []).
Proof.
  destruct (@enrolment latin1_case demo_aead demo_hashes demo_check (fun s => s) demo_key (repeat 7 32)
    (mkSecurityTables [demo_account] [] []) 5 "ops" "pw" demo_account demo_secret demo_nonce demo_nonce
    (repeat (Ok (repeat 1 7)) 10) demo_now "287082" 1) as (uri & t1 & codes & t2 & Hs & _).
  all: try exact demo_code; try reflexivity.
  - split; [reflexivity|]. repeat constructor; discriminate.
  - split; [reflexivity|]. repeat constructor; discriminate.
  - discriminate.
  - repeat constructor; (exists (repeat 1 7); split; [reflexivity|]; split; [reflexivity|];
      repeat constructor; discriminate).
  - constructor.
  - discriminate.
  - exists uri, t1. exact Hs.
Defined.

Lemma disabling_witness :
  let w := World (demo_tables "") [] in
  let run := @Disable latin1_case demo_aead demo_check demo_key demo_now demo_now 5 "pw" "287082" w in
  is_ok (demo_login (demo_now + 60 * Second) 5 "287082" run.2).1 = false.
Proof.
  intros w run. apply not_true_is_false. intros E%is_ok_run.
  assert (Hrun : run = (Ok tt, run.2)) by (vm_compute; reflexivity).
  destruct (@disabling latin1_case demo_aead demo_hashes demo_check demo_key demo_now demo_now 5 "pw"
    "287082" w (Ok tt) run.2 (demo_unique "") Hrun) as [_ H].
  destruct (H eq_refl) as (_ & _ & _ & Hno). exact (Hno _ _ _ _ eq_refl E).
Defined.
