(* ===== verification/TaskReporter.v ===== *)
(** Software tasks, first part ([internal/services/softwaretask/reporter.go],
    [internal/models/software_task.go]): the durable task, its event log, and
    the reporter through which an execution publishes its phases, progress and
    outcome.

    The manager's memory (queue, cancel functions, stop flag) lives in the
    state beside the tables and is read and written without a statement.
    Subscribers and the events' surrogate keys are not modelled. *)

From S2P Require Import Prelude GoStrings GoText Store.
From stdpp Require Import options.
#[local] Open Scope Z_scope.

(** ** Statuses *)

Definition SoftwareTaskStatusQueued : string := "queued".
Definition SoftwareTaskStatusResolving : string := "resolving".
Definition SoftwareTaskStatusPrechecking : string := "prechecking".
Definition SoftwareTaskStatusInstalling : string := "installing".
Definition SoftwareTaskStatusUpgrading : string := "upgrading".
Definition SoftwareTaskStatusUninstalling : string := "uninstalling".
Definition SoftwareTaskStatusStarting : string := "starting".
Definition SoftwareTaskStatusStopping : string := "stopping".
Definition SoftwareTaskStatusRestarting : string := "restarting".
Definition SoftwareTaskStatusReloading : string := "reloading".
Definition SoftwareTaskStatusConfiguring : string := "configuring".
Definition SoftwareTaskStatusVerifying : string := "verifying".
Definition SoftwareTaskStatusFinalizing : string := "finalizing".
Definition SoftwareTaskStatusCanceling : string := "canceling".
Definition SoftwareTaskStatusRollback : string := "rolling_back".
Definition SoftwareTaskStatusSucceeded : string := "succeeded".
Definition SoftwareTaskStatusFailed : string := "failed".
Definition SoftwareTaskStatusCanceled : string := "canceled".
Definition SoftwareTaskStatusInterrupted : string := "interrupted".
Definition SoftwareTaskRollbackNotRequired : string := "not_required".
Definition SoftwareTaskRollbackRunning : string := "running".
Definition SoftwareTaskRollbackSucceeded : string := "succeeded".
Definition SoftwareTaskRollbackFailed : string := "failed".

Definition SoftwareConfigurationStatusPending : string := "pending".
Definition SoftwareConfigurationStatusSucceeded : string := "succeeded".
Definition SoftwareConfigurationStatusFailed : string := "failed".
Definition SoftwareConfigurationStatusCanceled : string := "canceled".
Definition SoftwareConfigurationStatusInterrupted : string := "interrupted".

Definition is_one_of (s : string) (l : list string) : bool := existsb (String.eqb s) l.

Definition IsSoftwareTaskTerminal (status : string) : bool :=
  is_one_of status [SoftwareTaskStatusSucceeded; SoftwareTaskStatusFailed;
    SoftwareTaskStatusCanceled; SoftwareTaskStatusInterrupted].

Definition ActiveSoftwareTaskStatuses : list string :=
  [SoftwareTaskStatusQueued;
   SoftwareTaskStatusResolving;
   SoftwareTaskStatusPrechecking;
   SoftwareTaskStatusInstalling;
   SoftwareTaskStatusUpgrading;
   SoftwareTaskStatusUninstalling;
   SoftwareTaskStatusStarting;
   SoftwareTaskStatusStopping;
   SoftwareTaskStatusRestarting;
   SoftwareTaskStatusReloading;
   SoftwareTaskStatusConfiguring;
   SoftwareTaskStatusVerifying;
   SoftwareTaskStatusFinalizing;
   SoftwareTaskStatusCanceling;
   SoftwareTaskStatusRollback].

Definition is_active (status : string) : bool := is_one_of status ActiveSoftwareTaskStatuses.

(** ** The tables and the manager's memory *)

(** [models.SoftwareTask]. *)
Record SoftwareTask := mkTask {
  T_ID : string; T_Operation : string; T_Component : string; T_SoftwareKey : string;
  T_RequestedVersion : string; T_ResolvedVersion : string; T_PackageSource : string;
  T_Status : string; T_Phase : string; T_PhaseProgress : option Z; T_Progress : Z;
  T_Message : string; T_ErrorCode : string; T_ErrorMessage : string; T_FailurePhase : string;
  T_RollbackStatus : string; T_RecoveryStatus : string; T_RecoveryMessage : string;
  T_RequestedBy : Z; T_CancelRequested : bool; T_EventSeq : Z; T_LogPath : string;
  T_ParametersJSON : string; T_StartedAt : option time; T_HeartbeatAt : option time;
  T_FinishedAt : option time; T_CreatedAt : time; T_UpdatedAt : time
}.

(** [models.SoftwareTaskEvent]; [(task_id, seq)] is unique. *)
Record SoftwareTaskEvent := mkEvent {
  E_TaskID : string; E_Seq : Z; E_Type : string; E_Level : string; E_Status : string;
  E_Phase : string; E_PhaseProgress : option Z; E_Progress : Z; E_Code : string;
  E_Message : string; E_CreatedAt : time
}.

(** [models.ComponentOperationLock]; the component is the key, the task is unique. *)
Record ComponentOperationLock := mkLock {
  L_Component : string; L_TaskID : string; L_AcquiredAt : time; L_HeartbeatAt : time
}.

(** [models.SoftwareConfigurationHistory]. *)
Record SoftwareConfigurationHistory := mkHistory {
  H_ID : string; H_TaskID : string; H_Component : string; H_SoftwareKey : string;
  H_SoftwareVersion : string; H_BaseRevision : string; H_BeforeJSON : string;
  H_AfterJSON : string; H_Status : string; H_RestoreFromID : string; H_RequestedBy : Z;
  H_FinishedAt : option time; H_CreatedAt : time; H_UpdatedAt : time
}.

(** The columns of [models.Software] that the manager reads. *)
Record Software := mkSoftware {
  S_Id : Z; S_Name : string; S_Key : string; S_Component : string; S_Version : string;
  S_Installed : bool; S_InstallVersion : string; S_InstallTime : time; S_CatalogManaged : bool;
  S_CatalogVisible : bool; S_Installable : bool
}.

(** [InstallRequest]; a map is the list of its entries in the order of iteration. *)
Record InstallRequest := mkRequest {
  R_Operation : string; R_Key : string; R_Version : string; R_Port : string;
  R_Username : string; R_Password : string; R_Parameters : list (string * string);
  R_Revision : string; R_PreviousConfiguration : list (string * string);
  R_Configuration : list (string * string); R_RestoreFromID : string
}.

(** [catalog] is the revision of row 1 of the catalog state, if the table and the
    row exist; [queue] holds the queued tasks, [cancels] the tasks with a cancel
    function, [canceled] those whose context was canceled. *)
Record TaskState := mkState {
  tasks : list SoftwareTask; events : list SoftwareTaskEvent;
  locks : list ComponentOperationLock; histories : list SoftwareConfigurationHistory;
  softwares : list Software; catalog : option (option string);
  queue : list (string * InstallRequest); cancels : list string; canceled : list string;
  stopping : bool
}.
Definition with_tasks (s : TaskState) (x : list SoftwareTask) : TaskState :=
  mkState x (events s) (locks s) (histories s) (softwares s) (catalog s) (queue s) (cancels s) (canceled s) (stopping s).
Definition with_events (s : TaskState) (x : list SoftwareTaskEvent) : TaskState :=
  mkState (tasks s) x (locks s) (histories s) (softwares s) (catalog s) (queue s) (cancels s) (canceled s) (stopping s).
Definition with_locks (s : TaskState) (x : list ComponentOperationLock) : TaskState :=
  mkState (tasks s) (events s) x (histories s) (softwares s) (catalog s) (queue s) (cancels s) (canceled s) (stopping s).
Definition with_histories (s : TaskState) (x : list SoftwareConfigurationHistory) : TaskState :=
  mkState (tasks s) (events s) (locks s) x (softwares s) (catalog s) (queue s) (cancels s) (canceled s) (stopping s).
Definition with_queue (s : TaskState) (x : list (string * InstallRequest)) : TaskState :=
  mkState (tasks s) (events s) (locks s) (histories s) (softwares s) (catalog s) x (cancels s) (canceled s) (stopping s).
Definition with_cancels (s : TaskState) (x : list string) : TaskState :=
  mkState (tasks s) (events s) (locks s) (histories s) (softwares s) (catalog s) (queue s) x (canceled s) (stopping s).
Definition with_canceled (s : TaskState) (x : list string) : TaskState :=
  mkState (tasks s) (events s) (locks s) (histories s) (softwares s) (catalog s) (queue s) (cancels s) x (stopping s).
Definition with_stopping (s : TaskState) (x : bool) : TaskState :=
  mkState (tasks s) (events s) (locks s) (histories s) (softwares s) (catalog s) (queue s) (cancels s) (canceled s) x.

(** Memory is read and written without a statement. *)
Definition get_memory {A} (f : TaskState -> A) : M TaskState A := fun w => (Ok (f (tables w)), w).
Definition set_memory (f : TaskState -> TaskState) : M TaskState unit :=
  fun w => (Ok tt, World (f (tables w)) (faults w)).

Definition is_some {A} (o : option A) : bool := match o with Some _ => true | None => false end.

(** [if value != "" { field = value }]. *)
Definition if_set (value field : string) : string := if String.eqb value "" then field else value.

(** [taskUpdate] and [eventData]; an omitted field is Go's zero value. *)
Record taskUpdate := mkUpdate {
  u_status : string; u_phase : string; u_phaseProgress : option Z; u_progress : option Z;
  u_message : string; u_errorCode : string; u_errorMessage : string; u_rollbackStatus : string;
  u_recoveryStatus : string; u_recoveryMessage : string; u_startTask : bool;
  u_finishedAt : option time; u_setFailurePhase : bool; u_cancelRequested : option bool;
  u_resolvedVersion : string; u_packageSource : string
}.
Definition noUpdate : taskUpdate :=
  mkUpdate "" "" None None "" "" "" "" "" "" false None false None "" "".

(** What the event adds to the task. *)
Record eventData := mkData {
  v_eventType : string; v_level : string; v_phaseProgress : option Z; v_code : string;
  v_message : string
}.

(** The clock readings of one publication: the start, the heartbeat, gorm's update. *)
Record Clock := mkClock { c_started : time; c_now : time; c_saved : time }.

Definition updated (u : taskUpdate) (c : Clock) (t : SoftwareTask) : SoftwareTask := {|
  T_ID := T_ID t;
  T_Operation := T_Operation t;
  T_Component := T_Component t;
  T_SoftwareKey := T_SoftwareKey t;
  T_RequestedVersion := T_RequestedVersion t;
  T_ResolvedVersion := if_set (u_resolvedVersion u) (T_ResolvedVersion t);
  T_PackageSource := if_set (u_packageSource u) (T_PackageSource t);
  T_Status := if_set (u_status u) (T_Status t);
  T_Phase := if_set (u_phase u) (T_Phase t);
  T_PhaseProgress := if is_some (u_phaseProgress u) || negb (String.eqb (u_phase u) "")
      then u_phaseProgress u else T_PhaseProgress t;
  T_Progress := match u_progress u with
      | Some p => if T_Progress t <=? p then p else T_Progress t
      | None => T_Progress t
      end;
  T_Message := if_set (u_message u) (T_Message t);
  T_ErrorCode := if_set (u_errorCode u) (T_ErrorCode t);
  T_ErrorMessage := if_set (u_errorMessage u) (T_ErrorMessage t);
  T_FailurePhase := if u_setFailurePhase u then T_Phase t else T_FailurePhase t;
  T_RollbackStatus := if_set (u_rollbackStatus u) (T_RollbackStatus t);
  T_RecoveryStatus := if_set (u_recoveryStatus u) (T_RecoveryStatus t);
  T_RecoveryMessage := if_set (u_recoveryMessage u) (T_RecoveryMessage t);
  T_RequestedBy := T_RequestedBy t;
  T_CancelRequested := default (T_CancelRequested t) (u_cancelRequested u);
  T_EventSeq := i64 (T_EventSeq t + 1);
  T_LogPath := T_LogPath t;
  T_ParametersJSON := T_ParametersJSON t;
  T_StartedAt := if u_startTask u && negb (is_some (T_StartedAt t)) then Some (c_started c)
      else T_StartedAt t;
  T_HeartbeatAt := Some (c_now c);
  T_FinishedAt := if is_some (u_finishedAt u) then u_finishedAt u else T_FinishedAt t;
  T_CreatedAt := T_CreatedAt t;
  T_UpdatedAt := c_saved c
|}.

(** ** Statements *)

Definition task_of (id : string) (s : TaskState) : option SoftwareTask :=
  List.find (fun t => String.eqb (T_ID t) id) (tasks s).

(** [Save] of a task that was just read: its row is replaced. *)
Definition save_task (t : SoftwareTask) (s : TaskState) : result (unit * TaskState) :=
  Ok (tt, with_tasks s
    (if existsb (fun q => String.eqb (T_ID q) (T_ID t)) (tasks s)
     then map (fun q => if String.eqb (T_ID q) (T_ID t) then t else q) (tasks s)
     else tasks s ++ [t])).

Definition create_event (e : SoftwareTaskEvent) (s : TaskState) : result (unit * TaskState) :=
  if existsb (fun q => String.eqb (E_TaskID q) (E_TaskID e) && (E_Seq q =? E_Seq e)) (events s)
  then Fail (ErrorString "UNIQUE constraint failed: software_task_event.task_id, software_task_event.seq")
  else Ok (tt, with_events s (events s ++ [e])).

Definition with_history_status (status : string) (finished : option time) (now : time)
    (h : SoftwareConfigurationHistory) : SoftwareConfigurationHistory :=
  mkHistory (H_ID h) (H_TaskID h) (H_Component h) (H_SoftwareKey h) (H_SoftwareVersion h)
    (H_BaseRevision h) (H_BeforeJSON h) (H_AfterJSON h) status (H_RestoreFromID h)
    (H_RequestedBy h) finished (H_CreatedAt h) now.

Definition close_history (taskID status : string) (finished : option time) (now : time)
    (s : TaskState) : result (unit * TaskState) :=
  Ok (tt, with_histories s (map (fun h =>
    if String.eqb (H_TaskID h) taskID
       && String.eqb (H_Status h) SoftwareConfigurationStatusPending
    then with_history_status status finished now h else h) (histories s))).

Definition configurationHistoryStatus (taskStatus : string) : string :=
  if String.eqb taskStatus SoftwareTaskStatusSucceeded then SoftwareConfigurationStatusSucceeded
  else if String.eqb taskStatus SoftwareTaskStatusCanceled then SoftwareConfigurationStatusCanceled
  else if String.eqb taskStatus SoftwareTaskStatusInterrupted
  then SoftwareConfigurationStatusInterrupted
  else SoftwareConfigurationStatusFailed.

Definition event_for (t : SoftwareTask) (v : eventData) (now : time) : SoftwareTaskEvent :=
  mkEvent (T_ID t) (T_EventSeq t) (v_eventType v) (v_level v) (T_Status t) (T_Phase t)
    (v_phaseProgress v) (T_Progress t) (v_code v) (v_message v) now.

Definition publishLocked (c : Clock) (taskID : string) (u : taskUpdate) (v : eventData)
    : M TaskState unit :=
  transaction
    (let* task := first (task_of taskID) in
     if IsSoftwareTaskTerminal (T_Status task) then ret tt
     else
       let task := updated u c task in
       let* _ := exec (save_task task) in
       let* _ := (if is_some (u_finishedAt u) && String.eqb (T_Operation task) "configure"
                  then exec (close_history (T_ID task) (configurationHistoryStatus (T_Status task))
                               (u_finishedAt u) (c_now c))
                  else ret tt) in
       exec (create_event (event_for task v (c_now c)))).

(** ** Phases *)

Record phaseRange := mkPhase { ph_status : string; ph_start : Z; ph_end : Z; ph_label : string }.

Definition softwareTaskPhases : list (string * phaseRange) :=
  [("resolving", mkPhase SoftwareTaskStatusResolving 0 5 "获取安装包");
   ("precheck", mkPhase SoftwareTaskStatusPrechecking 5 12 "环境预检");
   ("install", mkPhase SoftwareTaskStatusInstalling 12 72 "安装软件");
   ("upgrade", mkPhase SoftwareTaskStatusUpgrading 12 72 "升级软件");
   ("uninstall", mkPhase SoftwareTaskStatusUninstalling 5 96 "卸载软件");
   ("start", mkPhase SoftwareTaskStatusStarting 5 96 "启动服务");
   ("stop", mkPhase SoftwareTaskStatusStopping 5 96 "停止服务");
   ("restart", mkPhase SoftwareTaskStatusRestarting 5 96 "重启服务");
   ("reload", mkPhase SoftwareTaskStatusReloading 5 96 "重载服务");
   ("configure", mkPhase SoftwareTaskStatusConfiguring 72 84 "写入配置");
   ("config_apply", mkPhase SoftwareTaskStatusConfiguring 5 96 "安全发布组件配置");
   ("verify", mkPhase SoftwareTaskStatusVerifying 84 96 "启动并验证");
   ("finalizing", mkPhase SoftwareTaskStatusFinalizing 96 100 "保存任务状态")].

Definition phase_spec (phase : string) : option phaseRange :=
  option_map snd (List.find (fun p => String.eqb (fst p) phase) softwareTaskPhases).

Definition eventTypeForProgress (progress : option Z) : string :=
  match progress with None => "phase" | Some _ => "progress" end.

Definition setPhase (c : Clock) (taskID phase : string) (phaseProgress : option Z)
    (message code : string) : M TaskState unit :=
  match phase_spec phase with
  | None => fail (ErrorString ("unknown software task phase " +:+ phase))
  | Some spec =>
      let progress :=
        match phaseProgress with
        | None => ph_start spec
        | Some p => ph_start spec + Z.quot ((ph_end spec - ph_start spec) * p) 100
        end in
      publishLocked c taskID
        (mkUpdate (ph_status spec) phase phaseProgress (Some progress) message "" "" "" "" ""
           true None false None "" "")
        (mkData (eventTypeForProgress phaseProgress) "info" phaseProgress code message)
  end.

(** [now] is the clock when [finish] starts. *)
Definition finish (c : Clock) (now : time) (taskID status errorCode message : string)
    : M TaskState unit :=
  let success := String.eqb status SoftwareTaskStatusSucceeded in
  let failed := String.eqb status SoftwareTaskStatusFailed
                || String.eqb status SoftwareTaskStatusCanceled in
  publishLocked c taskID
    (mkUpdate status status (if success then Some 100 else None) (if success then Some 100 else None)
       message errorCode (if failed then message else "") "" "" "" false (Some now) failed None "" "")
    (mkData "terminal" (if success then "info" else "error") None errorCode message).

Section reporter.
Context `{!UnicodeCase}.

Definition normalizeActionPhase (action : string) : option string :=
  let a := ToLower (TrimSpace action) in
  if is_one_of a ["precheck"; "install"; "upgrade"; "uninstall"; "start"; "stop"; "restart";
       "reload"; "configure"; "verify"] then Some a
  else if String.eqb a "configapply" then Some "config_apply"
  else None.

Definition phase_label (phase : string) : string :=
  match phase_spec phase with Some spec => ph_label spec | None => "" end.

(** [strings.Map] over the controls below 0x20 other than the tab. *)
Definition drop_controls (s : string) : string :=
  Map (fun r => if (r <? 32) && negb (r =? 9) then None else Some r) s.

Definition safeErrorMessage (err : error) : string :=
  let message := drop_controls (Error err) in
  if 1000 <? len message then take_bytes 1000 message else message.

(** The calls that an execution makes on its reporter. *)
Inductive report :=
  | OnActionStart (action : string)
  | OnPackageResolved (version source : string)
  | OnActionProgress (action : string) (percent : Z) (code message : string)
  | OnActionComplete (action : string)
  | OnRollbackStart
  | OnRollbackComplete (rollbackErr : option error).

(** Errors of the publication are discarded. *)
Definition on_report (c : Clock) (taskID : string) (r : report) : M TaskState (result unit) :=
  match r with
  | OnActionStart action =>
      match normalizeActionPhase action with
      | None => ret (Ok tt)
      | Some phase =>
          attempt (setPhase c taskID phase None ("正在" +:+ phase_label phase) (action +:+ "_started"))
      end
  | OnPackageResolved version source =>
      let version := TrimSpace version in
      let source := TrimSpace source in
      if String.eqb version "" && String.eqb source "" then ret (Ok tt)
      else
        let message := "已解析组件脚本包"
          +:+ (if String.eqb version "" then "" else " " +:+ version)
          +:+ (if String.eqb source "" then "" else "（" +:+ source +:+ "）") in
        attempt (publishLocked c taskID
          (mkUpdate "" "" None None "" "" "" "" "" "" false None false None version source)
          (mkData "package" "info" None "package_resolved" message))
  | OnActionProgress action percent code message =>
      match normalizeActionPhase action with
      | None => ret (Ok tt)
      | Some phase =>
          let percent := if percent <? 0 then 0 else if 100 <? percent then 100 else percent in
          let message := if String.eqb (TrimSpace message) "" then "正在" +:+ phase_label phase
                         else message in
          attempt (setPhase c taskID phase (Some percent) message code)
      end
  | OnActionComplete action =>
      match normalizeActionPhase action with
      | None => ret (Ok tt)
      | Some phase =>
          attempt (setPhase c taskID phase (Some 100) (phase_label phase +:+ "完成")
                     (action +:+ "_completed"))
      end
  | OnRollbackStart =>
      attempt (publishLocked c taskID
        (mkUpdate SoftwareTaskStatusRollback SoftwareTaskStatusRollback None None
           "安装失败，正在回滚变更" "" "" SoftwareTaskRollbackRunning "" "" false None false None "" "")
        (mkData "phase" "warning" None "rollback_started" "安装失败，正在回滚变更"))
  | OnRollbackComplete None =>
      attempt (publishLocked c taskID
        (mkUpdate "" "" None None "回滚完成" "" "" SoftwareTaskRollbackSucceeded "" "" false None
           false None "" "")
        (mkData "warning" "warning" None "rollback_completed" "回滚完成"))
  | OnRollbackComplete (Some rollbackErr) =>
      let message := "回滚失败：" +:+ safeErrorMessage rollbackErr in
      attempt (publishLocked c taskID
        (mkUpdate "" "" None None message "" "" SoftwareTaskRollbackFailed "recovery_required"
           "自动回滚失败；已保留迁移快照，请根据任务日志执行恢复" false None false None "" "")
        (mkData "warning" "error" None "rollback_failed" message))
  end.
End reporter.

(** ** What a publication does *)

Definition unique_tasks (s : TaskState) : Prop := NoDup (map T_ID (tasks s)).

Lemma task_of_id id s t : task_of id s = Some t -> T_ID t = id /\ In t (tasks s).
Proof. intros [H1 H2]%find_some. apply String.eqb_eq in H2. auto. Qed.

Lemma task_of_unique s t : unique_tasks s -> In t (tasks s) -> task_of (T_ID t) s = Some t.
Proof.
  unfold unique_tasks, task_of. induction (tasks s) as [|q l IH]; [done|]. cbn [map].
  intros [Hq Hl]%NoDup_cons [->|Hin]; cbn; [by rewrite String.eqb_refl|].
  destruct (String.eqb_spec (T_ID q) (T_ID t)) as [E|]; [|by apply IH].
  exfalso. apply Hq. rewrite E. apply list_elem_of_In, in_map_iff. eauto.
Qed.

(** Replacing the row that was read is updating it in place. *)
Definition in_place (id : string) (f : SoftwareTask -> SoftwareTask) (l : list SoftwareTask)
    : list SoftwareTask :=
  map (fun q => if String.eqb (T_ID q) id then f q else q) l.

Lemma save_task_in_place id s t f :
  unique_tasks s -> task_of id s = Some t -> T_ID (f t) = T_ID t ->
  save_task (f t) s = Ok (tt, with_tasks s (in_place id f (tasks s))).
Proof.
  intros Hu Ht Hf. apply task_of_id in Ht as [Hid Hin]. unfold save_task. rewrite Hf, Hid.
  assert (existsb (fun q => String.eqb (T_ID q) id) (tasks s) = true) as ->.
  { apply existsb_exists. exists t. by rewrite Hid, String.eqb_refl. }
  unfold in_place. do 3 f_equal. apply map_ext_in. intros q Hq.
  destruct (String.eqb_spec (T_ID q) id) as [E|]; [|done].
  pose proof (task_of_unique _ _ Hu Hq) as H1. pose proof (task_of_unique _ _ Hu Hin) as H2.
  rewrite E in H1. rewrite Hid in H2. congruence.
Qed.

(** The committed effect of a publication on task [id]. *)
Definition published (c : Clock) (id : string) (u : taskUpdate) (v : eventData)
    (s s' : TaskState) : Prop :=
  exists t hs, task_of id s = Some t /\ IsSoftwareTaskTerminal (T_Status t) = false /\
    existsb (fun q => String.eqb (E_TaskID q) id && (E_Seq q =? T_EventSeq (updated u c t)))
      (events s) = false /\
    s' = mkState (in_place id (updated u c) (tasks s))
           (events s ++ [event_for (updated u c t) v (c_now c)]) (locks s) hs (softwares s)
           (catalog s) (queue s) (cancels s) (canceled s) (stopping s).

Lemma publish_tx c id u v w r w' :
  unique_tasks (tables w) -> publishLocked c id u v w = (r, w') ->
  tables w' = tables w \/ r = Ok tt /\ published c id u v (tables w) (tables w').
Proof.
  intros Hu [->|(a & w1 & w2 & -> & E1 & Hrun & ->)]%transaction_outcome; [by left|].
  rewrite <- E1 in *. apply bind_Ok in Hrun as (t & v1 & [Ht Hv1]%first_Ok & Hrun).
  destruct (IsSoftwareTaskTerminal (T_Status t)) eqn:Et.
  { left. by apply ret_Ok in Hrun as [_ ->]. }
  right. destruct a. split; [done|].
  apply bind_Ok in Hrun as ([] & v2 & Hs%statement_Ok & Hrun).
  rewrite Hv1, (save_task_in_place id _ t (updated u c)) in Hs by done.
  apply bind_Ok in Hrun as ([] & v3 & Hh & Hc%statement_Ok).
  pose proof Ht as [Hid _]%task_of_id.
  assert (Hv3 : exists hs, tables v3 = with_histories (tables v2) hs).
  { destruct (is_some _ && _).
    - apply statement_Ok in Hh. injection Hh as <-. eauto.
    - apply ret_Ok in Hh as [_ ->]. exists (histories (tables v2)). by destruct (tables v2). }
  destruct Hv3 as [hs Hv3]. injection Hs as Hs. unfold create_event in Hc. rewrite Hv3, <- Hs in Hc.
  cbn in Hc. destruct (existsb _ (events (tables w1))) eqn:Ee; [done|]. injection Hc as Hc.
  exists t, hs. split_and!; [done|done| |by rewrite <- Hc].
  cbn. rewrite <- Hid. exact Ee.
Qed.

(** Without faults, and unless the event number is taken, a publication on a
    live task commits. *)
Lemma publish_run c id u v s t :
  unique_tasks s -> task_of id s = Some t -> IsSoftwareTaskTerminal (T_Status t) = false ->
  existsb (fun q => String.eqb (E_TaskID q) id && (E_Seq q =? T_EventSeq (updated u c t)))
    (events s) = false ->
  exists s', publishLocked c id u v (World s []) = (Ok tt, World s' []) /\ published c id u v s s'.
Proof.
  intros Hu Ht Hl He. pose proof Ht as [Hid _]%task_of_id.
  set (s1 := with_tasks s (in_place id (updated u c) (tasks s))).
  set (s2 := if is_some (u_finishedAt u) && String.eqb (T_Operation t) "configure"
    then with_histories s1 (map (fun h =>
      if String.eqb (H_TaskID h) (T_ID t) && String.eqb (H_Status h) SoftwareConfigurationStatusPending
      then with_history_status (configurationHistoryStatus (T_Status (updated u c t))) (u_finishedAt u)
             (c_now c) h else h) (histories s1)) else s1).
  exists (with_events s2 (events s ++ [event_for (updated u c t) v (c_now c)])). split.
  - unfold publishLocked. erewrite (run_transaction _ s (Ok tt)); [done|].
    run_clean. rewrite Ht, Hl. run_clean. rewrite (save_task_in_place id s t (updated u c)) by done.
    fold s1. assert (Hc : create_event (event_for (updated u c t) v (c_now c)) s2 =
      Ok (tt, with_events s2 (events s ++ [event_for (updated u c t) v (c_now c)]))).
    { unfold create_event. replace (events s2) with (events s) by (unfold s2; by destruct (_ && _)).
      cbn [E_TaskID E_Seq event_for]. change (T_ID (updated u c t)) with (T_ID t). by rewrite Hid, He. }
    revert Hc. unfold s2. change (T_Operation (updated u c t)) with (T_Operation t).
    destruct (is_some _ && _); intros Hc.
    + run_clean. unfold close_history at 1. run_clean. change (T_ID (updated u c t)) with (T_ID t).
      by rewrite Hc.
    + run_clean. by rewrite Hc.
  - exists t, (histories s2). split_and!; [done..|]. unfold s2. by destruct (_ && _).
Qed.

(** ** Invariants of the log and of the tasks *)

Definition seqs (id : string) (s : TaskState) : list Z :=
  map E_Seq (List.filter (fun e => String.eqb (E_TaskID e) id) (events s)).

(** The events of every task are numbered 1, 2, ... up to its [EventSeq], which
    has room for [n] more. *)
Definition logged (n : Z) (s : TaskState) : Prop :=
  Forall (fun t => seqs (T_ID t) s = seqZ 1 (T_EventSeq t) /\
                   0 <= T_EventSeq t < 2 ^ 63 - n) (tasks s).

Record same_identity (t t' : SoftwareTask) : Prop := {
  same_ID : T_ID t' = T_ID t;
  same_Operation : T_Operation t' = T_Operation t;
  same_Component : T_Component t' = T_Component t;
  same_SoftwareKey : T_SoftwareKey t' = T_SoftwareKey t;
  same_RequestedVersion : T_RequestedVersion t' = T_RequestedVersion t;
  same_RequestedBy : T_RequestedBy t' = T_RequestedBy t;
  same_LogPath : T_LogPath t' = T_LogPath t;
  same_ParametersJSON : T_ParametersJSON t' = T_ParametersJSON t;
  same_CreatedAt : T_CreatedAt t' = T_CreatedAt t
}.

#[global] Instance same_identity_preorder : PreOrder same_identity.
Proof.
  split.
  - by intros t.
  - intros t1 t2 t3 [] []. split; congruence.
Qed.

(** A finished task never changes; a live one keeps its identity and its
    progress never goes back. *)
Definition task_evolves (t t' : SoftwareTask) : Prop :=
  same_identity t t' /\ T_Progress t <= T_Progress t' /\
  (IsSoftwareTaskTerminal (T_Status t) = true -> t' = t).

#[global] Instance task_evolves_preorder : PreOrder task_evolves.
Proof.
  split.
  - intros t. split_and!; [reflexivity|lia|done].
  - intros t1 t2 t3 (Hi1 & Hp1 & Ht1) (Hi2 & Hp2 & Ht2). split_and!.
    + by transitivity t2.
    + lia.
    + intros Ht. specialize (Ht1 Ht). subst t2. auto.
Qed.

Definition evolves (s s' : TaskState) : Prop :=
  (unique_tasks s -> unique_tasks s') /\
  (forall id t, task_of id s = Some t -> exists t', task_of id s' = Some t' /\ task_evolves t t') /\
  exists added, events s' = events s ++ added.

#[global] Instance evolves_preorder : PreOrder evolves.
Proof.
  split.
  - intros s. split_and!; [done| |by exists []; rewrite app_nil_r].
    intros id t Ht. exists t. by split.
  - intros s1 s2 s3 (Hu1 & Ht1 & l1 & He1) (Hu2 & Ht2 & l2 & He2). split_and!; [auto| |].
    + intros id t (t2 & H2 & E2)%Ht1. apply Ht2 in H2 as (t3 & H3 & E3). exists t3.
      split; [done|by transitivity t2].
    + exists (l1 ++ l2). by rewrite He2, He1, app_assoc.
Qed.

Lemma updated_identity u c t : same_identity t (updated u c t).
Proof. by split. Qed.

Lemma updated_progress u c t : T_Progress t <= T_Progress (updated u c t).
Proof. cbn. destruct (u_progress u); [|lia]. destruct (Z.leb_spec (T_Progress t) z); lia. Qed.

Lemma in_place_ids id f l :
  (forall t, T_ID (f t) = T_ID t) -> map T_ID (in_place id f l) = map T_ID l.
Proof.
  intros Hf. unfold in_place in *. induction l as [|q l IH]; cbn; [done|]. rewrite IH.
  destruct (String.eqb _ _); by rewrite ?Hf.
Qed.

Lemma find_in_place id f other l :
  (forall t, T_ID (f t) = T_ID t) ->
  List.find (fun t => String.eqb (T_ID t) other) (in_place id f l) =
  option_map (fun q => if String.eqb (T_ID q) id then f q else q)
    (List.find (fun t => String.eqb (T_ID t) other) l).
Proof.
  intros Hf. unfold in_place in *. induction l as [|q l IH]; cbn; [done|].
  assert (T_ID (if String.eqb (T_ID q) id then f q else q) = T_ID q) as ->
    by (destruct (String.eqb _ _); by rewrite ?Hf).
  by destruct (String.eqb (T_ID q) other).
Qed.

Lemma published_evolves c id u v s s' :
  published c id u v s s' -> evolves s s'.
Proof.
  intros (t & hs & Ht & Hl & _ & ->). split_and!.
  - unfold unique_tasks. cbn. by rewrite in_place_ids.
  - intros other q Hq. unfold task_of in *. cbn [tasks]. rewrite find_in_place, Hq by done. cbn.
    eexists. split; [done|]. destruct (String.eqb_spec (T_ID q) id) as [E|]; [|done].
    apply find_some in Hq as Hq'. destruct Hq' as [_ Hq']. apply String.eqb_eq in Hq'.
    rewrite <- E, Hq', Hq in Ht. injection Ht as ->.
    split_and!; [apply updated_identity|apply updated_progress|by rewrite Hl].
  - by eexists.
Qed.

Lemma seqZ_snoc n : 0 <= n -> seqZ 1 (n + 1) = seqZ 1 n ++ [n + 1].
Proof.
  intros Hn. rewrite seqZ_app by lia. f_equal. replace (1 + n) with (n + 1) by lia. done.
Qed.

Lemma published_logged n c id u v s s' :
  published c id u v s s' -> 0 <= n -> logged (n + 1) s -> logged n s'.
Proof.
  intros (t & hs & Ht & _ & _ & ->) Hn Hlog. unfold logged, in_place in *. cbn [tasks].
  apply Forall_map_iff. eapply Forall_impl; [exact Hlog|]. cbn beta. intros q [Hq Hb].
  pose proof Ht as [Hid Hin]%task_of_id. rewrite Forall_forall in Hlog.
  destruct (Hlog t) as [Hts Htb]; [by apply list_elem_of_In|].
  unfold seqs in *. cbn [events]. rewrite List.filter_app, map_app.
  cbn [List.filter event_for E_TaskID]. change (T_ID (updated u c t)) with (T_ID t). rewrite Hid.
  destruct (String.eqb_spec (T_ID q) id) as [E|Hne].
  - change (T_ID (updated u c q)) with (T_ID q).
    change (T_EventSeq (updated u c q)) with (i64 (T_EventSeq q + 1)).
    rewrite Hq, E, String.eqb_refl. cbn [map event_for E_Seq].
    change (T_EventSeq (updated u c t)) with (i64 (T_EventSeq t + 1)).
    assert (T_EventSeq t = T_EventSeq q) as ->.
    { rewrite E in Hq. rewrite Hid in Hts. rewrite Hq in Hts.
      apply (f_equal (@List.length Z)) in Hts. rewrite !length_seqZ in Hts. lia. }
    rewrite i64_small by lia. rewrite seqZ_snoc by lia. split; [done|lia].
  - destruct (String.eqb_spec id (T_ID q)); [congruence|]. cbn [map]. rewrite app_nil_r.
    split; [done|lia].
Qed.

Lemma logged_weaken n m s : n <= m -> logged m s -> logged n s.
Proof. intros Hn H. eapply Forall_impl; [exact H|]. cbn. intros t [? ?]. split; [done|lia]. Qed.

(** ** Reports *)

(** A publication that leaves a task live, unless it finishes it. *)
Definition known_update (u : taskUpdate) : Prop :=
  u_status u = "" \/ is_active (u_status u) = true \/ IsSoftwareTaskTerminal (u_status u) = true.

Lemma setPhase_tx c id phase p message code w r w' :
  unique_tasks (tables w) -> setPhase c id phase p message code w = (r, w') ->
  tables w' = tables w \/
  exists u v, is_active (u_status u) = true /\ r = Ok tt /\ published c id u v (tables w) (tables w').
Proof.
  intros Hu. unfold setPhase. destruct (phase_spec phase) as [spec|] eqn:Es; [|intros [= _ <-]; by left].
  intros [?|[-> Hp]]%publish_tx; [by left| |done]. right. eexists _, _. split_and!; [|done|exact Hp].
  unfold phase_spec in Es. destruct (List.find _ _) as [[k x]|] eqn:Ef; [|done].
  injection Es as <-. apply find_some in Ef as [Hin _]. cbn in Hin.
  repeat (destruct Hin as [[= <- <-]|Hin]; [reflexivity|]). destruct Hin.
Qed.

Section reports.
Context `{!UnicodeCase}.

Lemma on_report_tx c id r w x w' :
  unique_tasks (tables w) -> on_report c id r w = (x, w') ->
  tables w' = tables w \/
  exists u v, known_update u /\ published c id u v (tables w) (tables w').
Proof.
  intros Hu. unfold on_report, attempt.
  assert (Hset : forall phase p m code, (let '(r0, w1) := setPhase c id phase p m code w in
    (Ok r0, w1)) = (x, w') -> tables w' = tables w \/
    exists u v, known_update u /\ published c id u v (tables w) (tables w')).
  { intros phase p m code. destruct (setPhase _ _ _ _ _ _ _) as [r0 w1] eqn:E. intros [= _ <-].
    apply setPhase_tx in E as [|(u & v & Ha & _ & Hp)]; [by left| |done]. right. exists u, v.
    split; [by right; left|done]. }
  assert (Hpub : forall u v, known_update u -> (let '(r0, w1) := publishLocked c id u v w in
    (Ok r0, w1)) = (x, w') -> tables w' = tables w \/
    exists u v, known_update u /\ published c id u v (tables w) (tables w')).
  { intros u v Hk. destruct (publishLocked _ _ _ _ _) as [r0 w1] eqn:E. intros [= _ <-].
    apply publish_tx in E as [|[_ Hp]]; [by left|right; eauto|done]. }
  destruct r as [a|v src|a p code m|a| |[e|]]; cbv zeta.
  - destruct (normalizeActionPhase a); [apply Hset|intros [= _ <-]; by left].
  - destruct (_ && _); [intros [= _ <-]; by left|apply Hpub; by left].
  - destruct (normalizeActionPhase a); [apply Hset|intros [= _ <-]; by left].
  - destruct (normalizeActionPhase a); [apply Hset|intros [= _ <-]; by left].
  - apply Hpub. right; left. reflexivity.
  - apply Hpub. by left.
  - apply Hpub. by left.
Qed.

(** Reports on any tasks, in order. *)
Definition report_all (l : list (Clock * string * report)) (w : world TaskState)
    : world TaskState :=
  fold_left (fun w '(c, id, r) => (on_report c id r w).2) l w.

Lemma on_report_keeps n c id r w :
  unique_tasks (tables w) -> 0 <= n -> logged (n + 1) (tables w) ->
  evolves (tables w) (tables (on_report c id r w).2) /\ logged n (tables (on_report c id r w).2).
Proof.
  intros Hu Hn Hl. destruct (on_report c id r w) as [x w'] eqn:E. cbn.
  apply on_report_tx in E as [->|(u & v & _ & Hp)]; [| |done].
  - split; [reflexivity|]. eapply logged_weaken; [|exact Hl]. lia.
  - split; [by eapply published_evolves|by eapply published_logged].
Qed.

(** ** Properties of reports *)

(** C39: what reporting may do to tasks. Under whatever faults, any sequence
    of reports on any tasks leaves a finished task as it was, changes neither
    the identity nor the request of a task, never moves its progress back,
    only appends to the event log, and keeps every task's events numbered
    1, 2, ... up to its event counter. *)
Theorem reports_preserve_history l w
  (Hunique : unique_tasks (tables w)) (Hlogged : logged (Z.of_nat (List.length l)) (tables w)) :
  evolves (tables w) (tables (report_all l w)) /\ logged 0 (tables (report_all l w)).
Proof.
  revert w Hunique Hlogged. induction l as [|[[c id] r] l IH]; intros w Hu Hl; cbn [report_all fold_left].
  { by split. }
  destruct (on_report_keeps (Z.of_nat (List.length l)) c id r w) as [He Hl']; [done|lia| |].
  { eapply logged_weaken; [|exact Hl]. cbn [List.length]. lia. }
  destruct (IH (on_report c id r w).2) as [He2 Hl2]; [by apply He|done|].
  split; [by transitivity (tables (on_report c id r w).2)|done].
Qed.
End reports.

Definition demo_task (id component status : string) (seq : Z) : SoftwareTask :=
  mkTask id "install" component component "1" "" "" status status None 0 "" "" "" ""
    SoftwareTaskRollbackNotRequired "" "" 7 false seq ("/log/task_" +:+ id +:+ ".log") "{}"
    None None None 0 0.
Definition demo_event (id : string) : SoftwareTaskEvent :=
  mkEvent id 1 "snapshot" "info" "queued" "queued" None 0 "task_queued" "" 0.
Definition demo_tasks : TaskState :=
  mkState [demo_task "t1" "nginx" "queued" 1; demo_task "t2" "redis" "failed" 1]
    [demo_event "t1"; demo_event "t2"] [] [] [] None [] [] [] false.
Definition demo_clock : Clock := mkClock 10 11 12.
Definition demo_reports : list (Clock * string * report) :=
  [(demo_clock, "t1", OnActionStart "install"); (demo_clock, "t2", OnActionStart "install");
   (demo_clock, "t1", OnActionProgress "install" 50 "half" "");
   (demo_clock, "t1", OnActionStart "precheck")].

Lemma demo_tasks_unique : unique_tasks demo_tasks.
Proof. repeat constructor; set_solver. Qed.

Lemma demo_tasks_logged n : n <= 100 -> logged n demo_tasks.
Proof. intros Hn. repeat constructor; cbn; try lia; vm_compute; reflexivity. Qed.

Lemma reports_preserve_history_witness :
  let w' := @report_all latin1_case demo_reports (World demo_tasks []) in
  map T_Progress (tasks (tables w')) = [42; 0] /\ map T_EventSeq (tasks (tables w')) = [4; 1] /\
  logged 0 (tables w').
Proof.
  intros w'. split; [vm_compute; reflexivity|]. split; [vm_compute; reflexivity|].
  apply (@reports_preserve_history latin1_case demo_reports (World demo_tasks []) demo_tasks_unique).
  apply demo_tasks_logged. vm_compute. discriminate.
Defined.
