(* ===== verification/SoftTask.v ===== *)
(** Software tasks, second part ([internal/services/softwaretask/manager.go] and
    the queries, cancellation and heartbeat of [repository.go]): submission,
    the execution of a queued task, component locks, cancellation, shutdown and
    recovery after a restart.

    The executor is an argument of [run]: the reports it makes and the error it
    returns.  [startErr] is what the memoised [Start] returned.  Log files are
    not modelled. *)

From S2P Require Import Prelude GoStrings GoText GoCrypto GoJson Store TaskReporter.
From stdpp Require Import sorting options.
#[local] Open Scope Z_scope.

Definition defaultQueueSize : Z := 128.
Definition ContextCanceled : string := "context canceled".
Definition ContextDeadlineExceeded : string := "context deadline exceeded".

(** The first row in the order [better]. *)
Definition pick {A} (better : A -> A -> bool) (l : list A) : option A :=
  fold_left (fun acc x => match acc with
                          | None => Some x
                          | Some y => if better x y then Some x else acc
                          end) l None.

(** A descending order on booleans, and lexicographic composition. *)
Definition bool_desc (a b : bool) (next : bool) : bool :=
  if a then if b then next else true else if b then false else next.

Definition catalog_first (x y : Software) : bool :=
  bool_desc (S_CatalogManaged x) (S_CatalogManaged y)
    (bool_desc (S_CatalogVisible x) (S_CatalogVisible y) (S_Id y <? S_Id x)).
Definition visible_first (x y : Software) : bool :=
  bool_desc (S_CatalogVisible x) (S_CatalogVisible y) (S_Id y <? S_Id x).
Definition recent_first (x y : Software) : bool :=
  if S_InstallTime y <? S_InstallTime x then true
  else if S_InstallTime x <? S_InstallTime y then false else S_Id y <? S_Id x.
Definition oldest_first (x y : Software) : bool := S_Id x <? S_Id y.
Definition newest_first (x y : Software) : bool := S_Id y <? S_Id x.

Definition first_software (better : Software -> Software -> bool) (c : Software -> bool)
    : M TaskState Software :=
  first (fun s => pick better (List.filter c (softwares s))).

(** ** Names of operations *)

Definition operationLabel (operation : string) : string :=
  if String.eqb operation "upgrade" then "升级"
  else if String.eqb operation "uninstall" then "卸载"
  else if String.eqb operation "start" then "启动"
  else if String.eqb operation "stop" then "停止"
  else if String.eqb operation "restart" then "重启"
  else if String.eqb operation "reload" then "重载"
  else if String.eqb operation "configure" then "配置"
  else "安装".

Definition operationSuccessMessage (operation : string) : string :=
  if String.eqb operation "uninstall" then "卸载完成，软件数据按组件策略保留"
  else if String.eqb operation "start" then "服务启动成功"
  else if String.eqb operation "stop" then "服务停止成功"
  else if String.eqb operation "restart" then "服务重启成功"
  else if String.eqb operation "reload" then "服务重载成功"
  else if String.eqb operation "configure" then "配置已安全发布并验证成功"
  else if String.eqb operation "upgrade" then "升级并验证成功"
  else "安装并验证成功".

Definition keys_of (m : list (string * string)) : list string := map fst m.

Definition sameConfigurationKeys (left right : list (string * string)) : bool :=
  (List.length left =? List.length right)%nat
  && forallb (fun k => is_one_of k (keys_of right)) (keys_of left).

Definition in_range (lo hi : Z) (c : ascii) : bool := (lo <=? byte_of c) && (byte_of c <=? hi).

(** A revision is 64 bytes whose runes are lower-case hexadecimal digits. *)
Definition is_revision (revision : string) : bool :=
  (len revision =? 64)
  && forallb (fun r => ((48 <=? r) && (r <=? 57)) || ((97 <=? r) && (r <=? 102))) (runes revision).

Definition is_field_name (key : string) : bool :=
  match key with
  | EmptyString => false
  | String c rest =>
      (len key <=? 64) && in_range 97 122 c
      && forallb (fun r => ((97 <=? r) && (r <=? 122)) || ((65 <=? r) && (r <=? 90))
                           || ((48 <=? r) && (r <=? 57))) (runes rest)
  end.

Definition is_field_value (value : string) : bool :=
  (len value <=? 128)
  && negb (ContainsAny value (String "000" (String "013" (String "010" EmptyString)))).

Section manager.
Context `{!UnicodeCase}.
(** [strconv.Quote] and [uuid.Parse] succeeding. *)
Variable Quote : string -> string.
Variable is_uuid : string -> bool.
Variable logDir : string.

(** ** The request *)

Fixpoint validate_fields (values : list (string * string)) : result unit :=
  match values with
  | [] => Ok tt
  | (key, value) :: values =>
      if negb (is_field_name key) then
        Fail (ErrorString ("configuration field name " +:+ Quote key +:+ " is invalid"))
      else if negb (is_field_value value) then
        Fail (ErrorString ("configuration field " +:+ key +:+ " contains invalid data"))
      else validate_fields values
  end.

Definition validateConfigurationTaskPayload (revision : string)
    (values : list (string * string)) : result unit :=
  if negb (is_revision revision) then
    Fail (ErrorString "configuration revision must be a SHA-256 digest")
  else if ((List.length values <? 1) || (32 <? List.length values))%nat then
    Fail (ErrorString "configuration must contain between 1 and 32 managed fields")
  else validate_fields values.

Definition isServiceOperation (value : string) : bool :=
  is_one_of (ToLower (TrimSpace value)) ["start"; "stop"; "restart"; "reload"].

Definition isRuntimeOperation (value : string) : bool :=
  isServiceOperation value || EqualFold (TrimSpace value) "configure".

Definition normalize_request (r : InstallRequest) : InstallRequest :=
  let operation := ToLower (TrimSpace (R_Operation r)) in
  mkRequest (if String.eqb operation "" then "install" else operation)
    (TrimSpace (R_Key r)) (TrimSpace (R_Version r)) (TrimSpace (R_Port r))
    (TrimSpace (R_Username r)) (R_Password r) (R_Parameters r) (R_Revision r)
    (R_PreviousConfiguration r) (R_Configuration r) (R_RestoreFromID r).

(** The checks that read no table. *)
Definition check_configuration (r : InstallRequest) : result unit :=
  if String.eqb (R_Operation r) "configure" then
    match validateConfigurationTaskPayload (R_Revision r) (R_Configuration r) with
    | Fail err => Fail err
    | Ok _ =>
        match validateConfigurationTaskPayload (R_Revision r) (R_PreviousConfiguration r) with
        | Fail err => Fail (Wrap "previous configuration is invalid: " err "")
        | Ok _ =>
            if negb (sameConfigurationKeys (R_PreviousConfiguration r) (R_Configuration r)) then
              Fail (ErrorString "previous and target configuration fields must match")
            else if negb (String.eqb (R_RestoreFromID r) "") && negb (is_uuid (R_RestoreFromID r))
            then Fail (ErrorString "restore source ID is invalid")
            else Ok tt
        end
    end
  else if negb (String.eqb (R_Revision r) "")
          || negb (List.length (R_PreviousConfiguration r) =? 0)%nat
          || negb (List.length (R_Configuration r) =? 0)%nat
          || negb (String.eqb (R_RestoreFromID r) "") then
    Fail (ErrorString "configuration payload is only valid for configure tasks")
  else Ok tt.

Definition check_request (r : InstallRequest) (requestedBy : Z) : result unit :=
  if negb (String.eqb (R_Operation r) "install") && negb (String.eqb (R_Operation r) "uninstall")
     && negb (isRuntimeOperation (R_Operation r)) then
    Fail (ErrorString ("unsupported software task operation: " +:+ R_Operation r))
  else
    match check_configuration r with
    | Fail err => Fail err
    | Ok _ =>
        if String.eqb (R_Key r) "" then
          Fail (ErrorString "software key and version are required")
        else if requestedBy <=? 0 then Fail (ErrorString "authenticated user is required")
        else Ok tt
    end.

(** ** Resolving components *)

Definition normal_name (value : string) : string := ToLower (TrimSpace value).

Definition componentForKey (key : string) : M TaskState string :=
  let normalized := normal_name key in
  let* found := attempt (first_software catalog_first (fun r =>
    String.eqb (S_Key r) normalized && negb (String.eqb (S_Component r) ""))) in
  match found with
  | Ok row => ret (normal_name (S_Component row))
  | Fail err =>
      if negb (is_not_found err) then fail (Wrap "look up software component: " err "")
      else if String.eqb normalized "webserver" then ret "nginx"
      else if String.eqb normalized "db" then ret "mysql"
      else if is_one_of normalized ["redis"; "php"; "java"; "openresty"; "phpmyadmin"; "firewalld"]
      then ret (normal_name key)
      else fail (ErrorString ("unsupported software: " +:+ key))
  end.

Definition softwareKeyForUninstall (value : string) : M TaskState string :=
  let normalized := normal_name value in
  let* found := attempt (first_software oldest_first (fun r =>
    (String.eqb (S_Key r) normalized || String.eqb (S_Component r) normalized) && S_Installed r)) in
  match found with
  | Ok row => ret (S_Key row)
  | Fail err =>
      if negb (is_not_found err) then fail (Wrap "look up installed software: " err "")
      else if is_one_of normalized ["nginx"; "webserver"] then ret "webserver"
      else if is_one_of normalized ["mysql"; "db"] then ret "db"
      else if is_one_of normalized ["redis"; "php"; "firewalld"] then ret normalized
      else fail (ErrorString ("unsupported software for uninstall: " +:+ value))
  end.

(** A failing lookup falls through to the next source. *)
Definition key_found (found : result Software) : option string :=
  match found with
  | Ok row => let key := normal_name (S_Key row) in if String.eqb key "" then None else Some key
  | Fail _ => None
  end.

Definition softwareKeyForService (value : string) : M TaskState string :=
  let normalized := normal_name value in
  let named r := String.eqb (S_Key r) normalized || String.eqb (S_Component r) normalized in
  let* found := attempt (first_software recent_first (fun r => S_Installed r && named r)) in
  match key_found found with
  | Some key => ret key
  | None =>
      let* found := attempt (first_software visible_first (fun r => S_CatalogManaged r && named r)) in
      match key_found found with
      | Some key => ret key
      | None =>
          if is_one_of normalized ["nginx"; "webserver"] then ret "webserver"
          else if is_one_of normalized ["mysql"; "db"] then ret "db"
          else if String.eqb normalized "redis" then ret "redis"
          else if is_one_of normalized ["php"; "php-fpm"] then ret "php"
          else fail (ErrorString ("unsupported component service: " +:+ value))
      end
  end.

(** [HasTable] reports no table when its query fails. *)
Definition validateCatalogInstall (key version : string) : M TaskState unit :=
  let* table := attempt (read catalog) in
  match table with
  | Fail _ | Ok None => ret tt
  | Ok (Some _) =>
      let* state := attempt (first (fun s => default None (catalog s))) in
      match state with
      | Fail err =>
          if is_not_found err then ret tt else fail (Wrap "read software catalog state: " err "")
      | Ok revision =>
          if String.eqb (TrimSpace revision) "" then ret tt
          else
            let* found := attempt (first_software oldest_first (fun r =>
              String.eqb (S_Key r) key && String.eqb (S_Version r) version)) in
            match found with
            | Fail err =>
                if is_not_found err then
                  fail (ErrorString ("software " +:+ key +:+ " " +:+ version
                          +:+ " is not published by Center"))
                else fail (Wrap "read Center software catalog entry: " err "")
            | Ok row =>
                if negb (S_CatalogManaged row) || negb (S_CatalogVisible row) then
                  fail (ErrorString ("software " +:+ key +:+ " " +:+ version
                          +:+ " has been removed from the Center catalog"))
                else if negb (S_Installable row) then
                  fail (ErrorString ("software " +:+ key +:+ " " +:+ version
                          +:+ " installation is disabled by Center"))
                else ret tt
            end
      end
  end.

Definition exclusive_groups : list (list string) :=
  [["nginx"; "tengine"; "openresty"; "caddy"; "apache"]; ["mysql"; "mariadb"; "percona"]].

(** The loop stops at the first group that holds the component. *)
Definition validateExclusiveComponentInstall (component : string) : M TaskState unit :=
  let component := normal_name component in
  match List.find (is_one_of component) exclusive_groups with
  | None => ret tt
  | Some group =>
      let* found := attempt (first_software newest_first (fun r =>
        S_Installed r && is_one_of (S_Component r) group
        && negb (String.eqb (S_Component r) component))) in
      match found with
      | Fail err =>
          if is_not_found err then ret tt
          else fail (Wrap "check mutually exclusive software: " err "")
      | Ok installed =>
          let name := TrimSpace (S_Name installed) in
          let conflict := if String.eqb name "" then TrimSpace (S_Component installed) else name in
          fail (ErrorString ("cannot install " +:+ component +:+ " while " +:+ conflict
                  +:+ " is installed; uninstall the conflicting component first"))
      end
  end.

(** ** Submission *)

(** Everything before the submission lock. *)
Definition submit_checks (request : InstallRequest) (requestedBy : Z) : M TaskState string :=
  match check_request request requestedBy with
  | Fail err => fail err
  | Ok _ =>
      let* component := componentForKey (R_Key request) in
      if String.eqb (R_Operation request) "install" then
        let* _ := validateCatalogInstall (R_Key request) (R_Version request) in
        let* _ := validateExclusiveComponentInstall component in
        ret component
      else ret component
  end.

Definition active_tasks (component : string) (s : TaskState) : list SoftwareTask :=
  List.filter (fun t => String.eqb (T_Component t) component && is_active (T_Status t)) (tasks s).

(** The operation and the version of the task, from the installed row. *)
Definition resolve_version (request : InstallRequest) (component : string)
    (installed : result Software) : result (string * string) :=
  if String.eqb (R_Operation request) "uninstall" || isRuntimeOperation (R_Operation request) then
    match installed with
    | Fail _ => Fail (ErrorString ("software " +:+ component +:+ " is not installed"))
    | Ok row =>
        let installedVersion :=
          if String.eqb (TrimSpace (S_InstallVersion row)) "" then TrimSpace (S_Version row)
          else TrimSpace (S_InstallVersion row) in
        let version := if String.eqb (R_Version request) "" then installedVersion
                       else R_Version request in
        if isRuntimeOperation (R_Operation request) && String.eqb version "" then
          Fail (ErrorString ("installed " +:+ component +:+ " version is missing"))
        else if negb (String.eqb installedVersion "") && negb (String.eqb version installedVersion)
        then Fail (ErrorString ("installed " +:+ component +:+ " version is " +:+ installedVersion
                     +:+ ", not " +:+ version))
        else Ok (R_Operation request, version)
    end
  else if String.eqb (R_Version request) "" then
    Fail (ErrorString "software key and version are required")
  else Ok (if is_ok installed then "upgrade" else R_Operation request, R_Version request).

Definition with_version (r : InstallRequest) (version : string) : InstallRequest :=
  mkRequest (R_Operation r) (R_Key r) version (R_Port r) (R_Username r) (R_Password r)
    (R_Parameters r) (R_Revision r) (R_PreviousConfiguration r) (R_Configuration r)
    (R_RestoreFromID r).

Definition key_le (a b : string * string) : Prop := String.leb (fst a) (fst b) = true.
#[local] Instance key_le_dec : RelDecision key_le.
Proof. intros a b. unfold key_le. apply _. Defined.

(** [json.Marshal] of a map: the entries sorted by key. *)
Definition json_pairs (l : list (string * string)) : string :=
  "{" +:+ GoText.Join (map (fun '(k, v) => json_string k +:+ ":" +:+ v) l) "," +:+ "}".
Definition json_map (m : list (string * string)) : string :=
  json_pairs (map (fun '(k, v) => (k, json_string v)) (merge_sort key_le m)).

Definition safe_parameters (r : InstallRequest) : string :=
  let base := [("port", json_string (R_Port r)); ("username", json_string (R_Username r))] in
  json_pairs (merge_sort key_le
    (base ++
     (if String.eqb (R_Operation r) "configure" then
        [("revision", json_string (R_Revision r)); ("configuration", json_map (R_Configuration r))]
        ++ (if String.eqb (R_RestoreFromID r) "" then []
            else [("restoreFromId", json_string (R_RestoreFromID r))])
      else []))).

(** [logDir] is a clean path other than "." and "/". *)
Definition log_path (taskID : string) : string :=
  logDir +:+ "/" +:+ "task_" +:+ taskID +:+ ".log".

Definition new_task (taskID : string) (now : time) (operation component : string)
    (r : InstallRequest) (requestedBy : Z) : SoftwareTask :=
  mkTask taskID operation component (R_Key r) (R_Version r) "" "" SoftwareTaskStatusQueued
    SoftwareTaskStatusQueued None 0 ("任务已进入" +:+ operationLabel operation +:+ "队列") "" "" ""
    SoftwareTaskRollbackNotRequired "" "" requestedBy false 1 (log_path taskID)
    (safe_parameters r) None None None now now.

Definition queued_event (t : SoftwareTask) (now : time) : SoftwareTaskEvent :=
  mkEvent (T_ID t) 1 "snapshot" "info" (T_Status t) (T_Phase t) None (T_Progress t) "task_queued"
    (T_Message t) now.

Definition new_history (historyID taskID : string) (now : time) (component : string)
    (r : InstallRequest) (requestedBy : Z) : SoftwareConfigurationHistory :=
  mkHistory historyID taskID component (R_Key r) (R_Version r) (R_Revision r)
    (json_map (R_PreviousConfiguration r)) (json_map (R_Configuration r))
    SoftwareConfigurationStatusPending (R_RestoreFromID r) requestedBy None now now.

Definition create_task (t : SoftwareTask) (s : TaskState) : result (unit * TaskState) :=
  if existsb (fun q => String.eqb (T_ID q) (T_ID t)) (tasks s)
  then Fail (ErrorString "UNIQUE constraint failed: software_task.id")
  else Ok (tt, with_tasks s (tasks s ++ [t])).

Definition create_history (h : SoftwareConfigurationHistory) (s : TaskState)
    : result (unit * TaskState) :=
  if existsb (fun q => String.eqb (H_ID q) (H_ID h) || String.eqb (H_TaskID q) (H_TaskID h))
       (histories s)
  then Fail (ErrorString "UNIQUE constraint failed: software_configuration_history")
  else Ok (tt, with_histories s (histories s ++ [h])).

(** Under the submission lock: the component is free, and the rows exist. *)
Definition submit_create (taskID historyID : string) (now : time) (component : string)
    (request : InstallRequest) (requestedBy : Z)
    : M TaskState (SoftwareTask * InstallRequest) :=
  let* active := wrapping "check active software task"
    (read (fun s => List.length (active_tasks component s))) in
  if (0 <? active)%nat then
    fail (ErrorString ("component " +:+ component +:+ " already has an active task"))
  else
    let* installed := attempt (first_software oldest_first (fun r =>
      String.eqb (S_Key r) (R_Key request) && S_Installed r)) in
    match installed with
    | Fail err =>
        if is_not_found err then ret tt else fail (Wrap "check installed software: " err "")
    | Ok _ => ret tt
    end ;;;
    match resolve_version request component installed with
    | Fail err => fail err
    | Ok (operation, version) =>
        let request := with_version request version in
        let task := new_task taskID now operation component request requestedBy in
        let* _ := wrapping "create software task" (transaction
          (let* _ := exec (create_task task) in
           let* _ := exec (create_event (queued_event task now)) in
           if String.eqb (R_Operation request) "configure"
           then exec (create_history
                  (new_history historyID taskID now component request requestedBy))
           else ret tt)) in
        ret (task, request)
    end.

(** The queue is a buffered channel; a task that does not fit is failed. *)
Definition submit_enqueue (c : Clock) (later : time) (task : SoftwareTask)
    (request : InstallRequest) : M TaskState SoftwareTask :=
  let* queued := get_memory (fun s => Z.of_nat (List.length (queue s))) in
  if queued <? defaultQueueSize then
    let* _ := set_memory (fun s => with_queue s (queue s ++ [(T_ID task, request)])) in
    ret task
  else
    let* _ := attempt (finish c later (T_ID task) SoftwareTaskStatusFailed "QUEUE_FULL"
      "软件任务队列已满，请稍后重试") in
    fail (ErrorString "software task queue is full").

Definition submit (startErr : option error) (taskID historyID : string) (now : time) (c : Clock)
    (later : time) (request : InstallRequest) (requestedBy : Z) : M TaskState SoftwareTask :=
  match startErr with
  | Some err => fail err
  | None =>
      let* stop := get_memory stopping in
      if stop : bool then fail (ErrorString "software task manager is stopping")
      else
        let request := normalize_request request in
        let* component := submit_checks request requestedBy in
        let* created := submit_create taskID historyID now component request requestedBy in
        submit_enqueue c later (fst created) (snd created)
  end.

Definition base_request (operation key version : string) (parameters : list (string * string))
    : InstallRequest :=
  mkRequest operation key version "" "" "" parameters "" [] [] "".

Definition Submit startErr taskID historyID now c later (r : InstallRequest) (requestedBy : Z)
    : M TaskState SoftwareTask :=
  submit startErr taskID historyID now c later
    (mkRequest "install" (R_Key r) (R_Version r) (R_Port r) (R_Username r) (R_Password r)
       (R_Parameters r) (R_Revision r) (R_PreviousConfiguration r) (R_Configuration r)
       (R_RestoreFromID r)) requestedBy.

Definition SubmitUninstallWithParameters startErr taskID historyID now c later
    (name version : string) (parameters : list (string * string)) (requestedBy : Z)
    : M TaskState SoftwareTask :=
  let* key := softwareKeyForUninstall name in
  submit startErr taskID historyID now c later
    (base_request "uninstall" key version parameters) requestedBy.

Definition SubmitServiceAction startErr taskID historyID now c later (component action : string)
    (requestedBy : Z) : M TaskState SoftwareTask :=
  let* key := softwareKeyForService component in
  let action := normal_name action in
  if negb (isServiceOperation action) then
    fail (ErrorString ("unsupported service action: " +:+ action))
  else submit startErr taskID historyID now c later (base_request action key "" []) requestedBy.

Definition SubmitConfiguration startErr taskID historyID now c later (component revision : string)
    (previousValues values : list (string * string)) (restoreFromID : string) (requestedBy : Z)
    : M TaskState SoftwareTask :=
  let* key := softwareKeyForService component in
  submit startErr taskID historyID now c later
    (mkRequest "configure" key "" "" "" "" [] (TrimSpace revision) previousValues values
       (TrimSpace restoreFromID)) requestedBy.
End manager.

(** ** Execution *)

Section execution.
Context `{!UnicodeCase}.

(** The rules of [classifyExecutionError], in order. *)
Definition error_classes : list (list string * string) :=
  [(["timeout"; "exceeded timeout"], "ACTION_TIMEOUT");
   (["configuration revision conflict"; "changed since preview";
     "configapply action failed: exit status 75"], "CONFIG_CONFLICT");
   (["candidate configuration is invalid"; "configuration output is invalid";
     "configapply action failed: exit status 65"], "CONFIG_VALIDATE_FAILED");
   (["configapply action"; "configuration package"; "managed configuration"], "CONFIG_APPLY_FAILED");
   (["checksum"; "signature"; "verify package"], "PACKAGE_VERIFY_FAILED");
   (["no compatible package"; "no compatible bundled"; "no compatible cached";
     "package does not provide the required actions"; "read bundled component";
     "read cached component"], "PACKAGE_UNAVAILABLE");
   (["script center connectivity"; "script center is not ready"; "script center returned http";
     "download package"], "CENTER_UNAVAILABLE");
   (["resolve"], "PACKAGE_UNAVAILABLE");
   (["precheck"], "PRECHECK_FAILED");
   (["configure"], "CONFIGURE_FAILED");
   (["verify"], "VERIFY_FAILED");
   (["rollback"], "ROLLBACK_FAILED");
   (["uninstall"], "UNINSTALL_FAILED");
   (["start action"], "SERVICE_START_FAILED");
   (["stop action"], "SERVICE_STOP_FAILED");
   (["restart action"], "SERVICE_RESTART_FAILED");
   (["reload action"; "has no reload action"], "SERVICE_RELOAD_FAILED")].

Definition classifyExecutionError (err : error) : string :=
  let message := ToLower (Error err) in
  if errors_Is err ContextDeadlineExceeded then "ACTION_TIMEOUT"
  else match List.find (fun c => existsb (Contains message) (fst c)) error_classes with
       | Some c => snd c
       | None => "INSTALL_FAILED"
       end.

Definition isCancelRequested (taskID : string) : M TaskState bool :=
  let* found := attempt (first (task_of taskID)) in
  ret (match found with Ok t => T_CancelRequested t | Fail _ => false end).

Definition create_lock (l : ComponentOperationLock) (s : TaskState) : result (unit * TaskState) :=
  if existsb (fun q => String.eqb (L_Component q) (L_Component l)
                       || String.eqb (L_TaskID q) (L_TaskID l)) (locks s)
  then Fail (ErrorString "UNIQUE constraint failed: component_operation_lock")
  else Ok (tt, with_locks s (locks s ++ [l])).

Definition acquireComponentLock (now : time) (t : SoftwareTask) : M TaskState unit :=
  let* created := attempt (exec (create_lock (mkLock (T_Component t) (T_ID t) now now))) in
  match created with
  | Fail _ => fail (ErrorString ("component " +:+ T_Component t
                +:+ " already has an operation in progress"))
  | Ok _ => ret tt
  end.

Definition releaseComponentLock (component taskID : string) : M TaskState unit :=
  let* _ := attempt (exec (fun s => Ok (tt, with_locks s (List.filter (fun l =>
    negb (String.eqb (L_Component l) component && String.eqb (L_TaskID l) taskID)) (locks s))))) in
  ret tt.

Definition remove_id (id : string) (l : list string) : list string :=
  List.filter (fun x => negb (String.eqb x id)) l.

(** [run] up to the task it decides to run. *)
Definition run_load (taskID : string) : M TaskState (option SoftwareTask) :=
  let* found := attempt (first (task_of taskID)) in
  ret (match found with
       | Fail _ => None
       | Ok t => if IsSoftwareTaskTerminal (T_Status t) || T_CancelRequested t then None else Some t
       end).

Definition cancel_context (id : string) (s : TaskState) : TaskState :=
  if is_one_of id (cancels s) then with_canceled s (id :: remove_id id (canceled s)) else s.

(** The cancel function is registered, and called at once when stopping. *)
Definition run_register (t : SoftwareTask) : M TaskState unit :=
  let* _ := set_memory (fun s => with_canceled
    (with_cancels s (T_ID t :: remove_id (T_ID t) (cancels s))) (remove_id (T_ID t) (canceled s))) in
  set_memory (fun s => if stopping s then cancel_context (T_ID t) s else s).

Definition run_deregister (id : string) : M TaskState unit :=
  set_memory (fun s => with_canceled (with_cancels s (remove_id id (cancels s)))
                         (remove_id id (canceled s))).

(** The end of [run], after the executor returned [err]. *)
Definition run_end (c1 c2 : Clock) (now : time) (t : SoftwareTask) (err : option error)
    : M TaskState unit :=
  match err with
  | None =>
      let* _ := attempt (setPhase c1 (T_ID t) "finalizing" (Some 0) "正在保存任务状态" "task_finalizing") in
      let* _ := attempt (finish c2 now (T_ID t) SoftwareTaskStatusSucceeded ""
        (operationSuccessMessage (T_Operation t))) in
      ret tt
  | Some err =>
      let* was_canceled := (if errors_Is err ContextCanceled then ret true
                            else isCancelRequested (T_ID t)) in
      if was_canceled : bool then
        let* stop := get_memory stopping in
        let* shutdown := (if stop : bool then
                            let* requested := isCancelRequested (T_ID t) in ret (negb requested)
                          else ret false) in
        let* _ := attempt
          (if shutdown : bool then
             finish c2 now (T_ID t) SoftwareTaskStatusInterrupted "PANEL_SHUTDOWN"
               ("Panel 正在关闭，" +:+ operationLabel (T_Operation t)
                  +:+ "任务已安全中断；下次启动将重新核验组件状态")
           else
             finish c2 now (T_ID t) SoftwareTaskStatusCanceled "ACTION_CANCELED"
               (operationLabel (T_Operation t) +:+ "任务已取消")) in
        ret tt
      else
        let* _ := attempt (finish c2 now (T_ID t) SoftwareTaskStatusFailed
          (classifyExecutionError err) (safeErrorMessage err)) in
        ret tt
  end.

Fixpoint reports (id : string) (calls : list (Clock * report)) : M TaskState unit :=
  match calls with
  | [] => ret tt
  | (c, r) :: calls => let* _ := on_report c id r in reports id calls
  end.

(** Under the component lock. *)
Definition run_locked (c0 c1 c2 : Clock) (now : time) (t : SoftwareTask)
    (calls : list (Clock * report)) (err : option error) : M TaskState unit :=
  let* started := attempt (setPhase c0 (T_ID t) "resolving" None
    ("正在解析并校验" +:+ operationLabel (T_Operation t) +:+ "脚本包") "package_resolving") in
  match started with
  | Fail _ => ret tt
  | Ok _ => let* _ := reports (T_ID t) calls in run_end c1 c2 now t err
  end.

Definition run_registered (c0 c1 c2 : Clock) (now : time) (t : SoftwareTask)
    (calls : list (Clock * report)) (err : option error) : M TaskState unit :=
  let* requested := isCancelRequested (T_ID t) in
  if requested : bool then ret tt
  else
    let* acquired := attempt (acquireComponentLock now t) in
    match acquired with
    | Fail e =>
        let* _ := attempt (finish c2 now (T_ID t) SoftwareTaskStatusFailed "COMPONENT_BUSY" (Error e)) in
        ret tt
    | Ok _ =>
        let* _ := run_locked c0 c1 c2 now t calls err in
        releaseComponentLock (T_Component t) (T_ID t)
    end.

Definition run (c0 c1 c2 : Clock) (now : time) (taskID : string) (calls : list (Clock * report))
    (err : option error) : M TaskState unit :=
  let* loaded := run_load taskID in
  match loaded with
  | None => ret tt
  | Some t =>
      let* _ := run_register t in
      let* _ := run_registered c0 c1 c2 now t calls err in
      run_deregister (T_ID t)
  end.

(** What a worker takes next; once stopping, a received task is dropped. *)
Definition worker_take : M TaskState (option (string * InstallRequest)) :=
  let* queued := get_memory queue in
  let* stop := get_memory stopping in
  match queued with
  | [] => ret None
  | item :: rest =>
      let* _ := set_memory (fun s => with_queue s rest) in
      ret (if stop : bool then None else Some item)
  end.

Definition Stop : M TaskState unit :=
  let* _ := set_memory (fun s => with_stopping s true) in
  set_memory (fun s => with_canceled s
    (cancels s ++ List.filter (fun id => negb (is_one_of id (cancels s))) (canceled s))).

(** ** Queries, cancellation, heartbeat ([repository.go]) *)

Definition Get (startErr : option error) (taskID : string) : M TaskState SoftwareTask :=
  match startErr with Some err => fail err | None => first (task_of taskID) end.

Definition cancel_label (t : SoftwareTask) : string :=
  if String.eqb (T_Operation t) "uninstall" then "卸载" else "安装".

(** [Cancel] up to the release of the event lock. *)
Definition cancel_mark (startErr : option error) (c : Clock) (taskID : string)
    : M TaskState SoftwareTask :=
  let* task := Get startErr taskID in
  if IsSoftwareTaskTerminal (T_Status task) then
    fail (ErrorString ("software task " +:+ taskID +:+ " is already finished"))
  else
    let* _ := publishLocked c taskID
      (mkUpdate SoftwareTaskStatusCanceling SoftwareTaskStatusCanceling None None
         ("正在取消" +:+ cancel_label task +:+ "任务") "" "" "" "" "" false None false (Some true) "" "")
      (mkData "phase" "warning" None "cancel_requested" "已收到取消请求") in
    ret task.

(** A running task is signalled; any other is finished here. *)
Definition cancel_signal (startErr : option error) (c : Clock) (now : time) (task : SoftwareTask)
    : M TaskState SoftwareTask :=
  let* running := get_memory (fun s => is_one_of (T_ID task) (cancels s)) in
  let* _ := (if running : bool then set_memory (cancel_context (T_ID task))
             else finish c now (T_ID task) SoftwareTaskStatusCanceled "ACTION_CANCELED"
                    ("排队中的" +:+ cancel_label task +:+ "任务已取消")) in
  Get startErr (T_ID task).

Definition Cancel (startErr : option error) (c1 c2 : Clock) (now : time) (taskID : string)
    : M TaskState SoftwareTask :=
  let* task := cancel_mark startErr c1 taskID in
  cancel_signal startErr c2 now task.

Definition with_heartbeat (now : time) (t : SoftwareTask) : SoftwareTask :=
  mkTask (T_ID t) (T_Operation t) (T_Component t) (T_SoftwareKey t) (T_RequestedVersion t)
    (T_ResolvedVersion t) (T_PackageSource t) (T_Status t) (T_Phase t) (T_PhaseProgress t)
    (T_Progress t) (T_Message t) (T_ErrorCode t) (T_ErrorMessage t) (T_FailurePhase t)
    (T_RollbackStatus t) (T_RecoveryStatus t) (T_RecoveryMessage t) (T_RequestedBy t)
    (T_CancelRequested t) (T_EventSeq t) (T_LogPath t) (T_ParametersJSON t) (T_StartedAt t)
    (Some now) (T_FinishedAt t) (T_CreatedAt t) now.

Definition Touch (now : time) (taskID : string) : M TaskState unit :=
  let* _ := attempt (exec (fun s => Ok (tt, with_tasks s (map (fun t =>
    if String.eqb (T_ID t) taskID && is_active (T_Status t) then with_heartbeat now t else t)
    (tasks s))))) in
  ret tt.

Record ListOptions := mkListOptions {
  o_RequestedBy : Z; o_IncludeAll : bool; o_ActiveOnly : bool; o_Component : string;
  o_Status : string; o_Page : Z; o_PageSize : Z
}.

Definition listed (o : ListOptions) (t : SoftwareTask) : bool :=
  (o_IncludeAll o || (T_RequestedBy t =? o_RequestedBy o))
  && (negb (o_ActiveOnly o) || is_active (T_Status t))
  && (String.eqb (TrimSpace (o_Component o)) ""
      || String.eqb (T_Component t) (TrimSpace (o_Component o)))
  && (String.eqb (TrimSpace (o_Status o)) "" || String.eqb (T_Status t) (TrimSpace (o_Status o))).

Definition created_desc (a b : SoftwareTask) : Prop := T_CreatedAt b <= T_CreatedAt a.
#[local] Instance created_desc_dec : RelDecision created_desc.
Proof. intros a b. unfold created_desc. apply _. Defined.

(** The rows of the page, the total, the page and its size. *)
Definition List' (startErr : option error) (o : ListOptions)
    : M TaskState (list SoftwareTask * Z * Z * Z) :=
  match startErr with
  | Some err => fail err
  | None =>
      let page := if o_Page o <=? 0 then 1 else o_Page o in
      let size := if o_PageSize o <=? 0 then 20 else if 100 <? o_PageSize o then 100
                  else o_PageSize o in
      let* total := read (fun s => Z.of_nat (List.length (List.filter (listed o) (tasks s)))) in
      let* rows := read (fun s => take (Z.to_nat size) (drop (Z.to_nat ((page - 1) * size))
        (merge_sort created_desc (List.filter (listed o) (tasks s))))) in
      ret (rows, total, page, size)
  end.

Definition seq_asc (a b : SoftwareTaskEvent) : Prop := E_Seq a <= E_Seq b.
#[local] Instance seq_asc_dec : RelDecision seq_asc.
Proof. intros a b. unfold seq_asc. apply _. Defined.

Definition EventsAfter (taskID : string) (after limit : Z) : M TaskState (list SoftwareTaskEvent) :=
  let limit := if (limit <=? 0) || (500 <? limit) then 200 else limit in
  read (fun s => take (Z.to_nat limit) (merge_sort seq_asc
    (List.filter (fun e => String.eqb (E_TaskID e) taskID && (after <? E_Seq e)) (events s)))).
End execution.

(** ** Recovery after a restart *)

Section recovery.
Context `{!UnicodeCase}.
(** The configured inspector's status and message for a task. *)
Variable inspector : option (SoftwareTask -> string * string).

Definition sanitizeRecoveryValue (value : string) (limit : Z) (fallback : string) : string :=
  let value := TrimSpace (drop_controls value) in
  if String.eqb value "" then fallback
  else if limit <? RuneCount value then encode_runes (take (Z.to_nat limit) (runes value))
  else value.

Definition inspect (t : SoftwareTask) : string * string :=
  let '(status, message) := match inspector with
                            | Some f => f t
                            | None => ("unknown", "未配置组件状态探测器")
                            end in
  (sanitizeRecoveryValue status 32 "unknown", sanitizeRecoveryValue message 500 "组件状态未知").

Definition interrupted (now saved : time) (t : SoftwareTask) : SoftwareTask :=
  let '(status, recovery) := inspect t in
  let message := "Panel 重启导致任务中断；" +:+ recovery in
  mkTask (T_ID t) (T_Operation t) (T_Component t) (T_SoftwareKey t) (T_RequestedVersion t)
    (T_ResolvedVersion t) (T_PackageSource t) SoftwareTaskStatusInterrupted
    SoftwareTaskStatusInterrupted (T_PhaseProgress t) (T_Progress t) message "PANEL_RESTARTED"
    message (T_FailurePhase t) (T_RollbackStatus t) status recovery (T_RequestedBy t)
    (T_CancelRequested t) (i64 (T_EventSeq t + 1)) (T_LogPath t) (T_ParametersJSON t)
    (T_StartedAt t) (Some now) (Some now) (T_CreatedAt t) saved.

Definition interrupted_event (t : SoftwareTask) (now : time) : SoftwareTaskEvent :=
  mkEvent (T_ID t) (T_EventSeq t) "terminal" "error" (T_Status t) (T_Phase t) None (T_Progress t)
    (T_ErrorCode t) (T_Message t) now.

Fixpoint interrupt_all (now saved : time) (l : list SoftwareTask) : M TaskState unit :=
  match l with
  | [] => ret tt
  | t :: l =>
      let t := interrupted now saved t in
      let* _ := exec (save_task t) in
      let* _ := exec (create_event (interrupted_event t now)) in
      let* _ := (if String.eqb (T_Operation t) "configure"
                 then exec (close_history (T_ID t) SoftwareConfigurationStatusInterrupted
                              (Some now) now)
                 else ret tt) in
      interrupt_all now saved l
  end.

Definition reconcileInterruptedTasks (now saved : time) : M TaskState unit :=
  let* active := wrapping "list interrupted software tasks"
    (read (fun s => List.filter (fun t => is_active (T_Status t)) (tasks s))) in
  transaction
    (let* _ := interrupt_all now saved active in
     wrapping "clear stale component task locks"
       (exec (fun s => Ok (tt, with_locks s [])))).

(** The body of [Start] that runs once; [mkdir] is what [os.MkdirAll] returned. *)
Definition Start (database executor : bool) (logDir : string) (mkdir : option error)
    (now saved : time) : M TaskState unit :=
  if negb database then fail (ErrorString "software task database is not initialized")
  else if negb executor then fail (ErrorString "software task executor is not configured")
  else if String.eqb logDir "." || String.eqb logDir "/" then
    fail (ErrorString "software task log directory is invalid")
  else match mkdir with
       | Some err => fail (Wrap "create software task log directory: " err "")
       | None => reconcileInterruptedTasks now saved
       end.
End recovery.

(** ** One active task per component *)

Definition active_components (s : TaskState) : list string :=
  map T_Component (List.filter (fun t => is_active (T_Status t)) (tasks s)).

Definition known_status (t : SoftwareTask) : Prop :=
  is_active (T_Status t) = true \/ IsSoftwareTaskTerminal (T_Status t) = true.

(** Task identifiers are unique, every status is known, and no component has
    two active tasks. *)
Record exclusive (s : TaskState) : Prop := {
  ex_unique : unique_tasks s;
  ex_known : Forall known_status (tasks s);
  ex_components : NoDup (active_components s)
}.

Lemma active_not_terminal status :
  is_active status = true -> IsSoftwareTaskTerminal status = false.
Proof.
  unfold is_active, is_one_of. rewrite existsb_exists. intros (a & Hin & Ha).
  apply String.eqb_eq in Ha as ->.
  repeat (destruct Hin as [<-|Hin]; [reflexivity|]). destruct Hin.
Qed.

(** A change of rows that keeps identifiers and components and revives no task. *)
Definition calm (f : SoftwareTask -> SoftwareTask) (t : SoftwareTask) : Prop :=
  T_ID (f t) = T_ID t /\ T_Component (f t) = T_Component t /\ known_status (f t) /\
  (is_active (T_Status (f t)) = true -> is_active (T_Status t) = true).

Lemma exclusive_map f s s' :
  exclusive s -> tasks s' = map f (tasks s) -> Forall (calm f) (tasks s) -> exclusive s'.
Proof.
  intros [Hu Hk Hc] Ht Hf. unfold unique_tasks, active_components in *. split.
  - unfold unique_tasks. rewrite Ht, map_map. erewrite map_ext_in; [exact Hu|].
    intros t Hin. rewrite Forall_forall in Hf. by apply Hf, list_elem_of_In.
  - rewrite Ht. apply Forall_map_iff. eapply Forall_impl; [exact Hf|]. by intros t (_ & _ & ? & _).
  - unfold active_components. rewrite Ht. clear Hu Hk Ht.
    assert (Hsub : sublist
      (map T_Component (List.filter (fun t => is_active (T_Status t)) (map f (tasks s))))
      (map T_Component (List.filter (fun t => is_active (T_Status t)) (tasks s)))).
    { clear Hc. induction Hf as [|t l (_ & Hcomp & _ & Hact) _ IH]; cbn [List.filter map]; [constructor|].
      destruct (is_active (T_Status (f t))) eqn:E.
      - rewrite Hact by done. cbn [map]. rewrite Hcomp. by constructor.
      - destruct (is_active (T_Status t)); [by constructor|done]. }
    by eapply sublist_NoDup.
Qed.

Lemma exclusive_tasks s s' : exclusive s -> tasks s' = tasks s -> exclusive s'.
Proof.
  intros [Hu Hk Hc] Ht. unfold unique_tasks, active_components in *.
  split; unfold unique_tasks, active_components; by rewrite Ht.
Qed.

Lemma updated_known u c t :
  known_update u -> known_status t -> known_status (updated u c t).
Proof.
  intros Hu Ht. unfold known_status. cbn. unfold if_set.
  destruct (String.eqb_spec (u_status u) "") as [|Hne]; [done|].
  destruct Hu as [?|[?|?]]; [done|by left|by right].
Qed.

Lemma published_exclusive c id u v s s' :
  known_update u -> published c id u v s s' -> exclusive s -> exclusive s'.
Proof.
  intros Hk (t & hs & Ht & Hl & _ & ->) Hex. eapply exclusive_map; [exact Hex|reflexivity|].
  pose proof (ex_known _ Hex) as Hkn. rewrite Forall_forall in *. intros q Hq. unfold calm.
  destruct (String.eqb_spec (T_ID q) id) as [E|]; [|by split_and!; auto].
  split_and!; [done|done|by apply updated_known; auto|]. intros _.
  assert (q = t) as ->.
  { apply list_elem_of_In in Hq. pose proof (task_of_unique _ _ (ex_unique _ Hex) Hq) as H.
    rewrite E, Ht in H. congruence. }
  destruct (Hkn t Hq) as [|Hterm]; [done|congruence].
Qed.

Lemma publish_exclusive c id u v :
  known_update u -> preserves exclusive (publishLocked c id u v).
Proof.
  intros Hk w Hw. destruct (publishLocked c id u v w) as [r w'] eqn:E. cbn.
  apply publish_tx in E as [->|[_ Hp]]; [done|by eapply published_exclusive|apply Hw].
Qed.

Lemma finish_exclusive c now id status code message :
  IsSoftwareTaskTerminal status = true -> preserves exclusive (finish c now id status code message).
Proof. intros Hs. apply publish_exclusive. right. by right. Qed.

Lemma setPhase_exclusive c id phase p message code :
  preserves exclusive (setPhase c id phase p message code).
Proof.
  intros w Hw. destruct (setPhase c id phase p message code w) as [r w'] eqn:E. cbn.
  apply setPhase_tx in E as [->|(u & v & Ha & _ & Hp)]; [done| |apply Hw].
  eapply published_exclusive; [|exact Hp|done]. right. by left.
Qed.

Lemma set_memory_exclusive f :
  (forall s, tasks (f s) = tasks s) -> preserves exclusive (set_memory f).
Proof. intros Hf w Hw. cbn. by eapply exclusive_tasks. Qed.

Lemma exec_same_tasks {A} (f : TaskState -> result (A * TaskState)) :
  (forall s a s', f s = Ok (a, s') -> tasks s' = tasks s) -> preserves exclusive (exec f).
Proof. intros Hf. apply preserves_exec. intros s a s' E Hs. eapply exclusive_tasks; [exact Hs|]. eauto. Qed.

Lemma get_memory_exclusive {A} (f : TaskState -> A) : preserves exclusive (get_memory f).
Proof. by intros w. Qed.
#[export] Hint Resolve get_memory_exclusive setPhase_exclusive : store.

Section recovery_facts.
Context `{!UnicodeCase}.
Variable inspector : option (SoftwareTask -> string * string).

(** ** The effect of recovery *)

Lemma interrupted_ID now saved t : T_ID (interrupted inspector now saved t) = T_ID t.
Proof. unfold interrupted. by destruct (inspect inspector t). Qed.
Lemma interrupted_Component now saved t :
  T_Component (interrupted inspector now saved t) = T_Component t.
Proof. unfold interrupted. by destruct (inspect inspector t). Qed.
Lemma interrupted_Status now saved t :
  T_Status (interrupted inspector now saved t) = SoftwareTaskStatusInterrupted.
Proof. unfold interrupted. by destruct (inspect inspector t). Qed.
Lemma interrupted_EventSeq now saved t :
  T_EventSeq (interrupted inspector now saved t) = i64 (T_EventSeq t + 1).
Proof. unfold interrupted. by destruct (inspect inspector t). Qed.

Definition interrupt_in (now saved : time) (ids : list string) (t : SoftwareTask) : SoftwareTask :=
  if is_one_of (T_ID t) ids then interrupted inspector now saved t else t.

Lemma is_one_of_In id ids : is_one_of id ids = true <-> In id ids.
Proof.
  unfold is_one_of. rewrite existsb_exists. split.
  - intros (x & Hx & E). apply String.eqb_eq in E as ->. done.
  - intros Hin. exists id. by rewrite String.eqb_refl.
Qed.

Lemma interrupt_all_effect now saved l : forall w w',
  unique_tasks (tables w) -> NoDup (map T_ID l) -> Forall (fun t => In t (tasks (tables w))) l ->
  interrupt_all inspector now saved l w = (Ok tt, w') ->
  tasks (tables w') = map (interrupt_in now saved (map T_ID l)) (tasks (tables w)) /\
  locks (tables w') = locks (tables w) /\
  events (tables w') = events (tables w)
    ++ map (fun t => interrupted_event (interrupted inspector now saved t) now) l.
Proof.
  induction l as [|t l IH]; intros w w' Hu Hnd Hin Hrun.
  { apply ret_Ok in Hrun as [_ ->]. cbn. rewrite app_nil_r. split_and!; [|done|done].
    symmetry. apply map_id. }
  cbn [interrupt_all map] in *. apply NoDup_cons in Hnd as [Hnew Hnd].
  apply Forall_cons in Hin as [Ht Hin].
  apply bind_Ok in Hrun as ([] & w1 & Hs%statement_Ok & Hrun).
  rewrite (save_task_in_place (T_ID t) _ t (interrupted inspector now saved)) in Hs;
    [|done|by apply task_of_unique|apply interrupted_ID].
  injection Hs as Hs.
  apply bind_Ok in Hrun as ([] & w2 & He%statement_Ok & Hrun).
  unfold create_event in He. destruct (existsb _ _); [done|]. injection He as He.
  apply bind_Ok in Hrun as ([] & w3 & Hh & Hrun).
  assert (Hw3 : tasks (tables w3) = tasks (tables w2) /\ locks (tables w3) = locks (tables w2) /\
                events (tables w3) = events (tables w2)).
  { destruct (String.eqb _ _).
    - apply statement_Ok in Hh. by injection Hh as <-.
    - by apply ret_Ok in Hh as [_ ->]. }
  destruct Hw3 as (Ht3 & Hl3 & He3). rewrite <- He, <- Hs in Ht3, Hl3, He3. cbn in Ht3, Hl3, He3.
  assert (Hids : forall f, (forall t, T_ID (f t) = T_ID t) ->
    map T_ID (in_place (T_ID t) f (tasks (tables w))) = map T_ID (tasks (tables w)))
    by (intros f; apply in_place_ids).
  apply IH in Hrun as (Ht' & Hl' & He'); [| |done|].
  - split_and!; [|congruence|].
    + rewrite Ht', Ht3. unfold in_place. rewrite map_map. apply map_ext_in. intros q Hq.
      unfold interrupt_in. cbn [is_one_of existsb map].
      destruct (String.eqb_spec (T_ID q) (T_ID t)) as [E|Hne]; cbn [orb]; [|done].
      rewrite interrupted_ID, E.
      destruct (is_one_of (T_ID t) (map T_ID l)) eqn:Eo; [|done].
      apply is_one_of_In, list_elem_of_In in Eo. contradiction.
    + rewrite He', He3, <- app_assoc. done.
  - unfold unique_tasks. rewrite Ht3, Hids; [done|apply interrupted_ID].
  - rewrite Forall_forall in *. intros q Hq. rewrite Ht3. unfold in_place. apply in_map_iff.
    exists q. split; [|by apply Hin].
    destruct (String.eqb_spec (T_ID q) (T_ID t)) as [E|]; [|done].
    exfalso. apply Hnew. rewrite <- E. apply list_elem_of_In, in_map_iff.
    exists q. split; [done|by apply list_elem_of_In].
Qed.

(** The committed effect of [reconcileInterruptedTasks]. *)
Definition reconciled (now saved : time) (s s' : TaskState) : Prop :=
  tasks s' = map (fun t => if is_active (T_Status t) then interrupted inspector now saved t else t)
               (tasks s) /\
  locks s' = [] /\
  events s' = events s ++ map (fun t => interrupted_event (interrupted inspector now saved t) now)
                (List.filter (fun t => is_active (T_Status t)) (tasks s)).

Lemma active_ids s t :
  unique_tasks s -> In t (tasks s) ->
  is_one_of (T_ID t) (map T_ID (List.filter (fun t => is_active (T_Status t)) (tasks s)))
    = is_active (T_Status t).
Proof.
  intros Hu Hin. destruct (is_active (T_Status t)) eqn:E.
  - apply is_one_of_In, in_map_iff. exists t. split; [done|]. by apply filter_In.
  - apply not_true_iff_false. intros (q & Hq & Hqin)%is_one_of_In%in_map_iff.
    apply filter_In in Hqin as [Hqin Hqa].
    pose proof (task_of_unique _ _ Hu Hqin) as Hq1. pose proof (task_of_unique _ _ Hu Hin) as Hq2.
    rewrite Hq, Hq2 in Hq1. congruence.
Qed.

Lemma filter_ids_NoDup (c : SoftwareTask -> bool) l :
  NoDup (map T_ID l) -> NoDup (map T_ID (List.filter c l)).
Proof.
  intros Hn. eapply sublist_NoDup; [exact Hn|]. clear Hn.
  induction l as [|t l IH]; cbn; [constructor|]. destruct (c t); by constructor.
Qed.

Lemma reconcile_tx now saved w r w' :
  unique_tasks (tables w) -> reconcileInterruptedTasks inspector now saved w = (r, w') ->
  is_ok r = false /\ tables w' = tables w \/ r = Ok tt /\ reconciled now saved (tables w) (tables w').
Proof.
  intros Hu. unfold reconcileInterruptedTasks, bind at 1, wrapping at 1.
  destruct (read _ w) as [[active|e] w1] eqn:E.
  2:{ apply read_tables in E. intros [= <- <-]. by left. }
  apply read_Ok in E as [-> Hw1].
  intros [[? ->]|(a & w2 & w3 & -> & E2 & Hrun & ->)]%transaction_cases; [by left|right].
  apply bind_Ok in Hrun as ([] & w4 & Hall & Hl). apply wrapping_Ok, statement_Ok in Hl.
  split; [by destruct a|]. injection Hl as _ <-.
  apply interrupt_all_effect in Hall as (Ht & _ & He).
  - rewrite E2, Hw1 in Ht, He. unfold reconciled. cbn. split_and!; [|done|done].
    rewrite Ht. apply map_ext_in. intros t Hin. unfold interrupt_in. by rewrite active_ids.
  - by rewrite E2, Hw1.
  - by apply filter_ids_NoDup.
  - rewrite Forall_forall. intros t Hin. rewrite E2, Hw1.
    apply list_elem_of_In, filter_In in Hin. tauto.
Qed.
Definition event_free (s : TaskState) (t : SoftwareTask) : Prop :=
  existsb (fun e => String.eqb (E_TaskID e) (T_ID t) && (E_Seq e =? i64 (T_EventSeq t + 1)))
    (events s) = false.

Lemma logged_event_free s t : logged 1 s -> In t (tasks s) -> event_free s t.
Proof.
  unfold logged. rewrite Forall_forall. intros Hlog Hin. apply list_elem_of_In, Hlog in Hin as [Hs Hb].
  apply not_true_iff_false. intros (e & He & Hc)%existsb_exists.
  apply andb_true_iff in Hc as [Hid Hseq]. apply Z.eqb_eq in Hseq. rewrite i64_small in Hseq by lia.
  assert (Hel : E_Seq e ∈ seqs (T_ID t) s).
  { apply list_elem_of_In, in_map_iff. exists e. split; [done|]. by apply filter_In. }
  rewrite Hs in Hel. apply elem_of_seqZ in Hel. lia.
Qed.

Lemma interrupt_all_run now saved l : forall s,
  unique_tasks s -> NoDup (map T_ID l) -> Forall (fun t => In t (tasks s) /\ event_free s t) l ->
  exists s', interrupt_all inspector now saved l (World s []) = (Ok tt, World s' []).
Proof.
  induction l as [|t l IH]; intros s Hu Hnd Hin; [by eexists|].
  cbn [interrupt_all map] in *. apply NoDup_cons in Hnd as [Hnew Hnd].
  apply Forall_cons in Hin as [[Ht Hfree] Hin]. run_clean.
  rewrite (save_task_in_place (T_ID t) _ t (interrupted inspector now saved));
    [|done|by apply task_of_unique|apply interrupted_ID].
  set (s1 := with_tasks s (in_place (T_ID t) (interrupted inspector now saved) (tasks s))).
  set (e := interrupted_event (interrupted inspector now saved t) now).
  assert (He : create_event e s1 = Ok (tt, with_events s1 (events s ++ [e]))).
  { unfold create_event. change (events s1) with (events s). unfold e, interrupted_event.
    cbn [E_TaskID E_Seq]. rewrite interrupted_ID, interrupted_EventSeq. by rewrite Hfree. }
  run_clean. rewrite He.
  assert (Hstep : forall s2, tasks s2 = tasks s1 -> events s2 = events s ++ [e] ->
    exists s', interrupt_all inspector now saved l (World s2 []) = (Ok tt, World s' [])).
  { intros s2 Ht2 He2. apply IH; [| |].
    - unfold unique_tasks. rewrite Ht2. cbn. rewrite in_place_ids; [done|apply interrupted_ID].
    - done.
    - rewrite Forall_forall in *. intros q Hq. destruct (Hin q Hq) as [Hq1 Hq2].
      assert (Hne : T_ID q <> T_ID t).
      { intros E. apply Hnew. rewrite <- E. apply list_elem_of_In, in_map_iff. exists q.
        split; [done|by apply list_elem_of_In]. }
      split.
      + rewrite Ht2. cbn. unfold in_place. apply in_map_iff. exists q. split; [|done].
        by apply String.eqb_neq in Hne as ->.
      + unfold event_free in *. rewrite He2, existsb_app, Hq2. cbn. rewrite interrupted_ID.
        destruct (String.eqb_spec (T_ID t) (T_ID q)); [congruence|done]. }
  destruct (String.eqb _ "configure"); run_clean.
  - unfold close_history at 1. by apply Hstep.
  - by apply Hstep.
Qed.

Lemma reconcile_run now saved s :
  unique_tasks s -> logged 1 s ->
  exists s', reconcileInterruptedTasks inspector now saved (World s []) = (Ok tt, World s' []).
Proof.
  intros Hu Hlog.
  destruct (interrupt_all_run now saved (List.filter (fun t => is_active (T_Status t)) (tasks s)) s)
    as [s' Hrun]; [done|by apply filter_ids_NoDup| |].
  { rewrite Forall_forall. intros t [Hin _]%list_elem_of_In%filter_In.
    split; [done|by apply logged_event_free]. }
  exists (with_locks s' []). unfold reconcileInterruptedTasks, bind at 1, wrapping at 1.
  unfold read, statement, next_fault. cbn [faults tables].
  rewrite (run_transaction _ s (Ok tt) (with_locks s' [])); [done|].
  unfold bind. rewrite Hrun. done.
Qed.

(** Among the events of distinct tasks, one belongs to [t] if [t] is there. *)
Lemma events_of_none now saved l id :
  ~ id ∈ map T_ID l ->
  List.filter (fun e => String.eqb (E_TaskID e) id)
    (map (fun t => interrupted_event (interrupted inspector now saved t) now) l) = [].
Proof.
  induction l as [|q l IH]; [done|]. cbn [map List.filter]. rewrite not_elem_of_cons.
  intros [Hne Hl]. unfold interrupted_event at 1. cbn [E_TaskID]. rewrite interrupted_ID.
  destruct (String.eqb_spec (T_ID q) id); [congruence|auto].
Qed.

Lemma events_of_one now saved l t (b : bool) :
  NoDup (map T_ID l) -> (forall q, In q l -> T_ID q = T_ID t -> q = t) -> (In t l <-> b = true) ->
  map E_Seq (List.filter (fun e => String.eqb (E_TaskID e) (T_ID t))
    (map (fun t => interrupted_event (interrupted inspector now saved t) now) l)) =
  if b then [i64 (T_EventSeq t + 1)] else [].
Proof.
  induction l as [|q l IH]; cbn [map List.filter].
  - intros _ _ Hb. destruct b; [|done]. by destruct (proj2 Hb eq_refl).
  - intros [Hq Hnd]%NoDup_cons Hsame Hb. unfold interrupted_event at 1. cbn [E_TaskID].
    rewrite interrupted_ID. destruct (String.eqb_spec (T_ID q) (T_ID t)) as [E|Hne].
    + assert (q = t) as -> by (apply Hsame; [by left|done]).
      rewrite (proj1 Hb) by (by left). rewrite events_of_none by done.
      cbn. by rewrite interrupted_EventSeq.
    + apply IH; [done| |].
      * intros r Hr. apply Hsame. by right.
      * rewrite <- Hb. split; [by right|]. intros [->|?]; [done|done].
Qed.

Lemma reconciled_idle now saved s s' :
  unique_tasks s -> logged 1 s -> reconciled now saved s s' ->
  active_components s' = [] /\ logged 0 s'.
Proof.
  intros Hu Hlog (Ht & _ & He). split.
  - unfold active_components. rewrite Ht. clear. induction (tasks s) as [|t l IH]; [done|].
    cbn [map List.filter]. destruct (is_active (T_Status t)) eqn:Ea.
    + by rewrite interrupted_Status.
    + by rewrite Ea.
  - unfold logged in *. rewrite Ht. apply Forall_map_iff. rewrite Forall_forall in *.
    intros t Hin. destruct (Hlog t Hin) as [Hs Hb]. apply list_elem_of_In in Hin.
    assert (Hseqs : seqs (T_ID t) s' = seqs (T_ID t) s
      ++ if is_active (T_Status t) then [i64 (T_EventSeq t + 1)] else []).
    { unfold seqs. rewrite He, List.filter_app, map_app. f_equal.
      apply events_of_one; [by apply filter_ids_NoDup| |].
      - intros q Hq Hid. apply filter_In in Hq as [Hq _].
        pose proof (task_of_unique _ _ Hu Hq) as Hq1. pose proof (task_of_unique _ _ Hu Hin) as Hq2.
        rewrite Hid in Hq1. congruence.
      - rewrite filter_In. destruct (is_active (T_Status t)); split; intuition. }
    destruct (is_active (T_Status t)).
    + rewrite interrupted_ID, Hseqs, interrupted_EventSeq, Hs, i64_small by lia.
      rewrite seqZ_snoc by lia. split; [done|lia].
    + rewrite Hseqs, app_nil_r. split; [done|lia].
Qed.

End recovery_facts.

Lemma find_app {A} (f : A -> bool) l1 l2 :
  List.find f (l1 ++ l2) = match List.find f l1 with Some x => Some x | None => List.find f l2 end.
Proof. induction l1 as [|x l1 IH]; cbn; [done|]. by destruct (f x). Qed.

(** ** Runs without faults *)

(** What a publication does not touch. *)
Definition same_memory (s s' : TaskState) : Prop :=
  locks s' = locks s /\ queue s' = queue s /\ cancels s' = cancels s /\
  canceled s' = canceled s /\ stopping s' = stopping s.

#[global] Instance same_memory_preorder : PreOrder same_memory.
Proof.
  split.
  - by intros s.
  - intros s1 s2 s3 (? & ? & ? & ? & ?) (? & ? & ? & ? & ?). repeat split; congruence.
Qed.

(** The task is live, not asked to cancel, and its log has room for [n]. *)
Definition alive (t0 : SoftwareTask) (n : Z) (s : TaskState) : Prop :=
  unique_tasks s /\ logged n s /\
  exists t, task_of (T_ID t0) s = Some t /\ same_identity t0 t /\
    IsSoftwareTaskTerminal (T_Status t) = false /\ T_CancelRequested t = false.

Definition quiet (u : taskUpdate) : Prop :=
  u_cancelRequested u = None /\ (u_status u = "" \/ is_active (u_status u) = true).

Lemma publish_live t0 n c u v s :
  alive t0 (n + 1) s -> 0 <= n ->
  exists s' t, publishLocked c (T_ID t0) u v (World s []) = (Ok tt, World s' []) /\
    task_of (T_ID t0) s = Some t /\ task_of (T_ID t0) s' = Some (updated u c t) /\
    same_identity t0 t /\ IsSoftwareTaskTerminal (T_Status t) = false /\
    T_CancelRequested t = false /\ unique_tasks s' /\ logged n s' /\ same_memory s s'.
Proof.
  intros (Hu & Hlog & t & Ht & Hid & Hl & Hc) Hn.
  pose proof Ht as [Hti Hin]%task_of_id.
  destruct (publish_run c (T_ID t0) u v s t) as (s' & Hrun & Hp); [done..| |].
  { assert (He : event_free s t)
      by (apply logged_event_free; [eapply logged_weaken; [|exact Hlog]; lia|done]).
    unfold event_free in He. by rewrite Hti in He. }
  exists s', t. pose proof (published_evolves _ _ _ _ _ _ Hp) as [Hu' _].
  pose proof (published_logged _ _ _ _ _ _ _ Hp Hn Hlog) as Hlog'.
  destruct Hp as (t1 & hs & Ht1 & _ & _ & ->). split_and!; try done.
  - unfold task_of in *. cbn [tasks]. rewrite find_in_place, Ht by done. cbn.
    by rewrite Hti, String.eqb_refl.
  - by apply Hu'.
Qed.

Lemma publish_alive t0 n c u v s :
  alive t0 (n + 1) s -> 0 <= n -> quiet u ->
  exists s', publishLocked c (T_ID t0) u v (World s []) = (Ok tt, World s' []) /\
    alive t0 n s' /\ same_memory s s'.
Proof.
  intros Ha Hn [Hq Hs]. destruct (publish_live t0 n c u v s Ha Hn)
    as (s' & t & Hrun & _ & Ht' & Hid & Hl & Hc & Hu & Hlog & Hmem).
  exists s'. split_and!; [done| |done]. split_and!; [done..|]. exists (updated u c t).
  split_and!; [done| | |].
  - transitivity t; [done|apply updated_identity].
  - change (T_Status (updated u c t)) with (if_set (u_status u) (T_Status t)). unfold if_set.
    destruct Hs as [->|Hs]; [done|]. destruct (String.eqb _ _); [done|].
    by apply active_not_terminal.
  - change (T_CancelRequested (updated u c t)) with (default (T_CancelRequested t) (u_cancelRequested u)).
    by rewrite Hq.
Qed.

Lemma setPhase_alive t0 n c phase p message code s :
  alive t0 (n + 1) s -> 0 <= n -> is_some (phase_spec phase) = true ->
  exists s', setPhase c (T_ID t0) phase p message code (World s []) = (Ok tt, World s' []) /\
    alive t0 n s' /\ same_memory s s'.
Proof.
  intros Ha Hn Hp. unfold setPhase. destruct (phase_spec phase) as [spec|] eqn:Es; [|done].
  apply publish_alive; [done..|]. split; [done|]. right. cbn [u_status].
  unfold phase_spec in Es. destruct (List.find _ _) as [[k x]|] eqn:Ef; [|done].
  injection Es as <-. apply find_some in Ef as [Hin _]. cbn in Hin.
  repeat (destruct Hin as [[= <- <-]|Hin]; [reflexivity|]). destruct Hin.
Qed.

Section runs.
Context `{!UnicodeCase}.

Lemma normal_phase_known action phase :
  normalizeActionPhase action = Some phase -> is_some (phase_spec phase) = true.
Proof.
  unfold normalizeActionPhase. destruct (is_one_of _ _) eqn:E.
  - intros [= <-]. unfold is_one_of in E. apply existsb_exists in E as (a & Hin & Ha).
    apply String.eqb_eq in Ha as ->.
    repeat (destruct Hin as [<-|Hin]; [reflexivity|]). destruct Hin.
  - destruct (String.eqb _ _); [|done]. by intros [= <-].
Qed.

Lemma on_report_alive t0 n c r s :
  alive t0 (n + 1) s -> 0 <= n ->
  exists x s', on_report c (T_ID t0) r (World s []) = (Ok x, World s' []) /\
    alive t0 n s' /\ same_memory s s'.
Proof.
  intros Ha Hn.
  assert (Hnone : exists x s', ret (Ok tt) (World s []) = (Ok x, World s' []) /\
    alive t0 n s' /\ same_memory s s').
  { eexists _, s. split_and!; [done| |reflexivity]. destruct Ha as (Hu & Hlog & Ht).
    split_and!; [done| |done]. eapply logged_weaken; [|exact Hlog]. lia. }
  assert (Hpub : forall u v, quiet u -> exists x s',
    attempt (publishLocked c (T_ID t0) u v) (World s []) = (Ok x, World s' []) /\
    alive t0 n s' /\ same_memory s s').
  { intros u v Hq. destruct (publish_alive t0 n c u v s Ha Hn Hq) as (s' & Hrun & ?).
    exists (Ok tt), s'. unfold attempt. by rewrite Hrun. }
  assert (Hset : forall phase p m code, is_some (phase_spec phase) = true -> exists x s',
    attempt (setPhase c (T_ID t0) phase p m code) (World s []) = (Ok x, World s' []) /\
    alive t0 n s' /\ same_memory s s').
  { intros phase p m code Hp. destruct (setPhase_alive t0 n c phase p m code s Ha Hn Hp) as (s' & Hrun & ?).
    exists (Ok tt), s'. unfold attempt. by rewrite Hrun. }
  unfold on_report. destruct r as [a|v src|a p code m|a| |[e|]]; cbv zeta.
  - destruct (normalizeActionPhase a) eqn:E; [|done]. apply Hset. by eapply normal_phase_known.
  - destruct (_ && _); [done|]. apply Hpub. split; [done|by left].
  - destruct (normalizeActionPhase a) eqn:E; [|done]. apply Hset. by eapply normal_phase_known.
  - destruct (normalizeActionPhase a) eqn:E; [|done]. apply Hset. by eapply normal_phase_known.
  - apply Hpub. split; [done|by right].
  - apply Hpub. split; [done|by left].
  - apply Hpub. split; [done|by left].
Qed.

Lemma reports_alive t0 calls : forall n s,
  alive t0 (n + Z.of_nat (List.length calls)) s -> 0 <= n ->
  exists s', reports (T_ID t0) calls (World s []) = (Ok tt, World s' []) /\
    alive t0 n s' /\ same_memory s s'.
Proof.
  induction calls as [|[c r] calls IH]; intros n s Ha Hn; cbn [reports List.length] in *.
  { exists s. split_and!; [done| |reflexivity]. by rewrite Z.add_0_r in Ha. }
  destruct (on_report_alive t0 (n + Z.of_nat (List.length calls)) c r s) as (x & s1 & Hrun & Ha1 & Hm1).
  { by replace (n + Z.of_nat (List.length calls) + 1) with (n + Z.of_nat (S (List.length calls))) by lia. }
  { lia. }
  destruct (IH n s1 Ha1 Hn) as (s2 & Hrun2 & Ha2 & Hm2). exists s2.
  split_and!; [|done|by transitivity s1]. unfold bind. by rewrite Hrun, Hrun2.
Qed.
(** The status a run ends with, and the code it reports. *)
Definition run_status (err : option error) : string :=
  match err with
  | None => SoftwareTaskStatusSucceeded
  | Some e => if errors_Is e ContextCanceled then SoftwareTaskStatusCanceled
              else SoftwareTaskStatusFailed
  end.

Definition run_code (err : option error) (previous : string) : string :=
  match err with
  | None => previous
  | Some e => if errors_Is e ContextCanceled then "ACTION_CANCELED" else classifyExecutionError e
  end.

Definition finished_as (t0 : SoftwareTask) (status : string) (now : time) (s : TaskState) : Prop :=
  exists t, task_of (T_ID t0) s = Some t /\ same_identity t0 t /\ T_Status t = status /\
    T_Phase t = status /\ T_FinishedAt t = Some now.

Lemma finish_alive t0 n c now status code message s :
  alive t0 (n + 1) s -> 0 <= n -> status <> "" ->
  exists s', finish c now (T_ID t0) status code message (World s []) = (Ok tt, World s' []) /\
    finished_as t0 status now s' /\ same_memory s s' /\
    (code <> "" -> exists t, task_of (T_ID t0) s' = Some t /\ T_ErrorCode t = code).
Proof.
  intros Ha Hn Hs. unfold finish. cbv zeta.
  match goal with |- context [publishLocked c (T_ID t0) ?u ?v] =>
    destruct (publish_live t0 n c u v s Ha Hn) as (s' & t & Hrun & _ & Ht' & Hid & _ & _ & _ & _ & Hmem)
  end.
  exists s'. split; [exact Hrun|]. split; [|split; [done|]].
  - eexists. split; [exact Ht'|]. split; [transitivity t; [done|apply updated_identity]|].
    cbn. unfold if_set. apply String.eqb_neq in Hs as ->. done.
  - intros Hc. eexists. split; [exact Ht'|]. cbn. unfold if_set. by apply String.eqb_neq in Hc as ->.
Qed.

Lemma classify_not_empty e : classifyExecutionError e <> "".
Proof.
  unfold classifyExecutionError. destruct (errors_Is _ _); [done|].
  destruct (List.find _ _) as [c|] eqn:E; [|done]. apply find_some in E as [Hin _].
  unfold error_classes in Hin.
  repeat (destruct Hin as [<-|Hin]; [done|]). destruct Hin.
Qed.

(** The end of a run on a live task. *)
Lemma run_end_alive t n c1 c2 now err s :
  alive t (n + 2) s -> 0 <= n -> stopping s = false ->
  exists s', run_end c1 c2 now t err (World s []) = (Ok tt, World s' []) /\
    finished_as t (run_status err) now s' /\ same_memory s s' /\
    (err <> None -> exists t', task_of (T_ID t) s' = Some t' /\
       T_ErrorCode t' = run_code err "").
Proof.
  intros Ha Hn Hstop. destruct err as [e|]; cbn [run_end run_status run_code].
  - assert (Ha' : alive t (n + 1 + 1) s) by (by replace (n + 1 + 1) with (n + 2) by lia).
    assert (Hreq : isCancelRequested (T_ID t) (World s []) = (Ok false, World s [])).
    { unfold isCancelRequested. destruct Ha as (_ & _ & q & Hq & _ & _ & Hc).
      run_clean. rewrite Hq. cbn. by rewrite Hc. }
    unfold bind at 1. destruct (errors_Is e ContextCanceled) eqn:Ee.
    + cbn [ret get_memory tables bind].
      destruct (finish_alive t (n + 1) c2 now SoftwareTaskStatusCanceled "ACTION_CANCELED"
        (operationLabel (T_Operation t) +:+ "任务已取消") s Ha') as (s' & Hrun & Hf & Hm & Hc);
        [lia|done|].
      exists s'. split_and!; [|done|done|intros _; by apply Hc].
      unfold bind, get_memory, ret, attempt. cbn [tables]. by rewrite Hstop, Hrun.
    + rewrite Hreq.
      destruct (finish_alive t (n + 1) c2 now SoftwareTaskStatusFailed (classifyExecutionError e)
        (safeErrorMessage e) s Ha') as (s' & Hrun & Hf & Hm & Hc); [lia|done|].
      exists s'. split_and!; [|done|done|intros _; apply Hc, classify_not_empty].
      unfold bind, ret, attempt. by rewrite Hrun.
  - destruct (setPhase_alive t (n + 1) c1 "finalizing" (Some 0) "正在保存任务状态" "task_finalizing" s)
      as (s1 & Hrun1 & Ha1 & Hm1); [by replace (n + 1 + 1) with (n + 2) by lia|lia|done|].
    destruct (finish_alive t n c2 now SoftwareTaskStatusSucceeded ""
      (operationSuccessMessage (T_Operation t)) s1 Ha1) as (s' & Hrun & Hf & Hm & _); [done|done|].
    exists s'. split_and!; [|done|by transitivity s1|done].
    unfold bind, ret, attempt. by rewrite Hrun1, Hrun.
Qed.

Lemma run_locked_alive t c0 c1 c2 now calls err s :
  alive t (Z.of_nat (List.length calls) + 4) s -> stopping s = false ->
  exists s', run_locked c0 c1 c2 now t calls err (World s []) = (Ok tt, World s' []) /\
    finished_as t (run_status err) now s' /\
    (err <> None -> exists t', task_of (T_ID t) s' = Some t' /\ T_ErrorCode t' = run_code err "") /\
    same_memory s s'.
Proof.
  set (n := Z.of_nat (List.length calls)). intros Ha Hstop.
  destruct (setPhase_alive t (n + 3) c0 "resolving" None
    ("正在解析并校验" +:+ operationLabel (T_Operation t) +:+ "脚本包") "package_resolving" s)
    as (s3 & Hrun3 & Ha3 & Hm3); [by replace (n + 3 + 1) with (n + 4) by lia|lia|done|].
  destruct (reports_alive t calls 3 s3) as (s4 & Hrun4 & Ha4 & Hm4);
    [by replace (3 + Z.of_nat (List.length calls)) with (n + 3) by lia|lia|].
  destruct (run_end_alive t 1 c1 c2 now err s4) as (s5 & Hrun5 & Hf5 & Hm5 & Hc5); [done|lia| |].
  { destruct Hm4 as (_ & _ & _ & _ & ->). by destruct Hm3 as (_ & _ & _ & _ & ->). }
  exists s5. split_and!; [|done|done|by transitivity s4; [transitivity s3|]].
  unfold run_locked, bind, attempt. by rewrite Hrun3, Hrun4, Hrun5.
Qed.

Lemma acquire_run now t s :
  (forall l, In l (locks s) -> L_Component l <> T_Component t /\ L_TaskID l <> T_ID t) ->
  acquireComponentLock now t (World s []) =
    (Ok tt, World (with_locks s (locks s ++ [mkLock (T_Component t) (T_ID t) now now])) []).
Proof.
  intros Hfree. unfold acquireComponentLock, bind, attempt. rewrite run_exec. unfold create_lock.
  cbn [L_Component L_TaskID]. destruct (existsb _ (locks s)) eqn:E; [|done].
  apply existsb_exists in E as (l & Hin & Hl). destruct (Hfree l Hin) as [H1 H2].
  apply String.eqb_neq in H1, H2. by rewrite H1, H2 in Hl.
Qed.

Lemma release_run now component id s l :
  (forall l, In l (locks s) -> L_Component l <> component /\ L_TaskID l <> id) ->
  releaseComponentLock component id
    (World (with_locks l (locks s ++ [mkLock component id now now])) []) =
  (Ok tt, World (with_locks l (locks s)) []).
Proof.
  intros Hfree. unfold releaseComponentLock, bind, attempt. rewrite run_exec. cbn [locks with_locks].
  rewrite List.filter_app. cbn [List.filter L_Component L_TaskID]. rewrite !String.eqb_refl.
  cbn [andb negb]. rewrite app_nil_r. do 3 f_equal.
  assert (Hall : forall k, In k (locks s) -> negb (String.eqb (L_Component k) component
    && String.eqb (L_TaskID k) id) = true).
  { intros k Hk. destruct (Hfree k Hk) as [Hk1 _]. by apply String.eqb_neq in Hk1 as ->. }
  clear Hfree. induction (locks s) as [|k ks IH]; [done|]. cbn [List.filter].
  rewrite Hall by (by left). f_equal. apply IH. intros q Hq. apply Hall. by right.
Qed.

Lemma remove_id_fresh id l : ~ In id l -> remove_id id l = l.
Proof.
  induction l as [|x l IH]; [done|]. cbn. intros Hn.
  destruct (String.eqb_spec x id) as [->|]; [by destruct Hn; left|]. cbn. f_equal. apply IH. tauto.
Qed.

Lemma prefix_app p q s : String.prefix (p +:+ q) s = true -> exists s', s = p +:+ s' /\ String.prefix q s' = true.
Proof.
  revert s. induction p as [|c p IH]; intros s; [by exists s|]. destruct s as [|d s]; [done|].
  cbn. destruct (ascii_dec c d) as [->|]; [|done]. intros (s' & -> & Hq)%IH. by exists s'.
Qed.

Lemma Contains_suffix p q s : Contains (p +:+ s) q = true \/ Contains s q = false.
Proof.
  destruct (Contains s q) eqn:E; [left|by right]. induction p as [|c p IH]; [done|].
  cbn [String.append Contains]. rewrite IH. apply orb_true_r.
Qed.

Lemma Contains_prefix q s : String.prefix q s = true -> Contains s q = true.
Proof. intros H1. destruct s; cbn [Contains]; by rewrite H1. Qed.

(** What contains a text contains its suffixes. *)
Lemma Contains_tail p q s : Contains s (p +:+ q) = true -> Contains s q = true.
Proof.
  induction s as [|c s IH]; cbn [Contains].
  - rewrite !orb_false_r. intros (s' & E & Hq)%prefix_app. destruct p; [|done]. by rewrite E.
  - intros [Hp|Hs]%orb_true_iff; [|by rewrite IH, orb_true_r].
    apply prefix_app in Hp as (s' & E & Hq). change (Contains (String c s) q = true). rewrite E.
    destruct (Contains_suffix p q s') as [->|Hn]; [done|]. by rewrite Contains_prefix in Hn.
Qed.

(** The rule for failed starts comes before the one for failed restarts. *)
Lemma start_before_restart m :
  Contains m "restart action" = true -> Contains m "start action" = true.
Proof. apply (Contains_tail "re" "start action"). Qed.
End runs.

(** ** Submission and the system's steps *)

Lemma exclusive_add s s' t :
  exclusive s -> active_tasks (T_Component t) s = [] ->
  existsb (fun q => String.eqb (T_ID q) (T_ID t)) (tasks s) = false ->
  known_status t -> tasks s' = tasks s ++ [t] -> exclusive s'.
Proof.
  intros [Hu Hk Hc] Hnone Hnew Ht E. split.
  - unfold unique_tasks in *. rewrite E, map_app. apply NoDup_app. split_and!; [done| |apply NoDup_singleton].
    intros id Hid. cbn. rewrite list_elem_of_singleton. intros ->.
    apply list_elem_of_In, in_map_iff in Hid as (q & Hq & Hin).
    apply existsb_false_Forall in Hnew. rewrite Forall_forall in Hnew.
    apply list_elem_of_In, Hnew in Hin. by rewrite Hq, String.eqb_refl in Hin.
  - rewrite E. apply Forall_app. split; [done|]. constructor; [done|constructor].
  - unfold active_components in *. rewrite E, List.filter_app, map_app.
    apply NoDup_app. split_and!; [done| |].
    + intros component Hin. cbn [List.filter map]. destruct (is_active (T_Status t)); [|apply not_elem_of_nil].
      cbn [map].
      rewrite list_elem_of_singleton. intros ->.
      apply list_elem_of_In, in_map_iff in Hin as (q & Hq & Hin).
      apply filter_In in Hin as [Hin Ha].
      assert (Hq' : In q (active_tasks (T_Component t) s)).
      { apply filter_In. by rewrite Hq, String.eqb_refl, Ha. }
      by rewrite Hnone in Hq'.
    + cbn [List.filter]. destruct (is_active (T_Status t)); [apply NoDup_singleton|constructor].
Qed.

Inductive operation :=
  | OpSubmit (startErr : option error) (taskID historyID : string) (now : time) (c : Clock)
      (later : time) (request : InstallRequest) (requestedBy : Z)
  | OpTake
  | OpRegister (t : SoftwareTask)
  | OpAcquire (now : time) (t : SoftwareTask)
  | OpBusy (c : Clock) (now : time) (id message : string)
  | OpBegin (c : Clock) (t : SoftwareTask)
  | OpReport (c : Clock) (id : string) (r : report)
  | OpEnd (c1 c2 : Clock) (now : time) (t : SoftwareTask) (err : option error)
  | OpRelease (component id : string)
  | OpDeregister (id : string)
  | OpCancelMark (startErr : option error) (c : Clock) (id : string)
  | OpCancelSignal (startErr : option error) (c : Clock) (now : time) (t : SoftwareTask)
  | OpTouch (now : time) (id : string)
  | OpStop
  | OpReconcile (now saved : time).

Section steps.
Context `{!UnicodeCase}.
Variable Quote : string -> string.
Variable is_uuid : string -> bool.
Variable logDir : string.
Variable inspector : option (SoftwareTask -> string * string).

(** One atomic step of a submission (under the submission lock), of a worker,
    of a cancellation, of a heartbeat, of shutdown or of recovery. *)
Definition perform (op : operation) (w : world TaskState) : world TaskState :=
  match op with
  | OpSubmit startErr taskID historyID now c later request requestedBy =>
      (submit Quote is_uuid logDir startErr taskID historyID now c later request requestedBy w).2
  | OpTake => (worker_take w).2
  | OpRegister t => (run_register t w).2
  | OpAcquire now t => (acquireComponentLock now t w).2
  | OpBusy c now id message =>
      (finish c now id SoftwareTaskStatusFailed "COMPONENT_BUSY" message w).2
  | OpBegin c t =>
      (setPhase c (T_ID t) "resolving" None
         ("正在解析并校验" +:+ operationLabel (T_Operation t) +:+ "脚本包") "package_resolving" w).2
  | OpReport c id r => (on_report c id r w).2
  | OpEnd c1 c2 now t err => (run_end c1 c2 now t err w).2
  | OpRelease component id => (releaseComponentLock component id w).2
  | OpDeregister id => (run_deregister id w).2
  | OpCancelMark startErr c id => (cancel_mark startErr c id w).2
  | OpCancelSignal startErr c now t => (cancel_signal startErr c now t w).2
  | OpTouch now id => (Touch now id w).2
  | OpStop => (Stop w).2
  | OpReconcile now saved => (reconcileInterruptedTasks inspector now saved w).2
  end.

Definition perform_all (ops : list operation) (w : world TaskState) : world TaskState :=
  fold_left (fun w op => perform op w) ops w.

(** The transaction that creates a task of a free component. *)
Lemma create_exclusive (t : SoftwareTask) (e : SoftwareTaskEvent) (m : M TaskState unit) w :
  exclusive (tables w) -> active_tasks (T_Component t) (tables w) = [] -> known_status t ->
  (forall w a w', m w = (Ok a, w') -> tasks (tables w') = tasks (tables w)) ->
  exclusive (tables (transaction (let* _ := exec (create_task t) in
                                  let* _ := exec (create_event e) in m) w).2).
Proof.
  intros Hex Hfree Ht Hm. destruct (transaction _ w) as [r w'] eqn:E. cbn.
  apply transaction_outcome in E as [->|(a & w1 & w2 & _ & E1 & Hrun & ->)]; [done|].
  apply bind_Ok in Hrun as ([] & w3 & Hc%statement_Ok & Hrun).
  apply bind_Ok in Hrun as ([] & w4 & He%statement_Ok & Hrun%Hm).
  unfold create_task in Hc. rewrite E1 in Hc.
  destruct (existsb _ (tasks (tables w))) eqn:En; [done|]. injection Hc as Hc.
  unfold create_event in He. case_hyp He; [done|]. injection He as He.
  eapply exclusive_add; [exact Hex|exact Hfree|exact En|exact Ht|].
  rewrite Hrun, <- He, <- Hc. done.
Qed.

Lemma submit_create_exclusive taskID historyID now component request requestedBy :
  preserves exclusive
    (submit_create logDir taskID historyID now component request requestedBy).
Proof.
  intros w Hw. unfold submit_create, bind at 1. unfold wrapping at 1.
  destruct (read _ w) as [[active|e] w1] eqn:E1; [|by apply read_tables in E1; cbn; rewrite E1].
  apply read_Ok in E1 as [-> Hw1]. destruct (Nat.ltb_spec 0 (List.length (active_tasks component (tables w)))) as [|Hfree].
  { cbn. by rewrite Hw1. }
  assert (Hnone : active_tasks component (tables w) = [])
    by (destruct (active_tasks _ _); [done|cbn in Hfree; lia]).
  unfold bind at 1, attempt at 1. destruct (first_software _ _ w1) as [installed w2] eqn:E2.
  apply first_tables in E2.
  assert (Hrest : forall w3, tables w3 = tables w -> exclusive (tables (match
      resolve_version request component installed with
    | Fail err => fail err
    | Ok (operation, version) =>
        let request := with_version request version in
        let task := new_task logDir taskID now operation component request requestedBy in
        let* _ := wrapping "create software task" (transaction
          (let* _ := exec (create_task task) in
           let* _ := exec (create_event (queued_event task now)) in
           if String.eqb (R_Operation request) "configure"
           then exec (create_history
                  (new_history historyID taskID now component request requestedBy))
           else ret tt)) in
        ret (task, request)
    end w3).2)).
  { intros w3 Hw3. destruct (resolve_version _ _ _) as [[op version]|e]; [|by cbn; rewrite Hw3].
    cbv zeta. unfold bind at 1, wrapping.
    pose proof (create_exclusive (new_task logDir taskID now op component (with_version request version)
      requestedBy) (queued_event (new_task logDir taskID now op component (with_version request version)
      requestedBy) now) (if String.eqb (R_Operation (with_version request version)) "configure"
           then exec (create_history
                  (new_history historyID taskID now component (with_version request version) requestedBy))
           else ret tt) w3) as Hc.
    rewrite Hw3 in Hc. specialize (Hc Hw Hnone ltac:(by left)).
    assert (Hm : forall h v (u : unit) v',
      (if String.eqb (R_Operation (with_version request version)) "configure"
       then exec (create_history h) else ret tt) v = (Ok u, v') -> tasks (tables v') = tasks (tables v)).
    { intros h v u v'. destruct (String.eqb _ _); [intros Hs%statement_Ok|by intros [_ ->]%ret_Ok].
      unfold create_history in Hs. case_hyp Hs; [done|]. by injection Hs as _ <-. }
    specialize (Hc (Hm _)). by destruct (transaction _ w3) as [[x|x] w4]. }
  unfold bind at 1. destruct installed as [row|e].
  - cbn [ret]. apply Hrest. by rewrite E2.
  - destruct (is_not_found e); [|by cbn; rewrite E2, Hw1]. cbn [ret]. apply Hrest. by rewrite E2.
Qed.
Lemma submit_enqueue_exclusive c later t request :
  preserves exclusive (submit_enqueue c later t request).
Proof.
  unfold submit_enqueue. preserving.
  - by apply set_memory_exclusive.
  - by apply finish_exclusive.
Qed.

Lemma submit_exclusive startErr taskID historyID now c later request requestedBy :
  preserves exclusive
    (submit Quote is_uuid logDir startErr taskID historyID now c later request requestedBy).
Proof.
  unfold submit, submit_checks, componentForKey, validateCatalogInstall,
    validateExclusiveComponentInstall, first_software.
  repeat (preserving; try apply submit_create_exclusive; try apply submit_enqueue_exclusive).
Qed.

Lemma isCancelRequested_exclusive id : preserves exclusive (isCancelRequested id).
Proof. unfold isCancelRequested. preserving. Qed.

Lemma report_exclusive c id r : preserves exclusive (on_report c id r).
Proof.
  intros w Hw. destruct (on_report c id r w) as [x w'] eqn:E. cbn.
  apply on_report_tx in E as [->|(u & v & Hk & Hp)]; [done|by eapply published_exclusive|apply Hw].
Qed.

Lemma run_end_exclusive c1 c2 now t err : preserves exclusive (run_end c1 c2 now t err).
Proof.
  unfold run_end. repeat (preserving; try apply isCancelRequested_exclusive;
    try (by apply finish_exclusive)).
Qed.

Lemma acquire_exclusive now t : preserves exclusive (acquireComponentLock now t).
Proof.
  unfold acquireComponentLock. preserving. apply exec_same_tasks.
  intros s a s'. unfold create_lock. case_goal; [done|]. by intros [= _ <-].
Qed.

Lemma release_exclusive component id : preserves exclusive (releaseComponentLock component id).
Proof.
  unfold releaseComponentLock. preserving. apply exec_same_tasks. by intros s a s' [= _ <-].
Qed.

Lemma cancel_mark_exclusive startErr c id : preserves exclusive (cancel_mark startErr c id).
Proof.
  unfold cancel_mark, Get. preserving. apply publish_exclusive. right. by left.
Qed.

Lemma cancel_signal_exclusive startErr c now t :
  preserves exclusive (cancel_signal startErr c now t).
Proof.
  unfold cancel_signal, Get. preserving.
  - apply set_memory_exclusive. intros s. unfold cancel_context. by case_goal.
  - by apply finish_exclusive.
Qed.

Lemma touch_exclusive now id : preserves exclusive (Touch now id).
Proof.
  unfold Touch. preserving. apply preserves_exec. intros s a s' [= _ <-] Hs.
  eapply exclusive_map; [exact Hs|reflexivity|].
  pose proof (ex_known _ Hs) as Hk. eapply Forall_impl; [exact Hk|]. intros t Ht. unfold calm.
  by destruct (String.eqb (T_ID t) id && is_active (T_Status t)).
Qed.

Lemma reconcile_exclusive now saved : preserves exclusive (reconcileInterruptedTasks inspector now saved).
Proof.
  intros w Hw. destruct (reconcileInterruptedTasks inspector now saved w) as [r w'] eqn:E. cbn.
  apply reconcile_tx in E as [[_ ->]|(_ & Ht & _)]; [done| |apply Hw].
  eapply exclusive_map; [exact Hw|exact Ht|].
  pose proof (ex_known _ Hw) as Hk. eapply Forall_impl; [exact Hk|]. intros t Hkt. unfold calm.
  destruct (is_active (T_Status t)) eqn:Ea; [|by rewrite Ea].
  unfold known_status.
  rewrite interrupted_ID, interrupted_Component, interrupted_Status. split_and!; auto.
Qed.

Lemma perform_exclusive op w : exclusive (tables w) -> exclusive (tables (perform op w)).
Proof.
  destruct op; cbn [perform]; revert w.
  - apply submit_exclusive.
  - change (preserves exclusive worker_take). unfold worker_take. preserving.
    by apply set_memory_exclusive.
  - change (preserves exclusive (run_register t)). unfold run_register. preserving;
      apply set_memory_exclusive; intros s; [done|]. unfold cancel_context. by repeat case_goal.
  - apply acquire_exclusive.
  - by apply finish_exclusive.
  - apply setPhase_exclusive.
  - apply report_exclusive.
  - apply run_end_exclusive.
  - apply release_exclusive.
  - by apply set_memory_exclusive.
  - apply cancel_mark_exclusive.
  - apply cancel_signal_exclusive.
  - apply touch_exclusive.
  - change (preserves exclusive Stop). unfold Stop. preserving; by apply set_memory_exclusive.
  - apply reconcile_exclusive.
Qed.

(** ** Properties of software tasks *)

(** C26: one active task per component. Whatever submissions, executions,
    cancellations, heartbeats, shutdowns and recoveries do, in whatever order
    their steps interleave and whatever statements fail, two tasks of one
    component are never active together, task identifiers stay unique, and a
    task is always either active or finished. *)
Theorem one_active_task_per_component ops w (Hstart : exclusive (tables w)) :
  exclusive (tables (perform_all ops w)).
Proof.
  revert w Hstart. induction ops as [|op ops IH]; intros w Hw; [done|].
  apply IH. by apply perform_exclusive.
Qed.

(** recovery after a restart is all or nothing, and complete. With room
    in the event counters and without faults it succeeds; whenever it
    succeeds, every task that was active is interrupted, the finished ones
    are as they were, every component lock is gone, each interrupted task got
    one more event with the next number, and no component is busy; whenever
    it fails, no table changed. *)
Theorem recovery_interrupts_everything now saved s
  (Hunique : unique_tasks s) (Hlogged : logged 1 s) :
  (exists s', reconcileInterruptedTasks inspector now saved (World s []) = (Ok tt, World s' [])) /\
  forall fs r w', reconcileInterruptedTasks inspector now saved (World s fs) = (r, w') ->
    (is_ok r = false /\ tables w' = s) \/
    (r = Ok tt /\ reconciled inspector now saved s (tables w') /\
     active_components (tables w') = [] /\ logged 0 (tables w')).
Proof.
  split; [by apply reconcile_run|].
  intros fs r w' [?|[-> Hr]]%reconcile_tx; [by left| |done]. right.
  split; [done|]. split; [done|]. by apply (reconciled_idle inspector now saved s).
Qed.


(** A cancellation that falls between the moment a worker has loaded a
    queued task and the moment it looks at the request again strands the
    task. The cancellation sees the registered function and leaves the
    outcome to the run; the run sees the request and leaves without one. The
    task stays "canceling", with no lock, no queue entry and no cancel
    function, and every submission for its component is refused. *)
Theorem cancel_race_strands_task s t c0 c1 c2 now calls err
  (Hunique : unique_tasks s) (Hlogged : logged 2 s) (Htask : task_of (T_ID t) s = Some t)
  (Hlive : is_active (T_Status t) = true) (Hrequested : T_CancelRequested t = false)
  (Hstop : stopping s = false) (Hidle : ~ In (T_ID t) (cancels s)) :
  exists r s' t',
    run_load (T_ID t) (World s []) = (Ok (Some t), World s []) /\
    (let* task := cancel_mark None c1 (T_ID t) in
     let* _ := run_register t in
     let* canceled := cancel_signal None c2 now task in
     let* _ := run_registered c0 c1 c2 now t calls err in
     let* _ := run_deregister (T_ID t) in
     ret canceled) (World s []) = (Ok r, World s' []) /\
    task_of (T_ID t) s' = Some t' /\ T_Status t' = SoftwareTaskStatusCanceling /\
    is_active (T_Status t') = true /\ T_Component t' = T_Component t /\
    locks s' = locks s /\ queue s' = queue s /\ cancels s' = cancels s /\
    forall taskID historyID later request requestedBy,
      submit_create logDir taskID historyID later (T_Component t) request requestedBy (World s' []) =
      (Fail (ErrorString ("component " +:+ T_Component t +:+ " already has an active task")),
       World s' []).
Proof.
  pose proof (active_not_terminal _ Hlive) as Hterm.
  assert (Ha : alive t (1 + 1) s) by (split_and!; [done|done|by exists t]).
  set (u := mkUpdate SoftwareTaskStatusCanceling SoftwareTaskStatusCanceling None None
         ("正在取消" +:+ cancel_label t +:+ "任务") "" "" "" "" "" false None false (Some true) "" "").
  destruct (publish_live t 1 c1 u (mkData "phase" "warning" None "cancel_requested" "已收到取消请求")
    s Ha ltac:(lia)) as (s1 & t0 & Hrun & Ht0 & Ht1 & _ & _ & _ & Hu1 & _ & Hl & Hq & Hc & Hcd & Hst).
  assert (t0 = t) as -> by congruence.
  set (s2 := with_canceled (with_cancels s1 (T_ID t :: remove_id (T_ID t) (cancels s1)))
               (remove_id (T_ID t) (canceled s1))).
  set (s3 := with_canceled s2 (T_ID t :: remove_id (T_ID t) (canceled s2))).
  set (s4 := with_canceled (with_cancels s3 (remove_id (T_ID t) (cancels s3)))
               (remove_id (T_ID t) (canceled s3))).
  assert (Hmark : cancel_mark None c1 (T_ID t) (World s []) = (Ok t, World s1 [])).
  { unfold cancel_mark, Get. run_clean. rewrite Htask, Hterm. fold u. unfold bind. by rewrite Hrun. }
  assert (Hreg : run_register t (World s1 []) = (Ok tt, World s2 [])).
  { unfold run_register, bind, set_memory. cbn [tables faults]. fold s2.
    replace (stopping s2) with (stopping s1) by done. by rewrite Hst, Hstop. }
  assert (Hsig : cancel_signal None c2 now t (World s2 []) = (Ok (updated u c1 t), World s3 [])).
  { unfold cancel_signal, Get. unfold bind at 1, get_memory. cbn [tables].
    assert (is_one_of (T_ID t) (cancels s2) = true) as Hin
      by (cbn; by rewrite String.eqb_refl).
    rewrite Hin. unfold bind, set_memory, cancel_context. cbn [tables faults]. rewrite Hin.
    fold s3. rewrite run_first. by replace (task_of (T_ID t) s3) with (task_of (T_ID t) s1) by done;
      rewrite Ht1. }
  assert (Hend : run_registered c0 c1 c2 now t calls err (World s3 []) = (Ok tt, World s3 [])).
  { unfold run_registered, isCancelRequested. run_clean.
    replace (task_of (T_ID t) s3) with (task_of (T_ID t) s1) by done. rewrite Ht1. by run_clean. }
  exists (updated u c1 t), s4, (updated u c1 t). split_and!; try done.
  - unfold run_load. run_clean. rewrite Htask, Hterm, Hrequested. done.
  - unfold bind at 1. rewrite Hmark. unfold bind at 1. rewrite Hreg. unfold bind at 1. rewrite Hsig.
    unfold bind at 1. rewrite Hend. done.
  - cbn. rewrite String.eqb_refl. cbn. fold (remove_id (T_ID t) (remove_id (T_ID t) (cancels s1))).
    rewrite Hc. by rewrite !remove_id_fresh by (rewrite ?remove_id_fresh; done).
  - intros taskID historyID later request requestedBy.
    unfold submit_create, bind at 1, wrapping at 1, read at 1, statement, next_fault. cbn [faults tables].
    assert (Hin : In (updated u c1 t) (active_tasks (T_Component t) s4)).
    { apply filter_In. split; [by apply (task_of_id (T_ID t) s4)|].
      change (T_Component (updated u c1 t)) with (T_Component t).
      by rewrite String.eqb_refl. }
    destruct (active_tasks (T_Component t) s4); [done|]. done.
Qed.

(** A failed restart is never reported as one. The rule for "start
    action" precedes the rule for "restart action", whose texts contain it,
    so an error that names the restart action and no earlier rule is
    reported as a failed start. *)
Theorem restart_failures_are_misreported e :
  classifyExecutionError e <> "SERVICE_RESTART_FAILED" /\
  (Contains (ToLower (Error e)) "restart action" = true ->
   errors_Is e ContextDeadlineExceeded = false ->
   existsb (fun c => existsb (Contains (ToLower (Error e))) (fst c)) (take 13 error_classes) = false ->
   classifyExecutionError e = "SERVICE_START_FAILED").
Proof.
  unfold classifyExecutionError. set (m := ToLower (Error e)).
  set (f := fun c : list string * string => existsb (Contains m) (fst c)).
  change error_classes with (take 13 error_classes ++ drop 13 error_classes) at 1 3.
  rewrite !find_app. split.
  - destruct (errors_Is _ _); [done|].
    destruct (List.find f (take 13 error_classes)) as [c|] eqn:E1.
    { apply find_some in E1 as [Hin _]. cbn in Hin.
      repeat (destruct Hin as [<-|Hin]; [done|]). destruct Hin. }
    destruct (f (["start action"], "SERVICE_START_FAILED")) eqn:Es; cbn [List.find drop error_classes];
      rewrite Es; [done|].
    destruct (f (["stop action"], _)); [done|].
    destruct (f (["restart action"], "SERVICE_RESTART_FAILED")) eqn:Er.
    { cbn in Er, Es. rewrite orb_false_r in Er, Es. apply start_before_restart in Er. congruence. }
    match goal with |- context [f ?x] => destruct (f x) end; intros Heq; vm_compute in Heq; discriminate Heq.
  - intros Hm -> Hnone. destruct (List.find f (take 13 error_classes)) as [c|] eqn:E1.
    { apply find_some in E1 as [Hin Hc].
      assert (existsb f (take 13 error_classes) = true) by (apply existsb_exists; eauto). congruence. }
    cbn [List.find drop error_classes].
    assert (f (["start action"], "SERVICE_START_FAILED") = true) as ->
      by (cbn; by rewrite (start_before_restart m Hm)).
    done.
Qed.
End steps.

(** ** Witnesses *)

Lemma demo_exclusive : exclusive demo_tasks.
Proof.
  split; [apply demo_tasks_unique| |].
  - constructor; [by left|]. constructor; [by right|constructor].
  - apply NoDup_singleton.
Qed.

Definition demo_request : InstallRequest :=
  mkRequest "install" " redis " "7" "6379" "" "" [] "" [] [] "".

Definition demo_steps : list operation :=
  [OpSubmit None "t3" "h3" 20 demo_clock 21 demo_request 7;
   OpSubmit None "t4" "h4" 22 demo_clock 23 demo_request 7;
   OpReport demo_clock "t1" (OnActionStart "install");
   OpCancelMark None demo_clock "t1"; OpReconcile 30 30].

Lemma one_active_task_per_component_witness :
  let w := @perform_all latin1_case (fun s => s) (fun _ => true) "/log" None (take 3 demo_steps)
             (World demo_tasks []) in
  active_components (tables w) = ["nginx"; "redis"] /\
  exclusive (tables (@perform_all latin1_case (fun s => s) (fun _ => true) "/log" None demo_steps
    (World demo_tasks []))).
Proof.
  intros w. split; [vm_compute; reflexivity|].
  apply (@one_active_task_per_component latin1_case (fun s => s) (fun _ => true) "/log" None demo_steps
    (World demo_tasks []) demo_exclusive).
Defined.

Lemma recovery_interrupts_everything_witness :
  exists s', reconcileInterruptedTasks None 30 30 (World demo_tasks []) =
    (Ok tt, World s' []) /\ map T_Status (tasks s') = ["interrupted"; "failed"].
Proof.
  destruct (recovery_interrupts_everything None 30 30 demo_tasks demo_tasks_unique
    (demo_tasks_logged 1 ltac:(lia))) as [[s' Hrun] _].
  exists s'. split; [exact Hrun|]. vm_compute in Hrun. injection Hrun as <-. reflexivity.
Defined.

Definition demo_calls : list (Clock * report) :=
  [(demo_clock, OnActionStart "precheck"); (demo_clock, OnActionProgress "install" 40 "half" "")].


Lemma cancel_race_strands_task_witness :
  exists s', forall taskID historyID later request requestedBy,
    @submit_create latin1_case "/log" taskID historyID later "nginx" request requestedBy (World s' []) =
    (Fail (ErrorString "component nginx already has an active task"), World s' []).
Proof.
  destruct (@cancel_race_strands_task latin1_case "/log" demo_tasks
    (demo_task "t1" "nginx" "queued" 1) demo_clock demo_clock demo_clock 50 [] None demo_tasks_unique
    (demo_tasks_logged 2 ltac:(lia)) eq_refl eq_refl eq_refl eq_refl ltac:(intros []))
    as (r & s' & t' & _ & _ & _ & _ & _ & _ & _ & _ & _ & Hbusy).
  exists s'. exact Hbusy.
Defined.
