(* ===== verification/KeyTrust.v ===== *)
(** Trust in the keys that sign panel updates
    ([internal/services/panelupdate/keytrust.go] and [manifest.go]): the signed
    keyset of the Center, the trust state kept on disk, release manifests, and
    the check for an update that composes them.

    The trust file is the state: its content, if it exists.  The Center is the
    environment: every answer it gives is an argument.  JSON, Ed25519, URL
    parsing and semantic versions are interfaces. *)

From S2P Require Import Prelude GoStrings GoText GoCrypto Store.
From stdpp Require Import options.
#[local] Open Scope Z_scope.

(** ** Data *)

Definition KeysetSchemaVersion : Z := 1.
Definition MaxKeysetBytes : Z := Z.shiftl 256 10.
Definition MaxKeysetKeys : Z := 32.
Definition KeyStatusStaged : string := "staged".
Definition KeyStatusActive : string := "active".
Definition KeyStatusRetired : string := "retired".
Definition KeyStatusRevoked : string := "revoked".
Definition ManifestSchemaVersion : Z := 1.
Definition MaxManifestBytes : Z := Z.shiftl 1 20.
Definition ErrDisabled : string := "panel updates are disabled".
Definition ErrInvalidManifest : string := "invalid update manifest".

Record TrustedKeyRecord := mkKey {
  K_KeyID : string; K_Algorithm : string; K_PublicKey : string; K_Status : string;
  K_CreatedAt : time; K_ActivatedAt : option time; K_RetiredAt : option time;
  K_RevokedAt : option time; K_RevocationReason : string
}.

Record KeysetSignature := mkSignature { Sig_KeyID : string; Sig_Value : string }.

Record KeysetDocument := mkKeyset {
  D_SchemaVersion : Z; D_Revision : Z; D_GeneratedAt : time; D_ActiveKeyID : string;
  D_Keys : list TrustedKeyRecord; D_Signatures : list KeysetSignature
}.

Record trustState := mkTrust {
  TS_SchemaVersion : Z; TS_Revision : Z; TS_GeneratedAt : time; TS_ActiveKeyID : string;
  TS_Keys : list TrustedKeyRecord; TS_Digest : string; TS_UpdatedAt : time
}.

Record KeyTrustResult := mkTrustResult {
  R_Source : string; R_Revision : Z; R_ActiveKeyID : string; R_TrustedKeyCount : Z;
  R_RevokedKeyCount : Z; R_UpdatedAt : time
}.

(** The struct that [keysetPayload] serialises. *)
Record keyset_payload := mkPayload {
  P_SchemaVersion : Z; P_Revision : Z; P_GeneratedAt : time; P_ActiveKeyID : string;
  P_Keys : list TrustedKeyRecord
}.

Record Artifact := mkArtifact {
  A_OS : string; A_Arch : string; A_URL : string; A_SHA256 : string; A_Size : Z;
  A_FileName : string
}.

Record ManifestSignature := mkManifestSignature { MS_KeyID : string; MS_Value : string }.

Record manifestPayload := mkManifestPayload {
  MP_SchemaVersion : Z; MP_Version : string; MP_Channel : string; MP_PublishedAt : time;
  MP_MinimumVersion : string; MP_ReleaseNotes : string; MP_Artifacts : list Artifact
}.

Record Manifest := mkManifest {
  Mf_SchemaVersion : Z; Mf_Version : string; Mf_Channel : string; Mf_PublishedAt : time;
  Mf_MinimumVersion : string; Mf_ReleaseNotes : string; Mf_Artifacts : list Artifact;
  Mf_Signature : ManifestSignature
}.

(** The fields of the configuration that the checks read; the entries of
    [TrustedKeys] come in the order in which [range] visits them. *)
Record Config := mkConfig {
  C_Enabled : bool; C_ManifestURL : string; C_ResolveURL : string; C_KeyStatusURL : string;
  C_TrustStatePath : string; C_InstanceID : string; C_Channel : string;
  C_TrustedKeys : list (string * string); C_MaxPackageBytes : Z;
  C_CurrentVersion : string; C_OS : string; C_Arch : string
}.

Record CheckResult := mkCheck {
  Ck_Enabled : bool; Ck_Source : string; Ck_InstanceID : string; Ck_CurrentVersion : string;
  Ck_LatestVersion : string; Ck_UpdateAvailable : bool; Ck_Channel : string;
  Ck_PublishedAt : time; Ck_ReleaseNotes : string; Ck_MinimumVersion : string;
  Ck_Compatible : bool; Ck_ArtifactSize : Z; Ck_SigningKeyID : string; Ck_TrustRevision : Z;
  Ck_TrustSource : string; Ck_TrustedKeyCount : Z; Ck_RevokedKeyCount : Z; Ck_TrustUpdatedAt : time
}.

(** ** The interfaces *)

(** [encoding/json] on the types above.  A decoder returns the value and the
    unread rest; [next_value] is the outcome of one more [Decode], [None] at
    the end of the input. *)
Definition utf8_key (k : TrustedKeyRecord) : bool :=
  valid_utf8 (K_KeyID k) && valid_utf8 (K_Algorithm k) && valid_utf8 (K_PublicKey k)
  && valid_utf8 (K_Status k) && valid_utf8 (K_RevocationReason k).

Definition utf8_document (d : KeysetDocument) : bool :=
  valid_utf8 (D_ActiveKeyID d) && forallb utf8_key (D_Keys d).

Definition utf8_state (s : trustState) : bool :=
  valid_utf8 (TS_ActiveKeyID s) && valid_utf8 (TS_Digest s) && forallb utf8_key (TS_Keys s).

Class UpdateJSON := {
  decode_keyset : string -> result (KeysetDocument * string);
  decode_state : string -> result (trustState * string);
  decode_manifest : string -> result (Manifest * string);
  next_value : string -> option (result unit);
  marshal_keyset : keyset_payload -> result string;
  marshal_state : trustState -> result string;
  marshal_manifest : manifestPayload -> result string;
  decode_keyset_utf8 text d rest : decode_keyset text = Ok (d, rest) -> utf8_document d = true;
  decode_marshal_state s text :
    utf8_state s = true -> marshal_state s = Ok text ->
    exists rest, decode_state (text +:+ str1 "010") = Ok (s, rest) /\ next_value rest = None
}.

Class Ed25519 := {
  ed25519_Verify : list Z -> list Z -> list Z -> bool;  (* public key, message, signature *)
  ed25519_Sign : list Z -> list Z -> list Z;
  ed25519_Public : list Z -> list Z;
  ed25519_Public_size key : List.length (ed25519_Public key) = 32%nat;
  ed25519_Public_bytes key : Forall is_byte (ed25519_Public key);
  ed25519_Sign_size key message : List.length (ed25519_Sign key message) = 64%nat;
  ed25519_Sign_bytes key message : Forall is_byte (ed25519_Sign key message);
  ed25519_correct key message :
    List.length key = 64%nat ->
    ed25519_Verify (ed25519_Public key) message (ed25519_Sign key message) = true
}.

Record URL := mkURL {
  U_Scheme : string; U_Host : string; U_Hostname : string; U_HasUser : bool; U_Fragment : string
}.

Class RemoteURL := {
  url_Parse : string -> result URL;
  ip_IsLoopback : string -> bool  (* net.ParseIP gives a loopback address *)
}.

Class Semver := {
  semver_IsValid : string -> bool;
  semver_Compare : string -> string -> Z
}.

(** What an HTTP exchange comes to: the request cannot be built, it fails, or
    it is answered with a status and a body. *)
Inductive exchange :=
  | NotBuilt (err : error)
  | NotDone (err : error)
  | Answered (status : Z) (body : result string).

Abbreviation TrustFile := (option string).

Definition invalid_manifest (text : string) : error :=
  Wrap "" (Sentinel ErrInvalidManifest) (": " +:+ text).

Section updates.
Context `{!UnicodeCase, !UpdateJSON, !Ed25519, !RemoteURL, !Semver}.
Variable Quote : string -> string.  (* the %q verb *)

(** ** Helpers of [manifest.go] *)

Definition ensureJSONEOF (rest : string) : result unit :=
  match next_value rest with
  | None => Ok tt
  | Some (Ok _) => Fail (invalid_manifest "multiple JSON values are not allowed")
  | Some (Fail err) => Fail (invalid_manifest ("trailing JSON: " +:+ Error err))
  end.

Definition isLoopback (host : string) : bool :=
  EqualFold host "localhost" || ip_IsLoopback host.

Definition validateRemoteURL (raw : string) : result unit :=
  match url_Parse (TrimSpace raw) with
  | Fail _ => Fail (ErrorString "must be an absolute URL")
  | Ok parsed =>
      if String.eqb (U_Host parsed) "" then Fail (ErrorString "must be an absolute URL")
      else if U_HasUser parsed || negb (String.eqb (U_Fragment parsed) "") then
        Fail (ErrorString "credentials and fragments are not allowed")
      else if String.eqb (U_Scheme parsed) "https" then Ok tt
      else if String.eqb (U_Scheme parsed) "http" && isLoopback (U_Hostname parsed) then Ok tt
      else Fail (ErrorString "HTTPS is required (HTTP is allowed only for loopback testing)")
  end.

Definition canonicalVersion (version : string) : string :=
  let version := TrimSpace version in
  if String.eqb version "" then ""
  else
    let version := if HasPrefix version "v" then version else "v" +:+ version in
    if semver_IsValid version then version else "".

Definition validVersion (version : string) : bool := negb (String.eqb (canonicalVersion version) "").

(** ** The trust file *)

Definition cloneTrustedKeys (source : list (string * string)) : gmap string string :=
  fold_left (fun result '(keyID, publicKey) =>
    <[TrimSpace keyID := TrimSpace publicKey]> result) source ∅.

(** The content of the file, decoded and checked; no file is no state. *)
Definition parse_state (content : TrustFile) : result (option trustState) :=
  match content with
  | None => Ok None
  | Some content =>
      match decode_state content with
      | Fail err => Fail (Wrap "decode panel signing trust state: " err "")
      | Ok (state, rest) =>
          match ensureJSONEOF rest with
          | Fail err => Fail err
          | Ok _ =>
              if negb (TS_SchemaVersion state =? KeysetSchemaVersion) || (TS_Revision state <? 1)
                 || IsZero (TS_GeneratedAt state) || String.eqb (TS_ActiveKeyID state) ""
                 || (Z.of_nat (List.length (TS_Keys state)) <? 1)
                 || (MaxKeysetKeys <? Z.of_nat (List.length (TS_Keys state)))
                 || negb (len (TS_Digest state) =? 64)
              then Fail (invalid_manifest "stored signing trust state is invalid")
              else Ok (Some state)
          end
      end
  end.

Definition loadTrustState : M TrustFile (option trustState) :=
  let* content := wrapping "read panel signing trust state" (read (fun file => file)) in
  match parse_state content with Fail err => fail err | Ok stored => ret stored end.

(** The new content is written to a temporary file and renamed over the old
    one: whichever of these steps fails, the trust file is as it was. *)
Definition saveTrustState (state : trustState) : M TrustFile unit :=
  match marshal_state state with
  | Fail err => fail (Wrap "encode panel signing trust state: " err "")
  | Ok content => exec (fun _ => Ok (tt, Some (content +:+ str1 "010")))
  end.

(** ** The signed keyset *)

Definition decodeTrustedKey (keyID encoded : string) : result (list Z) :=
  let keyID := TrimSpace keyID in
  let bad := Fail (invalid_manifest ("signing key " +:+ Quote keyID +:+ " is not a valid Ed25519 key")) in
  if String.eqb keyID "" then bad
  else match base64_decode (TrimSpace encoded) with
       | Some decoded => if (List.length decoded =? 32)%nat then Ok decoded else bad
       | None => bad
       end.

Definition key_error (record : TrustedKeyRecord) (what : string) : error :=
  invalid_manifest ("signing key " +:+ Quote (K_KeyID record) +:+ what).

Definition is_some {A} (o : option A) : bool := match o with Some _ => true | None => false end.

(** The [switch] on the status: whether the key counts as active. *)
Definition check_status (record : TrustedKeyRecord) : result bool :=
  if String.eqb (K_Status record) KeyStatusStaged then Ok false
  else if String.eqb (K_Status record) KeyStatusActive then
    if negb (is_some (K_ActivatedAt record)) then
      Fail (invalid_manifest ("active signing key " +:+ Quote (K_KeyID record) +:+ " has no activation time"))
    else Ok true
  else if String.eqb (K_Status record) KeyStatusRetired then
    if negb (is_some (K_ActivatedAt record)) || negb (is_some (K_RetiredAt record)) then
      Fail (invalid_manifest ("retired signing key " +:+ Quote (K_KeyID record) +:+ " metadata is incomplete"))
    else Ok false
  else if String.eqb (K_Status record) KeyStatusRevoked then
    if negb (is_some (K_RevokedAt record)) || String.eqb (TrimSpace (K_RevocationReason record)) "" then
      Fail (invalid_manifest ("revoked signing key " +:+ Quote (K_KeyID record) +:+ " metadata is incomplete"))
    else Ok false
  else Fail (key_error record " has invalid status").

Fixpoint check_keys (keys : list TrustedKeyRecord) (records : gmap string TrustedKeyRecord)
    (activeCount : Z) : result (gmap string TrustedKeyRecord * Z) :=
  match keys with
  | [] => Ok (records, activeCount)
  | record :: keys =>
      match decodeTrustedKey (K_KeyID record) (K_PublicKey record) with
      | Fail err => Fail err
      | Ok publicKey =>
          if negb (String.eqb (K_Algorithm record) "Ed25519") || IsZero (K_CreatedAt record) then
            Fail (key_error record " metadata is incomplete")
          else if negb (String.eqb (K_KeyID record) (hex_encode (take 8 (sha256 publicKey)))) then
            Fail (key_error record " identifier does not match its public key")
          else if is_some (records !! K_KeyID record) then
            Fail (invalid_manifest ("duplicate signing key " +:+ Quote (K_KeyID record)))
          else match check_status record with
               | Fail err => Fail err
               | Ok active =>
                   check_keys keys (<[K_KeyID record := record]> records)
                     (if active : bool then activeCount + 1 else activeCount)
               end
      end
  end.

Fixpoint check_signatures (signatures : list KeysetSignature)
    (records : gmap string TrustedKeyRecord) (signatureIDs : gset string) : result unit :=
  match signatures with
  | [] => Ok tt
  | signature :: signatures =>
      if match records !! Sig_KeyID signature with
         | Some record => String.eqb (K_Status record) KeyStatusRevoked
         | None => true
         end then Fail (invalid_manifest "signing keyset contains an unusable signature")
      else if bool_decide (Sig_KeyID signature ∈ signatureIDs) then
        Fail (invalid_manifest ("duplicate signing keyset signature " +:+ Quote (Sig_KeyID signature)))
      else if match base64_decode (TrimSpace (Sig_Value signature)) with
              | Some decoded => negb (List.length decoded =? 64)%nat
              | None => true
              end then
        Fail (invalid_manifest ("invalid signing keyset signature " +:+ Quote (Sig_KeyID signature)))
      else check_signatures signatures records ({[Sig_KeyID signature]} ∪ signatureIDs)
  end.

Definition keysetPayload (document : KeysetDocument) : result string :=
  marshal_keyset (mkPayload (D_SchemaVersion document) (D_Revision document)
    (D_GeneratedAt document) (D_ActiveKeyID document) (D_Keys document)).

Definition count_ok {A} (l : list A) : bool :=
  (1 <=? Z.of_nat (List.length l)) && (Z.of_nat (List.length l) <=? MaxKeysetKeys).

Definition validateKeyset (now : time) (document : KeysetDocument) : result (string * string) :=
  if negb (D_SchemaVersion document =? KeysetSchemaVersion) || (D_Revision document <? 1) then
    Fail (invalid_manifest "unsupported signing keyset metadata")
  else if IsZero (D_GeneratedAt document) || After (D_GeneratedAt document) (now + 24 * Hour) then
    Fail (invalid_manifest "invalid signing keyset generatedAt")
  else if negb (count_ok (D_Keys document)) then
    Fail (invalid_manifest ("signing keyset must contain 1-" +:+ Itoa MaxKeysetKeys +:+ " keys"))
  else if negb (count_ok (D_Signatures document)) then
    Fail (invalid_manifest ("signing keyset must contain 1-" +:+ Itoa MaxKeysetKeys +:+ " signatures"))
  else
    match check_keys (D_Keys document) ∅ 0 with
    | Fail err => Fail err
    | Ok (records, activeCount) =>
        if match records !! D_ActiveKeyID document with
           | Some active => negb (String.eqb (K_Status active) KeyStatusActive)
           | None => true
           end || negb (activeCount =? 1) then
          Fail (invalid_manifest "signing keyset active key is invalid")
        else
          match check_signatures (D_Signatures document) records ∅ with
          | Fail err => Fail err
          | Ok _ =>
              match keysetPayload document with
              | Fail err => Fail err
              | Ok payload => Ok (payload, hex_encode (sha256 (bytes_of payload)))
              end
          end
    end.

Definition signed_by (trustedKeys : gmap string string) (payload : string)
    (signature : KeysetSignature) : bool :=
  match trustedKeys !! Sig_KeyID signature with
  | None => false
  | Some encodedKey =>
      match decodeTrustedKey (Sig_KeyID signature) encodedKey with
      | Fail _ => false
      | Ok publicKey =>
          match base64_decode (TrimSpace (Sig_Value signature)) with
          | Some decoded => ed25519_Verify publicKey (bytes_of payload) decoded
          | None => false
          end
      end
  end.

Definition verifyKeyset (document : KeysetDocument) (payload : string)
    (trustedKeys : gmap string string) : result unit :=
  if existsb (signed_by trustedKeys payload) (D_Signatures document) then Ok tt
  else Fail (invalid_manifest "signing keyset is not signed by a currently trusted key").

Definition effectiveTrustedKeys (staticKeys : gmap string string)
    (records : list TrustedKeyRecord) : gmap string string :=
  fold_left (fun result record =>
    if String.eqb (K_Status record) KeyStatusRevoked then delete (K_KeyID record) result
    else <[K_KeyID record := K_PublicKey record]> result) records
    (cloneTrustedKeys (map_to_list staticKeys)).

Fixpoint rejectRemovedKeys (previous current : list TrustedKeyRecord) : result unit :=
  match previous with
  | [] => Ok tt
  | record :: previous =>
      if negb (existsb (fun r => String.eqb (K_KeyID r) (K_KeyID record)) current) then
        Fail (key_error record " was removed instead of being retained as revoked")
      else rejectRemovedKeys previous current
  end.

(** [LimitReader] passes one byte more than the limit. *)
Definition read_limited (limit : Z) (body : result string) : result string :=
  match body with Fail err => Fail err | Ok text => Ok (take_bytes (limit + 1) text) end.

Definition fetchKeyset (keyStatusURL : string) (answer : exchange) : result KeysetDocument :=
  match validateRemoteURL keyStatusURL with
  | Fail err => Fail (invalid_manifest ("Center key status URL: " +:+ Error err))
  | Ok _ =>
      match answer with
      | NotBuilt err => Fail err
      | NotDone err => Fail (Wrap "download Center signing keyset: " err "")
      | Answered status body =>
          if negb (status =? 200) then
            Fail (ErrorString ("download Center signing keyset: unexpected HTTP status " +:+ Itoa status))
          else
            match read_limited MaxKeysetBytes body with
            | Fail err => Fail (Wrap "read Center signing keyset: " err "")
            | Ok content =>
                if MaxKeysetBytes <? len content then
                  Fail (invalid_manifest ("signing keyset exceeds " +:+ Itoa MaxKeysetBytes +:+ " bytes"))
                else
                  match decode_keyset content with
                  | Fail err => Fail (invalid_manifest ("decode signing keyset: " +:+ Error err))
                  | Ok (document, rest) =>
                      match ensureJSONEOF rest with Fail err => Fail err | Ok _ => Ok document end
                  end
            end
      end
  end.

(** The tests against the stored state, if there is one. *)
Definition check_progress (stored : option trustState) (document : KeysetDocument)
    (digest : string) : result unit :=
  match stored with
  | None => Ok tt
  | Some state =>
      if D_Revision document <? TS_Revision state then
        Fail (invalid_manifest ("signing keyset rollback from revision " +:+ Itoa (TS_Revision state)
          +:+ " to " +:+ Itoa (D_Revision document)))
      else if (D_Revision document =? TS_Revision state) && negb (String.eqb digest (TS_Digest state)) then
        Fail (invalid_manifest ("signing keyset revision " +:+ Itoa (D_Revision document)
          +:+ " changed without a revision increase"))
      else rejectRemovedKeys (TS_Keys state) (D_Keys document)
  end.

Definition stored_keys (stored : option trustState) : list TrustedKeyRecord :=
  match stored with Some state => TS_Keys state | None => [] end.

(** What is fetched, checked and accepted. *)
Definition accept_keyset (now : time) (config : Config) (answer : exchange)
    (stored : option trustState) : result (KeysetDocument * string) :=
  let currentKeys := effectiveTrustedKeys (cloneTrustedKeys (C_TrustedKeys config)) (stored_keys stored) in
  match fetchKeyset (C_KeyStatusURL config) answer with
  | Fail err => Fail err
  | Ok document =>
      match validateKeyset now document with
      | Fail err => Fail err
      | Ok (payload, digest) =>
          match verifyKeyset document payload currentKeys with
          | Fail err => Fail err
          | Ok _ =>
              match check_progress stored document digest with
              | Fail err => Fail err
              | Ok _ => Ok (document, digest)
              end
          end
      end
  end.

Definition trust_of (document : KeysetDocument) (digest : string) (now : time) : trustState :=
  mkTrust KeysetSchemaVersion (D_Revision document) (D_GeneratedAt document)
    (D_ActiveKeyID document) (D_Keys document) digest now.

Definition newer (stored : option trustState) (document : KeysetDocument) : bool :=
  match stored with Some state => TS_Revision state <? D_Revision document | None => true end.

Definition RefreshKeyTrust (now saved : time) (config : Config) (answer : exchange)
    : M TrustFile (gmap string string * KeyTrustResult) :=
  let staticKeys := cloneTrustedKeys (C_TrustedKeys config) in
  if String.eqb (TrimSpace (C_KeyStatusURL config)) "" then
    ret (staticKeys, mkTrustResult "static" 0 "" (Z.of_nat (size staticKeys)) 0 0)
  else if String.eqb (TrimSpace (C_TrustStatePath config)) "" then
    fail (invalid_manifest "trust state path is required")
  else
    let* stored := loadTrustState in
    match accept_keyset now config answer stored with
    | Fail err => fail err
    | Ok (document, digest) =>
        let* _ := (if newer stored document then saveTrustState (trust_of document digest saved)
                   else ret tt) in
        let effective := effectiveTrustedKeys staticKeys (D_Keys document) in
        let revoked := List.filter (fun r => String.eqb (K_Status r) KeyStatusRevoked) (D_Keys document) in
        ret (effective, mkTrustResult "center" (D_Revision document) (D_ActiveKeyID document)
          (Z.of_nat (size effective)) (Z.of_nat (List.length revoked)) (D_GeneratedAt document))
    end.

(** ** Release manifests *)

Definition ManifestPayload (m : Manifest) : result string :=
  marshal_manifest (mkManifestPayload (Mf_SchemaVersion m) (Mf_Version m) (Mf_Channel m)
    (Mf_PublishedAt m) (Mf_MinimumVersion m) (Mf_ReleaseNotes m) (Mf_Artifacts m)).

Definition with_signature (m : Manifest) (s : ManifestSignature) : Manifest :=
  mkManifest (Mf_SchemaVersion m) (Mf_Version m) (Mf_Channel m) (Mf_PublishedAt m)
    (Mf_MinimumVersion m) (Mf_ReleaseNotes m) (Mf_Artifacts m) s.

Definition SignManifest (manifest : option Manifest) (keyID : string) (privateKey : list Z)
    : result Manifest :=
  match manifest with
  | None => Fail (invalid_manifest "manifest is nil")
  | Some manifest =>
      if negb (List.length privateKey =? 64)%nat then
        Fail (ErrorString "Ed25519 private key must be 64 bytes")
      else match ManifestPayload manifest with
           | Fail err => Fail err
           | Ok payload => Ok (with_signature manifest (mkManifestSignature (TrimSpace keyID)
               (base64_encode (ed25519_Sign privateKey (bytes_of payload)))))
           end
  end.

Definition DecodeManifest (content : string) : result Manifest :=
  match decode_manifest content with
  | Fail err => Fail (invalid_manifest ("decode JSON: " +:+ Error err))
  | Ok (manifest, rest) =>
      match ensureJSONEOF rest with Fail err => Fail err | Ok _ => Ok manifest end
  end.

Definition artifact_target (a : Artifact) : string := A_OS a +:+ "/" +:+ A_Arch a.

Fixpoint check_artifacts (config : Config) (artifacts : list Artifact) (seenTargets : gset string)
    (selected : option Artifact) : result (option Artifact) :=
  match artifacts with
  | [] => Ok selected
  | artifact :: artifacts =>
      let target := artifact_target artifact in
      if bool_decide (target ∈ seenTargets) then
        Fail (invalid_manifest ("duplicate artifact target " +:+ target))
      else if negb (String.eqb (A_OS artifact) "linux")
              || (negb (String.eqb (A_Arch artifact) "amd64") && negb (String.eqb (A_Arch artifact) "arm64")) then
        Fail (invalid_manifest ("unsupported artifact target " +:+ target))
      else if (A_Size artifact <? 1) || (C_MaxPackageBytes config <? A_Size artifact) then
        Fail (invalid_manifest ("artifact " +:+ target +:+ " size is outside allowed range"))
      else if match hex_decode (A_SHA256 artifact) with
              | Some digest => negb (List.length digest =? 32)%nat
              | None => true
              end || negb (String.eqb (ToLower (A_SHA256 artifact)) (A_SHA256 artifact)) then
        Fail (invalid_manifest ("artifact " +:+ target +:+ " has invalid SHA-256"))
      else match validateRemoteURL (A_URL artifact) with
           | Fail err => Fail (invalid_manifest ("artifact " +:+ target +:+ " URL: " +:+ Error err))
           | Ok _ =>
               if String.eqb (TrimSpace (A_FileName artifact)) "" || ContainsAny (A_FileName artifact) "/\" then
                 Fail (invalid_manifest ("artifact " +:+ target +:+ " has invalid fileName"))
               else check_artifacts config artifacts ({[target]} ∪ seenTargets)
                 (if String.eqb (A_OS artifact) (C_OS config) && String.eqb (A_Arch artifact) (C_Arch config)
                  then Some artifact else selected)
           end
  end.

(** The signature under one key. *)
Definition check_signature (manifest : Manifest) (keyID encodedKey : string) : result unit :=
  match base64_decode (TrimSpace encodedKey) with
  | Some publicKey =>
      if negb (List.length publicKey =? 32)%nat then
        Fail (invalid_manifest ("trusted key " +:+ Quote keyID +:+ " is not a valid Ed25519 key"))
      else
        match base64_decode (TrimSpace (MS_Value (Mf_Signature manifest))) with
        | Some signature =>
            if negb (List.length signature =? 64)%nat then
              Fail (invalid_manifest "invalid signature encoding")
            else
              match ManifestPayload manifest with
              | Fail err => Fail err
              | Ok payload =>
                  if negb (ed25519_Verify publicKey (bytes_of payload) signature) then
                    Fail (invalid_manifest "signature verification failed")
                  else Ok tt
              end
        | None => Fail (invalid_manifest "invalid signature encoding")
        end
  | None => Fail (invalid_manifest ("trusted key " +:+ Quote keyID +:+ " is not a valid Ed25519 key"))
  end.

(** Everything up to the artifacts. *)
Definition check_manifest (now : time) (manifest : Manifest) (config : Config) : result unit :=
  let keyID := TrimSpace (MS_KeyID (Mf_Signature manifest)) in
  if negb (Mf_SchemaVersion manifest =? ManifestSchemaVersion) then
    Fail (invalid_manifest ("unsupported schemaVersion " +:+ Itoa (Mf_SchemaVersion manifest)))
  else if negb (validVersion (Mf_Version manifest)) then
    Fail (invalid_manifest ("invalid version " +:+ Quote (Mf_Version manifest)))
  else if negb (existsb (String.eqb (Mf_Channel manifest)) ["stable"; "beta"; "development"]) then
    Fail (invalid_manifest ("invalid channel " +:+ Quote (Mf_Channel manifest)))
  else if negb (String.eqb (Mf_Channel manifest) (C_Channel config)) then
    Fail (invalid_manifest ("manifest channel " +:+ Quote (Mf_Channel manifest)
      +:+ " does not match configured channel " +:+ Quote (C_Channel config)))
  else if IsZero (Mf_PublishedAt manifest) || After (Mf_PublishedAt manifest) (now + 24 * Hour) then
    Fail (invalid_manifest "invalid publishedAt")
  else if negb (String.eqb (Mf_MinimumVersion manifest) "") && negb (validVersion (Mf_MinimumVersion manifest)) then
    Fail (invalid_manifest "invalid minimumVersion")
  else if negb (String.eqb (Mf_MinimumVersion manifest) "")
          && (0 <? semver_Compare (canonicalVersion (Mf_MinimumVersion manifest))
                     (canonicalVersion (Mf_Version manifest))) then
    Fail (invalid_manifest "minimumVersion is newer than the release")
  else if (Z.of_nat (List.length (Mf_Artifacts manifest)) =? 0)
          || (16 <? Z.of_nat (List.length (Mf_Artifacts manifest))) then
    Fail (invalid_manifest "artifacts must contain 1-16 entries")
  else
    match (list_to_map (C_TrustedKeys config) : gmap string string) !! keyID with
    | None => Fail (invalid_manifest ("untrusted signing key " +:+ Quote keyID))
    | Some encodedKey =>
        if String.eqb keyID "" then Fail (invalid_manifest ("untrusted signing key " +:+ Quote keyID))
        else check_signature manifest keyID encodedKey
    end.

Definition VerifyManifest (now : time) (manifest : Manifest) (config : Config) : result Artifact :=
  match check_manifest now manifest config with
  | Fail err => Fail err
  | Ok _ =>
      match check_artifacts config (Mf_Artifacts manifest) ∅ None with
      | Fail err => Fail err
      | Ok None => Fail (invalid_manifest ("no artifact for " +:+ C_OS config +:+ "/" +:+ C_Arch config))
      | Ok (Some selected) => Ok selected
      end
  end.

Definition FetchManifest (manifestURL : string) (answer : exchange) : result Manifest :=
  match validateRemoteURL manifestURL with
  | Fail err => Fail (invalid_manifest ("manifest URL: " +:+ Error err))
  | Ok _ =>
      match answer with
      | NotBuilt err => Fail err
      | NotDone err => Fail (Wrap "download update manifest: " err "")
      | Answered status body =>
          if negb (status =? 200) then
            Fail (ErrorString ("download update manifest: unexpected HTTP status " +:+ Itoa status))
          else
            match read_limited MaxManifestBytes body with
            | Fail err => Fail (Wrap "read update manifest: " err "")
            | Ok content =>
                if MaxManifestBytes <? len content then
                  Fail (invalid_manifest ("manifest exceeds " +:+ Itoa MaxManifestBytes +:+ " bytes"))
                else DecodeManifest content
            end
      end
  end.

(** [^panel-[a-f0-9]{32}$]. *)
Definition instanceIDPattern (s : string) : bool :=
  HasPrefix s "panel-" && (len s =? 38)
  && sforall (fun c => let b := byte_of c in
       ((48 <=? b) && (b <=? 57)) || ((97 <=? b) && (b <=? 102))) (String.substring 6 32 s).

(** [None]: the Center has no update. *)
Definition ResolveManifest (config : Config) (answer : exchange) : result (option Manifest) :=
  match validateRemoteURL (C_ResolveURL config) with
  | Fail err => Fail (invalid_manifest ("Center resolve URL: " +:+ Error err))
  | Ok _ =>
      if negb (instanceIDPattern (C_InstanceID config)) then
        Fail (invalid_manifest "invalid panel instance ID")
      else
        match answer with
        | NotBuilt err => Fail err
        | NotDone err => Fail (Wrap "resolve panel update from Center: " err "")
        | Answered status body =>
            if status =? 204 then Ok None
            else if negb (status =? 200) then
              Fail (ErrorString ("resolve panel update from Center: unexpected HTTP status " +:+ Itoa status))
            else
              match read_limited MaxManifestBytes body with
              | Fail err => Fail (Wrap "read Center update manifest: " err "")
              | Ok content =>
                  if MaxManifestBytes <? len content then
                    Fail (invalid_manifest ("manifest exceeds " +:+ Itoa MaxManifestBytes +:+ " bytes"))
                  else match DecodeManifest content with Fail err => Fail err | Ok m => Ok (Some m) end
              end
        end
  end.

(** ** The check for an update *)

Definition with_keys (config : Config) (keys : gmap string string) : Config :=
  mkConfig (C_Enabled config) (C_ManifestURL config) (C_ResolveURL config) (C_KeyStatusURL config)
    (C_TrustStatePath config) (C_InstanceID config) (C_Channel config) (map_to_list keys)
    (C_MaxPackageBytes config) (C_CurrentVersion config) (C_OS config) (C_Arch config).

Definition fetch_release (config : Config) (answer : exchange) : result (option Manifest) :=
  if negb (String.eqb (TrimSpace (C_ResolveURL config)) "") then ResolveManifest config answer
  else match FetchManifest (C_ManifestURL config) answer with
       | Fail err => Fail err
       | Ok manifest => Ok (Some manifest)
       end.

(** What [CheckUpdate] returns: the result as far as it was filled in, the
    release if one was verified, and the error. *)
Record check_outcome := mkOutcome {
  O_Result : CheckResult; O_Release : option (Manifest * Artifact); O_Error : option error
}.

Definition initial_result (config : Config) : CheckResult :=
  mkCheck (C_Enabled config) "" (C_InstanceID config) (C_CurrentVersion config) "" false
    (C_Channel config) 0 "" "" true 0 "" 0 "" 0 0 0.

Definition with_compatible (r : CheckResult) (compatible : bool) : CheckResult :=
  mkCheck (Ck_Enabled r) (Ck_Source r) (Ck_InstanceID r) (Ck_CurrentVersion r) (Ck_LatestVersion r)
    (Ck_UpdateAvailable r) (Ck_Channel r) (Ck_PublishedAt r) (Ck_ReleaseNotes r) (Ck_MinimumVersion r)
    compatible (Ck_ArtifactSize r) (Ck_SigningKeyID r) (Ck_TrustRevision r) (Ck_TrustSource r)
    (Ck_TrustedKeyCount r) (Ck_RevokedKeyCount r) (Ck_TrustUpdatedAt r).

Definition trusted_result (config : Config) (trust : KeyTrustResult) : CheckResult :=
  mkCheck (C_Enabled config)
    (if negb (String.eqb (TrimSpace (C_ResolveURL config)) "") then "center" else "manifest")
    (C_InstanceID config) (C_CurrentVersion config) "" false (C_Channel config) 0 "" "" true 0 ""
    (R_Revision trust) (R_Source trust) (R_TrustedKeyCount trust) (R_RevokedKeyCount trust)
    (R_UpdatedAt trust).

Definition with_release (r : CheckResult) (latest : string) (available : bool) (m : Manifest)
    (a : Artifact) : CheckResult :=
  mkCheck (Ck_Enabled r) (Ck_Source r) (Ck_InstanceID r) (Ck_CurrentVersion r) latest available
    (Ck_Channel r) (Mf_PublishedAt m) (Mf_ReleaseNotes m) (Mf_MinimumVersion m) (Ck_Compatible r)
    (A_Size a) (MS_KeyID (Mf_Signature m)) (Ck_TrustRevision r) (Ck_TrustSource r)
    (Ck_TrustedKeyCount r) (Ck_RevokedKeyCount r) (Ck_TrustUpdatedAt r).

Definition with_latest (r : CheckResult) (latest : string) : CheckResult :=
  mkCheck (Ck_Enabled r) (Ck_Source r) (Ck_InstanceID r) (Ck_CurrentVersion r) latest
    (Ck_UpdateAvailable r) (Ck_Channel r) (Ck_PublishedAt r) (Ck_ReleaseNotes r) (Ck_MinimumVersion r)
    (Ck_Compatible r) (Ck_ArtifactSize r) (Ck_SigningKeyID r) (Ck_TrustRevision r) (Ck_TrustSource r)
    (Ck_TrustedKeyCount r) (Ck_RevokedKeyCount r) (Ck_TrustUpdatedAt r).

(** After the keys: the release is fetched, verified and compared. *)
Definition check_release (now : time) (config : Config) (trust : KeyTrustResult) (answer : exchange)
    : check_outcome :=
  let current := canonicalVersion (C_CurrentVersion config) in
  let result := trusted_result config trust in
  match fetch_release config answer with
  | Fail err => mkOutcome result None (Some err)
  | Ok None => mkOutcome (with_latest result (C_CurrentVersion config)) None None
  | Ok (Some manifest) =>
      match VerifyManifest now manifest config with
      | Fail err => mkOutcome result None (Some err)
      | Ok artifact =>
          if negb (String.eqb (Mf_MinimumVersion manifest) "")
             && (semver_Compare current (canonicalVersion (Mf_MinimumVersion manifest)) <? 0) then
            mkOutcome
              (with_compatible (with_release result (Mf_Version manifest) false manifest artifact) false)
              (Some (manifest, artifact))
              (Some (invalid_manifest ("current version is below minimum upgrade version "
                 +:+ Mf_MinimumVersion manifest)))
          else
            mkOutcome
              (with_release result (Mf_Version manifest)
                 (0 <? semver_Compare (canonicalVersion (Mf_Version manifest)) current) manifest artifact)
              (Some (manifest, artifact)) None
      end
  end.

Definition CheckUpdate (now saved verified : time) (config : Config) (keyset release : exchange)
    : M TrustFile check_outcome :=
  let result := initial_result config in
  if negb (C_Enabled config) then ret (mkOutcome result None (Some (Sentinel ErrDisabled)))
  else if String.eqb (canonicalVersion (C_CurrentVersion config)) "" then
    ret (mkOutcome (with_compatible result false) None
      (Some (invalid_manifest ("current build version " +:+ Quote (C_CurrentVersion config)
        +:+ " is not a release version"))))
  else
    let* refreshed := attempt (RefreshKeyTrust now saved config keyset) in
    match refreshed with
    | Fail err => ret (mkOutcome result None (Some err))
    | Ok (trustedKeys, trust) =>
        ret (check_release verified (with_keys config trustedKeys) trust release)
    end.
End updates.

(** ** The trusted keys that a keyset leaves *)

Lemma fold_clone l (m : gmap string string) :
  NoDup l.*1 -> Forall (fun '(k, v) => TrimSpace k = k /\ TrimSpace v = v) l ->
  fold_left (fun result '(keyID, publicKey) =>
    <[TrimSpace keyID := TrimSpace publicKey]> result) l m = list_to_map l ∪ m.
Proof.
  revert m. induction l as [|[k v] l IH]; intros m Hn Ht;
    [symmetry; apply (left_id_L ∅ (∪))|].
  cbn in Hn |- *. apply NoDup_cons in Hn as [Hk Hn]. apply Forall_cons in Ht as [[Ek Ev] Ht].
  rewrite Ek, Ev, IH by done. rewrite <- insert_union_l. symmetry. apply insert_union_r.
  by apply not_elem_of_list_to_map_1.
Qed.

Lemma clone_trimmed (m : gmap string string) :
  (forall k v, m !! k = Some v -> TrimSpace k = k /\ TrimSpace v = v) ->
  cloneTrustedKeys (map_to_list m) = m.
Proof.
  intros Hm. unfold cloneTrustedKeys. rewrite fold_clone.
  - rewrite list_to_map_to_list. apply (right_id_L ∅ (∪)).
  - apply NoDup_fst_map_to_list.
  - apply Forall_forall. intros [k v] H. apply elem_of_map_to_list in H. by apply Hm.
Qed.

Lemma clone_is_trimmed l k v :
  cloneTrustedKeys l !! k = Some v -> TrimSpace k = k /\ TrimSpace v = v.
Proof.
  unfold cloneTrustedKeys.
  assert (H : forall m : gmap string string,
    (forall k v, m !! k = Some v -> TrimSpace k = k /\ TrimSpace v = v) ->
    fold_left (fun result '(keyID, publicKey) =>
      <[TrimSpace keyID := TrimSpace publicKey]> result) l m !! k = Some v ->
    TrimSpace k = k /\ TrimSpace v = v).
  { induction l as [|[k1 v1] l IH]; cbn; intros m Hm; [apply Hm|]. apply IH.
    intros k2 v2. destruct (decide (k2 = TrimSpace k1)) as [->|].
    - rewrite lookup_insert_eq. intros [= <-]. by rewrite !TrimSpace_idemp.
    - rewrite lookup_insert_ne by done. apply Hm. }
  apply H. by intros ??; rewrite lookup_empty.
Qed.

Definition record_of (id : string) (keys : list TrustedKeyRecord) : option TrustedKeyRecord :=
  List.find (fun r => String.eqb (K_KeyID r) id) keys.

Lemma record_of_not_in id keys :
  id ∉ map K_KeyID keys -> record_of id keys = None.
Proof.
  induction keys as [|r keys IH]; cbn; [done|]. rewrite not_elem_of_cons.
  intros [H1 H2]. rewrite (proj2 (String.eqb_neq _ _)) by congruence. auto.
Qed.

Lemma record_of_in r keys :
  NoDup (map K_KeyID keys) -> r ∈ keys -> record_of (K_KeyID r) keys = Some r.
Proof.
  induction keys as [|q keys IH]; cbn; [by rewrite elem_of_nil|].
  rewrite NoDup_cons, elem_of_cons. intros [Hq Hn] [->|H]; [by rewrite String.eqb_refl|].
  rewrite (proj2 (String.eqb_neq _ _)); [auto|]. intros E. apply Hq. rewrite E.
  apply list_elem_of_fmap. eauto.
Qed.

Lemma record_of_Some id keys r : record_of id keys = Some r -> r ∈ keys /\ K_KeyID r = id.
Proof.
  intros [H1 H2]%find_some. split; [by apply list_elem_of_In|]. by apply String.eqb_eq.
Qed.

(** What a record of the keyset leaves of its key. *)
Definition left_by (r : TrustedKeyRecord) : option string :=
  if String.eqb (K_Status r) KeyStatusRevoked then None else Some (K_PublicKey r).

Lemma effective_lookup source keys id :
  NoDup (map K_KeyID keys) ->
  effectiveTrustedKeys (cloneTrustedKeys source) keys !! id =
    match record_of id keys with
    | Some r => left_by r
    | None => cloneTrustedKeys source !! id
    end.
Proof.
  intros Hn. unfold effectiveTrustedKeys.
  rewrite clone_trimmed by (intros ??; apply clone_is_trimmed).
  generalize (cloneTrustedKeys source) as m. revert Hn.
  induction keys as [|r keys IH]; cbn; intros Hn m; [done|].
  apply NoDup_cons in Hn as [Hr Hn]. rewrite IH by done. clear IH.
  destruct (String.eqb_spec (K_KeyID r) id) as [<-|Hne].
  - rewrite record_of_not_in by done. unfold left_by.
    destruct (String.eqb (K_Status r) _); [apply lookup_delete_eq|apply lookup_insert_eq].
  - unfold record_of. destruct (List.find _ keys); [done|].
    destruct (String.eqb (K_Status r) _); [by apply lookup_delete_ne|by apply lookup_insert_ne].
Qed.

(** ** What an accepted keyset satisfies *)

Section accepted.
Context `{!UnicodeCase, !UpdateJSON, !Ed25519, !RemoteURL, !Semver}.
Variable Quote : string -> string.

(** Key and identifier belong together. *)
Definition key_ok (r : TrustedKeyRecord) : Prop :=
  exists publicKey, decodeTrustedKey Quote (K_KeyID r) (K_PublicKey r) = Ok publicKey /\
    K_KeyID r = hex_encode (take 8 (sha256 publicKey)) /\
    exists active, check_status Quote r = Ok active.

Lemma check_keys_Ok keys : forall records n records' n',
  check_keys Quote keys records n = Ok (records', n') ->
  NoDup (map K_KeyID keys) /\ Forall key_ok keys /\
  Forall (fun r => records !! K_KeyID r = None) keys /\
  (forall id, records' !! id = match record_of id keys with Some r => Some r | None => records !! id end).
Proof.
  induction keys as [|r keys IH]; cbn; intros records n records' n' E.
  { injection E as <- <-. repeat split; constructor. }
  destruct (decodeTrustedKey _ _ _) as [publicKey|] eqn:Ed; [|done].
  destruct (_ || _) in E; [done|]. destruct (String.eqb_spec (K_KeyID r) (hex_encode (take 8 (sha256 publicKey))))
    as [Eid|]; [|done]. cbn in E.
  destruct (records !! K_KeyID r) eqn:Er; [done|]. cbn in E.
  destruct (check_status Quote r) as [active|] eqn:Es; [|done].
  apply IH in E as (Hn & Hok & Hfresh & Hl). clear IH.
  assert (Hin : K_KeyID r ∉ map K_KeyID keys).
  { intros Hin. apply list_elem_of_fmap in Hin as (q & Eq & Hq).
    rewrite Forall_forall in Hfresh. specialize (Hfresh q Hq). rewrite <- Eq, lookup_insert_eq in Hfresh. done. }
  split_and!; [by constructor| |constructor; [done|]|].
  - constructor; [|done]. exists publicKey. eauto.
  - eapply Forall_impl; [exact Hfresh|]. intros q Hq. cbn in Hq.
    by apply lookup_insert_None in Hq as [??].
  - intros id. rewrite Hl. destruct (String.eqb_spec (K_KeyID r) id) as [<-|Hne].
    + by rewrite record_of_not_in, lookup_insert_eq.
    + unfold record_of. destruct (List.find _ keys); [done|]. by apply lookup_insert_ne.
Qed.

Lemma check_signatures_Ok signatures records ids :
  check_signatures Quote signatures records ids = Ok tt ->
  Forall (fun s => exists r, records !! Sig_KeyID s = Some r /\ K_Status r <> KeyStatusRevoked) signatures.
Proof.
  revert ids. induction signatures as [|s signatures IH]; cbn; intros ids E; [constructor|].
  destruct (records !! Sig_KeyID s) as [r|] eqn:Er; [|done].
  destruct (String.eqb_spec (K_Status r) KeyStatusRevoked); [done|].
  destruct (bool_decide _); [done|].
  destruct (match base64_decode _ with Some _ => _ | None => _ end); [done|]. eauto.
Qed.

Record well_formed_keyset (document : KeysetDocument) : Prop := {
  keyset_ids : NoDup (map K_KeyID (D_Keys document));
  keyset_keys : Forall key_ok (D_Keys document);
  keyset_active : exists r, record_of (D_ActiveKeyID document) (D_Keys document) = Some r /\
    K_Status r = KeyStatusActive;
  keyset_signers : Forall (fun s => exists r, record_of (Sig_KeyID s) (D_Keys document) = Some r /\
    K_Status r <> KeyStatusRevoked) (D_Signatures document)
}.

Lemma validateKeyset_Ok now document payload digest :
  validateKeyset Quote now document = Ok (payload, digest) ->
  well_formed_keyset document /\ keysetPayload document = Ok payload /\
  digest = hex_encode (sha256 (bytes_of payload)) /\
  1 <= D_Revision document /\ D_GeneratedAt document <> 0 /\ count_ok (D_Keys document) = true.
Proof.
  unfold validateKeyset. destruct (_ || _) eqn:E1; [done|]. apply orb_false_iff in E1 as [_ E1].
  destruct (IsZero _ || _) eqn:E2; [done|]. apply orb_false_iff in E2 as [E2 _].
  destruct (count_ok (D_Keys document)) eqn:E3; [|done]. cbn [negb].
  destruct (negb (count_ok (D_Signatures document))); [done|].
  destruct (check_keys _ _ _ _) as [[records activeCount]|] eqn:Ek; [|done].
  apply check_keys_Ok in Ek as (Hn & Hok & _ & Hl).
  assert (Hr : forall id, records !! id = record_of id (D_Keys document)).
  { intros id. rewrite Hl, lookup_empty. by destruct (record_of _ _). }
  rewrite Hr. destruct (record_of (D_ActiveKeyID document) _) as [active|] eqn:Ea; [|done].
  destruct (String.eqb_spec (K_Status active) KeyStatusActive) as [Es|]; [|done]. cbn [negb orb].
  destruct (negb (activeCount =? 1)); [done|].
  destruct (check_signatures _ _ _ _) as [[]|] eqn:Esig; [|done].
  apply check_signatures_Ok in Esig.
  destruct (keysetPayload document) as [text|] eqn:Ep; [|done]. intros [= <- <-].
  unfold IsZero in E2. bool_props. split_and!; [|done..]. constructor; [done..|by exists active|].
  eapply Forall_impl; [exact Esig|]. intros s (r & Hs & ?). rewrite Hr in Hs. eauto.
Qed.

Lemma rejectRemovedKeys_Ok previous current :
  rejectRemovedKeys Quote previous current = Ok tt ->
  Forall (fun r => K_KeyID r ∈ map K_KeyID current) previous.
Proof.
  induction previous as [|r previous IH]; cbn; [constructor|].
  destruct (existsb _ current) eqn:E; [|done]. cbn. intros Hrest. constructor; [|auto].
  apply existsb_exists in E as (q & Hq & <-%String.eqb_eq). by apply list_elem_of_In, in_map.
Qed.

(** Progress of the trust state: the revision never decreases, no state of
    the same revision replaces another, and no key is forgotten. *)
Definition follows (s s' : trustState) : Prop :=
  TS_Revision s <= TS_Revision s' /\ (TS_Revision s = TS_Revision s' -> s' = s) /\
  Forall (fun r => K_KeyID r ∈ map K_KeyID (TS_Keys s')) (TS_Keys s).

Lemma follows_refl s : follows s s.
Proof.
  split_and!; [lia|done|]. apply Forall_forall. intros r Hr. apply list_elem_of_fmap. eauto.
Qed.

Lemma follows_trans s1 s2 s3 : follows s1 s2 -> follows s2 s3 -> follows s1 s3.
Proof.
  intros (L1 & E1 & K1) (L2 & E2 & K2). split_and!; [lia| |].
  - intros E. assert (TS_Revision s1 = TS_Revision s2) by lia. rewrite E2 by lia. auto.
  - rewrite Forall_forall in *. intros r Hr. specialize (K1 r Hr).
    apply list_elem_of_fmap in K1 as (q & -> & Hq). auto.
Qed.

(** The document is signed by a key that was trusted before and that it does
    not revoke. *)
Definition vouched (config : Config) (stored : option trustState) (document : KeysetDocument)
    (payload : string) : Prop :=
  exists s r, s ∈ D_Signatures document /\
    signed_by Quote (effectiveTrustedKeys (cloneTrustedKeys (C_TrustedKeys config)) (stored_keys stored))
      payload s = true /\
    record_of (Sig_KeyID s) (D_Keys document) = Some r /\ K_Status r <> KeyStatusRevoked.

Lemma accept_keyset_Ok now config answer stored document digest :
  accept_keyset Quote now config answer stored = Ok (document, digest) ->
  exists payload, utf8_document document = true /\
    validateKeyset Quote now document = Ok (payload, digest) /\
    vouched config stored document payload /\
    match stored with
    | None => True
    | Some s => TS_Revision s <= D_Revision document /\
        (D_Revision document = TS_Revision s -> digest = TS_Digest s) /\
        Forall (fun r => K_KeyID r ∈ map K_KeyID (D_Keys document)) (TS_Keys s)
    end.
Proof.
  unfold accept_keyset. destruct (fetchKeyset _ _) as [d|] eqn:Ef; [|done].
  destruct (validateKeyset _ _ _) as [[payload dg]|] eqn:Ev; [|done].
  destruct (verifyKeyset _ _ _ _) as [[]|] eqn:Ek; [|done].
  destruct (check_progress _ _ _ _) as [[]|] eqn:Ep; [|done]. intros [= -> ->].
  exists payload. pose proof Ev as (Hwf & _)%validateKeyset_Ok. split_and!; [|done| |].
  - unfold fetchKeyset in Ef. repeat case_hyp Ef; try done. simplify_eq. by eapply decode_keyset_utf8.
  - unfold verifyKeyset in Ek. destruct (existsb _ _) eqn:E; [|done].
    apply existsb_exists in E as (s & Hs%list_elem_of_In & Hsig).
    destruct Hwf as [_ _ _ Hall]. rewrite Forall_forall in Hall.
    destruct (Hall s Hs) as (r & Hr & ?). by exists s, r.
  - destruct stored as [s|]; [|done]. unfold check_progress in Ep.
    destruct (Z.ltb_spec (D_Revision document) (TS_Revision s)); [done|].
    destruct (_ && _) eqn:E; [done|]. apply rejectRemovedKeys_Ok in Ep. split_and!; [done| |done].
    intros Erev. rewrite Erev, Z.eqb_refl in E. cbn in E. by bool_props.
Qed.

Lemma key_id_length r : key_ok r -> K_KeyID r <> "".
Proof.
  intros (k & _ & E & _) E0. apply (f_equal String.length) in E0.
  rewrite E, length_hex_encode, length_take, length_sha256 in E0. cbn in E0. lia.
Qed.

(** What is saved is read back. *)
Lemma saved_state_loads now now' config answer stored document digest text :
  accept_keyset Quote now config answer stored = Ok (document, digest) ->
  marshal_state (trust_of document digest now') = Ok text ->
  parse_state (Some (text +:+ str1 "010")) = Ok (Some (trust_of document digest now')).
Proof.
  intros (payload & Hu & Hv & _)%accept_keyset_Ok Hm.
  apply validateKeyset_Ok in Hv as (Hwf & _ & Hd & Hr & Hg & Hc).
  assert (Hutf : utf8_state (trust_of document digest now') = true).
  { unfold utf8_state. cbn. unfold utf8_document in Hu. bool_props. rewrite !andb_true_iff. split_and!; try done.
    rewrite Hd. apply ascii_valid, hex_encode_ascii, sha256_bytes. }
  destruct (decode_marshal_state _ _ Hutf Hm) as (rest & E1 & E2). unfold parse_state. rewrite E1. unfold ensureJSONEOF. rewrite E2. cbn.
  unfold count_ok in Hc. bool_props.
  assert (Ha : D_ActiveKeyID document <> "").
  { destruct Hwf as [_ Hk (r & Hin & _) _]. apply record_of_Some in Hin as [Hin <-].
    rewrite Forall_forall in Hk. by apply key_id_length, Hk. }
  rewrite (proj2 (Z.ltb_ge _ _)) by lia. unfold IsZero. rewrite (proj2 (Z.eqb_neq _ _)) by done.
  rewrite (proj2 (String.eqb_neq _ _)) by done. rewrite (proj2 (Z.ltb_ge _ _)) by lia.
  rewrite (proj2 (Z.ltb_ge _ _)) by lia. unfold len. rewrite Hd, length_hex_encode, length_sha256. done.
Qed.

Lemma loadTrustState_Ok w o w' :
  loadTrustState w = (Ok o, w') -> parse_state (tables w) = Ok o /\ tables w' = tables w.
Proof.
  unfold loadTrustState. intros (file & w1 & Hr%wrapping_Ok%read_Ok & Hk)%bind_Ok.
  destruct Hr as [-> Hw1]. destruct (parse_state (tables w)) as [o'|] eqn:E; [|done].
  apply ret_Ok in Hk as [-> ->]. by rewrite Hw1.
Qed.

Lemma loadTrustState_tables w r w' : loadTrustState w = (r, w') -> tables w' = tables w.
Proof.
  intros E. assert (Hro : readonly loadTrustState).
  { unfold loadTrustState. apply readonly_bind; [apply readonly_wrapping, readonly_read|].
    intros file. destruct (parse_state file); [apply readonly_ret|apply readonly_fail]. }
  specialize (Hro w). by rewrite E in Hro.
Qed.

(** The trust file changes only when an accepted keyset of a later revision
    is saved. *)
Definition replaced (now saved : time) (config : Config) (answer : exchange)
    (file file' : TrustFile) : Prop :=
  exists stored document digest text, parse_state file = Ok stored /\
    accept_keyset Quote now config answer stored = Ok (document, digest) /\
    newer stored document = true /\
    marshal_state (trust_of document digest saved) = Ok text /\ file' = Some (text +:+ str1 "010").

Lemma RefreshKeyTrust_file now saved config answer w r w' :
  RefreshKeyTrust Quote now saved config answer w = (r, w') ->
  tables w' = tables w \/ replaced now saved config answer (tables w) (tables w').
Proof.
  unfold RefreshKeyTrust. destruct (String.eqb _ ""); [intros [= _ <-]; by left|].
  destruct (String.eqb _ ""); [intros [= _ <-]; by left|]. unfold bind at 1.
  destruct (loadTrustState w) as [[stored|e] w1] eqn:El; [|intros [= _ <-]; left; by apply loadTrustState_tables in El].
  apply loadTrustState_Ok in El as [Hp Hw1].
  destruct (accept_keyset _ _ _ _ _) as [[document digest]|] eqn:Ea; [|intros [= _ <-]; by left].
  destruct (newer stored document) eqn:En; [|intros [= _ <-]; by left].
  unfold saveTrustState. destruct (marshal_state _) as [text|] eqn:Em; [|intros [= _ <-]; by left].
  unfold bind. destruct (exec _ w1) as [[[]|e] w2] eqn:Ee.
  - intros [= _ <-]. apply statement_Ok in Ee. injection Ee as Ee. right.
    exists stored, document, digest, text. by rewrite Ee.
  - intros [= _ <-]. left. apply statement_Fail in Ee as [Ee _]. congruence.
Qed.

Lemma replaced_follows now saved config answer file file' s :
  replaced now saved config answer file file' -> parse_state file = Ok (Some s) ->
  exists s', parse_state file' = Ok (Some s') /\ follows s s'.
Proof.
  intros (stored & document & digest & text & Hp & Ha & Hn & Hm & ->) Hs.
  rewrite Hs in Hp. injection Hp as <-.
  exists (trust_of document digest saved). split; [by eapply saved_state_loads|].
  apply accept_keyset_Ok in Ha as (payload & _ & _ & _ & Hle & _ & Hkeys).
  cbn in Hn. bool_props. split_and!; [done| |done]. cbn. lia.
Qed.
End accepted.

(** ** Properties of the trust state *)

Record refresh := mkRefresh {
  rf_now : time; rf_saved : time; rf_config : Config; rf_answer : exchange
}.

Section trust.
Context `{!UnicodeCase, !UpdateJSON, !Ed25519, !RemoteURL, !Semver}.
Variable Quote : string -> string.

Definition refresh_all (steps : list refresh) (w : world TrustFile) : world TrustFile :=
  fold_left (fun w s =>
    (RefreshKeyTrust Quote (rf_now s) (rf_saved s) (rf_config s) (rf_answer s) w).2) steps w.

(** C20: the trust in keys never goes back. Whatever the Center answers, under
    whatever configurations, clocks and faults, a readable trust state stays
    readable, its revision never decreases, a revision is never replaced by
    another content of the same number, and no key is ever forgotten. *)
Theorem trust_never_rolls_back steps w s (Hs : parse_state (tables w) = Ok (Some s)) :
  exists s', parse_state (tables (refresh_all steps w)) = Ok (Some s') /\ follows s s'.
Proof.
  revert w s Hs. induction steps as [|[now saved config answer] steps IH]; intros w s Hs; cbn.
  { exists s. split; [done|apply follows_refl]. }
  destruct (RefreshKeyTrust _ _ _ _ _ w) as [r w'] eqn:E. cbn.
  destruct (RefreshKeyTrust_file _ _ _ _ _ _ _ _ E) as [Hw|Hr].
  - apply IH. by rewrite Hw.
  - destruct (replaced_follows _ _ _ _ _ _ _ _ Hr Hs) as (s1 & Hs1 & Hf).
    destruct (IH w' s1 Hs1) as (s' & Hs' & Hf'). exists s'. split; [done|]. by eapply follows_trans.
Qed.

(** The keys that a refresh leaves, and what vouches for them. *)
Definition trusted_after (config : Config) (stored : option trustState) (document : KeysetDocument)
    (keys : gmap string string) : Prop :=
  well_formed_keyset Quote document /\
  (exists payload, keysetPayload document = Ok payload /\
     vouched Quote config stored document payload) /\
  forall id, keys !! id = match record_of id (D_Keys document) with
                          | Some r => left_by r
                          | None => cloneTrustedKeys (C_TrustedKeys config) !! id
                          end.

Lemma RefreshKeyTrust_Ok now saved config answer w keys trust w' :
  RefreshKeyTrust Quote now saved config answer w = (Ok (keys, trust), w') ->
  TrimSpace (C_KeyStatusURL config) <> "" ->
  exists stored document, parse_state (tables w) = Ok stored /\
    trusted_after config stored document keys /\
    exists s, parse_state (tables w') = Ok (Some s) /\ TS_Revision s = D_Revision document /\
      (stored = Some s /\ tables w' = tables w \/ TS_Keys s = D_Keys document /\ newer stored document = true).
Proof.
  unfold RefreshKeyTrust. intros Hrun Hurl%String.eqb_neq. rewrite Hurl in Hrun.
  destruct (String.eqb (TrimSpace (C_TrustStatePath config)) ""); [done|].
  apply bind_Ok in Hrun as (stored & w1 & [Hp Hw1]%loadTrustState_Ok & Hrun).
  destruct (accept_keyset _ _ _ _ _) as [[document digest]|] eqn:Ea; [|done].
  pose proof (accept_keyset_Ok _ _ _ _ _ _ _ Ea) as (payload & _ & Hv & Hvouch & Hprog).
  apply validateKeyset_Ok in Hv as (Hwf & Hpay & _).
  apply bind_Ok in Hrun as ([] & w2 & Hsave & Hret). apply ret_Ok in Hret as [E ->].
  injection E as <- _. exists stored, document. split_and!; [done| |].
  - split_and!; [done|by exists payload|]. intros id. apply effective_lookup, Hwf.
  - destruct (newer stored document) eqn:En.
    + unfold saveTrustState in Hsave. destruct (marshal_state _) as [text|] eqn:Em; [|done].
      apply statement_Ok in Hsave. injection Hsave as <-.
      exists (trust_of document digest saved). split_and!; [by eapply saved_state_loads|done|by right].
    + apply ret_Ok in Hsave as [_ ->]. destruct stored as [s|]; [|done]. cbn in En.
      destruct Hprog as (? & _ & _). bool_props. exists s. rewrite Hw1. split_and!; [done|lia|by left].
Qed.

(** a refreshed set of keys is vouched for. When a refresh from the Center
    succeeds, the keyset is signed by a key that was trusted before and that
    the keyset itself does not revoke; every key it lists is trusted exactly
    as it says, so that no revoked key is; the other keys are those of the
    configuration; and the stored state has the revision of that keyset. *)
Theorem RefreshKeyTrust_vouched now saved config answer w keys trust w'
  (Hrun : RefreshKeyTrust Quote now saved config answer w = (Ok (keys, trust), w'))
  (Hurl : TrimSpace (C_KeyStatusURL config) <> "") :
  exists stored document, parse_state (tables w) = Ok stored /\
    trusted_after config stored document keys /\
    exists s, parse_state (tables w') = Ok (Some s) /\ TS_Revision s = D_Revision document /\
      (stored = Some s /\ tables w' = tables w \/ TS_Keys s = D_Keys document /\ newer stored document = true).
Proof. by eapply RefreshKeyTrust_Ok. Qed.
End trust.

(** ** Properties of release manifests *)

Section manifests.
Context `{!UnicodeCase, !UpdateJSON, !Ed25519, !RemoteURL, !Semver}.
Variable Quote : string -> string.

Record artifact_ok (config : Config) (a : Artifact) : Prop := {
  artifact_platform : A_OS a = "linux" /\ (A_Arch a = "amd64" \/ A_Arch a = "arm64");
  artifact_size : 1 <= A_Size a <= C_MaxPackageBytes config;
  artifact_digest : (exists digest, hex_decode (A_SHA256 a) = Some digest /\ List.length digest = 32%nat) /\
    ToLower (A_SHA256 a) = A_SHA256 a;
  artifact_url : validateRemoteURL (A_URL a) = Ok tt;
  artifact_name : TrimSpace (A_FileName a) <> "" /\ ContainsAny (A_FileName a) "/\" = false
}.

Definition targets (config : Config) (a : Artifact) : Prop :=
  A_OS a = C_OS config /\ A_Arch a = C_Arch config.

(** The payload verifies under the trusted key that the signature names. *)
Definition signed (trusted : gmap string string) (m : Manifest) : Prop :=
  exists encoded publicKey signature payload,
    trusted !! TrimSpace (MS_KeyID (Mf_Signature m)) = Some encoded /\
    TrimSpace (MS_KeyID (Mf_Signature m)) <> "" /\
    base64_decode (TrimSpace encoded) = Some publicKey /\ List.length publicKey = 32%nat /\
    base64_decode (TrimSpace (MS_Value (Mf_Signature m))) = Some signature /\
    List.length signature = 64%nat /\ ManifestPayload m = Ok payload /\
    ed25519_Verify publicKey (bytes_of payload) signature = true.

Record acceptable_content (now : time) (m : Manifest) (config : Config) : Prop := {
  manifest_schema : Mf_SchemaVersion m = ManifestSchemaVersion;
  manifest_version : validVersion (Mf_Version m) = true;
  manifest_channel : Mf_Channel m = C_Channel config /\ Mf_Channel m ∈ ["stable"; "beta"; "development"];
  manifest_published : Mf_PublishedAt m <> 0 /\ Mf_PublishedAt m <= now + 24 * Hour;
  manifest_minimum : Mf_MinimumVersion m = "" \/
    validVersion (Mf_MinimumVersion m) = true /\
    semver_Compare (canonicalVersion (Mf_MinimumVersion m)) (canonicalVersion (Mf_Version m)) <= 0;
  manifest_artifacts : 1 <= Z.of_nat (List.length (Mf_Artifacts m)) <= 16
}.

Definition keys_of (config : Config) : gmap string string := list_to_map (C_TrustedKeys config).

Lemma channel_listed c : existsb (String.eqb c) ["stable"; "beta"; "development"] = true <->
  c ∈ ["stable"; "beta"; "development"].
Proof.
  rewrite existsb_exists. setoid_rewrite list_elem_of_In. split; [|intros Hc; exists c; by rewrite String.eqb_refl].
  by intros (x & Hx & ->%String.eqb_eq).
Qed.

#[local] Ltac signed_by_none :=
  split; [intros (? & ? & ? & ? & ? & ? & ? & ? & ? & ? & ? & ?); congruence|intros; destruct_and?; discriminate].

Lemma check_manifest_Ok now m config :
  check_manifest Quote now m config = Ok tt <->
  acceptable_content now m config /\ signed (keys_of config) m.
Proof.
  unfold check_manifest. cbv zeta. rewrite !guard_Ok, !negb_false_iff, !orb_false_iff, !andb_false_iff,
    !negb_false_iff, channel_listed. unfold IsZero, After.
  rewrite !Z.eqb_eq, !Z.eqb_neq, !Z.ltb_ge, !String.eqb_eq.
  assert (Hsig : signed (keys_of config) m <->
    match keys_of config !! TrimSpace (MS_KeyID (Mf_Signature m)) with
    | None => Fail (invalid_manifest ("untrusted signing key " +:+ Quote (TrimSpace (MS_KeyID (Mf_Signature m)))))
    | Some encodedKey =>
        if String.eqb (TrimSpace (MS_KeyID (Mf_Signature m))) ""
        then Fail (invalid_manifest ("untrusted signing key " +:+ Quote (TrimSpace (MS_KeyID (Mf_Signature m)))))
        else check_signature Quote m (TrimSpace (MS_KeyID (Mf_Signature m))) encodedKey
    end = Ok tt).
  { unfold signed, check_signature. destruct (keys_of config !! _) as [encoded|]; [|signed_by_none].
    rewrite guard_Ok, String.eqb_neq.
    destruct (base64_decode (TrimSpace encoded)) as [publicKey|] eqn:Ek; [|signed_by_none].
    rewrite guard_Ok, negb_false_iff, Nat.eqb_eq.
    destruct (base64_decode (TrimSpace (MS_Value _))) as [signature|]; [|signed_by_none].
    rewrite guard_Ok, negb_false_iff, Nat.eqb_eq.
    destruct (ManifestPayload m) as [payload|]; [|signed_by_none]. rewrite guard_Ok, negb_false_iff.
    split.
    - intros (e & k & g & t & ? & ? & ? & ? & ? & ? & ? & ?). simplify_eq. by split_and!.
    - intros (? & ? & ? & ? & _). by exists encoded, publicKey, signature, payload. }
  fold (keys_of config). rewrite Hsig. split.
  - intros (? & ? & ? & ? & [] & ? & ? & [] & ?). split; [|done].
    constructor; try done; [|lia]. naive_solver.
  - intros [[? ? [] [] Hmin ?] ?]. split_and!; try done; [..|lia|lia]; naive_solver.
Qed.

Lemma artifact_ok_iff config a (continue : result (option Artifact)) chosen :
  (if negb (String.eqb (A_OS a) "linux")
      || (negb (String.eqb (A_Arch a) "amd64") && negb (String.eqb (A_Arch a) "arm64")) then
     Fail (invalid_manifest ("unsupported artifact target " +:+ artifact_target a))
   else if (A_Size a <? 1) || (C_MaxPackageBytes config <? A_Size a) then
     Fail (invalid_manifest ("artifact " +:+ artifact_target a +:+ " size is outside allowed range"))
   else if match hex_decode (A_SHA256 a) with
           | Some digest => negb (List.length digest =? 32)%nat
           | None => true
           end || negb (String.eqb (ToLower (A_SHA256 a)) (A_SHA256 a)) then
     Fail (invalid_manifest ("artifact " +:+ artifact_target a +:+ " has invalid SHA-256"))
   else match validateRemoteURL (A_URL a) with
        | Fail err => Fail (invalid_manifest ("artifact " +:+ artifact_target a +:+ " URL: " +:+ Error err))
        | Ok _ =>
            if String.eqb (TrimSpace (A_FileName a)) "" || ContainsAny (A_FileName a) "/\" then
              Fail (invalid_manifest ("artifact " +:+ artifact_target a +:+ " has invalid fileName"))
            else continue
        end) = Ok chosen <-> artifact_ok config a /\ continue = Ok chosen.
Proof.
  rewrite !guard_Ok, !orb_false_iff, andb_false_iff, !negb_false_iff, !Z.ltb_ge, !String.eqb_eq.
  assert (Hd : match hex_decode (A_SHA256 a) with
               | Some digest => negb (List.length digest =? 32)%nat | None => true end = false <->
               exists digest, hex_decode (A_SHA256 a) = Some digest /\ List.length digest = 32%nat).
  { destruct (hex_decode (A_SHA256 a)) as [d|]; [rewrite negb_false_iff, Nat.eqb_eq; naive_solver|].
    split; [done|by intros (? & ? & _)]. }
  rewrite Hd. clear Hd. destruct (validateRemoteURL (A_URL a)) as [[]|] eqn:Eu.
  - rewrite guard_Ok, orb_false_iff, String.eqb_neq. split.
    + intros ([] & [] & [] & [[] ?]). split; [|done]. by constructor.
    + intros [[? ? [] ? []] ?]. split_and!; naive_solver.
  - split; [by intros (? & ? & ? & ?)|]. intros [[_ _ _ Hurl _] _]. congruence.
Qed.

Definition matching (config : Config) (a : Artifact) : bool :=
  String.eqb (A_OS a) (C_OS config) && String.eqb (A_Arch a) (C_Arch config).

Lemma matching_target config a b :
  matching config a = true -> matching config b = true -> artifact_target a = artifact_target b.
Proof. unfold matching, artifact_target. intros. bool_props. congruence. Qed.

Lemma check_artifacts_Ok config artifacts : forall seen selected chosen,
  check_artifacts config artifacts seen selected = Ok chosen <->
  Forall (artifact_ok config) artifacts /\ NoDup (map artifact_target artifacts) /\
  Forall (fun a => artifact_target a ∉ seen) artifacts /\
  chosen = match List.find (matching config) artifacts with Some a => Some a | None => selected end.
Proof.
  induction artifacts as [|a artifacts IH]; cbn; intros seen selected chosen.
  { split; [intros [= <-]; repeat constructor|by intros (_ & _ & _ & ->)]. }
  rewrite guard_Ok, artifact_ok_iff, IH, bool_decide_eq_false, !Forall_cons, NoDup_cons.
  assert (Hs : Forall (fun b => artifact_target b ∉ {[artifact_target a]} ∪ seen) artifacts <->
    artifact_target a ∉ map artifact_target artifacts /\ Forall (fun b => artifact_target b ∉ seen) artifacts).
  { rewrite !Forall_forall, list_elem_of_fmap. split; [|set_solver].
    intros Hall. split; [|set_solver]. intros (b & Eb & Hb). specialize (Hall b Hb). set_solver. }
  rewrite Hs. clear Hs. fold (matching config a).
  destruct (matching config a) eqn:Em; [|tauto].
  destruct (List.find (matching config) artifacts) as [b|] eqn:Ef; [|tauto].
  split; [|intros (? & [? _] & _); exfalso]; [intros (? & ? & ? & ? & [? ?] & _); exfalso|];
    (apply find_some in Ef as [Hb Mb]; apply list_elem_of_In in Hb;
     match goal with Hn : artifact_target a ∉ _ |- _ => apply Hn end;
     rewrite (matching_target config a b) by done; apply list_elem_of_fmap; eauto).
Qed.

(** When [VerifyManifest] accepts a release for this machine. *)
Definition acceptable (now : time) (m : Manifest) (config : Config) (a : Artifact) : Prop :=
  acceptable_content now m config /\ signed (keys_of config) m /\
  Forall (artifact_ok config) (Mf_Artifacts m) /\ NoDup (map artifact_target (Mf_Artifacts m)) /\
  a ∈ Mf_Artifacts m /\ targets config a.

Lemma VerifyManifest_iff now m config a :
  VerifyManifest Quote now m config = Ok a <-> acceptable now m config a.
Proof.
  unfold VerifyManifest, acceptable. split.
  - destruct (check_manifest _ _ _ _) as [[]|] eqn:Ec; [|done]. apply check_manifest_Ok in Ec as [Hc Hs].
    destruct (check_artifacts _ _ _ _) as [[b|]|] eqn:Ea; [|done..]. intros [= ->].
    apply check_artifacts_Ok in Ea as (Hok & Hn & _ & Ef).
    destruct (List.find _ _) as [b|] eqn:Hf; [|done]. injection Ef as <-. apply find_some in Hf as [Hin Hm].
    unfold matching in Hm. bool_props. split_and!; try done. by apply list_elem_of_In.
  - intros (Hc & Hs & Hok & Hn & Hin & [Ho Har]).
    rewrite (proj2 (check_manifest_Ok now m config) (conj Hc Hs)).
    assert (Hm : matching config a = true) by (unfold matching; by rewrite Ho, Har, !String.eqb_refl).
    destruct (List.find (matching config) (Mf_Artifacts m)) as [b|] eqn:Hf.
    + assert (b = a) as ->.
      { apply find_some in Hf as [Hb Mb]. apply list_elem_of_In in Hb.
        eapply NoDup_map_inj; [exact Hn|done..|]. by eapply matching_target. }
      rewrite (proj2 (check_artifacts_Ok config (Mf_Artifacts m) ∅ None (Some a))); [done|].
      rewrite Hf. split_and!; try done. apply Forall_forall. set_solver.
    + exfalso. pose proof (find_none _ _ Hf a) as Hnone. rewrite Hm in Hnone.
      discriminate Hnone. by apply list_elem_of_In.
Qed.

(** a release is accepted exactly when it should be. [VerifyManifest]
    returns the artifact of this machine if and only if the metadata is in
    range and of the configured channel, the payload is signed by a trusted
    key, all artifacts are well formed with distinct targets, and the artifact
    is the one for this operating system and architecture. *)
Theorem VerifyManifest_accepts_exactly now m config a :
  VerifyManifest Quote now m config = Ok a <-> acceptable now m config a.
Proof. apply VerifyManifest_iff. Qed.

Lemma SignManifest_signed m keyID privateKey m' (trusted : gmap string string) :
  SignManifest (Some m) keyID privateKey = Ok m' -> TrimSpace keyID <> "" ->
  trusted !! TrimSpace keyID = Some (base64_encode (ed25519_Public privateKey)) ->
  signed trusted m'.
Proof.
  cbn. destruct (negb _) eqn:El; [done|]. destruct (ManifestPayload m) as [payload|] eqn:Ep; [|done].
  intros [= <-] Hid Ht. bool_props. apply Nat.eqb_eq in El.
  exists (base64_encode (ed25519_Public privateKey)), (ed25519_Public privateKey),
    (ed25519_Sign privateKey (bytes_of payload)), payload.
  cbn. rewrite TrimSpace_idemp, !TrimSpace_base64 by auto using ed25519_Public_bytes, ed25519_Sign_bytes.
  rewrite !base64_roundtrip by auto using ed25519_Public_bytes, ed25519_Sign_bytes.
  split_and!; auto using ed25519_Public_size, ed25519_Sign_size, ed25519_correct.
Qed.

(** what the release tool signs, the panel accepts. A manifest signed with
    a private key whose public key is trusted under the given identifier is
    accepted as soon as its contents are acceptable, whatever signature it
    carried before; signing changes nothing but the signature. *)
Theorem signed_manifest_verifies now m config a keyID privateKey m'
  (Hsign : SignManifest (Some m) keyID privateKey = Ok m') (Hid : TrimSpace keyID <> "")
  (Htrust : keys_of config !! TrimSpace keyID = Some (base64_encode (ed25519_Public privateKey)))
  (Hcontent : acceptable_content now m config)
  (Hok : Forall (artifact_ok config) (Mf_Artifacts m))
  (Hdistinct : NoDup (map artifact_target (Mf_Artifacts m)))
  (Ha : a ∈ Mf_Artifacts m) (Htarget : targets config a) :
  VerifyManifest Quote now m' config = Ok a /\
  with_signature m' (Mf_Signature m) = m.
Proof.
  pose proof (SignManifest_signed _ _ _ _ _ Hsign Hid Htrust) as Hs.
  assert (Em : exists s, m' = with_signature m s).
  { cbn in Hsign. repeat case_hyp Hsign; try done. injection Hsign as <-. eauto. }
  destruct Em as [s ->]. split; [|by destruct m]. apply VerifyManifest_iff.
  destruct Hcontent. by split_and!.
Qed.

Lemma keys_of_with_keys config keys : keys_of (with_keys config keys) = keys.
Proof. apply list_to_map_to_list. Qed.

(** C21: an update is offered only when it is trusted and newer. When a check
    reports an available update there is no error, the release was accepted
    under the keys just refreshed, its version is newer than the running one,
    which is not below the required minimum; and when the keys come from the
    Center, the keyset is vouched for and the signing key is not one that it
    lists as revoked. *)
Theorem CheckUpdate_offers now saved verified config keyset release w o w'
  (Hrun : CheckUpdate Quote now saved verified config keyset release w = (Ok o, w'))
  (Hoffer : Ck_UpdateAvailable (O_Result o) = true) :
  exists keys m a, O_Release o = Some (m, a) /\ O_Error o = None /\
    acceptable verified m (with_keys config keys) a /\
    0 < semver_Compare (canonicalVersion (Mf_Version m)) (canonicalVersion (C_CurrentVersion config)) /\
    (Mf_MinimumVersion m = "" \/
     0 <= semver_Compare (canonicalVersion (C_CurrentVersion config)) (canonicalVersion (Mf_MinimumVersion m))) /\
    (TrimSpace (C_KeyStatusURL config) = "" /\ keys = cloneTrustedKeys (C_TrustedKeys config) \/
     exists stored document, parse_state (tables w) = Ok stored /\
       trusted_after Quote config stored document keys /\
       forall r, record_of (TrimSpace (MS_KeyID (Mf_Signature m))) (D_Keys document) = Some r ->
         K_Status r <> KeyStatusRevoked).
Proof.
  unfold CheckUpdate in Hrun. destruct (C_Enabled config); [|by injection Hrun as <- _].
  destruct (String.eqb (canonicalVersion _) ""); [by injection Hrun as <- _|]. cbn [negb] in Hrun.
  apply bind_Ok in Hrun as (r & w1 & Hr%attempt_Ok & Hk). destruct r as [[keys trust]|err];
    [|by injection Hk as <- _]. apply ret_Ok in Hk as [<- _].
  unfold check_release in *. change (C_CurrentVersion (with_keys config keys)) with (C_CurrentVersion config) in *.
  destruct (fetch_release _ _) as [[m|]|]; [|done..].
  destruct (VerifyManifest _ _ _ _) as [a|] eqn:Ev; [|done]. apply VerifyManifest_iff in Ev.
  destruct (_ && _) eqn:Emin; [done|]. cbn in Hoffer. exists keys, m, a.
  apply Z.ltb_lt in Hoffer. split_and!; try done.
  { apply andb_false_iff in Emin as [E|E]; bool_props; [by left|by right]. }
  destruct (String.eqb_spec (TrimSpace (C_KeyStatusURL config)) "") as [Eu|Eu].
  - left. split; [done|]. unfold RefreshKeyTrust in Hr. rewrite Eu in Hr. by injection Hr as <- _ _.
  - right. destruct (RefreshKeyTrust_Ok _ _ _ _ _ _ _ _ _ Hr Eu) as (stored & document & Hp & Hafter & _).
    exists stored, document. split_and!; [done..|]. intros r Hrec Hrev. destruct Hafter as (_ & _ & Hkeys).
    destruct Ev as (_ & (e & _ & _ & _ & Hlook & _) & _). rewrite keys_of_with_keys, Hkeys, Hrec in Hlook.
    unfold left_by in Hlook. by rewrite Hrev in Hlook.
Qed.
End manifests.

(** The status of a key plays no part in the tests against the stored state: a
    later keyset may list a revoked key as active again. *)
Lemma revoked_key_may_return (Quote : string -> string) s document digest :
  TS_Revision s < D_Revision document ->
  Forall (fun r => K_KeyID r ∈ map K_KeyID (D_Keys document)) (TS_Keys s) ->
  check_progress Quote (Some s) document digest = Ok tt.
Proof.
  intros Hr Hk. cbn. rewrite (proj2 (Z.ltb_ge _ _)), (proj2 (Z.eqb_neq _ _)) by lia. cbn.
  induction Hk as [|r keys Hin _ IH]; cbn; [done|].
  rewrite (proj2 (existsb_exists _ _)); [done|]. apply list_elem_of_fmap in Hin as (q & E & Hq).
  exists q. rewrite E, String.eqb_refl. split; [by apply list_elem_of_In|done].
Qed.

(** ** A concrete instance of the interfaces, and witnesses *)

#[global] Instance TrustedKeyRecord_eq : EqDecision TrustedKeyRecord.
Proof. solve_decision. Defined.
#[global] Instance trustState_eq : EqDecision trustState.
Proof. solve_decision. Defined.

Definition fit (n : nat) (l : list Z) : list Z := map u8 (take n (l ++ repeat 0 n)).

Lemma length_fit n l : List.length (fit n l) = n.
Proof. unfold fit. rewrite length_map, length_take, length_app, repeat_length. lia. Qed.

Lemma fit_bytes n l : Forall is_byte (fit n l).
Proof. apply Forall_map_iff, Forall_forall. intros z _. apply Z.mod_pos_bound. done. Qed.

Program Definition demo_ed25519 : Ed25519 := {|
  ed25519_Public key := fit 32 key;
  ed25519_Sign key message := fit 64 (fit 32 key ++ message);
  ed25519_Verify key message signature := bool_decide (signature = fit 64 (key ++ message))
|}.
Next Obligation. intros. apply length_fit. Qed.
Next Obligation. intros. apply fit_bytes. Qed.
Next Obligation. intros. apply length_fit. Qed.
Next Obligation. intros. apply fit_bytes. Qed.
Next Obligation. intros. by apply bool_decide_eq_true_2. Qed.

Definition demo_url : RemoteURL := {|
  url_Parse s := if HasPrefix s "https://"
                 then Ok (mkURL "https" (String.substring 8 (String.length s) s) "" false "")
                 else Fail (ErrorString "missing protocol scheme");
  ip_IsLoopback s := String.eqb s "127.0.0.1"
|}.

Definition release_number (v : string) : option Z := Atoi (String.substring 1 (String.length v) v).

Definition demo_semver : Semver := {|
  semver_IsValid v := is_some (release_number v);
  semver_Compare v w := default 0 (release_number v) - default 0 (release_number w)
|}.

Definition demo_private : list Z := repeat 1 64.
Definition demo_public : string := "AQEBAQEBAQEBAQEBAQEBAQEBAQEBAQEBAQEBAQEBAQE=".
Definition key_a : TrustedKeyRecord :=
  mkKey "72cd6e8422c407fb" "Ed25519" demo_public KeyStatusActive 5 (Some 5) None None "".
Definition key_b (status : string) (revoked : option time) : TrustedKeyRecord :=
  mkKey "75877bb41d393b5f" "Ed25519" "AgICAgICAgICAgICAgICAgICAgICAgICAgICAgICAgI=" status 5
    (Some 5) (Some 6) revoked "leaked".

(** The second keyset revokes the retired key. *)
Definition demo_keyset : KeysetDocument :=
  mkKeyset 1 2 100 (K_KeyID key_a) [key_a; key_b KeyStatusRevoked (Some 90)]
    [mkSignature (K_KeyID key_a)
       "AQEBAQEBAQEBAQEBAQEBAQEBAQEBAQEBAQEBAQEBAQEyAAAAAAAAAAAAAAAAAAAAAAAAAAAAAAAAAAAAAAAAAA=="].

Definition demo_digest : string := "d4735e3a265e16eee03f59718b9b5d03019c07d8b6c51f90da3a666eec13ab35".
Definition demo_before : trustState :=
  mkTrust 1 1 50 (K_KeyID key_a) [key_a; key_b KeyStatusRetired None] demo_digest 60.
Definition demo_after : trustState := trust_of demo_keyset demo_digest 120.

Definition demo_artifact : Artifact :=
  mkArtifact "linux" "amd64" "https://center/panel.tar.gz" demo_digest 1000 "panel.tar.gz".
Definition demo_manifest : Manifest :=
  mkManifest 1 "v8" "stable" 100 "v3" "notes" [demo_artifact] (mkManifestSignature "" "").
Definition signed_manifest : Manifest :=
  with_signature demo_manifest (mkManifestSignature (K_KeyID key_a)
    "AQEBAQEBAQEBAQEBAQEBAQEBAQEBAQEBAQEBAQEBAQF2OAAAAAAAAAAAAAAAAAAAAAAAAAAAAAAAAAAAAAAAAA==").

(** A serialisation of these documents only. *)
Program Definition demo_json : UpdateJSON := {|
  decode_keyset s := if String.eqb s "keyset" then Ok (demo_keyset, "") else Fail (ErrorString "invalid");
  decode_state s :=
    if HasPrefix s "before" then Ok (demo_before, str1 "010")
    else if HasPrefix s "after" then Ok (demo_after, str1 "010") else Fail (ErrorString "invalid");
  decode_manifest s := if String.eqb s "release" then Ok (signed_manifest, "") else Fail (ErrorString "invalid");
  next_value s := if String.eqb s "" || String.eqb s (str1 "010") then None
                  else Some (Fail (ErrorString "invalid"));
  marshal_keyset p := Ok (Itoa (P_Revision p));
  marshal_state s := if decide (s = demo_before) then Ok "before"
                     else if decide (s = demo_after) then Ok "after" else Fail (ErrorString "unsupported");
  marshal_manifest p := Ok (MP_Version p)
|}.
Next Obligation.
  intros text d rest. cbn. destruct (String.eqb text "keyset"); [|done]. intros [= <- <-].
  vm_compute. reflexivity.
Qed.
Next Obligation.
  intros s text _. cbn. destruct (decide (s = demo_before)) as [->|]; [|destruct (decide (s = demo_after)) as [->|]];
    intros [= <-]; exists (str1 "010"); done.
Qed.

Definition demo_config : Config :=
  mkConfig true "" "https://center/resolve" "https://center/keys" "/state" ("panel-" +:+ "0123456789abcdef0123456789abcdef")
    "stable" [(K_KeyID key_a, demo_public)] 5000 "v3" "linux" "amd64".

Definition demo_world : world TrustFile := World (Some ("before" +:+ str1 "010")) [].

Definition demo_refresh (w : world TrustFile) : result (gmap string string * KeyTrustResult) * world TrustFile :=
  @RefreshKeyTrust latin1_case demo_json demo_ed25519 demo_url (fun s => s) 110 120 demo_config
    (Answered 200 (Ok "keyset")) w.

Lemma trust_never_rolls_back_witness :
  exists s', @parse_state demo_json (tables (@refresh_all latin1_case demo_json demo_ed25519 demo_url (fun s => s)
      [mkRefresh 110 120 demo_config (Answered 200 (Ok "keyset"));
       mkRefresh 111 121 demo_config (Answered 500 (Ok ""))] demo_world)) = Ok (Some s') /\
    TS_Revision s' = 2.
Proof.
  destruct (@trust_never_rolls_back latin1_case demo_json demo_ed25519 demo_url (fun s => s)
    [mkRefresh 110 120 demo_config (Answered 200 (Ok "keyset"));
     mkRefresh 111 121 demo_config (Answered 500 (Ok ""))] demo_world demo_before eq_refl)
    as (s' & Hp & _).
  exists s'. split; [exact Hp|]. revert Hp. vm_compute. by intros [= <-].
Defined.

Lemma RefreshKeyTrust_vouched_witness :
  exists keys, (exists trust w', demo_refresh demo_world = (Ok (keys, trust), w')) /\
    keys !! K_KeyID (key_b "" None) = None /\ keys !! K_KeyID key_a = Some demo_public.
Proof.
  destruct (demo_refresh demo_world) as [[[keys trust]|e] w'] eqn:E;
    [|apply (f_equal (fun x => is_ok x.1)) in E; revert E; vm_compute; discriminate].
  exists keys. split; [by exists trust, w'|].
  destruct (@RefreshKeyTrust_vouched latin1_case demo_json demo_ed25519 demo_url (fun s => s)
    110 120 demo_config (Answered 200 (Ok "keyset")) demo_world keys trust w' E ltac:(vm_compute; discriminate))
    as (stored & document & Hp & Hafter & s & Hp' & Hr & [[-> _]|[Hk _]]).
  - injection Hp as <-. exfalso. revert Hr Hp'.
    assert (Hw : w' = World (Some ("after" +:+ str1 "010")) []).
    { transitivity (demo_refresh demo_world).2; [by rewrite E|vm_compute; reflexivity]. }
    rewrite Hw. intros _. vm_compute. discriminate.
  - assert (Hw : w' = World (Some ("after" +:+ str1 "010")) []).
    { transitivity (demo_refresh demo_world).2; [by rewrite E|vm_compute; reflexivity]. }
    rewrite Hw in Hp'. injection Hp' as <-. destruct Hafter as (_ & _ & Hkeys).
    rewrite !Hkeys, <- Hk. split; vm_compute; reflexivity.
Defined.

Lemma demo_content : @acceptable_content demo_semver 200 demo_manifest demo_config.
Proof.
  constructor; try (vm_compute; split; congruence); try (vm_compute; reflexivity).
  - split; [reflexivity|]. apply list_elem_of_In. cbn. auto.
  - right. split; [reflexivity|]. vm_compute. discriminate.
Qed.

Lemma demo_artifact_ok : @artifact_ok latin1_case demo_url demo_config demo_artifact.
Proof.
  constructor; try (vm_compute; split; congruence); try (vm_compute; reflexivity).
  - split; [reflexivity|by left].
  - split; [|vm_compute; reflexivity]. eexists. split; [vm_compute; reflexivity|reflexivity].
Qed.

Lemma signed_manifest_verifies_witness :
  @VerifyManifest latin1_case demo_json demo_ed25519 demo_url demo_semver (fun s => s) 200
    signed_manifest demo_config = Ok demo_artifact.
Proof.
  apply (@signed_manifest_verifies latin1_case demo_json demo_ed25519 demo_url demo_semver (fun s => s)
    200 demo_manifest demo_config demo_artifact (K_KeyID key_a) demo_private signed_manifest).
  - vm_compute. reflexivity.
  - vm_compute. discriminate.
  - vm_compute. reflexivity.
  - exact demo_content.
  - apply Forall_singleton, demo_artifact_ok.
  - apply NoDup_singleton.
  - by left.
  - done.
Defined.

Definition demo_check (w : world TrustFile) : result check_outcome * world TrustFile :=
  @CheckUpdate latin1_case demo_json demo_ed25519 demo_url demo_semver (fun s => s) 110 120 200
    demo_config (Answered 200 (Ok "keyset")) (Answered 200 (Ok "release")) w.

Definition offered (r : result check_outcome) : bool :=
  match r with
  | Ok (mkOutcome checked (Some (m, a)) None) =>
      Ck_UpdateAvailable checked && String.eqb (Mf_Version m) "v8" && String.eqb (A_OS a) "linux"
  | _ => false
  end.

Lemma CheckUpdate_offers_witness :
  exists o w', demo_check demo_world = (Ok o, w') /\
    exists keys m a, O_Release o = Some (m, a) /\ Mf_Version m = "v8" /\
      @acceptable latin1_case demo_json demo_ed25519 demo_url demo_semver 200 m
        (with_keys demo_config keys) a.
Proof.
  assert (Hoff : offered (demo_check demo_world).1 = true) by (vm_compute; reflexivity).
  destruct (demo_check demo_world) as [[[checked [[m a]|] [e|]]|e] w'] eqn:E; try discriminate Hoff.
  cbn in Hoff. bool_props. exists (mkOutcome checked (Some (m, a)) None), w'. split; [reflexivity|].
  destruct (@CheckUpdate_offers latin1_case demo_json demo_ed25519 demo_url demo_semver (fun s => s)
    110 120 200 demo_config (Answered 200 (Ok "keyset")) (Answered 200 (Ok "release")) demo_world _ w' E
    ltac:(assumption)) as (keys & m' & a' & Hr & _ & Ha & _).
  injection Hr as <- <-. exists keys, m, a.
  split; [reflexivity|split; [assumption|exact Ha]].
Defined.
