(* ===== verification/Alarm.v ===== *)
(** What an alert is to those who watch it: an alarm that goes on after a number
    of bad observations in a row, repeats itself at most once per cooldown, and
    goes off at the first good one.

    [alarm_step] is the machine that [Monitoring] and [ServiceHealth] implement
    on their tables.  The second half of the file says the same about histories:
    the alarm, and what it reports, as functions of the observations made so
    far, with no state; the two agree. *)

From S2P Require Import Prelude.
From stdpp Require Import options.
#[local] Open Scope Z_scope.

(** An observation: bad, good enough to end an alarm, and when. *)
Record observation := mkObs { ob_bad : bool; ob_good : bool; ob_time : time }.

Inductive report := Triggered | Reminder | Resolved.
#[global] Instance report_eq : EqDecision report.
Proof. solve_decision. Defined.

Inductive alarm :=
  | Quiet
  | Waiting (count : Z) (since : time)
  | Firing (since last : time).

Section machine.
(** Bad observations that set it off, and the time between reminders. *)
Variables (limit : Z) (cooldown : duration).

Definition bad_step (count : Z) (since now : time) : alarm * option (report * time) :=
  if limit <=? count + 1 then (Firing since now, Some (Triggered, since))
  else (Waiting (count + 1) since, None).

Definition alarm_step (a : alarm) (o : observation) : alarm * option (report * time) :=
  let now := ob_time o in
  match a with
  | Firing since last =>
      if negb (ob_bad o) && ob_good o then (Quiet, Some (Resolved, since))
      else if last + cooldown <=? now then (Firing since now, Some (Reminder, since))
      else (a, None)
  | Quiet => if ob_bad o then bad_step 0 now now else (Quiet, None)
  | Waiting count since => if ob_bad o then bad_step count since now else (Quiet, None)
  end.

(** The reports of a run, each with its start and its time. *)
Fixpoint alarm_run (a : alarm) (h : list observation) : alarm * list (report * time * time) :=
  match h with
  | [] => (a, [])
  | o :: h =>
      let '(a', r) := alarm_step a o in
      let '(a'', rs) := alarm_run a' h in
      (a'', match r with Some (k, s) => (k, s, ob_time o) :: rs | None => rs end)
  end.

Lemma alarm_run_app a h k :
  alarm_run a (h ++ k) =
    let '(a', rs) := alarm_run a h in
    let '(a'', rs') := alarm_run a' k in (a'', rs ++ rs').
Proof.
  revert a. induction h as [|o h IH]; intros a; cbn [app alarm_run].
  - by destruct (alarm_run a k).
  - destruct (alarm_step a o) as [a' r]. rewrite IH.
    destruct (alarm_run a' h) as [a2 rs], (alarm_run a2 k) as [a3 rs'].
    by destruct r as [[]|].
Qed.

Lemma alarm_run_snoc a h o :
  alarm_run a (h ++ [o]) =
    let '(a', rs) := alarm_run a h in
    let '(a'', r) := alarm_step a' o in
    (a'', rs ++ match r with Some (k, s) => [(k, s, ob_time o)] | None => [] end).
Proof.
  rewrite alarm_run_app. destruct (alarm_run a h) as [a' rs]. cbn [alarm_run].
  by destruct (alarm_step a' o) as [a2 [[]|]].
Qed.

(** ** Histories, latest first *)

(** The bad observations at the end of a history, and when they began. *)
Fixpoint streak (h : list observation) : list time :=
  match h with
  | o :: h => if ob_bad o then ob_time o :: streak h else []
  | [] => []
  end.

Fixpoint alarmed (h : list observation) : bool :=
  match h with
  | [] => false
  | o :: h' =>
      if alarmed h' then ob_bad o || negb (ob_good o)
      else limit <=? Z.of_nat (List.length (streak h))
  end.

(** Since when: the start of the streak that set it off. *)
Fixpoint alarmed_since (h : list observation) : time :=
  match h with
  | [] => 0
  | o :: h' => if alarmed h' then alarmed_since h' else List.last (streak h) 0
  end.

(** The latest report before which nothing was said, while alarmed. *)
Fixpoint last_report (h : list observation) : time :=
  match h with
  | [] => 0
  | o :: h' =>
      if alarmed h' && negb (last_report h' + cooldown <=? ob_time o) then last_report h' else ob_time o
  end.

Definition reported (o : observation) (h : list observation) : option (report * time) :=
  match alarmed h, alarmed (o :: h) with
  | false, false => None
  | false, true => Some (Triggered, alarmed_since (o :: h))
  | true, false => Some (Resolved, alarmed_since h)
  | true, true =>
      if last_report h + cooldown <=? ob_time o then Some (Reminder, alarmed_since h) else None
  end.

Fixpoint reports (h : list observation) : list (report * time * time) :=
  match h with
  | [] => []
  | o :: h =>
      reports h ++ match reported o h with Some (k, s) => [(k, s, ob_time o)] | None => [] end
  end.

(** The state that a history leaves. *)
Definition alarm_of (h : list observation) : alarm :=
  if alarmed h then Firing (alarmed_since h) (last_report h)
  else match streak h with
       | [] => Quiet
       | _ :: _ => Waiting (Z.of_nat (List.length (streak h))) (List.last (streak h) 0)
       end.

Hypothesis limit_pos : 1 <= limit.

Lemma alarm_step_of h o :
  alarm_step (alarm_of h) o = (alarm_of (o :: h), reported o h).
Proof using limit_pos.
  unfold alarm_of, reported. cbn [alarmed alarmed_since last_report streak].
  destruct (alarmed h) eqn:Eh; cbn [alarm_step andb].
  - destruct (ob_bad o), (ob_good o); cbn [negb andb orb streak];
      try (by destruct (last_report h + cooldown <=? ob_time o)).
  - destruct (ob_bad o) eqn:Eb.
    + destruct (streak h) as [|t ts] eqn:Es; cbn [alarm_step]; rewrite ?Eb; unfold bad_step.
      * cbn [List.length List.last]. by destruct (limit <=? _).
      * replace (Z.of_nat (List.length (t :: ts)) + 1) with
          (Z.of_nat (List.length (ob_time o :: t :: ts))) by (cbn [List.length]; lia).
        by destruct (limit <=? _).
    + cbn [List.length]. rewrite (proj2 (Z.leb_gt limit (Z.of_nat 0))) by lia.
      by destruct (streak h); cbn [alarm_step]; rewrite Eb.
Qed.

Lemma alarm_run_of h : alarm_run Quiet (rev h) = (alarm_of h, reports h).
Proof using limit_pos.
  induction h as [|o h IH]; [by cbn; unfold alarm_of|]. cbn [rev]. by rewrite alarm_run_snoc, IH, alarm_step_of.
Qed.

(** ** What the reports look like *)

(** [r] may come right after [p]: an alarm starts in silence, a reminder follows
    the report before it after a cooldown, and a start is kept until the alarm
    is resolved. *)
Definition may_follow (p : option (report * time * time)) (r : report * time * time) : Prop :=
  match r with
  | (Triggered, _, _) =>
      match p with Some (k, _, _) => k = Resolved | None => True end
  | (Reminder, s, t) =>
      match p with Some (k, s', t') => k <> Resolved /\ s' = s /\ t' + cooldown <= t | None => False end
  | (Resolved, s, _) =>
      match p with Some (k, s', _) => k <> Resolved /\ s' = s | None => False end
  end.

Fixpoint in_order (p : option (report * time * time)) (l : list (report * time * time)) : Prop :=
  match l with
  | [] => True
  | r :: l => may_follow p r /\ in_order (Some r) l
  end.

Lemma in_order_snoc p l r :
  in_order p l -> may_follow (match last l with Some q => Some q | None => p end) r ->
  in_order p (l ++ [r]).
Proof using Type.
  revert p. induction l as [|q l IH]; intros p Hl Hr; cbn [app in_order] in *; [by split|].
  destruct Hl as [Hq Hl]. split; [done|]. apply IH; [done|].
  rewrite last_cons in Hr. by destruct (last l).
Qed.

Lemma reports_ordered h :
  in_order None (reports h) /\
  match last (reports h) with
  | None => alarmed h = false
  | Some (k, s, t) =>
      if alarmed h then k <> Resolved /\ s = alarmed_since h /\ t = last_report h else k = Resolved
  end.
Proof using limit_pos.
  induction h as [|o h [IH IHl]]; [done|]. cbn [reports]. unfold reported.
  destruct (alarmed h) eqn:Eh, (alarmed (o :: h)) eqn:Eo.
  - destruct (last (reports h)) as [[[k s] t]|] eqn:El; [|done]. destruct IHl as (Hk & -> & ->).
    cbn [alarmed_since last_report]. rewrite Eh. cbn [andb].
    destruct (Z.leb_spec (last_report h + cooldown) (ob_time o)); cbn [negb].
    + split; [|by rewrite last_snoc]. apply in_order_snoc; [done|]. by rewrite El.
    + rewrite app_nil_r, El. auto.
  - destruct (last (reports h)) as [[[k s] t]|] eqn:El; [|done]. destruct IHl as (Hk & -> & ->).
    split; [|by rewrite last_snoc]. apply in_order_snoc; [done|]. by rewrite El.
  - split.
    + apply in_order_snoc; [done|]. destruct (last (reports h)) as [[[k s] t]|]; [by rewrite IHl|done].
    + rewrite last_snoc. cbn [last_report]. by rewrite Eh.
  - rewrite app_nil_r. split; [done|]. by destruct (last (reports h)) as [[[k s] t]|].
Qed.

(** An alarm is set off by [limit] bad observations in a row, and by nothing
    less. *)
Lemma triggered_after_streak o h s :
  reported o h = Some (Triggered, s) ->
  alarmed h = false /\ ob_bad o = true /\ limit <= Z.of_nat (List.length (streak (o :: h))) /\
  s = List.last (streak (o :: h)) 0.
Proof using limit_pos.
  unfold reported. destruct (alarmed h) eqn:Eh.
  - destruct (alarmed (o :: h)); [|done]. by destruct (_ <=? _).
  - destruct (alarmed (o :: h)) eqn:Eo; [|done]. intros [= <-]. cbn [alarmed alarmed_since] in *.
    rewrite Eh in *. apply Z.leb_le in Eo. split; [done|]. split; [|done].
    cbn [streak] in Eo. destruct (ob_bad o); [done|]. cbn in Eo. lia.
Qed.

Lemma streak_alarms h : limit <= Z.of_nat (List.length (streak h)) -> alarmed h = true.
Proof using limit_pos.
  destruct h as [|o h]; cbn; [lia|]. intros Hl. destruct (alarmed h) eqn:Eh.
  - destruct (ob_bad o); [done|]. cbn in Hl. lia.
  - apply Z.leb_le. exact Hl.
Qed.
End machine.
