(* ===== verification/Monitoring.v ===== *)
(** The monitor ([internal/services/monitoring/manager.go]): metric samples, the
    rules that watch them, the alerts they raise, history, queries and
    retention.  [ServiceHealth] adds the health of services and [Notifier] the
    channels.

    A rule implements the machine of [Alarm]: the theorem on evaluations says
    that the stored state and the recorded events of a rule are those of the
    history of its samples. *)

From S2P Require Import Prelude GoStrings GoText GoFloat Store Alarm.
From stdpp Require Import sorting options.
#[local] Open Scope Z_scope.

(** ** Data *)

Definition MetricCPU : string := "cpu".
Definition MetricMemory : string := "memory".
Definition MetricDisk : string := "disk".
Definition MetricLoad1 : string := "load1".
Definition MetricNetReceive : string := "network_receive".
Definition MetricNetSend : string := "network_send".
Definition MetricDiskRead : string := "disk_read".
Definition MetricDiskWrite : string := "disk_write".
Definition monitorHistoryTargetPoints : Z := 1440.

Definition MonitorStateNormal : string := "normal".
Definition MonitorStatePending : string := "pending".
Definition MonitorStateFiring : string := "firing".
Definition AlertEventTriggered : string := "triggered".
Definition AlertEventReminder : string := "reminder".
Definition AlertEventResolved : string := "resolved".

Record MetricSample := mkSample {
  Sample_ID : Z; CapturedAt : time; CPUPercent : float64; MemoryPercent : float64;
  DiskPercent : float64; Load1 : float64; Load5 : float64; Load15 : float64;
  NetworkReceiveBPS : float64; NetworkSendBPS : float64; DiskReadBPS : float64;
  DiskWriteBPS : float64
}.

(** [UpdatedAt], which gorm maintains and no code reads, is left out of the
    tables; the fields of a rule outside of its table are those of [RuleView]. *)
Record MonitorRule := mkRule {
  R_ID : Z; R_Name : string; R_Metric : string; R_Operator : string; R_Threshold : float64;
  R_RecoveryThreshold : float64; R_ConsecutiveSamples : Z; R_CooldownMinutes : Z;
  R_Severity : string; R_Enabled : bool; R_SilencedUntil : option time; R_CreatedAt : time
}.

Record RuleView := mkRuleView {
  RV_Rule : MonitorRule; CurrentState : string; LastValue : float64;
  LastEvaluatedAt : option time; FiringSince : option time
}.

Record MonitorAlertState := mkState {
  AS_RuleID : Z; AS_State : string; AS_ConsecutiveBreaches : Z; AS_LastValue : float64;
  AS_PendingSince : option time; AS_FiringSince : option time; AS_LastEvaluatedAt : time;
  AS_LastNotifiedAt : option time
}.

Record MonitorAlertEvent := mkEvent {
  E_ID : Z; E_RuleID : Z; E_RuleName : string; E_Metric : string; E_ResourceType : string;
  E_ResourceID : string; E_Severity : string; E_EventType : string; E_Value : float64;
  E_Threshold : float64; E_StartedAt : time; E_OccurredAt : time; E_ResolvedAt : option time;
  E_Message : string
}.

Record ComponentHealthState := mkHealth {
  H_Component : string; H_DisplayName : string; H_SoftwareKey : string; H_ServiceName : string;
  H_SoftwareVersion : string; H_RuntimeVersion : string; H_Installed : bool; H_Busy : bool;
  H_HealthState : string; H_ServiceState : string; H_LoadState : string; H_ActiveState : string;
  H_SubState : string; H_ConsecutiveFailures : Z; H_LastError : string; H_LastCheckedAt : time;
  H_PendingSince : option time; H_FiringSince : option time; H_LastNotifiedAt : option time;
  H_SilencedUntil : option time
}.

Record NotificationChannel := mkChannel {
  Ch_ID : string; Ch_Name : string; Ch_Type : string; Ch_Enabled : bool;
  Ch_ConfigEncrypted : string; Ch_TargetHint : string; Ch_HasSecret : bool; Ch_CreatedAt : time
}.

Record NotificationDelivery := mkDelivery {
  Dl_ID : Z; Dl_EventID : Z; Dl_ChannelID : string; Dl_ChannelName : string; Dl_Status : string;
  Dl_Error : string; Dl_AttemptedAt : time
}.

(** The tables; a sequence counter is the next identifier of its table, which
    is never given twice. *)
Record MonitorTables := mkMonitor {
  samples : list MetricSample; sample_seq : Z;
  rules : list MonitorRule; rule_seq : Z;
  states : list MonitorAlertState;
  events : list MonitorAlertEvent; event_seq : Z;
  health : list ComponentHealthState;
  channels : list NotificationChannel;
  deliveries : list NotificationDelivery; delivery_seq : Z
}.

Definition set_samples (l : list MetricSample) (seq : Z) (t : MonitorTables) : MonitorTables :=
  mkMonitor l seq (rules t) (rule_seq t) (states t) (events t) (event_seq t) (health t)
    (channels t) (deliveries t) (delivery_seq t).
Definition set_rules (l : list MonitorRule) (seq : Z) (t : MonitorTables) : MonitorTables :=
  mkMonitor (samples t) (sample_seq t) l seq (states t) (events t) (event_seq t) (health t)
    (channels t) (deliveries t) (delivery_seq t).
Definition set_states (l : list MonitorAlertState) (t : MonitorTables) : MonitorTables :=
  mkMonitor (samples t) (sample_seq t) (rules t) (rule_seq t) l (events t) (event_seq t) (health t)
    (channels t) (deliveries t) (delivery_seq t).
Definition set_events (l : list MonitorAlertEvent) (seq : Z) (t : MonitorTables) : MonitorTables :=
  mkMonitor (samples t) (sample_seq t) (rules t) (rule_seq t) (states t) l seq (health t)
    (channels t) (deliveries t) (delivery_seq t).
Definition set_health (l : list ComponentHealthState) (t : MonitorTables) : MonitorTables :=
  mkMonitor (samples t) (sample_seq t) (rules t) (rule_seq t) (states t) (events t) (event_seq t) l
    (channels t) (deliveries t) (delivery_seq t).
Definition set_channels (l : list NotificationChannel) (t : MonitorTables) : MonitorTables :=
  mkMonitor (samples t) (sample_seq t) (rules t) (rule_seq t) (states t) (events t) (event_seq t)
    (health t) l (deliveries t) (delivery_seq t).
Definition set_deliveries (l : list NotificationDelivery) (seq : Z) (t : MonitorTables) : MonitorTables :=
  mkMonitor (samples t) (sample_seq t) (rules t) (rule_seq t) (states t) (events t) (event_seq t)
    (health t) (channels t) l seq.

Record RuleInput := mkRuleInput {
  RI_Name : string; RI_Metric : string; RI_Operator : string; RI_Threshold : float64;
  RI_RecoveryThreshold : float64; RI_ConsecutiveSamples : Z; RI_CooldownMinutes : Z;
  RI_Severity : string; RI_Enabled : bool
}.

Definition one_of (s : string) (l : list string) : bool := existsb (String.eqb s) l.

Definition percentage (x : float64) : bool := negb (flt x (of_int 0)) && negb (fgt x (of_int 100)).

Definition validateRule (input : RuleInput) : result unit :=
  let name := TrimSpace (RI_Name input) in
  let above := one_of (RI_Operator input) ["gt"; "gte"] in
  let below := one_of (RI_Operator input) ["lt"; "lte"] in
  if String.eqb name "" || (120 <? len name) then
    Fail (ErrorString "rule name must contain 1 to 120 characters")
  else if negb (one_of (RI_Metric input) [MetricCPU; MetricMemory; MetricDisk; MetricLoad1;
                  MetricNetReceive; MetricNetSend; MetricDiskRead; MetricDiskWrite]) then
    Fail (ErrorString "unsupported monitor metric")
  else if negb (one_of (RI_Operator input) ["gt"; "gte"; "lt"; "lte"]) then
    Fail (ErrorString "operator must be gt, gte, lt, or lte")
  else if negb (finite (RI_Threshold input)) || negb (finite (RI_RecoveryThreshold input)) then
    Fail (ErrorString "thresholds must be finite")
  else if one_of (RI_Metric input) [MetricCPU; MetricMemory; MetricDisk]
          && (negb (percentage (RI_Threshold input)) || negb (percentage (RI_RecoveryThreshold input))) then
    Fail (ErrorString "percentage thresholds must be between 0 and 100")
  else if above && fge (RI_RecoveryThreshold input) (RI_Threshold input) then
    Fail (ErrorString "recovery threshold must be below the firing threshold")
  else if below && fle (RI_RecoveryThreshold input) (RI_Threshold input) then
    Fail (ErrorString "recovery threshold must be above the firing threshold")
  else if (RI_ConsecutiveSamples input <? 1) || (60 <? RI_ConsecutiveSamples input) then
    Fail (ErrorString "consecutive samples must be between 1 and 60")
  else if (RI_CooldownMinutes input <? 1) || (10080 <? RI_CooldownMinutes input) then
    Fail (ErrorString "cooldown must be between 1 and 10080 minutes")
  else if negb (one_of (RI_Severity input) ["info"; "warning"; "critical"]) then
    Fail (ErrorString "severity must be info, warning, or critical")
  else Ok tt.

Definition metricValue (sample : MetricSample) (metric : string) : float64 :=
  if String.eqb metric MetricCPU then CPUPercent sample
  else if String.eqb metric MetricMemory then MemoryPercent sample
  else if String.eqb metric MetricDisk then DiskPercent sample
  else if String.eqb metric MetricLoad1 then Load1 sample
  else if String.eqb metric MetricNetReceive then NetworkReceiveBPS sample
  else if String.eqb metric MetricNetSend then NetworkSendBPS sample
  else if String.eqb metric MetricDiskRead then DiskReadBPS sample
  else if String.eqb metric MetricDiskWrite then DiskWriteBPS sample
  else of_int 0.

Definition comparison (value : float64) (operator : string) (threshold : float64) : bool :=
  if String.eqb operator "gt" then fgt value threshold
  else if String.eqb operator "gte" then fge value threshold
  else if String.eqb operator "lt" then flt value threshold
  else if String.eqb operator "lte" then fle value threshold
  else false.

Definition recoveryComparison (value : float64) (operator : string) (threshold : float64) : bool :=
  if String.eqb operator "gt" || String.eqb operator "gte" then fle value threshold
  else fge value threshold.

Definition reminderDue (last : option time) (cooldownMinutes : Z) (now : time) : bool :=
  match last with
  | None => true
  | Some last => negb (After (last + cooldownMinutes * Minute) now)
  end.

Definition newAlertEvent (rule : MonitorRule) (eventType : string) (value : float64)
    (started occurred : time) (resolved : option time) : MonitorAlertEvent :=
  mkEvent 0 (R_ID rule) (R_Name rule) (R_Metric rule) "" "" (R_Severity rule) eventType value
    (R_Threshold rule) started occurred resolved
    (R_Name rule +:+ ": " +:+ eventType +:+ " value " +:+ format2 value +:+ " (threshold "
     +:+ format2 (R_Threshold rule) +:+ ")").

Definition sanitizeError (err : option error) : string :=
  match err with
  | None => ""
  | Some err =>
      let value := Map (fun char => if (char <? 32) || (char =? 127) then None else Some char) (Error err) in
      if 255 <? len value then take_bytes 255 value else value
  end.

Definition truncateText (value : string) (limit : Z) : string :=
  encode_runes (take (Z.to_nat limit) (runes (TrimSpace value))).

(** ** Evaluation *)

(** [tx.Create(event)] sets the identifier. *)
Definition numbered (id : Z) (event : MonitorAlertEvent) : MonitorAlertEvent :=
  mkEvent id (E_RuleID event) (E_RuleName event) (E_Metric event) (E_ResourceType event)
    (E_ResourceID event) (E_Severity event) (E_EventType event) (E_Value event) (E_Threshold event)
    (E_StartedAt event) (E_OccurredAt event) (E_ResolvedAt event) (E_Message event).

Definition create_event (event : MonitorAlertEvent) (t : MonitorTables)
    : result (MonitorAlertEvent * MonitorTables) :=
  let event := numbered (event_seq t) event in
  Ok (event, set_events (events t ++ [event]) (event_seq t + 1) t).

(** [tx.Save(&state)] replaces the row or inserts it. *)
Definition saved (state : MonitorAlertState) (l : list MonitorAlertState) : list MonitorAlertState :=
  upsert Z.eqb AS_RuleID state l.

Definition save_state (state : MonitorAlertState) (t : MonitorTables) : result (unit * MonitorTables) :=
  Ok (tt, set_states (saved state (states t)) t).

Definition state_of (ruleID : Z) (t : MonitorTables) : option MonitorAlertState :=
  List.find (fun s => AS_RuleID s =? ruleID) (states t).

(** The switch of [evaluateRule] (330-382): the new state, and the event with
    whether to notify. *)
Definition advance_rule (rule : MonitorRule) (value : float64) (now : time)
    (state : MonitorAlertState) : MonitorAlertState * option MonitorAlertEvent :=
  let put st count pending firing notified :=
    mkState (AS_RuleID state) st count value pending firing now notified in
  let breached := comparison value (R_Operator rule) (R_Threshold rule) in
  let recovered := recoveryComparison value (R_Operator rule) (R_RecoveryThreshold rule) in
  if String.eqb (AS_State state) MonitorStateFiring then
    let started := default now (AS_FiringSince state) in
    if negb breached && recovered then
      (put MonitorStateNormal 0 None None (Some now),
       Some (newAlertEvent rule AlertEventResolved value started now (Some now)))
    else if reminderDue (AS_LastNotifiedAt state) (R_CooldownMinutes rule) now then
      (put (AS_State state) (AS_ConsecutiveBreaches state) (AS_PendingSince state)
         (AS_FiringSince state) (Some now),
       Some (newAlertEvent rule AlertEventReminder value started now None))
    else
      (put (AS_State state) (AS_ConsecutiveBreaches state) (AS_PendingSince state)
         (AS_FiringSince state) (AS_LastNotifiedAt state), None)
  else if negb breached then
    (put MonitorStateNormal 0 None (AS_FiringSince state) (AS_LastNotifiedAt state), None)
  else
    let pending := String.eqb (AS_State state) MonitorStatePending in
    let count := (if pending then AS_ConsecutiveBreaches state else 0) + 1 in
    let since := if pending then AS_PendingSince state else Some now in
    if R_ConsecutiveSamples rule <=? count then
      let started := default now since in
      (put MonitorStateFiring count since (Some started) (Some now),
       Some (newAlertEvent rule AlertEventTriggered value started now None))
    else (put MonitorStatePending count since (AS_FiringSince state) (AS_LastNotifiedAt state), None).

Definition new_state (ruleID : Z) : MonitorAlertState :=
  mkState ruleID MonitorStateNormal 0 (of_int 0) None None 0 None.

Definition silenced (rule : MonitorRule) (now : time) : bool :=
  match R_SilencedUntil rule with Some until => After until now | None => false end.

(** An event is to be notified unless the rule is silenced. *)
Definition evaluateRule (rule : MonitorRule) (sample : MetricSample)
    : M MonitorTables (option MonitorAlertEvent * bool) :=
  let value := metricValue sample (R_Metric rule) in
  let now := CapturedAt sample in
  let* event := transaction
    (let* found := attempt (first (state_of (R_ID rule))) in
     let proceed state :=
       let '(state, event) := advance_rule rule value now state in
       let* event :=
         match event with
         | Some event => let* event := exec (create_event event) in ret (Some event)
         | None => ret None
         end in
       let* _ := exec (save_state state) in
       ret event in
     match found with
     | Ok state => proceed state
     | Fail err => if is_not_found err then proceed (new_state (R_ID rule)) else fail err
     end) in
  ret (event, match event with Some _ => negb (silenced rule now) | None => false end).

Definition created_first (a b : NotificationChannel) : Prop := Ch_CreatedAt a <= Ch_CreatedAt b.
#[global] Instance created_first_dec : RelDecision created_first.
Proof. intros a b. unfold created_first. apply _. Defined.

Definition by_rule_id (a b : MonitorRule) : Prop := R_ID a <= R_ID b.
#[global] Instance by_rule_id_dec : RelDecision by_rule_id.
Proof. intros a b. unfold by_rule_id. apply _. Defined.

Definition create_delivery (delivery : NotificationDelivery) (t : MonitorTables)
    : result (unit * MonitorTables) :=
  Ok (tt, set_deliveries (deliveries t ++ [mkDelivery (delivery_seq t) (Dl_EventID delivery)
    (Dl_ChannelID delivery) (Dl_ChannelName delivery) (Dl_Status delivery) (Dl_Error delivery)
    (Dl_AttemptedAt delivery)]) (delivery_seq t + 1) t).

Section manager.
(** [manager.sender.Send], and the clock of an attempt. *)
Variable Send : NotificationChannel -> MonitorAlertEvent -> option error.
Variable attempted : NotificationChannel -> MonitorAlertEvent -> time.

Fixpoint deliver_to (event : MonitorAlertEvent) (channels : list NotificationChannel)
    : M MonitorTables unit :=
  match channels with
  | [] => ret tt
  | channel :: channels =>
      let err := Send channel event in
      let delivery := mkDelivery 0 (E_ID event) (Ch_ID channel) (Ch_Name channel)
        (match err with Some _ => "failed" | None => "success" end)
        (sanitizeError err) (attempted channel event) in
      let* _ := attempt (exec (create_delivery delivery)) in
      deliver_to event channels
  end.

Definition deliver (event : MonitorAlertEvent) : M MonitorTables unit :=
  let* listed := attempt (read (fun t =>
    merge_sort created_first (List.filter Ch_Enabled (channels t)))) in
  match listed with
  | Fail _ => ret tt
  | Ok channels => deliver_to event channels
  end.

(** One rule of the loop of [evaluate]. *)
Definition evaluate_one (rule : MonitorRule) (sample : MetricSample) : M MonitorTables unit :=
  let* evaluated := evaluateRule rule sample in
  match evaluated with
  | (Some event, true) => deliver event
  | _ => ret tt
  end.

Fixpoint evaluate_rules (rules : list MonitorRule) (sample : MetricSample) : M MonitorTables unit :=
  match rules with
  | [] => ret tt
  | rule :: rules =>
      let* _ := evaluate_one rule sample in
      evaluate_rules rules sample
  end.

Definition evaluate (sample : MetricSample) : M MonitorTables unit :=
  let* rules := read (fun t => merge_sort by_rule_id (List.filter R_Enabled (rules t))) in
  evaluate_rules rules sample.

Definition truncate_second (t : time) : time := t - t mod Second.

Definition with_captured (id : Z) (at' : time) (s : MetricSample) : MetricSample :=
  mkSample id at' (CPUPercent s) (MemoryPercent s) (DiskPercent s) (Load1 s) (Load5 s) (Load15 s)
    (NetworkReceiveBPS s) (NetworkSendBPS s) (DiskReadBPS s) (DiskWriteBPS s).

Definition create_sample (sample : MetricSample) (t : MonitorTables)
    : result (MetricSample * MonitorTables) :=
  let sample := with_captured (sample_seq t) (CapturedAt sample) sample in
  Ok (sample, set_samples (samples t ++ [sample]) (sample_seq t + 1) t).

(** [collected] is what the collector returned. *)
Definition CollectNow (now : time) (collected : result MetricSample) : M MonitorTables MetricSample :=
  match collected with
  | Fail err => fail err
  | Ok sample =>
      let captured := truncate_second (CapturedAt sample) in
      let captured := if IsZero captured then truncate_second now else captured in
      let* sample := wrapping "persist metric sample"
        (exec (create_sample (with_captured (Sample_ID sample) captured sample))) in
      let* _ := evaluate sample in
      ret sample
  end.

(** [models.CronJob] and [models.JobExecution], as far as they are read. *)
Record FailedTask := mkTask {
  FT_JobID : Z; FT_JobName : string; FT_ExecutionID : Z; FT_Status : string; FT_ErrorCode : string;
  FT_ExitCode : Z; FT_StartTime : time; FT_EndTime : time
}.

Definition NotifyTaskFailure (now : time) (task : option FailedTask) : M MonitorTables unit :=
  match task with
  | None => fail (ErrorString "task failure notification is incomplete")
  | Some task =>
      if negb (one_of (FT_Status task) ["failed"; "timeout"]) then
        fail (ErrorString "only failed or timed out tasks can trigger notifications")
      else
        let occurredAt := if IsZero (FT_EndTime task) then now else FT_EndTime task in
        let severity := if String.eqb (FT_Status task) "failed" then "critical" else "warning" in
        let event := mkEvent 0 0 ("计划任务：" +:+ truncateText (FT_JobName task) 108) "cron_task" "" ""
          severity AlertEventTriggered (of_int (FT_ExitCode task)) (of_int 0) (FT_StartTime task)
          occurredAt None
          (truncateText ("计划任务 #" +:+ Itoa (FT_JobID task) +:+ " 执行 #" +:+ Itoa (FT_ExecutionID task)
             +:+ " " +:+ FT_Status task +:+ "（" +:+ FT_ErrorCode task +:+ "）") 255) in
        let* event := wrapping "persist task failure alert" (exec (create_event event)) in
        deliver event
  end.
End manager.

(** ** Rules *)

Definition apply_input (input : RuleInput) (r : MonitorRule) : MonitorRule :=
  mkRule (R_ID r) (TrimSpace (RI_Name input)) (RI_Metric input) (RI_Operator input)
    (RI_Threshold input) (RI_RecoveryThreshold input) (RI_ConsecutiveSamples input)
    (RI_CooldownMinutes input) (RI_Severity input) (RI_Enabled input) (R_SilencedUntil r)
    (R_CreatedAt r).

Definition create_rule (rule : MonitorRule) (t : MonitorTables) : result (MonitorRule * MonitorTables) :=
  let rule := mkRule (rule_seq t) (R_Name rule) (R_Metric rule) (R_Operator rule) (R_Threshold rule)
    (R_RecoveryThreshold rule) (R_ConsecutiveSamples rule) (R_CooldownMinutes rule)
    (R_Severity rule) (R_Enabled rule) (R_SilencedUntil rule) (R_CreatedAt rule) in
  Ok (rule, set_rules (rules t ++ [rule]) (rule_seq t + 1) t).

Definition CreateRule (now : time) (input : RuleInput) : M MonitorTables MonitorRule :=
  match validateRule input with
  | Fail err => fail err
  | Ok _ =>
      exec (create_rule (apply_input input
        (mkRule 0 "" "" "" (of_int 0) (of_int 0) 0 0 "" false None now)))
  end.

Definition rule_of (id : Z) (t : MonitorTables) : option MonitorRule :=
  List.find (fun r => R_ID r =? id) (rules t).

Definition delete_states (id : Z) (t : MonitorTables) : result (unit * MonitorTables) :=
  Ok (tt, set_states (List.filter (fun s => negb (AS_RuleID s =? id)) (states t)) t).

Definition update_rules (id : Z) (f : MonitorRule -> MonitorRule) (t : MonitorTables)
    : result (Z * MonitorTables) :=
  Ok (Z.of_nat (List.length (List.filter (fun r => R_ID r =? id) (rules t))),
      set_rules (map (fun r => if R_ID r =? id then f r else r) (rules t)) (rule_seq t) t).

(** [byRule]: of several states of a rule the last read wins. *)
Definition attach (states : list MonitorAlertState) (rule : MonitorRule) : RuleView :=
  match last (List.filter (fun s => AS_RuleID s =? R_ID rule) states) with
  | None => mkRuleView rule MonitorStateNormal (of_int 0) None None
  | Some s => mkRuleView rule (AS_State s) (AS_LastValue s) (Some (AS_LastEvaluatedAt s)) (AS_FiringSince s)
  end.

Definition attachRuleStates (rules : list MonitorRule) : M MonitorTables (list RuleView) :=
  match rules with
  | [] => ret []
  | _ =>
      let* found := read (fun t => List.filter (fun s =>
        existsb (fun r => R_ID r =? AS_RuleID s) rules) (states t)) in
      ret (map (attach found) rules)
  end.

Definition GetRule (id : Z) : M MonitorTables RuleView :=
  let* rule := first (rule_of id) in
  let* views := attachRuleStates [rule] in
  match views with
  | view :: _ => ret view
  | [] => ret (mkRuleView rule MonitorStateNormal (of_int 0) None None)
  end.

Definition newest_rule (a b : MonitorRule) : Prop := R_CreatedAt b <= R_CreatedAt a.
#[global] Instance newest_rule_dec : RelDecision newest_rule.
Proof. intros a b. unfold newest_rule. apply _. Defined.

Definition ListRules : M MonitorTables (list RuleView) :=
  let* rules := read (fun t => merge_sort newest_rule (rules t)) in
  attachRuleStates rules.

Definition UpdateRule (id : Z) (input : RuleInput) : M MonitorTables RuleView :=
  if id =? 0 then fail (ErrorString "rule id is required")
  else
    match validateRule input with
    | Fail err => fail err
    | Ok _ =>
        let* _ := first (rule_of id) in
        let* _ := transaction
          (let* _ := exec (update_rules id (apply_input input)) in
           exec (delete_states id)) in
        GetRule id
    end.

Definition delete_rules (id : Z) (t : MonitorTables) : result (Z * MonitorTables) :=
  Ok (Z.of_nat (List.length (List.filter (fun r => R_ID r =? id) (rules t))),
      set_rules (List.filter (fun r => negb (R_ID r =? id)) (rules t)) (rule_seq t) t).

Definition DeleteRule (id : Z) : M MonitorTables unit :=
  transaction
    (let* affected := exec (delete_rules id) in
     if affected =? 0 then fail (Sentinel ErrRecordNotFound) else exec (delete_states id)).

Definition silence (until : option time) (r : MonitorRule) : MonitorRule :=
  mkRule (R_ID r) (R_Name r) (R_Metric r) (R_Operator r) (R_Threshold r) (R_RecoveryThreshold r)
    (R_ConsecutiveSamples r) (R_CooldownMinutes r) (R_Severity r) (R_Enabled r) until (R_CreatedAt r).

(** [now] and [now']: the two readings of the clock. *)
Definition bad_silence (now now' : time) (until : option time) : bool :=
  match until with
  | Some value => Before value now || After value (now' + 30 * 24 * Hour)
  | None => false
  end.

Definition SilenceRule (now now' : time) (id : Z) (until : option time) : M MonitorTables unit :=
  if bad_silence now now' until then
    fail (ErrorString "silence expiry must be in the future and within 30 days")
  else
    let* affected := exec (update_rules id (silence until)) in
    if affected =? 0 then fail (Sentinel ErrRecordNotFound) else ret tt.

(** ** Samples and their history *)

Definition latest_sample (a b : MetricSample) : Prop :=
  CapturedAt b < CapturedAt a \/ CapturedAt b = CapturedAt a /\ Sample_ID b <= Sample_ID a.
#[global] Instance latest_sample_dec : RelDecision latest_sample.
Proof. intros a b. unfold latest_sample. apply _. Defined.

Definition within (from to : time) (s : MetricSample) : bool :=
  (IsZero from || (from <=? CapturedAt s)) && (IsZero to || (CapturedAt s <=? to)).

Definition Metrics (from to : time) (limit : Z) : M MonitorTables (list MetricSample) :=
  let limit := if limit <? 1 then 2000 else limit in
  let limit := if 10000 <? limit then 10000 else limit in
  read (fun t => rev (take (Z.to_nat limit)
    (merge_sort latest_sample (List.filter (within from to) (samples t))))).

(** Group, key, label, unit and value of a series. *)
Definition metricHistorySeriesDefinitions
    : list (string * string * string * string * (MetricSample -> float64)) := [
  ("cpu", "cpuPercent", "CPU 使用率", "%", CPUPercent);
  ("memory", "memoryPercent", "内存使用率", "%", MemoryPercent);
  ("load", "load1", "1 分钟负载", "", Load1);
  ("load", "load5", "5 分钟负载", "", Load5);
  ("load", "load15", "15 分钟负载", "", Load15);
  ("network", "networkReceiveBps", "网络接收", "B/s", NetworkReceiveBPS);
  ("network", "networkSendBps", "网络发送", "B/s", NetworkSendBPS);
  ("disk", "diskPercent", "磁盘使用率", "%", DiskPercent);
  ("disk", "diskReadBps", "磁盘读取", "B/s", DiskReadBPS);
  ("disk", "diskWriteBps", "磁盘写入", "B/s", DiskWriteBPS)].

(** The sums are kept in the order of the definitions. *)
Record historyBucket := mkBucket { bk_start : time; bk_count : Z; bk_totals : list float64 }.

Record HistorySeries := mkSeries {
  HS_Group : string; HS_Key : string; HS_Label : string; HS_Unit : string;
  HS_Points : list (time * float64)
}.

Record HistoryResponse := mkHistory {
  HR_From : time; HR_To : time; HR_BucketSeconds : Z; HR_SampleCount : Z; HR_BucketCount : Z;
  HR_Series : list HistorySeries
}.

Definition sample_values (s : MetricSample) : list float64 :=
  map (fun d => d.2 s) metricHistorySeriesDefinitions.

Definition add_sample (s : MetricSample) (b : historyBucket) : historyBucket :=
  mkBucket (bk_start b) (bk_count b + 1) (zip_with fadd (bk_totals b) (sample_values s)).

Definition empty_bucket (start : time) : historyBucket :=
  mkBucket start 0 (map (fun _ => of_int 0) metricHistorySeriesDefinitions).

Definition bucket_start (from : time) (bucketDuration : duration) (s : MetricSample) : time :=
  let bucketOffset := Z.quot (CapturedAt s - from) bucketDuration in
  let bucketOffset := if bucketOffset <? 0 then 0 else bucketOffset in
  from + bucketOffset * bucketDuration.

(** The loop of [History]; [done] are the finished buckets, latest first, and
    [current] the one that grows. *)
Fixpoint bucket_loop (from : time) (bucketDuration : duration) (samples : list MetricSample)
    (current : option historyBucket) (done : list historyBucket) : list historyBucket :=
  match samples with
  | [] => rev (match current with Some b => b :: done | None => done end)
  | s :: samples =>
      let startAt := bucket_start from bucketDuration s in
      match current with
      | Some b =>
          if bk_start b =? startAt then
            bucket_loop from bucketDuration samples (Some (add_sample s b)) done
          else bucket_loop from bucketDuration samples (Some (add_sample s (empty_bucket startAt))) (b :: done)
      | None => bucket_loop from bucketDuration samples (Some (add_sample s (empty_bucket startAt))) done
      end
  end.

(** Whole seconds over the number of points, rounded up, at least a minute. *)
Definition bucket_seconds (span : duration) : Z :=
  let bucketSeconds := ceil_int (fdiv (of_int (span / Second)) (of_int monitorHistoryTargetPoints)) in
  if bucketSeconds <? 60 then 60 else bucketSeconds.

Definition series_of (buckets : list historyBucket) : list HistorySeries :=
  imap (fun i d =>
    let '(group, key, label, unit, _) := d in
    mkSeries group key label unit
      (map (fun b => (bk_start b, fdiv (nth i (bk_totals b) (of_int 0)) (of_int (bk_count b)))) buckets))
    metricHistorySeriesDefinitions.

Definition earliest_sample (a b : MetricSample) : Prop :=
  CapturedAt a < CapturedAt b \/ CapturedAt a = CapturedAt b /\ Sample_ID a <= Sample_ID b.
#[global] Instance earliest_sample_dec : RelDecision earliest_sample.
Proof. intros a b. unfold earliest_sample. apply _. Defined.

Definition History (from to : time) : M MonitorTables HistoryResponse :=
  let from := truncate_second from in
  let to := truncate_second to in
  if IsZero from || IsZero to then fail (ErrorString "history range is required")
  else if Before to from then fail (ErrorString "history range end must not be before start")
  else if 31 * 24 * Hour <? to - from then fail (ErrorString "history range must not exceed 31 days")
  else
    let* samples := read (fun t => merge_sort earliest_sample
      (List.filter (fun s => (from <=? CapturedAt s) && (CapturedAt s <=? to)) (samples t))) in
    let bucketSeconds := bucket_seconds (to - from) in
    let buckets := bucket_loop from (bucketSeconds * Second) samples None [] in
    ret (mkHistory from to bucketSeconds (Z.of_nat (List.length samples))
           (Z.of_nat (List.length buckets)) (series_of buckets)).

(** ** Queries *)

Record EventFilter := mkFilter {
  F_Page : Z; F_PageSize : Z; F_RuleID : Z; F_EventType : string; F_Severity : string;
  F_ResourceType : string; F_ResourceID : string
}.

Record page (A : Type) := mkPage {
  pg_Data : list A; pg_Total : Z; pg_Page : Z; pg_PageSize : Z; pg_TotalPages : Z
}.
Arguments mkPage {A} _ _ _ _ _.
Arguments pg_Data {A} _.
Arguments pg_Total {A} _.

Definition clamp_page (n : Z) : Z := if n <? 1 then 1 else n.
Definition clamp_size (n : Z) : Z :=
  let n := if n <? 1 then 20 else n in if 100 <? n then 100 else n.
Definition total_pages (total pageSize : Z) : Z := ceil_int (fdiv (of_int total) (of_int pageSize)).

(** [Offset] and [Limit]; gorm leaves an offset out that is not positive. *)
Definition paginate {A} (page pageSize : Z) (l : list A) : list A :=
  take (Z.to_nat pageSize) (drop (Z.to_nat (i64 ((page - 1) * pageSize))) l).

Definition event_filter (f : EventFilter) (e : MonitorAlertEvent) : bool :=
  let same want got := String.eqb want "" || String.eqb got want in
  (negb (0 <? F_RuleID f) || (E_RuleID e =? F_RuleID f)) && same (F_EventType f) (E_EventType e)
  && same (F_Severity f) (E_Severity e) && same (F_ResourceType f) (E_ResourceType e)
  && same (F_ResourceID f) (E_ResourceID e).

Definition latest_event (a b : MonitorAlertEvent) : Prop := E_OccurredAt b <= E_OccurredAt a.
#[global] Instance latest_event_dec : RelDecision latest_event.
Proof. intros a b. unfold latest_event. apply _. Defined.

Definition Events (f : EventFilter) : M MonitorTables (page MonitorAlertEvent) :=
  let pageNumber := clamp_page (F_Page f) in
  let pageSize := clamp_size (F_PageSize f) in
  let* total := read (fun t => Z.of_nat (List.length (List.filter (event_filter f) (events t)))) in
  let* data := read (fun t => paginate pageNumber pageSize
    (merge_sort latest_event (List.filter (event_filter f) (events t)))) in
  ret (mkPage data total pageNumber pageSize (total_pages total pageSize)).

Definition latest_delivery (a b : NotificationDelivery) : Prop := Dl_AttemptedAt b <= Dl_AttemptedAt a.
#[global] Instance latest_delivery_dec : RelDecision latest_delivery.
Proof. intros a b. unfold latest_delivery. apply _. Defined.

Definition Deliveries (pageNumber pageSize : Z) (status : string)
    : M MonitorTables (page NotificationDelivery) :=
  let pageNumber := clamp_page pageNumber in
  let pageSize := clamp_size pageSize in
  let wanted d := String.eqb status "" || String.eqb (Dl_Status d) status in
  let* total := read (fun t => Z.of_nat (List.length (List.filter wanted (deliveries t)))) in
  let* data := read (fun t => paginate pageNumber pageSize
    (merge_sort latest_delivery (List.filter wanted (deliveries t)))) in
  ret (mkPage data total pageNumber pageSize (total_pages total pageSize)).

Record MonitorSummary := mkSummary {
  Sum_Latest : option MetricSample; RuleCount : Z; EnabledRules : Z; FiringCount : Z;
  PendingCount : Z; ServiceFiringCount : Z; ServicePendingCount : Z; Last24Hours : Z
}.

Definition count_where {A} (c : A -> bool) (get : MonitorTables -> list A) : M MonitorTables Z :=
  read (fun t => Z.of_nat (List.length (List.filter c (get t)))).

Definition Summary (now : time) : M MonitorTables MonitorSummary :=
  let in_state st (s : MonitorAlertState) := String.eqb (AS_State s) st in
  let service st (h : ComponentHealthState) := H_Installed h && String.eqb (H_HealthState h) st in
  let* latest := attempt (first (fun t => head (merge_sort latest_sample (samples t)))) in
  let* latest :=
    match latest with
    | Ok sample => ret (Some sample)
    | Fail err => if is_not_found err then ret None else fail err
    end in
  let* ruleCount := count_where (fun _ => true) rules in
  let* enabled := count_where R_Enabled rules in
  let* firing := count_where (in_state MonitorStateFiring) states in
  let* pending := count_where (in_state MonitorStatePending) states in
  let* serviceFiring := count_where (service MonitorStateFiring) health in
  let* servicePending := count_where (service MonitorStatePending) health in
  let* last24 := count_where (fun e => now - 24 * Hour <=? E_OccurredAt e) events in
  ret (mkSummary latest ruleCount enabled firing pending serviceFiring servicePending last24).

(** ** Retention *)

Definition delete_samples (cutoff : time) (t : MonitorTables) : result (unit * MonitorTables) :=
  Ok (tt, set_samples (List.filter (fun s => negb (CapturedAt s <? cutoff)) (samples t)) (sample_seq t) t).

Definition delete_deliveries (ids : list Z) (t : MonitorTables) : result (unit * MonitorTables) :=
  Ok (tt, set_deliveries (List.filter (fun d => negb (existsb (Z.eqb (Dl_EventID d)) ids)) (deliveries t))
    (delivery_seq t) t).

Definition delete_events (ids : list Z) (t : MonitorTables) : result (unit * MonitorTables) :=
  Ok (tt, set_events (List.filter (fun e => negb (existsb (Z.eqb (E_ID e)) ids)) (events t))
    (event_seq t) t).

Definition Cleanup (now now' : time) (retentionDays alertRetention : Z) : M MonitorTables unit :=
  let metricCutoff := AddDays now (- retentionDays) in
  let alertCutoff := AddDays now' (- alertRetention) in
  transaction
    (let* _ := exec (delete_samples metricCutoff) in
     let* eventIDs := read (fun t => map E_ID
       (List.filter (fun e => E_OccurredAt e <? alertCutoff) (events t))) in
     match eventIDs with
     | [] => ret tt
     | _ =>
         let* _ := exec (delete_deliveries eventIDs) in
         exec (delete_events eventIDs)
     end).

(** ** Rules implement alarms *)

Definition report_name (k : report) : string :=
  match k with
  | Triggered => AlertEventTriggered
  | Reminder => AlertEventReminder
  | Resolved => AlertEventResolved
  end.

Definition report_event (rule : MonitorRule) (value : float64) (now : time) (r : report * time)
    : MonitorAlertEvent :=
  newAlertEvent rule (report_name r.1) value r.2 now
    (match r.1 with Resolved => Some now | _ => None end).

(** What a sample is to a rule. *)
Definition observed (rule : MonitorRule) (sample : MetricSample) : observation :=
  let value := metricValue sample (R_Metric rule) in
  mkObs (comparison value (R_Operator rule) (R_Threshold rule))
    (recoveryComparison value (R_Operator rule) (R_RecoveryThreshold rule)) (CapturedAt sample).

(** The stored row stands for the state of an alarm. *)
Definition represents (s : MonitorAlertState) (a : alarm) : Prop :=
  match a with
  | Quiet => AS_State s = MonitorStateNormal
  | Waiting count since =>
      AS_State s = MonitorStatePending /\ AS_ConsecutiveBreaches s = count /\
      AS_PendingSince s = Some since
  | Firing since last =>
      AS_State s = MonitorStateFiring /\ AS_FiringSince s = Some since /\
      AS_LastNotifiedAt s = Some last
  end.

Definition rule_step (rule : MonitorRule) : alarm -> observation -> alarm * option (report * time) :=
  alarm_step (R_ConsecutiveSamples rule) (R_CooldownMinutes rule * Minute).

Lemma reminderDue_spec last minutes now :
  reminderDue (Some last) minutes now = (last + minutes * Minute <=? now).
Proof. unfold reminderDue, After. by rewrite Z.leb_antisym. Qed.

Lemma advance_rule_refines rule sample s a :
  represents s a ->
  let '(s', event) := advance_rule rule (metricValue sample (R_Metric rule)) (CapturedAt sample) s in
  let '(a', r) := rule_step rule a (observed rule sample) in
  represents s' a' /\ AS_RuleID s' = AS_RuleID s /\
  event = option_map (report_event rule (metricValue sample (R_Metric rule)) (CapturedAt sample)) r.
Proof.
  unfold advance_rule, rule_step, alarm_step, bad_step, observed. cbn [ob_bad ob_good ob_time].
  set (value := metricValue sample (R_Metric rule)). set (now := CapturedAt sample).
  destruct a as [|count since|since last]; cbn [represents].
  - intros ->. cbn [String.eqb Ascii.eqb Bool.eqb MonitorStateNormal MonitorStateFiring MonitorStatePending].
    destruct (comparison _ _ _); cbn [negb]; [|done].
    change (0 + 1) with 1. by destruct (_ <=? 1).
  - intros (-> & -> & ->). cbn.
    destruct (comparison _ _ _); cbn [negb]; [|done]. by destruct (_ <=? _).
  - intros (-> & -> & ->). cbn -[reminderDue]. rewrite reminderDue_spec.
    destruct (_ && _); [done|]. by destruct (_ <=? _).
Qed.

(** ** One evaluation, under any faults *)

Lemma find_saved state l id :
  List.find (fun s => AS_RuleID s =? id) (saved state l) =
    if AS_RuleID state =? id then Some state else List.find (fun s => AS_RuleID s =? id) l.
Proof. apply (find_upsert Z.eqb AS_RuleID Z.eqb_spec). Qed.

Definition recorded (event : option MonitorAlertEvent) (t : MonitorTables) : MonitorTables :=
  match event with
  | Some e => set_events (events t ++ [numbered (event_seq t) e]) (event_seq t + 1) t
  | None => t
  end.

(** The transaction that rules and services share: a row is looked up or made,
    steps, its event is inserted and it is saved. *)
Section alert_row.
Context {S : Type} (find : MonitorTables -> option S) (new : S).
Context (step : S -> S * option MonitorAlertEvent) (put : S -> MonitorTables -> MonitorTables).

Lemma alert_row_Ok w ev w' :
  transaction
    (let* found := attempt (first find) in
     let proceed state :=
       let '(state, event) := step state in
       let* event :=
         match event with
         | Some event => let* event := exec (create_event event) in ret (Some event)
         | None => ret None
         end in
       let* _ := exec (fun t => Ok (tt, put state t)) in
       ret event in
     match found with
     | Ok state => proceed state
     | Fail err => if is_not_found err then proceed new else fail err
     end) w = (Ok ev, w') ->
  let '(s, event) := step (default new (find (tables w))) in
  ev = option_map (numbered (event_seq (tables w))) event /\
  tables w' = put s (recorded event (tables w)).
Proof using Type.
  intros (v & v' & Hv & E & Hv')%transaction_Ok. rewrite Hv', <- Hv.
  apply bind_Ok in E as (found & v1 & E1%attempt_Ok & E).
  assert (Hstate : tables v1 = tables v /\
    (let '(state, event) := step (default new (find (tables v))) in
     let* event := match event with
                   | Some event => let* event := exec (create_event event) in ret (Some event)
                   | None => ret None
                   end in
     let* _ := exec (fun t => Ok (tt, put state t)) in ret event) v1 = (Ok ev, v')).
  { destruct found as [s|e].
    - apply first_Ok in E1 as [Hs Ht]. by rewrite Hs.
    - destruct (is_not_found e) eqn:En; [|done]. apply first_not_found in E1 as [Hs Ht]; [|done].
      by rewrite Hs. }
  clear E E1. destruct Hstate as (Hv1 & E). rewrite <- Hv1 in *.
  destruct (step _) as [s [event|]]; apply bind_Ok in E as (x & v2 & Ec & E);
    apply bind_Ok in E as ([] & v3 & Es%statement_Ok & E); injection Es as Es;
    apply ret_Ok in E as [<- ->]; rewrite <- Es.
  - apply bind_Ok in Ec as (y & v4 & Ec%statement_Ok & Ey). injection Ec as <- Ec.
    apply ret_Ok in Ey as [<- ->]. by rewrite <- Ec.
  - by apply ret_Ok in Ec as [<- ->].
Qed.
End alert_row.

Lemma evaluateRule_cases rule sample w r w' :
  evaluateRule rule sample w = (r, w') ->
  (exists e, r = Fail e /\ tables w' = tables w) \/
  exists s0 s event notify,
    s0 = default (new_state (R_ID rule)) (state_of (R_ID rule) (tables w)) /\
    advance_rule rule (metricValue sample (R_Metric rule)) (CapturedAt sample) s0 = (s, event) /\
    r = Ok (option_map (numbered (event_seq (tables w))) event, notify) /\
    tables w' = set_states (saved s (states (tables w))) (recorded event (tables w)).
Proof.
  unfold evaluateRule, bind at 1. intros E.
  match type of E with (let (_, _) := ?m w in _) = _ => destruct (m w) as [[ev|e] w1] eqn:Etx end.
  2: { injection E as <- <-. left. exists e. split; [done|]. by apply transaction_Fail in Etx. }
  injection E as <- <-. right.
  apply (alert_row_Ok (state_of (R_ID rule)) (new_state (R_ID rule)) _
    (fun s t => set_states (saved s (states t)) t)) in Etx.
  destruct (advance_rule _ _ _ _) as [s event] eqn:Ea. destruct Etx as [-> Ht].
  eexists _, s, event, _. split; [reflexivity|]. split; [exact Ea|]. split; [by destruct event|].
  rewrite Ht. by destruct event.
Qed.

(** ** A run of evaluations *)

Section evaluations.
Variable Send : NotificationChannel -> MonitorAlertEvent -> option error.
Variable attempted : NotificationChannel -> MonitorAlertEvent -> time.

(** Delivery writes deliveries only. *)
Lemma deliver_keeps event :
  forall w, states (tables (deliver Send attempted event w).2) = states (tables w) /\
            events (tables (deliver Send attempted event w).2) = events (tables w).
Proof.
  intros w. set (I := fun t => states t = states (tables w) /\ events t = events (tables w)).
  assert (Hd : forall l, preserves I (deliver_to Send attempted event l)).
  { induction l as [|c l IH]; cbn [deliver_to]; preserving.
    apply preserves_exec. by intros t [] t' [= <-]. }
  assert (H : preserves I (deliver Send attempted event)) by (unfold deliver; preserving; apply Hd).
  by apply H.
Qed.

(** Evaluations one after the other, whatever they answer, with those that
    succeeded, latest first. *)
Fixpoint evaluate_all (ops : list (MonitorRule * MetricSample)) (w : world MonitorTables)
    (seen : list (MonitorRule * MetricSample)) : world MonitorTables * list (MonitorRule * MetricSample) :=
  match ops with
  | [] => (w, seen)
  | (rule, sample) :: ops =>
      let '(r, w') := evaluate_one Send attempted rule sample w in
      evaluate_all ops w' (if is_ok r then (rule, sample) :: seen else seen)
  end.

(** The history of one rule among them. *)
Definition history_of (rule : MonitorRule) (seen : list (MonitorRule * MetricSample)) : list observation :=
  map (fun op => observed rule op.2) (List.filter (fun op => R_ID op.1 =? R_ID rule) seen).

Definition reports_of (rule : MonitorRule) (t : MonitorTables) : list (string * time * time) :=
  map (fun e => (E_EventType e, E_StartedAt e, E_OccurredAt e))
    (List.filter (fun e => E_RuleID e =? R_ID rule) (events t)).

Definition named (r : report * time * time) : string * time * time :=
  let '(k, s, t) := r in (report_name k, s, t).

(** Rows and events of a rule are those of a history. *)
Definition agrees (rule : MonitorRule) (before : list (string * time * time)) (t : MonitorTables)
    (h : list observation) : Prop :=
  represents (default (new_state (R_ID rule)) (state_of (R_ID rule) t))
    (alarm_of (R_ConsecutiveSamples rule) (R_CooldownMinutes rule * Minute) h) /\
  reports_of rule t =
    before ++ map named (reports (R_ConsecutiveSamples rule) (R_CooldownMinutes rule * Minute) h).

Lemma agrees_same rule before t t' h :
  states t' = states t -> events t' = events t -> agrees rule before t h -> agrees rule before t' h.
Proof. unfold agrees, state_of, reports_of. by intros -> ->. Qed.

Lemma agrees_step rule before t h sample s0 s event :
  1 <= R_ConsecutiveSamples rule ->
  s0 = default (new_state (R_ID rule)) (state_of (R_ID rule) t) ->
  advance_rule rule (metricValue sample (R_Metric rule)) (CapturedAt sample) s0 = (s, event) ->
  agrees rule before t h ->
  agrees rule before (set_states (saved s (states t)) (recorded event t)) (observed rule sample :: h).
Proof.
  intros Hn -> Ea [Hr He]. pose proof (advance_rule_refines rule sample _ _ Hr) as Hstep.
  rewrite Ea in Hstep. unfold rule_step in Hstep. rewrite alarm_step_of in Hstep by done.
  destruct Hstep as (Hs & Hid & ->). split.
  - unfold state_of. cbn [states set_states]. rewrite find_saved, Hid.
    assert (Hrid : AS_RuleID (default (new_state (R_ID rule)) (state_of (R_ID rule) t)) = R_ID rule).
    { destruct (state_of (R_ID rule) t) as [q|] eqn:Eq; [|done].
      apply find_some in Eq as [_ Eq]. by apply Z.eqb_eq in Eq. }
    by rewrite Hrid, Z.eqb_refl.
  - cbn [reports]. rewrite map_app, app_assoc, <- He.
    destruct (reported _ _ _ h) as [[k s']|]; cbn [option_map recorded]; [|by rewrite app_nil_r].
    unfold reports_of. cbn [events set_states set_events]. rewrite List.filter_app, map_app.
    cbn. by rewrite Z.eqb_refl.
Qed.

Lemma agrees_other rule other before t h sample s0 s event :
  R_ID other <> R_ID rule ->
  s0 = default (new_state (R_ID other)) (state_of (R_ID other) t) ->
  advance_rule other (metricValue sample (R_Metric other)) (CapturedAt sample) s0 = (s, event) ->
  agrees rule before t h ->
  agrees rule before (set_states (saved s (states t)) (recorded event t)) h.
Proof.
  intros Hne Hs0 Ea [Hr He].
  assert (Hs : AS_RuleID s = R_ID other /\ forall e, event = Some e -> E_RuleID e = R_ID other).
  { assert (Hid : AS_RuleID s0 = R_ID other).
    { rewrite Hs0. destruct (state_of (R_ID other) t) as [q|] eqn:Eq; [|done].
      apply find_some in Eq as [_ Eq]. by apply Z.eqb_eq in Eq. }
    unfold advance_rule in Ea. repeat case_hyp Ea; injection Ea as <- <-; (split; [done|]);
      by intros e [= <-]. }
  destruct Hs as [Hid Hev]. split.
  - unfold state_of. cbn [states set_states]. rewrite find_saved, Hid.
    destruct (Z.eqb_spec (R_ID other) (R_ID rule)); [done|]. by destruct event.
  - destruct event as [e|]; [|done]. unfold reports_of in *. cbn [events set_states recorded set_events].
    rewrite List.filter_app, map_app, He. cbn [List.filter]. cbn [numbered E_RuleID].
    rewrite (Hev e eq_refl). destruct (Z.eqb_spec (R_ID other) (R_ID rule)); [done|].
    by rewrite app_nil_r.
Qed.

Lemma evaluate_all_agrees rule before ops :
  1 <= R_ConsecutiveSamples rule ->
  (forall op, In op ops -> R_ID op.1 = R_ID rule -> op.1 = rule) ->
  forall w seen, agrees rule before (tables w) (history_of rule seen) ->
  let '(w', seen') := evaluate_all ops w seen in
  agrees rule before (tables w') (history_of rule seen').
Proof.
  intros Hn. induction ops as [|[r s] ops IH]; intros Hops w seen Hag; [done|].
  cbn [evaluate_all]. destruct (evaluate_one Send attempted r s w) as [res w'] eqn:E.
  apply IH; [intros op Hop; apply Hops; by right|].
  unfold evaluate_one, bind in E. destruct (evaluateRule r s w) as [ev w1] eqn:Ee.
  assert (Hw1 : agrees rule before (tables w1)
    (history_of rule (if is_ok ev then (r, s) :: seen else seen))).
  { apply evaluateRule_cases in Ee as [(e & -> & ->)|(s0 & st & event & notify & Hs0 & Ea & -> & ->)]; [done|].
    cbn [is_ok]. unfold history_of. cbn [List.filter fst snd].
    destruct (Z.eqb_spec (R_ID r) (R_ID rule)) as [Ei|Hne].
    - assert (r = rule) as -> by (apply (Hops (r, s)); [by left|done]). cbn [map snd].
      by eapply agrees_step.
    - by eapply agrees_other. }
  destruct ev as [[event notify]|e].
  - cbn [is_ok] in Hw1.
    assert (Hres : is_ok res = true /\ states (tables w') = states (tables w1) /\
      events (tables w') = events (tables w1)).
    { destruct event as [event|]; [destruct notify|]; try (by injection E as <- <-).
      destruct (deliver_keeps event w1) as [Hs He]. rewrite E in Hs, He. split; [|done].
      revert E. unfold deliver, bind, attempt. destruct (read _ w1) as [[l|] w2]; [|by intros [= <- _]].
      revert w2. induction l as [|c l IHl]; intros w2; cbn [deliver_to]; [by intros [= <- _]|].
      unfold bind, attempt. destruct (exec _ w2) as [? w3]. apply IHl. }
    destruct Hres as (-> & Hs & He). by eapply agrees_same.
  - injection E as <- <-. by cbn in Hw1 |- *.
Qed.

(** C27: a rule alerts as the history of its samples says. Over any evaluations
    of any rules, with any faults in the statements, in deliveries and commits,
    take the samples of a rule whose evaluation succeeded. The events that were
    recorded for the rule are, in order, exactly the reports of this history:
    [triggered] when as many samples in a row as the rule asks for were over
    the threshold, never earlier and never twice; [reminder] after each
    cooldown; [resolved] at the first sample on the recovery side, with the
    start it was triggered with. The stored row is the state of that history. *)
Theorem evaluations_report_history rule ops w
  (Hrule : 1 <= R_ConsecutiveSamples rule)
  (Hops : forall op, In op ops -> R_ID op.1 = R_ID rule -> op.1 = rule)
  (Hnew : state_of (R_ID rule) (tables w) = None) :
  let '(w', seen) := evaluate_all ops w [] in
  let n := R_ConsecutiveSamples rule in
  let cooldown := R_CooldownMinutes rule * Minute in
  let h := history_of rule seen in
  represents (default (new_state (R_ID rule)) (state_of (R_ID rule) (tables w'))) (alarm_of n cooldown h) /\
  reports_of rule (tables w') = reports_of rule (tables w) ++ map named (reports n cooldown h) /\
  in_order cooldown None (reports n cooldown h).
Proof.
  pose proof (evaluate_all_agrees rule (reports_of rule (tables w)) ops Hrule Hops w []) as Hag.
  destruct (evaluate_all ops w []) as [w' seen]. cbv zeta.
  destruct Hag as [Hr He].
  - split; [|by rewrite app_nil_r]. by rewrite Hnew.
  - split; [done|]. split; [done|]. by apply reports_ordered.
Qed.
End evaluations.

(** ** Rules that are accepted do not flap *)

Lemma one_of_cases s l : one_of s l = true <-> In s l.
Proof.
  unfold one_of. rewrite existsb_exists. split.
  - by intros (x & Hx & ->%String.eqb_eq).
  - intros Hs. exists s. by rewrite String.eqb_refl.
Qed.

(** accepted rules have hysteresis. For a rule that [validateRule] accepts,
    no sample is at once over the threshold and on the recovery side, whatever
    its value, NaN and infinities included; and the rule asks for 1 to 60
    samples and a cooldown of a minute to a week. *)
Theorem validated_rules_have_hysteresis input rule value
  (Hvalid : validateRule input = Ok tt) :
  let r := apply_input input rule in
  (comparison value (R_Operator r) (R_Threshold r) = true ->
   recoveryComparison value (R_Operator r) (R_RecoveryThreshold r) = false) /\
  1 <= R_ConsecutiveSamples r <= 60 /\ Minute <= R_CooldownMinutes r * Minute <= 7 * 24 * Hour.
Proof.
  unfold validateRule in Hvalid. cbv zeta in Hvalid |- *.
  repeat (apply guard_Ok in Hvalid as [? Hvalid]). bool_props. cbn.
  match goal with H : one_of (RI_Operator input) ["gt"; "gte"; "lt"; "lte"] = true |- _ =>
    apply one_of_cases in H as Hop end.
  split; [|unfold Minute, Hour, Minute, Second; lia].
  revert Hop. unfold comparison, recoveryComparison. intros Hop Hc.
  assert (Hside : flt (RI_RecoveryThreshold input) (RI_Threshold input) = true /\
      one_of (RI_Operator input) ["gt"; "gte"] = true \/
    flt (RI_Threshold input) (RI_RecoveryThreshold input) = true /\
      one_of (RI_Operator input) ["gt"; "gte"] = false).
  { destruct Hop as [E|[E|[E|[E|[]]]]]; rewrite <- E in *; [left|left|right|right];
      (split; [apply not_fle_flt; assumption|reflexivity]). }
  destruct Hop as [E|[E|[E|[E|[]]]]]; rewrite <- E in *; cbn [String.eqb Ascii.eqb Bool.eqb orb] in *;
    (destruct Hside as [[Hs Hb]|[Hs Hb]]; [|]; try discriminate Hb).
  - by apply (above_excludes_below _ (RI_Threshold input)), flt_fle.
  - by apply (above_excludes_below _ (RI_Threshold input)).
  - by apply (below_excludes_above _ (RI_Threshold input)); [apply flt_fle|].
  - by apply (below_excludes_above _ (RI_Threshold input)).
Qed.

(** ** Collections and deliveries *)

Section collection.
Variable Send : NotificationChannel -> MonitorAlertEvent -> option error.
Variable attempted : NotificationChannel -> MonitorAlertEvent -> time.

(** The loop of [evaluate] is a run of evaluations over a prefix of the rules,
    and over all of them, each successful, when it succeeds. *)
Lemma evaluate_rules_run rules sample w seen r w' :
  evaluate_rules Send attempted rules sample w = (r, w') ->
  let ops := map (fun rule => (rule, sample)) in
  exists first rest, rules = first ++ rest /\
    (evaluate_all Send attempted (ops first) w seen).1 = w' /\
    (is_ok r = true -> rest = [] /\
      (evaluate_all Send attempted (ops rules) w seen).2 = rev (ops rules) ++ seen).
Proof.
  cbv zeta. revert w seen. induction rules as [|rule rules IH]; intros w seen E; cbn [evaluate_rules] in E.
  - injection E as <- <-. by exists [], [].
  - unfold bind in E. destruct (evaluate_one Send attempted rule sample w) as [[u|e] w1] eqn:Ee.
    + destruct (IH w1 ((rule, sample) :: seen) E) as (first & rest & -> & Hrun & Hok).
      exists (rule :: first), rest. cbn [map app evaluate_all rev]. rewrite Ee. cbn [is_ok].
      split; [done|]. split; [done|]. intros Hr. destruct (Hok Hr) as [-> Hseen].
      split; [done|]. by rewrite Hseen, <- app_assoc.
    + injection E as <- <-. exists [rule], rules. cbn [map evaluate_all]. by rewrite Ee.
Qed.

(** Without faults every enabled channel is tried once, in the order of their
    creation, whatever happens on the others, and the outcome is recorded. *)
Lemma deliver_to_run event l t :
  (deliver_to Send attempted event l (World t [])) =
  (Ok tt, World (set_deliveries (deliveries t ++ imap (fun i c =>
     mkDelivery (delivery_seq t + Z.of_nat i) (E_ID event) (Ch_ID c) (Ch_Name c)
       (match Send c event with Some _ => "failed" | None => "success" end)
       (sanitizeError (Send c event)) (attempted c event)) l)
     (delivery_seq t + Z.of_nat (List.length l)) t) []).
Proof.
  revert t. induction l as [|c l IH]; intros t; cbn [deliver_to].
  - cbn [imap List.length]. rewrite app_nil_r, Z.add_0_r. by destruct t.
  - unfold bind at 1, attempt at 1. rewrite run_exec. cbn [create_delivery]. rewrite IH.
    cbn [deliveries delivery_seq set_deliveries imap List.length Dl_EventID Dl_ChannelID Dl_ChannelName
      Dl_Status Dl_Error Dl_AttemptedAt].
    rewrite <- app_assoc, Z.add_0_r. cbn [app].
    replace (delivery_seq t + 1 + Z.of_nat (List.length l)) with
      (delivery_seq t + Z.of_nat (S (List.length l))) by lia.
    f_equal. f_equal. unfold set_deliveries. cbn. f_equal. f_equal. f_equal.
    apply imap_ext. intros i x _. cbn. f_equal. lia.
Qed.

Theorem deliver_reaches_every_channel event t :
  let enabled := merge_sort created_first (List.filter Ch_Enabled (channels t)) in
  exists t', deliver Send attempted event (World t []) = (Ok tt, World t' []) /\
    map (fun d => (Dl_EventID d, Dl_ChannelID d, Dl_Status d)) (deliveries t') =
      map (fun d => (Dl_EventID d, Dl_ChannelID d, Dl_Status d)) (deliveries t) ++
      map (fun c => (E_ID event, Ch_ID c, match Send c event with Some _ => "failed" | None => "success" end))
        enabled.
Proof.
  cbv zeta. unfold deliver. eexists. split.
  - unfold bind at 1, attempt at 1. unfold read, statement, next_fault. cbn [faults tables].
    by rewrite deliver_to_run.
  - cbn [deliveries set_deliveries]. rewrite map_app. f_equal.
    generalize (merge_sort created_first (List.filter Ch_Enabled (channels t))) (delivery_seq t).
    intros l. induction l as [|c l IH]; intros n; [done|]. cbn. f_equal.
    rewrite <- (IH (n + 1)). f_equal. apply imap_ext. intros i x _. cbn. f_equal. lia.
Qed.
End collection.

(** Editing a rule forgets its alarm: the state is dropped while the events
    stay, so an alert that was firing is never resolved. *)
Lemma UpdateRule_forgets_alarm id input w v w' :
  UpdateRule id input w = (Ok v, w') ->
  state_of id (tables w') = None /\ events (tables w') = events (tables w).
Proof.
  unfold UpdateRule. destruct (id =? 0); [done|]. destruct (validateRule input); [|done]. intros E.
  apply bind_Ok in E as (r0 & w1 & [_ Ht1]%first_Ok & E).
  apply bind_Ok in E as (u & w2 & (x & x' & Hx & E1 & Ht2)%transaction_Ok & E).
  apply bind_Ok in E1 as (n & w3 & E2%statement_Ok & E3%statement_Ok).
  injection E2 as _ E2. injection E3 as _ E3.
  assert (Hro : tables w' = tables w2).
  { change w' with (Ok v, w').2. rewrite <- E. unfold GetRule, attachRuleStates.
    apply readonly_bind; [apply readonly_first|]. intros r1.
    apply readonly_bind; [apply readonly_bind; [apply readonly_read|intros; apply readonly_ret]|].
    intros []; apply readonly_ret. }
  rewrite Hro, Ht2, <- E3, <- E2, Hx, Ht1. split; [|done].
  unfold state_of. cbn [states set_states set_rules].
  destruct (List.find _ _) as [q|] eqn:Eq; [|done]. apply find_some in Eq as [Hq Hid].
  apply filter_In in Hq as [_ Hq]. by rewrite Hid in Hq.
Qed.

(** Every recorded delivery is of a recorded event. *)
Definition deliveries_linked (t : MonitorTables) : Prop :=
  Forall (fun d => exists e, In e (events t) /\ E_ID e = Dl_EventID d) (deliveries t).

Lemma Cleanup_keeps_links now now' days days' : preserves deliveries_linked (Cleanup now now' days days').
Proof.
  intros w Hw. unfold Cleanup. destruct (transaction _ w) as [r w'] eqn:E. cbn.
  apply transaction_outcome in E as [->|(a & w1 & w2 & _ & Hw1 & E & ->)]; [done|]. rewrite <- Hw1 in Hw.
  apply bind_Ok in E as (u & v1 & E1%statement_Ok & E). injection E1 as _ E1.
  apply bind_Ok in E as (ids & v2 & E2%read_Ok & E). destruct E2 as [-> E2].
  assert (Hv : deliveries_linked (tables v2)) by (by rewrite E2, <- E1). clear E1 E2.
  destruct (map E_ID _) as [|i ids] eqn:Eids; [by apply ret_Ok in E as [_ ->]|].
  apply bind_Ok in E as (x & v3 & E3%statement_Ok & E4%statement_Ok). injection E3 as _ E3. injection E4 as _ E4.
  rewrite <- E4, <- E3. unfold deliveries_linked in *. cbn [events deliveries set_events set_deliveries].
  rewrite Forall_forall in Hv |- *. intros d [Hd Hn]%list_elem_of_In%filter_In.
  destruct (Hv d) as (e & He & Hid); [by apply list_elem_of_In|]. exists e. split; [|done].
  apply filter_In. by rewrite Hid.
Qed.

(** ** Witnesses *)

Definition demo_rule : MonitorRule :=
  mkRule 1 "cpu" MetricCPU "gt" (of_int 90) (of_int 80) 2 5 "critical" true None 0.

Definition demo_sample (at' : time) (cpu : Z) : MetricSample :=
  mkSample 0 at' (of_int cpu) (of_int 0) (of_int 0) (of_int 0) (of_int 0) (of_int 0) (of_int 0)
    (of_int 0) (of_int 0) (of_int 0).

Definition demo_tables : MonitorTables := mkMonitor [] 1 [demo_rule] 2 [] [] 1 [] [] [] 1.

Definition demo_evaluations : list (MonitorRule * MetricSample) :=
  map (fun p => (demo_rule, demo_sample (p.1 * Minute) p.2))
    [(1, 95); (2, 85); (3, 95); (4, 96); (5, 97); (10, 85); (11, 70); (12, 95)].

(** One good sample in between starts the count again; 85 neither triggers nor
    resolves. *)
Lemma evaluations_report_history_witness :
  let '(w, seen) := evaluate_all (fun _ _ => None) (fun _ _ => 0) demo_evaluations (World demo_tables []) [] in
  reports_of demo_rule (tables w) =
    [("triggered", 3 * Minute, 4 * Minute); ("reminder", 3 * Minute, 10 * Minute);
     ("resolved", 3 * Minute, 11 * Minute)] /\
  in_order (5 * Minute) None (reports 2 (5 * Minute) (history_of demo_rule seen)).
Proof.
  pose proof (evaluations_report_history (fun _ _ => None) (fun _ _ => 0) demo_rule demo_evaluations
    (World demo_tables []) ltac:(vm_compute; discriminate)
    ltac:(intros op Hop _; repeat (destruct Hop as [<-|Hop]; [reflexivity|]); destruct Hop) eq_refl) as H.
  destruct (evaluate_all _ _ demo_evaluations _ []) as [w seen] eqn:E.
  destruct H as (_ & _ & H). split; [|exact H].
  revert E. vm_compute. intros [= <- _]. reflexivity.
Defined.

Lemma validated_rules_have_hysteresis_witness :
  let input := mkRuleInput " cpu " MetricCPU "gt" (of_int 90) (of_int 80) 2 5 "critical" true in
  recoveryComparison (of_int 95) "gt" (R_RecoveryThreshold (apply_input input demo_rule)) = false.
Proof.
  intros input.
  exact (proj1 (validated_rules_have_hysteresis input demo_rule (of_int 95) eq_refl) eq_refl).
Defined.
