(* ===== verification/ServiceHealth.v ===== *)
(** The health of component services
    ([internal/services/monitoring/service_health.go]): observations are
    normalised and evaluated by the same machine as rules, with a fixed limit
    of two failures and a reminder every half hour. *)

From S2P Require Import Prelude GoStrings GoText GoFloat Store Alarm Monitoring.
From stdpp Require Import sorting options.
#[local] Open Scope Z_scope.

Definition MetricServiceHealth : string := "service_health".
Definition serviceHealthFailureThreshold : Z := 2.
Definition serviceHealthReminderMinutes : Z := 30.
Definition maxServiceHealthObservations : Z := 64.

Record ComponentHealthObservation := mkObservation {
  O_Component : string; O_DisplayName : string; O_SoftwareKey : string; O_ServiceName : string;
  O_SoftwareVersion : string; O_RuntimeVersion : string; O_Installed : bool; O_Busy : bool;
  O_Healthy : bool; O_ServiceState : string; O_LoadState : string; O_ActiveState : string;
  O_SubState : string; O_Error : string; O_Severity : string; O_CheckedAt : time
}.

Section normalisation.
Context `{!UnicodeCase}.

Definition normalizeComponentHealthObservation (now : time) (o : ComponentHealthObservation)
    : result ComponentHealthObservation :=
  let lowered text limit := ToLower (truncateText text limit) in
  let component := lowered (O_Component o) 64 in
  let displayName := truncateText (O_DisplayName o) 120 in
  let softwareKey := lowered (O_SoftwareKey o) 64 in
  let serviceName := truncateText (O_ServiceName o) 120 in
  if String.eqb component "" || String.eqb displayName "" || String.eqb softwareKey ""
     || String.eqb serviceName "" then
    Fail (ErrorString "component service health observation identity is incomplete")
  else
    let checkedAt := if IsZero (O_CheckedAt o) then now else O_CheckedAt o in
    let severity := if one_of (O_Severity o) ["warning"; "critical"] then O_Severity o else "critical" in
    let installed := O_Installed o in
    let healthy := negb installed || O_Healthy o in
    let busy := installed && O_Busy o in
    let serviceState := if installed then lowered (O_ServiceState o) 32 else "not_installed" in
    let error := if installed then truncateText (O_Error o) 512 else "" in
    let serviceState :=
      if String.eqb serviceState "" then if healthy then "running" else "unknown" else serviceState in
    let error :=
      if negb healthy && String.eqb error "" then "组件服务状态为 " +:+ serviceState else error in
    Ok (mkObservation component displayName softwareKey serviceName
          (truncateText (O_SoftwareVersion o) 64) (truncateText (O_RuntimeVersion o) 64) installed busy
          healthy serviceState (lowered (O_LoadState o) 32) (lowered (O_ActiveState o) 32)
          (lowered (O_SubState o) 32) error severity checkedAt).
End normalisation.

Definition newServiceHealthEvent (o : ComponentHealthObservation) (eventType : string)
    (started occurred : time) (resolved : option time) : MonitorAlertEvent :=
  let message := O_DisplayName o +:+ " 服务" +:+
    (if String.eqb eventType AlertEventResolved then "已恢复运行"
     else if String.eqb eventType AlertEventReminder then "仍然异常" else "连续探测异常") in
  let message :=
    if negb (String.eqb eventType AlertEventResolved) && negb (String.eqb (O_Error o) "")
    then message +:+ "：" +:+ O_Error o else message in
  mkEvent 0 0 ("组件服务：" +:+ O_DisplayName o) MetricServiceHealth "component_service" (O_Component o)
    (O_Severity o) eventType (if O_Healthy o then of_int 1 else of_int 0) (of_int 1) started occurred
    resolved (truncateText message 255).

(** ** Evaluation *)

(** The descriptive fields (162-174). *)
Definition describe (o : ComponentHealthObservation) (s : ComponentHealthState) : ComponentHealthState :=
  mkHealth (H_Component s) (O_DisplayName o) (O_SoftwareKey o) (O_ServiceName o) (O_SoftwareVersion o)
    (O_RuntimeVersion o) (O_Installed o) (O_Busy o) (H_HealthState s) (O_ServiceState o) (O_LoadState o)
    (O_ActiveState o) (O_SubState o) (H_ConsecutiveFailures s) (O_Error o) (O_CheckedAt o)
    (H_PendingSince s) (H_FiringSince s) (H_LastNotifiedAt s) (H_SilencedUntil s).

Definition with_alarm (st : string) (count : Z) (pending firing notified : option time)
    (s : ComponentHealthState) : ComponentHealthState :=
  mkHealth (H_Component s) (H_DisplayName s) (H_SoftwareKey s) (H_ServiceName s) (H_SoftwareVersion s)
    (H_RuntimeVersion s) (H_Installed s) (H_Busy s) st (H_ServiceState s) (H_LoadState s)
    (H_ActiveState s) (H_SubState s) count (H_LastError s) (H_LastCheckedAt s) pending firing notified
    (H_SilencedUntil s).

Definition unhealthy (o : ComponentHealthObservation) : bool := O_Installed o && negb (O_Healthy o).

(** The switch (183-255), on the described row. *)
Definition advance_health (o : ComponentHealthObservation) (s : ComponentHealthState)
    : ComponentHealthState * option MonitorAlertEvent :=
  let now := O_CheckedAt o in
  if String.eqb (H_HealthState s) MonitorStateFiring then
    let started := default now (H_FiringSince s) in
    if negb (unhealthy o) then
      (with_alarm MonitorStateNormal 0 None None (Some now) s,
       Some (newServiceHealthEvent o AlertEventResolved started now (Some now)))
    else if reminderDue (H_LastNotifiedAt s) serviceHealthReminderMinutes now then
      (with_alarm (H_HealthState s) (H_ConsecutiveFailures s) (H_PendingSince s) (H_FiringSince s)
         (Some now) s,
       Some (newServiceHealthEvent o AlertEventReminder started now None))
    else (s, None)
  else if negb (unhealthy o) then
    (with_alarm MonitorStateNormal 0 None None (H_LastNotifiedAt s) s, None)
  else
    let pending := String.eqb (H_HealthState s) MonitorStatePending in
    let count := (if pending then H_ConsecutiveFailures s else 0) + 1 in
    let since := if pending then H_PendingSince s else Some now in
    if serviceHealthFailureThreshold <=? count then
      let started := default now since in
      (with_alarm MonitorStateFiring count since (Some started) (Some now) s,
       Some (newServiceHealthEvent o AlertEventTriggered started now None))
    else (with_alarm MonitorStatePending count since (H_FiringSince s) (H_LastNotifiedAt s) s, None).

Definition health_of (component : string) (t : MonitorTables) : option ComponentHealthState :=
  List.find (fun s => String.eqb (H_Component s) component) (health t).

Definition saved_health (s : ComponentHealthState) (l : list ComponentHealthState)
    : list ComponentHealthState :=
  upsert String.eqb H_Component s l.

Definition save_health (s : ComponentHealthState) (t : MonitorTables) : result (unit * MonitorTables) :=
  Ok (tt, set_health (saved_health s (health t)) t).

Definition new_health (component : string) : ComponentHealthState :=
  mkHealth component "" "" "" "" "" false false MonitorStateNormal "" "" "" "" 0 "" 0 None None None None.

(** A busy component keeps its alarm as it is. *)
Definition step_health (o : ComponentHealthObservation) (s : ComponentHealthState)
    : ComponentHealthState * option MonitorAlertEvent :=
  let s := describe o s in if O_Busy o then (s, None) else advance_health o s.

(** An error of this read counts as not silenced. *)
Definition stateSilenced (component : string) (now : time) : M MonitorTables bool :=
  let* found := attempt (first (health_of component)) in
  ret (match found with
       | Fail _ => false
       | Ok s => match H_SilencedUntil s with Some until => After until now | None => false end
       end).

Definition evaluateServiceHealth (o : ComponentHealthObservation)
    : M MonitorTables (option MonitorAlertEvent * bool) :=
  let* event := transaction
    (let* found := attempt (first (health_of (O_Component o))) in
     let proceed state :=
       let '(state, event) := step_health o state in
       let* event :=
         match event with
         | Some event => let* event := exec (create_event event) in ret (Some event)
         | None => ret None
         end in
       let* _ := exec (save_health state) in
       ret event in
     match found with
     | Ok state => proceed state
     | Fail err => if is_not_found err then proceed (new_health (O_Component o)) else fail err
     end) in
  let* silenced := stateSilenced (O_Component o) (O_CheckedAt o) in
  ret (event, match event with Some _ => negb silenced | None => false end).

Section manager.
Context `{!UnicodeCase}.
Variable Send : NotificationChannel -> MonitorAlertEvent -> option error.
Variable attempted : NotificationChannel -> MonitorAlertEvent -> time.

Fixpoint check_observations (clock : list time) (observations : list ComponentHealthObservation)
    (seen : gset string) : M MonitorTables unit :=
  match observations with
  | [] => ret tt
  | o :: observations =>
      let now := default 0 (head clock) in
      match normalizeComponentHealthObservation now o with
      | Fail err => fail err
      | Ok o =>
          if bool_decide (O_Component o ∈ seen) then
            fail (ErrorString ("duplicate component health observation " +:+ O_Component o))
          else
            let* evaluated := evaluateServiceHealth o in
            let* _ := match evaluated with
                      | (Some event, true) => deliver Send attempted event
                      | _ => ret tt
                      end in
            check_observations (tail clock) observations ({[O_Component o]} ∪ seen)
      end
  end.

(** [collected] is what the collector answered, [None] when there is none;
    [clock] the readings of [manager.now], one per observation. *)
Definition CheckServiceHealth (clock : list time)
    (collected : option (result (list ComponentHealthObservation))) : M MonitorTables unit :=
  match collected with
  | None => ret tt
  | Some (Fail err) => fail (Wrap "collect component service health: " err "")
  | Some (Ok observations) =>
      if maxServiceHealthObservations <? Z.of_nat (List.length observations) then
        fail (ErrorString "component service health collector returned too many observations")
      else check_observations clock observations ∅
  end.

Definition installed_first (a b : ComponentHealthState) : Prop :=
  (H_Installed a = true /\ H_Installed b = false) \/
  H_Installed a = H_Installed b /\ String.leb (H_DisplayName a) (H_DisplayName b) = true.
#[global] Instance installed_first_dec : RelDecision installed_first.
Proof. intros a b. unfold installed_first. apply _. Defined.

Definition ListServiceHealth (includeNotInstalled : bool) : M MonitorTables (list ComponentHealthState) :=
  read (fun t => merge_sort installed_first
    (List.filter (fun s => includeNotInstalled || H_Installed s) (health t))).

Definition silence_health (until : option time) (s : ComponentHealthState) : ComponentHealthState :=
  mkHealth (H_Component s) (H_DisplayName s) (H_SoftwareKey s) (H_ServiceName s) (H_SoftwareVersion s)
    (H_RuntimeVersion s) (H_Installed s) (H_Busy s) (H_HealthState s) (H_ServiceState s) (H_LoadState s)
    (H_ActiveState s) (H_SubState s) (H_ConsecutiveFailures s) (H_LastError s) (H_LastCheckedAt s)
    (H_PendingSince s) (H_FiringSince s) (H_LastNotifiedAt s) until.

Definition SilenceServiceHealth (now : time) (component : string) (until : option time)
    : M MonitorTables unit :=
  let component := ToLower (TrimSpace component) in
  if String.eqb component "" then fail (ErrorString "component is required")
  else if bad_silence now now until then
    fail (ErrorString "silence expiry must be in the future and within 30 days")
  else
    let selected s := String.eqb (H_Component s) component && H_Installed s in
    let* affected := exec (fun t =>
      Ok (Z.of_nat (List.length (List.filter selected (health t))),
          set_health (map (fun s => if selected s then silence_health until s else s) (health t)) t)) in
    if affected =? 0 then fail (Sentinel ErrRecordNotFound) else ret tt.
End manager.

(** ** Services implement alarms *)

(** Two failed observations and half an hour, for every component. *)
Definition health_step : alarm -> observation -> alarm * option (report * time) :=
  alarm_step serviceHealthFailureThreshold (serviceHealthReminderMinutes * Minute).

Definition health_observation (o : ComponentHealthObservation) : observation :=
  mkObs (unhealthy o) (negb (unhealthy o)) (O_CheckedAt o).

Definition health_represents (s : ComponentHealthState) (a : alarm) : Prop :=
  match a with
  | Quiet => H_HealthState s = MonitorStateNormal
  | Waiting count since =>
      H_HealthState s = MonitorStatePending /\ H_ConsecutiveFailures s = count /\
      H_PendingSince s = Some since
  | Firing since last =>
      H_HealthState s = MonitorStateFiring /\ H_FiringSince s = Some since /\
      H_LastNotifiedAt s = Some last
  end.

Definition health_event (o : ComponentHealthObservation) (r : report * time) : MonitorAlertEvent :=
  newServiceHealthEvent o (report_name r.1) r.2 (O_CheckedAt o)
    (match r.1 with Resolved => Some (O_CheckedAt o) | _ => None end).

(** A busy component is not observed at all. *)
Definition observed_step (o : ComponentHealthObservation) (a : alarm) : alarm * option (report * time) :=
  if O_Busy o then (a, None) else health_step a (health_observation o).

Lemma step_health_refines o s a :
  health_represents s a ->
  let '(s', event) := step_health o s in
  let '(a', r) := observed_step o a in
  health_represents s' a' /\ H_Component s' = H_Component s /\ event = option_map (health_event o) r.
Proof.
  unfold step_health, observed_step. destruct (O_Busy o); [by destruct a|].
  unfold advance_health, health_step, alarm_step, bad_step, health_observation. cbn [ob_bad ob_good ob_time].
  destruct a as [|count since|since last]; cbn [health_represents].
  - intros Hs. cbn [H_HealthState describe]. rewrite Hs.
    cbn [String.eqb Ascii.eqb Bool.eqb MonitorStateNormal MonitorStateFiring MonitorStatePending].
    destruct (unhealthy o); cbn [negb]; [|done]. change (0 + 1) with 1. by destruct (_ <=? 1).
  - intros (Hs & Hc & Hp).
    cbn [H_HealthState H_ConsecutiveFailures H_PendingSince describe]. rewrite Hs, Hc, Hp. cbn.
    destruct (unhealthy o); cbn [negb]; [|done]. by destruct (_ <=? _).
  - intros (Hs & Hf & Hl).
    cbn [H_HealthState H_FiringSince H_LastNotifiedAt describe]. rewrite Hs, Hf, Hl.
    cbn -[reminderDue]. rewrite reminderDue_spec.
    destruct (unhealthy o); cbn [negb andb]; [|done]. by destruct (_ <=? _).
Qed.

Lemma find_saved_health s l c :
  List.find (fun q => String.eqb (H_Component q) c) (saved_health s l) =
    if String.eqb (H_Component s) c then Some s
    else List.find (fun q => String.eqb (H_Component q) c) l.
Proof. apply (find_upsert String.eqb H_Component String.eqb_spec). Qed.

(** ** One evaluation, under any faults *)

Definition put_health (s : ComponentHealthState) (t : MonitorTables) : MonitorTables :=
  set_health (saved_health s (health t)) t.

Lemma readonly_stateSilenced component now : readonly (stateSilenced component now).
Proof.
  apply readonly_bind; [apply readonly_attempt, readonly_first|]. intros r. apply readonly_ret.
Qed.

Lemma evaluateServiceHealth_cases o w r w' :
  evaluateServiceHealth o w = (r, w') ->
  (exists e, r = Fail e /\ tables w' = tables w) \/
  exists s event notify,
    step_health o (default (new_health (O_Component o)) (health_of (O_Component o) (tables w))) = (s, event) /\
    r = Ok (option_map (numbered (event_seq (tables w))) event, notify) /\
    tables w' = put_health s (recorded event (tables w)).
Proof.
  unfold evaluateServiceHealth, bind at 1. intros E.
  match type of E with (let (_, _) := ?m w in _) = _ => destruct (m w) as [[ev|e] w1] eqn:Etx end.
  2: { injection E as <- <-. left. exists e. split; [done|]. by apply transaction_Fail in Etx. }
  apply (alert_row_Ok (health_of (O_Component o)) (new_health (O_Component o)) (step_health o) put_health) in Etx.
  destruct (step_health _ _) as [s event]. destruct Etx as [-> Ht].
  unfold bind in E. pose proof (readonly_stateSilenced (O_Component o) (O_CheckedAt o) w1) as Hro.
  destruct (stateSilenced _ _ w1) as [[silent|e] w2] eqn:Es; cbn in Hro.
  - injection E as <- <-. right. eexists s, event, _. rewrite Hro. by destruct event.
  - exfalso. revert Es. unfold stateSilenced, bind, attempt. by destruct (first _ w1).
Qed.

(** ** A run of evaluations *)

Fixpoint evaluate_health (ops : list ComponentHealthObservation) (w : world MonitorTables)
    (seen : list ComponentHealthObservation) : world MonitorTables * list ComponentHealthObservation :=
  match ops with
  | [] => (w, seen)
  | o :: ops =>
      let '(r, w') := evaluateServiceHealth o w in
      evaluate_health ops w' (if is_ok r then o :: seen else seen)
  end.

(** What was observed of a component, while it was not busy. *)
Definition health_history (c : string) (seen : list ComponentHealthObservation) : list observation :=
  map health_observation
    (List.filter (fun o => String.eqb (O_Component o) c && negb (O_Busy o)) seen).

Definition of_component (c : string) (e : MonitorAlertEvent) : bool :=
  String.eqb (E_ResourceType e) "component_service" && String.eqb (E_ResourceID e) c.

Definition health_reports (c : string) (t : MonitorTables) : list (string * time * time) :=
  map (fun e => (E_EventType e, E_StartedAt e, E_OccurredAt e)) (List.filter (of_component c) (events t)).

Definition health_reports_due (h : list observation) : list (report * time * time) :=
  reports serviceHealthFailureThreshold (serviceHealthReminderMinutes * Minute) h.

Definition health_alarm (h : list observation) : alarm :=
  alarm_of serviceHealthFailureThreshold (serviceHealthReminderMinutes * Minute) h.

Definition health_agrees (c : string) (before : list (string * time * time)) (t : MonitorTables)
    (h : list observation) : Prop :=
  health_represents (default (new_health c) (health_of c t)) (health_alarm h) /\
  health_reports c t = before ++ map named (health_reports_due h).

Lemma health_of_component c t : H_Component (default (new_health c) (health_of c t)) = c.
Proof.
  destruct (health_of c t) as [q|] eqn:Eq; [|done].
  apply find_some in Eq as [_ Eq]. by apply String.eqb_eq in Eq.
Qed.

Lemma step_health_labels o s s' event :
  step_health o s = (s', event) ->
  H_Component s' = H_Component s /\
  forall e, event = Some e -> of_component (O_Component o) e = true.
Proof.
  unfold step_health, advance_health. intros E.
  repeat case_hyp E; injection E as <- <-; (split; [done|]); intros e; try done;
    intros [= <-]; unfold of_component, newServiceHealthEvent; cbn [E_ResourceType E_ResourceID];
    by rewrite !String.eqb_refl.
Qed.

Lemma recorded_reports c event t :
  health_reports c (recorded event t) = health_reports c t ++
    match event with
    | Some e => if of_component c e then [(E_EventType e, E_StartedAt e, E_OccurredAt e)] else []
    | None => []
    end.
Proof.
  unfold health_reports. destruct event as [e|]; cbn [recorded]; [|by rewrite app_nil_r].
  cbn [events set_events]. rewrite List.filter_app, map_app. f_equal. cbn [List.filter].
  change (of_component c (numbered (event_seq t) e)) with (of_component c e). by destruct (of_component c e).
Qed.

Lemma health_reports_put c s t : health_reports c (put_health s t) = health_reports c t.
Proof. done. Qed.

Lemma health_of_put c s event t :
  health_of c (put_health s (recorded event t)) =
    if String.eqb (H_Component s) c then Some s else health_of c t.
Proof.
  unfold health_of, put_health. cbn [health set_health]. rewrite find_saved_health. by destruct event.
Qed.

Lemma health_agrees_step c before t o seen s event :
  step_health o (default (new_health (O_Component o)) (health_of (O_Component o) t)) = (s, event) ->
  health_agrees c before t (health_history c seen) ->
  health_agrees c before (put_health s (recorded event t)) (health_history c (o :: seen)).
Proof.
  intros Es [Hr He]. destruct (step_health_labels _ _ _ _ Es) as [Hc Hlab].
  rewrite health_of_component in Hc. unfold health_agrees, health_history. cbn [List.filter].
  rewrite health_of_put, health_reports_put, recorded_reports, Hc, He.
  destruct (String.eqb_spec (O_Component o) c) as [<-|Hne]; cbn [andb default].
  2: { split; [done|]. rewrite <- app_assoc. f_equal.
       destruct event as [e|]; [|by rewrite app_nil_r]. specialize (Hlab e eq_refl).
       unfold of_component in *. apply andb_true_iff in Hlab as [_ Hid%String.eqb_eq].
       rewrite Hid, (proj2 (String.eqb_neq _ _) Hne). by rewrite andb_false_r, app_nil_r. }
  pose proof (step_health_refines o _ _ Hr) as Hstep. rewrite Es in Hstep.
  unfold observed_step in Hstep. destruct (O_Busy o); cbn [negb].
  - destruct Hstep as (Hs & _ & ->). split; [done|]. by rewrite app_nil_r.
  - unfold health_step, health_alarm in Hstep. rewrite alarm_step_of in Hstep by done.
    destruct Hstep as (Hs & _ & ->). split; [done|]. unfold health_reports_due. cbn [map reports].
    rewrite map_app, <- app_assoc. f_equal. f_equal. unfold health_history.
    destruct (reported _ _ _ _) as [[k since]|]; [|done]. cbn [option_map].
    by rewrite (Hlab _ eq_refl).
Qed.

(** C35: a service alerts as the history of its checks says. Over any evaluations
    of any components, with any faults, take the observations of a component
    whose evaluation succeeded and during which no operation was running on it.
    The events recorded for the component are, in order, exactly the reports
    of this history for two failures in a row and reminders every half hour,
    the row is its state, and each report continues the one before: a
    restart during a busy time neither raises nor ends an alert. *)
Theorem health_reports_history c ops w (Hnew : health_of c (tables w) = None) :
  let '(w', seen) := evaluate_health ops w [] in
  let h := health_history c seen in
  health_represents (default (new_health c) (health_of c (tables w'))) (health_alarm h) /\
  health_reports c (tables w') = health_reports c (tables w) ++ map named (health_reports_due h) /\
  in_order (serviceHealthReminderMinutes * Minute) None (health_reports_due h).
Proof.
  assert (Hall : forall w1 seen, health_agrees c (health_reports c (tables w)) (tables w1) (health_history c seen) ->
    let '(w', seen') := evaluate_health ops w1 seen in
    health_agrees c (health_reports c (tables w)) (tables w') (health_history c seen')).
  { clear Hnew. induction ops as [|o ops IH]; intros w1 seen Hag; [done|]. cbn [evaluate_health].
    destruct (evaluateServiceHealth o w1) as [r w2] eqn:E. apply IH.
    apply evaluateServiceHealth_cases in E as [(e & -> & ->)|(s & event & notify & Es & -> & ->)]; [done|].
    by apply health_agrees_step. }
  specialize (Hall w []). destruct (evaluate_health ops w []) as [w' seen].
  destruct Hall as [Hr He].
  - split; [by rewrite Hnew|by rewrite app_nil_r].
  - split; [done|]. split; [done|]. by apply reports_ordered.
Qed.

(** ** Witness *)

Definition demo_health (at' : time) (healthy busy : bool) : ComponentHealthObservation :=
  mkObservation "nginx" "Nginx" "nginx" "nginx.service" "1.26" "" true busy healthy "failed" "" "" "" ""
    "critical" (at' * Minute).

(** Busy at 3 and at 5: neither counts. *)
Lemma health_reports_history_witness :
  let ops := [demo_health 1 true false; demo_health 2 false false; demo_health 3 false true;
              demo_health 4 false false; demo_health 5 true true; demo_health 6 true false] in
  let '(w, seen) := evaluate_health ops (World demo_tables []) [] in
  health_reports "nginx" (tables w) =
    [("triggered", 2 * Minute, 4 * Minute); ("resolved", 2 * Minute, 6 * Minute)] /\
  in_order (30 * Minute) None (health_reports_due (health_history "nginx" seen)).
Proof.
  intros ops.
  pose proof (health_reports_history "nginx" ops (World demo_tables []) eq_refl) as H.
  destruct (evaluate_health ops _ []) as [w seen] eqn:E. destruct H as (_ & _ & H).
  split; [|exact H]. revert E. vm_compute. intros [= <- _]. reflexivity.
Defined.
