(* ===== verification/FirewallRule.v ===== *)
(** Firewall rules as the panel keeps them ([internal/services/safe/validation.go],
    [backend.go], [internal/models/iptables.go]): the validation that every
    stored rule passed, the canonical texts of its addresses and ports, and the
    commands of the three backends that put a rule into effect.

    [Firewall] runs the commands and keeps the tables. *)

From stdpp Require Import sorting options.
From S2P Require Import Prelude GoStrings GoText GoNet.
#[local] Open Scope Z_scope.

Definition BackendNone : string := "none".
Definition BackendUFW : string := "ufw".
Definition BackendFirewalld : string := "firewalld".
Definition BackendIPTables : string := "iptables".

Definition ErrValidation : string := "firewall validation failed".
Definition ErrProtected : string := "protected firewall rule".
Definition ErrUnsupported : string := "unsupported firewall operation".
Definition ErrAutoBlockDisabled : string := "firewall auto block is disabled".

(** The creation and update times, which gorm maintains and no code reads, are
    left out. *)
Record IptablesRule := mkRule {
  ID : Z; RuleType : string; Direction : string; Protocol : string; Strategy : string;
  IPs : string; Ports : string; State : Z; Remark : string; Location : string;
  ExpiresAt : option time; Backend : string; Token : string; Protected : bool
}.

Definition validationError (message : string) : error := Wrap "" (Sentinel ErrValidation) (": " +:+ message).
Definition unsupported (message : string) : error := Wrap "" (Sentinel ErrUnsupported) (": " +:+ message).
Definition protected (message : string) : error := Wrap "" (Sentinel ErrProtected) (": " +:+ message).

(** ** Validation *)

Definition splitValues (raw : string) : list string :=
  List.filter (fun value => negb (String.eqb value "")) (map TrimSpace (Split raw ",")).

(** The values in the order of their first occurrence. *)
Fixpoint dedupe (seen l : list string) : list string :=
  match l with
  | [] => []
  | value :: l =>
      if existsb (String.eqb value) seen then dedupe seen l else value :: dedupe (value :: seen) l
  end.

Definition ip_error : error := validationError "IP 仅支持 IPv4 地址或 CIDR 网段".

Definition all_ipv4 : string := "0.0.0.0/0".

Section text.
Context `{!UnicodeCase}.

Definition normalize_ip (value : string) : result string :=
  if EqualFold value "any" || String.eqb value all_ipv4 then Ok all_ipv4
  else if Contains value "/" then
    match ParseCIDR value with
    | Some (ip, network) => if bool_decide (To4 ip = None) then Fail ip_error else Ok (net_string network)
    | None => Fail ip_error
    end
  else
    match ParseIP value ≫= To4 with
    | Some ip => Ok (ipv4_string ip)
    | None => Fail ip_error
    end.

Fixpoint normalize_each (normalize : string -> result string) (values : list string) : result (list string) :=
  match values with
  | [] => Ok []
  | value :: values =>
      match normalize value with
      | Fail e => Fail e
      | Ok value =>
          match normalize_each normalize values with
          | Fail e => Fail e
          | Ok values => Ok (value :: values)
          end
      end
  end.

Definition normalizeIPs (raw : string) : result (list string) :=
  match splitValues raw with
  | [] => Ok [all_ipv4]
  | parts =>
      match normalize_each normalize_ip parts with
      | Fail e => Fail e
      | Ok values => Ok (sort_strings (dedupe [] values))
      end
  end.

(** A port or a range, as its bounds. *)
Definition parse_port (value : string) : result (Z * Z) :=
  let bad := Fail (validationError "端口必须在 1-65535 之间") in
  let bad_range := Fail (validationError "端口范围无效") in
  match Split value "-" with
  | [first] =>
      match Atoi (TrimSpace first) with
      | Some start => if (start <? 1) || (65535 <? start) then bad else Ok (start, start)
      | None => bad
      end
  | [first; second] =>
      match Atoi (TrimSpace first) with
      | Some start =>
          if (start <? 1) || (65535 <? start) then bad
          else
            match Atoi (TrimSpace second) with
            | Some end_ => if (end_ <? start) || (65535 <? end_) then bad_range else Ok (start, end_)
            | None => bad_range
            end
      | None => bad
      end
  | _ => Fail (validationError "端口格式必须是单个端口或 start-end")
  end.

Definition port_string (range : Z * Z) : string :=
  let '(start, end_) := range in
  if end_ =? start then Itoa start else Itoa start +:+ "-" +:+ Itoa end_.

Definition normalize_port (value : string) : result string :=
  match parse_port value with Ok range => Ok (port_string range) | Fail e => Fail e end.

(** [strconv.Atoi(strings.Split(s, "-")[0])], 0 when it fails. *)
Definition port_start (s : string) : Z := default 0 (Atoi (default "" (head (Split s "-")))).

Definition by_start (a b : string) : bool := port_start a <? port_start b.

Definition normalizePorts (raw protocol : string) : result (list string) :=
  if String.eqb (TrimSpace raw) "" then Ok []
  else if String.eqb protocol "icmp" || String.eqb protocol "all" then
    Fail (validationError "ICMP 或全协议规则不能指定端口")
  else
    let parts := map TrimSpace (Split raw ",") in
    if existsb (String.eqb "") parts then Fail (validationError "端口列表不能包含空项")
    else
      match normalize_each normalize_port parts with
      | Fail e => Fail e
      | Ok values => Ok (sort_slice by_start (dedupe [] values))
      end.

Definition in_range (value : string) (port : Z) : bool :=
  let segments := Split value "-" in
  let start := default 0 (Atoi (default "" (head segments))) in
  let end_ := match segments with [_; second] => default 0 (Atoi second) | _ => start end in
  (start <=? port) && (port <=? end_).

Definition portSetContains (ports : list string) (port : Z) : bool :=
  match ports with [] => true | _ => existsb (fun value => in_range value port) ports end.

Definition containsAllIPv4 (ips : list string) : bool := existsb (String.eqb all_ipv4) ips.

Record normalizedRule := mkNormalized {
  N_RuleType : string; N_Direction : string; N_Protocol : string; N_Strategy : string;
  N_IPs : list string; N_Ports : list string; N_Remark : string; N_Location : string;
  N_ExpiresAt : option time; N_State : Z
}.

Definition one_of (s : string) (l : list string) : bool := existsb (String.eqb s) l.

Definition clear_ports (rule : IptablesRule) : IptablesRule :=
  mkRule (ID rule) (RuleType rule) (Direction rule) (Protocol rule) (Strategy rule) (IPs rule) ""
    (State rule) (Remark rule) (Location rule) (ExpiresAt rule) (Backend rule) (Token rule) (Protected rule).

(** The checks after the fields are read (88-105). *)
Definition check_rule (panelPort : Z) (n : normalizedRule) : result normalizedRule :=
  let inbound_deny := String.eqb (N_Direction n) "in" && String.eqb (N_Strategy n) "deny" in
  if 100 <? Z.of_nat (List.length (N_IPs n)) * Z.max 1 (Z.of_nat (List.length (N_Ports n))) then
    Fail (validationError "单条规则展开后不能超过 100 个 IP/端口组合")
  else if inbound_deny && String.eqb (N_Protocol n) "all" && containsAllIPv4 (N_IPs n) then
    Fail (validationError "不能创建会阻断全部 IPv4 入站流量的规则")
  else if inbound_deny && (String.eqb (N_Protocol n) "tcp" || String.eqb (N_Protocol n) "udp")
          && portSetContains (N_Ports n) panelPort then
    Fail (validationError ("不能创建会封禁面板端口 " +:+ Itoa panelPort +:+ " 的入站规则"))
  else Ok n.

(** With the result, the caller's rule as it is left: the ports of a rule that
    is not about ports are emptied on the way, before the later checks. *)
Definition normalizeRule (now : time) (rule : IptablesRule) (panelPort : Z)
    : result normalizedRule * IptablesRule :=
  let lowered text := ToLower (TrimSpace text) in
  let ruleType := lowered (RuleType rule) in
  let ruleType := if String.eqb ruleType "" then "port" else ruleType in
  let strategy := lowered (Strategy rule) in
  let remark := TrimSpace (Remark rule) in
  let location := TrimSpace (Location rule) in
  let state := if State rule =? 0 then 0 else 1 in
  if negb (one_of ruleType ["port"; "ip"; "region"; "auto_block"]) then
    (Fail (validationError "规则类型必须是 port、ip、region 或 auto_block"), rule)
  else
    let on_ports := String.eqb ruleType "port" in
    let direction := if on_ports then lowered (Direction rule) else "in" in
    let protocol := if on_ports then lowered (Protocol rule) else "all" in
    let rule := if on_ports then rule else clear_ports rule in
    let failing message := (Fail (validationError message), rule) in
    if negb (one_of direction ["in"; "out"]) then failing "规则方向必须是 in 或 out"
    else if negb (one_of protocol ["tcp"; "udp"; "icmp"; "all"]) then
      failing "协议必须是 tcp、udp、icmp 或 all"
    else if negb (one_of strategy ["allow"; "deny"]) then failing "策略必须是 allow 或 deny"
    else if 200 <? RuneCount remark then failing "备注不能超过 200 个字符"
    else if 128 <? RuneCount location then failing "IP 归属地不能超过 128 个字符"
    else if String.eqb ruleType "region" && String.eqb location "" then failing "地区规则必须填写地区名称"
    else if match ExpiresAt rule with Some t => negb (After t now) | None => false end then
      failing "过期时间必须晚于当前时间"
    else
      (match normalizeIPs (IPs rule) with
       | Fail e => Fail e
       | Ok ips =>
           match normalizePorts (Ports rule) protocol with
           | Fail e => Fail e
           | Ok ports =>
               check_rule panelPort
                 (mkNormalized ruleType direction protocol strategy ips ports remark location
                    (ExpiresAt rule) state)
           end
       end, rule).

Definition ValidateRule (now : time) (rule : IptablesRule) (panelPort : Z) : option error :=
  match normalizeRule now rule panelPort with
  | (Ok _, _) => None
  | (Fail e, _) => Some e
  end.
End text.

Definition applyNormalized (rule : IptablesRule) (n : normalizedRule) : IptablesRule :=
  mkRule (ID rule) (N_RuleType n) (N_Direction n) (N_Protocol n) (N_Strategy n) (Join (N_IPs n) ",")
    (Join (N_Ports n) ",") (N_State n) (N_Remark n) (N_Location n) (N_ExpiresAt n) (Backend rule)
    (Token rule) (Protected rule).

(** ** Commands *)

Record commandOperation := mkOp {
  op_name : string; op_args : list string; op_undoName : string; op_undoArgs : list string
}.

Definition expandedValues (rule : IptablesRule) : list string * list string :=
  let ips := splitValues (IPs rule) in
  let ports := splitValues (Ports rule) in
  (match ips with [] => [all_ipv4] | _ => ips end, match ports with [] => [""] | _ => ports end).

Definition ufwAddress (value : string) : string := if String.eqb value all_ipv4 then "any" else value.

(** Every address with every port. *)
Definition combinations {A} (f : string -> string -> A) (rule : IptablesRule) : list A :=
  let '(ips, ports) := expandedValues rule in
  flat_map (fun ip => map (f ip) ports) ips.

Definition has_port (rule : IptablesRule) (port : string) : bool :=
  negb (String.eqb (Protocol rule) "icmp") && negb (String.eqb (Protocol rule) "all")
  && negb (String.eqb port "").

Definition colon_range (port : string) : string := ReplaceAll1 port "-" ":".

Definition comment_of (rule : IptablesRule) : string := "oneinstack:" +:+ Token rule.

Definition ufw_args (rule : IptablesRule) (ip port : string) : list string :=
  [Strategy rule; Direction rule]
  ++ (if String.eqb (Direction rule) "in" then ["from"; ufwAddress ip; "to"; "any"]
      else ["to"; ufwAddress ip])
  ++ (if has_port rule port then ["port"; colon_range port] else [])
  ++ (if String.eqb (Protocol rule) "all" then [] else ["proto"; Protocol rule]).

Definition ufwRuleOperations (rule : IptablesRule) : list commandOperation :=
  combinations (fun ip port =>
    let args := ufw_args rule ip port in
    mkOp "ufw" (args ++ if String.eqb (Token rule) "" then [] else ["comment"; comment_of rule])
      "ufw" (["--force"; "delete"] ++ args)) rule.

Definition quoted (s : string) : string := str1 "034" +:+ s +:+ str1 "034".

Definition firewalldRichRule (rule : IptablesRule) (ip port : string) : string :=
  let kind := if String.eqb (Direction rule) "out" then "destination" else "source" in
  Join
    (["rule family=" +:+ quoted "ipv4"]
     ++ (if String.eqb ip all_ipv4 then [] else [kind +:+ " address=" +:+ quoted ip])
     ++ (if String.eqb (Protocol rule) "all" then []
         else if String.eqb (Protocol rule) "icmp" then ["protocol value=" +:+ quoted "icmp"]
         else if String.eqb port "" then ["protocol value=" +:+ quoted (Protocol rule)]
         else ["port port=" +:+ quoted port +:+ " protocol=" +:+ quoted (Protocol rule)])
     ++ [if String.eqb (Strategy rule) "allow" then "accept" else "drop"]) " ".

Definition permanently (permanent : bool) (args : list string) : list string :=
  if permanent then "--permanent" :: args else args.

Definition direct_args (action : string) (rule : IptablesRule) (ip port : string) : list string :=
  ["--direct"; action; "ipv4"; "filter"; "OUTPUT"; "0"]
  ++ (if String.eqb (Protocol rule) "all" then [] else ["-p"; Protocol rule])
  ++ ["-d"; ip]
  ++ (if has_port rule port then ["--dport"; colon_range port] else [])
  ++ (if String.eqb (Token rule) "" then [] else ["-m"; "comment"; "--comment"; comment_of rule])
  ++ ["-j"; if String.eqb (Strategy rule) "deny" then "DROP" else "ACCEPT"].

Definition firewalldDirectOperations (rule : IptablesRule) (command : string) (permanent : bool)
    : list commandOperation :=
  combinations (fun ip port =>
    mkOp command (permanently permanent (direct_args "--add-rule" rule ip port))
      command (permanently permanent (direct_args "--remove-rule" rule ip port))) rule.

Definition firewalldRuleOperations (rule : IptablesRule) (command : string) (permanent : bool)
    : list commandOperation :=
  if String.eqb (Direction rule) "out" then firewalldDirectOperations rule command permanent
  else
    combinations (fun ip port =>
      let richRule := firewalldRichRule rule ip port in
      mkOp command (permanently permanent ["--add-rich-rule=" +:+ richRule])
        command (permanently permanent ["--remove-rich-rule=" +:+ richRule])) rule.

Definition iptables_args (action : string) (rule : IptablesRule) (ip port : string) : list string :=
  let out := String.eqb (Direction rule) "out" in
  [action; if out then "OUTPUT" else "INPUT"]
  ++ (if String.eqb (Protocol rule) "all" then [] else ["-p"; Protocol rule])
  ++ [if out then "-d" else "-s"; ip]
  ++ (if has_port rule port then ["--dport"; colon_range port] else [])
  ++ (if String.eqb (Token rule) "" then [] else ["-m"; "comment"; "--comment"; comment_of rule])
  ++ ["-j"; if String.eqb (Strategy rule) "deny" then "DROP" else "ACCEPT"].

Definition iptablesRuleOperations (rule : IptablesRule) : list commandOperation :=
  combinations (fun ip port =>
    mkOp "iptables" (iptables_args "-A" rule ip port) "iptables" (iptables_args "-D" rule ip port)) rule.

Definition reverse_operation (op : commandOperation) : commandOperation :=
  mkOp (op_undoName op) (op_undoArgs op) (op_name op) (op_args op).

Definition reverseOperations (operations : list commandOperation) : list commandOperation :=
  map reverse_operation (rev operations).

Definition parsePanelPort (raw : string) : Z :=
  match Atoi (TrimSpace raw) with
  | Some port => if (port <? 1) || (65535 <? port) then 8089 else port
  | None => 8089
  end.

(** ** Where an address lies *)

Definition describeIPLocation (raw : string) : string :=
  match splitValues raw with
  | [] => "全部 IPv4"
  | [value] =>
      if String.eqb value all_ipv4 then "全部 IPv4"
      else
        match ParseIP (cut value "/").1 with
        | None => "未知"
        | Some ip => if IsLoopback ip then "本机" else if IsPrivate ip then "内网" else "公网地址"
        end
  | _ => "多个地址"
  end.

Definition normalizeStoredRule (rule : IptablesRule) : IptablesRule :=
  mkRule (ID rule) (if String.eqb (RuleType rule) "" then "port" else RuleType rule) (Direction rule)
    (Protocol rule) (Strategy rule) (IPs rule) (Ports rule) (State rule) (Remark rule)
    (if String.eqb (Location rule) "" then describeIPLocation (IPs rule) else Location rule)
    (ExpiresAt rule) (Backend rule) (Token rule) (Protected rule).

Section examples.
#[local] Existing Instance latin1_case.

Definition demo_rule : IptablesRule :=
  mkRule 0 " Port" "IN" "tcp" "Deny" "10.1.2.3/8, any ,10.0.0.0/8" "443, 80 -  90,+443" 7 " web " "" None
    "" "" false.

Example normalize_demo :
  normalizeRule 0 demo_rule 8089 =
    (Ok (mkNormalized "port" "in" "tcp" "deny" ["0.0.0.0/0"; "10.0.0.0/8"] ["80-90"; "443"] "web" "" None 1),
     demo_rule).
Proof. vm_compute. reflexivity. Qed.
End examples.

(** ** Canonical texts *)

(** What a canonical address or port is made of. *)
Definition plain (c : ascii) : bool := is_digit c || Ascii.eqb c "." || Ascii.eqb c "/" || Ascii.eqb c "-".

Lemma plain_visible s : sforall plain s = true -> sforall visible s = true.
Proof.
  apply sforall_impl. intros c. unfold plain, is_digit, visible. intros Hc.
  destruct (Ascii.eqb_spec c "."), (Ascii.eqb_spec c "/"), (Ascii.eqb_spec c "-"); subst; try done.
  rewrite !orb_false_r in Hc. bool_props. apply andb_true_iff. rewrite !Z.leb_le. lia.
Qed.

Lemma plain_free c s : plain c = false -> sforall plain s = true -> free_of c s.
Proof.
  intros Hc. apply sforall_impl. intros d Hd. destruct (Ascii.eqb_spec d c) as [->|]; [congruence|done].
Qed.

Lemma Itoa_plain v : 0 <= v -> sforall plain (Itoa v) = true.
Proof.
  intros Hv. unfold Itoa. rewrite (proj2 (Z.ltb_ge v 0)) by done.
  eapply sforall_impl; [|by apply digits_digits]. intros c Hc. unfold plain. by rewrite Hc.
Qed.

Lemma ipv4_string_plain n : is_ipv4 n -> sforall plain (ipv4_string n) = true.
Proof.
  intros Hn. destruct (octets_of n Hn) as (_ & Ha & Hb & Hc & Hd). unfold ipv4_string.
  rewrite !sforall_app, !Itoa_plain by lia. done.
Qed.

Lemma Itoa_not_empty v : Itoa v <> "".
Proof.
  unfold Itoa. destruct (v <? 0); [done|]. by destruct (digits_nonempty v) as (c & t & ->).
Qed.

Lemma app_not_empty a b : a <> "" -> a +:+ b <> "".
Proof. by destruct a. Qed.

Definition well_written (s : string) : Prop := s <> "" /\ sforall plain s = true.

Lemma map_TrimSpace l : Forall well_written l -> map TrimSpace l = l.
Proof.
  induction 1 as [|v l [_ Hv] _ IH]; [done|]. cbn. by rewrite IH, TrimSpace_visible by by apply plain_visible.
Qed.

Lemma Split_Join_comma l : l <> [] -> Forall well_written l -> Split (Join l ",") "," = l.
Proof.
  intros Hne Hl. change "," with (str1 ","). apply Split_Join; [done|].
  eapply Forall_impl; [exact Hl|]. intros v [_ Hv]. by apply plain_free.
Qed.

Lemma no_empty l : Forall well_written l -> existsb (String.eqb "") l = false.
Proof. induction 1 as [|v l [Hv _] _ IH]; [done|]. cbn. by destruct v. Qed.

Lemma filter_no_empty l : existsb (String.eqb "") l = false ->
  List.filter (fun value => negb (String.eqb value "")) l = l.
Proof. induction l as [|v l IH]; [done|]. cbn. destruct v; [done|]. cbn. intros H. by rewrite IH. Qed.

Lemma splitValues_Join l : Forall well_written l -> splitValues (Join l ",") = l.
Proof.
  intros Hl. unfold splitValues. destruct l as [|v l]; [done|].
  rewrite Split_Join_comma, map_TrimSpace by done. by apply filter_no_empty, no_empty.
Qed.

(** ** Removing duplicates *)

Lemma dedupe_In seen l x : In x (dedupe seen l) <-> In x l /\ ~ In x seen.
Proof.
  revert seen. induction l as [|v l IH]; intros seen; cbn [dedupe]; [by cbn; tauto|].
  destruct (existsb (String.eqb v) seen) eqn:E.
  - apply existsb_exists in E as (u & Hu & <-%String.eqb_eq). rewrite IH. cbn. split; [tauto|].
    intros [[<-|Hx] Hn]; [done|]. tauto.
  - cbn. rewrite IH. cbn. split; [|by intros [[->|Hx] Hn]; [by left|];
      destruct (String.eqb_spec v x); [by left|right]; tauto].
    intros [<-|[Hx Hn]]; [|tauto]. split; [by left|]. intros Hv.
    apply existsb_false_Forall, Forall_forall with (x := v) in E; [|by apply list_elem_of_In].
    by rewrite String.eqb_refl in E.
Qed.

Lemma dedupe_NoDup seen l : NoDup (dedupe seen l).
Proof.
  revert seen. induction l as [|v l IH]; intros seen; cbn [dedupe]; [constructor|].
  destruct (existsb _ seen); [done|]. constructor; [|done].
  rewrite list_elem_of_In, dedupe_In. cbn. tauto.
Qed.

Lemma dedupe_id seen l : NoDup l -> (forall v, In v l -> ~ In v seen) -> dedupe seen l = l.
Proof.
  revert seen. induction l as [|v l IH]; intros seen Hd Hs; [done|]. cbn [dedupe].
  apply NoDup_cons in Hd as [Hv Hd]. destruct (existsb (String.eqb v) seen) eqn:E.
  - apply existsb_exists in E as (u & Hu & <-%String.eqb_eq). destruct (Hs v); [by left|done].
  - f_equal. apply IH; [done|]. intros u Hu [<-|Hu']; [by apply Hv, list_elem_of_In|].
    by apply (Hs u); [right|].
Qed.

Lemma normalize_each_Forall2 f l k : normalize_each f l = Ok k <-> Forall2 (fun v u => f v = Ok u) l k.
Proof.
  revert k. induction l as [|v l IH]; intros k; cbn [normalize_each].
  - split; [by intros [= <-]; constructor|]. by intros H%Forall2_nil_inv_l; subst.
  - split.
    + destruct (f v) as [u|e] eqn:Ev; [|done]. destruct (normalize_each f l) as [us|e]; [|done].
      intros [= <-]. constructor; [done|]. by apply IH.
    + intros (u & us & Hu & Hus & ->)%Forall2_cons_inv_l. apply IH in Hus. by rewrite Hu, Hus.
Qed.

Lemma normalize_each_fixed f l : Forall (fun v => f v = Ok v) l -> normalize_each f l = Ok l.
Proof. intros Hl. apply normalize_each_Forall2. by induction Hl; constructor. Qed.

(** ** Addresses *)

Lemma Contains_here c a b : Contains (a +:+ String c b) (str1 c) = true.
Proof.
  induction a as [|d a IH]; cbn [append Contains].
  - apply orb_true_iff. left. cbn. destruct (ascii_dec c c); [by destruct b|done].
  - by rewrite IH, orb_true_r.
Qed.

Section addresses.
Context `{!UnicodeCase}.

(** The addresses that a text of the user means. *)
Definition address_in (value : string) (a : Z) : bool :=
  if EqualFold value "any" || String.eqb value all_ipv4 then true
  else if Contains value "/" then
    match ParseCIDR value with
    | Some (_, Net4 n ones) => in_prefix 32 ones n a
    | Some (_, Net16 n ones) => in_prefix 128 ones n (v4_prefix + a)
    | None => false
    end
  else match ParseIP value ≫= To4 with Some n => n =? a | None => false end.

Lemma not_any c s : is_digit c = true -> EqualFold (String c s) "any" = false.
Proof.
  intros Hc. unfold is_digit in Hc. bool_props. unfold EqualFold, runes.
  rewrite tokens_ascii by lia. cbn [map tok_rune]. change (map tok_rune (tokens "any")) with [97; 110; 121].
  cbn [fold_list]. unfold fold_rune, lower_rune.
  destruct (Z.ltb_spec (byte_of c) 128); [|lia]. cbn [andb].
  rewrite (proj2 (Z.eqb_neq (byte_of c) 97)) by lia.
  rewrite (proj2 (Z.leb_gt 65 (byte_of c))) by lia. cbn [andb orb].
  cbn. by rewrite (proj2 (Z.eqb_neq (byte_of c) 97)) by lia.
Qed.

Lemma ipv4_not_any n s : is_ipv4 n -> EqualFold (ipv4_string n +:+ s) "any" = false.
Proof.
  intros Hn. destruct (octets_of n Hn) as (_ & Ha & _). unfold ipv4_string. rewrite !sapp_assoc.
  assert (Hd : sforall is_digit (Itoa (n / 2 ^ 24)) = true).
  { unfold Itoa. rewrite (proj2 (Z.ltb_ge _ 0)) by lia. apply digits_digits. lia. }
  pose proof (Itoa_not_empty (n / 2 ^ 24)) as Hne. destruct (Itoa (n / 2 ^ 24)) as [|c t]; [done|].
  cbn [sforall] in Hd. apply andb_true_iff in Hd as [Hc _]. cbn [append]. by apply not_any.
Qed.

Lemma ParseAddr_v4 s a : free_of ":" s -> ParseAddr s = Some a -> exists n, a = V4 n /\ is_ipv4 n.
Proof.
  intros Hf. unfold ParseAddr. destruct (address_kind s) as [c|] eqn:E; [|done].
  assert (Hc : c <> ":"%char).
  { revert E Hf. unfold free_of. induction s as [|d s IH]; [done|]. cbn.
    intros E [Hd Hs]%andb_true_iff. destruct (_ || _) eqn:Ek; [|by apply IH].
    injection E as <-. intros ->. done. }
  destruct (Ascii.eqb_spec c ".") as [->|Hdot].
  - destruct (parseIPv4 s) as [n|] eqn:Ep; [|done]. intros [= <-]. exists n.
    split; [done|]. by eapply parseIPv4_range.
  - intros Ha. exfalso. destruct c as [[] [] [] [] [] [] [] []]; done.
Qed.

Lemma cut_left s sep a b f : cut s sep = (a, b) -> sforall f s = true -> sforall f a = true.
Proof.
  revert a b. induction s as [|c s IH]; cbn; intros a b E; [by injection E as <- _|].
  destruct (Ascii.eqb c sep); [by injection E as <- _|].
  destruct (cut s sep) as [a' b'] eqn:Ec. injection E as <- _. cbn.
  intros [-> Hs]%andb_true_iff. by eapply IH.
Qed.

Lemma ParseCIDR_v4 s ip net : free_of ":" s -> ParseCIDR s = Some (ip, net) ->
  exists n ones, is_ipv4 n /\ 0 <= ones <= 32 /\ net = Net4 (mask_bits 32 ones n) ones /\ To4 ip = Some n.
Proof.
  intros Hf. unfold ParseCIDR. destruct (cut s "/") as [addr mask] eqn:Ec.
  destruct mask as [mask|]; [|done]. cbn [mbind option_bind].
  assert (Hfa : free_of ":" addr) by (by eapply cut_left).
  destruct (ParseAddr addr) as [a|] eqn:Ea; [|done]. cbn [mbind option_bind].
  destruct (ParseAddr_v4 addr a Hfa Ea) as (n & -> & Hn). cbn [zone_of String.eqb negb].
  unfold dtoi. destruct (parse_unsigned mask) as [m|] eqn:Em; [|done]. cbn [mbind option_bind].
  destruct (m <? 16777215); [|done]. cbn [mbind option_bind].
  destruct (Z.ltb_spec 32 m); [done|]. intros [= <- <-]. exists n, m.
  split; [done|]. split; [|by split; [|apply To4_mapped]]. split; [|done].
  by apply (parse_unsigned_nonneg mask).
Qed.

Lemma net_not_all n ones : is_ipv4 n -> 0 <= ones <= 32 -> mask_bits 32 ones n = n ->
  net_string (Net4 n ones) = all_ipv4 -> n = 0 /\ ones = 0.
Proof.
  intros Hn Ho Hm E. pose proof (ParseCIDR_string n ones Hn Ho Hm) as Hp. rewrite E in Hp.
  assert (H0 : ParseCIDR all_ipv4 = Some (v4_prefix, Net4 0 0)) by (vm_compute; reflexivity).
  rewrite H0 in Hp. split; congruence.
Qed.

Lemma normalize_net n ones : is_ipv4 n -> 0 <= ones <= 32 -> mask_bits 32 ones n = n ->
  let v := net_string (Net4 n ones) in
  normalize_ip v = Ok v /\ well_written v /\ forall a, is_ipv4 a -> address_in v a = in_prefix 32 ones n a.
Proof.
  intros Hn Ho Hm v.
  assert (Hv : EqualFold v "any" = false) by (by apply ipv4_not_any).
  assert (Hslash : Contains v "/" = true) by apply Contains_here.
  assert (Hparse : ParseCIDR v = Some (v4_prefix + n, Net4 n ones)) by (by apply ParseCIDR_string).
  split_and!.
  - unfold normalize_ip. rewrite Hv, Hslash, Hparse. cbn [orb].
    destruct (String.eqb_spec v all_ipv4) as [->|]; [done|]. by rewrite To4_mapped.
  - split.
    + unfold v, net_string. unfold ipv4_string. rewrite !sapp_assoc. apply app_not_empty, Itoa_not_empty.
    + unfold v, net_string. rewrite !sforall_app, ipv4_string_plain, Itoa_plain by (done || lia). done.
  - intros a Ha. unfold address_in. rewrite Hv, Hslash, Hparse. cbn [orb].
    destruct (String.eqb_spec v all_ipv4) as [E|]; [|done].
    destruct (net_not_all n ones Hn Ho Hm E) as [-> ->]. unfold in_prefix, mask_bits, is_ipv4 in *.
    by rewrite Z.sub_0_r, Z.div_small.
Qed.

Lemma normalize_host n : is_ipv4 n ->
  let v := ipv4_string n in
  normalize_ip v = Ok v /\ well_written v /\ forall a, address_in v a = (n =? a).
Proof.
  intros Hn v.
  assert (Hv : EqualFold v "any" = false).
  { pose proof (ipv4_not_any n "" Hn) as Ha. by rewrite sapp_nil_r in Ha. }
  assert (Hslash : Contains v "/" = false) by (apply Contains_free; by apply ipv4_string_free).
  assert (Hall : String.eqb v all_ipv4 = false).
  { apply String.eqb_neq. intros E. by rewrite E in Hslash. }
  assert (Hparse : ParseIP v ≫= To4 = Some n).
  { unfold ParseIP. unfold v. rewrite ParseAddr_string by done. cbn. by apply To4_mapped. }
  unfold normalize_ip, address_in. rewrite Hv, Hall, Hslash, Hparse. cbn [orb].
  split; [done|]. split; [|done]. split; [|by apply ipv4_string_plain].
  unfold v, ipv4_string. apply app_not_empty, Itoa_not_empty.
Qed.

(** What the normal form of an address keeps, for addresses written as IPv4. *)
Lemma normalize_ip_Ok value v : free_of ":" value -> normalize_ip value = Ok v ->
  normalize_ip v = Ok v /\ well_written v /\ forall a, is_ipv4 a -> address_in v a = address_in value a.
Proof.
  intros Hf. unfold normalize_ip, address_in at 2.
  destruct (EqualFold value "any" || String.eqb value all_ipv4) eqn:Eany.
  - intros [= <-]. split_and!; [unfold normalize_ip; by rewrite orb_true_r|done|].
    intros a Ha. unfold address_in. by rewrite orb_true_r.
  - destruct (Contains value "/") eqn:Es.
    + destruct (ParseCIDR value) as [[ip net]|] eqn:Ep; [|done].
      destruct (ParseCIDR_v4 value ip net Hf Ep) as (n & ones & Hn & Ho & -> & Hip).
      rewrite Hip. cbn [bool_decide]. rewrite bool_decide_false by done. intros [= <-].
      by apply normalize_net; [apply mask_bits_ipv4| |apply mask_bits_idemp].
    + destruct (ParseIP value ≫= To4) as [n|] eqn:Ep; [|done]. intros [= <-].
      assert (Hn : is_ipv4 n).
      { destruct (ParseIP value) as [ip|]; [|done]. cbn in Ep. by apply To4_range in Ep as [? _]. }
      destruct (normalize_host n Hn) as (Hfix & Hww & Ha). split; [done|]. split; [done|].
      intros a _. apply Ha.
Qed.
End addresses.

(** ** Ports *)

Definition port_ok (r : Z * Z) : Prop := 1 <= r.1 /\ r.1 <= r.2 /\ r.2 <= 65535.

Lemma parse_port_Ok s r : parse_port s = Ok r -> port_ok r.
Proof.
  unfold parse_port, port_ok. intros E. repeat case_hyp E; try discriminate E; injection E as <-; bool_props; cbn; lia.
Qed.

Lemma TrimSpace_plain s : sforall plain s = true -> TrimSpace s = s.
Proof. intros Hs. by apply TrimSpace_visible, plain_visible. Qed.

Lemma Atoi_port v : 1 <= v <= 65535 -> Atoi (TrimSpace (Itoa v)) = Some v.
Proof. intros Hv. rewrite TrimSpace_plain by (apply Itoa_plain; lia). apply Atoi_Itoa. lia. Qed.

Lemma Split_port r : port_ok r ->
  Split (port_string r) "-" = if r.2 =? r.1 then [Itoa r.1] else [Itoa r.1; Itoa r.2].
Proof.
  destruct r as [a b]. unfold port_ok, port_string. cbn [fst snd]. intros Hr.
  assert (Hdash : forall v, 0 <= v -> free_of "-" (Itoa v)) by (intros; by apply digits_free).
  destruct (b =? a); [by apply Split_free, Hdash; lia|].
  change (Split (Itoa a +:+ String "-" (Itoa b)) "-" = [Itoa a; Itoa b]).
  by rewrite Split_app, Split_free by (apply Hdash; lia).
Qed.

Lemma parse_port_string r : port_ok r -> parse_port (port_string r) = Ok r.
Proof.
  intros Hr. unfold parse_port. rewrite Split_port by done. destruct r as [a b].
  unfold port_ok in Hr. cbn [fst snd] in *. destruct (Z.eqb_spec b a) as [->|].
  - rewrite Atoi_port by lia. by rewrite (proj2 (Z.ltb_ge a 1)), (proj2 (Z.ltb_ge 65535 a)) by lia.
  - rewrite !Atoi_port by lia.
    rewrite (proj2 (Z.ltb_ge a 1)), (proj2 (Z.ltb_ge 65535 a)) by lia. cbn [orb].
    by rewrite (proj2 (Z.ltb_ge b a)), (proj2 (Z.ltb_ge 65535 b)) by lia.
Qed.

Lemma port_string_written r : port_ok r -> well_written (port_string r).
Proof.
  destruct r as [a b]. unfold port_ok, port_string, well_written. cbn [fst snd]. intros Hr.
  destruct (b =? a).
  - split; [apply Itoa_not_empty|]. apply Itoa_plain. lia.
  - split; [apply app_not_empty, Itoa_not_empty|]. rewrite !sforall_app, !Itoa_plain by lia. done.
Qed.

Lemma in_range_string r p : port_ok r -> in_range (port_string r) p = (r.1 <=? p) && (p <=? r.2).
Proof.
  intros Hr. unfold in_range. rewrite Split_port by done. destruct r as [a b].
  unfold port_ok in Hr. cbn [fst snd] in *.
  destruct (Z.eqb_spec b a) as [->|]; cbn [head from_option id]; by rewrite !Atoi_Itoa by lia.
Qed.

Lemma normalize_port_Ok s v : normalize_port s = Ok v ->
  normalize_port v = Ok v /\ well_written v /\
  forall p, in_range v p = true <-> exists r, parse_port s = Ok r /\ r.1 <= p <= r.2.
Proof.
  unfold normalize_port at 1. destruct (parse_port s) as [r|] eqn:E; [|done]. intros [= <-].
  apply parse_port_Ok in E as Hr. unfold normalize_port. rewrite parse_port_string by done.
  split; [done|]. split; [by apply port_string_written|]. intros p.
  rewrite in_range_string by done. rewrite andb_true_iff, !Z.leb_le. split; [by exists r|].
  by intros (r' & [= <-] & Hp).
Qed.

(** The ports that a text of the user means; none at all means every port. *)
Definition port_in (raw : string) (p : Z) : Prop :=
  TrimSpace raw = "" \/
  exists part r, In part (Split raw ",") /\ parse_port (TrimSpace part) = Ok r /\ r.1 <= p <= r.2.

Lemma by_start_order l : in_order by_start (sort_slice by_start l).
Proof. apply sort_slice_order; unfold by_start; intros *; rewrite ?Z.ltb_lt, ?Z.ltb_ge; lia. Qed.

Lemma sorted_in l x : In x (sort_slice by_start (dedupe [] l)) <-> In x l.
Proof.
  rewrite <- !list_elem_of_In, sort_slice_Permutation, !list_elem_of_In, dedupe_In. cbn. tauto.
Qed.

Lemma Join_not_blank l : l <> [] -> Forall well_written l -> TrimSpace (Join l ",") <> "".
Proof.
  intros Hne Hl. destruct Hl as [|v l [Hv Hp] _]; [done|].
  destruct v as [|c v]; [done|]. cbn [sforall] in Hp. apply andb_true_iff in Hp as [Hc _].
  assert (Hvis : visible c = true).
  { assert (Hs : sforall plain (str1 c) = true) by (cbn; by rewrite Hc).
    apply plain_visible in Hs. cbn in Hs. by apply andb_true_iff in Hs as [? _]. }
  destruct l as [|u l]; cbn [Join append]; by apply TrimSpace_not_blank.
Qed.

Lemma Forall2_In_r {A B} (R : A -> B -> Prop) l k y : Forall2 R l k -> In y k -> exists x, In x l /\ R x y.
Proof.
  induction 1 as [|x z l k Hx _ IH]; [done|]. intros [<-|Hy]; [by exists x; split; [left|]|].
  destruct (IH Hy) as (x' & ? & ?). exists x'. by split; [right|].
Qed.

Lemma Forall2_In_l {A B} (R : A -> B -> Prop) l k x : Forall2 R l k -> In x l -> exists y, In y k /\ R x y.
Proof.
  induction 1 as [|z y l k Hx _ IH]; [done|]. intros [<-|Hy]; [by exists y; split; [left|]|].
  destruct (IH Hy) as (y' & ? & ?). exists y'. by split; [right|].
Qed.

Lemma normalizePorts_Ok raw protocol l : normalizePorts raw protocol = Ok l ->
  normalizePorts (Join l ",") protocol = Ok l /\ Forall well_written l /\
  forall p, portSetContains l p = true <-> port_in raw p.
Proof.
  unfold normalizePorts at 1. destruct (String.eqb_spec (TrimSpace raw) "") as [Eraw|Eraw].
  { intros [= <-]. split_and!; [done|constructor|]. intros p. split; [|done]. by left. }
  destruct (_ || _) eqn:Eproto; [done|]. destruct (existsb _ _) eqn:Eempty; [done|].
  destruct (normalize_each _ _) as [vs|] eqn:Evs; [|done]. intros [= <-].
  apply normalize_each_Forall2 in Evs.
  assert (Hvs : Forall (fun v => normalize_port v = Ok v /\ well_written v) vs).
  { apply List.Forall_forall. intros v Hv. destruct (Forall2_In_r _ _ _ _ Evs Hv) as (s & _ & Hs).
    by destruct (normalize_port_Ok s v Hs) as (? & ? & _). }
  set (l := sort_slice by_start (dedupe [] vs)).
  assert (Hl : Forall (fun v => normalize_port v = Ok v /\ well_written v) l).
  { rewrite List.Forall_forall in Hvs |- *. intros v Hv. by apply Hvs, sorted_in. }
  apply Forall_and in Hl as [Hfix Hww].
  assert (Hne : l <> []).
  { destruct (Split_cons raw ",") as (h & t & E). rewrite E in Evs. cbn [map] in Evs.
    apply Forall2_cons_inv_l in Evs as (u & us & _ & _ & ->).
    intros E'. assert (Hu : In u l) by (apply sorted_in; by left). by rewrite E' in Hu. }
  split_and!.
  - unfold normalizePorts. rewrite (proj2 (String.eqb_neq _ _)) by (by apply Join_not_blank).
    rewrite Eproto, Split_Join_comma, map_TrimSpace, no_empty by done.
    rewrite normalize_each_fixed by done. f_equal. unfold l at 2.
    rewrite dedupe_id; [|unfold l; rewrite sort_slice_Permutation; apply dedupe_NoDup|by intros ? ? []].
    apply sort_slice_id, by_start_order.
  - done.
  - intros p. assert (Hset : portSetContains l p = existsb (fun v => in_range v p) l) by (by destruct l).
    rewrite Hset, existsb_exists. split.
    + intros (v & Hv & Hp). apply (proj1 (sorted_in vs v)) in Hv. right. destruct (Forall2_In_r _ _ _ _ Evs Hv) as (s & Hs & E).
      apply in_map_iff in Hs as (part & Hs & Hpart). rewrite <- Hs in E. destruct (normalize_port_Ok _ _ E) as (_ & _ & Hr).
      apply Hr in Hp as (r & Hr1 & Hr2). by exists part, r.
    + intros [E|(part & r & Hpart & Hr)]; [done|].
      destruct (Forall2_In_l _ _ _ (TrimSpace part) Evs) as (v & Hv & E); [by apply in_map|].
      exists v. split; [by apply sorted_in|]. destruct (normalize_port_Ok _ _ E) as (_ & _ & Hin).
      apply Hin. by exists r.
Qed.

(** ** Rules *)

Section rules.
Context `{!UnicodeCase}.

Lemma splitValues_free c raw : free_of c raw -> Forall (free_of c) (splitValues raw).
Proof using Type.
  intros Hf. assert (Hp : Forall (free_of c) (Split raw ",")).
  { revert Hf. unfold free_of. induction raw as [|d raw IH]; cbn [Split]; [by constructor|].
    cbn [sforall]. intros [Hd Hs]%andb_true_iff. specialize (IH Hs).
    destruct (Ascii.eqb d ","); [by constructor|].
    destruct IH as [|h t Hh Ht]; constructor; try done; cbn; by rewrite Hd. }
  unfold splitValues. apply List.Forall_forall. intros v [Hv _]%filter_In.
  apply in_map_iff in Hv as (u & <- & Hu). rewrite List.Forall_forall in Hp.
  by apply sforall_TrimSpace, Hp.
Qed.

(** The addresses that a text of the user means; none at all means all. *)
Definition address_meant (raw : string) (a : Z) : Prop :=
  splitValues raw = [] \/ exists part, In part (splitValues raw) /\ address_in part a = true.

Lemma sorted_dedupe_In l x : In x (sort_strings (dedupe [] l)) <-> In x l.
Proof using Type.
  rewrite <- !list_elem_of_In, sort_strings_Permutation, !list_elem_of_In, dedupe_In. cbn. tauto.
Qed.

Lemma normalizeIPs_Ok raw l : free_of ":" raw -> normalizeIPs raw = Ok l ->
  normalizeIPs (Join l ",") = Ok l /\ Forall well_written l /\
  forall a, is_ipv4 a -> existsb (fun v => address_in v a) l = true <-> address_meant raw a.
Proof.
  intros Hf. apply splitValues_free in Hf. unfold normalizeIPs at 1, address_meant.
  destruct (splitValues raw) as [|part parts] eqn:Es.
  { intros [= <-]. split_and!.
    - unfold normalizeIPs. cbn [Join]. assert (E : splitValues all_ipv4 = [all_ipv4]) by (vm_compute; reflexivity).
      rewrite E. cbn [normalize_each]. unfold normalize_ip. by rewrite String.eqb_refl, orb_true_r.
    - by repeat constructor.
    - intros a _. cbn. unfold address_in. rewrite String.eqb_refl, orb_true_r. split; [by left|done]. }
  destruct (normalize_each _ _) as [vs|] eqn:Evs; [|done]. intros [= <-].
  apply normalize_each_Forall2 in Evs. rewrite List.Forall_forall in Hf.
  assert (Hvs : forall v, In v vs -> exists s, In s (part :: parts) /\ normalize_ip s = Ok v /\
    normalize_ip v = Ok v /\ well_written v /\ forall a, is_ipv4 a -> address_in v a = address_in s a).
  { intros v Hv. destruct (Forall2_In_r _ _ _ _ Evs Hv) as (s & Hs & E). exists s.
    destruct (normalize_ip_Ok s v (Hf s Hs) E) as (? & ? & ?). done. }
  set (l := sort_strings (dedupe [] vs)).
  assert (Hl : forall v, In v l -> normalize_ip v = Ok v /\ well_written v).
  { intros v Hv. apply (proj1 (sorted_dedupe_In vs v)) in Hv. destruct (Hvs v Hv) as (? & ? & ? & ? & ? & ?). done. }
  assert (Hww : Forall well_written l) by (apply List.Forall_forall; intros v Hv; by apply Hl).
  split_and!; [|done|].
  - unfold normalizeIPs. rewrite splitValues_Join by done.
    assert (Hne : l <> []).
    { apply Forall2_cons_inv_l in Evs as (u & us & _ & _ & ->). intros E'.
      assert (Hu : In u l) by (apply sorted_dedupe_In; by left). by rewrite E' in Hu. }
    transitivity (match normalize_each normalize_ip l with
                  | Ok values => Ok (sort_strings (dedupe [] values)) | Fail e => Fail e end); [by destruct l|].
    rewrite normalize_each_fixed.
    + f_equal. rewrite dedupe_id; [|unfold l; rewrite sort_strings_Permutation; apply dedupe_NoDup|by intros ? ? []].
      apply sort_strings_id, sort_strings_Sorted.
    + apply List.Forall_forall. intros u Hu. by apply Hl.
  - intros a Ha. rewrite existsb_exists. split.
    + intros (v & Hv & Hin). apply (proj1 (sorted_dedupe_In vs v)) in Hv.
      destruct (Hvs v Hv) as (s & Hs & _ & _ & _ & E). right. exists s. by rewrite <- E.
    + intros [E|(s & Hs & Hin)]; [done|]. destruct (Forall2_In_l _ _ _ s Evs Hs) as (v & Hv & E).
      exists v. split; [by apply sorted_dedupe_In|].
      destruct (normalize_ip_Ok s v (Hf s Hs) E) as (_ & _ & Hsame). by rewrite Hsame.
Qed.

(** The words of a rule that passed are in normal form. *)
Lemma lowered_word x l : one_of x l = true ->
  Forall (fun w => ToLower (TrimSpace w) = w) l -> ToLower (TrimSpace x) = x.
Proof.
  intros (w & Hw & E)%existsb_exists Hl. apply String.eqb_eq in E as ->. rewrite List.Forall_forall in Hl. by apply Hl.
Qed.

Record accepted (now : time) (rule' : IptablesRule) (panelPort : Z) (n : normalizedRule) : Prop := {
  ac_type : one_of (N_RuleType n) ["port"; "ip"; "region"; "auto_block"] = true;
  ac_direction : one_of (N_Direction n) ["in"; "out"] = true;
  ac_protocol : one_of (N_Protocol n) ["tcp"; "udp"; "icmp"; "all"] = true;
  ac_strategy : one_of (N_Strategy n) ["allow"; "deny"] = true;
  ac_other : String.eqb (N_RuleType n) "port" = false ->
    N_Direction n = "in" /\ N_Protocol n = "all" /\ Ports rule' = "";
  ac_remark : TrimSpace (N_Remark n) = N_Remark n /\ (200 <? RuneCount (N_Remark n)) = false;
  ac_location : TrimSpace (N_Location n) = N_Location n /\ (128 <? RuneCount (N_Location n)) = false /\
    String.eqb (N_RuleType n) "region" && String.eqb (N_Location n) "" = false;
  ac_expires : match N_ExpiresAt n with Some t => negb (After t now) | None => false end = false;
  ac_ips : normalizeIPs (IPs rule') = Ok (N_IPs n);
  ac_ports : normalizePorts (Ports rule') (N_Protocol n) = Ok (N_Ports n);
  ac_state : N_State n = 0 \/ N_State n = 1;
  ac_check : check_rule panelPort n = Ok n
}.

Lemma check_rule_Ok panelPort n m : check_rule panelPort n = Ok m -> m = n /\ check_rule panelPort n = Ok n.
Proof using Type.
  unfold check_rule. intros E. repeat (case_hyp E; [done|]). by injection E as <-.
Qed.

Lemma normalizeRule_accepted now rule panelPort n rule' :
  normalizeRule now rule panelPort = (Ok n, rule') ->
  accepted now rule' panelPort n /\ IPs rule' = IPs rule /\
  (String.eqb (N_RuleType n) "port" = true -> rule' = rule).
Proof.
  unfold normalizeRule. cbv zeta.
  set (ruleType := if String.eqb (ToLower (TrimSpace (RuleType rule))) "" then "port"
                   else ToLower (TrimSpace (RuleType rule))).
  destruct (one_of ruleType _) eqn:Etype; cbn [negb]; [|done].
  intros E. repeat match type of E with (if ?c then (Fail _, _) else _) = _ => destruct c eqn:?; [done|] end.
  injection E as E Er. destruct (normalizeIPs _) as [ips|] eqn:Eips; [|done].
  destruct (normalizePorts _ _) as [ports|] eqn:Eports; [|done].
  apply check_rule_Ok in E as [-> Echeck].
  repeat match goal with H : negb _ = false |- _ => apply negb_false_iff in H end.
  subst rule'. split; [|split].
  - constructor; cbn [N_RuleType N_Direction N_Protocol N_Strategy N_IPs N_Ports N_Remark N_Location N_ExpiresAt N_State];
      try done; try (split; [apply TrimSpace_idemp|done]).
    + by intros ->.
    + destruct (State rule =? 0); auto.
  - by destruct (String.eqb ruleType "port").
  - cbn [N_RuleType]. by intros ->.
Qed.

(** An accepted rule is its own normal form. *)
Lemma accepted_fixed now rule' panelPort n :
  free_of ":" (IPs rule') -> accepted now rule' panelPort n ->
  let stored := applyNormalized rule' n in
  normalizeRule now stored panelPort = (Ok n, stored).
Proof.
  intros Hf [Ht Hd Hp Hs Ho [Hr1 Hr2] (Hl1 & Hl2 & Hl3) He Hi Hpo Hst Hc] stored.
  assert (Hw : forall x, one_of x ["port"; "ip"; "region"; "auto_block"] = true \/ one_of x ["in"; "out"] = true \/
    one_of x ["tcp"; "udp"; "icmp"; "all"] = true \/ one_of x ["allow"; "deny"] = true -> ToLower (TrimSpace x) = x).
  { intros x [Hx|[Hx|[Hx|Hx]]]; (eapply lowered_word; [exact Hx|]; repeat constructor; vm_compute; reflexivity). }
  destruct (normalizeIPs_Ok _ _ Hf Hi) as (Hips & _ & _).
  destruct (normalizePorts_Ok _ _ _ Hpo) as (Hports & _ & _).
  unfold normalizeRule. cbv zeta. unfold stored, applyNormalized.
  cbn [RuleType Direction Protocol Strategy IPs Ports State Remark Location ExpiresAt].
  rewrite (Hw (N_RuleType n)), (Hw (N_Direction n)), (Hw (N_Protocol n)), (Hw (N_Strategy n)), Hr1, Hl1 by auto.
  assert (Hne : String.eqb (N_RuleType n) "" = false).
  { destruct (String.eqb_spec (N_RuleType n) "") as [E|]; [|done]. by rewrite E in Ht. }
  rewrite Hne, Ht. cbn [negb].
  assert (Hrule : (if String.eqb (N_RuleType n) "port" then stored else clear_ports stored) = stored).
  { destruct (String.eqb (N_RuleType n) "port") eqn:Eport; [done|].
    destruct (Ho eq_refl) as (_ & Eall & Eports). rewrite Eports, Eall in Hpo. injection Hpo as Hpo.
    unfold stored, applyNormalized, clear_ports. cbn. by rewrite <- Hpo. }
  unfold stored, applyNormalized in Hrule. rewrite Hrule.
  assert (Hdir : (if String.eqb (N_RuleType n) "port" then N_Direction n else "in") = N_Direction n).
  { destruct (String.eqb (N_RuleType n) "port"); [done|]. by destruct (Ho eq_refl) as (-> & _ & _). }
  assert (Hproto : (if String.eqb (N_RuleType n) "port" then N_Protocol n else "all") = N_Protocol n).
  { destruct (String.eqb (N_RuleType n) "port"); [done|]. by destruct (Ho eq_refl) as (_ & -> & _). }
  rewrite Hdir, Hproto, Hd, Hp, Hs, Hr2, Hl2, Hl3. cbn [negb IPs Ports ExpiresAt].
  rewrite He, Hips, Hports.
  assert (Hstate : (if N_State n =? 0 then 0 else 1) = N_State n) by (destruct Hst as [-> | ->]; done).
  rewrite Hstate. f_equal. transitivity (check_rule panelPort n); [by destruct n|done].
Qed.
End rules.

(** ** What validation promises *)

Section promises.
Context `{!UnicodeCase}.


Lemma net_leaves_out n ones : is_ipv4 n -> 1 <= ones <= 32 ->
  exists a, is_ipv4 a /\ in_prefix 32 ones (mask_bits 32 ones n) a = false.
Proof using Type.
  intros Hn Ho. exists (if n <? 2 ^ 31 then n + 2 ^ 31 else n - 2 ^ 31). unfold is_ipv4 in *.
  assert (Hp : 0 < 2 ^ (32 - ones) <= 2 ^ 31).
  { split; [apply Z.pow_pos_nonneg; lia|]. apply Z.pow_le_mono_r; lia. }
  unfold in_prefix, mask_bits. rewrite Z.eqb_neq. revert Hp. generalize (2 ^ (32 - ones)) as k. intros k Hk.
  destruct (Z.ltb_spec n (2 ^ 31)); (split; [lia|]);
    match goal with |- ?a / k * k <> _ =>
      pose proof (Z.div_mod a k ltac:(lia)); pose proof (Z.mod_pos_bound a k ltac:(lia)) end;
    pose proof (Z.div_mod n k ltac:(lia)); pose proof (Z.mod_pos_bound n k ltac:(lia)); lia.
Qed.

Lemma host_leaves_out n : is_ipv4 n -> exists a, is_ipv4 a /\ (n =? a) = false.
Proof using Type.
  intros Hn. unfold is_ipv4 in *. exists (if n =? 0 then 1 else 0). destruct (Z.eqb_spec n 0); lia.
Qed.

Lemma normalize_ip_leaves_out value v : free_of ":" value -> normalize_ip value = Ok v -> v <> all_ipv4 ->
  exists a, is_ipv4 a /\ address_in v a = false.
Proof using Type.
  intros Hf. unfold normalize_ip. destruct (_ || _); [by intros [= <-]|].
  destruct (Contains value "/").
  - destruct (ParseCIDR value) as [[ip net]|] eqn:Ep; [|done].
    destruct (ParseCIDR_v4 value ip net Hf Ep) as (n & ones & Hn & Ho & -> & Hip).
    rewrite Hip, bool_decide_false by done. intros [= <-] Hall.
    destruct (normalize_net (mask_bits 32 ones n) ones) as (_ & _ & Ha);
      [by apply mask_bits_ipv4|done|by apply mask_bits_idemp|].
    destruct (Z.eq_dec ones 0) as [->|].
    + exfalso. apply Hall. unfold mask_bits, is_ipv4 in *. rewrite Z.sub_0_r, Z.div_small by done. reflexivity.
    + destruct (net_leaves_out n ones Hn) as (a & Hai & Hout); [lia|]. exists a. by rewrite Ha.
  - destruct (ParseIP value ≫= To4) as [n|] eqn:Ep; [|done]. intros [= <-] _.
    assert (Hn : is_ipv4 n).
    { destruct (ParseIP value) as [ip|]; [|done]. cbn in Ep. by apply To4_range in Ep as [? _]. }
    destruct (normalize_host n Hn) as (_ & _ & Ha). destruct (host_leaves_out n Hn) as (a & ? & Hout).
    exists a. by rewrite Ha.
Qed.

End promises.

Section witnesses.
#[local] Existing Instance latin1_case.

Definition demo_deny : IptablesRule :=
  mkRule 0 "port" "in" "tcp" "deny" "10.1.2.3/8,10.0.0.0/8" "443, 80 -  90,+443" 1 "" "" None "" "" false.



(** The check for the whole of IPv4 looks at one address at a time: the two
    halves pass, and with them a rule that blocks every inbound packet. *)
Definition two_halves : IptablesRule :=
  mkRule 0 "ip" "in" "all" "deny" "0.0.0.0/1,128.0.0.0/1" "" 1 "" "" None "" "" false.

Lemma everything_can_be_denied : exists n,
  normalizeRule 0 two_halves 8089 = (Ok n, two_halves) /\
  forall a, is_ipv4 a -> existsb (fun v => address_in v a) (N_IPs n) = true.
Proof.
  eexists. split; [vm_compute; reflexivity|]. cbn [N_IPs existsb]. intros a Ha. unfold address_in.
  assert (E0 : ParseCIDR "0.0.0.0/1" = Some (v4_prefix, Net4 0 1)) by (vm_compute; reflexivity).
  assert (E1 : ParseCIDR "128.0.0.0/1" = Some (v4_prefix + 2 ^ 31, Net4 (2 ^ 31) 1)) by (vm_compute; reflexivity).
  assert (N0 : EqualFold "0.0.0.0/1" "any" = false) by (vm_compute; reflexivity).
  assert (N1 : EqualFold "128.0.0.0/1" "any" = false) by (vm_compute; reflexivity).
  rewrite N0, N1, E0, E1. cbn [orb String.eqb Ascii.eqb Bool.eqb all_ipv4 Contains String.prefix ascii_dec].
  change (Contains "0.0.0.0/1" "/") with true. change (Contains "128.0.0.0/1" "/") with true. cbv iota.
  unfold in_prefix, mask_bits, is_ipv4 in *. change (2 ^ (32 - 1)) with (2 ^ 31).
  apply orb_true_iff. destruct (Z.ltb_spec a (2 ^ 31)).
  - left. rewrite Z.div_small by lia. done.
  - right. apply orb_true_iff. left. apply Z.eqb_eq.
    assert (E : a / 2 ^ 31 = 1) by (symmetry; apply (Z.div_unique_pos a (2 ^ 31) 1 (a - 2 ^ 31)); lia). by rewrite E.
Qed.

(** An IPv4-mapped network with a short prefix is accepted as IPv4 and stored as
    an IPv6 network. *)
Lemma mapped_network_is_stored_as_ipv6 : normalizeIPs "::ffff:10.1.2.3/50" = Ok ["::/50"].
Proof. vm_compute. reflexivity. Qed.
End witnesses.
