(* ===== verification/Firewall.v ===== *)
(** The firewall service ([internal/services/safe/service.go], [backend.go],
    [forward.go], [auto_block.go]): rules and port forwards are applied to the
    host by commands and then stored, and a step that fails is compensated.

    The host is the interface [Host]: the [CommandRunner] of the code, the
    search for programs, and the file of UFW.  Its state is a component of the
    state of the service, beside the tables, so that every theorem ranges over
    what the commands do.  All operations hold one mutex, so they run one after
    the other. *)

From stdpp Require Import gmap sorting options.
From S2P Require Import Prelude GoStrings GoText GoNet GoFloat Store FirewallRule.
#[local] Open Scope Z_scope.

Definition DisableConfirmation : string := "DISABLE FIREWALL".
Definition panelRuleRemark : string := "Panel 管理端口（系统保护）".

(** ** State *)

Class Host (H : Type) := {
  LookPath : string -> H -> bool;
  Run : string -> list string -> H -> result string * H;
  ReadBeforeRules : H -> result string;
  StatBeforeRules : H -> option error;
  WriteBeforeRules : string -> H -> option error * H
}.

Record FirewallPortForward := mkForward {
  F_ID : Z; F_Protocol : string; F_SourcePort : Z; F_DestinationIP : string; F_DestinationPort : Z;
  F_State : Z; F_Remark : string; F_Backend : string
}.

Record FirewallAutoBlockConfig := mkAutoBlock {
  AB_ID : Z; AB_Enabled : bool; AB_Threshold : Z; AB_WindowMinutes : Z; AB_BanMinutes : Z;
  AB_LastRunAt : option time
}.

(** [models.Fail2banState], as far as this service writes it. *)
Record Fail2banState := mkFail2ban { FB_ID : Z; FB_MigrationStatus : string; FB_MigrationError : string }.

Record FirewallState (H : Type) := mkFirewall {
  rules : list IptablesRule; rule_seq : Z;
  forwards : list FirewallPortForward; forward_seq : Z;
  auto_block : list FirewallAutoBlockConfig;
  fail2ban : list Fail2banState;
  host : H
}.
Arguments mkFirewall {H} _ _ _ _ _ _ _.
Arguments rules {H} _.
Arguments rule_seq {H} _.
Arguments forwards {H} _.
Arguments forward_seq {H} _.
Arguments auto_block {H} _.
Arguments fail2ban {H} _.
Arguments host {H} _.

Record backendState := mkBackend {
  B_Name : string; B_Installed : bool; B_Enabled : bool; B_Persistent : bool; B_CanToggle : bool;
  B_RepairRequired : bool; B_Warning : string
}.

Definition appendWarning (current message : string) : string :=
  if String.eqb current "" then message else current +:+ "；" +:+ message.

Definition backendPersistentDefault (name : string) : bool :=
  String.eqb name BackendUFW || String.eqb name BackendFirewalld.

(** A reading of the clock and a fresh token, for each rule that is added. *)
Definition stamp : Type := time * string.

Section service.
Context {H : Type} `{!Host H} `{!UnicodeCase}.
Variable panelPort : Z.

Abbreviation FS := (FirewallState H).

Definition set_rules (l : list IptablesRule) (seq : Z) (s : FS) : FS :=
  mkFirewall l seq (forwards s) (forward_seq s) (auto_block s) (fail2ban s) (host s).
Definition set_forwards (l : list FirewallPortForward) (seq : Z) (s : FS) : FS :=
  mkFirewall (rules s) (rule_seq s) l seq (auto_block s) (fail2ban s) (host s).
Definition set_auto_block (l : list FirewallAutoBlockConfig) (s : FS) : FS :=
  mkFirewall (rules s) (rule_seq s) (forwards s) (forward_seq s) l (fail2ban s) (host s).
Definition set_fail2ban (l : list Fail2banState) (s : FS) : FS :=
  mkFirewall (rules s) (rule_seq s) (forwards s) (forward_seq s) (auto_block s) l (host s).
Definition set_host (h : H) (s : FS) : FS :=
  mkFirewall (rules s) (rule_seq s) (forwards s) (forward_seq s) (auto_block s) (fail2ban s) h.

(** ** The host *)

(** [s.runner.Run]: its error is a value. *)
Definition command (name : string) (args : list string) : M FS (result string) := fun w =>
  let '(r, h) := Run name args (host (tables w)) in (Ok r, World (set_host h (tables w)) (faults w)).

Definition has_program (name : string) : M FS bool := fun w => (Ok (LookPath name (host (tables w))), w).

Definition detect_ufw : M FS (list backendState) :=
  let* found := has_program "ufw" in
  if found then
    let* output := command "ufw" ["status"] in
    let active := match output with Ok text => Contains text "Status: active" | Fail _ => false end in
    ret [mkBackend BackendUFW true active true true false ""]
  else ret [].

(** Whether the stored configuration is broken, with the warning. *)
Definition check_firewalld (enabled : bool) : M FS (bool * string) :=
  if enabled then ret (false, "")
  else
    let* offline := has_program "firewall-offline-cmd" in
    if offline then
      let* checked := command "firewall-offline-cmd" ["--check-config"] in
      if is_ok checked then ret (false, "") else ret (true, "firewalld 配置校验失败，请先运行修复任务")
    else ret (false, "").

Definition has_systemd : M FS bool :=
  let* found := has_program "systemctl" in
  if found then let* shown := command "systemctl" ["show-environment"] in ret (is_ok shown) else ret false.

Definition detect_firewalld : M FS (list backendState) :=
  let* found := has_program "firewall-cmd" in
  if found then
    let* status := command "firewall-cmd" ["--state"] in
    let enabled := is_ok status in
    let* '(repair, warning) := check_firewalld enabled in
    let* canToggle := has_systemd in
    let warning :=
      if canToggle then warning
      else appendWarning warning
        "当前环境没有可用的 systemd，不能启停主机 firewalld；Docker 测试容器请使用 Linux 主机模式验证" in
    ret [mkBackend BackendFirewalld true enabled true canToggle repair warning]
  else ret [].

Definition detect_iptables : M FS (list backendState) :=
  let* found := has_program "iptables" in
  if found then
    let* persistent := has_program "netfilter-persistent" in
    let warning :=
      if persistent then "iptables 支持持久化规则管理，但不支持从面板整体启停"
      else "iptables 缺少 netfilter-persistent，已禁止修改以避免重启后规则丢失" in
    ret [mkBackend BackendIPTables true true persistent false false warning]
  else ret [].

Definition no_backend : backendState :=
  mkBackend BackendNone false false false false false "未检测到受支持的防火墙".

(** A running UFW or firewalld first, else firewalld, UFW, iptables. *)
Definition choose_backend (states : list backendState) : backendState :=
  let named name := List.find (fun b => String.eqb (B_Name b) name) states in
  match List.find (fun b => B_Enabled b &&
          (String.eqb (B_Name b) BackendUFW || String.eqb (B_Name b) BackendFirewalld)) states with
  | Some b => b
  | None =>
      match named BackendFirewalld with
      | Some b => b
      | None =>
          match named BackendUFW with
          | Some b => b
          | None => default no_backend (named BackendIPTables)
          end
      end
  end.

Definition detectBackend : M FS backendState :=
  let* ufw := detect_ufw in
  let* firewalld := detect_firewalld in
  let* iptables := detect_iptables in
  ret (choose_backend (ufw ++ firewalld ++ iptables)).

Definition ruleOperations (rule : IptablesRule) : M FS (list commandOperation) :=
  if String.eqb (Backend rule) BackendUFW then ret (ufwRuleOperations rule)
  else if String.eqb (Backend rule) BackendFirewalld then
    ret (firewalldRuleOperations rule "firewall-cmd" true)
  else if String.eqb (Backend rule) BackendIPTables then
    let* found := has_program "netfilter-persistent" in
    if found then ret (iptablesRuleOperations rule)
    else fail (unsupported "iptables 需要安装 netfilter-persistent 后才能由面板管理")
  else fail (unsupported ("未知防火墙后端 " +:+ quoted (Backend rule))).

Definition run_op (op : commandOperation) : M FS (result string) := command (op_name op) (op_args op).

(** Undo what was applied, latest first; the outcome is ignored. *)
Fixpoint undo_all (applied : list commandOperation) : M FS unit :=
  match applied with
  | [] => ret tt
  | op :: applied =>
      let* _ := command (op_undoName op) (op_undoArgs op) in
      undo_all applied
  end.

Definition rollbackOperations (applied : list commandOperation) : M FS unit := undo_all (rev applied).

Definition persist (backend : string) : M FS (result string) :=
  if String.eqb backend BackendFirewalld then command "firewall-cmd" ["--reload"]
  else if String.eqb backend BackendIPTables then command "netfilter-persistent" ["save"]
  else ret (Ok "").

(** [applied] is latest first. *)
Fixpoint run_each (backend : string) (operations applied : list commandOperation) : M FS unit :=
  match operations with
  | [] =>
      let* persisted := persist backend in
      match persisted with
      | Ok _ => ret tt
      | Fail err =>
          let* _ := undo_all applied in
          let* _ := persist backend in
          fail err
      end
  | op :: operations =>
      let* ran := run_op op in
      match ran with
      | Ok _ => run_each backend operations (op :: applied)
      | Fail err =>
          let* _ := undo_all applied in
          fail err
      end
  end.

Definition runOperations (backend : string) (operations : list commandOperation) : M FS unit :=
  run_each backend operations [].

(** [_ = s.runOperations(...)]. *)
Definition run_ignoring (backend : string) (operations : list commandOperation) : M FS unit :=
  let* _ := attempt (runOperations backend operations) in ret tt.

(** Undo and persist, as the code does when the table cannot be written. *)
Definition take_back (backend : string) (operations : list commandOperation) : M FS unit :=
  let* _ := rollbackOperations operations in
  let* _ := persist backend in
  ret tt.

(** ** Tables *)

Definition with_identity (id : Z) (ruleType : string) (r : IptablesRule) : IptablesRule :=
  mkRule id ruleType (Direction r) (Protocol r) (Strategy r) (IPs r) (Ports r) (State r) (Remark r)
    (Location r) (ExpiresAt r) (Backend r) (Token r) (Protected r).

(** [rule_type] has a default. *)
Definition create_rule (rule : IptablesRule) (s : FS) : result (IptablesRule * FS) :=
  let rule := with_identity (rule_seq s)
    (if String.eqb (RuleType rule) "" then "port" else RuleType rule) rule in
  Ok (rule, set_rules (rules s ++ [rule]) (rule_seq s + 1) s).

Definition rule_by_id (id : Z) (s : FS) : option IptablesRule :=
  List.find (fun r => ID r =? id) (rules s).

Definition delete_rule (id : Z) (s : FS) : result (unit * FS) :=
  Ok (tt, set_rules (List.filter (fun r => negb (ID r =? id)) (rules s)) (rule_seq s) s).

Definition update_rule (id : Z) (f : IptablesRule -> IptablesRule) (s : FS) : result (unit * FS) :=
  Ok (tt, set_rules (map (fun r => if ID r =? id then f r else r) (rules s)) (rule_seq s) s).

Definition set_state (state : Z) (r : IptablesRule) : IptablesRule :=
  mkRule (ID r) (RuleType r) (Direction r) (Protocol r) (Strategy r) (IPs r) (Ports r) state (Remark r)
    (Location r) (ExpiresAt r) (Backend r) (Token r) (Protected r).

Definition with_backend (backend : string) (r : IptablesRule) : IptablesRule :=
  mkRule (ID r) (RuleType r) (Direction r) (Protocol r) (Strategy r) (IPs r) (Ports r) (State r)
    (Remark r) (Location r) (ExpiresAt r) backend (Token r) (Protected r).

(** The canonical rule as it is stored: identity, backend, token and location. *)
Definition prepared (id : Z) (backend token : string) (rule : IptablesRule) (n : normalizedRule)
    : IptablesRule :=
  let r := applyNormalized rule n in
  mkRule id (RuleType r) (Direction r) (Protocol r) (Strategy r) (IPs r) (Ports r) (State r) (Remark r)
    (if String.eqb (Location r) "" then describeIPLocation (IPs r) else Location r)
    (ExpiresAt r) backend token false.

(** The columns that an update writes. *)
Definition with_columns (q r : IptablesRule) : IptablesRule :=
  mkRule (ID r) (RuleType q) (Direction q) (Protocol q) (Strategy q) (IPs q) (Ports q) (State q)
    (Remark q) (Location q) (ExpiresAt q) (Backend q) (Token q) (Protected r).

(** ** Rules *)

(** [fmt.Errorf("text%w", err)]. *)
Definition around {A} (text : string) (m : M FS A) : M FS A := fun w =>
  match m w with
  | (Fail e, w') => (Fail (Wrap text e ""), w')
  | done => done
  end.

Definition addLocked (st : stamp) (rule : IptablesRule) : M FS IptablesRule :=
  let '(now, token) := st in
  match normalizeRule now rule panelPort with
  | (Fail err, _) => fail err
  | (Ok normalized, rule) =>
      let* state := detectBackend in
      if negb (B_Installed state) then fail (unsupported "未检测到受支持的防火墙")
      else
        let rule := prepared 0 (B_Name state) token rule normalized in
        let* operations :=
          if State rule =? 1 then
            let* operations := ruleOperations rule in
            let* _ := around "应用防火墙规则失败: " (runOperations (Backend rule) operations) in
            ret operations
          else ret [] in
        let* created := attempt (exec (create_rule rule)) in
        match created with
        | Ok rule => ret rule
        | Fail err =>
            let* _ := if State rule =? 1 then take_back (Backend rule) operations else ret tt in
            fail (Wrap "保存规则失败，系统规则已回滚: " err "")
        end
  end.

Definition Add (st : stamp) (rule : IptablesRule) : M FS IptablesRule := addLocked st rule.

(** The query of an operation: [--add-] becomes [--query-]. *)
Definition query_argument (argument : string) : string :=
  if String.eqb argument "--add-rule" then "--query-rule"
  else if HasPrefix argument "--add-rich-rule=" then
    "--query-rich-rule=" +:+ String.substring 16 (String.length argument) argument
  else argument.

Definition first_args (operations : list commandOperation) : option (list string) :=
  op_args <$> head operations.

Definition ruleExists (rule : IptablesRule) (state : backendState) : M FS bool :=
  if String.eqb (Backend rule) BackendUFW then
    let* output := command "ufw" ["show"; "added"] in
    ret match output with
        | Ok text => negb (String.eqb (Token rule) "") && Contains text (comment_of rule)
        | Fail _ => false
        end
  else if String.eqb (Backend rule) BackendFirewalld then
    let* offline := if B_Enabled state then ret true else has_program "firewall-offline-cmd" in
    if negb offline then ret false
    else
      let name := if B_Enabled state then "firewall-cmd" else "firewall-offline-cmd" in
      match first_args (firewalldRuleOperations rule name (B_Enabled state)) with
      | None => ret false
      | Some args => let* asked := command name (map query_argument args) in ret (is_ok asked)
      end
  else if String.eqb (Backend rule) BackendIPTables then
    match first_args (iptablesRuleOperations rule) with
    | None => ret false
    | Some args => let* asked := command "iptables" ("-C" :: tail args) in ret (is_ok asked)
    end
  else ret false.

(** [Order("protected DESC, id DESC")]. *)
Definition protected_first (a b : IptablesRule) : Prop :=
  Protected a = true /\ Protected b = false \/ Protected a = Protected b /\ ID b <= ID a.
#[local] Instance protected_first_dec : RelDecision protected_first.
Proof. intros a b. unfold protected_first. apply _. Defined.

Definition open_candidate (r : IptablesRule) : bool :=
  (State r =? 1) && String.eqb (Direction r) "in" && String.eqb (Strategy r) "allow"
  && one_of (Protocol r) ["tcp"; "all"].

(** The first stored rule that opens the port to everyone and is in effect. *)
Fixpoint reuse_rule (clock : list time) (state : backendState) (port : Z)
    (candidates : list IptablesRule) : M FS (option Z) :=
  match candidates with
  | [] => ret None
  | candidate :: candidates =>
      let next := reuse_rule (tail clock) state port candidates in
      match normalizeRule (default 0 (head clock)) candidate panelPort with
      | (Fail _, _) => next
      | (Ok normalized, candidate) =>
          if negb (containsAllIPv4 (N_IPs normalized)) || negb (portSetContains (N_Ports normalized) port)
          then next
          else if negb (String.eqb (Backend candidate) "") && negb (String.eqb (Backend candidate) (B_Name state))
          then next
          else
            let* exists_ := ruleExists candidate state in
            if exists_ then ret (Some (ID candidate)) else next
      end
  end.

Definition website_rule (port : Z) (websiteName : string) : IptablesRule :=
  mkRule 0 "port" "in" "tcp" "allow" all_ipv4 (Itoa port) 1 websiteName "" None "" "" false.

(** The rule and whether it was created. *)
Definition EnsureWebsitePort (clock : list time) (st : stamp) (port : Z) (websiteName : string)
    : M FS (Z * bool) :=
  if (port <? 1) || (65535 <? port) then fail (validationError "网站端口必须在 1-65535 之间")
  else
    let websiteName := TrimSpace websiteName in
    if String.eqb websiteName "" then fail (validationError "网站名称不能为空")
    else
      let* state := detectBackend in
      if negb (B_Installed state) || negb (B_Enabled state) then ret (0, false)
      else
        let* candidates := read (fun s => merge_sort protected_first (List.filter open_candidate (rules s))) in
        let* reused := reuse_rule clock state port candidates in
        match reused with
        | Some id => ret (id, false)
        | None => let* rule := addLocked st (website_rule port websiteName) in ret (ID rule, true)
        end.

(** [if old.State == 1 { _ = s.runOperations(old) }]. *)
Definition restore_old (old : IptablesRule) (operations : list commandOperation) : M FS unit :=
  if State old =? 1 then run_ignoring (Backend old) operations else ret tt.

Definition remove_old (old : IptablesRule) : M FS (list commandOperation) :=
  if State old =? 1 then
    let* operations := ruleOperations old in
    let* _ := around "删除旧系统规则失败，原规则已恢复: "
      (runOperations (Backend old) (reverseOperations operations)) in
    ret operations
  else ret [].

Definition apply_new (old requested : IptablesRule) (oldOperations : list commandOperation)
    : M FS (list commandOperation) :=
  if State requested =? 1 then
    let* found := attempt (ruleOperations requested) in
    match found with
    | Fail err => let* _ := restore_old old oldOperations in fail err
    | Ok operations =>
        let* ran := attempt (runOperations (Backend requested) operations) in
        match ran with
        | Ok _ => ret operations
        | Fail err =>
            let* _ := restore_old old oldOperations in
            fail (Wrap "应用新规则失败，原规则已恢复: " err "")
        end
    end
  else ret [].

Definition Update (st : stamp) (requested : IptablesRule) : M FS IptablesRule :=
  let '(now, token) := st in
  if ID requested <? 1 then fail (validationError "规则 ID 无效")
  else
    let id := ID requested in
    let* old := first (rule_by_id id) in
    if Protected old then fail (protected "面板端口保护规则不能编辑")
    else
      match normalizeRule now requested panelPort with
      | (Fail err, _) => fail err
      | (Ok normalized, requested) =>
          let* backend :=
            if String.eqb (Backend old) "" then let* state := detectBackend in ret (B_Name state)
            else ret (Backend old) in
          let token := if String.eqb (Token old) "" then token else Token old in
          let requested := prepared id backend token requested normalized in
          let old := with_backend backend old in
          let* oldOperations := remove_old old in
          let* newOperations := apply_new old requested oldOperations in
          let* saved := attempt (exec (update_rule (ID old) (with_columns requested))) in
          match saved with
          | Ok _ => around "读取更新后的规则失败: " (first (rule_by_id (ID old)))
          | Fail err =>
              let* _ := if State requested =? 1
                        then run_ignoring (Backend requested) (reverseOperations newOperations) else ret tt in
              let* _ := restore_old old oldOperations in
              fail (Wrap "保存规则失败，原规则已恢复: " err "")
          end
      end.

(** [rule.Backend == ""]: the detected one. *)
Definition backend_or_detected (rule : IptablesRule) : M FS IptablesRule :=
  if String.eqb (Backend rule) "" then
    let* state := detectBackend in ret (with_backend (B_Name state) rule)
  else ret rule.

Definition deleteLocked (id : Z) : M FS unit :=
  if id <? 1 then fail (validationError "规则 ID 无效")
  else
    let* rule := first (rule_by_id id) in
    if Protected rule then fail (protected "面板端口保护规则不能删除")
    else
      let* rule := backend_or_detected rule in
      let* operations :=
        if State rule =? 1 then
          let* operations := ruleOperations rule in
          let* _ := around "删除系统规则失败，原规则已恢复: "
            (runOperations (Backend rule) (reverseOperations operations)) in
          ret operations
        else ret [] in
      let* deleted := attempt (exec (delete_rule (ID rule))) in
      match deleted with
      | Ok _ => ret tt
      | Fail err =>
          let* _ := restore_old rule operations in
          fail (Wrap "删除规则记录失败，系统规则已恢复: " err "")
      end.

Definition Delete (id : Z) : M FS unit := deleteLocked id.

Definition setRuleStateLocked (now : time) (id : Z) (enabled : bool) : M FS unit :=
  if id <? 1 then fail (validationError "规则 ID 无效")
  else
    let* rule := first (rule_by_id id) in
    if Protected rule then fail (protected "面板端口保护规则不能停用")
    else
      let target := if enabled then 1 else 0 in
      if State rule =? target then ret tt
      else if enabled && match ExpiresAt rule with Some t => negb (After t now) | None => false end then
        fail (validationError "过期规则不能重新启用，请先修改过期时间")
      else
        let* rule := backend_or_detected rule in
        let* operations := ruleOperations rule in
        let run := if enabled then operations else reverseOperations operations in
        let* _ := around "更新系统规则状态失败: " (runOperations (Backend rule) run) in
        let* saved := attempt (exec (update_rule id (set_state target))) in
        match saved with
        | Ok _ => ret tt
        | Fail err =>
            let* _ := take_back (Backend rule) run in
            fail (Wrap "保存规则状态失败，系统规则已回滚: " err "")
        end.

Definition SetRuleState (now : time) (id : Z) (enabled : bool) : M FS unit :=
  setRuleStateLocked now id enabled.

Fixpoint uniqueIDs (seen : gset Z) (ids : list Z) : list Z :=
  match ids with
  | [] => []
  | id :: ids =>
      if (id <? 1) || bool_decide (id ∈ seen) then uniqueIDs seen ids
      else id :: uniqueIDs ({[id]} ∪ seen) ids
  end.

Definition batch_step (now : time) (action : string) (id : Z) : M FS unit :=
  if String.eqb action "enable" then setRuleStateLocked now id true
  else if String.eqb action "disable" then setRuleStateLocked now id false
  else deleteLocked id.

(** With the rules completed, the error that stopped the loop. *)
Fixpoint batch_loop (clock : list time) (action : string) (ids : list Z) (completed : Z)
    : M FS (Z * option error) :=
  match ids with
  | [] => ret (completed, None)
  | id :: ids =>
      if negb (one_of action ["enable"; "disable"; "delete"]) then
        ret (completed, Some (validationError "批量操作仅支持 enable、disable 或 delete"))
      else
        let* done := attempt (batch_step (default 0 (head clock)) action id) in
        match done with
        | Ok _ => batch_loop (tail clock) action ids (completed + 1)
        | Fail err =>
            ret (completed, Some (Wrap ("已完成 " +:+ Itoa completed +:+ " 条，第 " +:+ Itoa id +:+
              " 条失败: ") err ""))
        end
  end.

Definition Batch (clock : list time) (ids : list Z) (action : string) : M FS (Z * option error) :=
  match ids with
  | [] => ret (0, Some (validationError "请选择至少一条规则"))
  | _ =>
      if 500 <? Z.of_nat (List.length ids) then
        ret (0, Some (validationError "单次批量操作不能超过 500 条规则"))
      else batch_loop clock (ToLower (TrimSpace action)) (uniqueIDs ∅ ids) 0
  end.

Definition by_id (a b : IptablesRule) : Prop := ID a <= ID b.
#[local] Instance by_id_dec : RelDecision by_id.
Proof. intros a b. unfold by_id. apply _. Defined.

Fixpoint cleanup_loop (expired : list IptablesRule) (cleaned : Z) : M FS (Z * option error) :=
  match expired with
  | [] => ret (cleaned, None)
  | rule :: expired =>
      if Protected rule then cleanup_loop expired cleaned
      else
        let* deleted := attempt (deleteLocked (ID rule)) in
        match deleted with
        | Ok _ => cleanup_loop expired (cleaned + 1)
        | Fail err => ret (cleaned, Some err)
        end
  end.

Definition CleanupExpired (now : time) : M FS (Z * option error) :=
  let* expired := read (fun s => merge_sort by_id (List.filter (fun r =>
    match ExpiresAt r with Some t => t <=? now | None => false end) (rules s))) in
  cleanup_loop expired 0.

Definition rule_type_filter (ruleType : string) (r : IptablesRule) : bool :=
  if String.eqb ruleType "" then true
  else if String.eqb ruleType "port" then String.eqb (RuleType r) "port" || String.eqb (RuleType r) ""
  else String.eqb (RuleType r) ruleType.

Definition exported (r : IptablesRule) : IptablesRule :=
  let r := normalizeStoredRule r in
  mkRule 0 (RuleType r) (Direction r) (Protocol r) (Strategy r) (IPs r) (Ports r) (State r) (Remark r)
    (Location r) (ExpiresAt r) "" "" false.

Definition ExportRules (ruleType : string) : M FS (list IptablesRule) :=
  read (fun s => map exported (merge_sort by_id (List.filter (fun r =>
    negb (Protected r) && rule_type_filter (TrimSpace ruleType) r) (rules s)))).

Definition anonymous (r : IptablesRule) : IptablesRule :=
  mkRule 0 (RuleType r) (Direction r) (Protocol r) (Strategy r) (IPs r) (Ports r) (State r) (Remark r)
    (Location r) (ExpiresAt r) (Backend r) (Token r) false.

(** [_ = s.Delete(...)] of each, latest first. *)
Fixpoint delete_all (ids : list Z) : M FS unit :=
  match ids with
  | [] => ret tt
  | id :: ids => let* _ := attempt (deleteLocked id) in delete_all ids
  end.

(** [created] is latest first. *)
Fixpoint import_loop (stamps : list stamp) (index : Z) (todo : list IptablesRule) (created : list Z)
    : M FS Z :=
  match todo with
  | [] => ret (Z.of_nat (List.length created))
  | rule :: todo =>
      let* added := attempt (Add (default (0, "") (head stamps)) (anonymous rule)) in
      match added with
      | Ok rule => import_loop (tail stamps) (index + 1) todo (ID rule :: created)
      | Fail err =>
          let* _ := delete_all created in
          fail (Wrap ("第 " +:+ Itoa (index + 1) +:+ " 条规则导入失败，已回滚本次导入: ") err "")
      end
  end.

Definition ImportRules (stamps : list stamp) (imported : list IptablesRule) : M FS Z :=
  match imported with
  | [] => fail (validationError "导入文件中没有规则")
  | _ =>
      if 500 <? Z.of_nat (List.length imported) then fail (validationError "单次最多导入 500 条规则")
      else import_loop stamps 0 imported []
  end.

Fixpoint delete_each (todo : list IptablesRule) : M FS unit :=
  match todo with
  | [] => ret tt
  | rule :: todo => let* _ := deleteLocked (ID rule) in delete_each todo
  end.

Fixpoint add_all (stamps : list stamp) (todo : list IptablesRule) : M FS unit :=
  match todo with
  | [] => ret tt
  | rule :: todo =>
      let* _ := attempt (addLocked (default (0, "") (head stamps)) rule) in
      add_all (tail stamps) todo
  end.

(** [restored] are the stamps of the rules that are put back. *)
Fixpoint replace_loop (stamps restored : list stamp) (current : list IptablesRule) (index : Z)
    (todo : list IptablesRule) (created : list Z) : M FS unit :=
  match todo with
  | [] => ret tt
  | rule :: todo =>
      let* added := attempt (addLocked (default (0, "") (head stamps)) (anonymous rule)) in
      match added with
      | Ok rule => replace_loop (tail stamps) restored current (index + 1) todo (ID rule :: created)
      | Fail err =>
          let* _ := delete_all created in
          let* _ := add_all restored current in
          fail (Wrap ("restore firewall rules at " +:+ Itoa (index + 1) +:+ ": ") err "")
      end
  end.

Definition ReplaceRules (stamps restored : list stamp) (replacement : list IptablesRule) : M FS unit :=
  let* current := read (fun s => merge_sort by_id (List.filter (fun r => negb (Protected r)) (rules s))) in
  let* _ := delete_each current in
  replace_loop stamps restored current 0 replacement [].

(** ** The port of the panel *)

Definition offlinePersistBackend (state : backendState) : string :=
  if String.eqb (B_Name state) BackendFirewalld && negb (B_Enabled state) then BackendNone
  else B_Name state.

Definition panel_rule (port : Z) (backend : string) (r : IptablesRule) : bool :=
  Protected r && String.eqb (Protocol r) "tcp" && String.eqb (Strategy r) "allow"
  && String.eqb (Ports r) (Itoa port) && String.eqb (Backend r) backend.

Definition protected_rule (port : Z) (backend token : string) : IptablesRule :=
  mkRule 0 "" "in" "tcp" "allow" all_ipv4 (Itoa port) 1 panelRuleRemark "" None backend token true.

Definition protecting_operations (state : backendState) (rule : IptablesRule)
    : M FS (list commandOperation) :=
  if String.eqb (B_Name state) BackendFirewalld && negb (B_Enabled state) then
    let* offline := has_program "firewall-offline-cmd" in
    if offline then ret (firewalldRuleOperations rule "firewall-offline-cmd" false)
    else fail (unsupported "firewalld 未运行且缺少 firewall-offline-cmd，无法安全预置面板端口")
  else ruleOperations rule.

Definition create_protected (state : backendState) (port : Z) (token : string)
    : M FS (option (IptablesRule * list commandOperation)) :=
  let rule := protected_rule port (B_Name state) token in
  let* operations := protecting_operations state rule in
  let* _ := around "预置面板端口保护规则失败: " (runOperations (offlinePersistBackend state) operations) in
  let* created := attempt (exec (create_rule rule)) in
  match created with
  | Ok rule => ret (Some (rule, operations))
  | Fail err =>
      let* _ := take_back (offlinePersistBackend state) operations in
      fail err
  end.

(** The rule that was created, if one was; a stored rule that is not in effect
    is dropped first. *)
Definition ensureProtectedPort (state : backendState) (port : Z) (token : string)
    : M FS (option (IptablesRule * list commandOperation)) :=
  let* found := attempt (first (fun s => List.find (panel_rule port (B_Name state)) (rules s))) in
  match found with
  | Ok existing =>
      let* exists_ := ruleExists existing state in
      if exists_ then ret None
      else
        let* _ := exec (delete_rule (ID existing)) in
        create_protected state port token
  | Fail err => if is_not_found err then create_protected state port token else fail err
  end.

Definition ensurePanelRule (state : backendState) (token : string)
    : M FS (option (IptablesRule * list commandOperation)) :=
  ensureProtectedPort state panelPort token.

Definition toggleBackend (backend : string) (enabled : bool) : M FS unit :=
  let run name args :=
    let* ran := command name args in
    match ran with Ok _ => ret tt | Fail err => fail err end in
  if String.eqb backend BackendUFW then run "ufw" ["--force"; if enabled then "enable" else "disable"]
  else if String.eqb backend BackendFirewalld then
    run "systemctl" [if enabled then "start" else "stop"; "firewalld"]
  else fail (unsupported "iptables 后端不支持从面板整体启停").

Definition SetEnabled (token : string) (enabled : bool) (confirmation : string) : M FS unit :=
  let* state := detectBackend in
  if negb (B_Installed state) then fail (unsupported "未检测到受支持的防火墙")
  else if Bool.eqb (B_Enabled state) enabled then ret tt
  else if negb enabled && negb (String.eqb (TrimSpace confirmation) DisableConfirmation) then
    fail (validationError ("关闭防火墙需要输入确认文本 " +:+ DisableConfirmation))
  else if enabled then
    if B_RepairRequired state then fail (unsupported "firewalld 配置校验失败，请先运行修复任务")
    else if negb (B_CanToggle state) then
      fail (unsupported "当前环境没有可用的 systemd，无法启用主机 firewalld")
    else
      let* created := ensurePanelRule state token in
      let* toggled := attempt (toggleBackend (B_Name state) true) in
      match toggled with
      | Ok _ => ret tt
      | Fail err =>
          let* _ := match created with
                    | Some (rule, operations) =>
                        let* _ := rollbackOperations operations in
                        let* _ := attempt (exec (delete_rule (ID rule))) in ret tt
                    | None => ret tt
                    end in
          fail err
      end
  else toggleBackend (B_Name state) false.

Definition PreparePanelPort (token : string) (port : Z) : M FS (Z * bool) :=
  if (port <? 1) || (65535 <? port) then fail (validationError "面板端口必须在 1-65535 之间")
  else
    let* state := detectBackend in
    if negb (B_Installed state) then ret (0, false)
    else
      let* ensured := ensureProtectedPort state port token in
      ret match ensured with Some (rule, _) => (ID rule, true) | None => (0, false) end.

Definition RollbackPreparedPanelPort (id : Z) : M FS unit :=
  if id <? 1 then ret tt
  else
    let* rule := first (rule_by_id id) in
    if negb (Protected rule) then fail (protected "只能回滚系统创建的端口保护规则")
    else
      let* operations := ruleOperations rule in
      let* _ := runOperations (Backend rule) (reverseOperations operations) in
      let* deleted := attempt (exec (delete_rule (ID rule))) in
      match deleted with
      | Ok _ => ret tt
      | Fail err => let* _ := run_ignoring (Backend rule) operations in fail err
      end.

(** ** Answers to ping *)

Definition ping_mark : string := "-A ufw-before-input -p icmp --icmp-type echo-request".

Definition ping_args : list string :=
  ["INPUT"; "-p"; "icmp"; "--icmp-type"; "echo-request"; "-m"; "comment"; "--comment"; "oneinstack:ping";
   "-j"; "DROP"].

Definition newline : ascii := "010".

Definition ping_text (content : string) : result bool :=
  match List.find (fun line => Contains line ping_mark) (Split content newline) with
  | Some line => Ok (Contains line "-j DROP")
  | None => Fail (ErrorString "未找到 UFW echo-request 规则")
  end.

Definition pingBlocked (state : backendState) : M FS (result bool) := fun w =>
  if String.eqb (B_Name state) BackendUFW then
    (Ok match ReadBeforeRules (host (tables w)) with
        | Fail err => Fail err
        | Ok content => ping_text content
        end, w)
  else if String.eqb (B_Name state) BackendFirewalld then
    (let* output := command "firewall-cmd" ["--query-icmp-block=echo-request"] in
     ret (Ok match output with Ok text => String.eqb (TrimSpace text) "yes" | Fail _ => false end)) w
  else if String.eqb (B_Name state) BackendIPTables then
    (let* asked := command "iptables" ("-C" :: ping_args) in ret (Ok (is_ok asked))) w
  else (Ok (Ok false), w).

(** [strings.Replace(s, old, new, 1)]. *)
Fixpoint replace_first (s old new : string) : string :=
  if HasPrefix s old then new +:+ String.substring (String.length old) (String.length s) s
  else match s with EmptyString => "" | String c s => String c (replace_first s old new) end.

(** The first line that is about echo requests gets the target. *)
Fixpoint ping_lines (target : string) (lines : list string) : result (list string) :=
  match lines with
  | [] => Fail (validationError "未找到 UFW echo-request 规则")
  | line :: lines =>
      if negb (Contains line ping_mark) then
        match ping_lines target lines with Ok lines => Ok (line :: lines) | Fail e => Fail e end
      else if Contains line "-j ACCEPT" then Ok (replace_first line "-j ACCEPT" ("-j " +:+ target) :: lines)
      else if Contains line "-j DROP" then Ok (replace_first line "-j DROP" ("-j " +:+ target) :: lines)
      else Fail (validationError "UFW echo-request 规则缺少 ACCEPT/DROP 动作")
  end.

Definition write_rules (content : string) : M FS unit := fun w =>
  let '(failed, h) := WriteBeforeRules content (host (tables w)) in
  (match failed with Some err => Fail err | None => Ok tt end, World (set_host h (tables w)) (faults w)).

Definition setUFWPingBlocked (blocked : bool) : M FS unit := fun w =>
  match ReadBeforeRules (host (tables w)) with
  | Fail err => (Fail err, w)
  | Ok original =>
      match ping_lines (if blocked then "DROP" else "ACCEPT") (Split original newline) with
      | Fail err => (Fail err, w)
      | Ok lines =>
          let updated := Join lines (str1 newline) in
          if String.eqb updated original then (Ok tt, w)
          else
            match StatBeforeRules (host (tables w)) with
            | Some err => (Fail err, w)
            | None =>
                (let* _ := write_rules updated in
                 let* reloaded := command "ufw" ["reload"] in
                 match reloaded with
                 | Ok _ => ret tt
                 | Fail err =>
                     let* _ := attempt (write_rules original) in
                     let* _ := command "ufw" ["reload"] in
                     fail (Wrap "重新加载 UFW 失败，配置已回滚: " err "")
                 end) w
            end
      end
  end.

Definition icmp_action (blocked : bool) : string :=
  if blocked then "--add-icmp-block=echo-request" else "--remove-icmp-block=echo-request".

Definition SetPingBlocked (blocked : bool) : M FS unit :=
  let* state := detectBackend in
  if negb (B_Installed state) then fail (unsupported "未检测到受支持的防火墙")
  else
    let* current := pingBlocked state in
    let as_wished := match current with Ok b => Bool.eqb b blocked | Fail _ => false end in
    if as_wished then ret tt
    else
      match current with
      | Fail err =>
          if String.eqb (B_Name state) BackendUFW then fail (Wrap "读取 UFW ICMP 状态失败: " err "")
          else ret tt
      | Ok _ => ret tt
      end ;;;
      if String.eqb (B_Name state) BackendUFW then setUFWPingBlocked blocked
      else if String.eqb (B_Name state) BackendFirewalld then
        runOperations BackendFirewalld
          [mkOp "firewall-cmd" ["--permanent"; icmp_action blocked]
             "firewall-cmd" ["--permanent"; icmp_action (negb blocked)]]
      else if String.eqb (B_Name state) BackendIPTables then
        if negb (B_Persistent state) then fail (unsupported "iptables 缺少 netfilter-persistent")
        else
          let operation := mkOp "iptables" ("-A" :: ping_args) "iptables" ("-D" :: ping_args) in
          runOperations BackendIPTables [if blocked then operation else reverse_operation operation]
      else fail (unsupported "不支持的防火墙后端").

(** ** Status and lists *)

Definition CleanupUninstalledBackend (backend : string) : M FS unit :=
  if negb (String.eqb backend BackendFirewalld) then ret tt
  else
    let* installed := has_program "firewall-cmd" in
    if installed then ret tt
    else
      exec (fun s => Ok (tt, set_rules (List.filter (fun r =>
        negb (Protected r && String.eqb (Backend r) backend)) (rules s)) (rule_seq s) s)).

Record FirewallRuleCounts := mkCounts {
  PortRules : Z; IPRules : Z; PortForwards : Z; RegionRules : Z; AutoBlockRules : Z
}.

Definition count_type (ruleType : string) (l : list IptablesRule) : Z :=
  Z.of_nat (List.length (List.filter (fun r =>
    String.eqb (if String.eqb (RuleType r) "" then "port" else RuleType r) ruleType) l)).

Definition loadRuleCounts : M FS FirewallRuleCounts :=
  let* counted := read (fun s => fun t => count_type t (rules s)) in
  let* forwarded := read (fun s => Z.of_nat (List.length (forwards s))) in
  ret (mkCounts (counted "port") (counted "ip") forwarded (counted "region") (counted "auto_block")).

Record IptablesStatus := mkStatus {
  St_Install : bool; St_Enabled : bool; St_PingBlocked : bool; St_Backend : string;
  St_RuntimeBackend : string; St_ManagedBackend : string; St_Persistent : bool; St_CanToggle : bool;
  St_RepairRequired : bool; St_Warning : string; St_PanelPort : Z; St_PanelPortProtected : bool;
  St_ManagedPanelRule : bool; St_ManagedRuleCount : Z; St_Counts : FirewallRuleCounts
}.

Definition latest_managed (l : list IptablesRule) : option IptablesRule :=
  last (List.filter (fun r => Protected r && String.eqb (Protocol r) "tcp" && String.eqb (Strategy r) "allow"
    && String.eqb (Ports r) (Itoa panelPort)) (merge_sort by_id l)).

(** [First]: [None] when there is no such row. *)
Definition maybe {A} (f : FS -> option A) : M FS (option A) :=
  let* found := attempt (first f) in
  match found with
  | Ok a => ret (Some a)
  | Fail err => if is_not_found err then ret None else fail err
  end.

(** What the stored rule of the panel says beside what runs (103-128): install,
    backend, persistence and the warning. *)
Definition managed_view (state : backendState) (runtime warning : string) (managed : option IptablesRule)
    : bool * string * bool * string :=
  match managed with
  | None => (B_Installed state, B_Name state, B_Persistent state, warning)
  | Some r =>
      if negb (B_Installed state) && negb (String.eqb (Backend r) "") then
        (true, Backend r, backendPersistentDefault (Backend r),
         "检测到面板受管防火墙规则，但当前未检测到对应防火墙运行时，请先修复主机防火墙环境")
      else if negb (String.eqb (Backend r) "") && negb (String.eqb runtime BackendNone)
              && negb (String.eqb (Backend r) runtime) then
        (B_Installed state, B_Name state, B_Persistent state,
         appendWarning warning "受管规则后端与当前运行时后端不一致，请核对防火墙切换或持久化状态")
      else (B_Installed state, B_Name state, B_Persistent state, warning)
  end.

Definition Status : M FS IptablesStatus :=
  let* state := detectBackend in
  let runtime :=
    if negb (B_Enabled state) && (String.eqb (B_Name state) BackendUFW
                                  || String.eqb (B_Name state) BackendFirewalld)
    then BackendNone else B_Name state in
  let* cleaned := attempt (CleanupUninstalledBackend BackendFirewalld) in
  let warning := match cleaned with
                 | Ok _ => B_Warning state
                 | Fail _ => appendWarning (B_Warning state) "清理已卸载 firewalld 的面板保护记录失败"
                 end in
  let* count := read (fun s => Z.of_nat (List.length (rules s))) in
  let* counts := loadRuleCounts in
  let* managed := maybe (fun s => latest_managed (rules s)) in
  let '(install, backend, persistent, warning) := managed_view state runtime warning managed in
  let* stored := maybe (fun s => List.find (panel_rule panelPort (B_Name state)) (rules s)) in
  let* is_protected :=
    match stored with
    | Some r => if B_Enabled state then ruleExists r state else ret false
    | None => ret false
    end in
  let warning :=
    if negb is_protected && match managed with Some _ => true | None => false end then
      if String.eqb (B_Name state) BackendNone then
        appendWarning warning "面板端口保护规则记录仍在，但当前无法确认系统规则已生效"
      else if negb (B_Enabled state) then
        appendWarning warning "面板端口保护规则已记录，但当前防火墙未运行，规则尚未生效"
      else warning
    else warning in
  let* blocked := pingBlocked state in
  let '(ping, warning) :=
    match blocked with
    | Ok b => (b, warning)
    | Fail err => if install then (false, appendWarning warning ("无法确认 ICMP 状态：" +:+ Error err))
                  else (false, warning)
    end in
  ret (mkStatus install (B_Enabled state) ping backend runtime
         (match managed with Some r => Backend r | None => "" end) persistent (B_CanToggle state)
         (B_RepairRequired state) warning panelPort is_protected
         (match managed with Some _ => true | None => false end) count counts).

(** ** Lists *)

(** [services.Paginate]. *)
Definition page_of {A} (page pageSize : Z) (l : list A) : list A * Z * Z * Z * Z :=
  let pageSize := if pageSize <=? 0 then 10 else pageSize in
  let page := if page <=? 0 then 1 else page in
  let total := Z.of_nat (List.length l) in
  (take (Z.to_nat pageSize) (drop (Z.to_nat (i64 ((page - 1) * pageSize))) l), total, page, pageSize,
   ceil_int (fdiv (of_int total) (of_int pageSize))).

(** SQL's [LIKE '%q%'], as an argument: it depends on the collation. *)
Variable like : string -> string -> bool.

Record RuleQuery := mkQuery {
  Q_Text : string; Q_Direction : string; Q_RuleType : string; Q_State : option Z;
  Q_Page : Z; Q_PageSize : Z
}.

Definition rule_matches (q : RuleQuery) (r : IptablesRule) : bool :=
  let text := TrimSpace (Q_Text q) in
  let direction := TrimSpace (Q_Direction q) in
  (String.eqb text "" || like (Remark r) text || like (IPs r) text || like (Location r) text)
  && (String.eqb direction "" || String.eqb (Direction r) direction)
  && rule_type_filter (TrimSpace (Q_RuleType q)) r
  && match Q_State q with Some state => State r =? state | None => true end.

(** The count and the page are two statements. *)
Definition paginated {A} (page pageSize : Z) (get : FS -> list A) : M FS (list A * Z * Z * Z * Z) :=
  let* _ := read (fun s => List.length (get s)) in
  read (fun s => page_of page pageSize (get s)).

Definition ListRules (q : RuleQuery) : M FS (list IptablesRule * Z * Z * Z * Z) :=
  let* '(data, total, page, pageSize, pages) := paginated (Q_Page q) (Q_PageSize q) (fun s =>
    merge_sort protected_first (List.filter (rule_matches q) (rules s))) in
  ret (map normalizeStoredRule data, total, page, pageSize, pages).

Definition newest_forward (a b : FirewallPortForward) : Prop := F_ID b <= F_ID a.
#[local] Instance newest_forward_dec : RelDecision newest_forward.
Proof. intros a b. unfold newest_forward. apply _. Defined.

Definition ListPortForwards (text : string) (state : option Z) (page pageSize : Z)
    : M FS (list FirewallPortForward * Z * Z * Z * Z) :=
  let text := TrimSpace text in
  paginated page pageSize (fun s => merge_sort newest_forward (List.filter (fun f =>
    (String.eqb text "" || like (F_Remark f) text || like (F_DestinationIP f) text)
    && match state with Some state => F_State f =? state | None => true end) (forwards s))).

(** ** Port forwards *)

Definition normalizePortForward (f : FirewallPortForward) : result FirewallPortForward :=
  let protocol := ToLower (TrimSpace (F_Protocol f)) in
  let bad_port p := (p <? 1) || (65535 <? p) in
  if negb (one_of protocol ["tcp"; "udp"]) then Fail (validationError "转发协议必须是 tcp 或 udp")
  else if bad_port (F_SourcePort f) || bad_port (F_DestinationPort f) then
    Fail (validationError "转发端口必须在 1-65535 之间")
  else if F_SourcePort f =? panelPort then Fail (validationError "不能转发当前面板管理端口")
  else
    match ParseIP (TrimSpace (F_DestinationIP f)) with
    | None => Fail (validationError "目标地址必须是有效的 IPv4 地址")
    | Some ip =>
        match To4 ip with
        | None => Fail (validationError "目标地址必须是有效的 IPv4 地址")
        | Some ip4 =>
            if IsUnspecified ip then Fail (validationError "目标地址必须是有效的 IPv4 地址")
            else
              let remark := TrimSpace (F_Remark f) in
              if 200 <? RuneCount remark then Fail (validationError "备注不能超过 200 个字符")
              else Ok (mkForward (F_ID f) protocol (F_SourcePort f) (ipv4_string ip4) (F_DestinationPort f)
                         (if F_State f =? 0 then 0 else 1) remark (F_Backend f))
        end
    end.

Definition forward_spec (f : FirewallPortForward) : string :=
  "port=" +:+ Itoa (F_SourcePort f) +:+ ":proto=" +:+ F_Protocol f +:+
  ":toport=" +:+ Itoa (F_DestinationPort f) +:+ ":toaddr=" +:+ F_DestinationIP f.

Definition firewalldForwardOperation (f : FirewallPortForward) : commandOperation :=
  mkOp "firewall-cmd" ["--permanent"; "--add-forward-port=" +:+ forward_spec f]
    "firewall-cmd" ["--permanent"; "--remove-forward-port=" +:+ forward_spec f].

Definition forward_at (id : Z) (f : FirewallPortForward) : FirewallPortForward :=
  mkForward id (F_Protocol f) (F_SourcePort f) (F_DestinationIP f) (F_DestinationPort f) (F_State f)
    (F_Remark f) BackendFirewalld.

Definition create_forward (f : FirewallPortForward) (s : FS) : result (FirewallPortForward * FS) :=
  let f := forward_at (forward_seq s) f in
  Ok (f, set_forwards (forwards s ++ [f]) (forward_seq s + 1) s).

Definition forward_by_id (id : Z) (s : FS) : option FirewallPortForward :=
  List.find (fun f => F_ID f =? id) (forwards s).

Definition update_forward (id : Z) (q : FirewallPortForward) (s : FS) : result (unit * FS) :=
  Ok (tt, set_forwards (map (fun f => if F_ID f =? id then forward_at (F_ID f) q else f) (forwards s))
    (forward_seq s) s).

Definition delete_forward (id : Z) (s : FS) : result (unit * FS) :=
  Ok (tt, set_forwards (List.filter (fun f => negb (F_ID f =? id)) (forwards s)) (forward_seq s) s).

Definition needs_firewalld (state : backendState) : bool :=
  negb (String.eqb (B_Name state) BackendFirewalld) || negb (B_Enabled state).

Definition AddPortForward (f : FirewallPortForward) : M FS FirewallPortForward :=
  match normalizePortForward f with
  | Fail err => fail err
  | Ok f =>
      let* state := detectBackend in
      if needs_firewalld state then fail (unsupported "端口转发需要已启用的 firewalld")
      else
        let operation := firewalldForwardOperation f in
        let* _ := if F_State f =? 1
                  then around "应用端口转发失败: " (runOperations BackendFirewalld [operation]) else ret tt in
        let* created := attempt (exec (create_forward f)) in
        match created with
        | Ok f => ret f
        | Fail err =>
            let* _ := if F_State f =? 1 then take_back BackendFirewalld [operation] else ret tt in
            fail (Wrap "保存端口转发失败，系统规则已回滚: " err "")
        end
  end.

Definition restore_forward (old : FirewallPortForward) : M FS unit :=
  if F_State old =? 1 then run_ignoring BackendFirewalld [firewalldForwardOperation old] else ret tt.

Definition UpdatePortForward (requested : FirewallPortForward) : M FS unit :=
  if F_ID requested <? 1 then fail (validationError "端口转发 ID 无效")
  else
    let* old := first (forward_by_id (F_ID requested)) in
    match normalizePortForward requested with
    | Fail err => fail err
    | Ok requested =>
        let* state := detectBackend in
        if needs_firewalld state then fail (unsupported "端口转发需要已启用的 firewalld")
        else
          let oldOperation := firewalldForwardOperation old in
          let newOperation := firewalldForwardOperation requested in
          let* _ := if F_State old =? 1
                    then around "删除旧端口转发失败: "
                           (runOperations BackendFirewalld (reverseOperations [oldOperation]))
                    else ret tt in
          let* _ :=
            if F_State requested =? 1 then
              let* ran := attempt (runOperations BackendFirewalld [newOperation]) in
              match ran with
              | Ok _ => ret tt
              | Fail err =>
                  let* _ := restore_forward old in
                  fail (Wrap "应用新端口转发失败，原规则已恢复: " err "")
              end
            else ret tt in
          let* saved := attempt (exec (update_forward (F_ID old) requested)) in
          match saved with
          | Ok _ => ret tt
          | Fail err =>
              let* _ := if F_State requested =? 1
                        then run_ignoring BackendFirewalld (reverseOperations [newOperation]) else ret tt in
              let* _ := restore_forward old in
              fail (Wrap "保存端口转发失败，原规则已恢复: " err "")
          end
    end.

Definition DeletePortForward (id : Z) : M FS unit :=
  if id <? 1 then fail (validationError "端口转发 ID 无效")
  else
    let* f := first (forward_by_id id) in
    let operation := firewalldForwardOperation f in
    let* _ := if F_State f =? 1
              then around "删除系统端口转发失败: "
                     (runOperations BackendFirewalld (reverseOperations [operation]))
              else ret tt in
    let* deleted := attempt (exec (delete_forward id)) in
    match deleted with
    | Ok _ => ret tt
    | Fail err =>
        let* _ := restore_forward f in
        fail (Wrap "删除端口转发记录失败，系统规则已恢复: " err "")
    end.

(** The row is read before the mutex is taken. *)
Definition SetPortForwardState (id : Z) (enabled : bool) : M FS unit :=
  let* f := first (forward_by_id id) in
  UpdatePortForward (mkForward (F_ID f) (F_Protocol f) (F_SourcePort f) (F_DestinationIP f)
    (F_DestinationPort f) (if enabled then 1 else 0) (F_Remark f) (F_Backend f)).

(** ** Automatic blocking *)

Definition defaultAutoBlockThreshold : Z := 8.
Definition defaultAutoBlockWindow : Z := 10.
Definition defaultAutoBlockBan : Z := 1440.

Definition applyAutoBlockDefaults (c : FirewallAutoBlockConfig) : FirewallAutoBlockConfig :=
  let or_default d n := if n =? 0 then d else n in
  mkAutoBlock (AB_ID c) (AB_Enabled c) (or_default defaultAutoBlockThreshold (AB_Threshold c))
    (or_default defaultAutoBlockWindow (AB_WindowMinutes c))
    (or_default defaultAutoBlockBan (AB_BanMinutes c)) (AB_LastRunAt c).

Definition GetAutoBlockConfig : M FS FirewallAutoBlockConfig :=
  let* found := maybe (fun s => List.find (fun c => AB_ID c =? 1) (auto_block s)) in
  ret (applyAutoBlockDefaults (default (mkAutoBlock 1 false 0 0 0 None) found)).

Definition save_auto_block (c : FirewallAutoBlockConfig) (s : FS) : result (unit * FS) :=
  Ok (tt, set_auto_block (upsert Z.eqb AB_ID c (auto_block s)) s).

Definition reset_migration (s : FS) : result (unit * FS) :=
  Ok (tt, set_fail2ban (map (fun f =>
    if (FB_ID f =? 1) && String.eqb (FB_MigrationStatus f) "not_required"
    then mkFail2ban (FB_ID f) "pending" "" else f) (fail2ban s)) s).

Definition SaveAutoBlockConfig (enabled : bool) (threshold window ban : Z) : M FS FirewallAutoBlockConfig :=
  let config := applyAutoBlockDefaults (mkAutoBlock 1 enabled threshold window ban None) in
  if (AB_Threshold config <? 3) || (100 <? AB_Threshold config) then
    fail (validationError "触发次数必须在 3-100 之间")
  else if (AB_WindowMinutes config <? 1) || (1440 <? AB_WindowMinutes config) then
    fail (validationError "统计周期必须在 1-1440 分钟之间")
  else if (AB_BanMinutes config <? 5) || (525600 <? AB_BanMinutes config) then
    fail (validationError "封禁时间必须在 5-525600 分钟之间")
  else
    let* _ := exec (save_auto_block config) in
    let* _ := if enabled then let* _ := attempt (exec reset_migration) in ret tt else ret tt in
    ret config.

(** *** The log of failed logins *)

Fixpoint fold_prefix (l k : list Z) : option (list Z) :=
  match k, l with
  | [], _ => Some l
  | q :: k, r :: l => if (r =? q) || fold_rune r q then fold_prefix l k else None
  | _, [] => None
  end.

Definition is_digit_rune (r : Z) : bool := (48 <=? r) && (r <=? 57).

(** At most [n] digits, as many as there are. *)
Fixpoint take_digits (n : nat) (l : list Z) : list Z * list Z :=
  match n, l with
  | Datatypes.S n, r :: l' =>
      if is_digit_rune r then let '(ds, rest) := take_digits n l' in (r :: ds, rest) else ([], l)
  | _, _ => ([], l)
  end.

(** [[0-9]{1,3}], then [\.[0-9]{1,3}] for each of [n]. *)
Fixpoint take_octets (n : nat) (l : list Z) : option (list Z * list Z) :=
  match take_digits 3 l with
  | ([], _) => None
  | (ds, rest) =>
      match n with
      | O => Some (ds, rest)
      | Datatypes.S n =>
          match rest with
          | 46 :: rest =>
              match take_octets n rest with
              | Some (more, rest) => Some (ds ++ 46 :: more, rest)
              | None => None
              end
          | _ => None
          end
      end
  end.

Definition is_blank (r : Z) : bool := existsb (Z.eqb r) [9; 10; 12; 13; 32].

(** [(?:from|rhost=)\s*] and the address. *)
Definition source_at (l : list Z) : option (list Z * list Z) :=
  match fold_prefix l (runes "from") with
  | Some rest => take_octets 3 (dropWhile is_blank rest)
  | None =>
      match fold_prefix l (runes "rhost=") with
      | Some rest => take_octets 3 (dropWhile is_blank rest)
      | None => None
      end
  end.

(** [.*?]: the first source on the line. *)
Fixpoint source_after (l : list Z) : option (list Z * list Z) :=
  match source_at l with
  | Some found => Some found
  | None =>
      match l with
      | [] => None
      | r :: l => if r =? 10 then None else source_after l
      end
  end.

Definition failure_at (l : list Z) : option (list Z * list Z) :=
  match fold_prefix l (runes "failed password") with
  | Some rest => source_after rest
  | None =>
      match fold_prefix l (runes "authentication failure") with
      | Some rest => source_after rest
      | None => None
      end
  end.

(** Matches from left to right, each after the one before; [fuel] bounds the
    runes that are left. *)
Fixpoint find_failures (fuel : nat) (l : list Z) : list string :=
  match fuel, l with
  | Datatypes.S fuel, _ :: l' =>
      match failure_at l with
      | Some (address, rest) => encode_runes address :: find_failures fuel rest
      | None => find_failures fuel l'
      end
  | _, _ => []
  end.

(** [failedSSHAddressPattern.FindAllStringSubmatch]. *)
Definition failed_addresses (output : string) : list string :=
  let l := runes output in find_failures (List.length l) l.

(** The public addresses with the number of their failures. *)
Definition count_failures (addresses : list string) : gmap string Z :=
  fold_left (fun counts address =>
    match ParseIP address with
    | None => counts
    | Some ip =>
        match To4 ip with
        | None => counts
        | Some ip4 =>
            if IsPrivate ip || IsLoopback ip || IsUnspecified ip then counts
            else <[ipv4_string ip4 := default 0 (counts !! ipv4_string ip4) + 1]> counts
        end
    end) addresses ∅.

Definition block_rule (address : string) (expires : time) : IptablesRule :=
  mkRule 0 "auto_block" "in" "all" "deny" address "" 1 "SSH 失败登录自动封禁"
    (describeIPLocation address) (Some expires) "" "" false.

Definition still_blocked (now : time) (address : string) (r : IptablesRule) : bool :=
  String.eqb (RuleType r) "auto_block" && String.eqb (IPs r) address && (State r =? 1)
  && match ExpiresAt r with Some t => now <? t | None => true end.

(** With the rules created, the error that stopped the loop. *)
Fixpoint block_loop (config : FirewallAutoBlockConfig) (now : time) (stamps : list stamp)
    (todo : list (string * Z)) (created : Z) : M FS (Z * option error) :=
  match todo with
  | [] => ret (created, None)
  | (address, count) :: todo =>
      if count <? AB_Threshold config then block_loop config now stamps todo created
      else
        let* existing := attempt (read (fun s =>
          Z.of_nat (List.length (List.filter (still_blocked now address) (rules s))))) in
        match existing with
        | Fail err => ret (created, Some err)
        | Ok existing =>
            if 0 <? existing then block_loop config now stamps todo created
            else
              let expires := now + AB_BanMinutes config * Minute in
              let* added := attempt (Add (default (0, "") (head stamps)) (block_rule address expires)) in
              match added with
              | Fail err => ret (created, Some err)
              | Ok _ =>
                  if 100 <=? created + 1 then ret (created + 1, None)
                  else block_loop config now (tail stamps) todo (created + 1)
              end
        end
  end.

Definition touch_auto_block (now : time) (s : FS) : result (unit * FS) :=
  Ok (tt, set_auto_block (map (fun c =>
    if AB_ID c =? 1 then mkAutoBlock (AB_ID c) (AB_Enabled c) (AB_Threshold c) (AB_WindowMinutes c)
      (AB_BanMinutes c) (Some now) else c) (auto_block s)) s).

(** [order]: a map is walked in some order. *)
Definition RunAutoBlock (now current : time) (stamps : list stamp)
    (order : gmap string Z -> list (string * Z)) : M FS (Z * option error) :=
  let* config := GetAutoBlockConfig in
  if negb (AB_Enabled config) then fail (Sentinel ErrAutoBlockDisabled)
  else
    let* found := has_program "journalctl" in
    if negb found then ret (0, None)
    else
      let* output := command "journalctl" ["--no-pager"; "--since";
        Itoa (AB_WindowMinutes config) +:+ " minutes ago"; "-u"; "ssh"; "-u"; "sshd"] in
      match output with
      | Fail err => fail err
      | Ok output =>
          let* '(created, stopped) :=
            block_loop config now stamps (order (count_failures (failed_addresses output))) 0 in
          match stopped with
          | Some err => ret (created, Some err)
          | None =>
              let* touched := attempt (exec (touch_auto_block current)) in
              ret (created, match touched with Ok _ => None | Fail err => Some err end)
          end
      end.
End service.

#[local] Existing Instance latin1_case.
Example failed_addresses_ex :
  failed_addresses ("Jan 1 sshd[1]: Failed password for root from 203.0.113.7 port 22 ssh2" +:+ str1 newline +:+
    "pam: authentication failure; rhost=198.51.100.9  user=root" +:+ str1 newline +:+
    "FAILED PASSWORD for x" +:+ str1 newline +:+ "from 192.0.2.1")
  = ["203.0.113.7"; "198.51.100.9"].
Proof. vm_compute. reflexivity. Qed.
