(* ===== verification/FirewallHosts.v ===== *)
(** Two small hosts for [Firewall]: one of iptables and one of firewalld, as far
    as the documented behaviour of their commands that the service relies on.
    Theorems are instantiated on them, and what the service leaves behind is
    read off them. *)

From stdpp Require Import gmap sorting options.
From S2P Require Import Prelude GoStrings GoText GoNet Store FirewallRule Firewall.
#[local] Open Scope Z_scope.

(** ** A host of iptables *)

(** The chains, the ports the kernel refuses, and whether the rules can be saved. *)
Record netfilter := mkNetfilter { chains : list (list string); refuses : list string; saves : bool }.

Fixpoint remove_rule (l : list (list string)) (r : list string) : option (list (list string)) :=
  match l with
  | [] => None
  | q :: l => if bool_decide (q = r) then Some l else cons q <$> remove_rule l r
  end.

Definition iptables_run (args : list string) (h : netfilter) : result string * netfilter :=
  match args with
  | "-A" :: r =>
      if existsb (fun p => existsb (String.eqb p) (refuses h)) r then (Fail (ErrorString "refused"), h)
      else (Ok "", mkNetfilter (chains h ++ [r]) (refuses h) (saves h))
  | "-D" :: r =>
      match remove_rule (chains h) r with
      | Some l => (Ok "", mkNetfilter l (refuses h) (saves h))
      | None => (Fail (ErrorString "no such rule"), h)
      end
  | _ => (Fail (ErrorString "usage"), h)
  end.

#[export] Instance netfilter_host : Host netfilter := {
  LookPath name _ := one_of name ["iptables"; "netfilter-persistent"];
  Run name args h :=
    if String.eqb name "iptables" then iptables_run args h
    else if String.eqb name "netfilter-persistent" && saves h then (Ok "", h)
    else (Fail (ErrorString "failed"), h);
  ReadBeforeRules _ := Fail (ErrorString "no file");
  StatBeforeRules _ := Some (ErrorString "no file");
  WriteBeforeRules _ h := (Some (ErrorString "no file"), h)
}.

(** ** A host of firewalld *)

(** The permanent rich rules, in the order of their addition, and the outcomes
    of the reloads to come. *)
Record firewalld := mkFirewalld { rich_rules : list string; reloads : list bool }.

(** [firewall-cmd --permanent --add-rich-rule] of a rule that is there, and
    [--remove-rich-rule] of one that is not, warn and succeed. *)
Definition firewalld_run (args : list string) (h : firewalld) : result string * firewalld :=
  match args with
  | ["--state"] => (Ok "running", h)
  | ["--reload"] =>
      let h' := mkFirewalld (rich_rules h) (tail (reloads h)) in
      if default true (head (reloads h)) then (Ok "success", h') else (Fail (ErrorString "reload failed"), h')
  | ["--permanent"; argument] =>
      match cut argument "=" with
      | ("--add-rich-rule", Some rule) =>
          (Ok "success", mkFirewalld (if one_of rule (rich_rules h) then rich_rules h else rich_rules h ++ [rule])
             (reloads h))
      | ("--remove-rich-rule", Some rule) =>
          (Ok "success", mkFirewalld (List.filter (fun r => negb (String.eqb r rule)) (rich_rules h)) (reloads h))
      | _ => (Fail (ErrorString "usage"), h)
      end
  | _ => (Fail (ErrorString "usage"), h)
  end.

#[export] Instance firewalld_host : Host firewalld := {
  LookPath name _ := String.eqb name "firewall-cmd";
  Run name args h :=
    if String.eqb name "firewall-cmd" then firewalld_run args h else (Fail (ErrorString "not found"), h);
  ReadBeforeRules _ := Fail (ErrorString "no file");
  StatBeforeRules _ := Some (ErrorString "no file");
  WriteBeforeRules _ h := (Some (ErrorString "no file"), h)
}.
