(* ===== verification/FirewallSafety.v ===== *)
(** What the firewall service keeps, whatever the host, the commands and the
    database do: the stored protection of the panel's port, and the agreement
    of the host with the table when a rule is added. *)

From stdpp Require Import gmap sorting options.
From S2P Require Import Prelude GoStrings GoText GoNet Store FirewallRule Firewall FirewallHosts.
#[local] Open Scope Z_scope.

(** ** Computations that only touch the host *)

Section hosts.
Context {H : Type} `{!Host H} `{!UnicodeCase}.

Abbreviation FS := (FirewallState H).

Definition host_free (J : FS -> Prop) : Prop := forall h s, J s -> J (set_host h s).

Definition host_only {A} (m : M FS A) : Prop := forall J, host_free J -> preserves J m.

Lemma host_only_command name args : host_only (command name args).
Proof.
  intros J HJ w Hw. unfold command. destruct (Run name args (host (tables w))) as [r h]. by apply HJ.
Qed.

Lemma host_only_has_program name : host_only (has_program name).
Proof. by intros J HJ w Hw. Qed.

Lemma host_only_bind {A B} (m : M FS A) (k : A -> M FS B) :
  host_only m -> (forall a, host_only (k a)) -> host_only (bind m k).
Proof. intros Hm Hk J HJ. apply preserves_bind; [by apply Hm|]. intros a. by apply Hk. Qed.

Lemma host_only_ret {A} (a : A) : host_only (ret a).
Proof. intros J HJ. apply preserves_ret. Qed.

Lemma host_only_fail {A} e : host_only (A := A) (fail e).
Proof. intros J HJ. apply preserves_fail. Qed.

Lemma host_only_attempt {A} (m : M FS A) : host_only m -> host_only (attempt m).
Proof. intros Hm J HJ. apply preserves_attempt. by apply Hm. Qed.

Lemma host_only_around {A} text (m : M FS A) : host_only m -> host_only (around text m).
Proof.
  intros Hm J HJ w Hw. specialize (Hm J HJ w Hw). unfold around. by destruct (m w) as [[]].
Qed.

Lemma host_only_readonly {A} (m : M FS A) : readonly m -> host_only m.
Proof. intros Hm J HJ. by apply preserves_readonly. Qed.
End hosts.

#[export] Hint Resolve host_only_command host_only_has_program host_only_ret host_only_fail
  host_only_attempt host_only_around : store.

(** Close [host_only] goals by the shape of the computation. *)
Ltac hosting :=
  intros;
  repeat (first
    [ progress (eauto 2 with store)
    | match goal with
      | |- host_only (read _) => apply host_only_readonly, readonly_read
      | |- host_only (first _) => apply host_only_readonly, readonly_first
      | |- host_only (attempt _) => apply host_only_attempt
      | |- host_only (around _ _) => apply host_only_around
      | |- host_only (bind _ _) => apply host_only_bind
      | |- host_only (match ?x with _ => _ end) => destruct x
      end
    | progress intros ]).

Section steps.
Context {H : Type} `{!Host H} `{!UnicodeCase}.

Abbreviation FS := (FirewallState H).

Lemma host_only_undo_all ops : host_only (undo_all ops).
Proof. induction ops as [|op ops IH]; cbn [undo_all]; hosting. Qed.

Lemma host_only_persist backend : host_only (persist backend).
Proof. unfold persist. hosting. Qed.

Lemma host_only_run_each backend ops applied : host_only (run_each backend ops applied).
Proof.
  pose proof host_only_persist. pose proof host_only_undo_all.
  revert applied. induction ops as [|op ops IH]; intros applied; cbn [run_each]; unfold run_op; hosting.
Qed.

Lemma host_only_runOperations backend ops : host_only (runOperations backend ops).
Proof. apply host_only_run_each. Qed.

Lemma host_only_run_ignoring backend ops : host_only (run_ignoring backend ops).
Proof. pose proof host_only_runOperations. unfold run_ignoring. hosting. Qed.

Lemma host_only_take_back backend ops : host_only (take_back backend ops).
Proof. pose proof host_only_persist. pose proof host_only_undo_all. unfold take_back, rollbackOperations. hosting. Qed.

Lemma host_only_detectBackend : host_only detectBackend.
Proof. unfold detectBackend, detect_ufw, detect_firewalld, detect_iptables, check_firewalld, has_systemd. hosting. Qed.

Lemma host_only_ruleOperations rule : host_only (ruleOperations rule).
Proof. unfold ruleOperations. hosting. Qed.

Lemma host_only_ruleExists rule state : host_only (ruleExists rule state).
Proof. unfold ruleExists. hosting. Qed.

Lemma host_only_restore_old old ops : host_only (restore_old old ops).
Proof. pose proof host_only_run_ignoring. unfold restore_old. hosting. Qed.
End steps.

#[export] Hint Resolve host_only_undo_all host_only_persist host_only_runOperations
  host_only_run_ignoring host_only_take_back host_only_detectBackend host_only_ruleOperations
  host_only_ruleExists host_only_restore_old : store.

(** ** The stored protection of the panel *)

Section protection.
Context {H : Type} `{!Host H} `{!UnicodeCase}.
Variable panelPort : Z.

Abbreviation FS := (FirewallState H).

(** The protected rows are [kept]; identifiers are unique and not given again. *)
Definition shielded (kept : list IptablesRule) (s : FS) : Prop :=
  List.filter Protected (rules s) = kept /\ NoDup (map ID (rules s)) /\
  Forall (fun r => ID r < rule_seq s) (rules s).

Variable kept : list IptablesRule.

Lemma shielded_host_free : host_free (shielded kept).
Proof using Type. by intros h s. Qed.

(** From a state that meets a condition as well. *)
Definition under {A} (C : FS -> Prop) (m : M FS A) : Prop :=
  forall w, shielded kept (tables w) -> C (tables w) -> shielded kept (tables (m w).2).

Lemma under_preserves {A} C (m : M FS A) : preserves (shielded kept) m -> under C m.
Proof using Type. intros Hm w Hw _. by apply Hm. Qed.

Lemma under_host {A B} C (m : M FS A) (k : A -> M FS B) :
  host_free C -> host_only m -> (forall a, under C (k a)) -> under C (bind m k).
Proof using Type.
  intros HC Hm Hk w Hw Hc.
  pose proof (Hm (fun s => shielded kept s /\ C s) ltac:(intros h s [??]; split; [by apply shielded_host_free|by apply HC])
    w (conj Hw Hc)) as Hp.
  unfold bind. destruct (m w) as [[a|e] w1]; cbn in Hp; destruct Hp as [Hw1 Hc1]; [by apply Hk|done].
Qed.

Lemma under_attempt_exec {A B} C (f : FS -> result (A * FS)) (k : result A -> M FS B) :
  (forall s a s', shielded kept s -> C s -> f s = Ok (a, s') -> shielded kept s') ->
  (forall r, preserves (shielded kept) (k r)) -> under C (bind (attempt (exec f)) k).
Proof using Type.
  intros Hf Hk w Hw Hc. unfold bind, attempt. destruct (exec f w) as [r w1] eqn:E.
  apply Hk. destruct r as [a|e].
  - apply statement_Ok in E. by eapply Hf.
  - by apply statement_Fail in E as [-> _].
Qed.

Lemma preserves_first_under {A} id (k : IptablesRule -> M FS A) :
  (forall rule, under (fun s => rule_by_id id s = Some rule) (k rule)) ->
  preserves (shielded kept) (bind (first (rule_by_id id)) k).
Proof using Type.
  intros Hk w Hw. unfold bind. destruct (first (rule_by_id id) w) as [[rule|e] w1] eqn:E.
  - apply first_Ok in E as [Hr Ht]. apply Hk; by rewrite Ht.
  - apply first_tables in E. cbn. by rewrite E.
Qed.

Lemma under_if {A} C (c : bool) (m1 m2 : M FS A) :
  (c = true -> under C m1) -> (c = false -> under C m2) -> under C (if c then m1 else m2).
Proof using Type. destruct c; auto. Qed.

Lemma by_id_free id rule : host_free (fun s : FS => rule_by_id id s = Some rule).
Proof using Type. by intros h s. Qed.

Lemma rule_by_id_In id rule (s : FS) : rule_by_id id s = Some rule -> In rule (rules s) /\ ID rule = id.
Proof using Type. intros [Hin Heq]%find_some. by apply Z.eqb_eq in Heq. Qed.

Lemma same_id r q l : NoDup (map ID l) -> In r l -> In q l -> ID r = ID q -> r = q.
Proof using Type. intros Hd Hr Hq. by apply (NoDup_map_inj ID l); [|apply list_elem_of_In..]. Qed.

(** Writes to a row that is not protected. *)
Lemma shielded_update id f rule s :
  shielded kept s -> rule_by_id id s = Some rule -> Protected rule = false ->
  (forall r, ID (f r) = ID r /\ Protected (f r) = Protected r) ->
  shielded kept (set_rules (map (fun r => if ID r =? id then f r else r) (rules s)) (rule_seq s) s).
Proof using Type.
  intros (Hk & Hd & Hs) Hr Hp Hf. apply rule_by_id_In in Hr as [Hin Hid].
  unfold shielded. cbn [rules rule_seq set_rules].
  assert (Hids : map ID (map (fun r => if ID r =? id then f r else r) (rules s)) = map ID (rules s)).
  { rewrite map_map. apply map_ext. intros r. destruct (ID r =? id); [apply Hf|done]. }
  split; [|split].
  - rewrite <- Hk.
    assert (Hsame : forall r, In r (rules s) -> ID r = id -> r = rule)
      by (intros r Hr E; apply (same_id r rule (rules s)); congruence || done).
    clear -Hsame Hp Hf. induction (rules s) as [|r l IH]; [done|]. cbn [map List.filter].
    assert (IHl : List.filter Protected (map (fun r => if ID r =? id then f r else r) l) = List.filter Protected l).
    { apply IH. intros q Hq. apply Hsame. by right. }
    rewrite IHl. destruct (Z.eqb_spec (ID r) id) as [E|]; [|done].
    rewrite (proj2 (Hf r)), (Hsame r (or_introl eq_refl) E), Hp. done.
  - by rewrite Hids.
  - apply Forall_map_iff. eapply Forall_impl; [exact Hs|]. intros r Hr. cbn.
    destruct (ID r =? id); [by rewrite (proj1 (Hf r))|done].
Qed.

Lemma shielded_delete rule s :
  shielded kept s -> rule_by_id (ID rule) s = Some rule -> Protected rule = false ->
  shielded kept (set_rules (List.filter (fun r => negb (ID r =? ID rule)) (rules s)) (rule_seq s) s).
Proof using Type.
  intros (Hk & Hd & Hs) Hr Hp. apply rule_by_id_In in Hr as [Hin _].
  unfold shielded. cbn [rules rule_seq set_rules].
  split; [|split].
  - rewrite <- Hk.
    assert (Hsame : forall r, In r (rules s) -> ID r = ID rule -> r = rule)
      by (intros r Hr E; by apply (same_id r rule (rules s))).
    clear -Hsame Hp. induction (rules s) as [|r l IH]; [done|]. cbn [List.filter].
    assert (IHl := IH (fun q Hq => Hsame q (or_intror Hq))).
    destruct (Z.eqb_spec (ID r) (ID rule)) as [E|]; cbn [negb List.filter]; [|by rewrite IHl].
    by rewrite (Hsame r (or_introl eq_refl) E), Hp.
  - clear -Hd. induction (rules s) as [|r l IH]; [done|]. cbn [map] in Hd. apply NoDup_cons in Hd as [Hn Hd].
    cbn [List.filter]. destruct (negb _); [|by apply IH]. cbn [map]. apply NoDup_cons. split; [|by apply IH].
    rewrite list_elem_of_In, in_map_iff. intros (q & E & Hq%filter_In). apply Hn.
    rewrite list_elem_of_In, in_map_iff. exists q. tauto.
  - rewrite Forall_forall in Hs |- *. intros r Hr%list_elem_of_In. apply filter_In in Hr as [Hr _].
    by apply Hs, list_elem_of_In.
Qed.

Lemma shielded_create rule s :
  Protected rule = false -> shielded kept s ->
  shielded kept (set_rules (rules s ++ [with_identity (rule_seq s)
    (if String.eqb (RuleType rule) "" then "port" else RuleType rule) rule]) (rule_seq s + 1) s).
Proof using Type.
  intros Hp (Hk & Hd & Hs). unfold shielded. cbn [rules rule_seq set_rules]. split; [|split].
  - rewrite List.filter_app, Hk. cbn [List.filter with_identity Protected]. by rewrite Hp, app_nil_r.
  - rewrite map_app. apply NoDup_app. split; [done|]. split; [|by apply NoDup_singleton].
    intros id Hid. rewrite list_elem_of_In in Hid |- *. apply in_map_iff in Hid as (r & <- & Hr).
    cbn. intros [E|[]]. rewrite Forall_forall in Hs. specialize (Hs r). rewrite list_elem_of_In in Hs.
    specialize (Hs Hr). cbn in Hs. lia.
  - apply Forall_app. split; [eapply Forall_impl; [exact Hs|]; cbn; lia|]. apply Forall_singleton. cbn. lia.
Qed.
End protection.

Section operations.
Context {H : Type} `{!Host H} `{!UnicodeCase}.
Variable panelPort : Z.
Variable kept : list IptablesRule.

Abbreviation FS := (FirewallState H).
Abbreviation safe := (preserves (shielded (H := H) kept)).

Lemma safe_host {A} (m : M FS A) : host_only m -> safe m.
Proof using Type. intros Hm. apply Hm, shielded_host_free. Qed.

Lemma safe_around {A} text (m : M FS A) : safe m -> safe (around text m).
Proof using Type. intros Hm w Hw. specialize (Hm w Hw). unfold around. by destruct (m w) as [[]]. Qed.

Lemma safe_read {A} (f : FS -> A) : safe (read f).
Proof using Type. apply preserves_readonly, readonly_read. Qed.

Lemma safe_first {A} (f : FS -> option A) : safe (first f).
Proof using Type. apply preserves_readonly, readonly_first. Qed.

(** Close [safe] goals: what only touches the host, reads, and the shape. *)
Ltac safe_step :=
  match goal with
  | |- safe (read _) => apply safe_read
  | |- safe (first _) => apply safe_first
  | |- safe (ret _) => apply preserves_ret
  | |- safe (fail _) => apply preserves_fail
  | |- safe (bind (attempt (exec (create_rule _))) _) => fail 1
  | |- safe (attempt _) => apply preserves_attempt
  | |- safe (around _ _) => apply safe_around
  | |- safe (bind _ _) => apply preserves_bind; [|intros]
  | |- safe (match ?x with _ => _ end) => destruct x
  | |- safe _ => solve [apply safe_host; eauto 2 with store]
  end.

Lemma safe_create rule : Protected rule = false -> safe (exec (create_rule rule)).
Proof using Type.
  intros Hp. apply preserves_exec. intros s r s' [= _ <-] Hs. by apply shielded_create.
Qed.

Lemma safe_add st rule : safe (addLocked panelPort st rule).
Proof using Type.
  destruct st as [now token]. unfold addLocked.
  destruct (normalizeRule _ _ _) as [[n|e] rule']; [|apply preserves_fail].
  repeat first [safe_step | apply preserves_bind; [apply preserves_attempt, safe_create; done|intros]].
Qed.

Ltac under_step :=
  match goal with
  | |- under _ _ (fail _) => apply under_preserves, preserves_fail
  | |- under _ _ (ret _) => apply under_preserves, preserves_ret
  | |- under _ _ (if ?c then _ else _) => destruct c eqn:?
  | |- under _ _ (bind (attempt (exec _)) _) => apply under_attempt_exec
  | |- under _ _ (match ?x with _ => _ end) => destruct x
  | |- under _ _ (bind _ _) => apply under_host; [apply by_id_free|solve [hosting]|intros]
  end.

Lemma host_only_backend_or_detected rule : host_only (backend_or_detected (H := H) rule).
Proof using Type. unfold backend_or_detected. hosting. Qed.

Lemma under_detected {A} C rule (k : IptablesRule -> M FS A) :
  host_free C -> (forall backend, under kept C (k (with_backend backend rule))) ->
  under kept C (bind (backend_or_detected rule) k).
Proof using Type.
  intros HC Hk w Hw Hc. pose proof (host_only_backend_or_detected rule
    (fun s => shielded kept s /\ C s) ltac:(intros h s [??]; split; [by apply shielded_host_free|by apply HC])
    w (conj Hw Hc)) as Hp.
  unfold bind. destruct (backend_or_detected rule w) as [[a|e] w1] eqn:E; cbn in Hp; [|tauto].
  assert (Ha : exists backend, a = with_backend backend rule).
  { revert E. unfold backend_or_detected. destruct (String.eqb _ _).
    - unfold bind. destruct (detectBackend w) as [[st|] w2]; [|done]. intros [= <- _]. eauto.
    - intros [= <- _]. exists (Backend rule). by destruct rule. }
  destruct Ha as [backend ->]. destruct Hp as [Hw1 Hc1]. by apply Hk.
Qed.

Lemma safe_delete id : safe (deleteLocked id).
Proof using Type.
  unfold deleteLocked. destruct (id <? 1); [apply preserves_fail|].
  apply preserves_first_under. intros rule. destruct (Protected rule) eqn:Hp.
  { apply under_preserves, preserves_fail. }
  apply under_detected; [apply by_id_free|]. intros backend.
  apply under_host; [apply by_id_free|hosting|intros ops].
  apply under_attempt_exec; [|intros [|]; repeat safe_step].
  intros s a s' Hs Hr [= _ <-]. pose proof (rule_by_id_In _ _ _ Hr) as [_ <-].
  by apply shielded_delete.
Qed.

Lemma safe_set_state now id enabled : safe (setRuleStateLocked now id enabled).
Proof using Type.
  unfold setRuleStateLocked. destruct (id <? 1); [apply preserves_fail|].
  apply preserves_first_under. intros rule. destruct (Protected rule) eqn:Hp.
  { apply under_preserves, preserves_fail. }
  destruct (State rule =? _); [apply under_preserves, preserves_ret|].
  destruct (_ && _); [apply under_preserves, preserves_fail|].
  apply under_detected; [apply by_id_free|]. intros backend.
  apply under_host; [apply by_id_free|hosting|intros ops].
  apply under_host; [apply by_id_free|hosting|intros []].
  apply under_attempt_exec; [|intros [|]; repeat safe_step].
  intros s a s' Hs Hr [= _ <-]. by eapply shielded_update.
Qed.

Lemma host_only_remove_old old : host_only (remove_old (H := H) old).
Proof using Type. unfold remove_old. hosting. Qed.

Lemma host_only_apply_new old requested ops : host_only (apply_new (H := H) old requested ops).
Proof using Type. unfold apply_new. hosting. Qed.

Lemma safe_update st requested : safe (Update panelPort st requested).
Proof using Type.
  destruct st as [now token]. unfold Update. destruct (ID requested <? 1); [apply preserves_fail|].
  apply preserves_first_under. intros old. destruct (Protected old) eqn:Hp.
  { apply under_preserves, preserves_fail. }
  destruct (normalizeRule _ _ _) as [[n|e] rule']; [|apply under_preserves, preserves_fail].
  apply under_host; [apply by_id_free|hosting|intros backend].
  apply under_host; [apply by_id_free|apply host_only_remove_old|intros oldOps].
  apply under_host; [apply by_id_free|apply host_only_apply_new|intros newOps].
  apply under_attempt_exec; [|intros [|]; repeat safe_step].
  intros s a s' Hs Hr [= _ <-]. pose proof (rule_by_id_In _ _ _ Hr) as [_ E].
  cbn [ID with_backend]. by eapply shielded_update; [|rewrite E| |].
Qed.

Lemma safe_batch_loop clock action ids completed : safe (batch_loop clock action ids completed).
Proof using Type.
  revert clock completed. induction ids as [|id ids IH]; intros clock completed; cbn [batch_loop]; [apply preserves_ret|].
  destruct (negb _); [apply preserves_ret|]. apply preserves_bind.
  - apply preserves_attempt. unfold batch_step. repeat case_match; auto using safe_set_state, safe_delete.
  - intros [|]; [apply IH|apply preserves_ret].
Qed.

Lemma safe_cleanup_loop expired cleaned : safe (cleanup_loop expired cleaned).
Proof using Type.
  revert cleaned. induction expired as [|r l IH]; intros cleaned; cbn [cleanup_loop]; [apply preserves_ret|].
  destruct (Protected r); [apply IH|]. apply preserves_bind; [apply preserves_attempt, safe_delete|].
  intros [|]; [apply IH|apply preserves_ret].
Qed.

Lemma safe_delete_all ids : safe (delete_all ids).
Proof using Type.
  induction ids as [|id ids IH]; cbn [delete_all]; [apply preserves_ret|].
  apply preserves_bind; [apply preserves_attempt, safe_delete|]. intros _. apply IH.
Qed.

Lemma safe_delete_each l : safe (delete_each l).
Proof using Type.
  induction l as [|r l IH]; cbn [delete_each]; [apply preserves_ret|].
  apply preserves_bind; [apply safe_delete|]. intros _. apply IH.
Qed.

Lemma safe_add_all stamps l : safe (add_all panelPort stamps l).
Proof using Type.
  revert stamps. induction l as [|r l IH]; intros stamps; cbn [add_all]; [apply preserves_ret|].
  apply preserves_bind; [apply preserves_attempt, safe_add|]. intros _. apply IH.
Qed.

Lemma safe_import_loop stamps index todo created : safe (import_loop panelPort stamps index todo created).
Proof using Type.
  revert stamps index created. induction todo as [|r l IH]; intros stamps index created; cbn [import_loop]; [apply preserves_ret|].
  apply preserves_bind; [apply preserves_attempt, safe_add|]. intros [|]; [apply IH|].
  apply preserves_bind; [apply safe_delete_all|intros _; apply preserves_fail].
Qed.

Lemma safe_replace_loop stamps restored current index todo created :
  safe (replace_loop panelPort stamps restored current index todo created).
Proof using Type.
  revert stamps index created. induction todo as [|r l IH]; intros stamps index created; cbn [replace_loop]; [apply preserves_ret|].
  apply preserves_bind; [apply preserves_attempt, safe_add|]. intros [|]; [apply IH|].
  apply preserves_bind; [apply safe_delete_all|intros _].
  apply preserves_bind; [apply safe_add_all|intros _; apply preserves_fail].
Qed.

Lemma host_only_reuse_rule clock state port l : host_only (reuse_rule (H := H) panelPort clock state port l).
Proof using Type.
  revert clock. induction l as [|r l IH]; intros clock; cbn [reuse_rule]; [hosting|].
  destruct (normalizeRule _ _ _) as [[n|e] r']; [|apply IH].
  repeat case_match; try apply IH. apply host_only_bind; [hosting|]. intros []; [hosting|apply IH].
Qed.

Lemma safe_website clock st port name : safe (EnsureWebsitePort panelPort clock st port name).
Proof using Type.
  unfold EnsureWebsitePort. destruct (_ || _); [apply preserves_fail|].
  destruct (String.eqb _ _); [apply preserves_fail|].
  apply preserves_bind; [apply safe_host, host_only_detectBackend|intros state].
  destruct (_ || _); [apply preserves_ret|]. apply preserves_bind; [apply safe_read|intros l].
  apply preserves_bind; [apply safe_host, host_only_reuse_rule|]. intros [id|]; [apply preserves_ret|].
  apply preserves_bind; [apply safe_add|]. intros r. apply preserves_ret.
Qed.

Lemma safe_block_loop config now stamps todo created : safe (block_loop panelPort config now stamps todo created).
Proof using Type.
  revert stamps created. induction todo as [|[address count] l IH]; intros stamps created; cbn [block_loop]; [apply preserves_ret|].
  destruct (count <? _); [apply IH|]. apply preserves_bind; [apply preserves_attempt, safe_read|].
  intros [n|e]; [|apply preserves_ret]. destruct (0 <? n); [apply IH|].
  apply preserves_bind; [apply preserves_attempt, safe_add|]. intros [r|e]; [|apply preserves_ret].
  destruct (100 <=? _); [apply preserves_ret|apply IH].
Qed.

Lemma safe_exec_other {A} (f : FS -> result (A * FS)) :
  (forall s a s', f s = Ok (a, s') -> rules s' = rules s /\ rule_seq s' = rule_seq s) -> safe (exec f).
Proof using Type.
  intros Hf. apply preserves_exec. intros s a s' E. apply Hf in E as [Hr Hq]. unfold shielded. by rewrite Hr, Hq.
Qed.

Lemma safe_write_rules content : safe (write_rules content).
Proof using Type.
  intros w Hw. unfold write_rules. destruct (WriteBeforeRules content (host (tables w))) as [[] h]; done.
Qed.

Lemma safe_set_ping blocked : safe (SetPingBlocked blocked).
Proof using Type.
  assert (Hufw : safe (setUFWPingBlocked blocked)).
  { intros w Hw. unfold setUFWPingBlocked. destruct (ReadBeforeRules _); [|done].
    destruct (ping_lines _ _); [|done]. destruct (String.eqb _ _); [done|].
    destruct (StatBeforeRules _); [done|]. revert w Hw.
    apply preserves_bind; [apply safe_write_rules|intros _].
    apply preserves_bind; [apply safe_host; hosting|]. intros [|]; [apply preserves_ret|].
    apply preserves_bind; [apply preserves_attempt, safe_write_rules|intros _].
    apply preserves_bind; [apply safe_host; hosting|intros _; apply preserves_fail]. }
  assert (Hping : forall state, safe (pingBlocked state)).
  { intros state w Hw. unfold pingBlocked. destruct (String.eqb _ _); [done|].
    destruct (String.eqb _ _); [|destruct (String.eqb _ _); [|done]];
      revert w Hw; apply safe_host; hosting. }
  unfold SetPingBlocked. apply preserves_bind; [apply safe_host; hosting|intros state].
  destruct (negb _); [apply preserves_fail|]. apply preserves_bind; [apply Hping|intros current].
  destruct (match current with Ok b => _ | Fail _ => false end); [apply preserves_ret|].
  apply preserves_bind; [destruct current; [apply preserves_ret|destruct (String.eqb _ _); [apply preserves_fail|apply preserves_ret]]|intros _].
  destruct (String.eqb _ _); [apply Hufw|].
  destruct (String.eqb _ _); [apply safe_host; hosting|].
  destruct (String.eqb _ _); [destruct (negb _); [apply preserves_fail|apply safe_host; hosting]|apply preserves_fail].
Qed.

Lemma safe_forward_write {A} (f : FS -> result (A * FS)) :
  (forall s a s', f s = Ok (a, s') -> rules s' = rules s /\ rule_seq s' = rule_seq s) ->
  safe (attempt (exec f)).
Proof using Type. intros Hf. by apply preserves_attempt, safe_exec_other. Qed.

Ltac forwards := repeat first
  [ apply preserves_bind; [apply safe_forward_write; by intros ??? [= _ <-]|intros]
  | safe_step ].

Lemma safe_add_forward f : safe (AddPortForward panelPort f).
Proof using Type. unfold AddPortForward. destruct (normalizePortForward _ _); forwards. Qed.

Lemma safe_update_forward f : safe (UpdatePortForward panelPort f).
Proof using Type.
  unfold UpdatePortForward, restore_forward. destruct (_ <? _); [apply preserves_fail|].
  apply preserves_bind; [apply safe_first|intros old]. destruct (normalizePortForward _ _); forwards.
Qed.

Lemma safe_delete_forward id : safe (DeletePortForward (H := H) id).
Proof using Type. unfold DeletePortForward, restore_forward. forwards. Qed.

(** What an administrator and the maintenance loop do: everything except the
    operations that manage the port of the panel itself. *)
Inductive operation :=
  | AddsRule (st : stamp) (rule : IptablesRule)
  | UpdatesRule (st : stamp) (rule : IptablesRule)
  | DeletesRule (id : Z)
  | SetsState (now : time) (id : Z) (enabled : bool)
  | RunsBatch (clock : list time) (ids : list Z) (action : string)
  | CleansUp (now : time)
  | Imports (stamps : list stamp) (l : list IptablesRule)
  | Replaces (stamps restored : list stamp) (l : list IptablesRule)
  | OpensWebsite (clock : list time) (st : stamp) (port : Z) (name : string)
  | BlocksAddresses (now current : time) (stamps : list stamp) (order : gmap string Z -> list (string * Z))
  | SavesAutoBlock (enabled : bool) (threshold window ban : Z)
  | SetsPing (blocked : bool)
  | AddsForward (f : FirewallPortForward)
  | UpdatesForward (f : FirewallPortForward)
  | SetsForward (id : Z) (enabled : bool)
  | DeletesForward (id : Z).

Definition perform (op : operation) : M FS unit :=
  let ignore {A} (m : M FS A) : M FS unit := let* _ := attempt m in ret tt in
  match op with
  | AddsRule st rule => ignore (Add panelPort st rule)
  | UpdatesRule st rule => ignore (Update panelPort st rule)
  | DeletesRule id => ignore (Delete id)
  | SetsState now id enabled => ignore (SetRuleState now id enabled)
  | RunsBatch clock ids action => ignore (Batch clock ids action)
  | CleansUp now => ignore (CleanupExpired now)
  | Imports stamps l => ignore (ImportRules panelPort stamps l)
  | Replaces stamps restored l => ignore (ReplaceRules panelPort stamps restored l)
  | OpensWebsite clock st port name => ignore (EnsureWebsitePort panelPort clock st port name)
  | BlocksAddresses now current stamps order => ignore (RunAutoBlock panelPort now current stamps order)
  | SavesAutoBlock enabled threshold window ban => ignore (SaveAutoBlockConfig enabled threshold window ban)
  | SetsPing blocked => ignore (SetPingBlocked blocked)
  | AddsForward f => ignore (AddPortForward panelPort f)
  | UpdatesForward f => ignore (UpdatePortForward panelPort f)
  | SetsForward id enabled => ignore (SetPortForwardState panelPort id enabled)
  | DeletesForward id => ignore (DeletePortForward id)
  end.

Fixpoint perform_all (ops : list operation) (w : world FS) : world FS :=
  match ops with
  | [] => w
  | op :: ops => perform_all ops (perform op w).2
  end.

Lemma safe_perform op : safe (perform op).
Proof using Type.
  assert (Hi : forall A (m : M FS A), safe m -> safe (let* _ := attempt m in ret tt)).
  { intros A m Hm. apply preserves_bind; [by apply preserves_attempt|intros _; apply preserves_ret]. }
  destruct op; cbn [perform]; apply Hi.
  - apply safe_add.
  - apply safe_update.
  - apply safe_delete.
  - apply safe_set_state.
  - unfold Batch. destruct ids; [apply preserves_ret|]. destruct (500 <? _); [apply preserves_ret|apply safe_batch_loop].
  - unfold CleanupExpired. apply preserves_bind; [apply safe_read|intros; apply safe_cleanup_loop].
  - unfold ImportRules. destruct l; [apply preserves_fail|]. destruct (500 <? _); [apply preserves_fail|apply safe_import_loop].
  - unfold ReplaceRules. apply preserves_bind; [apply safe_read|intros current].
    apply preserves_bind; [apply safe_delete_each|intros _; apply safe_replace_loop].
  - apply safe_website.
  - unfold RunAutoBlock, GetAutoBlockConfig, maybe. repeat safe_step.
    + apply safe_block_loop.
    + apply safe_exec_other. by intros s a' s' [= _ <-].
  - unfold SaveAutoBlockConfig. repeat safe_step; apply safe_exec_other; by intros s a' s' [= _ <-].
  - apply safe_set_ping.
  - apply safe_add_forward.
  - apply safe_update_forward.
  - unfold SetPortForwardState. apply preserves_bind; [apply safe_first|intros; apply safe_update_forward].
  - apply safe_delete_forward.
Qed.

Lemma shielded_perform_all ops w : shielded kept (tables w) -> shielded kept (tables (perform_all ops w)).
Proof using Type. revert w. induction ops as [|op ops IH]; intros w Hw; [done|]. by apply IH, safe_perform. Qed.
End operations.

Section promise.
Context {H : Type} `{!Host H} `{!UnicodeCase}.

(** C23: the stored protection of the panel's port survives whatever is done to
    the rules. Over any sequence of additions, edits, deletions, state changes,
    batches, clean-ups, imports, replacements, website ports, automatic blocks,
    ping switches and port forwards, on any host and with any faults of the
    database, the protected rows stay exactly as they are. *)
Theorem protected_rules_survive panelPort ops (w : world (FirewallState H))
  (Hids : NoDup (map ID (rules (tables w))) /\
          Forall (fun r => ID r < rule_seq (tables w)) (rules (tables w))) :
  List.filter Protected (rules (tables (perform_all panelPort ops w))) =
  List.filter Protected (rules (tables w)).
Proof. destruct Hids as [Hd Hs]. by apply shielded_perform_all. Qed.
End promise.

Section witnesses.
#[local] Existing Instance latin1_case.

Definition panel_row : IptablesRule := with_identity 1 "port" (protected_rule 8089 BackendIPTables "p0").

Definition guarded : FirewallState netfilter :=
  mkFirewall [panel_row] 2 [] 1 [] [] (mkNetfilter [] [] true).

(** A rule is added, then both rows are asked to be deleted. *)
Definition demo_session : list operation :=
  [AddsRule (0, "t0") (mkRule 0 "port" "in" "tcp" "deny" "10.0.0.0/8" "80" 1 "" "" None "" "" false);
   RunsBatch [0; 0] [1; 2] "delete"; DeletesRule 1; DeletesRule 2].

Lemma protected_rules_survive_witness :
  rules (tables (perform_all 8089 demo_session (World guarded []))) = [panel_row] /\
  List.filter Protected (rules (tables (perform_all 8089 demo_session (World guarded [])))) = [panel_row].
Proof.
  split; [by vm_compute|].
  refine (eq_trans (protected_rules_survive 8089 demo_session (World guarded []) _) eq_refl).
  split; repeat constructor; by intros ?%not_elem_of_nil.
Defined.
End witnesses.
