(* ===== verification/FirewallEffect.v ===== *)
(** The host and the table agree when a rule is added ([Firewall.Add]): what the
    service relies on the host's commands for is the interface
    [FirewallEffect], and over it an addition either happens entirely, on the
    host and in the table, or leaves no trace on either. Two concrete hosts
    follow: one of iptables, that meets the interface, and one of firewalld, on
    which the compensations of the service are seen to fall short. *)

From stdpp Require Import gmap sorting options.
From S2P Require Import Prelude GoStrings GoText GoNet Store FirewallRule Firewall FirewallHosts FirewallSafety.
#[local] Open Scope Z_scope.

(** The commands of a rule on a backend. *)
Definition operations_on (backend : string) (rule : IptablesRule) : list commandOperation :=
  if String.eqb backend BackendUFW then ufwRuleOperations rule
  else if String.eqb backend BackendFirewalld then firewalldRuleOperations rule "firewall-cmd" true
  else if String.eqb backend BackendIPTables then iptablesRuleOperations rule
  else [].

Definition rule_command (op : commandOperation) : Prop :=
  exists backend rule, In op (operations_on backend rule).

(** The commands that only ask. *)
Definition detection : list (string * list string) :=
  [("ufw", ["status"]); ("firewall-offline-cmd", ["--check-config"]);
   ("systemctl", ["show-environment"]); ("firewall-cmd", ["--state"])].

(** The commands that make the rules outlive a restart. *)
Definition persistence : list (string * list string) :=
  [("firewall-cmd", ["--reload"]); ("netfilter-persistent", ["save"])].

(** [R] is the rule set in force. A command that fails changes nothing, one that
    succeeds does what it says, and taking back what is in force, and was not
    there before, brings the former rule set back. *)
Class FirewallEffect (H R : Type) `{!Host H} := {
  effect : H -> R;
  apply_op : commandOperation -> R -> R;
  fresh : commandOperation -> R -> Prop;
  asking_keeps : forall name args h, In (name, args) (detection ++ persistence) ->
    effect (Run name args h).2 = effect h;
  applied : forall op h t h', rule_command op -> Run (op_name op) (op_args op) h = (Ok t, h') ->
    effect h' = apply_op op (effect h);
  refused : forall op h e h', rule_command op -> Run (op_name op) (op_args op) h = (Fail e, h') ->
    effect h' = effect h;
  undone : forall op h r, rule_command op -> fresh op r -> effect h = apply_op op r ->
    effect (Run (op_undoName op) (op_undoArgs op) h).2 = r
}.

Section effects.
Context {H R : Type} `{!Host H} `{!FirewallEffect H R} `{!UnicodeCase}.

Abbreviation FS := (FirewallState H).

Fixpoint apply_all (ops : list commandOperation) (r : R) : R :=
  match ops with
  | [] => r
  | op :: ops => apply_all ops (apply_op op r)
  end.

(** Each command is fresh when its turn comes. *)
Fixpoint all_fresh (ops : list commandOperation) (r : R) : Prop :=
  match ops with
  | [] => True
  | op :: ops => fresh op r /\ all_fresh ops (apply_op op r)
  end.

Lemma apply_all_app ops ops' r : apply_all (ops ++ ops') r = apply_all ops' (apply_all ops r).
Proof. revert r. induction ops as [|op ops IH]; intros r; [done|apply IH]. Qed.

Lemma all_fresh_app ops ops' r :
  all_fresh (ops ++ ops') r <-> all_fresh ops r /\ all_fresh ops' (apply_all ops r).
Proof.
  revert r. induction ops as [|op ops IH]; intros r; cbn; [tauto|]. rewrite IH. tauto.
Qed.

Definition in_force (r : R) (s : FS) : Prop := effect (host s) = r.

Definition force (w : world FS) : R := effect (host (tables w)).

Lemma asking name args r : In (name, args) (detection ++ persistence) ->
  preserves (in_force r) (command (H := H) name args).
Proof.
  intros Hin w Hw. unfold command. pose proof (asking_keeps name args (host (tables w)) Hin) as Hk.
  destruct (Run name args (host (tables w))) as [a h]. cbn in *. unfold in_force in *. cbn. congruence.
Qed.

Lemma keeps_persist backend r : preserves (in_force r) (persist (H := H) backend).
Proof.
  unfold persist. repeat case_match; try apply preserves_ret; apply asking; cbn; tauto.
Qed.

Ltac keeping :=
  repeat first
    [ apply preserves_ret
    | apply asking; cbn; tauto
    | apply preserves_bind; [|intros]
    | match goal with
      | |- preserves _ (has_program _) => by intros w Hw
      | |- preserves _ (match ?x with _ => _ end) => destruct x
      end ].

Lemma keeps_detectBackend r : preserves (in_force r) (detectBackend (H := H)).
Proof.
  unfold detectBackend, detect_ufw, detect_firewalld, detect_iptables, check_firewalld, has_systemd.
  keeping.
Qed.

(** ** Running a list of commands *)

Lemma undo_all_force ops r w :
  Forall rule_command ops -> all_fresh ops r -> force w = apply_all ops r ->
  force (undo_all (rev ops) w).2 = r.
Proof.
  revert w. induction ops as [|op ops IH] using rev_ind; intros w Hops Hf Hw; [done|].
  rewrite rev_unit. cbn [undo_all].
  apply Forall_app in Hops as [Hops Hop%Forall_inv].
  apply all_fresh_app in Hf as [Hf [Hop' _]]. rewrite apply_all_app in Hw. cbn in Hw.
  unfold bind, command.
  pose proof (undone op (host (tables w)) (apply_all ops r) Hop Hop' Hw) as Hu.
  destruct (Run (op_undoName op) (op_undoArgs op) (host (tables w))) as [a h]. by apply IH.
Qed.

Lemma undo_all_ok ops (w : world FS) : exists w', undo_all ops w = (Ok tt, w').
Proof.
  revert w. induction ops as [|op ops IH]; intros w; cbn [undo_all]; [by eexists|].
  unfold bind, command. destruct (Run _ _ _) as [a h]. apply IH.
Qed.

Lemma persist_ok backend (w : world FS) : exists a w', persist backend w = (Ok a, w').
Proof.
  unfold persist, command. repeat case_match; eauto; simplify_eq; eauto.
Qed.

Lemma run_each_force backend ops done r w :
  Forall rule_command (rev done ++ ops) -> all_fresh (rev done ++ ops) r ->
  force w = apply_all (rev done) r ->
  match run_each backend ops done w with
  | (Ok _, w') => force w' = apply_all (rev done ++ ops) r
  | (Fail _, w') => force w' = r
  end.
Proof.
  revert done w. induction ops as [|op ops IH]; intros done w Hops Hf Hw; cbn [run_each].
  - rewrite app_nil_r in *. unfold bind at 1.
    destruct (persist_ok backend w) as (p & w1 & E). rewrite E.
    assert (H1 : force w1 = apply_all (rev done) r)
      by (generalize (keeps_persist backend _ w Hw); by rewrite E).
    destruct p as [t|e]; [done|]. unfold bind.
    destruct (undo_all_ok done w1) as [w2 E2].
    assert (H2 : force w2 = r).
    { pose proof (undo_all_force (rev done) r w1 Hops Hf H1) as Hu. rewrite rev_involutive, E2 in Hu. exact Hu. }
    rewrite E2. destruct (persist_ok backend w2) as (p & w3 & E3). rewrite E3.
    generalize (keeps_persist backend r w2 H2). by rewrite E3.
  - unfold bind at 1, run_op, command.
    assert (Hop : rule_command op) by (rewrite Forall_forall in Hops; apply Hops, list_elem_of_In, in_app_iff; cbn; tauto).
    destruct (Run (op_name op) (op_args op) (host (tables w))) as [[t|e] h] eqn:E.
    + assert (Eq : rev done ++ op :: ops = rev (op :: done) ++ ops) by (cbn [rev]; by rewrite <- app_assoc).
      rewrite Eq in *. apply IH; [done..|]. cbn [rev]. rewrite apply_all_app. cbn.
      rewrite <- Hw. by eapply applied.
    + apply Forall_app in Hops as [Hd _]. apply all_fresh_app in Hf as [Hf _].
      set (w1 := World _ _). unfold bind. destruct (undo_all_ok done w1) as [w2 E2]. rewrite E2.
      pose proof (undo_all_force (rev done) r w1 Hd Hf) as Hu. rewrite rev_involutive, E2 in Hu. apply Hu.
      rewrite <- Hw. by eapply refused.
Qed.

Lemma runOperations_force backend ops r w :
  Forall rule_command ops -> all_fresh ops r -> force w = r ->
  match runOperations backend ops w with
  | (Ok _, w') => force w' = apply_all ops r
  | (Fail _, w') => force w' = r
  end.
Proof. intros. by apply (run_each_force backend ops []). Qed.

Lemma take_back_force backend ops r w :
  Forall rule_command ops -> all_fresh ops r -> force w = apply_all ops r ->
  force (take_back backend ops w).2 = r.
Proof.
  intros Hops Hf Hw. unfold take_back, rollbackOperations, bind.
  destruct (undo_all_ok (rev ops) w) as [w1 E1]. rewrite E1.
  destruct (persist_ok backend w1) as (p & w2 & E2). rewrite E2.
  assert (H1 : force w1 = r).
  { pose proof (undo_all_force ops r w Hops Hf Hw) as Hu. by rewrite E1 in Hu. }
  generalize (keeps_persist backend r w1 H1). by rewrite E2.
Qed.

(** The commands a rule is given are those of its backend. *)
Lemma ruleOperations_on rule w :
  match ruleOperations (H := H) rule w with
  | (Ok ops, w') => ops = operations_on (Backend rule) rule /\ tables w' = tables w
  | (Fail _, w') => tables w' = tables w
  end.
Proof.
  unfold ruleOperations, operations_on. destruct (String.eqb _ BackendUFW); [done|].
  destruct (String.eqb _ BackendFirewalld); [done|]. destruct (String.eqb _ BackendIPTables); [|done].
  unfold bind, has_program. by destruct (LookPath _ _).
Qed.

Lemma rule_commands_on backend rule : Forall rule_command (operations_on backend rule).
Proof. apply Forall_forall. intros op Hop%list_elem_of_In. by exists backend, rule. Qed.

Lemma operations_identity backend id t rule :
  operations_on backend (with_identity id t rule) = operations_on backend rule.
Proof. done. Qed.

(** The rows of the rules, through what only touches the host. *)
Definition has_rules (l : list IptablesRule) (s : FS) : Prop := rules s = l.

Lemma has_rules_host l : host_free (has_rules l).
Proof. by intros h s. Qed.

(** What a command put into effect is for the rule, in the table or not. *)
Definition effect_of (rule : IptablesRule) (r : R) : R :=
  if State rule =? 1 then apply_all (operations_on (Backend rule) rule) r else r.

Definition put_in_force (rule : IptablesRule) : M FS (list commandOperation) :=
  if State rule =? 1 then
    let* operations := ruleOperations rule in
    let* _ := around "应用防火墙规则失败: " (runOperations (Backend rule) operations) in
    ret operations
  else ret [].

Lemma put_in_force_force rule r w :
  all_fresh (operations_on (Backend rule) rule) r -> force w = r ->
  match put_in_force rule w with
  | (Ok ops, w') => force w' = effect_of rule r /\ (State rule =? 1 = true -> ops = operations_on (Backend rule) rule)
  | (Fail _, w') => force w' = r
  end.
Proof.
  intros Hf Hw. unfold put_in_force, effect_of. destruct (State rule =? 1) eqn:Es; [|done].
  unfold bind at 1. pose proof (ruleOperations_on rule w) as Ho.
  destruct (ruleOperations rule w) as [[ops|e] w1]; [destruct Ho as [-> Ht]|by unfold force; rewrite Ho].
  pose proof (runOperations_force (Backend rule) (operations_on (Backend rule) rule) r w1
    (rule_commands_on _ _) Hf ltac:(unfold force; by rewrite Ht)) as Hr.
  unfold bind, around. by destruct (runOperations _ _ w1) as [[]].
Qed.

Lemma host_only_put_in_force rule : host_only (put_in_force rule).
Proof. unfold put_in_force. hosting. Qed.

Lemma put_in_force_rules rule l w : has_rules l (tables w) ->
  has_rules l (tables (put_in_force rule w).2).
Proof. apply host_only_put_in_force, has_rules_host. Qed.

(** Storing the rule, or taking the commands back. *)
Lemma store_or_take_back rule ops r w :
  all_fresh (operations_on (Backend rule) rule) r -> force w = effect_of rule r ->
  (State rule =? 1 = true -> ops = operations_on (Backend rule) rule) ->
  let m : M FS IptablesRule :=
    let* created := attempt (exec (create_rule rule)) in
    match created with
    | Ok rule => ret rule
    | Fail err =>
        let* _ := if State rule =? 1 then take_back (Backend rule) ops else ret tt in
        fail (Wrap "保存规则失败，系统规则已回滚: " err "")
    end in
  match m w with
  | (Ok stored, w') => rules (tables w') = rules (tables w) ++ [stored] /\ force w' = effect_of stored r
  | (Fail _, w') => rules (tables w') = rules (tables w) /\ force w' = r
  end.
Proof.
  intros Hf Hw Hops m. unfold m, bind at 1, attempt.
  destruct (exec (create_rule rule) w) as [[stored|e] w1] eqn:E.
  - apply statement_Ok in E as [= <- Ht]. cbn. unfold force. by rewrite <- Ht.
  - apply statement_Fail in E as [Ht _]. cbn.
    destruct (State rule =? 1) eqn:Es; unfold bind.
    + rewrite (Hops eq_refl) in *. unfold effect_of in Hw. rewrite Es in Hw.
      assert (Hw1 : force w1 = apply_all (operations_on (Backend rule) rule) r) by (unfold force; by rewrite Ht).
      pose proof (take_back_force (Backend rule) _ r w1 (rule_commands_on _ _) Hf Hw1) as Hb.
      pose proof (host_only_take_back (Backend rule) (operations_on (Backend rule) rule) (has_rules (rules (tables w)))
        (has_rules_host _) w1) as Hr.
      destruct (take_back _ _ w1) as [[[]|e'] w2]; (split; [apply Hr; unfold has_rules; by rewrite Ht|done]).
    + unfold effect_of in Hw. rewrite Es in Hw. cbn. unfold force. by rewrite Ht.
Qed.

Variable panelPort : Z.

End effects.

(** ** The host of iptables meets the interface *)

Definition iptables_rule (op : commandOperation) : option (list string) :=
  if String.eqb (op_name op) "iptables" then tail <$> Some (op_args op) else None.

Lemma rule_command_shape op : rule_command op ->
  (op_name op <> "iptables" /\ op_undoName op <> "iptables") \/
  exists r, op = mkOp "iptables" ("-A" :: r) "iptables" ("-D" :: r).
Proof.
  intros (backend & rule & Hop). unfold operations_on in Hop.
  assert (Hcomb : forall f, In op (combinations f rule) -> exists ip port, op = f ip port).
  { intros f. unfold combinations. destruct (expandedValues rule) as [ips ports].
    intros (ip & _ & (port & <- & _)%in_map_iff)%in_flat_map. eauto. }
  destruct (String.eqb backend BackendUFW).
  { apply Hcomb in Hop as (ip & port & ->). by left. }
  destruct (String.eqb backend BackendFirewalld).
  { unfold firewalldRuleOperations, firewalldDirectOperations in Hop.
    destruct (String.eqb (Direction rule) "out"); apply Hcomb in Hop as (ip & port & ->); by left. }
  destruct (String.eqb backend BackendIPTables); [|done].
  apply Hcomb in Hop as (ip & port & ->). right. by eexists.
Qed.

Lemma remove_rule_last l r : r ∉ l -> remove_rule (l ++ [r]) r = Some l.
Proof.
  induction l as [|q l IH]; intros Hr; cbn.
  - by rewrite bool_decide_true.
  - apply not_elem_of_cons in Hr as [Hq Hr]. rewrite bool_decide_false by congruence. by rewrite IH.
Qed.

Lemma netfilter_keeps name args (h : netfilter) : name <> "iptables" -> (Run name args h).2 = h.
Proof.
  intros Hn. cbn. destruct (String.eqb_spec name "iptables"); [done|]. by destruct (_ && _).
Qed.

#[export] Program Instance netfilter_effect : FirewallEffect netfilter (list (list string)) := {
  effect := chains;
  apply_op op r := match iptables_rule op with Some q => r ++ [q] | None => r end;
  fresh op r := match iptables_rule op with Some q => bool_decide (q ∈ r) = false | None => True end
}.
Next Obligation.
  intros name args h Hin. rewrite netfilter_keeps; [done|].
  cbn in Hin. intros ->. naive_solver.
Qed.
Next Obligation.
  intros op h t h' [[Hn _]|[r ->]]%rule_command_shape Hr; unfold iptables_rule.
  - pose proof (netfilter_keeps (op_name op) (op_args op) h Hn) as E. rewrite Hr in E. cbn in E. subst.
    destruct (String.eqb_spec (op_name op) "iptables"); done.
  - cbn in *. destruct (existsb _ r); [done|]. by injection Hr as _ <-.
Qed.
Next Obligation.
  intros op h e h' [[Hn _]|[r ->]]%rule_command_shape Hr.
  - pose proof (netfilter_keeps (op_name op) (op_args op) h Hn) as E. rewrite Hr in E. cbn in E. by subst.
  - cbn in Hr. destruct (existsb _ r); [|done]. by injection Hr as _ <-.
Qed.
Next Obligation.
  intros op h r [[Hn Hu]|[q ->]]%rule_command_shape; unfold iptables_rule.
  - intros _. rewrite netfilter_keeps by done.
    by destruct (String.eqb_spec (op_name op) "iptables").
  - cbn. intros Hf%bool_decide_eq_false Hh. rewrite Hh, remove_rule_last by done. done.
Qed.

Section witnesses.
#[local] Existing Instance latin1_case.

Definition demo_rule : IptablesRule :=
  mkRule 0 "port" "in" "tcp" "deny" "10.0.0.0/8" "80, 443, 666" 1 "" "" None "" "" false.

Definition demo_panel : IptablesRule := with_identity 1 "port" (protected_rule 8089 BackendIPTables "p0").

Definition demo_firewall (refused : list string) : FirewallState netfilter :=
  mkFirewall [demo_panel] 2 [] 1 [] [] (mkNetfilter [["INPUT"; "-s"; "any"]] refused true).


(** *** What the compensations leave out, on firewalld *)

Definition panel_rich : IptablesRule := with_identity 1 "port" (protected_rule 8089 BackendFirewalld "p0").

Definition rich_of (rule : IptablesRule) (port : string) : string := firewalldRichRule rule all_ipv4 port.

Definition on_firewalld (l : list IptablesRule) (reloads : list bool) : world (FirewallState firewalld) :=
  World (mkFirewall l 3 [] 1 [] [] (mkFirewalld (map (fun r => rich_of r (Ports r)) l) reloads)) [].

Definition opens (port : string) : IptablesRule :=
  mkRule 0 "port" "in" "tcp" "allow" "" port 1 "" "" None "" "" false.

Definition stored_open (port : string) : IptablesRule :=
  mkRule 2 "port" "in" "tcp" "allow" all_ipv4 port 1 "" "" None BackendFirewalld "t2" false.

(** A rich rule carries no token: a rule like the panel's own is accepted beside
    it, and its deletion takes the panel's rule off the host. *)
Lemma deleting_a_twin_closes_the_panel :
  let w := on_firewalld [panel_rich] [] in
  let w1 := (Add 8089 (0, "t1") (opens "8089") w).2 in
  let '(r, w2) := Delete 3 w1 in
  rich_rules (host (tables w)) = [rich_of panel_rich "8089"] /\ r = Ok tt /\
  rules (tables w2) = [panel_rich] /\ rich_rules (host (tables w2)) = [].
Proof. vm_compute. tauto. Qed.

(** The former rule is put back by the operation that runs any rule, which takes
    it off again when the reload still fails: the row says enabled, the error
    says restored, and the rule is gone. *)
Lemma a_failed_update_loses_the_rule :
  let w := on_firewalld [stored_open "80"] [true; false; false; false; false] in
  let '(r, w') := Update 8089 (0, "t3") (with_identity 2 "port" (opens "81")) w in
  is_ok r = false /\ rules (tables w') = [stored_open "80"] /\ rich_rules (host (tables w')) = [].
Proof. vm_compute. tauto. Qed.

(** A replacement that fails while it removes the former rules does not put back
    those that are gone. *)
Lemma a_failed_replacement_loses_rules :
  let second := with_identity 5 "port" (stored_open "81") in
  let w := on_firewalld [stored_open "80"; second] [true; false; false] in
  let '(r, w') := ReplaceRules 8089 [(0, "t3")] [(0, "t4"); (0, "t5")] [opens "90"] w in
  is_ok r = false /\ rules (tables w') = [second].
Proof. vm_compute. tauto. Qed.
End witnesses.
