(* ===== verification/PanelNetwork.v ===== *)
(** The network access of the panel ([internal/services/system/network.go] and
    the part of [server/http.go] that it rests on): what a configuration of the
    listeners may say, how it is read from and written into [config.yaml], and
    which peers may speak for a client.

    YAML, viper, the certificates of TLS and the sockets are parameters; a
    [yaml.Node] is the tree that the code walks through. *)

From stdpp Require Import gmap strings sorting options.
From S2P Require Import Prelude GoStrings GoText GoNet GoPath Store GoFiles Credential.
#[local] Open Scope Z_scope.

(** ** Listeners ([server/http.go]) *)

Record PanelConfig := mkPanelConfig {
  BindAddress : string; HTTPPort : string; HTTPSEnabled : bool; HTTPSPort : string;
  CertificateFile : string; PrivateKeyFile : string; TrustedProxies : list string
}.

#[export] Instance PanelConfig_eq_dec : EqDecision PanelConfig.
Proof. solve_decision. Defined.

Record certificate := mkCertificate {
  X_NotBefore : time; X_NotAfter : time; X_DNSNames : list string; X_IPAddresses : list string
}.

(** [server.CertificateInfo]. *)
Record CertificateInfo := mkCertificateInfo {
  CI_NotBefore : time; CI_NotAfter : time; CI_DNSNames : list string; CI_IPAddresses : list string
}.

(** Certificates: the pair of files on a disk as the blocks of the chain, and
    one block; the addresses are given as they print. *)
Class TLS := {
  LoadX509KeyPair : string -> string -> node -> result (list string);
  ParseCertificate : string -> result certificate;
  RFC3339 : time -> string
}.

Definition NetworkAddress (bindAddress port : string) : result string :=
  let port := TrimSpace port in
  let invalid := Fail (ErrorString ("invalid server port " +:+ port)) in
  match Atoi port with
  | None => invalid
  | Some number =>
      if (number <? 1) || (65535 <? number) then invalid
      else
        let bindAddress := TrimSpace bindAddress in
        if negb (String.eqb bindAddress "") && bool_decide (ParseIP bindAddress = None) then
          Fail (ErrorString ("bind address " +:+ bindAddress +:+ " must be an IPv4 or IPv6 address"))
        else Ok (JoinHostPort bindAddress (Itoa number))
  end.

Definition ListenAddress (port : string) : result string := NetworkAddress "" port.

(** An entry of the trusted proxies. *)
Definition valid_proxy (trustedProxy : string) : result unit :=
  let trustedProxy := TrimSpace trustedProxy in
  if String.eqb trustedProxy "" then Fail (ErrorString "trusted proxy entries must not be empty")
  else if bool_decide (ParseIP trustedProxy <> None) then Ok tt
  else if bool_decide (ParseCIDR trustedProxy = None) then
    Fail (ErrorString ("trusted proxy " +:+ trustedProxy +:+ " must be an IP address or CIDR range"))
  else Ok tt.

Fixpoint valid_proxies (proxies : list string) : result unit :=
  match proxies with
  | [] => Ok tt
  | proxy :: proxies => match valid_proxy proxy with Ok _ => valid_proxies proxies | Fail err => Fail err end
  end.

Section tls.
Context `{!TLS}.

Definition ValidateTLSCertificate (certificateFile privateKeyFile : string) (now : time) (disk : node)
    : result CertificateInfo :=
  let certificateFile := TrimSpace certificateFile in
  let privateKeyFile := TrimSpace privateKeyFile in
  if String.eqb certificateFile "" || String.eqb privateKeyFile "" then
    Fail (ErrorString "HTTPS requires both a certificate file and private key file")
  else
    match LoadX509KeyPair certificateFile privateKeyFile disk with
    | Fail err => Fail (Wrap "load HTTPS certificate and private key: " err "")
    | Ok [] => Fail (ErrorString "HTTPS certificate file contains no certificates")
    | Ok (block :: _) =>
        match ParseCertificate block with
        | Fail err => Fail (Wrap "parse HTTPS certificate: " err "")
        | Ok c =>
            if Before now (X_NotBefore c) then
              Fail (ErrorString ("HTTPS certificate is not valid before " +:+ RFC3339 (X_NotBefore c)))
            else if negb (Before now (X_NotAfter c)) then
              Fail (ErrorString ("HTTPS certificate expired at " +:+ RFC3339 (X_NotAfter c)))
            else Ok (mkCertificateInfo (X_NotBefore c) (X_NotAfter c) (X_DNSNames c) (X_IPAddresses c))
        end
    end.

(** The listeners of a configuration. *)
Definition check_https (config : PanelConfig) (httpAddress : string) (now : time) (disk : node) : result unit :=
  if HTTPSEnabled config then
    match NetworkAddress (BindAddress config) (HTTPSPort config) with
    | Fail err => Fail (Wrap "HTTPS listener: " err "")
    | Ok httpsAddress =>
        if String.eqb httpAddress httpsAddress then Fail (ErrorString "HTTP and HTTPS ports must be different")
        else
          match ValidateTLSCertificate (CertificateFile config) (PrivateKeyFile config) now disk with
          | Fail err => Fail err
          | Ok _ => Ok tt
          end
    end
  else Ok tt.

Definition ValidatePanelConfig (config : PanelConfig) (now : time) (disk : node) : result unit :=
  match NetworkAddress (BindAddress config) (HTTPPort config) with
  | Fail err => Fail (Wrap "HTTP listener: " err "")
  | Ok httpAddress =>
      match check_https config httpAddress now disk with
      | Fail err => Fail err
      | Ok _ => valid_proxies (TrustedProxies config)
      end
  end.
End tls.

(** ** Trusted proxies *)

(** What [ClientIP] and [RequestIsHTTPS] read of a request; [Header] gives the
    first value of a header, or the empty string. *)
Record proxied_request := mkProxied { P_RemoteAddr : string; P_TLS : bool; P_Header : string -> string }.

(** The address of the socket peer, without its port. *)
Definition peer_host (remoteAddress : string) : string :=
  match SplitHostPort (TrimSpace remoteAddress) with Some (host, _) => host | None => TrimSpace remoteAddress end.

(** Whether a configured proxy is or contains the peer. *)
Definition proxy_covers (peer : Z) (configured : string) : bool :=
  let configured := TrimSpace configured in
  match ParseIP configured with
  | Some address => address =? peer
  | None => match ParseCIDR configured with Some (_, network) => net_contains network peer | None => false end
  end.

Definition PeerIsTrustedProxy (remoteAddress : string) (trustedProxies : list string) : bool :=
  match ParseIP (peer_host remoteAddress) with
  | None => false
  | Some peer => existsb (proxy_covers peer) trustedProxies
  end.

Definition RequestIsHTTPS `{!UnicodeCase} (request : option proxied_request) (trustedProxies : list string) : bool :=
  match request with
  | None => false
  | Some request =>
      P_TLS request
      || (PeerIsTrustedProxy (P_RemoteAddr request) trustedProxies
          && EqualFold (TrimSpace (List.hd "" (Split (P_Header request "X-Forwarded-Proto") ","))) "https")
  end.

Definition ClientIP (request : option proxied_request) (trustedProxies : list string) : string :=
  match request with
  | None => ""
  | Some request =>
      let host := peer_host (P_RemoteAddr request) in
      if negb (PeerIsTrustedProxy (P_RemoteAddr request) trustedProxies) then host
      else
        let candidates := P_Header request "X-Real-IP" :: Split (P_Header request "X-Forwarded-For") "," in
        match omap (fun candidate => ParseIP (TrimSpace candidate)) candidates with
        | parsed :: _ => ip_string parsed
        | [] => host
        end
  end.

(** ** The managed configuration *)

Record managedPanelConfig := mkManaged {
  Network : PanelConfig; PanelEntryEnabled : bool; PanelEntryPath : string
}.

#[export] Instance managedPanelConfig_eq_dec : EqDecision managedPanelConfig.
Proof. solve_decision. Defined.

Fixpoint trim_left (c : ascii) (s : string) : string :=
  match s with
  | EmptyString => ""
  | String d s' => if Ascii.eqb d c then trim_left c s' else s
  end.

Fixpoint trim_right (c : ascii) (s : string) : string :=
  match s with
  | EmptyString => ""
  | String d s =>
      match trim_right c s with
      | EmptyString => if Ascii.eqb d c then "" else str1 d
      | rest => String d rest
      end
  end.

(** [strings.Trim] with one character. *)
Definition Trim (c : ascii) (s : string) : string := trim_right c (trim_left c s).

Definition normalizePanelEntryPath (path : string) : string :=
  let path := TrimSpace path in
  if String.eqb path "" then ""
  else
    let path := "/" +:+ Trim "/" path in
    if String.eqb path "/" then "" else path.

(** The proxies without surrounding space, each once. *)
Fixpoint distinct_proxies (seen proxies : list string) : list string :=
  match proxies with
  | [] => []
  | proxy :: proxies =>
      let proxy := TrimSpace proxy in
      if existsb (String.eqb proxy) seen then distinct_proxies seen proxies
      else proxy :: distinct_proxies (proxy :: seen) proxies
  end.

Definition or_default (value default : string) : string := if String.eqb value "" then default else value.

Definition normalizePanelConfig (config : PanelConfig) : PanelConfig :=
  mkPanelConfig (or_default (TrimSpace (BindAddress config)) "0.0.0.0") (TrimSpace (HTTPPort config))
    (HTTPSEnabled config) (or_default (TrimSpace (HTTPSPort config)) "8443")
    (TrimSpace (CertificateFile config)) (TrimSpace (PrivateKeyFile config))
    (distinct_proxies [] (TrustedProxies config)).

Definition normalizeManagedPanelConfig (config : managedPanelConfig) : managedPanelConfig :=
  mkManaged (normalizePanelConfig (Network config)) (PanelEntryEnabled config)
    (normalizePanelEntryPath (PanelEntryPath config)).

(** The path under which the panel is served. *)
Definition is_letter_or_digit (c : ascii) : bool :=
  let b := byte_of c in
  ((48 <=? b) && (b <=? 57)) || ((65 <=? b) && (b <=? 90)) || ((97 <=? b) && (b <=? 122)).

Section entry.
Context `{!UnicodeCase}.

(** The loop over the runes of the slug: a rune above 127 is none of the three ranges. *)
Definition check_entry (config : managedPanelConfig) : result unit :=
  if negb (PanelEntryEnabled config) then Ok tt
  else if String.eqb (PanelEntryPath config) "" then
    Fail (ErrorString "system.panelEntryPath is required when panel entry is enabled")
  else
    let slug := TrimPrefix (PanelEntryPath config) "/" in
    if existsb (String.eqb (ToLower slug)) ["v1"; "health"; "favicon.ico"] then
      Fail (ErrorString "system.panelEntryPath uses a reserved path")
    else if (len slug <? 10) || (20 <? len slug) then
      Fail (ErrorString "system.panelEntryPath length must be 10-20")
    else if sforall is_letter_or_digit slug then Ok tt
    else Fail (ErrorString "system.panelEntryPath must contain only letters and digits").

Definition validateManagedPanelConfig `{!TLS} (config : managedPanelConfig) (now : time) (disk : node) : result unit :=
  match ValidatePanelConfig (Network config) now disk with
  | Fail err => Fail err
  | Ok _ => check_entry config
  end.
End entry.

Definition entry_alphabet : string := "abcdefghijklmnopqrstuvwxyzABCDEFGHIJKLMNOPQRSTUVWXYZ0123456789".

Definition entry_char (b : Z) : ascii :=
  match String.get (Z.to_nat (b mod len entry_alphabet)) entry_alphabet with Some c => c | None => "a"%char end.

Definition base36_char (d : Z) : ascii := of_byte (if d <? 10 then 48 + d else 87 + d).

Fixpoint base36_go (fuel : nat) (n : Z) (acc : string) : string :=
  match fuel with
  | O => acc
  | S fuel =>
      let acc := String (base36_char (n mod 36)) acc in
      if n <? 36 then acc else base36_go fuel (n / 36) acc
  end.

(** [strconv.FormatInt(n, 36)]. *)
Definition format36 (n : Z) : string :=
  let digits n := base36_go (S (Z.to_nat (Z.log2 n))) n "" in
  if n <? 0 then "-" +:+ digits (- n) else digits n.

(** [random] is what [rand.Read] gave for the 12 bytes. *)
Definition generatePanelEntryPath (random : result (list Z)) (now : time) : string :=
  match random with
  | Fail _ => "/p" +:+ format36 (UnixNano now)
  | Ok buffer => "/" +:+ string_of_list_ascii (map entry_char buffer)
  end.

Definition accessURL (scheme bindAddress port : string) : string :=
  let host := TrimSpace bindAddress in
  let host :=
    if String.eqb host "" || String.eqb host "0.0.0.0" || String.eqb host "::" then "服务器IP"
    else if bool_decide (ParseIP host <> None) && Contains host ":" then "[" +:+ host +:+ "]" else host in
  scheme +:+ "://" +:+ host +:+ ":" +:+ port.

Definition panelAccessURL (config : managedPanelConfig) : string :=
  let path := if PanelEntryEnabled config then PanelEntryPath config else "" in
  let network := Network config in
  (if HTTPSEnabled network then accessURL "https" (BindAddress network) (HTTPSPort network)
   else accessURL "http" (BindAddress network) (HTTPPort network)) +:+ path.

(** ** [config.yaml] *)

Inductive yaml_kind := DocumentNode | SequenceNode | MappingNode | ScalarNode | AliasNode.

#[export] Instance yaml_kind_eq_dec : EqDecision yaml_kind.
Proof. solve_decision. Defined.

(** [yaml.Node]; [style] stands for the fields that the code leaves alone. *)
Inductive yaml_node := YNode (kind : yaml_kind) (tag value : string) (content : list yaml_node) (style : string).

Definition Kind (n : yaml_node) : yaml_kind := let '(YNode kind _ _ _ _) := n in kind.
Definition Value (n : yaml_node) : string := let '(YNode _ _ value _ _) := n in value.
Definition Content (n : yaml_node) : list yaml_node := let '(YNode _ _ _ content _) := n in content.

Definition with_value (value : string) (n : yaml_node) : yaml_node :=
  let '(YNode kind tag _ content style) := n in YNode kind tag value content style.
Definition with_content (content : list yaml_node) (n : yaml_node) : yaml_node :=
  let '(YNode kind tag value _ style) := n in YNode kind tag value content style.

Definition yamlScalar (value tag : string) : yaml_node := YNode ScalarNode tag value [] "".

Class YAML := {
  yaml_Unmarshal : string -> result yaml_node;
  yaml_Encode : yaml_node -> result string
}.

(** viper after [ReadInConfig]. *)
Class Viper := {
  viper_config : Type;
  ReadInConfig : string -> result viper_config;
  IsSet : viper_config -> string -> bool;
  GetString : viper_config -> string -> string;
  GetBool : viper_config -> string -> bool;
  GetStringSlice : viper_config -> string -> list string
}.

Definition FormatBool (b : bool) : string := if b then "true" else "false".

Section config.
Context `{!UnicodeCase}.

(** The value of the first matching key among pairs of keys and values. *)
Fixpoint pair_value (content : list yaml_node) (key : string) : option yaml_node :=
  match content with
  | k :: v :: content => if EqualFold (Value k) key then Some v else pair_value content key
  | _ => None
  end.

Definition yamlMappingValue (mapping : yaml_node) (key : string) : option yaml_node :=
  match Kind mapping with MappingNode => pair_value (Content mapping) key | _ => None end.

(** [f] on the value of the first matching key, whose text becomes [key]. *)
Fixpoint set_pair (content : list yaml_node) (key : string) (value : yaml_node) : list yaml_node :=
  match content with
  | k :: v :: content =>
      if EqualFold (Value k) key then with_value key k :: value :: content
      else k :: v :: set_pair content key value
  | content => content ++ [YNode ScalarNode "!!str" key [] ""; value]
  end.

Definition setYAMLMappingValue (mapping : yaml_node) (key : string) (value : yaml_node) : yaml_node :=
  with_content (set_pair (Content mapping) key value) mapping.

(** The node that [yamlMappingValue] points to, changed in place. *)
Fixpoint update_pair (content : list yaml_node) (key : string) (f : yaml_node -> yaml_node) : list yaml_node :=
  match content with
  | k :: v :: content =>
      if EqualFold (Value k) key then k :: f v :: content else k :: v :: update_pair content key f
  | content => content
  end.

(** The entries of the [system] mapping that belong to the network access. *)
Definition proxies_node (proxies : list string) : yaml_node :=
  YNode SequenceNode "!!seq" "" (map (fun proxy => yamlScalar proxy "!!str") proxies) "".

Definition managed_entries (config : managedPanelConfig) : list (string * yaml_node) :=
  [("bindAddress", yamlScalar (BindAddress (Network config)) "!!str");
   ("port", yamlScalar (HTTPPort (Network config)) "!!str");
   ("httpsEnabled", yamlScalar (FormatBool (HTTPSEnabled (Network config))) "!!bool");
   ("httpsPort", yamlScalar (HTTPSPort (Network config)) "!!str");
   ("httpsCertificateFile", yamlScalar (CertificateFile (Network config)) "!!str");
   ("httpsPrivateKeyFile", yamlScalar (PrivateKeyFile (Network config)) "!!str");
   ("trustedProxies", proxies_node (TrustedProxies (Network config)));
   ("panelEntryEnabled", yamlScalar (FormatBool (PanelEntryEnabled config)) "!!bool");
   ("panelEntryPath", yamlScalar (PanelEntryPath config) "!!str")].

Definition set_entries (entries : list (string * yaml_node)) (mapping : yaml_node) : yaml_node :=
  fold_left (fun mapping entry => setYAMLMappingValue mapping entry.1 entry.2) entries mapping.

(** The document with the entries of [config] in its [system] mapping. *)
Definition render_document (config : managedPanelConfig) (document : yaml_node) : result yaml_node :=
  match Content document with
  | [root] =>
      if bool_decide (Kind root = MappingNode) then
        match yamlMappingValue root "system" with
        | Some system =>
            if bool_decide (Kind system = MappingNode) then
              let root := with_content (update_pair (Content root) "system" (set_entries (managed_entries config))) root in
              Ok (with_content [root] document)
            else Fail (ErrorString "面板配置缺少 system 映射")
        | None => Fail (ErrorString "面板配置缺少 system 映射")
        end
      else Fail (ErrorString "面板配置根节点必须是 YAML 映射")
  | _ => Fail (ErrorString "面板配置根节点必须是 YAML 映射")
  end.

Section files.
Context `{!YAML} `{!Viper}.
Variable configPath : string.

Definition render_text (config : managedPanelConfig) (data : string) : result string :=
  match yaml_Unmarshal data with
  | Fail err => Fail (Wrap "解析面板配置: " err "")
  | Ok document =>
      match render_document config document with
      | Fail err => Fail err
      | Ok document =>
          match yaml_Encode document with
          | Fail err => Fail (Wrap "编码面板配置: " err "")
          | Ok text => Ok text
          end
      end
  end.

Definition renderManagedPanelConfig (config : managedPanelConfig) : M node string :=
  let* data := wrapping "读取面板配置" (ReadFile configPath) in
  match render_text config data with Ok text => ret text | Fail err => fail err end.

(** Every key that is set replaces the value of the running configuration. *)
Definition set_or {A} (v : viper_config) (key : string) (get : viper_config -> string -> A) (fallback : A) : A :=
  if IsSet v key then get v key else fallback.

Definition stored_over (v : viper_config) (fallback : managedPanelConfig) : managedPanelConfig :=
  let network := Network fallback in
  mkManaged
    (mkPanelConfig
      (set_or v "system.bindAddress" GetString (BindAddress network))
      (set_or v "system.port" GetString (HTTPPort network))
      (set_or v "system.httpsEnabled" GetBool (HTTPSEnabled network))
      (set_or v "system.httpsPort" GetString (HTTPSPort network))
      (set_or v "system.httpsCertificateFile" GetString (CertificateFile network))
      (set_or v "system.httpsPrivateKeyFile" GetString (PrivateKeyFile network))
      (set_or v "system.trustedProxies" GetStringSlice (TrustedProxies network)))
    (set_or v "system.panelEntryEnabled" GetBool (PanelEntryEnabled fallback))
    (set_or v "system.panelEntryPath" GetString (PanelEntryPath fallback)).

(** [running] is the configuration in [app.ONE_CONFIG]. *)
Definition loadStoredManagedPanelConfig (running : managedPanelConfig) : M node managedPanelConfig :=
  let* data := wrapping "读取面板配置" (ReadFile configPath) in
  match ReadInConfig data with
  | Fail err => fail (Wrap "读取面板配置: " err "")
  | Ok v => ret (normalizeManagedPanelConfig (stored_over v (normalizeManagedPanelConfig running)))
  end.

Definition loadStoredPanelConfig (running : managedPanelConfig) : M node PanelConfig :=
  let* config := loadStoredManagedPanelConfig running in ret (Network config).

Definition renderPanelConfig (running : managedPanelConfig) (config : PanelConfig) : M node string :=
  let* current := loadStoredManagedPanelConfig running in
  renderManagedPanelConfig (mkManaged config (PanelEntryEnabled current) (PanelEntryPath current)).
End files.
End config.

(** ** What is shown of a configuration *)

Record PanelCertificateStatus := mkCertificateStatus {
  PC_Valid : bool; PC_Error : string; PC_NotBefore : time; PC_NotAfter : time;
  PC_DNSNames : list string; PC_IPAddresses : list string
}.

Definition certificate_status `{!TLS} (config : PanelConfig) (now : time) (disk : node) : option PanelCertificateStatus :=
  if negb (String.eqb (CertificateFile config) "") || negb (String.eqb (PrivateKeyFile config) "") then
    Some match ValidateTLSCertificate (CertificateFile config) (PrivateKeyFile config) now disk with
         | Fail err => mkCertificateStatus false (Error err) 0 0 [] []
         | Ok info =>
             mkCertificateStatus true "" (CI_NotBefore info) (CI_NotAfter info) (CI_DNSNames info) (CI_IPAddresses info)
         end
  else None.
