(* ===== verification/NetworkTransaction.v ===== *)
(** Changes of the panel's network access as transactions
    ([internal/services/system/network_transaction.go], [UpdatePanelNetwork] of
    [network.go]): the configuration is replaced, a one-shot unit of systemd
    restarts the panel with it, and what was there before is put back when the
    panel does not answer.

    A transaction is a file beside a snapshot of the former configuration. The
    state is the disk, the firewall service with the host, and the running
    configuration of the panel process. *)

From stdpp Require Import gmap strings sorting options.
From S2P Require Import Prelude GoStrings GoText GoCrypto GoNet GoPath Store GoFiles Credential.
From S2P Require Import Firewall PanelNetwork.
#[local] Open Scope Z_scope.

Definition panelServiceUnit : string := "one.service".
Definition networkApplyStatusScheduled : string := "scheduled".
Definition networkApplyStatusApplying : string := "applying".
Definition networkApplyStatusSucceeded : string := "succeeded".
Definition networkApplyStatusRolledBack : string := "rolled_back".
Definition networkApplyStatusFailed : string := "failed".
Definition networkTransactionMaxBytes : Z := 256 * 1024.
Definition networkConfigSnapshotMaxBytes : Z := 4 * 1024 * 1024.
Definition networkApplyDelay : duration := 2 * Second.
Definition networkApplyTimeout : duration := 45 * Second.
Definition networkTransactionRetention : nat := 20.
Definition ErrNetworkTransactionNotFound : string := "panel network transaction not found".
Definition ErrNetworkApplyInProgress : string := "panel network transaction is already in progress".
Definition ErrNetworkConfigInvalid : string := "panel network configuration is invalid".

Record panelNetworkTransaction := mkTransaction {
  TX_ID : string; TX_Status : string; TX_Error : string; TX_CreatedAt : time; TX_NotBefore : time;
  TX_StartedAt : option time; TX_FinishedAt : option time;
  TX_Previous : PanelConfig; TX_Candidate : PanelConfig;
  TX_PreviousSHA256 : string; TX_CandidateSHA256 : string;
  TX_PreparedRuleIDs : list Z; TX_PreviousFileName : string
}.

Record PanelNetworkTransactionStatus := mkTransactionStatus {
  NS_ID : string; NS_Status : string; NS_Error : string; NS_CreatedAt : time;
  NS_StartedAt : option time; NS_FinishedAt : option time; NS_HTTPURL : string; NS_HTTPSURL : string;
  NS_RolledBack : bool; NS_Recoverable : bool
}.

Record preparedPanelRule := mkPrepared { PR_id : Z; PR_created : bool }.

(** ** Transactions as JSON

    A text loses its bytes that are no UTF-8; a time must print with a year of
    four digits. *)
Definition json_config (c : PanelConfig) : PanelConfig :=
  mkPanelConfig (clean_text (BindAddress c)) (clean_text (HTTPPort c)) (HTTPSEnabled c) (clean_text (HTTPSPort c))
    (clean_text (CertificateFile c)) (clean_text (PrivateKeyFile c)) (map clean_text (TrustedProxies c)).

Definition json_copy (t : panelNetworkTransaction) : panelNetworkTransaction :=
  mkTransaction (clean_text (TX_ID t)) (clean_text (TX_Status t)) (clean_text (TX_Error t)) (TX_CreatedAt t)
    (TX_NotBefore t) (TX_StartedAt t) (TX_FinishedAt t) (json_config (TX_Previous t)) (json_config (TX_Candidate t))
    (clean_text (TX_PreviousSHA256 t)) (clean_text (TX_CandidateSHA256 t)) (TX_PreparedRuleIDs t)
    (clean_text (TX_PreviousFileName t)).

Definition storable (t : panelNetworkTransaction) : Prop :=
  printable (TX_CreatedAt t) /\ printable (TX_NotBefore t)
  /\ (forall s, TX_StartedAt t = Some s -> printable s) /\ (forall s, TX_FinishedAt t = Some s -> printable s).

Class TransactionJSON := {
  encode_transaction : panelNetworkTransaction -> result string;
  decode_transaction : string -> result panelNetworkTransaction;
  decode_encoded t : storable t ->
    exists text, encode_transaction t = Ok text /\ decode_transaction (text +:+ str1 "010") = Ok (json_copy t)
}.

(** ** The host

    A clock that does not run backwards and is read before the year 10000,
    sockets, processes with their exit and output, and the status of an HTTP
    request. *)
Definition end_of_time : time := last_time - Hour.

Class PanelHost (H : Type) := {
  Now : H -> time;
  Sleep : duration -> H -> H;
  Listen : string -> H -> option error;
  Exec : string -> list string -> H -> (option error * string) * H;
  HTTPGet : string -> H -> result Z * H;
  Now_range h : 0 <= Now h < end_of_time;
  Now_Sleep d h : 0 <= d -> Z.min (Now h + d) (end_of_time - 1) <= Now (Sleep d h);
  Now_Exec name args h : Now h <= Now (snd (Exec name args h));
  Now_HTTPGet url h : Now h <= Now (snd (HTTPGet url h))
}.

Record NetworkState (H : Type) := mkNetwork { disk : node; firewall : FirewallState H; running : managedPanelConfig }.
Arguments mkNetwork {H} _ _ _.
Arguments disk {H} _.
Arguments firewall {H} _.
Arguments running {H} _.

(** ** Names and texts *)

Definition validNetworkTransactionID `{!UnicodeCase} (value : string) : bool :=
  (len value =? 32) && bool_decide (is_Some (hex_decode value)) && String.eqb (ToLower value) value.

Definition validNetworkTransactionStatus (value : string) : bool :=
  existsb (String.eqb value) [networkApplyStatusScheduled; networkApplyStatusApplying; networkApplyStatusSucceeded;
    networkApplyStatusRolledBack; networkApplyStatusFailed].

Definition pending_status (value : string) : bool :=
  String.eqb value networkApplyStatusScheduled || String.eqb value networkApplyStatusApplying.

Definition checksumHex (contents : string) : string := hex_encode (sha256 (bytes_of contents)).

Definition truncateNetworkTransactionError (value : string) : string :=
  let value := TrimSpace (ReplaceAll1 value "000" "") in
  if len value <=? 1024 then value else take_bytes 1024 value +:+ "…".

Definition snapshot_name (id : string) : string := id +:+ ".previous.yaml".

(** Latest first; of one instant, the greater id first. *)
Definition later_transaction (a b : panelNetworkTransaction) : bool :=
  if TX_CreatedAt a =? TX_CreatedAt b then String.ltb (TX_ID b) (TX_ID a) else After (TX_CreatedAt a) (TX_CreatedAt b).

Definition describePanelNetworkTransaction (t : panelNetworkTransaction) : PanelNetworkTransactionStatus :=
  let candidate := TX_Candidate t in
  mkTransactionStatus (TX_ID t) (TX_Status t) (TX_Error t) (TX_CreatedAt t) (TX_StartedAt t) (TX_FinishedAt t)
    (accessURL "http" (BindAddress candidate) (HTTPPort candidate))
    (if HTTPSEnabled candidate then accessURL "https" (BindAddress candidate) (HTTPSPort candidate) else "")
    (String.eqb (TX_Status t) networkApplyStatusRolledBack)
    (pending_status (TX_Status t) || String.eqb (TX_Status t) networkApplyStatusFailed).

Definition localPanelHealthURL (config : PanelConfig) : string :=
  let host := TrimSpace (BindAddress config) in
  let host :=
    if String.eqb host "" || String.eqb host "0.0.0.0" then "127.0.0.1"
    else if String.eqb host "::" then "::1" else host in
  "http://" +:+ JoinHostPort host (HTTPPort config) +:+ "/health/ready".

(** The fields that a step of a transaction changes. *)
Definition with_outcome (status text : string) (finished : time) (t : panelNetworkTransaction) : panelNetworkTransaction :=
  mkTransaction (TX_ID t) status text (TX_CreatedAt t) (TX_NotBefore t) (TX_StartedAt t) (Some finished)
    (TX_Previous t) (TX_Candidate t) (TX_PreviousSHA256 t) (TX_CandidateSHA256 t) (TX_PreparedRuleIDs t)
    (TX_PreviousFileName t).

Definition with_start (started : time) (t : panelNetworkTransaction) : panelNetworkTransaction :=
  mkTransaction (TX_ID t) networkApplyStatusApplying "" (TX_CreatedAt t) (TX_NotBefore t) (Some started) (TX_FinishedAt t)
    (TX_Previous t) (TX_Candidate t) (TX_PreviousSHA256 t) (TX_CandidateSHA256 t) (TX_PreparedRuleIDs t)
    (TX_PreviousFileName t).

(** ** Files *)

(** A file that is opened, or created when it is not there. *)
Definition OpenCreate (path : string) (mode : Z) : M node unit :=
  change path (fun old => match old with
    | None => Ok (Some (FileNode mode ""))
    | Some (FileNode mode content) => Ok (Some (FileNode mode content))
    | Some _ => bad_call "not a regular file"
    end).

Definition readLimitedFile (path : string) (limit : Z) : M node string :=
  let* data := ReadFile path in
  if limit <? len data then fail (ErrorString "file exceeds size limit") else ret data.

(** The content of a new file; without all of it there is no file. *)
Definition writeExclusiveFile (path contents : string) (mode : Z) : M node unit :=
  let* _ := CreateExcl path mode in
  let* written := attempt (let* _ := Append path contents in Sync path) in
  match written with
  | Ok _ => ret tt
  | Fail err => let* _ := ignoring (Remove path) in fail err
  end.

Section storage.
Context `{!UnicodeCase} `{!TransactionJSON}.
Variable configPath : string.

Definition panelNetworkTransactionDirectory : string := PathJoin [Dir configPath; "data"; "network-transactions"].

Definition transaction_path (id : string) : string := PathJoin [panelNetworkTransactionDirectory; id +:+ ".json"].
Definition snapshot_path (id : string) : string := PathJoin [panelNetworkTransactionDirectory; snapshot_name id].

Definition replacePanelConfigFile (token contents : string) : M node unit :=
  write_beside configPath (PathJoin [Dir configPath; ".config-network-recovery-" +:+ token +:+ ".yaml"]) contents 384.

Definition savePanelNetworkTransaction (token : string) (t : panelNetworkTransaction) : M node unit :=
  if negb (validNetworkTransactionID (TX_ID t)) then fail (ErrorString "invalid panel network transaction")
  else
    match encode_transaction t with
    | Fail err => fail (Wrap "编码访问配置事务: " err "")
    | Ok data =>
        let* _ := MkdirAll panelNetworkTransactionDirectory 448 in
        write_beside (transaction_path (TX_ID t))
          (PathJoin [panelNetworkTransactionDirectory; ".network-transaction-" +:+ token +:+ ".json"])
          (data +:+ str1 "010") 384
    end.

Definition loadPanelNetworkTransaction (transactionID : string) : M node panelNetworkTransaction :=
  if negb (validNetworkTransactionID transactionID) then fail (Sentinel ErrNetworkTransactionNotFound)
  else
    let* found := attempt (readLimitedFile (transaction_path transactionID) networkTransactionMaxBytes) in
    match found with
    | Fail err => if is_not_exist err then fail (Sentinel ErrNetworkTransactionNotFound) else fail err
    | Ok data =>
        match decode_transaction data with
        | Fail err => fail (Wrap "解析访问配置事务: " err "")
        | Ok t =>
            if negb (String.eqb (TX_ID t) transactionID) || negb (validNetworkTransactionStatus (TX_Status t))
               || negb (String.eqb (TX_PreviousFileName t) (snapshot_name (TX_ID t)))
            then fail (ErrorString "访问配置事务内容无效")
            else ret t
        end
    end.

(** The loop over the directory; a directory in it fails to load like any other
    unreadable file, and both are skipped. *)
Fixpoint load_each (names : list string) : M node (list panelNetworkTransaction) :=
  match names with
  | [] => ret []
  | name :: names =>
      if negb (HasSuffix name ".json") then load_each names
      else
        let* found := attempt (loadPanelNetworkTransaction (take_bytes (len name - 5) name)) in
        let* rest := load_each names in
        ret match found with Ok t => t :: rest | Fail _ => rest end
  end.

Definition listPanelNetworkTransactions : M node (list panelNetworkTransaction) :=
  let* entries := attempt (ReadDir panelNetworkTransactionDirectory) in
  match entries with
  | Fail err => if is_not_exist err then fail (Sentinel ErrNetworkTransactionNotFound) else fail err
  | Ok names => let* found := load_each names in ret (sort_slice later_transaction found)
  end.

Definition latestPanelNetworkTransaction : M node panelNetworkTransaction :=
  let* found := listPanelNetworkTransactions in
  match found with [] => fail (Sentinel ErrNetworkTransactionNotFound) | t :: _ => ret t end.

Definition is_pending (t : panelNetworkTransaction) : bool := pending_status (TX_Status t).

Definition latestPendingPanelNetworkTransaction : M node panelNetworkTransaction :=
  let* found := listPanelNetworkTransactions in
  match List.find is_pending found with
  | Some t => ret t
  | None => fail (Sentinel ErrNetworkTransactionNotFound)
  end.

(** An error counts as no transaction. *)
Definition pendingPanelNetworkTransaction : M node (option panelNetworkTransaction) :=
  let* found := attempt latestPendingPanelNetworkTransaction in
  ret match found with Ok t => Some t | Fail _ => None end.

Definition latestPanelNetworkTransactionStatus : M node (option PanelNetworkTransactionStatus) :=
  let* found := attempt latestPanelNetworkTransaction in
  ret match found with Ok t => Some (describePanelNetworkTransaction t) | Fail _ => None end.

Definition GetPanelNetworkTransaction (transactionID : string) : M node PanelNetworkTransactionStatus :=
  let* t := loadPanelNetworkTransaction transactionID in ret (describePanelNetworkTransaction t).

Definition panelNetworkSnapshotPath (t : panelNetworkTransaction) : result string :=
  if negb (validNetworkTransactionID (TX_ID t)) || negb (String.eqb (TX_PreviousFileName t) (snapshot_name (TX_ID t)))
  then Fail (ErrorString "访问配置恢复快照路径无效")
  else Ok (PathJoin [panelNetworkTransactionDirectory; TX_PreviousFileName t]).

Definition removePanelNetworkSnapshot (t : panelNetworkTransaction) : M node unit :=
  match panelNetworkSnapshotPath t with
  | Fail err => fail err
  | Ok path =>
      let* removed := attempt (Remove path) in
      match removed with
      | Ok _ => ret tt
      | Fail err => if is_not_exist err then ret tt else fail err
      end
  end.

Definition restorePanelNetworkSnapshot (token : string) (t : panelNetworkTransaction) : M node unit :=
  match panelNetworkSnapshotPath t with
  | Fail err => fail err
  | Ok path =>
      let* previousConfig := wrapping "读取访问配置恢复快照" (readLimitedFile path networkConfigSnapshotMaxBytes) in
      if negb (String.eqb (checksumHex previousConfig) (TX_PreviousSHA256 t))
      then fail (ErrorString "访问配置恢复快照校验失败")
      else replacePanelConfigFile token previousConfig
  end.

(** The files of old transactions that are over. *)
Definition prune_one (directory : string) (t : panelNetworkTransaction) : M node unit :=
  if is_pending t then ret tt
  else
    let* _ := ignoring (Remove (PathJoin [directory; TX_ID t +:+ ".json"])) in
    ignoring (Remove (PathJoin [directory; TX_ID t +:+ ".previous.yaml"])).

Fixpoint prune_each (directory : string) (l : list panelNetworkTransaction) : M node unit :=
  match l with
  | [] => ret tt
  | t :: l => let* _ := prune_one directory t in prune_each directory l
  end.

Definition prunePanelNetworkTransactions (directory : string) (keep : nat) : M node unit :=
  let* found := attempt listPanelNetworkTransactions in
  match found with
  | Fail _ => ret tt
  | Ok transactions => prune_each directory (drop keep transactions)
  end.

End storage.

Section operations.
Context {H : Type} `{!Firewall.Host H} `{!PanelHost H} `{!UnicodeCase} `{!TransactionJSON} `{!TLS} `{!YAML} `{!Viper}.
Variable configPath : string.
Variable basePath : string.
Variable executable : result string.  (* [os.Executable] *)

Abbreviation NS := (NetworkState H).

Definition set_disk (d : node) (s : NS) : NS := mkNetwork d (firewall s) (running s).
Definition set_firewall (f : FirewallState H) (s : NS) : NS := mkNetwork (disk s) f (running s).
Definition set_running (c : managedPanelConfig) (s : NS) : NS := mkNetwork (disk s) (firewall s) c.
Definition set_panel_host (h : H) (s : NS) : NS := set_firewall (Firewall.set_host h (firewall s)) s.
Definition panel_host (s : NS) : H := host (firewall s).

Definition on_disk {A} (m : M node A) : M NS A := zoom disk set_disk m.
Definition on_firewall {A} (m : M (FirewallState H) A) : M NS A := zoom firewall set_firewall m.

Definition clock : M NS time := fun w => (Ok (Now (panel_host (tables w))), w).

Definition on_host {A} (f : H -> A * H) : M NS A := fun w =>
  let '(a, h) := f (panel_host (tables w)) in (Ok a, World (set_panel_host h (tables w)) (faults w)).

(** A timer against the end of the context. *)
Definition pause (d : duration) : M NS unit :=
  let* _ := ctx_Err in on_host (fun h => (tt, Sleep d h)).

(** The error and the output of a command. *)
Definition exec (name : string) (args : list string) : M NS (option error * string) := on_host (Exec name args).

Definition get (url : string) : M NS (result Z) := on_host (HTTPGet url).

(** [busy] is how often another process holds the lock. *)
Fixpoint take_lock (busy : nat) : M NS unit :=
  match busy with
  | O => statement (fun s => Ok (tt, s))
  | S busy => let* _ := pause (Second / 10) in take_lock busy
  end.

Definition withPanelNetworkTransactionLock {A} (busy : nat) (action : M NS A) : M NS A :=
  let directory := panelNetworkTransactionDirectory configPath in
  let* _ := on_disk (MkdirAll directory 448) in
  let* _ := on_disk (OpenCreate (PathJoin [directory; ".lock"]) 384) in
  let* _ := take_lock busy in
  action.

(** ** The panel service *)

Definition panelNetworkAutoApplySupported : M NS bool :=
  let* systemctl := on_firewall (has_program "systemctl") in
  if negb systemctl then ret false
  else
    let* systemd_run := on_firewall (has_program "systemd-run") in
    if negb systemd_run then ret false
    else
      let* shown := exec "systemctl" ["show"; panelServiceUnit; "--property=LoadState"; "--value"] in
      ret match shown.1 with None => String.eqb (TrimSpace shown.2) "loaded" | Some _ => false end.

(** A command whose output goes into the error. *)
Definition run_or_fail (what : string) (name : string) (args : list string) : M NS unit :=
  let* done := exec name args in
  match done.1 with
  | None => ret tt
  | Some err => fail (Wrap (what +:+ ": ") err (": " +:+ truncateNetworkTransactionError done.2))
  end.

Definition restartPanelService : M NS unit :=
  run_or_fail "systemctl restart one.service" "systemctl" ["restart"; panelServiceUnit].

Definition startPanelService : M NS unit :=
  run_or_fail "systemctl start one.service" "systemctl" ["start"; "--no-block"; panelServiceUnit].

Definition schedule_arguments (executable transactionID : string) : list string :=
  ["--no-block"; "--unit=one-network-apply-" +:+ transactionID; "--collect"; "--property=Type=oneshot";
   "--property=TimeoutStartSec=2min"; "--property=UMask=0077"; "--setenv=ONEINSTACK_BASE_PATH=" +:+ basePath;
   "--setenv=ONEINSTACK_CONFIG_PATH=" +:+ configPath; executable; "network"; "apply";
   "--transaction=" +:+ transactionID].

Definition schedulePanelNetworkTransaction (transactionID : string) : M NS unit :=
  if negb (validNetworkTransactionID transactionID) then fail (ErrorString "invalid panel network transaction id")
  else
    match executable with
    | Fail err => fail (Wrap "定位 Panel 可执行文件: " err "")
    | Ok executable =>
        run_or_fail "创建访问配置应用任务" "systemd-run" (schedule_arguments executable transactionID)
    end.

(** One probe: [None] when the panel answered. *)
Definition probe (healthURL : string) : M NS (option error) :=
  let* active := exec "systemctl" ["is-active"; "--quiet"; panelServiceUnit] in
  match active.1 with
  | Some err => ret (Some err)
  | None =>
      let* response := get healthURL in
      ret match response with
          | Ok status => if status =? 200 then None else Some (ErrorString ("就绪探针返回 HTTP " +:+ Itoa status))
          | Fail err => Some err
          end
  end.

(** The loop until the deadline; [fuel] bounds the rounds. *)
Fixpoint wait_rounds (fuel : nat) (healthURL : string) (deadline : time) (lastErr : option error) : M NS unit :=
  let* now := clock in
  if negb (Before now deadline) then
    fail (Wrap "Panel 未在 45s 内就绪: " (default (ErrorString "就绪检查超时") lastErr) "")
  else
    let* _ := ctx_Err in
    let* answer := probe healthURL in
    match answer with
    | None => ret tt
    | Some err =>
        let* _ := pause (Second / 2) in
        match fuel with
        | O => fail (ErrorString "out of fuel")
        | S fuel => wait_rounds fuel healthURL deadline (Some err)
        end
    end.

(** A round takes at least half a second. *)
Definition rounds : nat := Z.to_nat (networkApplyTimeout / (Second / 2)).

Definition waitForPanelReady (config : PanelConfig) : M NS unit :=
  let* now := clock in
  wait_rounds rounds (localPanelHealthURL config) (now + networkApplyTimeout) None.

(** ** Rollback *)

Fixpoint rollback_rules (ids : list Z) : M NS (option error) :=
  match ids with
  | [] => ret None
  | id :: ids =>
      let* before := rollback_rules ids in
      let* done := attempt (on_firewall (RollbackPreparedPanelPort id)) in
      ret match done, before with
          | Ok _, _ => before
          | Fail err, None => Some err
          | Fail err, Some first => Some (errors_Join first [err])
          end
  end.

(** The rules from the last to the first, in a process that [app.Initialize] prepares. *)
Definition rollbackPanelNetworkTransactionRules (t : panelNetworkTransaction) : M NS unit :=
  match TX_PreparedRuleIDs t with
  | [] => ret tt
  | ids =>
      let* _ := wrapping "恢复旧配置后初始化防火墙补偿环境" (statement (fun s : NS => Ok (tt, s))) in
      let* failed := rollback_rules ids in
      match failed with None => ret tt | Some err => fail err end
  end.

Definition restart_previous (t : panelNetworkTransaction) : M NS unit :=
  let* _ := exec "systemctl" ["stop"; panelServiceUnit] in
  let* _ := exec "systemctl" ["reset-failed"; panelServiceUnit] in
  let* _ := startPanelService in
  waitForPanelReady (TX_Previous t).

Definition error_of {A} (r : result A) : list error := match r with Ok _ => [] | Fail err => [err] end.

(** [tokens n] names the n-th temporary file of an operation: 0 and 1 record its
    progress, 2 and 3 are those of a rollback. *)
Definition rollbackPanelNetworkTransaction (tokens : nat -> string) (t : panelNetworkTransaction) (reason : error)
    (restart : bool) : M NS unit :=
  let* restored := attempt (on_disk (restorePanelNetworkSnapshot configPath (tokens 2%nat) t)) in
  let* unruled := attempt (rollbackPanelNetworkTransactionRules t) in
  let* restarted := if restart then attempt (restart_previous t) else ret (Ok tt) in
  let* finished := clock in
  let errs := error_of restored ++ error_of unruled ++ error_of restarted in
  let undone := is_ok restored && is_ok restarted in
  let t := with_outcome (if undone then networkApplyStatusRolledBack else networkApplyStatusFailed)
    (truncateNetworkTransactionError (Error (errors_Join reason errs))) finished t in
  let* saved := attempt (on_disk (savePanelNetworkTransaction configPath (tokens 3%nat) t)) in
  let* _ := if undone then ignoring (on_disk (removePanelNetworkSnapshot configPath t)) else ret tt in
  match saved with
  | Fail err => fail (errors_Join reason (errs ++ [err]))
  | Ok _ => if undone then ret tt else fail (errors_Join reason errs)
  end.

(** ** Applying *)

(** The configuration file, when it is the one of the transaction. *)
Definition candidate_in_place (t : panelNetworkTransaction) (current : result string) : bool :=
  match current with Ok text => String.eqb (checksumHex text) (TX_CandidateSHA256 t) | Fail _ => false end.

Definition read_config : M NS string := on_disk (readLimitedFile configPath networkConfigSnapshotMaxBytes).

Definition switch_over (t : panelNetworkTransaction) : M NS unit :=
  let* _ := restartPanelService in
  let* _ := waitForPanelReady (TX_Candidate t) in
  let* current := wrapping "重启后读取待应用配置" read_config in
  if candidate_in_place t (Ok current) then ret tt else fail (ErrorString "重启后待应用配置已被其他操作替换").

Definition wait_until (notBefore : time) : M NS unit :=
  let* now := clock in
  if 0 <? notBefore - now then pause (notBefore - now) else ret tt.

Definition replacedMessage : string := "待应用配置已被其他操作替换，事务已停止".

Definition apply_pending (tokens : nat -> string) (t : panelNetworkTransaction) : M NS unit :=
  let* current := attempt read_config in
  if negb (candidate_in_place t current) then
    let* finished := clock in
    let t := with_outcome networkApplyStatusFailed replacedMessage finished t in
    let* _ := ignoring (on_disk (savePanelNetworkTransaction configPath (tokens 0%nat) t)) in
    fail (ErrorString replacedMessage)
  else
    let* _ := wait_until (TX_NotBefore t) in
    let* now := clock in
    let t := with_start now t in
    let* _ := on_disk (savePanelNetworkTransaction configPath (tokens 0%nat) t) in
    let* applied := attempt (switch_over t) in
    match applied with
    | Ok _ =>
        let* finished := clock in
        let t := with_outcome networkApplyStatusSucceeded "" finished t in
        let* _ := on_disk (savePanelNetworkTransaction configPath (tokens 1%nat) t) in
        ignoring (on_disk (removePanelNetworkSnapshot configPath t))
    | Fail err => rollbackPanelNetworkTransaction tokens t (Wrap "新访问配置启动或健康检查失败: " err "") true
    end.

Definition applyPanelNetworkTransaction (tokens : nat -> string) (transactionID : string) : M NS unit :=
  let* t := on_disk (loadPanelNetworkTransaction configPath transactionID) in
  if String.eqb (TX_Status t) networkApplyStatusSucceeded || String.eqb (TX_Status t) networkApplyStatusRolledBack
  then ret tt
  else if negb (is_pending t) then
    fail (ErrorString ("panel network transaction is in terminal state " +:+ TX_Status t))
  else apply_pending tokens t.

Definition ApplyPanelNetworkTransaction (busy : nat) (tokens : nat -> string) (transactionID : string) : M NS unit :=
  withPanelNetworkTransactionLock busy (applyPanelNetworkTransaction tokens transactionID).

(** ** Recovery and completion *)

(** The latest pending transaction; [None] when there is none. *)
Definition pending_or_none : M NS (option panelNetworkTransaction) :=
  let* found := attempt (on_disk (latestPendingPanelNetworkTransaction configPath)) in
  match found with
  | Ok t => ret (Some t)
  | Fail err => if errors_Is err ErrNetworkTransactionNotFound then ret None else fail err
  end.

Definition recoverPendingPanelNetworkTransaction (tokens : nat -> string) : M NS unit :=
  let* found := pending_or_none in
  match found with
  | None => ret tt
  | Some t =>
      rollbackPanelNetworkTransaction tokens t (ErrorString "systemd 检测到 Panel 使用新访问配置启动失败") true
  end.

Definition RecoverPendingPanelNetworkTransaction (busy : nat) (tokens : nat -> string) : M NS unit :=
  withPanelNetworkTransactionLock busy (recoverPendingPanelNetworkTransaction tokens).

Definition finalizePendingPanelNetworkTransaction (tokens : nat -> string) : M NS unit :=
  let* found := pending_or_none in
  match found with
  | None => ret tt
  | Some t =>
      let* current := read_config in
      if negb (candidate_in_place t (Ok current)) then ret tt
      else
        let* finished := clock in
        let t := with_outcome networkApplyStatusSucceeded "" finished t in
        let* _ := on_disk (savePanelNetworkTransaction configPath (tokens 1%nat) t) in
        on_disk (removePanelNetworkSnapshot configPath t)
  end.

Definition FinalizePendingPanelNetworkTransaction (busy : nat) (tokens : nat -> string) : M NS unit :=
  withPanelNetworkTransactionLock busy (finalizePendingPanelNetworkTransaction tokens).

(** ** A new transaction *)

Definition prepared_ids (rules : list preparedPanelRule) : list Z :=
  map PR_id (List.filter (fun rule => PR_created rule && (0 <? PR_id rule)) rules).

Definition new_transaction (id : string) (now : time) (previous candidate : PanelConfig)
    (previousConfig candidateConfig : string) (rules : list preparedPanelRule) : panelNetworkTransaction :=
  mkTransaction id networkApplyStatusScheduled "" now (now + networkApplyDelay) None None previous candidate
    (checksumHex previousConfig) (checksumHex candidateConfig) (prepared_ids rules) (snapshot_name id).

(** [random]: the 16 bytes of [rand.Read]. *)
Definition createPanelNetworkTransaction (random : result (list Z)) (token : string) (previous candidate : PanelConfig)
    (previousConfig candidateConfig : string) (rules : list preparedPanelRule) : M NS panelNetworkTransaction :=
  match random with
  | Fail err => fail err
  | Ok value =>
      let id := hex_encode value in
      let directory := panelNetworkTransactionDirectory configPath in
      let* _ := wrapping "创建访问配置事务目录" (on_disk (MkdirAll directory 448)) in
      let* _ := wrapping "保护访问配置事务目录" (on_disk (Chmod directory 448)) in
      let* _ := wrapping "保存访问配置恢复快照" (on_disk (writeExclusiveFile (snapshot_path configPath id) previousConfig 384)) in
      let* now := clock in
      let t := new_transaction id now previous candidate previousConfig candidateConfig rules in
      let* saved := attempt (on_disk (savePanelNetworkTransaction configPath token t)) in
      match saved with
      | Fail err => let* _ := ignoring (on_disk (Remove (snapshot_path configPath id))) in fail err
      | Ok _ =>
          let* _ := on_disk (prunePanelNetworkTransactions configPath directory networkTransactionRetention) in
          ret t
      end
  end.

(** ** [UpdatePanelNetwork] *)

Record UpdatePanelNetworkRequest := mkUpdate {
  U_BindAddress : string; U_HTTPPort : string; U_HTTPSEnabled : bool; U_HTTPSPort : string;
  U_HTTPSCertificateFile : string; U_HTTPSPrivateKeyFile : string; U_TrustedProxies : list string;
  U_PanelEntryEnabled : bool; U_PanelEntryPath : string; U_RotatePanelEntry : bool
}.

Record PanelNetworkSettings := mkSettings {
  S_Config : managedPanelConfig; S_HTTPAccessURL : string; S_HTTPSAccessURL : string; S_PanelAccessURL : string;
  S_Certificate : option PanelCertificateStatus; S_RestartRequired : bool; S_AutoApplySupported : bool;
  S_ApplyTransaction : option PanelNetworkTransactionStatus
}.

(** What an update draws and names. *)
Record update_randomness := mkRandomness {
  UR_entry : result (list Z); UR_id : result (list Z); UR_rules : nat -> string; UR_tokens : nat -> string
}.

Definition describePanelConfig (config : managedPanelConfig) (restartRequired autoApplySupported : bool)
    (transaction : option PanelNetworkTransactionStatus) : M NS PanelNetworkSettings := fun w =>
  let network := Network config in
  (Ok (mkSettings config (accessURL "http" (BindAddress network) (HTTPPort network))
     (accessURL "https" (BindAddress network) (HTTPSPort network)) (panelAccessURL config)
     (certificate_status network (Now (panel_host (tables w))) (disk (tables w)))
     restartRequired autoApplySupported transaction), w).

Definition effectiveManagedPanelConfig : M NS managedPanelConfig := fun w =>
  (Ok (normalizeManagedPanelConfig (running (tables w))), w).

Definition load_stored : M NS managedPanelConfig := fun w =>
  on_disk (loadStoredManagedPanelConfig configPath (running (tables w))) w.

Definition persistManagedPanelConfig (token : string) (config : managedPanelConfig) : M NS unit :=
  let* contents := on_disk (renderManagedPanelConfig configPath config) in
  wrapping "提交面板访问配置" (on_disk (replacePanelConfigFile configPath token contents)).

Definition persistPanelConfig (token : string) (config : PanelConfig) : M NS unit :=
  let* current := load_stored in
  persistManagedPanelConfig token (mkManaged config (PanelEntryEnabled current) (PanelEntryPath current)).

Definition GetPanelNetworkSettings : M NS PanelNetworkSettings :=
  let* stored := load_stored in
  let* effective := effectiveManagedPanelConfig in
  let* supported := panelNetworkAutoApplySupported in
  let* latest := on_disk (latestPanelNetworkTransactionStatus configPath) in
  describePanelConfig stored (negb (bool_decide (stored = effective))) supported latest.

Definition GetPanelEntryStatus : M NS bool :=
  let* config := effectiveManagedPanelConfig in ret (PanelEntryEnabled config).

(** What the request asks for, on top of the stored configuration. *)
Definition requested_config (request : UpdatePanelNetworkRequest) : managedPanelConfig :=
  normalizeManagedPanelConfig (mkManaged
    (mkPanelConfig (U_BindAddress request) (U_HTTPPort request) (U_HTTPSEnabled request) (U_HTTPSPort request)
      (U_HTTPSCertificateFile request) (U_HTTPSPrivateKeyFile request) (U_TrustedProxies request))
    (U_PanelEntryEnabled request) (U_PanelEntryPath request)).

Definition next_config (request : UpdatePanelNetworkRequest) (currentStored : managedPanelConfig)
    (generated : string) : managedPanelConfig :=
  let next := requested_config request in
  let next := if U_RotatePanelEntry request then mkManaged (Network next) true generated else next in
  if negb (String.eqb (PanelEntryPath next) "") then next
  else
    mkManaged (Network next) (PanelEntryEnabled next)
      (if PanelEntryEnabled next then generated else PanelEntryPath currentStored).

(** A failed [NetworkAddress] counts as the empty address. *)
Definition address_of (config : PanelConfig) (port : string) : string :=
  match NetworkAddress (BindAddress config) port with Ok address => address | Fail _ => "" end.

Definition addresses (config : PanelConfig) : list string :=
  address_of config (HTTPPort config) :: (if HTTPSEnabled config then [address_of config (HTTPSPort config)] else []).

(** The sockets that are not open already; they stay open until the end of the update. *)
Definition probeChangedListeners (current next : PanelConfig) : M NS unit := fun w =>
  let fresh := List.filter (fun address => negb (existsb (String.eqb address) (addresses current))) (addresses next) in
  match omap (fun address => Listen address (panel_host (tables w))) fresh with
  | [] => (Ok tt, w)
  | err :: _ => (Fail err, w)
  end.

Fixpoint rollbackPreparedRules (rules : list preparedPanelRule) : M NS unit :=
  match rules with
  | [] => ret tt
  | rule :: rules =>
      let* _ := rollbackPreparedRules rules in
      if PR_created rule then ignoring (on_firewall (RollbackPreparedPanelPort (PR_id rule))) else ret tt
  end.

(** The ports of the listeners, each with the protection of the firewall. *)
Fixpoint prepare_ports (tokens : nat -> string) (ports : list string) (prepared : list preparedPanelRule)
    : M NS (list preparedPanelRule) :=
  match ports with
  | [] => ret prepared
  | portValue :: ports =>
      let port := default 0 (Atoi portValue) in
      let* done := attempt (on_firewall (PreparePanelPort (tokens (List.length prepared)) port)) in
      match done with
      | Fail err =>
          let* _ := rollbackPreparedRules prepared in
          fail (Wrap ("预置面板端口 " +:+ Itoa port +:+ " 的防火墙规则: ") err "")
      | Ok (id, created) => prepare_ports tokens ports (prepared ++ [mkPrepared id created])
      end
  end.

(** An error that takes the prepared rules back. *)
Definition or_rollback {A} (rules : list preparedPanelRule) (m : M NS A) : M NS A :=
  let* done := attempt m in
  match done with
  | Ok a => ret a
  | Fail err => let* _ := rollbackPreparedRules rules in fail err
  end.

(** Without systemd, or without a change of the running configuration. *)
Definition commit_directly (next : managedPanelConfig) (restartRequired : bool) (token candidateConfig : string)
    (rules : list preparedPanelRule) : M NS PanelNetworkSettings :=
  let* _ := or_rollback rules
    (wrapping "提交面板访问配置" (on_disk (replacePanelConfigFile configPath token candidateConfig))) in
  let* _ := (fun w => (Ok tt, World (set_running next (tables w)) (faults w))) in
  let* latest := on_disk (latestPanelNetworkTransactionStatus configPath) in
  describePanelConfig next restartRequired false latest.

(** The transaction has failed before it was handed to systemd. *)
Definition mark_failed (token : string) (t : panelNetworkTransaction) (err : error) : M NS unit :=
  let* finished := clock in
  let t := with_outcome networkApplyStatusFailed (truncateNetworkTransactionError (Error err)) finished t in
  let* _ := ignoring (on_disk (savePanelNetworkTransaction configPath token t)) in
  ignoring (on_disk (removePanelNetworkSnapshot configPath t)).

Definition commit_in_transaction (r : update_randomness) (previous : PanelConfig) (next : managedPanelConfig)
    (previousConfig candidateConfig : string) (rules : list preparedPanelRule) : M NS PanelNetworkSettings :=
  let tokens := UR_tokens r in
  let* t := or_rollback rules
    (createPanelNetworkTransaction (UR_id r) (tokens 0%nat) previous (Network next) previousConfig candidateConfig rules) in
  let* replaced := attempt (on_disk (replacePanelConfigFile configPath (tokens 1%nat) candidateConfig)) in
  match replaced with
  | Fail err =>
      let* _ := mark_failed (tokens 2%nat) t err in
      let* _ := rollbackPreparedRules rules in
      fail (Wrap "提交面板访问配置: " err "")
  | Ok _ =>
      let* scheduled := attempt (schedulePanelNetworkTransaction (TX_ID t)) in
      match scheduled with
      | Fail err =>
          let* restored := attempt (on_disk (replacePanelConfigFile configPath (tokens 3%nat) previousConfig)) in
          let err := errors_Join err (error_of restored) in
          let* _ := rollbackPreparedRules rules in
          let* _ := mark_failed (tokens 2%nat) t err in
          fail err
      | Ok _ => describePanelConfig next true true (Some (describePanelNetworkTransaction t))
      end
  end.

Definition invalid_config (err : error) : error := Wrap "" (Sentinel ErrNetworkConfigInvalid) (": " +:+ Error err).

Definition panel_ports (config : PanelConfig) : list string :=
  HTTPPort config :: (if HTTPSEnabled config then [HTTPSPort config] else []).

(** The configuration has been validated: the firewall, then the file. *)
Definition commit_config (r : update_randomness) (currentStored current next : managedPanelConfig)
    : M NS PanelNetworkSettings :=
  let* rules := prepare_ports (UR_rules r) (panel_ports (Network next)) [] in
  let* previousConfig := or_rollback rules (wrapping "读取面板配置" read_config) in
  let* candidateConfig := or_rollback rules (on_disk (renderManagedPanelConfig configPath next)) in
  let restartRequired := negb (bool_decide (next = current)) in
  let* supported := if restartRequired then panelNetworkAutoApplySupported else ret false in
  if supported
  then commit_in_transaction r (Network currentStored) next previousConfig candidateConfig rules
  else commit_directly next restartRequired (UR_tokens r 1%nat) candidateConfig rules.

Definition UpdatePanelNetwork (r : update_randomness) (request : UpdatePanelNetworkRequest) : M NS PanelNetworkSettings :=
  let* pending := on_disk (pendingPanelNetworkTransaction configPath) in
  match pending with
  | Some _ => fail (Sentinel ErrNetworkApplyInProgress)
  | None =>
      let* currentStored := load_stored in
      let* now := clock in
      let next := next_config request currentStored (generatePanelEntryPath (UR_entry r) now) in
      let* checked := (fun w => (Ok (validateManagedPanelConfig next now (disk (tables w))), w)) in
      match checked with
      | Fail err => fail (invalid_config err)
      | Ok _ =>
          let* current := effectiveManagedPanelConfig in
          let* probed := attempt (probeChangedListeners (Network current) (Network next)) in
          match probed with
          | Fail err => fail (invalid_config err)
          | Ok _ => commit_config r currentStored current next
          end
      end
  end.
End operations.
