(* ===== verification/NetworkSafety.v ===== *)
(** What a change of the network access keeps ([NetworkTransaction]): wherever
    the machine stops, the former configuration is in place or can be put back,
    and what a transaction records about its outcome is true. *)

From stdpp Require Import gmap strings sorting options.
From S2P Require Import Prelude GoStrings GoText GoCrypto GoNet GoPath Store Stops GoFiles Credential.
From S2P Require Import FirewallRule Firewall PanelNetwork NetworkTransaction.
#[local] Open Scope Z_scope.

(** ** Every operation takes its faults from the schedule *)

Section firewall.
Context {H : Type} `{!Firewall.Host H} `{!UnicodeCase}.

Lemma regular_command name args : regular (command (H := H) name args).
Proof.
  intros w r w'. unfold command. destruct (Run _ _ _) as [r1 h] eqn:E. intros [= <- <-]. exists [].
  split; [done|]. intros _. cbn [tables faults]. rewrite ?E. done.
Qed.

Lemma regular_has_program name : regular (has_program (H := H) name).
Proof. intros w r w' [= <- <-]. by exists []. Qed.

Lemma regular_around {A} text (m : M (FirewallState H) A) : regular m -> regular (around text m).
Proof.
  intros Hm w r w'. unfold around. destruct (m w) as [[a|e] w1] eqn:E; apply Hm in E as (l & El & Hl);
    intros [= <- <-]; exists l; (split; [done|]); intros Hn; by rewrite (Hl Hn).
Qed.
#[local] Hint Resolve regular_command regular_has_program regular_around : stops.

Lemma regular_undo_all ops : regular (undo_all (H := H) ops).
Proof. induction ops as [|op ops IH]; cbn [undo_all]; orderly. Qed.

Lemma regular_persist backend : regular (persist (H := H) backend).
Proof. unfold persist. orderly. Qed.
#[local] Hint Resolve regular_undo_all regular_persist : stops.

Lemma regular_runOperations backend ops : regular (runOperations (H := H) backend ops).
Proof.
  unfold runOperations. generalize (@nil commandOperation). induction ops as [|op ops IH]; intros applied; cbn [run_each];
    unfold run_op; orderly.
Qed.

Lemma regular_detectBackend : regular (detectBackend (H := H)).
Proof. unfold detectBackend, detect_ufw, detect_firewalld, detect_iptables, check_firewalld, has_systemd. orderly. Qed.

Lemma regular_ruleOperations rule : regular (ruleOperations (H := H) rule).
Proof. unfold ruleOperations. orderly. Qed.

Lemma regular_ruleExists rule state : regular (ruleExists (H := H) rule state).
Proof. unfold ruleExists. orderly. Qed.
#[local] Hint Resolve regular_runOperations regular_detectBackend regular_ruleOperations regular_ruleExists : stops.

Lemma regular_create_protected state port token : regular (create_protected (H := H) state port token).
Proof. unfold create_protected, protecting_operations, take_back, rollbackOperations, exec. orderly. Qed.
#[local] Hint Resolve regular_create_protected : stops.

Lemma regular_PreparePanelPort token port : regular (PreparePanelPort (H := H) token port).
Proof. unfold PreparePanelPort, ensureProtectedPort, Store.exec. orderly. Qed.

Lemma regular_RollbackPreparedPanelPort id : regular (RollbackPreparedPanelPort (H := H) id).
Proof. unfold RollbackPreparedPanelPort, run_ignoring, Store.exec. orderly. Qed.
End firewall.

#[export] Hint Resolve regular_has_program regular_PreparePanelPort regular_RollbackPreparedPanelPort : stops.

(** ** Identifiers *)

Lemma hex_decode_chars s l : hex_decode s = Some l -> sforall (fun c => bool_decide (is_Some (hex_value c))) s = true.
Proof.
  revert l. induction s as [s IH] using string_len_ind. intros l. destruct s as [|a [|b s]]; [done..|].
  cbn [hex_decode sforall]. destruct (hex_value a) as [x|]; [|done]. destruct (hex_value b) as [y|]; [|done].
  destruct (hex_decode s) as [k|] eqn:E; [|done]. intros _.
  rewrite !bool_decide_eq_true_2 by (by eexists). cbn. apply (IH s) with k; [|done]. cbn. lia.
Qed.

Lemma hex_free s l c : hex_decode s = Some l -> hex_value c = None -> free_of c s.
Proof.
  intros E Hc. unfold free_of. apply hex_decode_chars in E. revert E. apply sforall_impl. intros d Hd.
  apply bool_decide_eq_true_1 in Hd as [v Hv]. apply negb_true_iff. destruct (Ascii.eqb_spec d c) as [->|]; [|done].
  by rewrite Hc in Hv.
Qed.

Lemma clean_ascii s : sforall (fun c => byte_of c <? 128) s = true -> clean_text s = s.
Proof. intros H. by apply encode_runes_runes, ascii_valid. Qed.

Section ids.
Context `{!UnicodeCase}.

Lemma valid_id_parts id : validNetworkTransactionID id = true ->
  len id = 32 /\ is_Some (hex_decode id) /\ ToLower id = id.
Proof.
  unfold validNetworkTransactionID. rewrite !andb_true_iff.
  intros [[H1%Z.eqb_eq H2%bool_decide_eq_true_1] H3%String.eqb_eq]. done.
Qed.

Lemma transaction_id_free id c : validNetworkTransactionID id = true -> hex_value c = None -> free_of c id.
Proof. intros (_ & [l Hl] & _)%valid_id_parts Hc. by eapply hex_free. Qed.

Lemma valid_id_ascii id : validNetworkTransactionID id = true -> sforall (fun c => byte_of c <? 128) id = true.
Proof.
  intros (_ & [l Hl] & _)%valid_id_parts. apply hex_decode_chars in Hl. revert Hl. apply sforall_impl.
  intros c Hc%bool_decide_eq_true_1. destruct Hc as [v Hv]. unfold hex_value in Hv. apply Z.ltb_lt.
  repeat (case_match; bool_props; try done; try lia).
Qed.

Lemma plain_id_name id suffix : validNetworkTransactionID id = true -> free_of slash suffix -> plain_part (id +:+ suffix).
Proof.
  intros Hv Hs. apply long_plain_name; [apply free_of_app; [by apply transaction_id_free|done]|].
  apply valid_id_parts in Hv as [Hl _]. rewrite len_app. pose proof (len_nonneg suffix). lia.
Qed.

(** The hexadecimal form of 16 bytes. *)
Lemma lower_hex l : Forall is_byte l -> ToLower (hex_encode l) = hex_encode l.
Proof.
  intros Hl. rewrite <- (clean_ascii (hex_encode l)) at 2 by (by apply hex_encode_ascii).
  apply hex_encode_digits in Hl. unfold ToLower, Map, clean_text. f_equal.
  revert Hl. generalize (hex_encode l). induction s as [|c s IH]; [done|]. cbn [sforall]. intros [Hc Hs]%andb_true_iff.
  assert (Hb : 48 <= byte_of c <= 57 \/ 97 <= byte_of c <= 102).
  { apply orb_true_iff in Hc as [Hc|Hc]; apply andb_true_iff in Hc as [H1%Z.leb_le H2%Z.leb_le]; lia. }
  unfold runes. rewrite tokens_ascii by lia. cbn [map omap list_omap tok_rune]. fold (runes s). rewrite IH by done. f_equal.
  unfold lower_rune. rewrite (proj2 (andb_false_iff _ _)), (proj2 (Z.ltb_lt (byte_of c) 128)) by
    (rewrite ?Z.leb_gt; lia). done.
Qed.

Lemma valid_id_encoded value : Forall is_byte value -> List.length value = 16%nat ->
  validNetworkTransactionID (hex_encode value) = true.
Proof.
  intros Hb Hl. unfold validNetworkTransactionID. rewrite lower_hex by done. rewrite String.eqb_refl, andb_true_r.
  rewrite hex_roundtrip by done. rewrite bool_decide_eq_true_2 by (by eexists). rewrite andb_true_r. apply Z.eqb_eq.
  unfold len. rewrite length_hex_encode. lia.
Qed.
End ids.

(** ** The paths of transactions *)

Section paths.
Context `{!UnicodeCase}.
Variable configPath : string.
Variables (croot : list string) (cname : string).
Hypothesis absolute : IsAbs configPath = true.
Hypothesis clean : Clean configPath = configPath.
Hypothesis config_at : parts configPath = croot ++ [cname].

Abbreviation directory := (panelNetworkTransactionDirectory configPath).
Definition tdir : list string := croot ++ ["data"; "network-transactions"].

Lemma parts_config_dir : parts (Dir configPath) = croot.
Proof using absolute clean config_at.
  rewrite parts_Dir by (try done; rewrite config_at; by destruct croot). by rewrite config_at, removelast_last.
Qed.

Lemma config_dir_abs : IsAbs (Dir configPath) = true.
Proof using absolute clean config_at.
  assert (Hp := parts_plain configPath absolute). rewrite config_at in Hp. apply Forall_app in Hp as [Hl Hq].
  rewrite Forall_singleton in Hq. rewrite <- clean, Clean_abs, config_at by done.
  destruct (parts_Dir_join croot cname) as [_ ->]; [done..|]. apply IsAbs_path_of.
Qed.

Lemma directory_join : directory = PathJoin [Dir configPath; "data/network-transactions"].
Proof using absolute clean config_at.
  unfold panelNetworkTransactionDirectory. assert (Ha := config_dir_abs). apply IsAbs_cons in Ha as [d ->]. reflexivity.
Qed.

Lemma directory_abs : IsAbs directory = true.
Proof using absolute clean config_at. rewrite directory_join. apply IsAbs_PathJoin, config_dir_abs. Qed.

Lemma parts_directory : parts directory = tdir.
Proof using absolute clean config_at.
  rewrite directory_join, parts_PathJoin, parts_config_dir; [done|apply config_dir_abs|].
  repeat constructor; done.
Qed.

Lemma parts_in_directory name : plain_part name -> parts (PathJoin [directory; name]) = tdir ++ [name].
Proof using absolute clean config_at.
  intros Hn. assert (Hf : free_of slash name) by apply Hn.
  rewrite parts_PathJoin, parts_directory, Split_free; [done|done|apply directory_abs|].
  rewrite Split_free by done. by constructor.
Qed.

Lemma parts_transaction id : validNetworkTransactionID id = true ->
  parts (transaction_path configPath id) = tdir ++ [id +:+ ".json"].
Proof using absolute clean config_at. intros Hv. apply parts_in_directory. by apply plain_id_name. Qed.

Lemma parts_snapshot id : validNetworkTransactionID id = true ->
  parts (snapshot_path configPath id) = tdir ++ [snapshot_name id].
Proof using absolute clean config_at. intros Hv. apply parts_in_directory. by apply plain_id_name. Qed.

(** The temporary files. *)
Definition transaction_temp (token : string) : string :=
  PathJoin [directory; ".network-transaction-" +:+ token +:+ ".json"].
Definition config_temp (token : string) : string :=
  PathJoin [Dir configPath; ".config-network-recovery-" +:+ token +:+ ".yaml"].

Lemma parts_transaction_temp token : free_of slash token ->
  parts (transaction_temp token) = tdir ++ [".network-transaction-" +:+ token +:+ ".json"].
Proof using absolute clean config_at.
  intros Ht. apply parts_in_directory. apply long_plain_name; [by repeat apply free_of_app|].
  rewrite !len_app. pose proof (len_nonneg token). unfold len at 1 3. cbn. lia.
Qed.

Lemma parts_config_temp token : free_of slash token ->
  parts (config_temp token) = croot ++ [".config-network-recovery-" +:+ token +:+ ".yaml"].
Proof using absolute clean config_at.
  intros Ht. set (name := ".config-network-recovery-" +:+ token +:+ ".yaml").
  assert (Hf : free_of slash name) by (by repeat apply free_of_app).
  unfold config_temp. fold name. rewrite parts_PathJoin, parts_config_dir, Split_free; [done|done|apply config_dir_abs|].
  rewrite Split_free by done. constructor; [|constructor]. apply long_plain_name; [done|].
  unfold name. rewrite !len_app. pose proof (len_nonneg token). unfold len at 1 3. cbn. lia.
Qed.

(** ** What two disks have in common *)

Hypothesis not_data : cname <> "data".

Lemma sapp_inv a b s t : len a = len b -> a +:+ s = b +:+ t -> a = b /\ s = t.
Proof using Type.
  clear. unfold len. revert b. induction a as [|c a IH]; intros [|e b]; cbn; try (intros Hl; exfalso; lia); [done|].
  intros Hl [= <- Hs]. destruct (IH b) as [-> ->]; [lia|done|done].
Qed.

Lemma dot_name id s t : validNetworkTransactionID id = true -> id +:+ s <> String "." t.
Proof using Type.
  clear. intros Hv E. assert (Hf := transaction_id_free id "." Hv eq_refl). apply valid_id_parts in Hv as [Hl _].
  destruct id as [|c id]; [done|]. injection E as -> _. done.
Qed.

Lemma id_names id id' s t : validNetworkTransactionID id = true -> validNetworkTransactionID id' = true ->
  id +:+ s = id' +:+ t -> id = id' /\ s = t.
Proof using Type. clear. intros [H1 _]%valid_id_parts [H2 _]%valid_id_parts. apply sapp_inv. by rewrite H1, H2. Qed.

(** The configuration, and for every identifier its transaction and snapshot. *)
Record looks (except : list string) (d d' : node) : Prop := mkLooks {
  L_config : at_path configPath d' = at_path configPath d;
  L_transaction id : validNetworkTransactionID id = true -> id ∉ except ->
    at_path (transaction_path configPath id) d' = at_path (transaction_path configPath id) d;
  L_snapshot id : validNetworkTransactionID id = true ->
    at_path (snapshot_path configPath id) d' = at_path (snapshot_path configPath id) d
}.

Lemma transaction_apart_config id : validNetworkTransactionID id = true ->
  apart (parts configPath) (parts (transaction_path configPath id)) = true.
Proof using All. intros Hv. rewrite config_at, parts_transaction by done. unfold tdir. rewrite <- app_assoc. by apply apart_branch. Qed.

Lemma snapshot_apart_config id : validNetworkTransactionID id = true ->
  apart (parts configPath) (parts (snapshot_path configPath id)) = true.
Proof using All. intros Hv. rewrite config_at, parts_snapshot by done. unfold tdir. rewrite <- app_assoc. by apply apart_branch. Qed.

Lemma transaction_apart_snapshot id id' : validNetworkTransactionID id = true -> validNetworkTransactionID id' = true ->
  apart (parts (transaction_path configPath id)) (parts (snapshot_path configPath id')) = true.
Proof using All.
  intros Hv Hv'. rewrite parts_transaction, parts_snapshot by done. apply apart_siblings. intros E.
  by apply id_names in E as [_ E].
Qed.

Lemma transactions_apart id id' : validNetworkTransactionID id = true -> validNetworkTransactionID id' = true -> id <> id' ->
  apart (parts (transaction_path configPath id)) (parts (transaction_path configPath id')) = true.
Proof using All.
  intros Hv Hv' Hne. rewrite !parts_transaction by done. apply apart_siblings. intros E. by apply id_names in E as [E _].
Qed.

Lemma snapshots_apart id id' : validNetworkTransactionID id = true -> validNetworkTransactionID id' = true -> id <> id' ->
  apart (parts (snapshot_path configPath id)) (parts (snapshot_path configPath id')) = true.
Proof using All.
  intros Hv Hv' Hne. rewrite !parts_snapshot by done. apply apart_siblings. intros E. by apply id_names in E as [E _].
Qed.

Lemma temp_apart_transaction id token : validNetworkTransactionID id = true -> free_of slash token ->
  apart (parts (transaction_path configPath id)) (parts (transaction_temp token)) = true.
Proof using All.
  intros Hv Ht. rewrite parts_transaction, parts_transaction_temp by done. apply apart_siblings. by apply dot_name.
Qed.

Lemma temp_apart_snapshot id token : validNetworkTransactionID id = true -> free_of slash token ->
  apart (parts (snapshot_path configPath id)) (parts (transaction_temp token)) = true.
Proof using All.
  intros Hv Ht. rewrite parts_snapshot, parts_transaction_temp by done. apply apart_siblings. by apply dot_name.
Qed.

Lemma temp_apart_config token : free_of slash token -> apart (parts configPath) (parts (transaction_temp token)) = true.
Proof using All. intros Ht. rewrite config_at, parts_transaction_temp by done. unfold tdir. rewrite <- app_assoc. by apply apart_branch. Qed.

Lemma config_temp_apart l token : free_of slash token -> apart (tdir ++ l) (parts (config_temp token)) = true.
Proof using absolute clean config_at. intros Ht. rewrite parts_config_temp by done. unfold tdir. rewrite <- app_assoc. by apply apart_branch. Qed.

Lemma looks_refl except d : looks except d d.
Proof using Type. split; done. Qed.

Lemma looks_trans except a b c : looks except a b -> looks except b c -> looks except a c.
Proof using Type.
  intros [C1 T1 S1] [C2 T2 S2]. split; [by rewrite C2, C1|intros; by rewrite T2, T1|intros; by rewrite S2, S1].
Qed.

Lemma looks_more except d d' : looks [] d d' -> looks except d d'.
Proof using Type. intros [C T S]. split; [done| |done]. intros id Hv _. apply T; [done|]. by intros ?%elem_of_nil. Qed.

Lemma temp_looks token d d' : free_of slash token -> only_at (transaction_temp token) d d' -> looks [] d d'.
Proof using All.
  intros Ht Ho. split; [|intros id Hv _|intros id Hv]; apply Ho;
    [by apply temp_apart_config|by apply temp_apart_transaction|by apply temp_apart_snapshot].
Qed.

Lemma saved_looks token id d d' : free_of slash token -> validNetworkTransactionID id = true ->
  untouched [transaction_temp token; transaction_path configPath id] d d' -> looks [id] d d'.
Proof using All.
  intros Ht Hv Hu. split; [|intros id' Hv' Hne|intros id' Hv']; apply Hu; repeat constructor.
  - by apply temp_apart_config.
  - by apply transaction_apart_config.
  - by apply temp_apart_transaction.
  - apply transactions_apart; [done..|]. intros ->. apply Hne. set_solver.
  - by apply temp_apart_snapshot.
  - rewrite apart_sym. by apply transaction_apart_snapshot.
Qed.

(** The files of transactions after a change of the configuration file. *)
Record same_transactions (d d' : node) : Prop := mkSame {
  S_transaction id : validNetworkTransactionID id = true ->
    at_path (transaction_path configPath id) d' = at_path (transaction_path configPath id) d;
  S_snapshot id : validNetworkTransactionID id = true ->
    at_path (snapshot_path configPath id) d' = at_path (snapshot_path configPath id) d
}.

Lemma config_same token d d' : free_of slash token -> untouched [config_temp token; configPath] d d' -> same_transactions d d'.
Proof using All.
  intros Ht Hu. split; intros id Hv; apply Hu; repeat constructor.
  - rewrite parts_transaction by done. by apply config_temp_apart.
  - rewrite apart_sym. by apply transaction_apart_config.
  - rewrite parts_snapshot by done. by apply config_temp_apart.
  - rewrite apart_sym. by apply snapshot_apart_config.
Qed.

Lemma config_temp_looks token d d' : free_of slash token -> config_temp token <> configPath ->
  only_at (config_temp token) d d' -> cname <> ".config-network-recovery-" +:+ token +:+ ".yaml" -> looks [] d d'.
Proof using All.
  intros Ht _ Ho Hne. split; [|intros id Hv _|intros id Hv]; apply Ho.
  - rewrite config_at, parts_config_temp by done. apply apart_siblings. done.
  - rewrite parts_transaction by done. by apply config_temp_apart.
  - rewrite parts_snapshot by done. by apply config_temp_apart.
Qed.

(** ** What is stored *)

Context `{!TransactionJSON}.

Definition decode_stored (id data : string) : result panelNetworkTransaction :=
  if networkTransactionMaxBytes <? len data then Fail (ErrorString "file exceeds size limit")
  else
    match decode_transaction data with
    | Fail err => Fail (Wrap "解析访问配置事务: " err "")
    | Ok t =>
        if negb (String.eqb (TX_ID t) id) || negb (validNetworkTransactionStatus (TX_Status t))
           || negb (String.eqb (TX_PreviousFileName t) (snapshot_name (TX_ID t)))
        then Fail (ErrorString "访问配置事务内容无效") else Ok t
    end.

(** The transaction with an identifier, as far as it can be read. *)
Definition loaded (d : node) (id : string) : option panelNetworkTransaction :=
  if validNetworkTransactionID id then
    match at_path (transaction_path configPath id) d with
    | Some (FileNode _ data) => match decode_stored id data with Ok t => Some t | Fail _ => None end
    | _ => None
    end
  else None.

Lemma loaded_valid d id t : loaded d id = Some t ->
  validNetworkTransactionID id = true /\ TX_ID t = id /\ TX_PreviousFileName t = snapshot_name id /\
  exists m data, at_path (transaction_path configPath id) d = Some (FileNode m data).
Proof using Type.
  unfold loaded. destruct (validNetworkTransactionID id); [|done].
  destruct (at_path _ d) as [[m data| |]|]; [|done..]. unfold decode_stored.
  destruct (_ <? _); [done|]. destruct (decode_transaction data) as [x|]; [|done].
  destruct (String.eqb_spec (TX_ID x) id) as [Ei|]; [|done]. destruct (validNetworkTransactionStatus _); [|done].
  destruct (String.eqb_spec (TX_PreviousFileName x) (snapshot_name (TX_ID x))) as [Ep|]; [|done].
  cbn. intros [= ->]. rewrite Ei in Ep. eauto 6.
Qed.

Lemma loaded_at d d' id : at_path (transaction_path configPath id) d' = at_path (transaction_path configPath id) d ->
  loaded d' id = loaded d id.
Proof using Type. intros E. unfold loaded. by rewrite E. Qed.

Lemma loaded_looks except d d' id : looks except d d' -> id ∉ except -> loaded d' id = loaded d id.
Proof using Type.
  intros [_ T _] He. destruct (validNetworkTransactionID id) eqn:Hv; [by apply loaded_at, T|].
  unfold loaded. by rewrite Hv.
Qed.

Lemma loaded_same d d' id : same_transactions d d' -> loaded d' id = loaded d id.
Proof using Type.
  intros [T _]. destruct (validNetworkTransactionID id) eqn:Hv; [by apply loaded_at, T|]. unfold loaded. by rewrite Hv.
Qed.

(** The directory of a stored transaction is there. *)
Lemma node_below l p k n v : node_at (l ++ p :: k) n = Some v -> exists m e, node_at l n = Some (DirNode m e).
Proof using Type. rewrite node_at_app. destruct (node_at l n) as [[]|]; [done|eauto|done|done]. Qed.

Lemma loaded_directory d id t : loaded d id = Some t -> exists m e, node_at tdir d = Some (DirNode m e).
Proof using absolute clean config_at.
  intros (Hv & _ & _ & m & data & E)%loaded_valid. unfold at_path in E. rewrite parts_transaction in E by done.
  by eapply node_below.
Qed.

(** ** Reading *)

Lemma readLimited_run path limit w r w' : readLimitedFile path limit w = (r, w') -> tables w' = tables w /\
  (forall c, r = Ok c -> (exists m, at_path path (tables w) = Some (FileNode m c)) /\ len c <= limit).
Proof using Type.
  unfold readLimitedFile, bind. destruct (ReadFile path w) as [[c|e] w1] eqn:E.
  - apply ReadFile_Ok in E as [Ht [m Hat]]. destruct (Z.ltb_spec limit (len c)); intros [= <- <-]; (split; [done|]); [done|].
    intros c' [= <-]. eauto.
  - intros [= <- <-]. apply statement_Fail in E as [Ht _]. done.
Qed.

Lemma clean_readLimited path limit m c d : at_path path d = Some (FileNode m c) -> len c <= limit ->
  readLimitedFile path limit (World d []) = (Ok c, World d []).
Proof using Type.
  intros E Hl. unfold readLimitedFile, bind. rewrite (clean_ReadFile _ _ _ _ E). by rewrite (proj2 (Z.ltb_ge _ _) Hl).
Qed.

Lemma load_run id w r w' : loadPanelNetworkTransaction configPath id w = (r, w') -> tables w' = tables w /\
  (forall t, r = Ok t -> loaded (tables w) id = Some t).
Proof using Type.
  unfold loadPanelNetworkTransaction, loaded. destruct (validNetworkTransactionID id); cbn [negb]; [|by intros [= <- <-]].
  unfold bind. destruct (attempt _ w) as [r1 w1] eqn:E1. apply attempt_run in E1 as (res & E1 & ->).
  apply readLimited_run in E1 as [Ht Hc]. destruct res as [data|err].
  - destruct (Hc data eq_refl) as [[m ->] Hl]. unfold decode_stored. rewrite (proj2 (Z.ltb_ge _ _) Hl).
    destruct (decode_transaction data) as [t|err]; [|by intros [= <- <-]].
    destruct (_ || _); intros [= <- <-]; [done|]. split; [done|]. by intros t' [= <-].
  - destruct (is_not_exist err); by intros [= <- <-].
Qed.

Lemma clean_load id d : exists r, loadPanelNetworkTransaction configPath id (World d []) = (r, World d []) /\
  match loaded d id with Some t => r = Ok t | None => is_ok r = false end.
Proof using Type.
  unfold loadPanelNetworkTransaction, loaded. destruct (validNetworkTransactionID id); cbn [negb]; [|by eexists].
  unfold bind, attempt, readLimitedFile, bind, ReadFile, statement, next_fault. cbn [faults tables].
  destruct (at_path _ d) as [[m data| |]|]; cbn; try by eexists. unfold decode_stored.
  destruct (networkTransactionMaxBytes <? len data); cbn; [by eexists|].
  destruct (decode_transaction data) as [t|err]; [|by eexists]. destruct (_ || _); by eexists.
Qed.

(** ** Saving a transaction *)

(** What [os.CreateTemp] is relied on for: a name without a separator, which is
    no name in use. *)
Definition good_token (token : string) : Prop :=
  free_of slash token /\ cname <> ".config-network-recovery-" +:+ token +:+ ".yaml".

Definition fresh (d : node) (token : string) : Prop :=
  at_path (transaction_temp token) d = None /\ at_path (config_temp token) d = None.

Definition sized (t : panelNetworkTransaction) : Prop :=
  forall text, encode_transaction t = Ok text -> len text < networkTransactionMaxBytes.

(** A transaction that is read back when it was written. *)
Definition proper (t : panelNetworkTransaction) : Prop :=
  validNetworkTransactionID (TX_ID t) = true /\ validNetworkTransactionStatus (TX_Status t) = true /\
  TX_PreviousFileName t = snapshot_name (TX_ID t) /\ storable t /\ sized t.

Lemma status_ascii status : validNetworkTransactionStatus status = true -> clean_text status = status.
Proof using Type.
  clear. intros (x & Hx & <-%String.eqb_eq)%existsb_exists. cbn in Hx. by repeat destruct Hx as [<-|Hx].
Qed.

Lemma copy_names t : proper t -> TX_ID (json_copy t) = TX_ID t /\ TX_Status (json_copy t) = TX_Status t /\
  TX_PreviousFileName (json_copy t) = TX_PreviousFileName t.
Proof using Type.
  clear. intros (Hv & Hs & Hf & _). cbn. rewrite (status_ascii (TX_Status t)) by done. rewrite Hf.
  rewrite !clean_ascii; [done| |by apply valid_id_ascii]. unfold snapshot_name. rewrite sforall_app.
  by rewrite valid_id_ascii.
Qed.

Lemma decode_saved t text : proper t -> encode_transaction t = Ok text ->
  decode_stored (TX_ID t) (text +:+ str1 "010") = Ok (json_copy t).
Proof using Type.
  intros Hp E. assert (Hc := copy_names t Hp). destruct Hp as (Hv & Hs & Hf & Hst & Hsz).
  destruct (decode_encoded t Hst) as (text' & E' & Hd). rewrite E in E'. injection E' as <-.
  unfold decode_stored. specialize (Hsz text E). rewrite (proj2 (Z.ltb_ge _ _)) by (rewrite len_app; unfold len at 2; cbn; lia).
  rewrite Hd. destruct Hc as (-> & -> & ->). by rewrite Hf, !String.eqb_refl, Hs.
Qed.

Lemma fresh_looks token d d' : free_of slash token -> fresh d token -> forall id tk,
  untouched [transaction_temp tk; transaction_path configPath id] d d' -> validNetworkTransactionID id = true ->
  free_of slash tk -> at_path (transaction_temp tk) d' = None -> fresh d' token.
Proof using All.
  intros Ht [H1 H2] id tk Hu Hv Hk Hg. split.
  - destruct (decide (parts (transaction_temp token) = parts (transaction_temp tk))) as [E|Hne].
    + unfold at_path in *. by rewrite E.
    + rewrite <- H1. apply Hu. repeat constructor; [|rewrite apart_sym; by apply temp_apart_transaction].
      rewrite !parts_transaction_temp in * by done. apply apart_siblings. congruence.
  - rewrite <- H2. apply Hu. repeat constructor; rewrite apart_sym.
    + rewrite parts_transaction_temp by done. by apply config_temp_apart.
    + rewrite parts_transaction by done. by apply config_temp_apart.
Qed.

Lemma secure_save (I : node -> Prop) token t d (Q : result unit -> node -> Prop) :
  proper t -> good_token token -> fresh d token -> (exists m e, node_at tdir d = Some (DirNode m e)) ->
  not_dir (at_path (transaction_path configPath (TX_ID t)) d) ->
  I d -> (forall a b, looks [] a b -> I a -> I b) ->
  (forall d', looks [TX_ID t] d d' -> loaded d' (TX_ID t) = Some (json_copy t) ->
     (forall tk, good_token tk -> fresh d tk -> fresh d' tk) -> I d' /\ Q (Ok tt) d') ->
  secure whole I (savePanelNetworkTransaction configPath token t) d Q.
Proof using All.
  intros Hp [Ht Hc] [Hf _] (m & e & Hd) Hnd Hi Hl Hnew. assert (Hp' := Hp). destruct Hp' as (Hv & _ & _ & Hst & _).
  unfold savePanelNetworkTransaction. rewrite Hv. cbn [negb].
  destruct (decode_encoded t Hst) as (text & E & _). rewrite E.
  assert (Hx : forall d', untouched [transaction_temp token; transaction_path configPath (TX_ID t)] d d' ->
    at_path (transaction_path configPath (TX_ID t)) d' = Some (FileNode 384 (text +:+ str1 "010")) ->
    at_path (transaction_temp token) d' = None -> I d' /\ Q (Ok tt) d').
  { intros d' Hu Hat Hg. apply Hnew; [by eapply saved_looks| |].
    - unfold loaded. rewrite Hv, Hat. by rewrite decode_saved.
    - intros tk [Hk _] Hfk. by eapply fresh_looks. }
  apply secure_bind; [orderly|]. eapply secure_run.
  { apply throughout_statement. exact Hi. }
  { apply (clean_MkdirAll _ _ d m e). by rewrite parts_directory. }
  assert (Hne : ".network-transaction-" +:+ token +:+ ".json" <> TX_ID t +:+ ".json").
  { intros Hx'. symmetry in Hx'. revert Hx'. by apply dot_name. }
  assert (Hpn := parts_transaction_temp token Ht). assert (Hpp := parts_transaction _ Hv).
  destruct (clean_write_beside _ _ _ _ _ (text +:+ str1 "010") 384 d m e Hpn Hpp Hne Hd Hf Hnd) as [d' E'].
  eapply secure_run; [|exact E'|].
  - eapply throughout_write_beside; [exact Hpn|exact Hpp|exact Hne| |done|].
    + intros a b Ho. apply Hl. by eapply temp_looks.
    + intros d1 Hu Hat Hg. by apply Hx.
  - apply (write_beside_run tdir _ _ _ _ Hpn Hpp Hne) in E' as [[_ [=]]|(Hu & Hat & Hg)]. by apply Hx.
Qed.

(** ** Replacing the configuration *)

Definition config_is (d : node) (c : string) : Prop := exists m, at_path configPath d = Some (FileNode m c).

Lemma config_directory d c : config_is d c -> exists m e, node_at croot d = Some (DirNode m e).
Proof using config_at. intros [m E]. unfold at_path in E. rewrite config_at in E. by eapply node_below. Qed.

Lemma secure_replace (I : node -> Prop) token contents c d (Q : result unit -> node -> Prop) :
  good_token token -> fresh d token -> config_is d c ->
  I d -> (forall a b, looks [] a b -> I a -> I b) ->
  (forall d', same_transactions d d' -> config_is d' contents ->
     (forall tk, good_token tk -> fresh d tk -> fresh d' tk) -> I d' /\ Q (Ok tt) d') ->
  secure whole I (replacePanelConfigFile configPath token contents) d Q.
Proof using All.
  intros [Ht Hc] [_ Hf] Hcfg Hi Hl Hnew. destruct (config_directory d c Hcfg) as (m & e & Hd).
  assert (Hpn := parts_config_temp token Ht). assert (Hne := not_eq_sym Hc).
  assert (Hx : forall d', untouched [config_temp token; configPath] d d' ->
    at_path configPath d' = Some (FileNode 384 contents) -> at_path (config_temp token) d' = None -> I d' /\ Q (Ok tt) d').
  { intros d' Hu Hat Hg. apply Hnew; [by eapply config_same|by eexists|]. intros tk [Hk Hck] [H1 H2]. split.
    - rewrite <- H1. apply Hu. repeat constructor; [|rewrite apart_sym; by apply temp_apart_config].
      rewrite parts_transaction_temp by done. by apply config_temp_apart.
    - destruct (decide (parts (config_temp tk) = parts (config_temp token))) as [E|Hnp]; [unfold at_path in *; by rewrite E|].
      rewrite <- H2. apply Hu. repeat constructor.
      + rewrite !parts_config_temp in * by done. apply apart_siblings. congruence.
      + rewrite parts_config_temp, config_at by done. apply apart_siblings. by apply not_eq_sym. }
  destruct (clean_write_beside _ _ _ _ _ contents 384 d m e Hpn config_at Hne Hd Hf) as [d' E'].
  { destruct Hcfg as [mode ->]. done. }
  eapply secure_run; [|exact E'|].
  - eapply throughout_write_beside; [exact Hpn|exact config_at|exact Hne| |done|].
    + intros a b Ho. apply Hl. by eapply config_temp_looks with (token := token); try done; intros Hcc;
        rewrite Hcc, config_at in Hpn; apply app_inv_head in Hpn; injection Hpn.
    + intros d1 Hu Hat Hg. by apply Hx.
  - apply (write_beside_run croot _ _ _ _ Hpn config_at Hne) in E' as [[_ [=]]|(Hu & Hat & Hg)]. by apply Hx.
Qed.

(** ** A transaction under way

    [b] is the transaction as it was created, [c0] the former configuration and
    [cand] the new one. *)
Variables (c0 cand : string) (b : panelNetworkTransaction).

Definition same_base (t : panelNetworkTransaction) : Prop :=
  TX_ID t = TX_ID b /\ TX_CreatedAt t = TX_CreatedAt b /\ TX_NotBefore t = TX_NotBefore b /\
  TX_Previous t = TX_Previous b /\ TX_Candidate t = TX_Candidate b /\
  TX_PreviousSHA256 t = TX_PreviousSHA256 b /\ TX_CandidateSHA256 t = TX_CandidateSHA256 b /\
  TX_PreparedRuleIDs t = TX_PreparedRuleIDs b /\ TX_PreviousFileName t = TX_PreviousFileName b.

(** The error of a transaction is cut at 1024 bytes. *)
Definition brief (t : panelNetworkTransaction) : Prop := len (TX_Error t) <= 1027.

Record created : Prop := mkCreated {
  B_id : validNetworkTransactionID (TX_ID b) = true;
  B_file : TX_PreviousFileName b = snapshot_name (TX_ID b);
  B_times : printable (TX_CreatedAt b) /\ printable (TX_NotBefore b);
  B_configs : json_config (TX_Previous b) = TX_Previous b /\ json_config (TX_Candidate b) = TX_Candidate b;
  B_previous : TX_PreviousSHA256 b = checksumHex c0;
  B_candidate : TX_CandidateSHA256 b = checksumHex cand;
  B_size : len c0 <= networkConfigSnapshotMaxBytes /\ len cand <= networkConfigSnapshotMaxBytes;
  B_compact t : same_base t -> validNetworkTransactionStatus (TX_Status t) = true -> storable t -> brief t -> sized t
}.
Hypothesis base : created.

(** A later state of the transaction. *)
Definition version (t : panelNetworkTransaction) : Prop :=
  same_base t /\ validNetworkTransactionStatus (TX_Status t) = true /\
  (forall s, TX_StartedAt t = Some s -> printable s) /\ (forall s, TX_FinishedAt t = Some s -> printable s).

Lemma checksum_ascii c : clean_text (checksumHex c) = checksumHex c.
Proof using Type. clear. apply clean_ascii, hex_encode_ascii, sha256_bytes. Qed.

Lemma version_proper t : version t -> brief t -> proper t.
Proof using All.
  intros (Hb & Hs & H1 & H2) Hl. assert (Hb' := Hb). destruct Hb as (Ei & Ec & En & _ & _ & _ & _ & _ & Ef). destruct base.
  assert (Hst : storable t).
  { unfold storable. rewrite Ec, En. by destruct B_times0. }
  unfold proper. rewrite Ei, Ef. split_and!; [done..|]. by apply B_compact0.
Qed.

Lemma version_copy t : version t -> version (json_copy t).
Proof using All.
  intros (Hb & Hs & H1 & H2). destruct base as [Hv Hf _ [Hp Hc] Hs1 Hs2 _ _].
  destruct Hb as (Ei & Ec & En & Ep & Ea & E1 & E2 & Er & Ef). split; [|split; [|done]].
  - unfold same_base. cbn. rewrite Ei, Ec, En, Ep, Ea, E1, E2, Er, Ef, Hp, Hc, Hs1, Hs2, !checksum_ascii. rewrite Hf.
    rewrite !clean_ascii; [done| |by apply valid_id_ascii]. unfold snapshot_name. rewrite sforall_app.
    by rewrite valid_id_ascii.
  - cbn. by rewrite status_ascii.
Qed.

Definition snapshot_is (d : node) (c : string) : Prop :=
  exists m, at_path (snapshot_path configPath (TX_ID b)) d = Some (FileNode m c).

(** What the status of the transaction says of the configuration [c]. *)
Definition told (status c : string) : Prop :=
  if pending_status status then c = c0 \/ c = cand
  else if String.eqb status networkApplyStatusSucceeded then checksumHex c = checksumHex cand
  else c = c0.

Definition recoverable (t : panelNetworkTransaction) : bool := NS_Recoverable (describePanelNetworkTransaction t).

Record stands (t : panelNetworkTransaction) (c : string) (d : node) : Prop := mkStands {
  Z_loaded : loaded d (TX_ID b) = Some t;
  Z_version : version t;
  Z_config : config_is d c;
  Z_told : told (TX_Status t) c;
  Z_snapshot : recoverable t = true -> snapshot_is d c0;
  Z_only id t' : loaded d id = Some t' -> is_pending t' = true -> id = TX_ID b
}.

(** The transaction as it is stored agrees with the configuration that is in
    place, and what can be recovered has its snapshot. *)
Definition situation (d : node) : Prop := exists t c, stands t c d.

Lemma snapshot_looks except d d' c : looks except d d' -> snapshot_is d c -> snapshot_is d' c.
Proof using All. intros [_ _ S] [m E]. exists m. rewrite S; [done|apply base]. Qed.

Lemma config_looks except d d' c : looks except d d' -> config_is d c -> config_is d' c.
Proof using Type. intros [C _ _] [m E]. exists m. by rewrite C. Qed.

Lemma stands_looks t c d d' : looks [] d d' -> stands t c d -> stands t c d'.
Proof using All.
  intros Hl [L V C T S O]. split; [by rewrite (loaded_looks [] d d') by (done || set_solver)|done|by eapply config_looks|done| |].
  - intros Hr. eapply snapshot_looks; [done|auto].
  - intros id t'. rewrite (loaded_looks [] d d') by (done || set_solver). apply O.
Qed.

Lemma situation_looks d d' : looks [] d d' -> situation d -> situation d'.
Proof using All. intros Hl (t & c & Hs). exists t, c. by eapply stands_looks. Qed.

(** The transaction is stored with another status. *)
Lemma stands_saved t t' c d d' : stands t c d -> version t' -> looks [TX_ID b] d d' ->
  loaded d' (TX_ID b) = Some (json_copy t') -> told (TX_Status t') c ->
  (recoverable t' = true -> snapshot_is d c0) -> stands (json_copy t') c d'.
Proof using All.
  intros [L V C T S O] Hv Hl Hd Ht Hr. assert (Hst : TX_Status (json_copy t') = TX_Status t').
  { cbn. apply status_ascii, Hv. }
  split; [done|by apply version_copy|by eapply config_looks|by rewrite Hst| |].
  - unfold recoverable. cbn. rewrite status_ascii by apply Hv. intros Hx. eapply snapshot_looks; [exact Hl|by apply Hr].
  - intros id t1 H1 Hp. destruct (decide (id = TX_ID b)) as [|Hne]; [done|].
    rewrite (loaded_looks [TX_ID b] d d') in H1 by (done || set_solver). by eapply O.
Qed.

(** The configuration is replaced. *)
Lemma stands_replaced t c c' d d' : stands t c d -> same_transactions d d' -> config_is d' c' -> told (TX_Status t) c' ->
  stands t c' d'.
Proof using All.
  intros [L V C T S O] Hs Hc Ht. split; [by rewrite (loaded_same d d')|done|done|done| |].
  - intros [m E]%S. exists m. destruct Hs as [_ ->]; [done|apply base].
  - intros id t'. rewrite (loaded_same d d') by done. apply O.
Qed.

(** A snapshot that is not needed any more goes. *)
Lemma stands_unneeded t c d d' : stands t c d -> recoverable t = false ->
  only_at (snapshot_path configPath (TX_ID b)) d d' -> stands t c d'.
Proof using All.
  intros [L V C T S O] Hr Ho. assert (Hv := B_id base).
  assert (Ht : forall id, loaded d' id = loaded d id).
  { intros id. destruct (validNetworkTransactionID id) eqn:Hid; [|unfold loaded; by rewrite Hid].
    apply loaded_at, Ho. by apply transaction_apart_snapshot. }
  split; [by rewrite Ht|done| |done|congruence|intros id t'; rewrite Ht; apply O].
  destruct C as [m E]. exists m. rewrite <- E. apply Ho. by apply snapshot_apart_config.
Qed.

Lemma pending_recoverable t : is_pending t = true -> recoverable t = true.
Proof using Type. unfold recoverable, is_pending. cbn. by intros ->. Qed.

(** ** The operations *)

Variable tokens : nat -> string.
Hypothesis good_tokens : forall n, good_token (tokens n).
Definition fresh_all (d : node) : Prop := forall n, fresh d (tokens n).

Lemma fresh_kept d d' : (forall tk, good_token tk -> fresh d tk -> fresh d' tk) -> fresh_all d -> fresh_all d'.
Proof using good_tokens. intros H1 H2 n. apply H1; [apply good_tokens|apply H2]. Qed.

Lemma version_snapshot t : version t -> panelNetworkSnapshotPath configPath t = Ok (snapshot_path configPath (TX_ID b)).
Proof using All.
  intros [(Ei & _ & _ & _ & _ & _ & _ & _ & Ef) _]. unfold panelNetworkSnapshotPath, snapshot_path.
  rewrite Ei, Ef, (B_id base), (B_file base), String.eqb_refl. done.
Qed.

Lemma snapshot_path_ne : parts (snapshot_path configPath (TX_ID b)) <> [].
Proof using All. rewrite parts_snapshot by apply base. by destruct tdir. Qed.

Lemma secure_restore t1 t c d n :
  stands t1 c d -> is_pending t1 = true -> version t -> fresh_all d ->
  secure whole situation (restorePanelNetworkSnapshot configPath (tokens n) t) d
    (fun r d' => r = Ok tt /\ stands t1 c0 d' /\ fresh_all d').
Proof using All.
  intros Hs Hp Hv Hf. assert (Hi : situation d) by (by exists t1, c).
  assert (Hsnap := Z_snapshot _ _ _ Hs (pending_recoverable _ Hp)). destruct Hsnap as [m Hat].
  unfold restorePanelNetworkSnapshot. rewrite version_snapshot by done. apply secure_bind; [unfold replacePanelConfigFile; orderly|].
  eapply secure_run.
  { apply throughout_wrapping. unfold readLimitedFile. apply throughout_bind; [orderly|by apply throughout_statement|].
    intros a t2 _. destruct (_ <? _); [apply throughout_fail|apply throughout_ret]. }
  { unfold wrapping. by rewrite (clean_readLimited _ _ _ _ _ Hat (proj1 (B_size base))). }
  cbn beta iota. destruct Hv as [(_ & _ & _ & _ & _ & -> & _) _]. rewrite (B_previous base), String.eqb_refl. cbn [negb].
  apply (secure_replace situation (tokens n) c0 c d); [done|done|by apply Hs|done|by intros a x ?; apply situation_looks|].
  intros d' Hst Hc Hk. assert (Hs' : stands t1 c0 d').
  { eapply stands_replaced; [exact Hs|done|done|]. unfold told. unfold is_pending in Hp. rewrite Hp. by left. }
  split; [by exists t1, c0|]. split_and!; [done..|by eapply fresh_kept].
Qed.

Lemma secure_save_version t1 t c d n :
  stands t1 c d -> version t -> brief t -> told (TX_Status t) c -> (recoverable t = true -> snapshot_is d c0) -> fresh_all d ->
  secure whole situation (savePanelNetworkTransaction configPath (tokens n) t) d
    (fun r d' => r = Ok tt /\ stands (json_copy t) c d' /\ fresh_all d').
Proof using All.
  intros Hs Hv Hb Ht Hr Hf. assert (Hi : situation d) by (by exists t1, c).
  assert (Hp := version_proper t Hv Hb). assert (Ei : TX_ID t = TX_ID b) by apply Hv.
  apply secure_save; [done|done|done| | |done|by intros a x ?; apply situation_looks|].
  - by eapply loaded_directory, Hs.
  - rewrite Ei. destruct (loaded_valid _ _ _ (Z_loaded _ _ _ Hs)) as (_ & _ & _ & m & data & E). by rewrite E.
  - rewrite Ei. intros d' Hl Hld Hk. assert (stands (json_copy t) c d') by (by eapply stands_saved).
    split; [by exists (json_copy t), c|]. split_and!; [done..|by eapply fresh_kept].
Qed.

Lemma secure_unneeded t1 t c d : stands t1 c d -> recoverable t1 = false -> version t ->
  secure whole situation (removePanelNetworkSnapshot configPath t) d (fun _ d' => stands t1 c d').
Proof using All.
  intros Hs Hr Hv. unfold removePanelNetworkSnapshot. rewrite version_snapshot by done.
  assert (Hi : situation d) by (by exists t1, c).
  apply secure_bind; [orderly|]. apply secure_attempt. unfold Remove at 1.
  destruct (Remove (snapshot_path configPath (TX_ID b)) (World d [])) as [r w] eqn:E.
  assert (Hw : faults w = []).
  { apply Remove_run in E as (_ & Hc & _); [by apply Hc|apply snapshot_path_ne]. }
  assert (Hs' : stands t1 c (tables w)).
  { apply Remove_run in E as (Ho & _); [|apply snapshot_path_ne]. by eapply stands_unneeded. }
  eapply secure_run with (t' := tables w); [by apply throughout_statement| |].
  - unfold Remove in E. rewrite E. destruct w as [tw fw]. cbn in Hw. by subst fw.
  - destruct r as [u|e]; [by apply secure_ret|]. destruct (is_not_exist e); [by apply secure_ret|by apply secure_fail].
Qed.

Lemma len_take_bytes n s : 0 <= n -> len (take_bytes n s) <= n.
Proof using Type.
  clear. intros Hn. unfold take_bytes, len. rewrite <- (Z2Nat.id n Hn) at 2. generalize (Z.to_nat n). clear. intros k.
  revert k. induction s as [|c s IH]; intros [|k]; cbn; try lia. specialize (IH k). lia.
Qed.

Lemma brief_truncated s : len (truncateNetworkTransactionError s) <= 1027.
Proof using Type.
  clear. unfold truncateNetworkTransactionError. cbv zeta. set (v := TrimSpace _). destruct (Z.leb_spec (len v) 1024); [lia|].
  rewrite len_app. assert (len (take_bytes 1024 v) <= 1024); [|change (len "…") with 3; lia].
  apply len_take_bytes. lia.
Qed.

(** *** With the host *)

Context {HT : Type} `{!Firewall.Host HT} `{!PanelHost HT}.
Abbreviation NS := (NetworkState HT).

Lemma secure_on_disk {A} (I : node -> Prop) (m : M node A) (s : NS) (Q : result A -> NS -> Prop) :
  secure whole I m (disk s) (fun r d => Q r (set_disk d s)) -> secure disk I (on_disk m) s Q.
Proof using Type. apply secure_zoom. done. Qed.

Lemma steady_on_disk {A} (m : M node A) : steady whole m -> steady (disk (H := HT)) (on_disk m).
Proof using Type. apply steady_zoom; done. Qed.

Lemma elsewhere_on_firewall {A} (m : M (FirewallState HT) A) : regular m -> elsewhere (disk (H := HT)) (on_firewall m).
Proof using Type. by apply elsewhere_zoom. Qed.

Lemma elsewhere_clock : elsewhere (disk (H := HT)) clock.
Proof using Type. split; [intros w r w' [= <- <-]; by exists []|by intros w r w' [= <- <-]]. Qed.

Lemma elsewhere_on_host {A} (f : HT -> A * HT) : elsewhere (disk (H := HT)) (on_host f).
Proof using Type.
  unfold on_host. split; intros w r w'.
  - destruct (f (panel_host (tables w))) as [a h] eqn:E. intros [= <- <-]. exists []. split; [done|]. intros _. cbn in *.
    by rewrite E.
  - destruct (f (panel_host (tables w))) as [a h]. by intros [= <- <-].
Qed.
#[local] Hint Resolve steady_on_disk elsewhere_on_firewall elsewhere_clock elsewhere_on_host : stops.

Lemma elsewhere_pause d : elsewhere (disk (H := HT)) (pause d).
Proof using Type. unfold pause. apart_from_view. Qed.

Lemma elsewhere_exec name args : elsewhere (disk (H := HT)) (exec name args).
Proof using Type. unfold exec. apart_from_view. Qed.

Lemma elsewhere_get url : elsewhere (disk (H := HT)) (get url).
Proof using Type. unfold get. apart_from_view. Qed.
#[local] Hint Resolve elsewhere_pause elsewhere_exec elsewhere_get : stops.

Lemma elsewhere_run_or_fail what name args : elsewhere (disk (H := HT)) (run_or_fail what name args).
Proof using Type. unfold run_or_fail. apart_from_view. Qed.

Lemma elsewhere_probe url : elsewhere (disk (H := HT)) (probe url).
Proof using Type. unfold probe. apart_from_view. Qed.
#[local] Hint Resolve elsewhere_run_or_fail elsewhere_probe : stops.

Lemma elsewhere_wait_rounds fuel url deadline last : elsewhere (disk (H := HT)) (wait_rounds fuel url deadline last).
Proof using Type. revert last. induction fuel as [|fuel IH]; intros last; cbn [wait_rounds]; apart_from_view. Qed.
#[local] Hint Resolve elsewhere_wait_rounds : stops.

Lemma elsewhere_wait config : elsewhere (disk (H := HT)) (waitForPanelReady config).
Proof using Type. unfold waitForPanelReady. apart_from_view. Qed.

Lemma elsewhere_wait_until t : elsewhere (disk (H := HT)) (wait_until t).
Proof using Type. unfold wait_until. apart_from_view. Qed.
#[local] Hint Resolve elsewhere_wait elsewhere_wait_until : stops.

Lemma elsewhere_rollback_rules ids : elsewhere (disk (H := HT)) (rollback_rules ids).
Proof using Type. induction ids as [|id ids IH]; cbn [rollback_rules]; apart_from_view. Qed.
#[local] Hint Resolve elsewhere_rollback_rules : stops.

Lemma elsewhere_rules t : elsewhere (disk (H := HT)) (rollbackPanelNetworkTransactionRules t).
Proof using Type. unfold rollbackPanelNetworkTransactionRules. apart_from_view. Qed.

Lemma elsewhere_restart_previous t : elsewhere (disk (H := HT)) (restart_previous t).
Proof using Type. unfold restart_previous, startPanelService. apart_from_view. Qed.

Lemma elsewhere_take_lock busy : elsewhere (disk (H := HT)) (take_lock busy).
Proof using Type. induction busy as [|busy IH]; cbn [take_lock]; apart_from_view. Qed.
#[local] Hint Resolve elsewhere_rules elsewhere_restart_previous elsewhere_take_lock : stops.

Lemma steady_save n t : steady whole (savePanelNetworkTransaction configPath (tokens n) t).
Proof using Type. unfold savePanelNetworkTransaction. orderly. Qed.

Lemma steady_removal t : steady whole (removePanelNetworkSnapshot configPath t).
Proof using Type. unfold removePanelNetworkSnapshot. orderly. Qed.

Lemma steady_restore n t : steady whole (restorePanelNetworkSnapshot configPath (tokens n) t).
Proof using Type. unfold restorePanelNetworkSnapshot, replacePanelConfigFile, readLimitedFile. orderly. Qed.

Lemma steady_limited path limit : steady whole (readLimitedFile path limit).
Proof using Type. unfold readLimitedFile. orderly. Qed.
#[local] Hint Resolve steady_save steady_removal steady_restore steady_limited : stops.

Lemma steady_load id : steady whole (loadPanelNetworkTransaction configPath id).
Proof using Type. unfold loadPanelNetworkTransaction. orderly. Qed.

Lemma elsewhere_read_config : elsewhere (disk (H := HT)) (read_config configPath).
Proof using Type.
  unfold read_config. split; [apply regular_zoom, steady_limited|]. intros w r w' (v & E & ->)%zoom_run. cbn.
  by apply readLimited_run in E as [-> _].
Qed.
#[local] Hint Resolve steady_load elsewhere_read_config : stops.

Lemma elsewhere_switch_over t : elsewhere (disk (H := HT)) (switch_over configPath t).
Proof using Type. unfold switch_over, restartPanelService. apart_from_view. Qed.
#[local] Hint Resolve elsewhere_switch_over : stops.

Lemma steady_rollback t reason restart : steady (disk (H := HT)) (rollbackPanelNetworkTransaction configPath tokens t reason restart).
Proof using Type. unfold rollbackPanelNetworkTransaction. orderly. Qed.
#[local] Hint Resolve steady_rollback : stops.

Lemma steady_apply_pending t : steady (disk (H := HT)) (apply_pending configPath tokens t).
Proof using Type. unfold apply_pending. orderly. Qed.
#[local] Hint Resolve steady_apply_pending : stops.

(** ** The pending transaction is found *)

Lemma HasSuffix_json id : HasSuffix (id +:+ ".json") ".json" = true.
Proof using Type.
  clear. induction id as [|c id IH]; [done|]. cbn [append HasSuffix]. rewrite IH. by rewrite orb_true_r.
Qed.

Lemma take_json id : take_bytes (len (id +:+ ".json") - 5) (id +:+ ".json") = id.
Proof using Type.
  clear. rewrite len_app. change (len ".json") with 5. replace (len id + 5 - 5) with (len id) by lia.
  unfold take_bytes, len. rewrite Nat2Z.id. induction id as [|c id IH]; [done|]. cbn. by rewrite IH.
Qed.

Lemma clean_load_each names d : exists l, load_each configPath names (World d []) = (Ok l, World d []) /\
  (forall t, In t l -> exists id, loaded d id = Some t) /\
  (forall id t, In (id +:+ ".json") names -> loaded d id = Some t -> In t l).
Proof using Type.
  induction names as [|name names (l & E & A1 & A2)]; [by exists []|]. cbn [load_each].
  destruct (HasSuffix name ".json") eqn:Hs; cbn [negb].
  - unfold bind at 1. unfold attempt at 1. destruct (clean_load (take_bytes (len name - 5) name) d) as (r & -> & Hr).
    cbn beta iota. unfold bind. rewrite E. unfold ret. eexists. split; [done|]. split.
    + destruct (loaded d _) as [t0|] eqn:El; [subst r|destruct r; [done|auto]].
      intros t [<-|Ht]; [by eexists|auto].
    + intros id t [->|Hin] Hl; [|destruct r; [right|]; by eapply A2].
      rewrite take_json, Hl in Hr. subst r. by left.
  - exists l. split_and!; [done..|]. intros id t [->|Hin]; [|by apply A2]. by rewrite HasSuffix_json in Hs.
Qed.

Lemma clean_list d m entries : node_at tdir d = Some (DirNode m entries) -> exists l,
  listPanelNetworkTransactions configPath (World d []) = (Ok l, World d []) /\
  (forall t, In t l -> exists id, loaded d id = Some t) /\
  (forall id t, loaded d id = Some t -> In t l).
Proof using absolute clean config_at.
  intros Hd. unfold listPanelNetworkTransactions, bind, attempt, ReadDir, statement, next_fault. cbn [faults tables].
  unfold at_path at 1. rewrite parts_directory, Hd. cbn beta iota.
  destruct (clean_load_each (entry_names entries) d) as (l & E & A1 & A2). cbn [faults]. rewrite E. unfold ret.
  eexists. split; [done|]. split.
  - intros t Ht. apply A1. eapply Permutation_in; [apply sort_slice_Permutation|done].
  - intros id t Hl. eapply Permutation_in; [symmetry; apply sort_slice_Permutation|]. apply (A2 id); [|done].
    apply loaded_valid in Hl as (Hv & _ & _ & m' & data & E'). unfold at_path in E'. rewrite parts_transaction in E' by done.
    rewrite node_at_app, Hd in E'. cbn [node_at] in E'. destruct (entries !! _) eqn:Ee; [|done].
    eapply listed_entry; [exact Ee|]. by apply plain_id_name.
Qed.

Lemma clean_pending d t c : stands t c d -> is_pending t = true ->
  latestPendingPanelNetworkTransaction configPath (World d []) = (Ok t, World d []).
Proof using absolute clean config_at.
  intros Hs Hp. destruct (loaded_directory _ _ _ (Z_loaded _ _ _ Hs)) as (m & e & Hd).
  destruct (clean_list d m e Hd) as (l & E & A1 & A2). unfold latestPendingPanelNetworkTransaction, bind. rewrite E.
  destruct (List.find is_pending l) as [t'|] eqn:Ef.
  - apply find_some in Ef as [Hin Hp']. destruct (A1 _ Hin) as [id Hl]. assert (Hl' := Hl).
    apply (Z_only _ _ _ Hs) in Hl' as ->; [|done]. rewrite (Z_loaded _ _ _ Hs) in Hl. by injection Hl as ->.
  - assert (Hin := A2 _ _ (Z_loaded _ _ _ Hs)). apply (find_none _ _ Ef) in Hin. congruence.
Qed.

(** Without a pending transaction none is found. *)
Lemma clean_none_pending d t c : stands t c d -> is_pending t = false ->
  latestPendingPanelNetworkTransaction configPath (World d []) =
    (Fail (Sentinel ErrNetworkTransactionNotFound), World d []).
Proof using absolute clean config_at.
  intros Hs Hp. destruct (loaded_directory _ _ _ (Z_loaded _ _ _ Hs)) as (m & e & Hd).
  destruct (clean_list d m e Hd) as (l & E & A1 & A2). unfold latestPendingPanelNetworkTransaction, bind. rewrite E.
  destruct (List.find is_pending l) as [t'|] eqn:Ef; [|done].
  apply find_some in Ef as [Hin Hp']. destruct (A1 _ Hin) as [id Hl]. assert (Hl' := Hl).
  apply (Z_only _ _ _ Hs) in Hl' as ->; [|done]. rewrite (Z_loaded _ _ _ Hs) in Hl. injection Hl as ->. congruence.
Qed.

Lemma elsewhere_load_each names : elsewhere whole (load_each configPath names).
Proof using Type.
  induction names as [|name names IH]; cbn [load_each]; [apply elsewhere_ret|]. destruct (negb _); [done|].
  apply elsewhere_bind; [|intros a; apply elsewhere_bind; [done|intros; apply elsewhere_ret]]. apply elsewhere_attempt.
  split; [apply steady_load|]. intros w r w' E. by apply load_run in E as [-> _].
Qed.

Lemma elsewhere_ReadDir path : elsewhere whole (ReadDir path).
Proof using Type.
  split; [apply regular_statement|]. intros w [a|e] w' E.
  - apply statement_Ok in E. destruct (at_path _ _) as [[]|]; [done| |done|done]. by injection E as _ <-.
  - by apply statement_Fail in E as [-> _].
Qed.

Lemma elsewhere_list : elsewhere whole (listPanelNetworkTransactions configPath).
Proof using Type.
  apply elsewhere_bind; [apply elsewhere_attempt, elsewhere_ReadDir|]. intros [names|e].
  - apply elsewhere_bind; [apply elsewhere_load_each|intros; apply elsewhere_ret].
  - destruct (is_not_exist e); apply elsewhere_fail.
Qed.

Lemma elsewhere_latest : elsewhere whole (latestPendingPanelNetworkTransaction configPath).
Proof using Type. apply elsewhere_bind; [apply elsewhere_list|]. intros l. destruct (List.find _ l); [apply elsewhere_ret|apply elsewhere_fail]. Qed.

(** ** Applying, recovering, completing *)

Abbreviation dsk := (disk (H := HT)).

Lemma situation_of t c d : stands t c d -> situation d.
Proof using Type. by exists t, c. Qed.

Lemma version_outcome t status text finished : version t -> validNetworkTransactionStatus status = true ->
  printable finished -> version (with_outcome status text finished t).
Proof using Type. intros (A1 & _ & A3 & _) Hs Hp. split; [done|]. split; [done|]. split; [done|]. by intros s [= <-]. Qed.

Lemma version_start t started : version t -> printable started -> version (with_start started t).
Proof using Type. intros (A1 & _ & _ & A4) Hp. split; [done|]. split; [done|]. split; [by intros s [= <-]|done]. Qed.

(** [clock]: a moment that can be stored. *)
Lemma secure_clock {A} (k : time -> M NS A) (s : NS) (Q : result A -> NS -> Prop) :
  (forall a, steady dsk (k a)) -> (forall now, printable now -> secure dsk situation (k now) s Q) ->
  secure dsk situation (bind clock k) s Q.
Proof using Type.
  intros Sk Hk. apply secure_bind; [done|]. split; [intros fs r w' Hs [= <- <-] _; by left|]. intros r w' [= <- <-].
  split; [done|]. apply Hk. assert (Hn := Now_range (panel_host s)). unfold printable, end_of_time in *. cbn [tables]. 
  assert (0 < Hour) by done. lia.
Qed.

Lemma secure_apart {A B} (m : M NS A) (k : A -> M NS B) s (Q : result B -> NS -> Prop) :
  (forall a, steady dsk (k a)) -> elsewhere dsk m -> situation (disk s) ->
  (forall a s', disk s' = disk s -> secure dsk situation (k a) s' Q) ->
  (forall e s', disk s' = disk s -> Q (Fail e) s') ->
  secure dsk situation (bind m k) s Q.
Proof using Type.
  intros Sk Hm Hi Hk Hf. apply secure_bind; [done|]. apply elsewhere_secure; [done|done|].
  intros [a|e] s' Hd; auto.
Qed.

Lemma secure_tried {A B} (m : M NS A) (k : result A -> M NS B) s (Q : result B -> NS -> Prop) :
  (forall a, steady dsk (k a)) -> elsewhere dsk m -> situation (disk s) ->
  (forall r s', disk s' = disk s -> secure dsk situation (k r) s' Q) ->
  secure dsk situation (bind (attempt m) k) s Q.
Proof using Type.
  intros Sk Hm Hi Hk. apply secure_bind; [done|]. apply secure_attempt, elsewhere_secure; [done|done|auto].
Qed.

(** What a rollback ends with. *)
Definition undone (r : result unit) (d : node) : Prop := exists t, stands t c0 d /\
  TX_Status t = if is_ok r then networkApplyStatusRolledBack else networkApplyStatusFailed.

(** The end of a rollback: the outcome is stored, and a snapshot that is not
    needed any more is removed. *)
Lemma secure_record t1 t s (ok : bool) text finished reason errs :
  stands t1 c0 (disk s) -> is_pending t1 = true -> version t -> fresh_all (disk s) -> printable finished ->
  len text <= 1027 -> let t' := with_outcome (if ok then networkApplyStatusRolledBack else networkApplyStatusFailed) text finished t in
  secure dsk situation
    (let* saved := attempt (on_disk (savePanelNetworkTransaction configPath (tokens 3%nat) t')) in
     let* _ := if ok then ignoring (on_disk (removePanelNetworkSnapshot configPath t')) else ret tt in
     match saved with
     | Fail err => fail (errors_Join reason (errs ++ [err]))
     | Ok _ => if ok then ret tt else fail (errors_Join reason errs)
     end) s (fun r s' => undone r (disk s')).
Proof using All.
  intros Hs Hp Hv Hf Hfin Hl t'. assert (Hv' : version t') by (apply version_outcome; [done|by destruct ok|done]).
  assert (Hst : TX_Status (json_copy t') = TX_Status t') by (apply status_ascii, Hv').
  apply secure_bind; [orderly|]. apply secure_attempt, secure_on_disk.
  eapply secure_impl; [apply (secure_save_version t1 t' c0); [done|done|done| | |done]|].
  { by destruct ok. }
  { intros _. by apply Hs, pending_recoverable. }
  intros r d2 (-> & Hs2 & Hf2). apply secure_bind; [orderly|]. destruct ok.
  - apply secure_ignoring, secure_on_disk. eapply secure_impl; [apply (secure_unneeded _ t' _ _ Hs2); [done|done]|].
    intros r2 d3 Hs3. apply secure_ret. eexists. split; [exact Hs3|]. by rewrite Hst.
  - apply secure_ret. apply secure_fail. eexists. split; [exact Hs2|]. by rewrite Hst.
Qed.

Lemma secure_rollback t1 t c s reason restart :
  stands t1 c (disk s) -> is_pending t1 = true -> version t -> fresh_all (disk s) ->
  secure dsk situation (rollbackPanelNetworkTransaction configPath tokens t reason restart) s
    (fun r s' => undone r (disk s')).
Proof using All.
  intros Hs Hp Hv Hf. unfold rollbackPanelNetworkTransaction.
  apply secure_bind; [orderly|]. apply secure_attempt, secure_on_disk.
  eapply secure_impl; [by eapply secure_restore|]. intros r1 d1 (-> & Hs1 & Hf1).
  apply secure_tried; [orderly|apply elsewhere_rules|by eapply situation_of|].
  intros unruled s2 Hd2. cbn [disk set_disk] in Hd2. rewrite <- Hd2 in Hs1, Hf1.
  apply secure_bind; [orderly|]. eapply secure_impl with (P := fun r s' => is_ok r = true /\ disk s' = disk s2).
  { destruct restart; [|by apply secure_ret]. apply secure_attempt, elsewhere_secure; [apply elsewhere_restart_previous|by eapply situation_of|done]. }
  intros [restarted|e] s3 [Hr Hd3]; [|done].
 rewrite <- Hd3 in Hs1, Hf1. apply secure_clock; [orderly|]. intros now Hn.
  apply (secure_record t1 t); try done. apply brief_truncated.
Qed.

Lemma config_unique d a c : config_is d a -> config_is d c -> a = c.
Proof using Type. intros [m E] [m' E']. rewrite E in E'. by injection E'. Qed.

Lemma stands_size t c d : stands t c d -> len c <= networkConfigSnapshotMaxBytes \/
  (is_pending t = false /\ TX_Status t = networkApplyStatusSucceeded).
Proof using base.
  intros [_ _ _ T _ _]. destruct (B_size base) as [B0 Bc]. unfold told in T. unfold is_pending.
  destruct (pending_status (TX_Status t)); [left; by destruct T as [->| ->]|].
  destruct (String.eqb_spec (TX_Status t) networkApplyStatusSucceeded); [by right|left; by subst].
Qed.

Lemma secure_read_config t c s (Q : result string -> NS -> Prop) :
  stands t c (disk s) -> is_pending t = true -> Q (Ok c) s -> secure dsk situation (read_config configPath) s Q.
Proof using base.
  intros Hs Hp Hq. destruct (Z_config _ _ _ Hs) as [m Hat].
  assert (Hl : len c <= networkConfigSnapshotMaxBytes).
  { destruct (stands_size _ _ _ Hs) as [|[Hx _]]; [done|congruence]. }
  unfold read_config. apply secure_on_disk. eapply secure_run; [|by apply (clean_readLimited _ _ _ _ _ Hat Hl)|by destruct s].
  unfold readLimitedFile. apply throughout_bind; [orderly|apply throughout_statement; by eapply situation_of|].
  intros a t2 _. destruct (_ <? _); [apply throughout_fail|apply throughout_ret].
Qed.

(** A transaction that is over, as [r] says. *)
Definition ended (r : result unit) (d : node) : Prop := exists t c, stands t c d /\
  (is_ok r = true -> TX_Status t = networkApplyStatusSucceeded \/ TX_Status t = networkApplyStatusRolledBack).

Lemma undone_ended r d : undone r d -> ended r d.
Proof using Type. intros (t & Hs & Ht). exists t, c0. split; [done|]. intros Hr. rewrite Hr in Ht. by right. Qed.

Lemma ended_situation r d : ended r d -> situation d.
Proof using Type. intros (t & c & Hs & _). by exists t, c. Qed.

Lemma in_place_told t c : version t -> is_pending t = true -> told (TX_Status t) c -> 
  candidate_in_place t (Ok c) = true /\ checksumHex c = checksumHex cand \/ candidate_in_place t (Ok c) = false /\ c = c0.
Proof using base.
  intros [(_ & _ & _ & _ & _ & _ & Ec & _) _] Hp Ht. cbn [candidate_in_place]. rewrite Ec, (B_candidate base).
  destruct (String.eqb_spec (checksumHex c) (checksumHex cand)) as [|Hne]; [by left|right]. split; [done|].
  unfold told in Ht. unfold is_pending in Hp. rewrite Hp in Ht. destruct Ht as [->| ->]; [done|by destruct Hne].
Qed.

Lemma told_succeeded c : checksumHex c = checksumHex cand -> told networkApplyStatusSucceeded c.
Proof using Type. done. Qed.

(** The new configuration answers, and the transaction has succeeded. *)
Lemma secure_success t1 t c s n finished (Q : result unit -> NS -> Prop) :
  stands t1 c (disk s) -> version t -> checksumHex c = checksumHex cand -> fresh_all (disk s) -> printable finished ->
  let t' := with_outcome networkApplyStatusSucceeded "" finished t in
  forall k : M NS unit, steady dsk k ->
  (forall s', stands (json_copy t') c (disk s') -> secure dsk situation k s' Q) ->
  secure dsk situation (bind (on_disk (savePanelNetworkTransaction configPath (tokens n) t')) (fun _ => k)) s Q.
Proof using All.
  intros Hs Hv Hc Hf Hn t' k Sk Hk. apply secure_bind; [done|]. apply secure_on_disk.
  eapply secure_impl; [apply (secure_save_version t1 t' c)|].
  - done.
  - by apply version_outcome.
  - done.
  - by apply told_succeeded.
  - done.
  - done.
  - intros r d (-> & Hs' & _). by apply Hk.
Qed.

Lemma secure_apply_pending t c s : stands t c (disk s) -> is_pending t = true -> fresh_all (disk s) ->
  secure dsk situation (apply_pending configPath tokens t) s (fun r s' => ended r (disk s')).
Proof using All.
  intros Hs Hp Hf. assert (Hv := Z_version _ _ _ Hs). unfold apply_pending.
  apply secure_bind; [orderly|]. apply secure_attempt. apply (secure_read_config t c); [done|done|].
  destruct (in_place_told t c Hv Hp (Z_told _ _ _ Hs)) as [[-> Hc]|[-> ->]]; cbn [negb].
  - apply secure_apart; [orderly|apply elsewhere_wait_until|by eapply situation_of| |].
    2: { intros e s' Hd. exists t, c. rewrite Hd. done. }
    intros _ s1 Hd1. rewrite <- Hd1 in Hs, Hf. apply secure_clock; [orderly|]. intros now Hn.
    set (t1 := with_start now t). assert (Hv1 : version t1) by (by apply version_start).
    apply secure_bind; [orderly|]. apply secure_on_disk. eapply secure_impl; [apply (secure_save_version t t1 c)|].
    { done. } { done. } { done. }
    { assert (Ht := Z_told _ _ _ Hs). unfold told, is_pending in *. rewrite Hp in Ht. done. }
    { intros _. by apply Hs, pending_recoverable. }
    { done. }
    intros r d2 (-> & Hs2 & Hf2). assert (Hp2 : is_pending (json_copy t1) = true) by (by vm_compute).
    apply secure_tried; [orderly|apply elsewhere_switch_over|by eapply situation_of|].
    intros applied s3 Hd3. cbn [disk set_disk] in Hd3. rewrite <- Hd3 in Hs2, Hf2. destruct applied as [u|err].
    + apply secure_clock; [orderly|]. intros fin Hfin. apply (secure_success _ t1 c _ 1 fin _ Hs2 Hv1 Hc Hf2 Hfin); [orderly|].
      intros s4 Hs4. apply secure_ignoring, secure_on_disk. eapply secure_impl;
        [apply (secure_unneeded _ _ _ _ Hs4); [by vm_compute|by apply version_outcome]|].
      intros r4 d4 Hs5. eexists _, _. split; [exact Hs5|]. by left.
    + eapply secure_impl; [by apply (secure_rollback (json_copy t1) t1 c)|]. intros r s4. apply undone_ended.
  - apply secure_clock; [orderly|]. intros fin Hfin. apply secure_bind; [orderly|]. apply secure_ignoring, secure_on_disk.
    set (t1 := with_outcome _ _ _ _). assert (Hv1 : version t1) by (by apply version_outcome).
    eapply secure_impl; [apply (secure_save_version t t1 c0)|].
    { done. } { done. } { by vm_compute. } { done. }
    { intros _. by apply Hs, pending_recoverable. }
    { done. }
    intros r d2 (-> & Hs2 & Hf2). apply secure_fail. eexists _, _. by split.
Qed.

Lemma secure_loaded {A} t c s (k : panelNetworkTransaction -> M NS A) (Q : result A -> NS -> Prop) :
  stands t c (disk s) -> (forall a, steady dsk (k a)) -> secure dsk situation (k t) s Q ->
  secure dsk situation (bind (on_disk (loadPanelNetworkTransaction configPath (TX_ID b))) k) s Q.
Proof using All.
  intros Hs Sk Hk. apply secure_bind; [done|]. apply secure_on_disk.
  destruct (clean_load (TX_ID b) (disk s)) as (r & E & Hr). rewrite (Z_loaded _ _ _ Hs) in Hr. subst r.
  eapply secure_run; [|exact E|by destruct s]. apply throughout_elsewhere; [apply steady_load| |by eapply situation_of].
  intros w r w' El. by apply load_run in El as [-> _].
Qed.

Lemma secure_apply t c s : stands t c (disk s) -> fresh_all (disk s) ->
  secure dsk situation (applyPanelNetworkTransaction configPath tokens (TX_ID b)) s (fun r s' => ended r (disk s')).
Proof using All.
  intros Hs Hf. unfold applyPanelNetworkTransaction. apply (secure_loaded t c); [done|orderly|].
  destruct (_ || _) eqn:Ho.
  - apply secure_ret. exists t, c. split; [done|]. intros _.
    apply orb_true_iff in Ho as [Ho%String.eqb_eq|Ho%String.eqb_eq]; auto.
  - destruct (is_pending t) eqn:Hp; cbn [negb].
    + by apply (secure_apply_pending t c).
    + apply secure_fail. by exists t, c.
Qed.

Lemma secure_pending t c s {A} (k : option panelNetworkTransaction -> M NS A) (Q : result A -> NS -> Prop) :
  stands t c (disk s) -> (forall a, steady dsk (k a)) ->
  secure dsk situation (k (if is_pending t then Some t else None)) s Q ->
  secure dsk situation (bind (pending_or_none configPath) k) s Q.
Proof using All.
  intros Hs Sk Hk. apply secure_bind; [done|]. unfold pending_or_none. apply secure_bind; [orderly|].
  apply secure_attempt, secure_on_disk. destruct (is_pending t) eqn:Hp.
  - eapply secure_run; [|by apply (clean_pending _ _ _ Hs)|].
    + apply throughout_elsewhere; [apply elsewhere_latest|apply elsewhere_latest|by eapply situation_of].
    + apply secure_ret. by destruct s.
  - eapply secure_run; [|by apply (clean_none_pending _ _ _ Hs)|].
    + apply throughout_elsewhere; [apply elsewhere_latest|apply elsewhere_latest|by eapply situation_of].
    + apply secure_ret. by destruct s.
Qed.

Lemma steady_pending : steady dsk (pending_or_none configPath).
Proof using Type.
  unfold pending_or_none. apply steady_bind; [|intros; orderly]. apply steady_attempt, steady_on_disk.
  apply elsewhere_steady, elsewhere_latest.
Qed.
#[local] Hint Resolve steady_pending : stops.

(** A recovery puts the former configuration back. *)
Definition recovered (t : panelNetworkTransaction) (r : result unit) (d d' : node) : Prop :=
  if is_pending t then undone r d' else r = Ok tt /\ d' = d.

Lemma secure_recover t c s : stands t c (disk s) -> fresh_all (disk s) ->
  secure dsk situation (recoverPendingPanelNetworkTransaction configPath tokens) s (fun r s' => recovered t r (disk s) (disk s')).
Proof using All.
  intros Hs Hf. unfold recoverPendingPanelNetworkTransaction. apply (secure_pending t c); [done|orderly|]. unfold recovered.
  destruct (is_pending t) eqn:Hp; [|by apply secure_ret].
  eapply secure_impl; [apply (secure_rollback t t c s); [done|done|apply Hs|done]|]. done.
Qed.

Lemma secure_finalize t c s : stands t c (disk s) -> fresh_all (disk s) ->
  secure dsk situation (finalizePendingPanelNetworkTransaction configPath tokens) s (fun r s' => situation (disk s')).
Proof using All.
  intros Hs Hf. assert (Hv := Z_version _ _ _ Hs). unfold finalizePendingPanelNetworkTransaction.
  apply (secure_pending t c); [done|orderly|]. destruct (is_pending t) eqn:Hp; [|apply secure_ret; by eapply situation_of].
  apply secure_bind; [orderly|]. apply (secure_read_config t c); [done|done|].
  destruct (in_place_told t c Hv Hp (Z_told _ _ _ Hs)) as [[-> Hc]|[-> ->]]; cbn [negb];
    [|apply secure_ret; by eapply situation_of].
  apply secure_clock; [orderly|]. intros fin Hfin.
  apply (secure_success _ t c _ 1 fin _ Hs Hv Hc Hf Hfin); [orderly|].
  intros s4 Hs4. apply secure_on_disk. eapply secure_impl;
    [apply (secure_unneeded _ _ _ _ Hs4); [by vm_compute|by apply version_outcome]|].
  intros r d'. apply situation_of.
Qed.

(** *** Under the lock *)

Definition lock_path : string := PathJoin [directory; ".lock"].

Lemma parts_lock : parts lock_path = tdir ++ [".lock"].
Proof using absolute clean config_at. by apply parts_in_directory. Qed.

Lemma lock_apart_config : apart (parts configPath) (parts lock_path) = true.
Proof using All. rewrite config_at, parts_lock by done. unfold tdir. rewrite <- app_assoc. by apply apart_branch. Qed.

Lemma lock_looks d d' : only_at lock_path d d' -> looks [] d d'.
Proof using All.
  intros Ho. split; [|intros id Hv _|intros id Hv]; apply Ho; [by apply lock_apart_config| |];
    rewrite parts_lock, ?parts_transaction, ?parts_snapshot by done; apply apart_siblings; by apply dot_name.
Qed.

Lemma lock_fresh d d' : only_at lock_path d d' -> fresh_all d -> fresh_all d'.
Proof using All.
  intros Ho Hf n. destruct (good_tokens n) as [Ht _], (Hf n) as [F1 F2]. split; [rewrite <- F1|rewrite <- F2]; apply Ho.
  - rewrite parts_transaction_temp, parts_lock by done. by apply apart_siblings.
  - rewrite apart_sym, parts_lock. by apply config_temp_apart.
Qed.

Lemma secure_locked busy (m : M NS unit) t c s (Q : result unit -> NS -> Prop) :
  stands t c (disk s) -> fresh_all (disk s) -> steady dsk m ->
  (forall e s', only_at lock_path (disk s) (disk s') -> Q (Fail e) s') ->
  (forall s', only_at lock_path (disk s) (disk s') -> stands t c (disk s') -> fresh_all (disk s') -> secure dsk situation m s' Q) ->
  secure dsk situation (withPanelNetworkTransactionLock configPath busy m) s Q.
Proof using All.
  intros Hs Hf Sm Hq Hm. unfold withPanelNetworkTransactionLock.
  assert (So : forall path mode, steady whole (OpenCreate path mode)) by (intros; apply steady_change).
  destruct (loaded_directory _ _ _ (Z_loaded _ _ _ Hs)) as (m0 & e0 & Hd).
  apply secure_bind; [orderly|]. apply secure_on_disk. eapply secure_run.
  { apply throughout_statement. by eapply situation_of. }
  { apply (clean_MkdirAll _ _ _ m0 e0). by rewrite parts_directory. }
  cbn beta iota. replace (set_disk (disk s) s) with s by (by destruct s).
  apply secure_bind; [orderly|]. apply secure_on_disk. fold lock_path.
  destruct (OpenCreate lock_path 384 (World (disk s) [])) as [r w] eqn:E. assert (E' := E). unfold OpenCreate in E'.
  assert (Ho : only_at lock_path (disk s) (tables w)) by (by apply change_only in E').
  assert (Hw : faults w = []) by (eapply statement_calm; [exact E'|done]).
  assert (Hs1 : stands t c (tables w)) by (eapply stands_looks; [by apply lock_looks|done]).
  assert (Hf1 : fresh_all (tables w)) by (by eapply lock_fresh).
  eapply secure_run with (t' := tables w); [apply throughout_statement; by eapply situation_of|rewrite E; destruct w; cbn in Hw; by subst|].
  destruct r as [u|e]; [|by apply Hq]. apply secure_apart; [done|apply elsewhere_take_lock|by eapply situation_of| |].
  - intros [] s2 Hd2. cbn [disk set_disk] in Hd2. apply Hm; by rewrite Hd2.
  - intros e s2 Hd2. apply Hq. cbn [disk set_disk] in Hd2. by rewrite Hd2.
Qed.

Lemma steady_apply id : steady dsk (applyPanelNetworkTransaction configPath tokens id).
Proof using Type. unfold applyPanelNetworkTransaction. orderly. Qed.

Lemma steady_recover : steady dsk (recoverPendingPanelNetworkTransaction configPath tokens).
Proof using Type. unfold recoverPendingPanelNetworkTransaction. orderly. Qed.

Lemma steady_finalize : steady dsk (finalizePendingPanelNetworkTransaction configPath tokens).
Proof using Type. unfold finalizePendingPanelNetworkTransaction. orderly. Qed.
End paths.

#[export] Hint Resolve steady_apply steady_recover steady_finalize : stops.
