(* ===== verification/NetworkRecovery.v ===== *)
(** Changes of the network access that are interrupted ([NetworkTransaction]):
    the runs that apply, recover and complete a transaction may stop anywhere,
    any number of times, and a recovery puts the former configuration back. The
    wait for the panel ends, and ends well only with an answer. *)

From stdpp Require Import gmap strings sorting options relations.
From S2P Require Import Prelude GoStrings GoText Lines GoCrypto GoNet GoPath Store Stops GoFiles Credential.
From S2P Require Import FirewallRule Firewall FirewallHosts PanelNetwork NetworkTransaction NetworkSafety.
#[local] Open Scope Z_scope.

(** ** Waiting for the panel *)

Section waiting.
Context {H : Type} `{!Firewall.Host H} `{!PanelHost H} `{!UnicodeCase}.
Abbreviation NS := (NetworkState H).

Definition time_of (w : world NS) : time := Now (panel_host (tables w)).

Lemma on_host_run {A} (f : H -> A * H) w r w' : on_host f w = (r, w') ->
  r = Ok (f (panel_host (tables w))).1 /\ panel_host (tables w') = (f (panel_host (tables w))).2.
Proof. unfold on_host. destruct (f _) as [a h]. by intros [= <- <-]. Qed.

Lemma ctx_run (w : world NS) r w' : ctx_Err w = (r, w') -> tables w' = tables w.
Proof.
  unfold ctx_Err, statement, next_fault. destruct (faults w) as [|[s|] fs]; by intros [= <- <-].
Qed.

Lemma probe_run url w r w' : probe (H := H) url w = (r, w') -> time_of w <= time_of w' /\
  (r = Ok None -> exists h h', HTTPGet url h = (Ok 200, h')).
Proof.
  unfold probe, bind, exec. destruct (on_host _ w) as [r1 w1] eqn:E1. apply on_host_run in E1 as [-> E1]. unfold time_of.
  assert (L1 := Now_Exec "systemctl" ["is-active"; "--quiet"; panelServiceUnit] (panel_host (tables w))).
  destruct (Exec "systemctl" _ _) as [[[e|] out] h1]; cbn [fst snd] in *.
  { intros [= <- <-]. split; [by rewrite E1|done]. }
  unfold get. destruct (on_host _ w1) as [r2 w2] eqn:E2. apply on_host_run in E2 as [-> E2].
  assert (L2 := Now_HTTPGet url (panel_host (tables w1))). rewrite <- E1 in L1.
  destruct (HTTPGet url (panel_host (tables w1))) as [[status|e] h2] eqn:E; intros [= <- <-]; cbn [fst snd] in *;
    (split; [rewrite E2; lia|]); [|done].
  destruct (Z.eqb_spec status 200) as [->|]; [|done]. eauto.
Qed.

Lemma pause_run d w r w' : 0 <= d -> pause (H := H) d w = (r, w') ->
  is_ok r = true -> Z.min (time_of w + d) (end_of_time - 1) <= time_of w'.
Proof.
  intros Hd. unfold pause, bind. destruct (ctx_Err w) as [[[]|e] w1] eqn:E1; [|by intros [= <- <-]].
  apply ctx_run in E1. intros E2. apply on_host_run in E2 as [-> E2]. intros _. unfold time_of. rewrite E2, <- E1. cbn.
  by apply Now_Sleep.
Qed.

(** Half a second of fuel for every half second until the deadline. *)
Lemma wait_rounds_enough url deadline k : deadline < end_of_time -> forall fuel last w,
  deadline <= time_of w + Z.of_nat k * (Second / 2) -> (k <= fuel)%nat ->
  wait_rounds (H := H) fuel url deadline last w = wait_rounds k url deadline last w.
Proof.
  intros Hend. induction k as [|k IH]; intros fuel last w Hk Hf.
  - assert (Hb : Before (time_of w) deadline = false) by (apply Z.ltb_ge; lia).
    unfold time_of in Hb. destruct fuel; cbn [wait_rounds]; unfold bind, clock; by rewrite Hb.
  - destruct fuel as [|fuel]; [lia|]. cbn [wait_rounds]. unfold bind, clock. destruct (negb _); [done|].
    destruct (ctx_Err w) as [[[]|e] w1] eqn:E1; [|done]. apply ctx_run in E1.
    destruct (probe url w1) as [[[err|]|e] w2] eqn:E2; [|done|done]. apply probe_run in E2 as [L2 _].
    destruct (pause (Second / 2) w2) as [[[]|e] w3] eqn:E3; [|done]. apply pause_run in E3; [|done|done].
    apply IH; [|lia]. unfold time_of in *. rewrite E1 in L2.
    change (Second / 2) with 500000000 in *. lia.
Qed.

Lemma wait_rounds_ready fuel url deadline last w w' : wait_rounds (H := H) fuel url deadline last w = (Ok tt, w') ->
  exists h h', HTTPGet url h = (Ok 200, h').
Proof.
  revert last w. induction fuel as [|fuel IH]; intros last w; cbn [wait_rounds]; unfold bind, clock;
    (destruct (negb _); [done|]); destruct (ctx_Err w) as [[[]|e] w1]; try done;
    (destruct (probe url w1) as [[[err|]|e] w2] eqn:E2; [|by apply probe_run in E2 as [_ Ha]; intros _; auto|done]);
    destruct (pause _ w2) as [[[]|e] w3]; try done. apply IH.
Qed.

Lemma wait_rounds_calm fuel url deadline last w r w' : wait_rounds (H := H) fuel url deadline last w = (r, w') ->
  faults w = [] -> faults w' = [].
Proof.
  intros E Hf. assert (Hr : regular (wait_rounds (H := H) fuel url deadline last)) by apply elsewhere_wait_rounds.
  apply Hr in E as (l & E & _). rewrite Hf in E. symmetry in E. by apply app_eq_nil in E as [_ ->].
Qed.

(** C14: Waiting for the panel ends before its fuel does: from every state in
    which the clock still has the 45 seconds of the timeout before it, more
    fuel than the 90 rounds changes nothing. It ends well only when the
    readiness address of the configuration has answered 200. *)
Theorem waitForPanelReady_ends config w :
  time_of w + networkApplyTimeout < end_of_time ->
  (forall more, wait_rounds (rounds + more) (localPanelHealthURL config)
     (time_of w + networkApplyTimeout) None w = waitForPanelReady (H := H) config w) /\
  (forall w', waitForPanelReady config w = (Ok tt, w') ->
     exists h h', HTTPGet (localPanelHealthURL config) h = (Ok 200, h')).
Proof.
  intros Hend. split.
  - intros more. rewrite (wait_rounds_enough _ _ rounds); [done|done| |lia]. unfold time_of, rounds.
    rewrite Z2Nat.id by done. change (networkApplyTimeout / (Second / 2) * (Second / 2)) with networkApplyTimeout. lia.
  - intros w'. unfold waitForPanelReady, bind, clock. apply wait_rounds_ready.
Qed.
End waiting.

(** ** Interrupted runs *)

Inductive operation := Applying | Recovering | Finalizing.

Section recovery.
Context {HT : Type} `{!Firewall.Host HT} `{!PanelHost HT} `{!UnicodeCase} `{!TransactionJSON}.
Abbreviation NS := (NetworkState HT).
Variable configPath : string.
Variables (croot : list string) (cname : string).
Hypothesis absolute : IsAbs configPath = true.
Hypothesis clean : Clean configPath = configPath.
Hypothesis config_at : parts configPath = croot ++ [cname].
Hypothesis not_data : cname <> "data".

Variables (c0 cand : string) (b : panelNetworkTransaction).
Hypothesis base : created c0 cand b.

(** The processes that work on the transaction: the unit that applies it, the
    one that recovers after a failed start, and the panel that has started. *)
Definition perform (o : operation) (busy : nat) (tokens : nat -> string) : M NS unit :=
  match o with
  | Applying => ApplyPanelNetworkTransaction configPath busy tokens (TX_ID b)
  | Recovering => RecoverPendingPanelNetworkTransaction configPath busy tokens
  | Finalizing => FinalizePendingPanelNetworkTransaction configPath busy tokens
  end.

(** Names for temporary files that are not in use. *)
Definition unused (tokens : nat -> string) (d : node) : Prop :=
  (forall n, good_token cname (tokens n)) /\ (forall n, fresh configPath d (tokens n)).

(** A process runs to its end without faults, or the machine stops on the way. *)
Inductive run_of (d d' : node) : Prop :=
| Run_of o busy tokens (s : NS) fs r w' :
    disk s = d -> unused tokens d -> stopping fs -> (fs = [] \/ faults w' <> []) ->
    perform o busy tokens (World s fs) = (r, w') -> disk (tables w') = d' -> run_of d d'.

Lemma secure_perform o busy tokens s : unused tokens (disk s) -> situation configPath c0 cand b (disk s) ->
  secure (disk (H := HT)) (situation configPath c0 cand b) (perform o busy tokens) s
    (fun r s' => situation configPath c0 cand b (disk s')).
Proof using All.
  intros [Hg Hf] (t & c & Hs).
  assert (Hl : forall d', only_at (lock_path configPath) (disk s) d' -> situation configPath c0 cand b d').
  { intros d' Ho. exists t, c. eapply stands_looks; [..|exact Hs]; try done. by eapply lock_looks. }
  destruct o; unfold perform, ApplyPanelNetworkTransaction, RecoverPendingPanelNetworkTransaction,
    FinalizePendingPanelNetworkTransaction;
    (eapply secure_locked; [done..|exact Hs|exact Hf|auto with stops|by auto|]); intros s1 _ Hs1 Hf1.
  - eapply secure_impl; [by eapply secure_apply|]. intros r s2. apply ended_situation.
  - eapply secure_impl; [by eapply secure_recover|]. intros r s2. unfold recovered. destruct (is_pending t).
    + intros Hu. by eapply ended_situation, undone_ended.
    + intros [_ ->]. by exists t, c.
  - by eapply secure_finalize.
Qed.

(** Runs that stop anywhere leave a situation that a further run can start from. *)
Lemma run_situation d d' : run_of d d' -> situation configPath c0 cand b d -> situation configPath c0 cand b d'.
Proof using All.
  intros [o busy tokens s fs r w' <- Hu Hs Hl E <-] Hi. assert (Hp := secure_perform o busy tokens s Hu Hi).
  destruct Hl as [Hl|Hl]; [subst fs; by apply Hp in E as [_ E]|].
  by destruct (secure_outcome _ _ _ _ _ _ _ _ Hp Hs E Hl).
Qed.

Lemma runs_situation d d' : rtc run_of d d' -> situation configPath c0 cand b d -> situation configPath c0 cand b d'.
Proof using All. induction 1 as [|x y z Hxy _ IH]; [done|]. intros Hx. by apply IH, (run_situation x). Qed.

(** C12: However often the processes that apply, recover and complete a change of
    the network access are run and stopped by a failing machine, the stored
    transaction tells the truth: while it is pending, the configuration is the
    former or the new one and the snapshot of the former one is there; when it
    has succeeded, the configuration is the new one by its checksum; when it has
    been rolled back or has failed, it is the former one. A recovery that runs
    to its end without faults then puts the former configuration back, and says
    so. *)
Theorem interrupted_change_recovers d d' t1 c1 : stands configPath c0 cand b t1 c1 d -> rtc run_of d d' ->
  exists t c, loaded configPath d' (TX_ID b) = Some t /\ config_is configPath d' c /\ told c0 cand (TX_Status t) c /\
    (recoverable t = true -> snapshot_is configPath b d' c0) /\
    (is_pending t = true -> forall tokens (s : NS) r w', disk s = d' -> unused tokens d' ->
       recoverPendingPanelNetworkTransaction configPath tokens (World s []) = (r, w') ->
       config_is configPath (disk (tables w')) c0 /\
       exists t', loaded configPath (disk (tables w')) (TX_ID b) = Some t' /\
         TX_Status t' = if is_ok r then networkApplyStatusRolledBack else networkApplyStatusFailed).
Proof using All.
  intros Hd Hr. destruct (runs_situation d d' Hr) as (t & c & Hs); [by exists t1, c1|].
  exists t, c. assert (Hs' := Hs). destruct Hs' as [L V C T S O]. split_and!; [done..|].
  intros Hp tokens s r w' <- [Hg Hf] E.
  assert (Hrec := secure_recover configPath croot cname absolute clean config_at not_data c0 cand b base tokens Hg t c s Hs Hf).
  apply Hrec in E as [_ E]. unfold recovered in E. rewrite Hp in E. destruct E as (t' & [L' _ C' _ _ _] & Ht').
  split; [done|]. by exists t'.
Qed.
End recovery.

(** ** What the outcome of an application says *)

Section outcome.
Context {HT : Type} `{!Firewall.Host HT} `{!PanelHost HT} `{!UnicodeCase} `{!TransactionJSON}.
Variable configPath : string.
Variables (croot : list string) (cname : string).
Hypothesis absolute : IsAbs configPath = true.
Hypothesis clean : Clean configPath = configPath.
Hypothesis config_at : parts configPath = croot ++ [cname].
Hypothesis not_data : cname <> "data".
Variables (c0 cand : string) (b : panelNetworkTransaction).
Hypothesis base : created c0 cand b.

(** C13: An application that no call of the system disturbs, whatever the panel
    service, its health address and the firewall do, either reports success
    and leaves the new configuration with the status succeeded or the former
    one with the status rolled back, or reports an error and leaves a stored
    transaction that agrees with the configuration in place. *)
Theorem apply_outcome t1 c1 tokens (s : NetworkState HT) r w' :
  stands configPath c0 cand b t1 c1 (disk s) -> unused configPath cname tokens (disk s) ->
  applyPanelNetworkTransaction configPath tokens (TX_ID b) (World s []) = (r, w') ->
  exists t c, loaded configPath (disk (tables w')) (TX_ID b) = Some t /\ config_is configPath (disk (tables w')) c /\
    told c0 cand (TX_Status t) c /\
    (r = Ok tt -> TX_Status t = networkApplyStatusSucceeded /\ checksumHex c = TX_CandidateSHA256 b \/
                  TX_Status t = networkApplyStatusRolledBack /\ c = c0).
Proof using All.
  intros Hs [Hg Hf] E. assert (Ha := secure_apply configPath croot cname absolute clean config_at not_data c0 cand b base tokens Hg t1 c1 s Hs Hf).
  apply Ha in E as [_ (t & c & [L V C T S O] & Ho)]. exists t, c. split_and!; [done..|]. intros ->.
  rewrite (B_candidate _ _ _ base). unfold told in T. by destruct (Ho eq_refl) as [E|E]; rewrite E in *; [left|right].
Qed.
End outcome.

(** ** A change of a concrete panel *)

Section witnesses.
#[local] Existing Instance latin1_case.

(** A machine with a clock, and a panel that answers at port 8089, and elsewhere or not. *)
Record demo_machine := mkDemo { demo_now : time; demo_healthy : bool }.

#[local] Instance demo_firewall : Firewall.Host demo_machine := {
  LookPath _ _ := false;
  Run _ _ h := (Fail (ErrorString "not found"), h);
  ReadBeforeRules _ := Fail (ErrorString "no file");
  StatBeforeRules _ := Some (ErrorString "no file");
  WriteBeforeRules _ h := (Some (ErrorString "no file"), h)
}.

Definition read_clock (h : demo_machine) : time := Z.max 0 (Z.min (demo_now h) (end_of_time - 1)).

#[local] Program Instance demo_host : PanelHost demo_machine := {
  Now := read_clock;
  Sleep d h := mkDemo (read_clock h + d) (demo_healthy h);
  Listen _ _ := None;
  Exec _ _ h := ((None, ""), h);
  HTTPGet url h := (Ok (if demo_healthy h || Contains url ":8089/" then 200 else 503), h)
}.
Next Obligation. intros h. unfold read_clock. assert (0 < end_of_time) by done. lia. Qed.
Next Obligation. intros d h Hd. unfold read_clock. cbn [demo_now]. assert (0 < end_of_time) by done. lia. Qed.
Next Obligation. done. Qed.
Next Obligation. done. Qed.

(** What no step of a transaction changes, and the rest. *)
Definition config_fields (c : PanelConfig) : list (Z + string) :=
  [inr (BindAddress c); inr (HTTPPort c); flag (HTTPSEnabled c); inr (HTTPSPort c); inr (CertificateFile c);
   inr (PrivateKeyFile c); inr (bits_of (encode (TrustedProxies c)))].

Definition base_fields (t : panelNetworkTransaction) : list (Z + string) :=
  [inr (TX_ID t); inl (TX_CreatedAt t); inl (TX_NotBefore t)] ++ config_fields (TX_Previous t)
  ++ config_fields (TX_Candidate t) ++ [inr (TX_PreviousSHA256 t); inr (TX_CandidateSHA256 t);
    inr (bits_of (encode (TX_PreparedRuleIDs t))); inr (TX_PreviousFileName t)].

Definition moment (o : option time) : Z + string := inl (default (-1) o).
Definition moment_of (z : Z) : option time := if z <? 0 then None else Some z.

Definition outcome_fields (t : panelNetworkTransaction) : list (Z + string) :=
  [inr (TX_Status t); inr (TX_Error t); moment (TX_StartedAt t); moment (TX_FinishedAt t)].

Definition transaction_fields (t : panelNetworkTransaction) : list (Z + string) := outcome_fields t ++ base_fields t.

Definition bits_strings (s : string) : list string := default [] (decode (of_bits s)).
Definition bits_numbers (s : string) : list Z := default [] (decode (of_bits s)).

Definition fields_transaction (l : list (Z + string)) : option panelNetworkTransaction :=
  match l with
  | [inr status; inr text; inl started; inl finished; inr id; inl created; inl notBefore;
     inr a1; inr a2; inl a3; inr a4; inr a5; inr a6; inr a7; inr b1; inr b2; inl b3; inr b4; inr b5; inr b6; inr b7;
     inr s1; inr s2; inr rules; inr name] =>
      Some (mkTransaction id status text created notBefore (moment_of started) (moment_of finished)
        (mkPanelConfig a1 a2 (a3 =? 1) a4 a5 a6 (bits_strings a7)) (mkPanelConfig b1 b2 (b3 =? 1) b4 b5 b6 (bits_strings b7))
        s1 s2 (bits_numbers rules) name)
  | _ => None
  end.

Lemma fields_transaction_fields t : storable t -> fields_transaction (transaction_fields t) = Some t.
Proof.
  intros (_ & _ & H1 & H2).
  destruct t as [? ? ? ? ? started finished [? ? f ? ? ? p] [? ? g ? ? ? q] ? ? ids ?]. cbn in H1, H2.
  assert (Hm : forall o, (forall s, o = Some s -> printable s) -> moment_of (default (-1) o) = o).
  { intros [z|] Hz; [|done]. unfold moment_of. cbn. destruct (Hz z eq_refl) as [Hz0 _]. by rewrite (proj2 (Z.ltb_ge _ _)). }
  assert (Hf : forall x, (Z.b2z x =? 1) = x) by (by intros []).
  unfold transaction_fields, outcome_fields, base_fields, config_fields, flag, moment. cbn -[encode decode].
  unfold bits_strings, bits_numbers. rewrite !of_bits_of, !decode_encode, !Hm, !Hf by done. done.
Qed.

Definition write_transaction (t : panelNetworkTransaction) : string := fields_line (transaction_fields t).

Definition read_transaction (s : string) : result panelNetworkTransaction :=
  match line_fields s with
  | Some l => match fields_transaction l with Some t => Ok (json_copy t) | None => Fail (ErrorString "invalid") end
  | None => Fail (ErrorString "invalid")
  end.

Lemma read_written t : storable t -> read_transaction (write_transaction t +:+ str1 "010") = Ok (json_copy t).
Proof. intros Ht. unfold read_transaction, write_transaction. by rewrite line_fields_line, fields_transaction_fields. Qed.

#[local] Program Instance demo_transactions : TransactionJSON := {
  encode_transaction t := Ok (write_transaction t);
  decode_transaction := read_transaction
}.
Next Obligation. intros t Ht. exists (write_transaction t). split; [done|]. by apply read_written. Qed.

Definition demo_path : string := "/one/config.yaml".
Definition demo_id : string := "0123456789abcdef0123456789abcdef".
Definition demo_config (port : string) : PanelConfig := mkPanelConfig "" port false "" "" "" [].

Definition demo_transaction : panelNetworkTransaction :=
  mkTransaction demo_id networkApplyStatusScheduled "" 100 200 None None (demo_config "8089") (demo_config "9000")
    (checksumHex "old") (checksumHex "new") [] (snapshot_name demo_id).

Definition demo_disk : node :=
  let stored := match encode_transaction demo_transaction with Ok text => text +:+ str1 "010" | Fail _ => "" end in
  DirNode 493 {["one" := DirNode 493 {["config.yaml" := FileNode 384 "new";
    "data" := DirNode 448 {["network-transactions" := DirNode 448
      {[demo_id +:+ ".json" := FileNode 384 stored; snapshot_name demo_id := FileNode 384 "old"]}]}]}]}.

Definition demo_state (healthy : bool) : NetworkState demo_machine :=
  mkNetwork demo_disk (Firewall.mkFirewall [] 0 [] 0 [] [] (mkDemo 1000 healthy))
    (mkManaged (demo_config "8089") false "").

Definition demo_tokens (n : nat) : string := "7".

Lemma demo_moment (o : option time) : (forall s, o = Some s -> printable s) -> len (field_string (moment o)) <= 71.
Proof.
  intros Ho. unfold moment, field_string, len. cbn [String.length]. rewrite Nat2Z.inj_succ.
  enough (String.length (bits_of (encode (default (-1)%Z o))) <= 70)%nat by lia.
  apply length_bits. destruct o as [z|]; [|done]. cbn [default].
  assert (Hz : 0 <= z < last_time) by (by apply Ho). assert (Hl : last_time < 2 ^ 69) by done.
  destruct z as [|p|p]; [done| |lia]. change (Z.pos p~0 < 2 ^ 70). lia.
Qed.

Lemma status_short s : validNetworkTransactionStatus s = true -> len s <= 20.
Proof. intros (x & Hx & <-%String.eqb_eq)%existsb_exists. cbn in Hx. by repeat destruct Hx as [<-|Hx]. Qed.

Lemma base_short : len (fields_line (base_fields demo_transaction)) <= 20000.
Proof. apply Z.leb_le. vm_compute. reflexivity. Qed.

Lemma demo_created : created "old" "new" demo_transaction.
Proof.
  split; try done.
  intros t (E1 & E2 & E3 & E4 & E5 & E6 & E7 & E8 & E9) Hst (_ & _ & H1 & H2) Hb text E.
  assert (text = write_transaction t) as ->.
  { change (Ok (write_transaction t) = Ok text) in E. congruence. }
  unfold write_transaction.
  assert (Eb : base_fields t = base_fields demo_transaction)
    by (unfold base_fields; by rewrite E1, E2, E3, E4, E5, E6, E7, E8, E9).
  apply demo_moment in H1, H2. apply status_short in Hst. assert (Hk := base_short). unfold transaction_fields. rewrite Eb.
  rewrite length_fields_line in Hk |- *. unfold outcome_fields. cbn [app fold_right]. revert Hk.
  generalize (fold_right (fun f k => 2 * len (field_string f) + 1 + k) 0 (base_fields demo_transaction)). intros n Hn.
  assert (Hc : forall s, len (field_string (inr s)) = len s + 1) by (intros s; unfold field_string, len; cbn [String.length]; lia).
  rewrite !Hc. unfold brief in Hb. unfold networkTransactionMaxBytes. lia.
Qed.

Lemma demo_unused : unused demo_path "config.yaml" demo_tokens demo_disk.
Proof. split; intros n; split; [done|done|vm_compute; reflexivity|vm_compute; reflexivity]. Qed.

Lemma demo_loaded id t : loaded demo_path demo_disk id = Some t -> id = demo_id.
Proof.
  intros Hl. apply loaded_valid in Hl as (Hv & _ & _ & m & data & E). unfold at_path in E.
  rewrite (parts_transaction demo_path ["one"] "config.yaml") in E by done. unfold tdir, demo_disk in E.
  generalize dependent (match encode_transaction demo_transaction with Ok text => text +:+ str1 "010" | Fail _ => "" end).
  intros stored E. cbn [app node_at] in E. rewrite lookup_singleton_eq in E.
  rewrite (lookup_insert_ne _ "config.yaml" "data"), lookup_singleton_eq, lookup_singleton_eq in E by done.
  apply (proj1 (A := _) (B := ".json" = ".json")). apply (id_names id demo_id); [exact Hv|vm_compute; reflexivity|].
  destruct (decide (id +:+ ".json" = demo_id +:+ ".json")) as [->|Hne]; [done|].
  rewrite lookup_insert_ne in E by done. destruct (decide (id +:+ ".json" = snapshot_name demo_id)) as [Hx|Hn].
  - apply (id_names id demo_id) in Hx as [_ Hx]; [done|exact Hv|vm_compute; reflexivity].
  - by rewrite lookup_singleton_ne in E by done.
Qed.

Lemma demo_stands : stands demo_path "old" "new" demo_transaction demo_transaction "new" demo_disk.
Proof.
  split.
  - vm_compute. reflexivity.
  - split; [done|]. by split.
  - by eexists.
  - by right.
  - by eexists.
  - intros id t Hl _. by eapply demo_loaded.
Qed.

(** The machine stops while the panel is being restarted with the new
    configuration. *)
Definition demo_schedule : list (option string) := repeat None 14 ++ repeat (Some "power") 40.

Definition demo_stopped : world (NetworkState demo_machine) :=
  (perform demo_path demo_transaction Applying 0 demo_tokens (World (demo_state true) demo_schedule)).2.

Definition status_of (d : node) : option string := option_map TX_Status (loaded demo_path d demo_id).

Example demo_stopped_applying : status_of (disk (tables demo_stopped)) = Some networkApplyStatusApplying.
Proof. vm_compute. reflexivity. Qed.

Lemma demo_run : run_of (HT := demo_machine) demo_path "config.yaml" demo_transaction demo_disk (disk (tables demo_stopped)).
Proof.
  apply (Run_of _ _ _ _ _ Applying 0 demo_tokens (demo_state true) demo_schedule
    (perform demo_path demo_transaction Applying 0 demo_tokens (World (demo_state true) demo_schedule)).1 demo_stopped).
  - reflexivity.
  - apply demo_unused.
  - apply stop_after.
  - right. vm_compute. discriminate.
  - apply surjective_pairing.
  - reflexivity.
Qed.

Lemma interrupted_change_recovers_witness :
  stands demo_path "old" "new" demo_transaction demo_transaction "new" demo_disk /\
  let d := disk (tables demo_stopped) in
  exists t c, loaded demo_path d demo_id = Some t /\ config_is demo_path d c /\ told "old" "new" (TX_Status t) c /\
    (recoverable t = true -> snapshot_is demo_path demo_transaction d "old").
Proof.
  split; [exact demo_stands|].
  destruct (interrupted_change_recovers (HT := demo_machine) demo_path ["one"] "config.yaml" eq_refl eq_refl eq_refl
    ltac:(discriminate) "old" "new" demo_transaction demo_created demo_disk (disk (tables demo_stopped))
    demo_transaction "new" demo_stands (rtc_once _ _ demo_run)) as (t & c & H1 & H2 & H3 & H4 & _).
  exists t, c. exact (conj H1 (conj H2 (conj H3 H4))).
Defined.

(** A panel that does not answer is rolled back. *)
Definition demo_unanswered :=
  applyPanelNetworkTransaction demo_path demo_tokens demo_id (World (demo_state false) []).

Example demo_rolled_back : demo_unanswered.1 = Ok tt /\
  status_of (disk (tables demo_unanswered.2)) = Some networkApplyStatusRolledBack.
Proof. vm_compute. split; reflexivity. Qed.

Lemma apply_outcome_witness : exists t c,
  loaded demo_path (disk (tables demo_unanswered.2)) demo_id = Some t /\
  config_is demo_path (disk (tables demo_unanswered.2)) c /\ told "old" "new" (TX_Status t) c.
Proof.
  destruct (apply_outcome (HT := demo_machine) demo_path ["one"] "config.yaml" eq_refl eq_refl eq_refl
    ltac:(discriminate) "old" "new" demo_transaction demo_created demo_transaction "new" demo_tokens (demo_state false)
    demo_unanswered.1 demo_unanswered.2 demo_stands demo_unused (surjective_pairing _)) as (t & c & H1 & H2 & H3 & _).
  exists t, c. exact (conj H1 (conj H2 H3)).
Defined.

Definition demo_ready := waitForPanelReady (demo_config "8089") (World (demo_state true) []).

Lemma waitForPanelReady_ends_witness : Now (panel_host (demo_state true)) + networkApplyTimeout < end_of_time /\
  demo_ready.1 = Ok tt /\ exists h h', HTTPGet (localPanelHealthURL (demo_config "8089")) h = (Ok 200, h').
Proof.
  split; [reflexivity|]. split; [vm_compute; reflexivity|].
  destruct (waitForPanelReady_ends (H := demo_machine) (demo_config "8089") (World (demo_state true) [])) as [_ Hr];
    [vm_compute; reflexivity|].
  apply (Hr demo_ready.2). vm_compute. reflexivity.
Defined.

(** A recovery whose record is not saved, for want of space, has removed the
    snapshot nevertheless; the transaction is still pending, and every later
    recovery fails. *)
Definition unsaved : world (NetworkState demo_machine) :=
  (recoverPendingPanelNetworkTransaction demo_path demo_tokens
     (World (demo_state true) (repeat None 13 ++ [Some "no space"]))).2.

Lemma unsaved_rollback_loses_snapshot :
  status_of (disk (tables unsaved)) = Some networkApplyStatusScheduled /\
  at_path (snapshot_path demo_path demo_id) (disk (tables unsaved)) = None /\
  is_ok (recoverPendingPanelNetworkTransaction demo_path demo_tokens (World (tables unsaved) [])).1 = false.
Proof. vm_compute. split_and!; reflexivity. Qed.

(** A recovery that cannot read the file of the pending transaction reports
    success and changes nothing. *)
Lemma unread_transaction_counts_as_none :
  recoverPendingPanelNetworkTransaction demo_path demo_tokens (World (demo_state true) [None; Some "input/output error"]) =
    (Ok tt, World (demo_state true) []).
Proof. vm_compute. reflexivity. Qed.
End witnesses.
