(* ===== verification/Ticket.v ===== *)
(** One-time terminal tickets: [internal/services/ssh/ticket.go] and the ticket
    store of [internal/services/container/terminal.go].

    A store maps the SHA-256 digest of a token to the claims it was issued for.
    The two stores differ in their claims and in what a refused [Consume]
    removes: the SSH store keeps a ticket that comes from another address, the
    container store removes it first and looks at it afterwards. *)

From S2P Require Import Prelude GoStrings GoText GoCrypto Credential.
From stdpp Require Import options.
#[local] Open Scope Z_scope.

Definition ErrInvalidTicket : string := "invalid terminal ticket".
Definition ErrExpiredTicket : string := "expired terminal ticket".
Definition ErrInvalidContainerTicket : string := "invalid container terminal ticket".
Definition ErrExpiredContainerTicket : string := "expired container terminal ticket".
Definition containerTerminalTicketTTL : duration := 30 * Second.

Record TicketClaims := mkTicketClaims {
  TC_UserID : Z; TC_Username : string; TC_ClientIP : string; TC_UserAgent : string;
  TC_SourceSessionID : string; TC_SecurityVersion : Z
}.

Record ContainerTerminalTicketClaims := mkContainerClaims {
  CT_Base : TicketClaims; CT_ContainerReference : string; CT_ContainerID : string;
  CT_ContainerName : string; CT_Shell : string; CT_HighRiskConfirmed : bool
}.

(** [ticketRecord]: claims and expiry. *)
Record ticketRecord (C : Type) := mkTicket { tk_claims : C; tk_expiresAt : time }.
Arguments mkTicket {C} _ _.
Arguments tk_claims {C} _.
Arguments tk_expiresAt {C} _.

(** [entries], by digest. *)
Abbreviation TicketStore C := (gmap (list Z) (ticketRecord C)).

Definition digest_of (token : string) : list Z := sha256 (bytes_of token).

Definition removeExpiredLocked {C} (now : time) (entries : TicketStore C) : TicketStore C :=
  filter (fun kv => After (tk_expiresAt kv.2) now = true) entries.

(** The part of [Issue] behind the tests on the claims; [raw] is the outcome of
    the 32 random bytes. *)
Definition issue {C} (ttl : duration) (raw : result (list Z)) (now : time) (claims : C)
    (entries : TicketStore C) : result (string * time) * TicketStore C :=
  match raw with
  | Fail err => (Fail err, entries)
  | Ok raw =>
      let token := base64url_encode raw in
      let expiresAt := now + ttl in
      (Ok (token, expiresAt),
       <[digest_of token := mkTicket claims expiresAt]> (removeExpiredLocked now entries))
  end.

Definition NewTicketStore (ttl : duration) : duration := if ttl <=? 0 then 30 * Second else ttl.
Definition NewContainerTerminalTicketStore (ttl : duration) : duration :=
  if ttl <=? 0 then containerTerminalTicketTTL else ttl.

Definition incomplete (claims : TicketClaims) : bool :=
  (TC_UserID claims <=? 0) || String.eqb (TC_Username claims) "" || String.eqb (TC_ClientIP claims) ""
  || String.eqb (TC_SourceSessionID claims) "" || (TC_SecurityVersion claims =? 0).

Definition Issue (ttl : duration) (raw : result (list Z)) (now : time) (claims : TicketClaims)
    (entries : TicketStore TicketClaims) : result (string * time) * TicketStore TicketClaims :=
  if incomplete claims then (Fail (Sentinel ErrInvalidTicket), entries)
  else issue ttl raw now claims entries.

Definition IssueContainer (ttl : duration) (raw : result (list Z)) (now : time)
    (claims : ContainerTerminalTicketClaims) (entries : TicketStore ContainerTerminalTicketClaims)
    : result (string * time) * TicketStore ContainerTerminalTicketClaims :=
  if incomplete (CT_Base claims) || String.eqb (CT_ContainerReference claims) ""
     || String.eqb (CT_ContainerID claims) "" || String.eqb (CT_Shell claims) ""
  then (Fail (Sentinel ErrInvalidContainerTicket), entries)
  else issue ttl raw now claims entries.

Definition Consume (now : time) (token clientIP : string) (entries : TicketStore TicketClaims)
    : result TicketClaims * TicketStore TicketClaims :=
  if String.eqb token "" || String.eqb clientIP "" then (Fail (Sentinel ErrInvalidTicket), entries)
  else
    match entries !! digest_of token with
    | None => (Fail (Sentinel ErrInvalidTicket), entries)
    | Some record =>
        if negb (After (tk_expiresAt record) now) then
          (Fail (Sentinel ErrExpiredTicket), delete (digest_of token) entries)
        else if negb (String.eqb (TC_ClientIP (tk_claims record)) clientIP) then
          (Fail (Sentinel ErrInvalidTicket), entries)
        else (Ok (tk_claims record), delete (digest_of token) entries)
    end.

Definition ConsumeContainer (now : time) (token clientIP : string)
    (entries : TicketStore ContainerTerminalTicketClaims)
    : result ContainerTerminalTicketClaims * TicketStore ContainerTerminalTicketClaims :=
  if String.eqb token "" || String.eqb clientIP "" then
    (Fail (Sentinel ErrInvalidContainerTicket), entries)
  else
    match entries !! digest_of token with
    | None => (Fail (Sentinel ErrInvalidContainerTicket), entries)
    | Some record =>
        let entries := delete (digest_of token) entries in
        if negb (After (tk_expiresAt record) now) then (Fail (Sentinel ErrExpiredContainerTicket), entries)
        else if negb (String.eqb (TC_ClientIP (CT_Base (tk_claims record))) clientIP) then
          (Fail (Sentinel ErrInvalidContainerTicket), entries)
        else (Ok (tk_claims record), entries)
    end.

(** ** Both stores at once *)

(** What the two stores promise to their users. *)
Class ticket_store (C : Type) := {
  ts_issue : duration -> result (list Z) -> time -> C -> TicketStore C ->
    result (string * time) * TicketStore C;
  ts_consume : time -> string -> string -> TicketStore C -> result C * TicketStore C;
  ts_address : C -> string;
  (* an issue stores exactly one ticket, under the digest of the new token *)
  ts_issue_stores ttl raw now claims entries r entries' :
    ts_issue ttl raw now claims entries = (r, entries') ->
    is_ok r = false /\ entries' = entries \/
    exists token, raw = Ok token /\ r = Ok (base64url_encode token, now + ttl) /\
      entries' = <[digest_of (base64url_encode token) := mkTicket claims (now + ttl)]>
        (removeExpiredLocked now entries);
  (* a consumption adds nothing, leaves the other tickets alone, and removes
     the ticket whose claims it returns *)
  ts_consume_shrinks now token ip entries r entries' :
    ts_consume now token ip entries = (r, entries') ->
    entries' = entries \/ entries' = delete (digest_of token) entries;
  ts_consume_once now token ip entries claims entries' :
    ts_consume now token ip entries = (Ok claims, entries') ->
    exists record, entries !! digest_of token = Some record /\ tk_claims record = claims /\
      now < tk_expiresAt record /\ ts_address claims = ip /\
      entries' = delete (digest_of token) entries;
  (* a ticket is accepted at its address until it expires *)
  ts_consume_valid now token ip entries record :
    token <> "" -> ip <> "" -> entries !! digest_of token = Some record ->
    now < tk_expiresAt record -> ts_address (tk_claims record) = ip ->
    (ts_consume now token ip entries).1 = Ok (tk_claims record)
}.

Lemma issue_stores {C} ttl raw now (claims : C) entries r entries' :
  issue ttl raw now claims entries = (r, entries') ->
  is_ok r = false /\ entries' = entries \/
  exists token, raw = Ok token /\ r = Ok (base64url_encode token, now + ttl) /\
    entries' = <[digest_of (base64url_encode token) := mkTicket claims (now + ttl)]>
      (removeExpiredLocked now entries).
Proof. unfold issue. destruct raw as [token|]; intros [= <- <-]; [right; by exists token|by left]. Qed.

#[local] Ltac consume_cases :=
  repeat match goal with
  | |- (if ?b then _ else _) = _ -> _ => destruct b eqn:?
  | |- (match ?b with Some _ => _ | None => _ end) = _ -> _ => destruct b as [record|] eqn:?
  end; unfold After in *; bool_props.

#[export] Program Instance ssh_tickets : ticket_store TicketClaims := {|
  ts_issue := Issue; ts_consume := Consume; ts_address := TC_ClientIP
|}.
Next Obligation.
  intros ttl raw now claims entries r entries'. unfold Issue.
  destruct (incomplete claims); [intros [= <- <-]; by left|apply issue_stores].
Qed.
Next Obligation.
  intros now token ip entries r entries'. unfold Consume. consume_cases; intros [= _ <-]; auto.
Qed.
Next Obligation.
  intros now token ip entries claims entries'. unfold Consume. consume_cases; try done.
  intros [= <- <-]. eauto 10.
Qed.
Next Obligation.
  intros now token ip entries record Ht Hi He Hn <-. unfold Consume, After. rewrite He.
  apply String.eqb_neq in Ht, Hi. rewrite Ht, Hi, (proj2 (Z.ltb_lt _ _)) by done. cbn.
  by rewrite String.eqb_refl.
Qed.

#[export] Program Instance container_tickets : ticket_store ContainerTerminalTicketClaims := {|
  ts_issue := IssueContainer; ts_consume := ConsumeContainer;
  ts_address c := TC_ClientIP (CT_Base c)
|}.
Next Obligation.
  intros ttl raw now claims entries r entries'. unfold IssueContainer.
  destruct (_ || _); [intros [= <- <-]; by left|apply issue_stores].
Qed.
Next Obligation.
  intros now token ip entries r entries'. unfold ConsumeContainer. cbv zeta.
  consume_cases; intros [= _ <-]; auto.
Qed.
Next Obligation.
  intros now token ip entries claims entries'. unfold ConsumeContainer. cbv zeta.
  consume_cases; try done. intros [= <- <-]. eauto 10.
Qed.
Next Obligation.
  intros now token ip entries record Ht Hi He Hn <-. unfold ConsumeContainer, After. rewrite He.
  apply String.eqb_neq in Ht, Hi. rewrite Ht, Hi, (proj2 (Z.ltb_lt _ _)) by done. cbn.
  by rewrite String.eqb_refl.
Qed.

Inductive operation (C : Type) :=
  | OpIssue (ttl : duration) (raw : result (list Z)) (now : time) (claims : C)
  | OpConsume (now : time) (token clientIP : string).
Arguments OpIssue {C} _ _ _ _.
Arguments OpConsume {C} _ _ _.

Section single_use.
Context {C : Type} `{!ticket_store C}.

Definition perform (op : operation C) (entries : TicketStore C) : TicketStore C :=
  match op with
  | OpIssue ttl raw now claims => (ts_issue ttl raw now claims entries).2
  | OpConsume now token clientIP => (ts_consume now token clientIP entries).2
  end.

Definition perform_all (ops : list (operation C)) (entries : TicketStore C) : TicketStore C :=
  fold_left (fun entries op => perform op entries) ops entries.

(** No new ticket has the digest of [token]. *)
Definition issues_no (token : string) (op : operation C) : Prop :=
  match op with OpIssue _ (Ok raw) _ _ => digest_of (base64url_encode raw) <> digest_of token | _ => True end.

Lemma absent_stays token op entries :
  issues_no token op -> entries !! digest_of token = None ->
  perform op entries !! digest_of token = None.
Proof.
  destruct op as [ttl raw now claims|now token' ip]; cbn; intros Hop He.
  - destruct (ts_issue ttl raw now claims entries) as [r e'] eqn:E.
    destruct (ts_issue_stores _ _ _ _ _ _ _ E) as [[_ ->]|(t & -> & _ & ->)]; cbn; [done|].
    rewrite lookup_insert_ne by done. apply map_lookup_filter_None. by left.
  - destruct (ts_consume now token' ip entries) as [r e'] eqn:E.
    destruct (ts_consume_shrinks _ _ _ _ _ _ E) as [->| ->]; cbn; [done|].
    apply lookup_delete_None. by right.
Qed.

Lemma absent_refused token now ip entries :
  entries !! digest_of token = None -> is_ok (ts_consume now token ip entries).1 = false.
Proof.
  intros He. destruct (ts_consume now token ip entries) as [[claims|e] e'] eqn:E; [|done].
  apply ts_consume_once in E as (record & Hr & _). congruence.
Qed.

(** C38: a terminal ticket opens one terminal. Whoever issued it, at the
    address it was issued for and before it expires it yields its claims; once
    it was accepted, no sequence of issues and consumptions, from any address
    at any time, makes it accepted again, unless a new token has its digest. *)
Theorem ticket_used_once ttl raw now claims entries token expiresAt entries1
  (Hissue : ts_issue ttl (Ok raw) now claims entries = (Ok (token, expiresAt), entries1))
  (Htoken : token <> "") (Hip : ts_address claims <> "") :
  (forall now', now' < expiresAt -> (ts_consume now' token (ts_address claims) entries1).1 = Ok claims) /\
  (forall before now' ip claims' entries2 after now'' ip'',
     ts_consume now' token ip (perform_all before entries1) = (Ok claims', entries2) ->
     Forall (issues_no token) after ->
     is_ok (ts_consume now'' token ip'' (perform_all after entries2)).1 = false).
Proof.
  split.
  - intros now' Hn. destruct (ts_issue_stores _ _ _ _ _ _ _ Hissue) as [[? _]|(t & [= <-] & Et & ->)];
      [done|].
    injection Et as -> ->.
    apply (ts_consume_valid now' _ _ _ (mkTicket claims (now + ttl))); [done..| |done|done].
    apply lookup_insert_eq.
  - intros before now' ip claims' entries2 after now'' ip'' Hc Hafter. apply absent_refused.
    apply ts_consume_once in Hc as (_ & _ & _ & _ & _ & ->).
    assert (He : delete (digest_of token) (perform_all before entries1) !! digest_of token = None)
      by apply lookup_delete_eq.
    revert He. generalize (delete (digest_of token) (perform_all before entries1)).
    induction Hafter as [|op after Hop _ IH]; cbn; intros e He; [done|]. by apply IH, absent_stays.
Qed.
End single_use.

Lemma ticket_used_once_witness :
  let claims := mkTicketClaims 1 "admin" "192.0.2.10" "agent" "session-1" 1 in
  let r := Issue (30 * Second) (Ok (repeat 7 32)) 100 claims ∅ in
  exists token expiresAt, r.1 = Ok (token, expiresAt) /\ expiresAt = 100 + 30 * Second /\
    (Consume 200 token "192.0.2.10" r.2).1 = Ok claims.
Proof.
  intros claims r. exists (base64url_encode (repeat 7 32)), (100 + 30 * Second).
  split; [reflexivity|split; [reflexivity|]].
  apply (@ticket_used_once TicketClaims ssh_tickets (30 * Second) (repeat 7 32) 100 claims ∅
    (base64url_encode (repeat 7 32)) (100 + 30 * Second) r.2 eq_refl
    ltac:(vm_compute; discriminate) ltac:(discriminate)).
  vm_compute. reflexivity.
Defined.
