(* ===== verification/Authentication.v ===== *)
(** Who a request comes from: session tokens ([utils/jwt.go]), the
    authentication middleware ([router/middleware/auth.go]), login and logout
    ([router/handler/user/user.go]), the change of the own password
    ([internal/services/system/sys_service.go]) and the throttle of password
    checks ([internal/services/security/password_verification.go]).

    The tables of the components that take part are put together in one
    record; their operations act on it through [zoom].  The JWT library is an
    interface, and so is bcrypt. *)

From S2P Require Import Prelude GoStrings GoText GoCrypto Store Credential AuditTrail Access Ticket.
From S2P Require Session Totp Authorization.
From stdpp Require Import options.
#[local] Open Scope Z_scope.

(** ** The tables *)

(** [models.SystemLog]. *)
Record SystemLog := mkLog {
  L_LogType : Z; L_LogInfo : Z; L_Content : string; L_IP : string; L_Agent : string;
  L_UserName : string; L_CreateTime : time
}.

Record PanelTables := mkPanel {
  p_access : AccessTables; p_mfa : list Totp.UserMFA; p_sessions : list Session.UserSession;
  p_audit : AuditTables; p_logs : list SystemLog;
  p_tickets : TicketStore TicketClaims;
  p_container_tickets : TicketStore ContainerTerminalTicketClaims
}.

Definition put_access (x : AccessTables) (t : PanelTables) : PanelTables :=
  mkPanel x (p_mfa t) (p_sessions t) (p_audit t) (p_logs t) (p_tickets t) (p_container_tickets t).
Definition put_sessions (x : list Session.UserSession) (t : PanelTables) : PanelTables :=
  mkPanel (p_access t) (p_mfa t) x (p_audit t) (p_logs t) (p_tickets t) (p_container_tickets t).
Definition put_audit (x : AuditTables) (t : PanelTables) : PanelTables :=
  mkPanel (p_access t) (p_mfa t) (p_sessions t) x (p_logs t) (p_tickets t) (p_container_tickets t).
Definition put_logs (x : list SystemLog) (t : PanelTables) : PanelTables :=
  mkPanel (p_access t) (p_mfa t) (p_sessions t) (p_audit t) x (p_tickets t) (p_container_tickets t).
Definition put_tickets (x : TicketStore TicketClaims) (t : PanelTables) : PanelTables :=
  mkPanel (p_access t) (p_mfa t) (p_sessions t) (p_audit t) (p_logs t) x (p_container_tickets t).
Definition put_container_tickets (x : TicketStore ContainerTerminalTicketClaims) (t : PanelTables)
    : PanelTables :=
  mkPanel (p_access t) (p_mfa t) (p_sessions t) (p_audit t) (p_logs t) (p_tickets t) x.

(** The tables of two-factor authentication share the users and the sessions. *)
Definition get_security (t : PanelTables) : Totp.SecurityTables :=
  Totp.mkSecurityTables (users (p_access t)) (p_mfa t) (p_sessions t).
Definition put_security (x : Totp.SecurityTables) (t : PanelTables) : PanelTables :=
  let a := p_access t in
  mkPanel (mkAccessTables (Totp.sec_users x) (roles a) (permissions a) (role_permissions a) (user_roles a))
    (Totp.mfa x) (Totp.sec_sessions x) (p_audit t) (p_logs t) (p_tickets t) (p_container_tickets t).

Abbreviation on_access := (zoom p_access put_access).
Abbreviation on_sessions := (zoom p_sessions put_sessions).
Abbreviation on_audit := (zoom p_audit put_audit).
Abbreviation on_security := (zoom get_security put_security).

(** The ticket stores are in memory: no statement can fail. *)
Definition in_memory {A} (f : PanelTables -> result A * PanelTables) : M PanelTables A := fun w =>
  let '(r, t) := f (tables w) in (r, World t (faults w)).

(** ** Session tokens *)

Record Claims := mkClaims {
  cl_Id : Z; cl_Username : string; cl_SessionID : string; cl_SecurityVersion : Z;
  cl_ExpiresAt : option time; cl_IssuedAt : option time; cl_Issuer : string
}.

(** [jwt.NewNumericDate] truncates to seconds. *)
Definition NewNumericDate (t : time) : time := t - t mod Second.

(** The library: signing and parsing with HS256; a token that was signed with
    the key parses back, under the same issuer, until it expires. *)
Class JWT := {
  jwt_SignedString : list Z -> Claims -> result string;
  jwt_ParseWithClaims : list Z -> list string -> string -> time -> string -> result (Claims * bool);
  jwt_parse_signed key c token now :
    jwt_SignedString key c = Ok token ->
    (forall e, cl_ExpiresAt c = Some e -> e mod Second = 0 /\ now < e) ->
    (forall i, cl_IssuedAt c = Some i -> i mod Second = 0) ->
    jwt_ParseWithClaims key ["HS256"] (cl_Issuer c) now token = Ok (c, true)
}.

(** [JWT_SECRET_KEY] in the environment, and the configured key. *)
Record JWTKeys := mkKeys { env_key : string; configured_key : list Z }.

Definition ConfigureJWTKey (key : list Z) (keys : JWTKeys) : result JWTKeys :=
  if (List.length key <? 32)%nat then Fail (ErrorString "JWT key must contain at least 32 bytes")
  else Ok (mkKeys (env_key keys) key).

Definition getJWTKey (keys : JWTKeys) : result (list Z) :=
  if negb (String.eqb (env_key keys) "") then
    if len (env_key keys) <? 32 then Fail (ErrorString "JWT_SECRET_KEY must contain at least 32 bytes")
    else Ok (bytes_of (env_key keys))
  else if (List.length (configured_key keys) <? 32)%nat then Fail (ErrorString "JWT key is not initialized")
  else Ok (configured_key keys).

Section tokens.
Context `{!JWT}.
Variable keys : JWTKeys.

Definition generateJWT (now : time) (username : string) (id : Z) (sessionID : string)
    (securityVersion : Z) : result (string * time) :=
  match getJWTKey keys with
  | Fail err => Fail err
  | Ok jwtKey =>
      let expirationTime := now + 24 * Hour in
      let claims := mkClaims id username sessionID securityVersion
        (Some (NewNumericDate expirationTime)) (Some (NewNumericDate now)) "oneinstack-panel" in
      match jwt_SignedString jwtKey claims with
      | Fail err => Fail err
      | Ok signed => Ok (signed, expirationTime)
      end
  end.

Definition GenerateJWT (now : time) (username : string) (id : Z) : result string :=
  match generateJWT now username id "" 0 with Fail err => Fail err | Ok (token, _) => Ok token end.

Definition GenerateSessionJWT (now : time) (username : string) (id : Z) (sessionID : string)
    (securityVersion : Z) : result (string * time) :=
  if String.eqb sessionID "" then Fail (ErrorString "session id is required")
  else generateJWT now username id sessionID (if securityVersion =? 0 then 1 else securityVersion).

(** [parsed] and [now]: the clock of the library and of the last test. *)
Definition ValidateJWT (parsed now : time) (tokenStr : string) : result Claims :=
  match getJWTKey keys with
  | Fail err => Fail err
  | Ok jwtKey =>
      match jwt_ParseWithClaims jwtKey ["HS256"] "oneinstack-panel" parsed tokenStr with
      | Fail err => Fail err
      | Ok (claims, valid) =>
          if negb valid then Fail (ErrorString "invalid token")
          else if match cl_ExpiresAt claims with Some e => Before e now | None => false end then
            Fail (ErrorString "token expired")
          else Ok claims
      end
  end.
End tokens.

(** ** The middleware *)

Definition AuthModeBearer : string := "bearer".
Definition AuthModeCookie : string := "cookie".
Definition AuthModeTicket : string := "ticket".
Definition StatusUnauthorized : Z := 401.
Definition StatusForbidden : Z := 403.
Definition StatusServiceUnavailable : Z := 503.
Definition ErrInvalidToken : Z := 1101.
Definition ErrMissingToken : Z := 1105.
Definition ErrEmptyToken : Z := 1106.
Definition ErrInvalidTokenFormat : Z := 1107.
Definition ErrSessionRequired : Z := 1108.
Definition ErrSessionInvalidated : Z := 1109.
Definition ErrSessionUnavailable : Z := 1110.
Definition ErrInvalidTerminalTicket : Z := 1111.
Definition ErrPasswordChangeRequired : Z := 1112.
Definition ErrCSRFRejected : Z := 1205.

(** What the middleware reads of a request; an absent header or query value is
    the empty string. *)
Record Request := mkRequest {
  rq_Method : string; rq_Path : string; rq_FullPath : string; rq_Ticket : string; rq_ID : string;
  rq_ClientIP : string; rq_UserAgent : string; rq_Authorization : string;
  rq_Cookie : option string; rq_Origin : string; rq_Host : string;
  rq_RemoteIP : string; rq_ContentLength : Z; rq_RequestID : string
}.

(** What it leaves in the gin context. *)
Record AuthContext := mkAuth {
  au_Username : string; au_UserID : Z; au_AuthMode : string; au_SessionID : string;
  au_MustChangePassword : bool; au_Access : option UserAccess
}.

(** [c.Next()], or an error response; [cleared]: the session cookie is removed. *)
Inductive outcome :=
  | Pass (c : AuthContext)
  | Deny (e : Authorization.APIError) (cleared : bool).

Definition writeAPIError (cleared : bool) (status code : Z) (message detail : string) : outcome :=
  Deny (Authorization.mkAPIError status code message detail) cleared.

Definition isContainerTerminalOpenPath (path : string) : bool :=
  if negb (HasPrefix path "/v1/containers/") || negb (HasSuffix path "/terminal/open") then false
  else match Split (TrimPrefix path "/v1/containers/") "/" with
       | [a; b; c] => negb (String.eqb a "") && String.eqb b "terminal" && String.eqb c "open"
       | _ => false
       end.

(** [strings.SplitN(s, " ", 2)]. *)
Fixpoint cut_space (s : string) : string * option string :=
  match s with
  | EmptyString => ("", None)
  | String c s' => if Ascii.eqb c " " then ("", Some s')
                   else let '(a, b) := cut_space s' in (String c a, b)
  end.

Definition account_by_id (id : Z) (t : AccessTables) : option User :=
  List.find (fun u => User_ID u =? id) (users t).

Section middleware.
Context `{!JWT}.
Variable keys : JWTKeys.

(** The account of a ticket and its source session are checked alike for both
    kinds of terminal. *)
Definition check_ticket (unavailable stale expired : outcome) (database : bool) (now : time)
    (claims : TicketClaims) : M PanelTables outcome :=
  if negb database then ret unavailable
  else
    let* found := attempt (on_access (first (account_by_id (TC_UserID claims)))) in
    match found with
    | Fail _ => ret stale
    | Ok account =>
        if negb (String.eqb (User_Username account) (TC_Username claims))
           || negb (Totp.EffectiveSecurityVersion account =? TC_SecurityVersion claims) then ret stale
        else
          let* valid := attempt (on_sessions (Session.Validate now (TC_SourceSessionID claims)
            (TC_UserID claims) (TC_SecurityVersion claims))) in
          match valid with
          | Fail _ => ret expired
          | Ok _ => ret (Pass (mkAuth (TC_Username claims) (TC_UserID claims) AuthModeTicket
              (TC_SourceSessionID claims) (User_MustChangePassword account) None))
          end
    end.

Definition container_branch (database : bool) (now validated : time) (r : Request)
    : M PanelTables outcome :=
  let* consumed := attempt (in_memory (fun t =>
    let '(c, entries) := ConsumeContainer now (rq_Ticket r) (rq_ClientIP r) (p_container_tickets t) in
    (c, put_container_tickets entries t))) in
  match consumed with
  | Fail _ => ret (writeAPIError false StatusUnauthorized ErrInvalidTerminalTicket
      "容器终端票据无效或已过期" "容器终端票据校验失败，请重新获取票据。")
  | Ok claims =>
      if negb (String.eqb (TC_UserAgent (CT_Base claims)) (rq_UserAgent r))
         || negb (String.eqb (CT_ContainerReference claims) (TrimSpace (rq_ID r))) then
        ret (writeAPIError false StatusUnauthorized ErrInvalidTerminalTicket
          "容器终端票据无效" "当前请求与签发容器终端票据时绑定的客户端或容器不一致。")
      else
        check_ticket
          (writeAPIError false StatusServiceUnavailable ErrSessionUnavailable
            "会话服务不可用，请稍后重试" "服务端数据库未初始化，无法校验容器终端来源会话。")
          (writeAPIError false StatusUnauthorized ErrSessionInvalidated
            "容器终端来源会话无效，请重新打开终端" "容器终端票据关联的用户或安全版本与当前服务端记录不一致。")
          (writeAPIError false StatusUnauthorized ErrSessionInvalidated
            "容器终端来源会话已过期或撤销，请重新打开终端" "请重新登录后再打开容器终端。")
          database validated (CT_Base claims)
  end.

Definition ssh_branch (database : bool) (now validated : time) (r : Request) : M PanelTables outcome :=
  let* consumed := attempt (in_memory (fun t =>
    let '(c, entries) := Consume now (rq_Ticket r) (rq_ClientIP r) (p_tickets t) in
    (c, put_tickets entries t))) in
  match consumed with
  | Fail _ => ret (writeAPIError false StatusUnauthorized ErrInvalidTerminalTicket
      "终端票据无效或已过期" "终端票据校验失败，请重新打开终端并获取新的票据。")
  | Ok claims =>
      if negb (String.eqb (TC_UserAgent claims) (rq_UserAgent r)) then
        ret (writeAPIError false StatusUnauthorized ErrInvalidTerminalTicket
          "终端票据无效" "当前请求的 User-Agent 与签发终端票据时不一致，请重新打开终端。")
      else
        check_ticket
          (writeAPIError false StatusServiceUnavailable ErrSessionUnavailable
            "会话服务不可用，请稍后重试" "服务端数据库未初始化，无法校验终端来源会话。")
          (writeAPIError false StatusUnauthorized ErrSessionInvalidated
            "终端来源会话无效，请重新打开终端" "终端票据关联的用户或安全版本与当前服务端记录不一致。")
          (writeAPIError false StatusUnauthorized ErrSessionInvalidated
            "终端来源会话已过期或撤销，请重新打开终端" "请重新登录后再打开终端。")
          database validated claims
  end.

(** A presented token and how it came, or the refusal of a malformed header;
    [c.Request.Cookie] fails for an absent cookie. *)
Definition bearer_token (r : Request) : string * string + outcome :=
  if negb (String.eqb (rq_Authorization r) "") then
    match cut_space (rq_Authorization r) with
    | ("Bearer", Some token) =>
        if len token =? 0 then
          inr (writeAPIError false StatusUnauthorized ErrEmptyToken
            "访问令牌不能为空" "Authorization 请求头未提供有效的 Bearer 令牌。")
        else inl (token, AuthModeBearer)
    | _ =>
        inr (writeAPIError false StatusUnauthorized ErrInvalidTokenFormat
          "Authorization 请求头格式无效，请使用 Bearer Token" "应使用 Bearer <token> 格式传递访问令牌。")
    end
  else match rq_Cookie r with
       | Some value => inl (value, AuthModeCookie)
       | None => inl ("", AuthModeBearer)
       end.

(** The account and the session behind accepted claims. *)
Definition check_session (authMode : string) (now : time) (claims : Claims) : M PanelTables outcome :=
  let cleared := String.eqb authMode AuthModeCookie in
  let* found := attempt (on_access (first (account_by_id (cl_Id claims)))) in
  match found with
  | Fail _ =>
      ret (writeAPIError cleared StatusUnauthorized ErrSessionInvalidated
        "登录会话已失效，请重新登录" "用户安全版本与会话记录不一致，可能是密码或安全配置已变更。")
  | Ok account =>
      if negb (Totp.EffectiveSecurityVersion account =? cl_SecurityVersion claims) then
        ret (writeAPIError cleared StatusUnauthorized ErrSessionInvalidated
          "登录会话已失效，请重新登录" "用户安全版本与会话记录不一致，可能是密码或安全配置已变更。")
      else
        let* valid := attempt (on_sessions (Session.Validate now (cl_SessionID claims)
          (cl_Id claims) (cl_SecurityVersion claims))) in
        match valid with
        | Fail _ =>
            ret (writeAPIError cleared StatusUnauthorized ErrSessionInvalidated
              "登录会话已过期或已撤销，请重新登录" "请重新登录后再继续操作。")
        | Ok _ =>
            let* loaded := attempt (on_access (LoadUserAccess (cl_Id claims))) in
            ret (Pass (mkAuth (User_Username account) (cl_Id claims) authMode (cl_SessionID claims)
              (User_MustChangePassword account)
              (match loaded with Ok access => Some access | Fail _ => None end)))
        end
  end.

Definition token_branch (database : bool) (parsed now validated : time) (r : Request)
    : M PanelTables outcome :=
  match bearer_token r with
  | inr refused => ret refused
  | inl (token, authMode) =>
      let cleared := String.eqb authMode AuthModeCookie in
      if String.eqb token "" then
        ret (writeAPIError false StatusUnauthorized ErrMissingToken
          "请先登录后再访问此接口" "请在请求中提供有效的 Bearer 令牌或登录会话 Cookie。")
      else
        match ValidateJWT keys parsed now token with
        | Fail err =>
            ret (writeAPIError cleared StatusUnauthorized ErrInvalidToken
              "访问令牌无效或已过期，请重新登录" ("令牌校验失败：" +:+ Error err))
        | Ok claims =>
            if String.eqb (cl_SessionID claims) "" then
              ret (writeAPIError cleared StatusUnauthorized ErrSessionRequired
                "当前会话缺少安全标识，请退出后重新登录" "请退出后重新登录，以签发包含服务端会话标识的新令牌。")
            else if negb database then
              ret (writeAPIError false StatusServiceUnavailable ErrSessionUnavailable
                "会话服务不可用，请稍后重试" "服务端数据库未初始化，无法校验当前登录会话。")
            else check_session authMode validated claims
        end
  end.

(** [now] is read by the ticket store, or after parsing the token. *)
Definition AuthMiddleware (database : bool) (parsed now validated : time) (r : Request)
    : M PanelTables outcome :=
  if isContainerTerminalOpenPath (rq_Path r) && negb (String.eqb (rq_Ticket r) "") then
    container_branch database now validated r
  else if String.eqb (rq_Path r) "/v1/ssh/open" && negb (String.eqb (rq_Ticket r) "") then
    ssh_branch database now validated r
  else token_branch database parsed now validated r.
End middleware.

(** ** Guards on authenticated requests *)

Definition firstLoginAllowed (method path : string) : bool :=
  if String.eqb method "POST" then
    String.eqb path "/v1/logout" || String.eqb path "/v1/sys/resetpassword"
  else if String.eqb method "GET" then
    String.eqb path "/v1/security/status" || String.eqb path "/v1/sessions"
  else false.

Definition RequirePasswordChange (c : AuthContext) (r : Request) : outcome :=
  if negb (au_MustChangePassword c) || firstLoginAllowed (rq_Method r) (rq_Path r) then Pass c
  else writeAPIError false StatusForbidden ErrPasswordChangeRequired
    "请先修改初始密码后再访问此接口" "当前账号仍使用初始密码，完成密码修改前不能访问该管理接口。".

Definition isSafeMethod (method : string) : bool :=
  String.eqb method "GET" || String.eqb method "HEAD" || String.eqb method "OPTIONS"
  || String.eqb method "TRACE".

Section csrf.
Context `{!UnicodeCase}.
(** [url.Parse]: scheme, whether there are credentials, and host. *)
Variable parse_origin : string -> option (string * bool * string).

Definition CSRFMiddleware (c : AuthContext) (r : Request) : outcome :=
  if negb (String.eqb (au_AuthMode c) AuthModeCookie) || isSafeMethod (rq_Method r) then Pass c
  else
    let rejected := writeAPIError false StatusForbidden ErrCSRFRejected
      "请求来源无效，请刷新页面后重试" "Cookie 会话请求的 Origin 与当前面板地址不匹配。" in
    match parse_origin (rq_Origin r) with
    | None => rejected
    | Some (scheme, user, host) =>
        if (negb (String.eqb scheme "http") && negb (String.eqb scheme "https"))
           || user || negb (EqualFold host (rq_Host r)) then rejected
        else Pass c
    end.
End csrf.

(** ** What an accepted request rests on *)

Lemma put_access_same t : put_access (p_access t) t = t.
Proof. by destruct t. Qed.

Lemma put_sessions_same t : put_sessions (p_sessions t) t = t.
Proof. by destruct t. Qed.

Lemma on_access_first {A} (f : AccessTables -> option A) w a w' :
  on_access (first f) w = (Ok a, w') -> f (p_access (tables w)) = Some a /\ tables w' = tables w.
Proof.
  intros (v & E & ->)%zoom_run. apply first_Ok in E as [E Hv]. split; [done|].
  cbn in *. by rewrite Hv, put_access_same.
Qed.

Section authenticated.
Context `{!JWT}.
Variable keys : JWTKeys.

Lemma effective_version_idem u :
  Session.effective_version (Totp.EffectiveSecurityVersion u) = Totp.EffectiveSecurityVersion u.
Proof.
  unfold Session.effective_version, Totp.EffectiveSecurityVersion.
  destruct (User_SecurityVersion u =? 0) eqn:E; [done|by rewrite E].
Qed.

(** What a request shows of itself: a token, or a ticket issued to this client. *)
Inductive presented (parsed now : time) (r : Request) (t : PanelTables) (c : AuthContext) : Prop :=
  | by_token token claims :
      bearer_token r = inl (token, au_AuthMode c) -> ValidateJWT keys parsed now token = Ok claims ->
      cl_Id claims = au_UserID c -> cl_SessionID claims = au_SessionID c -> presented parsed now r t c
  | by_ticket claims :
      (exists expiresAt, now < expiresAt /\
         (p_tickets t !! digest_of (rq_Ticket r) = Some (mkTicket claims expiresAt) \/
          exists container, CT_Base container = claims /\
            CT_ContainerReference container = TrimSpace (rq_ID r) /\
            p_container_tickets t !! digest_of (rq_Ticket r) = Some (mkTicket container expiresAt))) ->
      TC_ClientIP claims = rq_ClientIP r -> TC_UserAgent claims = rq_UserAgent r ->
      TC_UserID claims = au_UserID c -> TC_SourceSessionID claims = au_SessionID c ->
      au_AuthMode c = AuthModeTicket -> presented parsed now r t c.

(** The account and the session of a context: alive at [now], and issued at the
    security version that the account has. *)
Definition backed (now : time) (t : PanelTables) (c : AuthContext) : Prop :=
  exists account s,
    account_by_id (au_UserID c) (p_access t) = Some account /\
    au_Username c = User_Username account /\
    au_MustChangePassword c = User_MustChangePassword account /\
    In s (p_sessions t) /\ Session.ID s = au_SessionID c /\ Session.UserID s = au_UserID c /\
    Session.RevokedAt s = None /\ Session.DeletedAt s = None /\ now < Session.ExpiresAt s /\
    Session.SecurityVersion s = Totp.EffectiveSecurityVersion account.

Lemma validated_session now id user account w r w' :
  on_sessions (Session.Validate now id user (Totp.EffectiveSecurityVersion account)) w = (Ok r, w') ->
  exists s, In s (p_sessions (tables w)) /\ Session.ID s = id /\ Session.UserID s = user /\
    Session.RevokedAt s = None /\ Session.DeletedAt s = None /\ now < Session.ExpiresAt s /\
    Session.SecurityVersion s = Totp.EffectiveSecurityVersion account.
Proof.
  intros (v & E & _)%zoom_run. apply Session.Validate_Ok in E as (s & Hin & Hid & Hu & Hd & Hr & He & Hv & _).
  rewrite effective_version_idem in Hv. cbn in Hin. exists s. by split_and!.
Qed.

Lemma check_session_Pass mode now claims w c w' :
  check_session mode now claims w = (Ok (Pass c), w') ->
  backed now (tables w) c /\ au_UserID c = cl_Id claims /\ au_SessionID c = cl_SessionID claims /\
  au_AuthMode c = mode.
Proof.
  unfold check_session. intros E. apply bind_Ok in E as (found & w1 & E1%attempt_Ok & E).
  destruct found as [account|]; [|done]. apply on_access_first in E1 as [Ha Ht].
  destruct (Totp.EffectiveSecurityVersion account =? _) eqn:Ev; [|done]. apply Z.eqb_eq in Ev.
  cbn [negb] in E. apply bind_Ok in E as (valid & w2 & E2%attempt_Ok & E).
  destruct valid as [s0|]; [|done]. rewrite <- Ev in E2. apply validated_session in E2 as (s & Hs).
  apply bind_Ok in E as (loaded & w3 & _ & E). apply ret_Ok in E as [E _]. injection E as <-.
  rewrite Ht in Hs. split; [|done]. exists account, s. cbn. tauto.
Qed.

Lemma check_ticket_Pass unavailable stale expired database now claims w c w' :
  (forall c, unavailable <> Pass c) -> (forall c, stale <> Pass c) -> (forall c, expired <> Pass c) ->
  check_ticket unavailable stale expired database now claims w = (Ok (Pass c), w') ->
  backed now (tables w) c /\ au_UserID c = TC_UserID claims /\
  au_SessionID c = TC_SourceSessionID claims /\ au_AuthMode c = AuthModeTicket.
Proof.
  intros H1' H2' H3' E. unfold check_ticket in E. destruct database; cbn [negb] in E.
  2: by apply ret_Ok in E as [E _]; destruct (H1' c).
  apply bind_Ok in E as (found & w1 & E1%attempt_Ok & E).
  destruct found as [account|]; [|by apply ret_Ok in E as [E _]; destruct (H2' c)].
  apply on_access_first in E1 as [Ha Ht]. destruct (_ || _) eqn:Ev.
  { by apply ret_Ok in E as [E _]; destruct (H2' c). }
  bool_props. apply bind_Ok in E as (valid & w2 & E2%attempt_Ok & E).
  destruct valid as [s0|]; [|by apply ret_Ok in E as [E _]; destruct (H3' c)].
  match goal with Hv : Totp.EffectiveSecurityVersion account = _ |- _ => rewrite <- Hv in E2 end.
  apply validated_session in E2 as (s & Hs). apply ret_Ok in E as [E _]. injection E as <-.
  rewrite Ht in Hs. split; [|done]. exists account, s. cbn. intuition congruence.
Qed.

Lemma in_memory_Ok {A} (f : PanelTables -> result A * PanelTables) w a w' :
  in_memory f w = (Ok a, w') -> exists t, f (tables w) = (Ok a, t) /\ tables w' = t.
Proof. unfold in_memory. destruct (f (tables w)) as [r t]. intros [= -> <-]. by exists t. Qed.

Lemma in_memory_backed {A} (f : PanelTables -> result A * PanelTables) w r w' now c :
  (forall t, p_access (f t).2 = p_access t /\ p_sessions (f t).2 = p_sessions t) ->
  in_memory f w = (r, w') -> backed now (tables w') c -> backed now (tables w) c.
Proof.
  intros Hf E. unfold in_memory in E. destruct (Hf (tables w)) as [Ha Hs].
  destruct (f (tables w)) as [x t]. injection E as _ <-. cbn in *.
  unfold backed. cbn. by rewrite Ha, Hs.
Qed.

Lemma ssh_branch_Pass database parsed now validated r w c w' :
  ssh_branch database now validated r w = (Ok (Pass c), w') ->
  backed validated (tables w) c /\ presented parsed now r (tables w) c.
Proof.
  unfold ssh_branch. intros E. apply bind_Ok in E as (consumed & w1 & E1%attempt_Ok & E).
  destruct consumed as [claims|]; [|done]. destruct (String.eqb _ _) eqn:Eua; [|done].
  cbn [negb] in E. apply String.eqb_eq in Eua.
  apply check_ticket_Pass in E as (Hb & Hid & Hsess & Hm); [|done..].
  split; [eapply in_memory_backed; [|exact E1|exact Hb]; intros t; cbn; by case_match|].
  apply in_memory_Ok in E1 as (t & E1 & _). destruct (Consume _ _ _ _) as [x entries] eqn:Ec.
  injection E1 as -> _. apply (ts_consume_once (ticket_store := ssh_tickets)) in Ec
    as ([k expiresAt] & Hr & <- & Hexp & Hip & _).
  eapply by_ticket; [|done..]. exists expiresAt. auto.
Qed.

Lemma container_branch_Pass database parsed now validated r w c w' :
  container_branch database now validated r w = (Ok (Pass c), w') ->
  backed validated (tables w) c /\ presented parsed now r (tables w) c.
Proof.
  unfold container_branch. intros E. apply bind_Ok in E as (consumed & w1 & E1%attempt_Ok & E).
  destruct consumed as [claims|]; [|done]. destruct (_ || _) eqn:Eua; [done|]. bool_props.
  apply check_ticket_Pass in E as (Hb & Hid & Hsess & Hm); [|done..].
  split; [eapply in_memory_backed; [|exact E1|exact Hb]; intros t; cbn; by case_match|].
  apply in_memory_Ok in E1 as (t & E1 & _). destruct (ConsumeContainer _ _ _ _) as [x entries] eqn:Ec.
  injection E1 as -> _. apply (ts_consume_once (ticket_store := container_tickets)) in Ec
    as ([k expiresAt] & Hr & <- & Hexp & Hip & _).
  apply (by_ticket _ _ _ _ _ (CT_Base k)); [|done..]. exists expiresAt.
  split; [done|]. right. by exists k.
Qed.

Lemma token_branch_Pass database parsed now validated r w c w' :
  token_branch keys database parsed now validated r w = (Ok (Pass c), w') ->
  backed validated (tables w) c /\ presented parsed now r (tables w) c.
Proof.
  unfold token_branch. intros E. destruct (bearer_token r) as [[token mode]|refused] eqn:Eb.
  2: { apply ret_Ok in E as [-> _]. unfold bearer_token in Eb. repeat case_hyp Eb; discriminate Eb. }
  destruct (String.eqb token ""); [done|].
  destruct (ValidateJWT keys parsed now token) as [claims|] eqn:Ej; [|done].
  destruct (String.eqb (cl_SessionID claims) ""); [done|]. destruct (negb database); [done|].
  apply check_session_Pass in E as (Hb & Hid & Hsess & <-). split; [done|].
  by eapply by_token.
Qed.

(** C1: no request passes on the strength of its token alone. Whatever
    statements fail, a request that the middleware lets through showed a token
    that verifies, or an unexpired ticket issued to this address and client;
    its account exists, and behind it stands a session of that account in the
    registry that is neither revoked nor expired and carries the security
    version that the account has now, so that raising the version cuts off
    every token issued before. *)
Theorem authenticated_by_live_session database parsed now validated r w c w'
  (Hpass : AuthMiddleware keys database parsed now validated r w = (Ok (Pass c), w')) :
  backed validated (tables w) c /\ presented parsed now r (tables w) c.
Proof.
  unfold AuthMiddleware in Hpass. destruct (_ && _); [|destruct (_ && _)].
  - by eapply container_branch_Pass.
  - by eapply ssh_branch_Pass.
  - by eapply token_branch_Pass.
Qed.
End authenticated.

(** ** A concrete panel *)

#[global] Instance Claims_eq : EqDecision Claims.
Proof. solve_decision. Defined.

Definition demo_issued : time := Totp.demo_now.

(** A library that signs the claims of the demo account with the identifier of
    the session, and trusts every token. *)
Definition demo_claims (sessionID : string) : Claims :=
  mkClaims 5 "ops" sessionID 1 (Some (demo_issued + 24 * Hour)) (Some demo_issued) "oneinstack-panel".

Definition demo_jwt : JWT.
Proof.
  refine {|
    jwt_SignedString _ c :=
      if decide (c = demo_claims (cl_SessionID c)) then Ok (cl_SessionID c)
      else Fail (ErrorString "unsupported claims");
    jwt_ParseWithClaims _ _ _ _ token := Ok (demo_claims token, true) |}.
  intros _ c token now E _ _. destruct (decide _) as [->|]; [|done]. by injection E as <-.
Defined.

Definition demo_keys : JWTKeys := mkKeys "" (repeat 7 32).
Definition demo_session : Session.UserSession :=
  Session.mkUserSession "s1" 5 "ops" "10.0.0.1" "ua" 1 demo_issued demo_issued
    (demo_issued + 24 * Hour) None "" None.
Definition demo_panel : PanelTables :=
  mkPanel (mkAccessTables [Totp.demo_account] [] [] [] []) [] [demo_session] (mkAuditTables [] None None) []
    ∅ ∅.
Definition demo_request (cookie : option string) : Request :=
  mkRequest "GET" "/v1/sessions" "/v1/sessions" "" "" "10.0.0.1" "ua" "" cookie "" "panel" "10.0.0.1" 0 "r1".

(** The first statement, the lookup of the account, goes through; the load of
    the permissions fails, and the request still passes. *)
Lemma authenticated_by_live_session_witness :
  exists c w', @AuthMiddleware demo_jwt demo_keys true (demo_issued + 1) (demo_issued + 1)
      (demo_issued + 1) (demo_request (Some "s1")) (World demo_panel [None; None; Some "busy"]) =
      (Ok (Pass c), w') /\
    au_AuthMode c = AuthModeCookie /\ au_Access c = None /\
    backed (demo_issued + 1) demo_panel c /\
    @presented demo_jwt demo_keys (demo_issued + 1) (demo_issued + 1) (demo_request (Some "s1"))
      demo_panel c.
Proof.
  eexists _, _. split; [vm_compute; reflexivity|]. split; [reflexivity|]. split; [reflexivity|].
  apply (@authenticated_by_live_session demo_jwt demo_keys true (demo_issued + 1) (demo_issued + 1)
    (demo_issued + 1) (demo_request (Some "s1")) (World demo_panel [None; None; Some "busy"]) _
    (World demo_panel [])).
  vm_compute. reflexivity.
Defined.
