(* ===== verification/Login.v ===== *)
(** Login, logout and the change of the own password:
    [router/handler/user/user.go], [internal/services/audit/auth.go],
    [internal/services/user/user_service.go] and the password part of
    [internal/services/system/sys_service.go], over the tables of
    [Authentication].

    The theorems compose the components: a login needs every factor and gives a
    token that the middleware accepts, and a revoked session stays refused
    through any further history of the panel. *)

From S2P Require Import Prelude GoStrings GoText GoCrypto Store Credential AuditTrail Access Ticket.
From S2P Require Import Authentication.
From S2P Require Session Totp Authorization.
From stdpp Require Import options.
#[local] Open Scope Z_scope.

(** ** Passwords *)

(** The tables of [unicode] beyond ASCII. *)
Class UnicodeKind := {
  uk_upper : Z -> bool; uk_lower : Z -> bool; uk_number : Z -> bool;
  uk_special : Z -> bool  (* punctuation or symbol *)
}.

Definition between (a r b : Z) : bool := (a <=? r) && (r <=? b).

Section passwords.
Context `{!UnicodeCase} `{!UnicodeKind}.

Definition isUpper (r : Z) : bool := if r <? 128 then between 65 r 90 else uk_upper r.
Definition isLower (r : Z) : bool := if r <? 128 then between 97 r 122 else uk_lower r.
Definition isNumber (r : Z) : bool := if r <? 128 then between 48 r 57 else uk_number r.
Definition isPunctOrSymbol (r : Z) : bool :=
  if r <? 128 then between 33 r 47 || between 58 r 64 || between 91 r 96 || between 123 r 126
  else uk_special r.

Record kinds := mkKinds { hasUpper : bool; hasLower : bool; hasNumber : bool; hasSpecial : bool }.

(** One rune of the loop; the first case that holds. *)
Definition see (k : kinds) (char : Z) : kinds :=
  if isUpper char then mkKinds true (hasLower k) (hasNumber k) (hasSpecial k)
  else if isLower char then mkKinds (hasUpper k) true (hasNumber k) (hasSpecial k)
  else if isNumber char then mkKinds (hasUpper k) (hasLower k) true (hasSpecial k)
  else if isPunctOrSymbol char then mkKinds (hasUpper k) (hasLower k) (hasNumber k) true
  else k.

Definition commonPasswords : list string := [
  "password"; "123456"; "123456789"; "12345678"; "12345"; "1234567";
  "admin"; "administrator"; "root"; "user"; "test"; "guest"].

Fixpoint fold_prefix (p l : list Z) : bool :=
  match p, l with
  | [], _ => true
  | q :: p, r :: l => ((r =? q) || fold_rune r q) && fold_prefix p l
  | _, [] => false
  end.

(** [regexp.MatchString("(?i)" + common, s)] for a literal [common]: it folds
    rune by rune. *)
Fixpoint fold_contains (p l : list Z) : bool :=
  fold_prefix p l || match l with [] => false | _ :: l => fold_contains p l end.

Definition newPasswordStrengthError (message : string) : error := ErrorString message.

Definition validatePasswordStrength (password : string) : result unit :=
  if len password <? 8 then Fail (newPasswordStrengthError "密码长度不能少于 8 个字符")
  else if 128 <? len password then Fail (newPasswordStrengthError "密码长度不能超过 128 个字符")
  else
    let k := fold_left see (runes password) (mkKinds false false false false) in
    if negb (hasUpper k) then Fail (newPasswordStrengthError "密码必须包含至少一个大写字母")
    else if negb (hasLower k) then Fail (newPasswordStrengthError "密码必须包含至少一个小写字母")
    else if negb (hasNumber k) then Fail (newPasswordStrengthError "密码必须包含至少一个数字")
    else if negb (hasSpecial k) then Fail (newPasswordStrengthError "密码必须包含至少一个特殊字符")
    else if existsb (fun common => fold_contains (runes common) (runes password)) commonPasswords then
      Fail (newPasswordStrengthError "密码不能包含 123456、password、admin 等常见弱密码片段")
    else Ok tt.
End passwords.

Definition ErrCurrentPasswordInvalid : string := "current password is invalid".

Definition with_password (hashed : string) (version : Z) (u : User) : User :=
  mkUser (User_ID u) (User_Username u) hashed (User_IsAdmin u) (User_FirstJoin u) false version
    (User_CreateTime u).

Definition change_password (userID : Z) (hashed : string) (version : Z) (t : Totp.SecurityTables)
    : result (unit * Totp.SecurityTables) :=
  Ok (tt, Totp.set_users t (map (fun u =>
    if User_ID u =? userID then with_password hashed version u else u) (Totp.sec_users t))).

Definition revoke_live (now : time) (userID : Z) (reason : string) (t : Totp.SecurityTables)
    : result (unit * Totp.SecurityTables) :=
  Ok (tt, Totp.set_sessions t (map (fun r =>
    if Session.scoped r && (Session.UserID r =? userID) && Session.is_none (Session.RevokedAt r)
    then Session.with_revocation now reason r else r) (Totp.sec_sessions t))).

(** ** Login *)

Definition ErrBadRequest : Z := 1000.
Definition ErrInternalError : Z := 1003.
Definition ErrInvalidPassword : Z := 1103.
Definition Login_Type : Z := 1.
Definition MaxAge : duration := 24 * Hour.

(** [core.AppError]: code, message, detail and field. *)
Record AppError := mkAppError { ae_Code : Z; ae_Message : string; ae_Detail : string; ae_Field : string }.
Definition NewError (code : Z) (message : string) : AppError := mkAppError code message "" "".
Definition NewErrorWithDetail (code : Z) (message detail : string) : AppError :=
  mkAppError code message detail "".
Definition NewFieldError (code : Z) (message field : string) : AppError :=
  mkAppError code message "" field.
Definition WrapError (err : error) (code : Z) (message : string) : AppError :=
  mkAppError code message (Error err) "".

(** [^[a-zA-Z0-9_-]+$]. *)
Definition username_char (c : ascii) : bool :=
  let r := byte_of c in
  between 97 r 122 || between 65 r 90 || between 48 r 57 || (r =? 95) || (r =? 45).

Definition ValidateUsername (username : string) : option AppError :=
  if String.eqb username "" then Some (NewFieldError ErrBadRequest "用户名不能为空" "username")
  else if len username <? 3 then
    Some (NewFieldError ErrBadRequest "用户名长度不能少于3个字符" "username")
  else if 32 <? len username then
    Some (NewFieldError ErrBadRequest "用户名长度不能超过32个字符" "username")
  else if negb (forallb username_char (String.list_ascii_of_string username)) then
    Some (NewFieldError ErrBadRequest "用户名只能包含字母、数字、下划线和连字符" "username")
  else None.

Record LoginRequest := mkLogin { lr_Username : string; lr_Password : string; lr_TOTPCode : string }.

(** The instants at which the handler reads the clock. *)
Record login_times := mkTimes {
  lt_verify : time; lt_expiry : time; lt_create : time; lt_token : time; lt_revoke : time;
  lt_log : time; lt_event : time; lt_append : time
}.

(** The answers of the login handler; a login carries the cookie written and
    the contents of the answer. *)
Inductive login_answer :=
  | LoginRefused (e : AppError)
  | SecondFactorRequired
  | LoggedIn (cookie : string) (account : User) (firstAccessibleMenu : string)
      (access : option UserAccess) (totpEnabled : bool).

(** [GetUserByUsername]. *)
Definition account_named (username : string) (t : AccessTables) : option User :=
  List.find (fun u => String.eqb (User_Username u) username) (users t).

Definition create_log (now : time) (r : Request) (info : Z) (content username : string)
    : M PanelTables unit :=
  let* _ := attempt (exec (fun t => Ok (tt, put_logs (p_logs t ++
    [mkLog Login_Type info content (rq_ClientIP r) (rq_UserAgent r) username now]) t))) in
  ret tt.

Section login.
Context `{!UnicodeCase} `{!AEAD} `{!Totp.HashListCodec} `{!JWT}.
(** [bcrypt], the credential key, the keys of tokens, the menu settings, and
    the audit manager when there is one. *)
Variable CheckPasswordHash : string -> string -> bool.
Variable credential_key : CredentialKey.
Variable keys : JWTKeys.
Variable config : Authorization.Config.
Variable manager : option Manager.

Definition auth_event (now : time) (r : Request) (action username : string) (userID status : Z)
    (outcome authMode message : string) : EventInput :=
  {| in_RequestID := rq_RequestID r; in_EventType := "auth"; in_Action := action;
     in_Method := rq_Method r; in_Route := rq_FullPath r; in_Path := rq_Path r;
     in_Status := status; in_Outcome := outcome; in_Sensitive := true; in_UserID := userID;
     in_Username := username; in_AuthMode := authMode; in_RemoteIP := rq_RemoteIP r;
     in_UserAgent := rq_UserAgent r; in_ContentLength := rq_ContentLength r; in_DurationMS := 0;
     in_Message := message; in_CreatedAt := now |}.

Definition RecordAuthEvent (now appended : time) (r : Request) (action username : string)
    (userID status : Z) (outcome authMode message : string) : M PanelTables unit :=
  match manager with
  | None => ret tt
  | Some _ =>
      let* _ := attempt (on_audit (Append manager appended
        (auth_event now r action username userID status outcome authMode message))) in
      ret tt
  end.

Definition CheckUserPassword (username password : string) : M PanelTables (option User) :=
  let* found := attempt (on_access (first (account_named username))) in
  match found with
  | Fail _ => ret None
  | Ok u => ret (if CheckPasswordHash password (User_Password u) then Some u else None)
  end.

(** The session, its token, and the records of a login (136-209); [random] is
    the identifier of the new session. *)
Definition open_session (n : login_times) (random : result string) (r : Request) (username : string)
    (account : User) (totpEnabled : bool) : M PanelTables login_answer :=
  let* created := attempt (on_sessions (Session.Create random (lt_create n)
    {| Session.in_UserID := User_ID account; Session.in_Username := User_Username account;
       Session.in_RemoteIP := rq_RemoteIP r; Session.in_UserAgent := rq_UserAgent r;
       Session.in_SecurityVersion := Totp.EffectiveSecurityVersion account;
       Session.in_ExpiresAt := lt_expiry n + MaxAge |})) in
  match created with
  | Fail err => ret (LoginRefused (WrapError err ErrInternalError "创建登录会话失败"))
  | Ok sessionRecord =>
      match GenerateSessionJWT keys (lt_token n) (User_Username account) (User_ID account)
              (Session.ID sessionRecord) (Totp.EffectiveSecurityVersion account) with
      | Fail err =>
          let* _ := attempt (on_sessions (Session.Revoke (lt_revoke n) (User_ID account)
            (Session.ID sessionRecord) "token_generation_failed")) in
          let* _ := create_log (lt_log n) r 0 "登录失败-生成Token错误" username in
          ret (LoginRefused (WrapError err ErrInternalError "生成访问令牌失败"))
      | Ok (token, _) =>
          let* loaded := attempt (on_access (LoadUserAccess (User_ID account))) in
          let accessSummary := match loaded with Ok access => Some access | Fail _ => None end in
          let* _ := create_log (lt_log n) r 1 "登录成功" username in
          let* _ := RecordAuthEvent (lt_event n) (lt_append n) r "auth.login" (User_Username account)
            (User_ID account) 200 "success" AuthModeCookie "" in
          ret (LoggedIn token account
            (Authorization.FirstAccessibleMenu (Authorization.BuildAuthorizationMatrix config accessSummary))
            accessSummary totpEnabled)
      end
  end.

(** The second factor of an account whose password is right (97-134). *)
Definition check_second_factor (n : login_times) (r : Request) (username code : string)
    (account : User) : M PanelTables (login_answer + bool) :=
  let* status := attempt (on_security (Totp.IsEnabled (User_ID account))) in
  match status with
  | Fail err => ret (inl (LoginRefused (WrapError err ErrInternalError "读取二次认证状态失败")))
  | Ok false => ret (inr false)
  | Ok true =>
      if String.eqb code "" then ret (inl SecondFactorRequired)
      else
        let* verified := attempt (on_security (Totp.VerifyLoginCode credential_key (lt_verify n)
          (User_ID account) code)) in
        match verified with
        | Ok _ => ret (inr true)
        | Fail err =>
            let* _ := RecordAuthEvent (lt_event n) (lt_append n) r "auth.totp_failed"
              (User_Username account) (User_ID account) 401 "failure" AuthModeCookie
              "动态口令或恢复码无效" in
            let* _ := create_log (lt_log n) r 0 "登录失败-二次认证错误" username in
            ret (inl (LoginRefused
              (if errors_Is err Totp.ErrInvalidSecondFactor
               then NewError ErrInvalidPassword "动态口令或恢复码无效"
               else WrapError err ErrInternalError "校验二次认证失败")))
        end
  end.

(** [bound] is the error of the binding of the body, if it failed. *)
Definition LoginHandler (n : login_times) (random : result string) (r : Request)
    (bound : option error) (req : LoginRequest) : M PanelTables login_answer :=
  match bound with
  | Some err =>
      let* _ := create_log (lt_log n) r 0 "登录失败-请求参数错误" (lr_Username req) in
      ret (LoginRefused (NewErrorWithDetail ErrBadRequest "登录请求参数格式不正确" (Error err)))
  | None =>
      let username := TrimSpace (lr_Username req) in
      match ValidateUsername username with
      | Some err =>
          let* _ := create_log (lt_log n) r 0 "登录失败-用户名格式错误" username in
          ret (LoginRefused err)
      | None =>
          if String.eqb (lr_Password req) "" then
            let* _ := create_log (lt_log n) r 0 "登录失败-密码为空" username in
            ret (LoginRefused (NewFieldError ErrBadRequest "密码不能为空" "password"))
          else
            let* checked := CheckUserPassword username (lr_Password req) in
            match checked with
            | None =>
                let* _ := RecordAuthEvent (lt_event n) (lt_append n) r "auth.login_failed" username 0
                  401 "failure" AuthModeCookie "用户名或密码错误" in
                let* _ := create_log (lt_log n) r 0 "登录失败-密码错误" username in
                ret (LoginRefused (NewError ErrInvalidPassword "用户名或密码错误"))
            | Some account =>
                let* factor := check_second_factor n r username (lr_TOTPCode req) account in
                match factor with
                | inl answer => ret answer
                | inr totpEnabled => open_session n random r username account totpEnabled
                end
            end
      end
  end.

(** [c]: what the middleware left. *)
Definition LogoutHandler (revoked now appended : time) (r : Request) (c : AuthContext)
    : M PanelTables unit :=
  if negb (0 <? au_UserID c) then ret tt
  else
    let* _ := if String.eqb (au_SessionID c) "" then ret tt
              else
                let* _ := attempt (on_sessions (Session.Revoke revoked (au_UserID c) (au_SessionID c)
                  "logout")) in
                ret tt in
    RecordAuthEvent now appended r "auth.logout" (au_Username c) (au_UserID c) 200 "success"
      AuthModeCookie "".

(** [hashed] is the outcome of [crypto.HashPassword]. *)
Definition ResetPassword `{!UnicodeKind} (now : time) (userID : Z)
    (currentPassword newPassword : string) (hashed : result string) : M Totp.SecurityTables unit :=
  match validatePasswordStrength newPassword with
  | Fail err => fail err
  | Ok _ =>
      match hashed with
      | Fail err => fail (ErrorString ("failed to hash password: " +:+ Error err))
      | Ok hashedPassword =>
          transaction
            (let* u := first (Totp.user_of userID) in
             if negb (User_MustChangePassword u)
                && negb (CheckPasswordHash currentPassword (User_Password u)) then
               fail (Sentinel ErrCurrentPasswordInvalid)
             else
               let nextVersion := u64 (Totp.EffectiveSecurityVersion u + 1) in
               let* _ := exec (change_password userID hashedPassword nextVersion) in
               exec (revoke_live now userID "password_changed"))
      end
  end.
End login.

(** ** What the parts leave alone *)

Section two_factor_frame.
Context `{!UnicodeCase} `{!AEAD} `{!Totp.HashListCodec}.
Variable J : Totp.SecurityTables -> Prop.
Hypothesis J_mfa : forall t l, J t -> J (Totp.set_mfa t l).

Lemma preserves_save_mfa r : preserves J (exec (Totp.save_mfa r)).
Proof using J_mfa. apply preserves_exec. intros t [] t' [= <-]. apply J_mfa. Qed.

Lemma preserves_update_mfa c f : preserves J (exec (Totp.update_mfa c f)).
Proof using J_mfa. apply preserves_exec. intros t a t' [= _ <-]. apply J_mfa. Qed.

#[local] Hint Resolve preserves_save_mfa preserves_update_mfa : store.

Lemma preserves_VerifyLoginCode key now user code :
  preserves J (Totp.VerifyLoginCode key now user code).
Proof using J_mfa. unfold Totp.VerifyLoginCode, Totp.verify_login_tx. preserving. Qed.

Lemma preserves_IsEnabled user : preserves J (Totp.IsEnabled user).
Proof. unfold Totp.IsEnabled. preserving. Qed.

Hypothesis J_bump : forall t l, J t -> J (Totp.set_users t l).
Hypothesis J_revoke : forall t now user, J t ->
  forall t', Totp.revoke_sessions now user t = Ok (tt, t') -> J t'.

Lemma preserves_two_factor check escape key op w :
  J (tables w) -> J (tables (Totp.perform check escape key op w)).
Proof using J_mfa J_bump J_revoke.
  assert (Hb : forall user v, preserves J (exec (Totp.bump_version user v)))
    by (intros user v; apply preserves_exec; intros t [] t' [= <-]; apply J_bump).
  assert (Hr : forall now user, preserves J (exec (Totp.revoke_sessions now user)))
    by (intros now user; apply preserves_exec; intros t [] t' E Ht; by eapply J_revoke).
  destruct op; cbn [Totp.perform].
  - revert w. change (preserves J (Totp.Setup key escape random nonce userID username)).
    unfold Totp.Setup, Totp.setup_record, Totp.setup_pending. preserving.
  - revert w. change (preserves J (Totp.Confirm check key now random nonce userID password code)).
    unfold Totp.Confirm, Totp.loadUserAndMFA. preserving.
  - revert w. apply preserves_VerifyLoginCode.
  - revert w. change (preserves J (Totp.Disable check key now revoked userID password code)).
    unfold Totp.Disable, Totp.loadUserAndMFA. preserving.
  - revert w. change (preserves J (Totp.RegenerateRecoveryCodes check key now random userID password code)).
    unfold Totp.RegenerateRecoveryCodes, Totp.loadUserAndMFA. preserving.
Qed.
End two_factor_frame.

Section panel_frame.
Context `{!UnicodeCase}.
Variable I : PanelTables -> Prop.

Lemma preserves_on_readonly {S A} (get : PanelTables -> S) put (m : M S A) :
  (forall t, put (get t) t = t) -> readonly m -> preserves I (zoom get put m).
Proof.
  intros Hput Hm w Hw. unfold zoom. pose proof (Hm (World (get (tables w)) (faults w))) as E.
  destruct (m _) as [r v]. cbn in *. by rewrite E, Hput.
Qed.

Lemma preserves_on_access {A} (m : M AccessTables A) :
  readonly m -> preserves I (on_access m).
Proof. apply preserves_on_readonly, put_access_same. Qed.

Lemma readonly_LoadUserAccess userID : readonly (LoadUserAccess userID).
Proof.
  unfold LoadUserAccess. apply readonly_bind; [apply readonly_first|]. intros u.
  destruct (User_IsAdmin u); [apply readonly_ret|]. apply readonly_bind; [apply readonly_read|].
  intros rows. destruct (foldl _ _ _). apply readonly_ret.
Qed.

Lemma preserves_CheckUserPassword check username password :
  preserves I (CheckUserPassword check username password).
Proof.
  unfold CheckUserPassword. preserving. by apply preserves_on_access, readonly_first.
Qed.

Hypothesis I_logs : forall l t, I t -> I (put_logs l t).
Hypothesis I_audit : forall a t, I t -> I (put_audit a t).

Lemma preserves_create_log now r info content username :
  preserves I (create_log now r info content username).
Proof using I_logs.
  unfold create_log. preserving. apply preserves_exec. intros t [] t' [= <-]. apply I_logs.
Qed.

Lemma preserves_RecordAuthEvent manager now appended r action username userID status out mode message :
  preserves I (RecordAuthEvent manager now appended r action username userID status out mode message).
Proof using I_audit.
  unfold RecordAuthEvent. preserving. apply (preserves_zoom _ (fun _ => True)); [done| |by intros w _].
  intros x t Ht _. by apply I_audit.
Qed.

(** Everything of a login but the session itself. *)
Hypothesis I_mfa : forall l t, I t ->
  I (put_security (Totp.set_mfa (get_security t) l) t).

Lemma preserves_on_security {A} (m : M Totp.SecurityTables A) :
  (forall J : Totp.SecurityTables -> Prop, (forall t l, J t -> J (Totp.set_mfa t l)) -> preserves J m) ->
  preserves I (on_security m).
Proof using I_mfa.
  intros Hm w Hw. unfold zoom.
  pose proof (Hm (fun s => exists l, s = Totp.set_mfa (get_security (tables w)) l)) as Hv.
  assert (Hstep : forall t l, (exists l, t = Totp.set_mfa (get_security (tables w)) l) ->
    exists l', Totp.set_mfa t l = Totp.set_mfa (get_security (tables w)) l')
    by (intros t l [l0 ->]; by exists l).
  specialize (Hv Hstep (World (get_security (tables w)) (faults w)) ltac:(by exists (p_mfa (tables w)))).
  destruct (m _) as [r v]. destruct Hv as [l E]. cbn in *. rewrite E. by apply I_mfa.
Qed.

Lemma preserves_check_second_factor `{!AEAD} `{!Totp.HashListCodec} key manager n r username code account :
  preserves I (check_second_factor key manager n r username code account).
Proof using I_logs I_audit I_mfa.
  unfold check_second_factor. preserving.
  all: first [ apply preserves_on_security; intros J HJ
             | apply preserves_RecordAuthEvent | apply preserves_create_log ].
  - by apply preserves_IsEnabled.
  - by apply preserves_VerifyLoginCode.
Qed.
End panel_frame.

(** ** What a login takes, and what it gives *)

Section login_properties.
Context `{!UnicodeCase} `{!AEAD} `{!Totp.HashListCodec} `{!JWT}.
Variable CheckPasswordHash : string -> string -> bool.
Variable credential_key : CredentialKey.
Variable keys : JWTKeys.
Variable config : Authorization.Config.
Variable manager : option Manager.

Abbreviation login := (LoginHandler CheckPasswordHash credential_key keys config manager).

Lemma CheckUserPassword_Some username password w u w' :
  CheckUserPassword CheckPasswordHash username password w = (Ok (Some u), w') ->
  account_named username (p_access (tables w)) = Some u /\
  CheckPasswordHash password (User_Password u) = true /\ tables w' = tables w.
Proof.
  unfold CheckUserPassword. intros E. apply bind_Ok in E as (found & w1 & E1%attempt_Ok & E).
  destruct found as [a|]; [|done]. apply on_access_first in E1 as [Ha Ht].
  apply ret_Ok in E as [E ->]. destruct (CheckPasswordHash _ _) eqn:Ec; [|done].
  injection E as <-. by rewrite Ht.
Qed.

(** The second factor was not required, or it was verified. *)
Definition second_factor_met (n : login_times) (id : Z) (code : string) (enabled : bool)
    (t : PanelTables) : Prop :=
  if enabled then
    (exists m, Totp.mfa_of id (get_security t) = Some m /\ Totp.Enabled m = true) /\
    exists v v', tables v = get_security t /\
      Totp.VerifyLoginCode credential_key (lt_verify n) id code v = (Ok tt, v')
  else forall m, Totp.mfa_of id (get_security t) = Some m -> Totp.Enabled m = false.

Lemma IsEnabled_Ok id w b w' :
  Totp.IsEnabled id w = (Ok b, w') ->
  tables w' = tables w /\
  match Totp.mfa_of id (tables w) with Some m => Totp.Enabled m = b | None => b = false end.
Proof.
  unfold Totp.IsEnabled. intros E. apply bind_Ok in E as (found & w1 & E1%attempt_Ok & E).
  destruct found as [m|e].
  - apply first_Ok in E1 as [Hm Ht]. apply ret_Ok in E as [<- ->]. by rewrite Hm.
  - destruct (is_not_found e) eqn:En; [|done]. apply ret_Ok in E as [<- ->].
    pose proof (first_tables _ _ _ _ E1) as Ht. split; [done|].
    destruct (first_not_found _ _ _ _ E1 En) as [Hn _]. by rewrite Hn.
Qed.

Lemma put_security_same t : put_security (get_security t) t = t.
Proof. by destruct t as [[] ? ? ? ? ? ?]. Qed.

Lemma check_second_factor_passed n r username code account w b w' :
  check_second_factor credential_key manager n r username code account w = (Ok (inr b), w') ->
  second_factor_met n (User_ID account) code b (tables w).
Proof.
  unfold check_second_factor. intros E. apply bind_Ok in E as (status & w1 & E1%attempt_Ok & E).
  destruct status as [enabled|]; [|done]. apply zoom_run in E1 as (v & E1 & ->).
  apply IsEnabled_Ok in E1 as [Ht E1]. cbn [tables] in *. destruct enabled.
  - destruct (String.eqb code ""); [done|].
    apply bind_Ok in E as (verified & w2 & E2%attempt_Ok & E).
    destruct verified as [[]|]; [|by repeat (apply bind_Ok in E as (? & ? & _ & E))].
    apply ret_Ok in E as [[= <-] _]. apply zoom_run in E2 as (v' & E2 & _). cbn [tables faults] in *.
    destruct (Totp.mfa_of _ _) as [m|] eqn:Em; [|done]. split; [by exists m|].
    eexists _, v'. split; [|exact E2]. cbn. by rewrite Ht, put_security_same.
  - apply ret_Ok in E as [[= <-] _]. intros m Hm. by rewrite Hm in E1.
Qed.

Lemma login_inv n random r bound req w token account menu access enabled w' :
  login n random r bound req w = (Ok (LoggedIn token account menu access enabled), w') ->
  bound = None /\ lr_Password req <> "" /\
  account_named (TrimSpace (lr_Username req)) (p_access (tables w)) = Some account /\
  CheckPasswordHash (lr_Password req) (User_Password account) = true /\
  exists w1 w2, tables w1 = tables w /\
    check_second_factor credential_key manager n r (TrimSpace (lr_Username req)) (lr_TOTPCode req)
      account w1 = (Ok (inr enabled), w2) /\
    open_session keys config manager n random r (TrimSpace (lr_Username req)) account enabled w2 =
      (Ok (LoggedIn token account menu access enabled), w').
Proof.
  unfold LoginHandler. intros E.
  destruct bound as [err|]; [by repeat (apply bind_Ok in E as (? & ? & _ & E))|].
  destruct (ValidateUsername _); [by repeat (apply bind_Ok in E as (? & ? & _ & E))|].
  destruct (String.eqb _ _) eqn:Ep; [by repeat (apply bind_Ok in E as (? & ? & _ & E))|].
  apply String.eqb_neq in Ep.
  apply bind_Ok in E as (checked & w1 & E1 & E).
  destruct checked as [u|]; [|by repeat (apply bind_Ok in E as (? & ? & _ & E))].
  apply CheckUserPassword_Some in E1 as (Hn & Hc & Ht).
  apply bind_Ok in E as (factor & w2 & E2 & E). destruct factor as [answer|b].
  { apply ret_Ok in E as [-> _]. exfalso. revert E2. unfold check_second_factor. intros E2.
    apply bind_Ok in E2 as (status & w3 & _ & E2).
    destruct status as [[]|]; [|discriminate E2|discriminate E2].
    destruct (String.eqb _ _); [discriminate E2|].
    apply bind_Ok in E2 as (verified & w4 & _ & E2).
    destruct verified; [discriminate E2|]. by repeat (apply bind_Ok in E2 as (? & ? & _ & E2)). }
  assert (u = account /\ b = enabled) as [-> ->].
  { pose proof E as E3. unfold open_session in E3. apply bind_Ok in E3 as (created & w3 & _ & E3).
    destruct created; [|discriminate E3]. destruct (GenerateSessionJWT _ _ _ _ _ _) as [[]|].
    - repeat (apply bind_Ok in E3 as (? & ? & _ & E3)). apply ret_Ok in E3 as [E3 _].
      revert E3. generalize (Authorization.BuildAuthorizationMatrix config). intros g E3.
      injection E3 as _ -> _ _ ->. auto.
    - by repeat (apply bind_Ok in E3 as (? & ? & _ & E3)). }
  split_and!; [done..|]. by exists w1, w2.
Qed.

Lemma open_session_inv n random r username account enabled w token account' menu access enabled' w' :
  open_session keys config manager n random r username account enabled w =
    (Ok (LoggedIn token account' menu access enabled'), w') ->
  exists s kept, random = Ok (Session.ID s) /\ 0 < User_ID account /\
    GenerateSessionJWT keys (lt_token n) (User_Username account) (User_ID account) (Session.ID s)
      (Totp.EffectiveSecurityVersion account) = Ok (token, lt_token n + 24 * Hour) /\
    s = Session.mkUserSession (Session.ID s) (User_ID account) (User_Username account) (rq_RemoteIP r)
      (rq_UserAgent r) (Totp.EffectiveSecurityVersion account) (lt_create n) (lt_create n)
      (lt_expiry n + MaxAge) None "" None /\
    p_sessions (tables w') = kept ++ [s] /\
    (forall q, In q kept -> In q (p_sessions (tables w)) /\ Session.ID q <> Session.ID s) /\
    p_access (tables w') = p_access (tables w).
Proof.
  unfold open_session. intros E. apply bind_Ok in E as (created & w1 & E1%attempt_Ok & E).
  destruct created as [s|]; [|by apply ret_Ok in E as [E _]].
  apply zoom_run in E1 as (v & E1 & ->).
  apply Session.Create_Ok in E1 as (kept & Hr & Hu & _ & Hs & Ht & Hk). cbn in Hs, Ht, Hk, Hu.
  rewrite effective_version_idem in Hs.
  destruct (GenerateSessionJWT _ _ _ _ _ _) as [[tk e]|] eqn:Ej.
  2: by repeat (apply bind_Ok in E as (? & ? & _ & E)).
  set (I := fun t : PanelTables => p_sessions t = kept ++ [s] /\ p_access t = p_access (tables w)).
  apply bind_Ok in E as (loaded & w2 & E2%attempt_Ok & E).
  apply bind_Ok in E as ([] & w3 & E3 & E). apply bind_Ok in E as ([] & w4 & E4 & E).
  apply ret_Ok in E as [E ->].
  assert (Hw2 : I (tables w2)).
  { change w2 with (loaded, w2).2. rewrite <- E2.
    by apply preserves_on_access; [apply readonly_LoadUserAccess|]. }
  assert (Hw3 : I (tables w3)).
  { change w3 with (Ok tt, w3).2. rewrite <- E3. by apply preserves_create_log. }
  assert (Hw4 : I (tables w4)).
  { change w4 with (Ok tt, w4).2. rewrite <- E4. by apply preserves_RecordAuthEvent. }
  revert E. generalize (Authorization.BuildAuthorizationMatrix config). intros g E.
  injection E as <- _ _ _ _. destruct Hw4 as [Hs4 Ha4]. exists s, kept. split_and!; try done.
  pose proof Ej as Ej'. unfold GenerateSessionJWT, generateJWT in Ej'.
  destruct (String.eqb _ _); [done|]. destruct (getJWTKey keys); [|done].
  destruct (jwt_SignedString _ _); [|done]. injection Ej' as -> <-. done.
Qed.

(** C3: a login takes every factor. Whatever statements fail, a request that is
    logged in named an account of the table and gave a password that matches
    its hash; if the account has two-factor authentication, the code it gave
    was verified and consumed by [VerifyLoginCode]; and the token it gets is
    signed for that account and for a session that was just created for it,
    under an identifier no other row has. *)
Theorem login_takes_every_factor n random r bound req w token account menu access enabled w'
  (Hin : login n random r bound req w = (Ok (LoggedIn token account menu access enabled), w')) :
  account_named (TrimSpace (lr_Username req)) (p_access (tables w)) = Some account /\
  lr_Password req <> "" /\ CheckPasswordHash (lr_Password req) (User_Password account) = true /\
  second_factor_met n (User_ID account) (lr_TOTPCode req) enabled (tables w) /\
  exists s kept, p_sessions (tables w') = kept ++ [s] /\
    (forall q, In q kept -> In q (p_sessions (tables w)) /\ Session.ID q <> Session.ID s) /\
    random = Ok (Session.ID s) /\ Session.UserID s = User_ID account /\
    Session.ExpiresAt s = lt_expiry n + MaxAge /\
    GenerateSessionJWT keys (lt_token n) (User_Username account) (User_ID account) (Session.ID s)
      (Totp.EffectiveSecurityVersion account) = Ok (token, lt_token n + 24 * Hour).
Proof.
  apply login_inv in Hin as (_ & Hp & Hn & Hc & w1 & w2 & Ht & E1 & E2).
  pose proof (check_second_factor_passed _ _ _ _ _ _ _ _ E1) as Hf. rewrite Ht in Hf.
  split_and!; [done..|].
  assert (Hs : p_sessions (tables w2) = p_sessions (tables w)).
  { change w2 with (Ok (A := login_answer + bool) (inr enabled), w2).2. rewrite <- E1.
    apply (preserves_check_second_factor (fun t => p_sessions t = p_sessions (tables w))); try done.
    by rewrite Ht. }
  apply open_session_inv in E2 as (s & kept & Hr & Hu & Hj & Hs' & Ht' & Hk & _).
  rewrite Hs in Hk. exists s, kept. rewrite Hs'. cbn. rewrite <- Hs'. by split_and!.
Qed.

Lemma find_last_by {A} (c : A -> bool) (kept : list A) x :
  (forall q, In q kept -> c q = false) -> c x = true -> List.find c (kept ++ [x]) = Some x.
Proof.
  induction kept as [|q kept IH]; cbn; intros Hk Hx; [by rewrite Hx|].
  rewrite (Hk q) by auto. apply IH; auto.
Qed.

Lemma run_on_access_first {A} (f : AccessTables -> option A) t a :
  f (p_access t) = Some a -> on_access (first f) (World t []) = (Ok a, World t []).
Proof.
  intros E. unfold zoom. cbn [tables faults]. rewrite run_first, E. cbn. by rewrite put_access_same.
Qed.

Lemma check_session_live mode now claims account s t :
  account_by_id (cl_Id claims) (p_access t) = Some account ->
  cl_SecurityVersion claims = Totp.EffectiveSecurityVersion account ->
  cl_SessionID claims = Session.ID s -> cl_Id claims = Session.UserID s ->
  (exists s' t', Session.Validate now (Session.ID s) (Session.UserID s)
     (Totp.EffectiveSecurityVersion account) (World (p_sessions t) []) = (Ok s', World t' [])) ->
  exists c w, check_session mode now claims (World t []) = (Ok (Pass c), w) /\
    au_UserID c = cl_Id claims /\ au_Username c = User_Username account /\
    au_SessionID c = cl_SessionID claims /\ au_AuthMode c = mode.
Proof.
  intros Ha Hv Hs Hu (s' & t' & Hval). unfold check_session. unfold bind at 1, attempt at 1.
  rewrite (run_on_access_first _ _ _ Ha), Hv, Z.eqb_refl. cbn [negb].
  unfold bind at 1, attempt at 1, zoom at 1. cbn [tables faults].
  rewrite Hs, Hu, Hval. unfold bind at 1, attempt at 1.
  destruct (on_access _ _) as [loaded w2]. eexists _, _. split; [reflexivity|]. cbn. by rewrite <- Hu.
Qed.

Lemma ValidateJWT_generated now username id session version token e parsed checked :
  GenerateSessionJWT keys now username id session version = Ok (token, e) ->
  version <> 0 -> parsed < NewNumericDate (now + 24 * Hour) ->
  checked <= NewNumericDate (now + 24 * Hour) ->
  session <> "" /\ exists claims, ValidateJWT keys parsed checked token = Ok claims /\
    cl_Id claims = id /\ cl_SessionID claims = session /\ cl_SecurityVersion claims = version.
Proof.
  unfold GenerateSessionJWT, generateJWT, ValidateJWT. intros E Hv Hp Hc.
  destruct (String.eqb session "") eqn:Es; [done|]. apply String.eqb_neq in Es.
  rewrite (proj2 (Z.eqb_neq _ _) Hv) in E. destruct (getJWTKey keys) as [key|]; [|done].
  destruct (jwt_SignedString key _) as [signed|] eqn:Esig; [|done]. injection E as <- _.
  assert (Htrunc : forall t, NewNumericDate t mod Second = 0).
  { intros t. unfold NewNumericDate, Second.
    pose proof (Z.div_mod t 1000000000 ltac:(lia)) as Hd.
    replace (t - t mod 1000000000) with (t / 1000000000 * 1000000000) by lia.
    by apply Z.mod_mul. }
  apply jwt_parse_signed with (now := parsed) in Esig.
  - cbn [cl_Issuer] in Esig. rewrite Esig. cbn [negb cl_ExpiresAt]. unfold Before.
    destruct (_ <? checked) eqn:Eb; [bool_props; lia|]. split; [done|]. by eexists.
  - intros x [= <-]. by split.
  - intros x [= <-]. done.
Qed.

(** C4: a login is good for the requests that follow it. The cookie that a
    login writes authenticates the next request that carries it, as the same
    account and the session just created, until the token or the session
    expires. The account is the one that its identifier names, and no statement
    of that request fails. *)
Theorem login_then_authenticated n random r bound req w token account menu access enabled w'
    parsed now validated r'
  (Hin : login n random r bound req w = (Ok (LoggedIn token account menu access enabled), w'))
  (Hkey : account_by_id (User_ID account) (p_access (tables w)) = Some account)
  (Htoken : token <> "")
  (Hcookie : rq_Authorization r' = "" /\ rq_Cookie r' = Some token /\ rq_Ticket r' = "")
  (Hlimit : parsed < NewNumericDate (lt_token n + 24 * Hour))
  (Hnow : now <= NewNumericDate (lt_token n + 24 * Hour))
  (Hsession : validated < lt_expiry n + MaxAge) :
  exists c w'' id, AuthMiddleware keys true parsed now validated r' (World (tables w') []) = (Ok (Pass c), w'') /\
    random = Ok id /\ au_UserID c = User_ID account /\ au_Username c = User_Username account /\
    au_SessionID c = id /\ au_AuthMode c = AuthModeCookie.
Proof.
  apply login_inv in Hin as (_ & _ & _ & _ & w1 & w2 & Ht & E1 & E2).
  assert (Ha : p_access (tables w2) = p_access (tables w)).
  { change w2 with (Ok (A := login_answer + bool) (inr enabled), w2).2. rewrite <- E1.
    apply (preserves_check_second_factor (fun t => p_access t = p_access (tables w))); try done.
    - intros l t <-. by destruct t as [[] ? ? ? ? ? ?].
    - by rewrite Ht. }
  apply open_session_inv in E2 as (s & kept & Hr & Hu & Hj & Hs & Ht' & Hk & Hacc).
  destruct Hcookie as (Hauth & Hck & Htk). rewrite Ha in Hacc.
  assert (Hver : Totp.EffectiveSecurityVersion account <> 0).
  { unfold Totp.EffectiveSecurityVersion. destruct (_ =? 0) eqn:Ev; [lia|]. by apply Z.eqb_neq. }
  destruct (ValidateJWT_generated _ _ _ _ _ _ _ parsed now Hj Hver Hlimit Hnow)
    as (Hne & claims & Hval & Hid & Hsid & Hv).
  unfold AuthMiddleware, token_branch, bearer_token. rewrite Hauth, Hck, Htk. cbn [String.eqb negb].
  rewrite !andb_false_r, (proj2 (String.eqb_neq _ _) Htoken), Hval, Hsid,
    (proj2 (String.eqb_neq _ _) Hne).
  destruct (check_session_live AuthModeCookie validated claims account s (tables w'))
    as (c & w'' & Hc & Hcid & Hcu & Hcs & Hcm); [congruence|done|done|by rewrite Hid, Hs|..].
  - rewrite Ht'. apply Session.Validate_live; try done; try (by rewrite Hs).
    + apply find_last_by.
      * intros q Hq. destruct (Hk q Hq) as [_ Hqi]. apply String.eqb_neq in Hqi. by rewrite Hqi, andb_false_r.
      * rewrite Hs at 1. cbn. by rewrite String.eqb_refl, Z.eqb_refl.
    + rewrite Hs. cbn. by rewrite effective_version_idem.
  - exists c, w'', (Session.ID s). rewrite Hcid, Hcs. by rewrite Hid, Hsid.
Qed.
End login_properties.

(** ** A history of the panel *)

Inductive panel_operation :=
  | PanelRequest (database : bool) (parsed now validated : time) (r : Request)
  | PanelLogin (n : login_times) (random : result string) (r : Request) (bound : option error)
      (req : LoginRequest)
  | PanelLogout (revoked now appended : time) (r : Request) (c : AuthContext)
  | PanelPassword (now : time) (userID : Z) (currentPassword newPassword : string)
      (hashed : result string)
  | PanelSession (op : Session.operation)
  | PanelTwoFactor (op : Totp.operation)
  | PanelTicket (ttl : duration) (raw : result (list Z)) (now : time) (claims : TicketClaims)
  | PanelContainerTicket (ttl : duration) (raw : result (list Z)) (now : time)
      (claims : ContainerTerminalTicketClaims).

Section history.
Context `{!UnicodeCase} `{!UnicodeKind} `{!AEAD} `{!Totp.HashListCodec} `{!JWT}.
Variable CheckPasswordHash : string -> string -> bool.
Variable PathEscape : string -> string.
Variable credential_key : CredentialKey.
Variable keys : JWTKeys.
Variable config : Authorization.Config.
Variable manager : option Manager.

Definition perform_session (op : Session.operation) (w : world PanelTables) : world PanelTables :=
  let v := Session.perform op (World (p_sessions (tables w)) (faults w)) in
  World (put_sessions (tables v) (tables w)) (faults v).

Definition perform_two_factor (op : Totp.operation) (w : world PanelTables) : world PanelTables :=
  let v := Totp.perform CheckPasswordHash PathEscape credential_key op
             (World (get_security (tables w)) (faults w)) in
  World (put_security (tables v) (tables w)) (faults v).

(** The panel after an operation, whatever it answered. *)
Definition perform_panel (op : panel_operation) (w : world PanelTables) : world PanelTables :=
  match op with
  | PanelRequest database parsed now validated r =>
      (AuthMiddleware keys database parsed now validated r w).2
  | PanelLogin n random r bound req =>
      (LoginHandler CheckPasswordHash credential_key keys config manager n random r bound req w).2
  | PanelLogout revoked now appended r c => (LogoutHandler manager revoked now appended r c w).2
  | PanelPassword now userID currentPassword newPassword hashed =>
      (on_security (ResetPassword CheckPasswordHash now userID currentPassword newPassword hashed) w).2
  | PanelSession op => perform_session op w
  | PanelTwoFactor op => perform_two_factor op w
  | PanelTicket ttl raw now claims =>
      (in_memory (fun t => let '(x, entries) := Issue ttl raw now claims (p_tickets t) in
        (x, put_tickets entries t)) w).2
  | PanelContainerTicket ttl raw now claims =>
      (in_memory (fun t => let '(x, entries) := IssueContainer ttl raw now claims (p_container_tickets t) in
        (x, put_container_tickets entries t)) w).2
  end.

Definition perform_history (ops : list panel_operation) (w : world PanelTables) : world PanelTables :=
  fold_left (fun w op => perform_panel op w) ops w.

(** The operation does not draw [id] for a new session. *)
Definition draws_no (id : string) (op : panel_operation) : Prop :=
  match op with
  | PanelLogin _ (Ok new) _ _ _ => new <> id
  | PanelSession op => Session.creates_no id op
  | _ => True
  end.

Section locked_out.
Variable id : string.
Abbreviation out := (fun t => Session.dead id (p_sessions t)).

Lemma out_on_sessions {A} (m : M Session.SessionTables A) :
  preserves (Session.dead id) m -> preserves out (on_sessions m).
Proof. by apply (preserves_zoom _ (Session.dead id)). Qed.

Lemma out_Validate now i u v : preserves out (on_sessions (Session.Validate now i u v)).
Proof. apply out_on_sessions. intros w. apply Session.Validate_dead. Qed.

Lemma out_Revoke now u i reason : preserves out (on_sessions (Session.Revoke now u i reason)).
Proof.
  apply out_on_sessions. intros w Hw.
  by apply (Session.perform_dead id (Session.OpRevoke now u i reason) w).
Qed.

Lemma out_in_memory {A} (f : PanelTables -> result A * PanelTables) :
  (forall t, p_sessions (f t).2 = p_sessions t) -> preserves out (in_memory f).
Proof.
  intros Hf w Hw. unfold in_memory. specialize (Hf (tables w)).
  destruct (f (tables w)) as [r t]. cbn in *. by rewrite Hf.
Qed.

#[local] Hint Resolve out_Validate out_Revoke : store.

Lemma out_access_first {A} (f : AccessTables -> option A) : preserves out (on_access (first f)).
Proof. apply preserves_on_access, readonly_first. Qed.

Lemma out_LoadUserAccess u : preserves out (on_access (LoadUserAccess u)).
Proof. apply preserves_on_access, readonly_LoadUserAccess. Qed.

#[local] Hint Resolve out_access_first out_LoadUserAccess : store.

Lemma out_check_ticket a b c database now claims :
  preserves out (check_ticket a b c database now claims).
Proof. unfold check_ticket. preserving. Qed.

#[local] Hint Resolve out_check_ticket : store.

Lemma out_AuthMiddleware database parsed now validated r :
  preserves out (AuthMiddleware keys database parsed now validated r).
Proof.
  unfold AuthMiddleware, container_branch, ssh_branch, token_branch, check_session. preserving.
  all: apply out_in_memory; intros t; cbn; by case_match.
Qed.

Lemma out_RecordAuthEvent now appended r action username userID status o mode message :
  preserves out (RecordAuthEvent manager now appended r action username userID status o mode message).
Proof. by apply preserves_RecordAuthEvent. Qed.

Lemma out_create_log now r info content username :
  preserves out (create_log now r info content username).
Proof. by apply preserves_create_log. Qed.

#[local] Hint Resolve out_RecordAuthEvent out_create_log : store.

Lemma out_open_session n random r username account enabled :
  match random with Ok new => new <> id | Fail _ => True end ->
  preserves out (open_session keys config manager n random r username account enabled).
Proof.
  intros Hr. unfold open_session. generalize (Authorization.BuildAuthorizationMatrix config).
  intros g. apply preserves_bind; [|preserving]. apply preserves_attempt, out_on_sessions. intros w Hw.
  apply Session.Create_dead; [|done]. by destruct random.
Qed.

Lemma out_LoginHandler n random r bound req :
  match random with Ok new => new <> id | Fail _ => True end ->
  preserves out (LoginHandler CheckPasswordHash credential_key keys config manager n random r bound req).
Proof.
  intros Hr. unfold LoginHandler. preserving.
  - apply preserves_CheckUserPassword.
  - by apply preserves_check_second_factor.
  - by apply out_open_session.
Qed.

Lemma out_ResetPassword now user current new hashed :
  preserves out (on_security (ResetPassword CheckPasswordHash now user current new hashed)).
Proof.
  apply (preserves_zoom _ (fun s => Session.dead id (Totp.sec_sessions s))); [done|done|].
  unfold ResetPassword. preserving.
  - apply preserves_exec. by intros t [] t' [= <-].
  - apply preserves_exec. intros t [] t' [= <-] Hd. by apply Session.dead_update.
Qed.

Lemma out_perform op w :
  draws_no id op -> out (tables w) -> out (tables (perform_panel op w)).
Proof.
  intros Hd Hw. destruct op; cbn [perform_panel].
  - by apply out_AuthMiddleware.
  - by apply out_LoginHandler.
  - revert w Hw. change (preserves out (LogoutHandler manager revoked now appended r c)).
    unfold LogoutHandler. preserving.
  - by apply out_ResetPassword.
  - by apply Session.perform_dead.
  - apply (preserves_two_factor (fun s => Session.dead id (Totp.sec_sessions s))); try done.
    intros t now user Ht t' [= <-]. by apply Session.dead_update.
  - apply out_in_memory; [|done]. intros t. cbn. by case_match.
  - apply out_in_memory; [|done]. intros t. cbn. by case_match.
Qed.

Lemma out_history ops w :
  Forall (draws_no id) ops -> out (tables w) -> out (tables (perform_history ops w)).
Proof.
  intros Hops. revert w. induction Hops as [|op ops Hop _ IH]; intros w Hw; [done|].
  by apply IH, out_perform.
Qed.

Lemma out_never_passes database parsed now validated r w c w' :
  out (tables w) -> AuthMiddleware keys database parsed now validated r w = (Ok (Pass c), w') ->
  au_SessionID c <> id.
Proof.
  intros Hw E. unfold AuthMiddleware in E.
  assert (Hb : backed validated (tables w) c).
  { destruct (_ && _); [|destruct (_ && _)].
    - by apply (container_branch_Pass keys database parsed) in E as [? _].
    - by apply (ssh_branch_Pass keys database parsed) in E as [? _].
    - by apply token_branch_Pass in E as [? _]. }
  destruct Hb as (account & s & _ & _ & _ & Hin & Hid & _ & Hrev & _).
  unfold Session.dead in Hw. rewrite Forall_forall in Hw. intros Hc.
  apply (Hw s); [by apply list_elem_of_In|by rewrite Hid|done].
Qed.
End locked_out.

(** What an accepted change of the password does to the tables. *)
Lemma ResetPassword_Ok now user current new hashed w w' :
  ResetPassword CheckPasswordHash now user current new hashed w = (Ok tt, w') ->
  exists u h, Totp.user_of user (tables w) = Some u /\ hashed = Ok h /\
    validatePasswordStrength new = Ok tt /\
    (User_MustChangePassword u = true \/ CheckPasswordHash current (User_Password u) = true) /\
    Totp.sec_users (tables w') = map (fun q =>
      if User_ID q =? user then with_password h (u64 (Totp.EffectiveSecurityVersion u + 1)) q else q)
      (Totp.sec_users (tables w)) /\
    Totp.sec_sessions (tables w') = map (fun r =>
      if Session.scoped r && (Session.UserID r =? user) && Session.is_none (Session.RevokedAt r)
      then Session.with_revocation now "password_changed" r else r) (Totp.sec_sessions (tables w)).
Proof.
  unfold ResetPassword. destruct (validatePasswordStrength new) as [[]|]; [|done].
  destruct hashed as [h|]; [|done]. intros E. apply transaction_Ok in E as (w1 & w2 & Ht & E & Ht').
  apply bind_Ok in E as (u & w3 & [Hu Hw3]%first_Ok & E). destruct (_ && _) eqn:Eg; [done|].
  apply bind_Ok in E as ([] & w4 & E1%statement_Ok & E2%statement_Ok).
  injection E1 as E1. injection E2 as E2. exists u, h. rewrite Ht', <- E2, <- E1, Hw3. cbn.
  rewrite Ht in *. split_and!; try done. apply andb_false_iff in Eg as [Eg|Eg]; bool_props; auto.
Qed.

(** C2: a changed password locks every earlier login out for good. Once an
    account has changed its password, no request passes with a session that the
    account had before, by cookie, bearer token or terminal ticket, whatever
    happens to the panel afterwards: requests, logins, logouts, further changes
    of passwords, session and two-factor operations, in any order and with any
    faults, as long as the generator does not draw the identifier again. *)
Theorem password_change_locks_out now user current new hashed w w1 s ops
  (Hchange : on_security (ResetPassword CheckPasswordHash now user current new hashed) w = (Ok tt, w1))
  (Hs : In s (p_sessions (tables w)) /\ Session.UserID s = user /\ Session.DeletedAt s = None)
  (Hkey : forall q, In q (p_sessions (tables w)) -> Session.ID q = Session.ID s -> q = s)
  (Hfresh : Forall (draws_no (Session.ID s)) ops) :
  forall database parsed now' validated r c w2,
    AuthMiddleware keys database parsed now' validated r (perform_history ops w1) = (Ok (Pass c), w2) ->
    au_SessionID c <> Session.ID s.
Proof.
  intros database parsed now' validated r c w2. apply out_never_passes, out_history; [done|].
  apply zoom_run in Hchange as (v & E & ->). cbn [tables].
  apply ResetPassword_Ok in E as (u & h & _ & _ & _ & _ & _ & Hv). cbn in Hv |- *. rewrite Hv.
  destruct Hs as (_ & Hu & Hd). unfold Session.dead. rewrite Forall_map_iff. apply Forall_forall.
  intros q Hq%list_elem_of_In. destruct (_ && _) eqn:Ec; [done|]. intros Hid.
  rewrite (Hkey q Hq Hid) in Ec |- *. unfold Session.scoped in Ec. rewrite Hu, Hd, Z.eqb_refl in Ec.
  cbn in Ec. by destruct (Session.RevokedAt s).
Qed.
End history.

(** ** A concrete panel *)

Definition ascii_kind : UnicodeKind := {|
  uk_upper _ := false; uk_lower _ := false; uk_number _ := false; uk_special _ := false |}.

Definition demo_times : login_times :=
  mkTimes demo_issued demo_issued demo_issued demo_issued demo_issued demo_issued demo_issued demo_issued.

(** An account with two-factor authentication and an earlier session. *)
Definition demo_secured : PanelTables :=
  put_security (Totp.set_mfa (get_security demo_panel) [Totp.demo_row ""]) demo_panel.

Definition demo_login : M PanelTables login_answer :=
  @LoginHandler latin1_case demo_aead Totp.demo_hashes demo_jwt Totp.demo_check Totp.demo_key demo_keys
    (Authorization.mkConfig true true) None demo_times (Ok "s2") (demo_request None) None
    (mkLogin " ops" "pw" "287082").

Lemma demo_logged_in : exists menu access w',
  demo_login (World demo_secured []) = (Ok (LoggedIn "s2" Totp.demo_account menu access true), w').
Proof. eexists _, _, _. vm_compute. reflexivity. Qed.

(** The code is used up by the login; without it the same password is asked for
    a second factor. *)
Lemma login_takes_every_factor_witness :
  exists menu access w' s,
    demo_login (World demo_secured []) = (Ok (LoggedIn "s2" Totp.demo_account menu access true), w') /\
    In s (p_sessions (tables w')) /\ Session.ID s = "s2" /\
    @second_factor_met latin1_case demo_aead Totp.demo_hashes Totp.demo_key demo_times 5 "287082" true
      demo_secured.
Proof.
  destruct demo_logged_in as (menu & access & w' & E).
  destruct (@login_takes_every_factor latin1_case demo_aead Totp.demo_hashes demo_jwt Totp.demo_check
    Totp.demo_key demo_keys (Authorization.mkConfig true true) None demo_times (Ok "s2")
    (demo_request None) None (mkLogin " ops" "pw" "287082") (World demo_secured []) "s2"
    Totp.demo_account menu access true w' E) as (_ & _ & _ & Hf & s & kept & Hs & _ & Hid & _).
  exists menu, access, w', s. split; [exact E|]. split.
  - rewrite Hs. apply in_or_app. right. left. reflexivity.
  - split; [congruence|exact Hf].
Defined.

Lemma login_then_authenticated_witness :
  exists menu access w' c w'',
    demo_login (World demo_secured []) = (Ok (LoggedIn "s2" Totp.demo_account menu access true), w') /\
    @AuthMiddleware demo_jwt demo_keys true (demo_issued + Hour) (demo_issued + Hour) (demo_issued + Hour)
      (demo_request (Some "s2")) (World (tables w') []) = (Ok (Pass c), w'') /\
    au_SessionID c = "s2".
Proof.
  destruct demo_logged_in as (menu & access & w' & E).
  destruct (@login_then_authenticated latin1_case demo_aead Totp.demo_hashes demo_jwt Totp.demo_check
    Totp.demo_key demo_keys (Authorization.mkConfig true true) None demo_times (Ok "s2")
    (demo_request None) None (mkLogin " ops" "pw" "287082") (World demo_secured []) "s2"
    Totp.demo_account menu access true w' (demo_issued + Hour) (demo_issued + Hour) (demo_issued + Hour)
    (demo_request (Some "s2")) E eq_refl ltac:(discriminate)
    (conj eq_refl (conj eq_refl eq_refl)) eq_refl ltac:(vm_compute; discriminate) eq_refl)
    as (c & w'' & id & Hrun & Hid & _ & _ & Hs & _).
  exists menu, access, w', c, w''. split; [exact E|]. split; [exact Hrun|]. congruence.
Defined.

(** After a change of the password the old cookie is refused, also after a new
    login, whose own cookie passes. *)
Lemma password_change_locks_out_witness :
  exists w1 c w2,
    on_security (@ResetPassword latin1_case Totp.demo_check ascii_kind demo_issued 5 "pw" "N3w+secret"
      (Ok "#N3w+secret")) (World demo_panel []) = (Ok tt, w1) /\
    @AuthMiddleware demo_jwt demo_keys true demo_issued demo_issued demo_issued
      (demo_request (Some "s1")) (World demo_panel []) = (Ok (Pass c), w2) /\
    forall c' w3, @AuthMiddleware demo_jwt demo_keys true demo_issued demo_issued demo_issued
      (demo_request (Some "s1"))
      (@perform_history latin1_case ascii_kind demo_aead Totp.demo_hashes demo_jwt Totp.demo_check
        (fun s => s) Totp.demo_key demo_keys (Authorization.mkConfig true true) None
        [PanelLogin demo_times (Ok "s2") (demo_request None) None (mkLogin "ops" "N3w+secret" "");
         PanelRequest true demo_issued demo_issued demo_issued (demo_request (Some "s1"))] w1)
      <> (Ok (Pass (mkAuth (au_Username c') (au_UserID c') (au_AuthMode c') "s1"
            (au_MustChangePassword c') (au_Access c'))), w3).
Proof.
  eexists _, _, _. split; [vm_compute; reflexivity|]. split; [vm_compute; reflexivity|].
  intros c' w3 E.
  eapply (@password_change_locks_out latin1_case ascii_kind demo_aead Totp.demo_hashes demo_jwt
    Totp.demo_check (fun s => s) Totp.demo_key demo_keys (Authorization.mkConfig true true) None
    demo_issued 5 "pw" "N3w+secret" (Ok "#N3w+secret") (World demo_panel []) _ demo_session
    _ ltac:(vm_compute; reflexivity)); [| | |exact E|reflexivity].
  - split; [left; reflexivity|split; reflexivity].
  - intros q [<-|[]] _. reflexivity.
  - repeat constructor. discriminate.
Defined.
