(* ===== verification/PasswordGuard.v ===== *)
(** The throttle of password checks behind a login:
    [internal/services/security/password_verification.go] and the handler
    [VerifyPassword] of [router/handler/security/security.go].

    The guard keeps, per account and address, the failures of the last ten
    minutes; the fifth locks the pair for a quarter of an hour.  The check and
    the record of a failure are two critical sections, with the comparison of
    the password between them. *)

From S2P Require Import Prelude GoStrings GoText Store AuditTrail Access Authentication Login.
From stdpp Require Import options.
#[local] Open Scope Z_scope.

Definition passwordVerificationFailureLimit : Z := 5.
Definition passwordVerificationWindow : duration := 10 * Minute.
Definition passwordVerificationCooldown : duration := 15 * Minute.

Record passwordVerificationAttempt := mkAttempt { failures : list time; lockedUntil : time }.
Abbreviation passwordVerificationGuard := (gmap string passwordVerificationAttempt).

Definition no_attempt : passwordVerificationAttempt := mkAttempt [] 0.

Definition passwordVerificationKey (userID : Z) (remoteIP : string) : string :=
  Itoa userID +:+ ":" +:+ remoteIP.

Definition recentPasswordVerificationFailures (failures : list time) (now : time) : list time :=
  let cutoff := now - passwordVerificationWindow in
  List.filter (fun failure => After failure cutoff) failures.

(** [until]: the clock of [time.Until]. *)
Definition PasswordVerificationAllowed (now until : time) (userID : Z) (remoteIP : string)
    (entries : passwordVerificationGuard) : bool * duration * passwordVerificationGuard :=
  let key := passwordVerificationKey userID remoteIP in
  match entries !! key with
  | None => (true, 0, entries)
  | Some entry =>
      if After (lockedUntil entry) now then (false, lockedUntil entry - until, entries)
      else
        let entry := mkAttempt (recentPasswordVerificationFailures (failures entry) now) 0 in
        if (List.length (failures entry) =? 0)%nat then (true, 0, delete key entries)
        else (true, 0, <[key := entry]> entries)
  end.

Definition RecordPasswordVerificationFailure (now : time) (userID : Z) (remoteIP : string)
    (entries : passwordVerificationGuard) : bool * duration * passwordVerificationGuard :=
  let key := passwordVerificationKey userID remoteIP in
  let entry := default no_attempt (entries !! key) in
  let recent := recentPasswordVerificationFailures (failures entry) now ++ [now] in
  if passwordVerificationFailureLimit <=? Z.of_nat (List.length recent) then
    (true, passwordVerificationCooldown,
     <[key := mkAttempt [] (now + passwordVerificationCooldown)]> entries)
  else (false, 0, <[key := mkAttempt recent (lockedUntil entry)]> entries).

Definition ResetPasswordVerificationFailures (userID : Z) (remoteIP : string)
    (entries : passwordVerificationGuard) : passwordVerificationGuard :=
  delete (passwordVerificationKey userID remoteIP) entries.

(** ** The handler *)

Definition ErrUnauthorized : Z := 1100.
Definition ErrRateLimitExceeded : Z := 1004.

Inductive verify_answer :=
  | VerifyRefused (e : AppError) (retryAfter : option Z)
  | Verified.

(** What the handler reads of the clock. *)
Record verify_times := mkVerifyTimes {
  vt_check : time; vt_until : time; vt_failure : time; vt_event : time; vt_append : time
}.

Section handler.
Context `{!UnicodeCase}.
Variable CheckPasswordHash : string -> string -> bool.
Variable manager : option Manager.

(** [password] is [None] when the body does not bind. *)
Definition VerifyPassword (n : verify_times) (r : Request) (c : AuthContext)
    (password : option string) (entries : passwordVerificationGuard)
    : M PanelTables (verify_answer * passwordVerificationGuard) :=
  if negb (0 <? au_UserID c) then
    ret (VerifyRefused (NewError ErrUnauthorized "登录状态无效") None, entries)
  else
    let userID := au_UserID c in
    let username := au_Username c in
    let remoteIP := rq_RemoteIP r in
    let '(allowed, remaining, entries) :=
      PasswordVerificationAllowed (vt_check n) (vt_until n) userID remoteIP entries in
    if negb allowed then
      let seconds := Z.quot remaining Second in
      let seconds := if seconds <? 1 then 1 else seconds in
      let* _ := RecordAuthEvent manager (vt_event n) (vt_append n) r "auth.password_verify_blocked"
        username userID 429 "failure" "" "密码校验失败次数过多，正在冷却" in
      ret (VerifyRefused (NewError ErrRateLimitExceeded "密码校验失败次数过多，请稍后再试") (Some seconds),
           entries)
    else
      match password with
      | None => ret (VerifyRefused (NewError ErrBadRequest "请输入当前面板密码") None, entries)
      | Some password =>
          let* checked := CheckUserPassword CheckPasswordHash username password in
          if match checked with Some account => User_ID account =? userID | None => false end then
            let entries := ResetPasswordVerificationFailures userID remoteIP entries in
            let* _ := RecordAuthEvent manager (vt_event n) (vt_append n) r "auth.password_verify"
              username userID 200 "success" "" "" in
            ret (Verified, entries)
          else
            let '(locked, cooldown, entries) :=
              RecordPasswordVerificationFailure (vt_failure n) userID remoteIP entries in
            let* _ := RecordAuthEvent manager (vt_event n) (vt_append n) r "auth.password_verify"
              username userID 401 "failure" "" "当前面板密码错误" in
            ret (VerifyRefused (NewError ErrInvalidPassword "当前面板密码错误")
                   (if locked then Some (Z.quot cooldown Second) else None), entries)
      end.
End handler.

(** ** Keys *)

Lemma split_digits a b x y :
  sforall is_digit a = true -> sforall is_digit b = true ->
  a +:+ ":" +:+ x = b +:+ ":" +:+ y -> a = b /\ x = y.
Proof.
  revert b. induction a as [|c a IH]; intros [|d b] Ha Hb E; cbn in *.
  - by injection E as ->.
  - injection E as <- _. by rewrite andb_false_l in Hb.
  - injection E as -> _. by rewrite andb_false_l in Ha.
  - apply andb_true_iff in Ha as [_ Ha]. apply andb_true_iff in Hb as [_ Hb].
    injection E as <- E. by destruct (IH b Ha Hb E) as [<- <-].
Qed.

(** Accounts and addresses do not share a key: a lock is of one pair. *)
Lemma passwordVerificationKey_inj u v ip ip' :
  0 < u -> 0 < v -> passwordVerificationKey u ip = passwordVerificationKey v ip' -> u = v /\ ip = ip'.
Proof.
  intros Hu Hv E. unfold passwordVerificationKey, Itoa in E.
  destruct (Z.ltb_spec u 0); [lia|]. destruct (Z.ltb_spec v 0); [lia|].
  apply split_digits in E as [E <-]; try (apply digits_digits; lia). split; [|done].
  apply (f_equal (parse_digits 0)) in E. rewrite !parse_digits_digits in E by lia. by injection E.
Qed.

(** ** Counting guesses *)

(** The failures since [now - passwordVerificationWindow], and those in a
    window of this length. *)
Definition recent (now : time) (l : list time) : nat :=
  List.length (recentPasswordVerificationFailures l now).
Definition within (start : time) (l : list time) : nat :=
  List.length (List.filter (fun t => (start <? t) && (t <=? start + passwordVerificationWindow)) l).

Lemma count_app {A} (c : A -> bool) l k :
  List.length (List.filter c (l ++ k)) = (List.length (List.filter c l) + List.length (List.filter c k))%nat.
Proof. by rewrite List.filter_app, length_app. Qed.

Lemma recent_app now l k : recent now (l ++ k) = (recent now l + recent now k)%nat.
Proof. apply count_app. Qed.

Lemma recent_filter now now' l :
  now <= now' -> recent now' (recentPasswordVerificationFailures l now) = recent now' l.
Proof.
  intros Hn. unfold recent, recentPasswordVerificationFailures, After.
  induction l as [|t l IH]; [done|]. cbn.
  destruct (Z.ltb_spec (now - passwordVerificationWindow) t); cbn;
    destruct (Z.ltb_spec (now' - passwordVerificationWindow) t); cbn; lia.
Qed.

Lemma recent_none now l : Forall (fun t => t <= now - passwordVerificationWindow) l -> recent now l = 0%nat.
Proof.
  induction 1 as [|t l Ht _ IH]; [done|]. unfold recent, recentPasswordVerificationFailures in *. cbn.
  unfold After in *. destruct (Z.ltb_spec (now - passwordVerificationWindow) t); [lia|done].
Qed.

Lemma recent_le_length now l : (recent now l <= List.length l)%nat.
Proof. unfold recent, recentPasswordVerificationFailures. apply filter_length_le. Qed.

(** A window that reaches [now] holds recent failures only. *)
Lemma within_recent start now l :
  now - passwordVerificationWindow <= start -> (within start l <= recent now l)%nat.
Proof.
  intros Hs. unfold within, recent, recentPasswordVerificationFailures, After.
  induction l as [|t l IH]; [done|]. cbn. repeat case_goal; bool_props; cbn; try lia.
  all: repeat match goal with H : (_ && _) = false |- _ => apply andb_false_iff in H as [H|H] end; bool_props; lia.
Qed.

(** What an entry knows of the wrong guesses [ts] made so far. *)
Record entry_ok (now : time) (e : passwordVerificationAttempt) (ts : list time) : Prop := {
  eo_past : Forall (fun t => t <= now) ts;
  eo_few : (List.length (failures e) <= 4)%nat;
  eo_known now' : now <= now' -> lockedUntil e <= now' ->
    (recent now' ts <= recent now' (failures e))%nat;
  eo_bound start : (within start ts <= 5)%nat
}.

Lemma entry_ok_later now now' e ts : now <= now' -> entry_ok now e ts -> entry_ok now' e ts.
Proof.
  intros Hn [H1' H2' H3' H4']. split; [|done| |done].
  - eapply Forall_impl; [exact H1'|]. cbn. lia.
  - intros now'' Hn'. apply H3'. lia.
Qed.

Lemma entry_ok_allowed now e ts :
  entry_ok now e ts -> 0 <= now -> lockedUntil e <= now ->
  entry_ok now (mkAttempt (recentPasswordVerificationFailures (failures e) now) 0) ts.
Proof.
  intros [H1' H2' H3' H4'] H0' Hl. split; cbn [failures lockedUntil]; [done| | |done].
  - etransitivity; [apply (recent_le_length now (failures e))|done].
  - intros now' Hn _. rewrite recent_filter by done. apply H3'; [done|]. lia.
Qed.

Lemma entry_ok_failure now e ts :
  entry_ok now e ts -> 0 <= now -> lockedUntil e <= now ->
  entry_ok now
    (let fs := recentPasswordVerificationFailures (failures e) now ++ [now] in
     if passwordVerificationFailureLimit <=? Z.of_nat (List.length fs)
     then mkAttempt [] (now + passwordVerificationCooldown) else mkAttempt fs (lockedUntil e))
    (ts ++ [now]).
Proof.
  intros [H1' H2' H3' H4'] H0' Hl.
  assert (Hrec : (recent now ts <= 4)%nat).
  { etransitivity; [by apply H3'|]. etransitivity; [apply recent_le_length|done]. }
  assert (Hbound : forall start, (within start (ts ++ [now]) <= 5)%nat).
  { intros start. unfold within. rewrite count_app. fold (within start ts). cbn.
    destruct (_ && _) eqn:Ew; cbn; [|specialize (H4' start); lia]. bool_props.
    pose proof (within_recent start now ts ltac:(lia)). lia. }
  assert (Hpast : Forall (fun t => t <= now) (ts ++ [now])).
  { apply Forall_app. split; [done|]. by repeat constructor. }
  cbv zeta. destruct (Z.leb_spec passwordVerificationFailureLimit
    (Z.of_nat (List.length (recentPasswordVerificationFailures (failures e) now ++ [now]))));
    split; cbn [failures lockedUntil]; try done.
  - cbn. lia.
  - intros now' Hn Hlock. rewrite recent_none; [done|]. eapply Forall_impl; [exact Hpast|].
    cbn. unfold passwordVerificationWindow, passwordVerificationCooldown, Minute, Second in *. lia.
  - unfold passwordVerificationFailureLimit in *. lia.
  - intros now' Hn Hlock. rewrite !recent_app, recent_filter by done.
    specialize (H3' now' Hn ltac:(lia)). lia.
Qed.

Section throttled.
Context `{!UnicodeCase}.
Variable CheckPasswordHash : string -> string -> bool.
Variable manager : option Manager.

Record try := mkTry { tr_times : verify_times; tr_request : Request; tr_context : AuthContext;
  tr_password : option string }.

(** Wrong guesses so far: account, address, and when they were recorded. *)
Abbreviation guesses := (list (Z * string * time)).

Definition times_of (userID : Z) (remoteIP : string) (log : guesses) : list time :=
  map snd (List.filter (fun g => (g.1.1 =? userID) && String.eqb g.1.2 remoteIP) log).

(** One call of the handler; a request answered with "wrong password" is a
    guess. *)
Definition perform_try (s : passwordVerificationGuard * world PanelTables * guesses) (t : try)
    : passwordVerificationGuard * world PanelTables * guesses :=
  let '(entries, w, log) := s in
  match VerifyPassword CheckPasswordHash manager (tr_times t) (tr_request t) (tr_context t)
          (tr_password t) entries w with
  | (Ok (VerifyRefused e _, entries'), w') =>
      (entries', w', if ae_Code e =? ErrInvalidPassword
        then log ++ [(au_UserID (tr_context t), rq_RemoteIP (tr_request t), vt_failure (tr_times t))]
        else log)
  | (Ok (Verified, entries'), w') => (entries', w', log)
  | (Fail _, w') => (entries, w', log)
  end.

(** The guesser has no right password, and the calls come one after the other. *)
Definition guesser (t : try) : Prop :=
  forall password, tr_password t = Some password -> forall hash, CheckPasswordHash password hash = false.

Fixpoint in_turn (now : time) (tries : list try) : Prop :=
  match tries with
  | [] => True
  | t :: tries => now <= vt_check (tr_times t) <= vt_failure (tr_times t)
                  /\ in_turn (vt_failure (tr_times t)) tries
  end.

Definition entry_of (userID : Z) (remoteIP : string) (entries : passwordVerificationGuard) :=
  default no_attempt (entries !! passwordVerificationKey userID remoteIP).

Definition guard_ok (now : time) (entries : passwordVerificationGuard) (log : guesses) : Prop :=
  forall userID remoteIP, 0 < userID ->
    entry_ok now (entry_of userID remoteIP entries) (times_of userID remoteIP log).

Lemma guard_ok_later now now' entries log :
  now <= now' -> guard_ok now entries log -> guard_ok now' entries log.
Proof. intros Hn Hg u ip Hu. by eapply entry_ok_later, Hg. Qed.

(** An operation on the entry of one pair. *)
Lemma guard_ok_update now entries entries' log log' u ip :
  guard_ok now entries log -> 0 < u ->
  (forall key, key <> passwordVerificationKey u ip -> entries' !! key = entries !! key) ->
  (forall u' ip', u' <> u \/ ip' <> ip -> times_of u' ip' log' = times_of u' ip' log) ->
  entry_ok now (entry_of u ip entries') (times_of u ip log') ->
  guard_ok now entries' log'.
Proof.
  intros Hg Hu He Hl Hok v ip' Hv. destruct (decide (v = u /\ ip' = ip)) as [[-> ->]|Hne]; [done|].
  assert (v <> u \/ ip' <> ip) as Hne'.
  { destruct (Z.eq_dec v u) as [->|]; [right|by left]. intros ->. by apply Hne. }
  unfold entry_of. rewrite Hl by done. rewrite He; [by apply Hg|].
  intros E. apply passwordVerificationKey_inj in E as [-> ->]; [by apply Hne|done..].
Qed.

Lemma Allowed_spec now until u ip entries b d entries' :
  PasswordVerificationAllowed now until u ip entries = (b, d, entries') -> 0 <= now ->
  if b then
    lockedUntil (entry_of u ip entries) <= now /\
    (forall key, key <> passwordVerificationKey u ip -> entries' !! key = entries !! key) /\
    entry_of u ip entries' =
      mkAttempt (recentPasswordVerificationFailures (failures (entry_of u ip entries)) now) 0
  else now < lockedUntil (entry_of u ip entries) /\ entries' = entries.
Proof.
  unfold PasswordVerificationAllowed, entry_of. intros E Hn.
  destruct (entries !! _) as [entry|] eqn:Ee; cbn [from_option id].
  - destruct (After _ _) eqn:Ea; unfold After in Ea; bool_props; [by injection E as <- _ <-|].
    destruct (Nat.eqb_spec (List.length (failures (mkAttempt
      (recentPasswordVerificationFailures (failures entry) now) 0))) 0) as [Hz|_];
      injection E as <- _ <-; (split; [lia|split]).
    + intros key Hk. by apply lookup_delete_ne.
    + rewrite lookup_delete_eq. cbn in *. by apply nil_length_inv in Hz as ->.
    + intros key Hk. by apply lookup_insert_ne.
    + by rewrite lookup_insert_eq.
  - injection E as <- _ <-. split; [done|]. split; [done|]. by rewrite Ee.
Qed.

Lemma Failure_spec now u ip entries b d entries' :
  RecordPasswordVerificationFailure now u ip entries = (b, d, entries') ->
  (forall key, key <> passwordVerificationKey u ip -> entries' !! key = entries !! key) /\
  entry_of u ip entries' =
    let e := entry_of u ip entries in
    let fs := recentPasswordVerificationFailures (failures e) now ++ [now] in
    if passwordVerificationFailureLimit <=? Z.of_nat (List.length fs)
    then mkAttempt [] (now + passwordVerificationCooldown) else mkAttempt fs (lockedUntil e).
Proof.
  unfold RecordPasswordVerificationFailure, entry_of. intros E. cbv zeta in E |- *.
  destruct (passwordVerificationFailureLimit <=? _); injection E as _ _ <-;
    (split; [intros key Hk; by apply lookup_insert_ne|by rewrite lookup_insert_eq]).
Qed.

(** What one call of a guesser does to the guard. *)
Lemma guess_spec n r c password entries w answer entries' w' :
  (forall p, password = Some p -> forall hash, CheckPasswordHash p hash = false) ->
  VerifyPassword CheckPasswordHash manager n r c password entries w = (Ok (answer, entries'), w') ->
  exists e retry, answer = VerifyRefused e retry /\
  ((ae_Code e =? ErrInvalidPassword) = false /\ (entries' = entries \/
     0 < au_UserID c /\ exists until d, PasswordVerificationAllowed (vt_check n) until (au_UserID c)
       (rq_RemoteIP r) entries = (true, d, entries')) \/
   (ae_Code e =? ErrInvalidPassword) = true /\ 0 < au_UserID c /\ exists until d entries1 b d',
     PasswordVerificationAllowed (vt_check n) until (au_UserID c) (rq_RemoteIP r) entries =
       (true, d, entries1) /\
     RecordPasswordVerificationFailure (vt_failure n) (au_UserID c) (rq_RemoteIP r) entries1 =
       (b, d', entries')).
Proof.
  intros Hp E. unfold VerifyPassword in E. destruct (Z.ltb_spec 0 (au_UserID c)); cbn [negb] in E.
  2: { apply ret_Ok in E as [[= <- <-] _]. eexists _, _. split; [done|]. left. auto. }
  destruct (PasswordVerificationAllowed _ _ _ _ _) as [[b d] entries1] eqn:Ea. destruct b; cbn [negb] in E.
  2: { apply bind_Ok in E as (x & w1 & _ & E). apply ret_Ok in E as [[= <- <-] _].
       eexists _, _. split; [done|]. left. split; [done|]. left.
       unfold PasswordVerificationAllowed in Ea. repeat case_hyp Ea; congruence. }
  destruct password as [p|].
  2: { apply ret_Ok in E as [[= <- <-] _]. eexists _, _. split; [done|]. left. split; [done|].
       right. eauto. }
  apply bind_Ok in E as (checked & w1 & E1 & E).
  destruct checked as [account|]; [apply CheckUserPassword_Some in E1 as (_ & E1 & _); by rewrite (Hp _ eq_refl) in E1|].
  destruct (RecordPasswordVerificationFailure _ _ _ _) as [[b d'] entries2] eqn:Ef.
  apply bind_Ok in E as (x & w2 & _ & E). apply ret_Ok in E as [[= <- <-] _].
  eexists _, _. split; [done|]. right. split; [done|]. split; [done|]. by eexists _, _, _, _, _.
Qed.

Lemma times_of_app u ip log v ip' t :
  times_of u ip (log ++ [(v, ip', t)]) =
    times_of u ip log ++ (if (v =? u) && String.eqb ip' ip then [t] else []).
Proof.
  unfold times_of. rewrite List.filter_app, map_app. cbn. by destruct (_ && _).
Qed.

Lemma perform_try_ok now entries w log t :
  guesser t -> 0 <= now -> now <= vt_check (tr_times t) <= vt_failure (tr_times t) ->
  guard_ok now entries log ->
  let '(entries', _, log') := perform_try (entries, w, log) t in
  guard_ok (vt_failure (tr_times t)) entries' log'.
Proof.
  intros Hg H0' Hn Hok. unfold perform_try.
  apply (guard_ok_later _ (vt_check (tr_times t))) in Hok; [|lia].
  destruct (VerifyPassword _ _ _ _ _ _ _ _) as [[[answer entries']|e] w'] eqn:E.
  2: by eapply guard_ok_later; [|exact Hok]; lia.
  apply guess_spec in E as (e & retry & -> & [[-> He]|(-> & Hu & until & d & entries1 & b & d' & Ea & Ef)]);
    [|..|done].
  - destruct He as [->|(Hu & until & d & Ea)]; [by eapply guard_ok_later; [|exact Hok]; lia|].
    apply Allowed_spec in Ea as (Hl & Hother & Hentry); [|lia].
    eapply guard_ok_later; [|eapply guard_ok_update; [exact Hok|exact Hu|exact Hother|done|]]; [lia|].
    rewrite Hentry. apply entry_ok_allowed; [by apply Hok|lia|done].
  - apply Allowed_spec in Ea as (Hl & Hother & Hentry); [|lia]. apply Failure_spec in Ef as [Hother' Hentry'].
    eapply guard_ok_update; [eapply guard_ok_later; [|exact Hok]; lia|exact Hu| | |].
    + intros key Hk. rewrite Hother' by done. by apply Hother.
    + intros u' ip' Hne. rewrite times_of_app.
      destruct (_ && _) eqn:Ec; [|by rewrite app_nil_r]. bool_props. by destruct Hne.
    + rewrite times_of_app, Z.eqb_refl, String.eqb_refl. cbn [andb]. rewrite Hentry', Hentry.
      apply entry_ok_failure; [|lia|cbn; lia].
      eapply entry_ok_later, entry_ok_allowed; [|by apply Hok|lia|done]. lia.
Qed.


(** The same check in parallel: any number of guesses that read the guard before
    one of them is recorded are all tested, in the same instant. *)
Lemma parallel_guesses_all_allowed (k : nat) userID remoteIP :
  Forall (fun x => (PasswordVerificationAllowed 0 0 userID remoteIP x).1.1 = true)
    (repeat (∅ : passwordVerificationGuard) k).
Proof.
  apply Forall_forall. intros x Hx. apply list_elem_of_In, repeat_spec in Hx as ->.
  unfold PasswordVerificationAllowed. by rewrite lookup_empty.
Qed.
End throttled.

Definition demo_guess (s : Z) : try :=
  mkTry (mkVerifyTimes (s * Second) (s * Second) (s * Second) 0 0) (demo_request None)
    (mkAuth "ops" 5 AuthModeCookie "s1" false None) (Some "guess").

Definition demo_guesses : list (Z * string * time) :=
  (fold_left (@perform_try latin1_case (fun _ _ => false) None) (map demo_guess [1; 2; 3; 4; 5; 6])
    (∅, World demo_panel [], [])).2.

